(* ===== verification/_CoqProject ===== *)
-Q . S2P
Prelude.v
Vct.v
Vsb.v
Argv.v
Vbm.v
Ws.v
Sha256.v
Slinger.v
SimpleList.v
Classic.v
CritTree.v
CritBit.v
CritBitSpec.v
Http.v
Dissect.v
Double.v
Ban.v
BanSpec.v
Vary.v
BinHeap.v
Hsh.v
HshSpec.v
Expire.v
ExpireSpec.v
Cnt.v
CntSpec.v
Strtoul.v
Reader.v
HttpConn.v
HttpConnSpec.v
Fetch.v
FetchSpec.v
StorageFile.v
StorageInv.v
StorageSpec.v
Esi.v
EsiRef.v
EsiSpec.v
EsiPage.v
Director.v
DirectorSpec.v
Backend.v
BackendSpec.v
BackendPoll.v
BackendPollSpec.v
Time.v
Ttl.v
TtlSpec.v
Response.v
ResponseSpec.v
Pool.v
PoolSpec.v
