(* ===== verification/Prelude.v ===== *)
(** * Varnish cache: a verification library

    Varnish is an HTTP accelerator.  A manager process starts one cache process
    ([bin/varnishd], files [cache_*.c], [hash_*.c], [storage_*.c]).  In it a
    session is driven through the states of [cache_center.c]: the request is
    received and dissected ([cache_httpconn.c], [cache_http.c]), hashed
    ([vsha256.c]) and looked up ([cache_hash.c] over a [hash_slinger]); on a
    miss a director chooses a backend ([cache_dir_*.c]), which gives a connection
    ([cache_backend.c]), and the object is fetched ([cache_fetch.c]), given a
    lifetime ([rfc2616.c]), taken apart for ESI ([cache_esi.c]) and put into storage
    ([storage_file.c]), gets a Vary specification ([cache_vary.c]), a ban
    ([cache_ban.c]) and a timer ([cache_expire.c] over [binary_heap.c]), and is
    published.  Memory of a request comes from workspaces ([cache_ws.c]); text
    is built in string buffers ([vsb.c]); operators type commands that
    [argv.c] splits.

    This library is a shallow embedding of these parts.  All paths below are
    under [src/varnish-cache/]; a definition has the name of the C function it
    translates wherever it translates a whole one.

    ** Files, components and the code they model

    - [Prelude]: assertions, bytes and C strings, 32- and 64-bit wrap-around,
      list lemmas, the automation of the library.
    - [Vct]: [lib/libvarnish/vct.c], [include/vct.h].  The class table.
    - [Vsb]: [lib/libvarnish/vsb.c].  String buffers, fixed and growing.
    - [Argv]: [lib/libvarnish/argv.c].  Splitting of command lines.
    - [Vbm]: [include/vbm.h].  Growing bit maps.
    - [Ws]: [bin/varnishd/cache_ws.c].  Workspaces over a byte memory.
    - [Sha256]: [lib/libvarnish/vsha256.c], against FIPS 180 ([Fips]).
    - [Slinger]: [bin/varnishd/hash_slinger.h], a type class: what
      [cache_hash.c] expects of an index.  Instances: [SimpleList]
      ([hash_simple_list.c]), [Classic] ([hash_classic.c]) and [CritBit]
      ([hash_critbit.c]; [CritTree] is the tree without pointers, [CritBitSpec]
      the refinement).
    - [Http]: [bin/varnishd/cache_http.c], header sets; [Dissect]: the same
      file, parsing of messages.
    - [Double]: finite binary64 numbers, for times.
    - [Ban], [BanSpec]: [bin/varnishd/cache_ban.c].  The ban list, the lurker,
      the purge commands.
    - [Vary]: [bin/varnishd/cache_vary.c].
    - [BinHeap]: [lib/libvarnish/binary_heap.c], over a type class [Items] for
      the callbacks of its client.
    - [Hsh], [HshSpec]: [bin/varnishd/cache_hash.c].  Heads, cores, lookups,
      waiting lists, reference counts.  Uses the index through [Slinger] and
      the bans through [BanSpec].
    - [Expire], [ExpireSpec]: [bin/varnishd/cache_expire.c].  Timers and LRU
      lists, over [Hsh] and [BinHeap].
    - [Cnt], [CntSpec]: [bin/varnishd/cache_center.c].  The state engine.
    - [Strtoul]: the C library's number conversion.  [Reader]: a type class of
      byte sources.
    - [HttpConn], [HttpConnSpec]: [bin/varnishd/cache_httpconn.c].  Framing.
    - [Fetch], [FetchSpec]: [bin/varnishd/cache_fetch.c].  Bodies, over any
      [Reader]; the connection of [HttpConn] is one.
    - [StorageFile], [StorageInv], [StorageSpec]: [bin/varnishd/storage_file.c].
      The allocator of the mapped file.
    - [Esi], [EsiRef], [EsiSpec], [EsiPage]: [bin/varnishd/cache_esi.c].  The
      parser over the segments of a body, a reference parser on one string,
      their agreement, and pages.
    - [Director], [DirectorSpec]: [bin/varnishd/cache_dir_round_robin.c] and
      [cache_dir_random.c].
    - [Backend], [BackendSpec]: [bin/varnishd/cache_backend.c],
      [cache_backend_cfg.c] and the saint mode of [cache_vrt.c].
    - [BackendPoll], [BackendPollSpec]: [bin/varnishd/cache_backend_poll.c].
    - [Time]: [lib/libvarnish/time.c] over the calendar of the C library.
    - [Ttl], [TtlSpec]: [bin/varnishd/rfc2616.c].
    - [Response], [ResponseSpec]: [bin/varnishd/cache_response.c] and
      [cache_wrw.c].  Headers and bodies of responses through the vectored writer.
    - [Pool], [PoolSpec]: [bin/varnishd/cache_pool.c].  Workers and the work queue,
      as a step relation.

    ** Conventions

    A failed [assert], [AN], [AZ], [CHECK_OBJ] or an access outside an array is
    [None]; theorems named [_safe], [_total], [_ok] say that it does not
    happen.  A result code of the program is a value of the result.  State is
    passed explicitly: a record of the fields of the C structure, or a map from
    addresses for structures that are shared through pointers.  Integers are
    [Z]; a 32- or 64-bit operation that can wrap is written with its
    wrap-around ([u32], [u64]).  Text is a list of bytes.

    What is not under [src/] is a parameter: [malloc], [mmap], the regular
    expression library, what the kernel delivers on a connection, the functions
    that the VCL compiler generates.  Hypotheses about them say what their
    documentation says, and each theorem that has one comes with a witness at a
    concrete instance.

    Operations that run under one lock from beginning to end are one step.
    Where the code gives the lock up, its phases are operations of their own
    ([Ban.ban_check_object], [CritBit.hcb_lookup], [Hsh]).  Threads are
    modelled as sequences of such steps; [Pool] has a step relation.

    ** Fuel

    Loops over lists are structural.  The others carry fuel, and a theorem says
    which amount is enough: the walk of a crit-bit tree 257 (a digest has 256
    bits, every turn goes to a larger one); the command line parser the length
    of the line ([Argv.ParseArgv_terminates]); the heap the depth of its rows
    ([BinHeap.binheap_delete_ok]); the state engine [8 * (max_restarts + 1)]
    turns ([CntSpec.request_ends]); the receive loops the bytes on the
    connection; the opening of a file its number of pages
    ([StorageSpec.smf_open_total]).
    The ESI parser makes a turn for each byte at most ([EsiRef.loop_fuel]), the
    loop over idle connections one for each of them.

    ** What the theorems show

    - Lookups: [HshSpec] says which object a request gets, that reference
      counts count, that sleepers wake, whatever index is plugged in;
      [CritBitSpec], [SimpleList] and [Classic] discharge the interface.
    - Requests: [CntSpec] says that no assertion of the state engine fails,
      that every request ends and that objects become visible only complete.
    - Lifetime: [ExpireSpec] ties heap, LRU lists and reference counts together;
      [BanSpec] says which objects a ban hits, by request and by lurker, and
      that saved bans compile to the same tests.
    - Messages: [Dissect] reads back what [Http] prints and refuses or accepts
      any response; [HttpConnSpec] and [FetchSpec] say that framing and bodies
      do not depend on how the bytes arrive.
    - Storage: [StorageSpec] refines the file stevedore to a coalescing
      first-fit allocator; [Ws] shows workspaces hand out disjoint pieces.
    - Building blocks: [Sha256] equals its standard; [Vsb], [Argv], [Vary] and
      [BinHeap] by round trips, bounds and invariants.
    - ESI: [EsiSpec] says that parsing does not depend on how a body is cut into
      segments; [EsiPage] that a page is taken apart into its meaning, and that
      what is delivered decodes to it.
    - Backends: [BackendSpec] counts connections, references and sockets over
      all calls and says whom saint mode refuses; [BackendPollSpec] says when
      probes make a backend healthy; [DirectorSpec] that a director finds a
      backend and serves each in its turn.
    - Lifetimes of responses: [TtlSpec] goes from header text to expiry time;
      [Time] shows that dates are read as they are written.
    - Delivery: [ResponseSpec] says that what goes out is a prefix of the response,
      and all of it unless the session is closed; and when the answer is 304.
    - Threads: [PoolSpec] says that over all interleavings no request is lost; and
      that a spurious wakeup breaks it.

    ** Not modelled

    Statistics, log records ([shmlog.c]) and debugging output; the manager
    process ([mgt_*.c]), its parameters and the panic handler; the VCL compiler
    ([lib/libvcl]) and most of the run time it calls ([cache_vrt.c]); the
    acceptors, waiters and the delays of the herders; pipe mode; the other
    stevedores; the utilities under [bin/] other than [varnishd].  Real time,
    signals and relaxed memory are outside of the models: the walk of the
    crit-bit tree without a lock is one atomic step.
 *)
From stdpp Require Export base tactics list numbers option gmap.
From Stdlib Require Export ZArith Lia.
From Stdlib Require Import Ascii String.
Export Stdlib.Strings.String.StringSyntax.

#[global] Open Scope Z_scope.

(** ** Assertions

    The program checks itself with [assert]/[AN]/[AZ]/[CHECK_OBJ] macros that
    abort the process.  An operation that contains such checks is a partial
    function: [None] is the aborted process. *)
Declare Scope varnish_scope.
Delimit Scope varnish_scope with varnish.
#[global] Open Scope varnish_scope.

Notation "'assert!' b ;; k" := (if b then k else None)
  (at level 100, b at level 85, k at level 200, right associativity) : varnish_scope.
Notation "'let?' x ':=' m 'in' k" := (match m with Some x => k | None => None end)
  (at level 100, x pattern, m at level 85, k at level 200, right associativity)
  : varnish_scope.

(** ** Bytes, C strings and the "C" locale *)

(** A string literal as the list of its bytes. *)
Definition bs (s : string) : list Z :=
  map (fun a => Z.of_N (N_of_ascii a)) (list_ascii_of_string s).

#[global] Arguments bs s%_string_scope.

(** Reading through a [char *]: the list holds the bytes before the NUL. *)
Definition peek (s : list Z) : Z := match s with [] => 0 | c :: _ => c end.

(** The i-th byte behind a pointer, NUL at and past the end. *)
Definition at_ (s : list Z) (i : nat) : Z := default 0 (s !! i).

(** A byte that can occur inside a C string. *)
Definition cchar (c : Z) : Prop := 0 < c < 256.
Definition cstr (s : list Z) : Prop := Forall cchar s.

Definition isspace (c : Z) : bool := ((9 <=? c) && (c <=? 13)) || (c =? 32).
Definition isdigit (c : Z) : bool := (48 <=? c) && (c <=? 57).
Definition isgraph (c : Z) : bool := (33 <=? c) && (c <=? 126).
Definition tolower (c : Z) : Z := if (65 <=? c) && (c <=? 90) then c + 32 else c.

(** The bytes of a C string: everything before the first NUL. *)
Fixpoint c_str (str : list Z) : list Z :=
  match str with
  | [] => []
  | c :: r => if c =? 0 then [] else c :: c_str r
  end.

(** [char] is signed on the machines modelled. *)
Definition schar (c : Z) : Z := if c <? 128 then c else c - 256.

(** [strcmp(a, b) == 0] and [strcasecmp(a, b) == 0] *)
Definition streq (a b : list Z) : bool := bool_decide (c_str a = c_str b).
Definition strcaseeq (a b : list Z) : bool :=
  bool_decide (map tolower (c_str a) = map tolower (c_str b)).

(** [strncasecmp(a, b, n) == 0] *)
Fixpoint strncaseeq (n : nat) (a b : list Z) : bool :=
  match n with
  | O => true
  | S n =>
    if tolower (peek a) =? tolower (peek b) then
      if peek a =? 0 then true else strncaseeq n (tail a) (tail b)
    else false
  end.

(** The sign of [memcmp] on two equally long blocks. *)
Fixpoint memcmp (a b : list Z) : comparison :=
  match a, b with
  | x :: a, y :: b => match x ?= y with Eq => memcmp a b | c => c end
  | _, _ => Eq
  end.

(** ** Machine integers *)

Definition u8 (z : Z) : Z := z mod 2 ^ 8.
Definition u16 (z : Z) : Z := z mod 2 ^ 16.
Definition u32 (z : Z) : Z := z mod 2 ^ 32.
Definition u64 (z : Z) : Z := z mod 2 ^ 64.

(** ** Automation *)

Create HintDb varnish discriminated.

(** Open the checks of a partial operation that did not abort. *)
Ltac inv_assert H :=
  repeat match type of H with
  | (if ?b then _ else None) = Some _ =>
      let E := fresh "Has" in destruct b eqn:E; [|discriminate H]
  | match ?m with Some _ => _ | None => None end = Some _ =>
      let E := fresh "Hm" in destruct m eqn:E; [|discriminate H]
  end.

(** Turn the boolean connectives of the hypotheses into propositions. *)
Ltac bool_prop :=
  repeat match goal with
  | H : (_ && _)%bool = true |- _ => apply andb_true_iff in H; destruct H
  | H : (_ || _)%bool = false |- _ => apply orb_false_iff in H; destruct H
  | H : negb _ = true |- _ => apply negb_true_iff in H
  | H : negb _ = false |- _ => apply negb_false_iff in H
  | H : (_ && _)%bool = false |- _ => apply andb_false_iff in H
  | H : (_ || _)%bool = true |- _ => apply orb_true_iff in H
  | H : bool_decide _ = true |- _ => apply bool_decide_eq_true in H
  | H : bool_decide _ = false |- _ => apply bool_decide_eq_false in H
  end.

(** Case analysis on the innermost [if] of the goal. *)
Ltac case_if :=
  match goal with
  | |- context [if ?b then _ else _] =>
      lazymatch b with
      | context [if _ then _ else _] => fail
      | _ => let E := fresh "Hif" in destruct b eqn:E
      end
  end.

(** ** Shared lemmas *)

Lemma wrap_small (w z : Z) : 0 <= z < 2 ^ w -> z mod 2 ^ w = z.
Proof. intros; apply Z.mod_small; lia. Qed.

Lemma u32_small z : 0 <= z < 2 ^ 32 -> u32 z = z.
Proof. apply wrap_small. Qed.

Lemma u32_range z : 0 <= u32 z < 2 ^ 32.
Proof. apply Z.mod_pos_bound; lia. Qed.

Lemma u64_small z : 0 <= z < 2 ^ 64 -> u64 z = z.
Proof. apply wrap_small. Qed.

Lemma memcmp_eq a b : List.length a = List.length b -> memcmp a b = Eq <-> a = b.
Proof.
  revert b; induction a as [|x a IH]; intros [|y b] Hl; simpl in *; try done.
  destruct (Z.compare_spec x y) as [->|?|?].
  - rewrite (IH b) by lia. split; [intros ->; done|intros [=]; done].
  - split; [done|intros [= -> ?]; lia].
  - split; [done|intros [= -> ?]; lia].
Qed.

Lemma memcmp_antisym a b : memcmp b a = CompOpp (memcmp a b).
Proof.
  revert b; induction a as [|x a IH]; intros [|y b]; simpl; try done.
  rewrite (Z.compare_antisym x y). destruct (x ?= y); simpl; auto.
Qed.

Lemma memcmp_lt_trans a b c :
  List.length a = List.length b -> List.length b = List.length c ->
  memcmp a b = Lt -> memcmp b c = Lt -> memcmp a c = Lt.
Proof.
  revert b c; induction a as [|x a IH]; intros [|y b] [|z c] Hab Hbc; simpl in *; try done.
  intros H1 H2.
  destruct (Z.compare_spec x y) as [E|E|E], (Z.compare_spec y z) as [F|F|F]; try done; subst.
  - rewrite ?Z.compare_refl. eauto with lia.
  - by rewrite (proj2 (Z.compare_lt_iff _ z) F).
  - by rewrite (proj2 (Z.compare_lt_iff x _) E).
  - rewrite (proj2 (Z.compare_lt_iff x z)); [done|lia].
Qed.

#[export] Hint Rewrite u32_small u64_small using lia : varnish.

Lemma Forall_at (P : Z -> Prop) s i : Forall P s -> (i < List.length s)%nat -> P (at_ s i).
Proof.
  intros HF Hi. unfold at_. destruct (lookup_lt_is_Some_2 s i Hi) as [x Hx].
  rewrite Hx. simpl. by eapply Forall_lookup_1.
Qed.

Lemma at_cons_0 c s : at_ (c :: s) 0 = c.
Proof. done. Qed.

Lemma at_cons_S c s i : at_ (c :: s) (S i) = at_ s i.
Proof. done. Qed.

Lemma at_nil i : at_ [] i = 0.
Proof. done. Qed.

Lemma at_drop s k i : at_ (drop k s) i = at_ s (k + i).
Proof. unfold at_. by rewrite lookup_drop. Qed.

Lemma drop_at s i : (i < List.length s)%nat -> drop i s = at_ s i :: drop (S i) s.
Proof.
  intros Hi. unfold at_. destruct (lookup_lt_is_Some_2 s i Hi) as [x Hx].
  rewrite Hx. simpl. by apply drop_S.
Qed.

Lemma at_insert_eq s i c : (i < List.length s)%nat -> at_ (<[i := c]> s) i = c.
Proof. intros. unfold at_. by rewrite list_lookup_insert_eq. Qed.

Lemma at_insert_ne s i j c : i <> j -> at_ (<[i := c]> s) j = at_ s j.
Proof. intros. unfold at_. by rewrite list_lookup_insert_ne. Qed.

Lemma at_app_l a b i : (i < List.length a)%nat -> at_ (a ++ b) i = at_ a i.
Proof. intros. unfold at_. by rewrite lookup_app_l. Qed.

Lemma at_app_r a b i : (List.length a <= i)%nat -> at_ (a ++ b) i = at_ b (i - List.length a).
Proof. intros. unfold at_. by rewrite lookup_app_r. Qed.

Lemma at_rev s i : (i < List.length s)%nat -> at_ (rev s) i = at_ s (List.length s - S i).
Proof.
  revert i; induction s as [|c s IH]; intros i Hi; simpl in *; [lia|].
  destruct (decide (i < List.length s)%nat) as [L|L].
  - rewrite at_app_l by (rewrite length_rev; lia). rewrite IH by done.
    by replace (List.length s - i)%nat with (S (List.length s - S i)) by lia.
  - rewrite at_app_r by (rewrite length_rev; lia). rewrite length_rev.
    replace i with (List.length s) by lia. by rewrite Nat.sub_diag.
Qed.

Lemma map_at s : map (at_ s) (seq 0 (List.length s)) = s.
Proof.
  induction s as [|c s IH]; [done|]. simpl. rewrite at_cons_0. f_equal.
  rewrite <- seq_shift, map_map. exact IH.
Qed.

(** Enumeration of a finite range by computation. *)
Lemma forall_below (p : nat -> bool) n : forallb p (seq 0 n) = true -> forall i, (i < n)%nat -> p i = true.
Proof. intros H i Hi. rewrite forallb_forall in H. apply H, in_seq. lia. Qed.

(** Disjoint bits add up. *)
Lemma lor_add a b k : 0 <= k -> 0 <= a < 2 ^ k -> Z.lor a (b * 2 ^ k) = a + b * 2 ^ k.
Proof.
  intros Hk Ha. assert (L : Z.land a (b * 2 ^ k) = 0).
  { apply Z.bits_inj'. intros j Hj. rewrite Z.land_spec, Z.bits_0, <- Z.shiftl_mul_pow2 by done.
    destruct (Z.lt_ge_cases j k).
    - rewrite Z.shiftl_spec_low by lia. apply andb_false_r.
    - rewrite <- (Z.mod_small a (2 ^ k)) by done. by rewrite Z.mod_pow2_bits_high by lia. }
  rewrite Z.add_nocarry_lxor by done. symmetry. by apply Z.lxor_lor.
Qed.

(** A mask of one bit. *)
Lemma bit_testbit w j : 0 <= j -> negb (Z.land w (Z.shiftl 1 j) =? 0) = Z.testbit w j.
Proof.
  intros Hj. destruct (Z.testbit w j) eqn:E.
  - apply negb_true_iff, Z.eqb_neq. intros H.
    assert (K : Z.testbit (Z.land w (Z.shiftl 1 j)) j = false) by (by rewrite H, Z.bits_0).
    rewrite Z.land_spec, E, Z.shiftl_spec, Z.sub_diag in K by lia. done.
  - apply negb_false_iff, Z.eqb_eq. apply Z.bits_inj'. intros k Hk.
    rewrite Z.land_spec, Z.shiftl_1_l, Z.pow2_bits_eqb, Z.bits_0 by lia.
    destruct (Z.eqb_spec j k) as [->|]; [by rewrite E|]. apply andb_false_r.
Qed.

#[export] Hint Rewrite at_cons_0 at_cons_S at_nil at_drop : varnish.
