(* ===== verification/Vct.v ===== *)
(** * Vct: character classes of the HTTP and ESI parsers

    [lib/libvarnish/vct.c] and [include/vct.h].  The table is the one of the
    source, entry by entry; entries the designated initialisers do not mention
    are 0, as C has it. *)
From S2P Require Import Prelude.

Module Vct.

(** The class bits. *)
Definition VCT_SP : Z := Z.shiftl 1 0.
Definition VCT_CRLF : Z := Z.shiftl 1 1.
Definition VCT_LWS : Z := Z.lor VCT_CRLF VCT_SP.
Definition VCT_CTL : Z := Z.shiftl 1 2.
Definition VCT_ALPHA : Z := Z.shiftl 1 3.
Definition VCT_SEPARATOR : Z := Z.shiftl 1 4.
Definition VCT_DIGIT : Z := Z.shiftl 1 5.
Definition VCT_HEX : Z := Z.shiftl 1 6.
Definition VCT_XMLNAMESTART : Z := Z.shiftl 1 7.
Definition VCT_XMLNAME : Z := Z.shiftl 1 8.
Definition VCT_UPALPHA : Z := VCT_ALPHA.
Definition VCT_LOALPHA : Z := VCT_ALPHA.

Local Infix ".|" := Z.lor (at level 50, left associativity).

(** [vct_typtab], rows 0x00 to 0x7f. *)
Definition vct_typtab_lo : list Z :=
  [
    (* 0x00 *) VCT_CTL;
    (* 0x01 *) VCT_CTL;
    (* 0x02 *) VCT_CTL;
    (* 0x03 *) VCT_CTL;
    (* 0x04 *) VCT_CTL;
    (* 0x05 *) VCT_CTL;
    (* 0x06 *) VCT_CTL;
    (* 0x07 *) VCT_CTL;
    (* 0x08 *) VCT_CTL;
    (* 0x09 *) VCT_CTL .| VCT_SP .| VCT_SEPARATOR;
    (* 0x0a *) VCT_CTL .| VCT_CRLF;
    (* 0x0b *) VCT_CTL;
    (* 0x0c *) VCT_CTL;
    (* 0x0d *) VCT_CTL .| VCT_CRLF;
    (* 0x0e *) VCT_CTL;
    (* 0x0f *) VCT_CTL;
    (* 0x10 *) VCT_CTL;
    (* 0x11 *) VCT_CTL;
    (* 0x12 *) VCT_CTL;
    (* 0x13 *) VCT_CTL;
    (* 0x14 *) VCT_CTL;
    (* 0x15 *) VCT_CTL;
    (* 0x16 *) VCT_CTL;
    (* 0x17 *) VCT_CTL;
    (* 0x18 *) VCT_CTL;
    (* 0x19 *) VCT_CTL;
    (* 0x1a *) VCT_CTL;
    (* 0x1b *) VCT_CTL;
    (* 0x1c *) VCT_CTL;
    (* 0x1d *) VCT_CTL;
    (* 0x1e *) VCT_CTL;
    (* 0x1f *) VCT_CTL;
    (* 0x20 *) VCT_SP .| VCT_SEPARATOR;
    (* 0x21 *) 0;
    (* 0x22 *) VCT_SEPARATOR;
    (* 0x23 *) 0;
    (* 0x24 *) 0;
    (* 0x25 *) 0;
    (* 0x26 *) 0;
    (* 0x27 *) 0;
    (* 0x28 *) VCT_SEPARATOR;
    (* 0x29 *) VCT_SEPARATOR;
    (* 0x2a *) 0;
    (* 0x2b *) 0;
    (* 0x2c *) VCT_SEPARATOR;
    (* 0x2d *) VCT_XMLNAME;
    (* 0x2e *) VCT_XMLNAME;
    (* 0x2f *) VCT_SEPARATOR;
    (* 0x30 *) VCT_DIGIT .| VCT_HEX .| VCT_XMLNAME;
    (* 0x31 *) VCT_DIGIT .| VCT_HEX .| VCT_XMLNAME;
    (* 0x32 *) VCT_DIGIT .| VCT_HEX .| VCT_XMLNAME;
    (* 0x33 *) VCT_DIGIT .| VCT_HEX .| VCT_XMLNAME;
    (* 0x34 *) VCT_DIGIT .| VCT_HEX .| VCT_XMLNAME;
    (* 0x35 *) VCT_DIGIT .| VCT_HEX .| VCT_XMLNAME;
    (* 0x36 *) VCT_DIGIT .| VCT_HEX .| VCT_XMLNAME;
    (* 0x37 *) VCT_DIGIT .| VCT_HEX .| VCT_XMLNAME;
    (* 0x38 *) VCT_DIGIT .| VCT_HEX .| VCT_XMLNAME;
    (* 0x39 *) VCT_DIGIT .| VCT_HEX .| VCT_XMLNAME;
    (* 0x3a *) VCT_SEPARATOR .| VCT_XMLNAMESTART;
    (* 0x3b *) VCT_SEPARATOR;
    (* 0x3c *) VCT_SEPARATOR;
    (* 0x3d *) VCT_SEPARATOR;
    (* 0x3e *) VCT_SEPARATOR;
    (* 0x3f *) VCT_SEPARATOR;
    (* 0x40 *) VCT_SEPARATOR;
    (* 0x41 *) VCT_UPALPHA .| VCT_HEX .| VCT_XMLNAMESTART;
    (* 0x42 *) VCT_UPALPHA .| VCT_HEX .| VCT_XMLNAMESTART;
    (* 0x43 *) VCT_UPALPHA .| VCT_HEX .| VCT_XMLNAMESTART;
    (* 0x44 *) VCT_UPALPHA .| VCT_HEX .| VCT_XMLNAMESTART;
    (* 0x45 *) VCT_UPALPHA .| VCT_HEX .| VCT_XMLNAMESTART;
    (* 0x46 *) VCT_UPALPHA .| VCT_HEX .| VCT_XMLNAMESTART;
    (* 0x47 *) VCT_UPALPHA .| VCT_XMLNAMESTART;
    (* 0x48 *) VCT_UPALPHA .| VCT_XMLNAMESTART;
    (* 0x49 *) VCT_UPALPHA .| VCT_XMLNAMESTART;
    (* 0x4a *) VCT_UPALPHA .| VCT_XMLNAMESTART;
    (* 0x4b *) VCT_UPALPHA .| VCT_XMLNAMESTART;
    (* 0x4c *) VCT_UPALPHA .| VCT_XMLNAMESTART;
    (* 0x4d *) VCT_UPALPHA .| VCT_XMLNAMESTART;
    (* 0x4e *) VCT_UPALPHA .| VCT_XMLNAMESTART;
    (* 0x4f *) VCT_UPALPHA .| VCT_XMLNAMESTART;
    (* 0x50 *) VCT_UPALPHA .| VCT_XMLNAMESTART;
    (* 0x51 *) VCT_UPALPHA .| VCT_XMLNAMESTART;
    (* 0x52 *) VCT_UPALPHA .| VCT_XMLNAMESTART;
    (* 0x53 *) VCT_UPALPHA .| VCT_XMLNAMESTART;
    (* 0x54 *) VCT_UPALPHA .| VCT_XMLNAMESTART;
    (* 0x55 *) VCT_UPALPHA .| VCT_XMLNAMESTART;
    (* 0x56 *) VCT_UPALPHA .| VCT_XMLNAMESTART;
    (* 0x57 *) VCT_UPALPHA .| VCT_XMLNAMESTART;
    (* 0x58 *) VCT_UPALPHA .| VCT_XMLNAMESTART;
    (* 0x59 *) VCT_UPALPHA .| VCT_XMLNAMESTART;
    (* 0x5a *) VCT_UPALPHA .| VCT_XMLNAMESTART;
    (* 0x5b *) VCT_SEPARATOR;
    (* 0x5c *) VCT_SEPARATOR;
    (* 0x5d *) VCT_SEPARATOR;
    (* 0x5e *) 0;
    (* 0x5f *) VCT_XMLNAMESTART;
    (* 0x60 *) 0;
    (* 0x61 *) VCT_LOALPHA .| VCT_HEX .| VCT_XMLNAMESTART;
    (* 0x62 *) VCT_LOALPHA .| VCT_HEX .| VCT_XMLNAMESTART;
    (* 0x63 *) VCT_LOALPHA .| VCT_HEX .| VCT_XMLNAMESTART;
    (* 0x64 *) VCT_LOALPHA .| VCT_HEX .| VCT_XMLNAMESTART;
    (* 0x65 *) VCT_LOALPHA .| VCT_HEX .| VCT_XMLNAMESTART;
    (* 0x66 *) VCT_LOALPHA .| VCT_HEX .| VCT_XMLNAMESTART;
    (* 0x67 *) VCT_LOALPHA .| VCT_XMLNAMESTART;
    (* 0x68 *) VCT_LOALPHA .| VCT_XMLNAMESTART;
    (* 0x69 *) VCT_LOALPHA .| VCT_XMLNAMESTART;
    (* 0x6a *) VCT_LOALPHA .| VCT_XMLNAMESTART;
    (* 0x6b *) VCT_LOALPHA .| VCT_XMLNAMESTART;
    (* 0x6c *) VCT_LOALPHA .| VCT_XMLNAMESTART;
    (* 0x6d *) VCT_LOALPHA .| VCT_XMLNAMESTART;
    (* 0x6e *) VCT_LOALPHA .| VCT_XMLNAMESTART;
    (* 0x6f *) VCT_LOALPHA .| VCT_XMLNAMESTART;
    (* 0x70 *) VCT_LOALPHA .| VCT_XMLNAMESTART;
    (* 0x71 *) VCT_LOALPHA .| VCT_XMLNAMESTART;
    (* 0x72 *) VCT_LOALPHA .| VCT_XMLNAMESTART;
    (* 0x73 *) VCT_LOALPHA .| VCT_XMLNAMESTART;
    (* 0x74 *) VCT_LOALPHA .| VCT_XMLNAMESTART;
    (* 0x75 *) VCT_LOALPHA .| VCT_XMLNAMESTART;
    (* 0x76 *) VCT_LOALPHA .| VCT_XMLNAMESTART;
    (* 0x77 *) VCT_LOALPHA .| VCT_XMLNAMESTART;
    (* 0x78 *) VCT_LOALPHA .| VCT_XMLNAMESTART;
    (* 0x79 *) VCT_LOALPHA .| VCT_XMLNAMESTART;
    (* 0x7a *) VCT_LOALPHA .| VCT_XMLNAMESTART;
    (* 0x7b *) VCT_SEPARATOR;
    (* 0x7c *) 0;
    (* 0x7d *) VCT_SEPARATOR;
    (* 0x7e *) 0;
    (* 0x7f *) VCT_CTL
  ].

(** [vct_typtab], rows 0x80 to 0xff. *)
Definition vct_typtab_hi : list Z :=
  [
    (* 0x80 *) 0;
    (* 0x81 *) 0;
    (* 0x82 *) 0;
    (* 0x83 *) 0;
    (* 0x84 *) 0;
    (* 0x85 *) 0;
    (* 0x86 *) 0;
    (* 0x87 *) 0;
    (* 0x88 *) 0;
    (* 0x89 *) 0;
    (* 0x8a *) 0;
    (* 0x8b *) 0;
    (* 0x8c *) 0;
    (* 0x8d *) 0;
    (* 0x8e *) 0;
    (* 0x8f *) 0;
    (* 0x90 *) 0;
    (* 0x91 *) 0;
    (* 0x92 *) 0;
    (* 0x93 *) 0;
    (* 0x94 *) 0;
    (* 0x95 *) 0;
    (* 0x96 *) 0;
    (* 0x97 *) 0;
    (* 0x98 *) 0;
    (* 0x99 *) 0;
    (* 0x9a *) 0;
    (* 0x9b *) 0;
    (* 0x9c *) 0;
    (* 0x9d *) 0;
    (* 0x9e *) 0;
    (* 0x9f *) 0;
    (* 0xa0 *) 0;
    (* 0xa1 *) 0;
    (* 0xa2 *) 0;
    (* 0xa3 *) 0;
    (* 0xa4 *) 0;
    (* 0xa5 *) 0;
    (* 0xa6 *) 0;
    (* 0xa7 *) 0;
    (* 0xa8 *) 0;
    (* 0xa9 *) 0;
    (* 0xaa *) 0;
    (* 0xab *) 0;
    (* 0xac *) 0;
    (* 0xad *) 0;
    (* 0xae *) 0;
    (* 0xaf *) 0;
    (* 0xb0 *) 0;
    (* 0xb1 *) 0;
    (* 0xb2 *) 0;
    (* 0xb3 *) 0;
    (* 0xb4 *) 0;
    (* 0xb5 *) 0;
    (* 0xb6 *) 0;
    (* 0xb7 *) VCT_XMLNAME;
    (* 0xb8 *) 0;
    (* 0xb9 *) 0;
    (* 0xba *) 0;
    (* 0xbb *) 0;
    (* 0xbc *) 0;
    (* 0xbd *) 0;
    (* 0xbe *) 0;
    (* 0xbf *) 0;
    (* 0xc0 *) VCT_XMLNAMESTART;
    (* 0xc1 *) VCT_XMLNAMESTART;
    (* 0xc2 *) VCT_XMLNAMESTART;
    (* 0xc3 *) VCT_XMLNAMESTART;
    (* 0xc4 *) VCT_XMLNAMESTART;
    (* 0xc5 *) VCT_XMLNAMESTART;
    (* 0xc6 *) VCT_XMLNAMESTART;
    (* 0xc7 *) VCT_XMLNAMESTART;
    (* 0xc8 *) VCT_XMLNAMESTART;
    (* 0xc9 *) VCT_XMLNAMESTART;
    (* 0xca *) VCT_XMLNAMESTART;
    (* 0xcb *) VCT_XMLNAMESTART;
    (* 0xcc *) VCT_XMLNAMESTART;
    (* 0xcd *) VCT_XMLNAMESTART;
    (* 0xce *) VCT_XMLNAMESTART;
    (* 0xcf *) VCT_XMLNAMESTART;
    (* 0xd0 *) VCT_XMLNAMESTART;
    (* 0xd1 *) VCT_XMLNAMESTART;
    (* 0xd2 *) VCT_XMLNAMESTART;
    (* 0xd3 *) VCT_XMLNAMESTART;
    (* 0xd4 *) VCT_XMLNAMESTART;
    (* 0xd5 *) VCT_XMLNAMESTART;
    (* 0xd6 *) VCT_XMLNAMESTART;
    (* 0xd7 *) 0;
    (* 0xd8 *) VCT_XMLNAMESTART;
    (* 0xd9 *) VCT_XMLNAMESTART;
    (* 0xda *) VCT_XMLNAMESTART;
    (* 0xdb *) VCT_XMLNAMESTART;
    (* 0xdc *) VCT_XMLNAMESTART;
    (* 0xdd *) VCT_XMLNAMESTART;
    (* 0xde *) VCT_XMLNAMESTART;
    (* 0xdf *) VCT_XMLNAMESTART;
    (* 0xe0 *) VCT_XMLNAMESTART;
    (* 0xe1 *) VCT_XMLNAMESTART;
    (* 0xe2 *) VCT_XMLNAMESTART;
    (* 0xe3 *) VCT_XMLNAMESTART;
    (* 0xe4 *) VCT_XMLNAMESTART;
    (* 0xe5 *) VCT_XMLNAMESTART;
    (* 0xe6 *) VCT_XMLNAMESTART;
    (* 0xe7 *) VCT_XMLNAMESTART;
    (* 0xe8 *) VCT_XMLNAMESTART;
    (* 0xe9 *) VCT_XMLNAMESTART;
    (* 0xea *) VCT_XMLNAMESTART;
    (* 0xeb *) VCT_XMLNAMESTART;
    (* 0xec *) VCT_XMLNAMESTART;
    (* 0xed *) VCT_XMLNAMESTART;
    (* 0xee *) VCT_XMLNAMESTART;
    (* 0xef *) VCT_XMLNAMESTART;
    (* 0xf0 *) VCT_XMLNAMESTART;
    (* 0xf1 *) VCT_XMLNAMESTART;
    (* 0xf2 *) VCT_XMLNAMESTART;
    (* 0xf3 *) VCT_XMLNAMESTART;
    (* 0xf4 *) VCT_XMLNAMESTART;
    (* 0xf5 *) VCT_XMLNAMESTART;
    (* 0xf6 *) VCT_XMLNAMESTART;
    (* 0xf7 *) 0;
    (* 0xf8 *) VCT_XMLNAMESTART;
    (* 0xf9 *) VCT_XMLNAMESTART;
    (* 0xfa *) VCT_XMLNAMESTART;
    (* 0xfb *) VCT_XMLNAMESTART;
    (* 0xfc *) VCT_XMLNAMESTART;
    (* 0xfd *) VCT_XMLNAMESTART;
    (* 0xfe *) VCT_XMLNAMESTART;
    (* 0xff *) VCT_XMLNAMESTART
  ].

Definition vct_typtab : list Z := Eval vm_compute in vct_typtab_lo ++ vct_typtab_hi.

(** [vct_is]: the argument is converted to [unsigned char] by the call. *)
Definition vct_is (x y : Z) : bool := negb (Z.land (at_ vct_typtab (Z.to_nat (u8 x))) y =? 0).

Definition vct_issp (x : Z) : bool := vct_is x VCT_SP.
Definition vct_iscrlf (x : Z) : bool := vct_is x VCT_CRLF.
Definition vct_islws (x : Z) : bool := vct_is x VCT_LWS.
Definition vct_isctl (x : Z) : bool := vct_is x VCT_CTL.
Definition vct_isalpha (x : Z) : bool := vct_is x VCT_ALPHA.
Definition vct_issep (x : Z) : bool := vct_is x VCT_SEPARATOR.
Definition vct_issepctl (x : Z) : bool := vct_is x (Z.lor VCT_SEPARATOR VCT_CTL).
Definition vct_isxmlnamestart (x : Z) : bool := vct_is x VCT_XMLNAMESTART.
Definition vct_isxmlname (x : Z) : bool := vct_is x (Z.lor VCT_XMLNAMESTART VCT_XMLNAME).

(** [vct_skipcrlf(p)]: how many bytes the line end at [p] takes. *)
Definition vct_skipcrlf (p : list Z) : nat :=
  if (at_ p 0 =? 0x0d) && (at_ p 1 =? 0x0a) then 2 else 1.

(** ** The classes the table stands for *)

(** RFC 2616 section 2.2. *)
Definition rfc_separators : list Z := bs "()<>@,;:\/[]?={}" ++ [34; 32; 9].
Definition rfc_ctl (x : Z) : bool := (x <=? 31) || (x =? 127).

(** A property of all bytes is checked on the 256 of them. *)
Lemma forall_bytes (P : Z -> bool) :
  forallb P (seqZ 0 256) = true -> forall x, 0 <= x < 256 -> P x = true.
Proof.
  intros H x Hx. rewrite forallb_forall in H. apply H.
  apply list_elem_of_In, elem_of_seqZ. lia.
Qed.

Definition same_class (x : Z) : bool :=
  eqb (vct_issep x) (existsb (Z.eqb x) rfc_separators) &&
  eqb (vct_isctl x) (rfc_ctl x) &&
  eqb (vct_issp x) ((x =? 32) || (x =? 9)) &&
  eqb (vct_iscrlf x) ((x =? 10) || (x =? 13)) &&
  eqb (vct_islws x) (vct_issp x || vct_iscrlf x) &&
  eqb (vct_issepctl x) (vct_issep x || vct_isctl x).

Lemma same_class_bytes x : 0 <= x < 256 -> same_class x = true.
Proof. apply (forall_bytes same_class). vm_compute. reflexivity. Qed.

(** What clients use: the classes are disjoint from the NUL byte. *)
Lemma vct_nul : vct_issp 0 = false /\ vct_iscrlf 0 = false /\ vct_isctl 0 = true.
Proof. repeat split; vm_compute; reflexivity. Qed.

(** for every byte the table agrees with RFC 2616 section 2.2: the
    separator class is exactly the set of separators, the control class
    exactly CTL, [vct_issp] is SP or HT, [vct_iscrlf] is CR or LF, and the
    compound classes are the unions their names say. *)
Theorem vct_typtab_rfc2616 (x : Z) (Hx : 0 <= x < 256) :
  vct_issep x = existsb (Z.eqb x) rfc_separators /\
  vct_isctl x = rfc_ctl x /\
  vct_issp x = ((x =? 32) || (x =? 9)) /\
  vct_iscrlf x = ((x =? 10) || (x =? 13)) /\
  vct_islws x = (vct_issp x || vct_iscrlf x) /\
  vct_issepctl x = (vct_issep x || vct_isctl x).
Proof.
  pose proof (same_class_bytes x Hx) as H. unfold same_class in H.
  bool_prop. repeat match goal with E : eqb _ _ = true |- _ => apply eqb_prop in E end.
  repeat split; assumption.
Qed.

Lemma vct_typtab_rfc2616_witness :
  0 <= 0x3a < 256 /\ vct_issep 0x3a = true /\ vct_isctl 0x3a = false.
Proof.
  assert (H : 0 <= 0x3a < 256) by lia.
  destruct (vct_typtab_rfc2616 0x3a H) as (H1 & H2 & _).
  split; [exact H|]. rewrite H1, H2. split; vm_compute; reflexivity.
Defined.

End Vct.
