(* ===== verification/Vsb.v ===== *)
(** * Vsb: the string buffers

    [lib/libvarnish/vsb.c] and [include/vsb.h].  A [vsb] is a byte array with a
    size, a fill level and a word of flags.  [malloc] is a parameter: whether a
    request of a given size succeeds, and the byte its memory happens to hold.
    [vsb_vprintf] is modelled from the text [vsnprintf] produces for its format
    and arguments, which is a parameter of the call. *)
From S2P Require Import Prelude.

Module Vsb.

Definition VSB_AUTOEXTEND : Z := 0x00000001.
Definition VSB_USRFLAGMSK : Z := 0x0000ffff.
Definition VSB_DYNAMIC : Z := 0x00010000.
Definition VSB_FINISHED : Z := 0x00020000.
Definition VSB_OVERFLOWED : Z := 0x00040000.
Definition VSB_DYNSTRUCT : Z := 0x00080000.

Record vsb := Vsb {
  s_buf : list Z;      (* the [s_size] bytes behind the pointer *)
  s_size : Z;
  s_len : Z;
  s_flags : Z
}.

Definition has (f : Z) (s : vsb) : bool := negb (Z.land (s_flags s) f =? 0).
Definition VSB_HASROOM (s : vsb) : bool := s_len s <? s_size s - 1.
Definition VSB_FREESPACE (s : vsb) : Z := s_size s - (s_len s + 1).
Definition VSB_CANEXTEND (s : vsb) : bool := has VSB_AUTOEXTEND s.
Definition VSB_SETFLAG (s : vsb) (f : Z) : vsb :=
  Vsb (s_buf s) (s_size s) (s_len s) (Z.lor (s_flags s) f).
Definition VSB_CLEARFLAG (s : vsb) (f : Z) : vsb :=
  Vsb (s_buf s) (s_size s) (s_len s) (Z.ldiff (s_flags s) f).

Definition VSB_MINEXTENDSIZE : Z := 16.
Definition VSB_MAXEXTENDSIZE : Z := 4096.
Definition VSB_MAXEXTENDINCR : Z := 4096.

(** [_vsb_assert_integrity] and [_vsb_assert_state]; the magic number and the
    buffer pointer are what makes the value a [vsb]. *)
Definition integrity (s : vsb) : bool := s_len s <? s_size s.
Definition state_is (s : vsb) (fin : bool) : bool := eqb (has VSB_FINISHED s) fin.

(** [s->s_buf[s->s_len++] = c] *)
Definition store1 (s : vsb) (c : Z) : vsb :=
  Vsb (<[Z.to_nat (s_len s) := c]> (s_buf s)) (s_size s) (s_len s + 1) (s_flags s).

Fixpoint extendsize_loop (fuel : nat) (newsize size : Z) : Z :=
  match fuel with
  | O => newsize
  | S fuel =>
    if newsize <? size then
      if newsize <? VSB_MAXEXTENDSIZE then extendsize_loop fuel (newsize * 2) size
      else extendsize_loop fuel (newsize + VSB_MAXEXTENDINCR) size
    else newsize
  end.

(** Every turn adds at least 16, so [size] turns are enough. *)
Definition vsb_extendsize (size : Z) : Z :=
  extendsize_loop (Z.to_nat size) VSB_MINEXTENDSIZE size.

Section Malloc.
Context (malloc_ok : Z -> bool) (junk : Z).

Definition vsb_extend (s : vsb) (addlen : Z) : option vsb :=
  if VSB_CANEXTEND s then
    let newsize := vsb_extendsize (s_size s + addlen) in
    if malloc_ok newsize then
      let newbuf := s_buf s ++ replicate (Z.to_nat (newsize - s_size s)) junk in
      let s := if has VSB_DYNAMIC s then s else VSB_SETFLAG s VSB_DYNAMIC in
      Some (Vsb newbuf newsize (s_len s) (s_flags s))
    else None
  else None.

(** [sizeof(struct vsb)] on an LP64 machine. *)
Definition SIZEOF_VSB : Z := 40.

(** [vsb_new(s, buf, length, flags)]; [caller] says whether the caller brought
    the structure, [buf] the buffer it brought, if any. *)
Definition vsb_new (caller : bool) (buf : option (list Z)) (length flags : Z)
  : option (option vsb) :=
  assert! (0 <=? length) ;;
  assert! (Z.ldiff flags VSB_USRFLAGMSK =? 0) ;;
  let flags := Z.land flags VSB_USRFLAGMSK in
  if caller || malloc_ok SIZEOF_VSB then
    let flags := if caller then flags else Z.lor flags VSB_DYNSTRUCT in
    match buf with
    | Some b => Some (Some (Vsb b length 0 flags))
    | None =>
      let size := if negb (Z.land flags VSB_AUTOEXTEND =? 0)
                  then vsb_extendsize length else length in
      if malloc_ok size then
        Some (Some (Vsb (replicate (Z.to_nat size) junk) size 0
                        (Z.lor flags VSB_DYNAMIC)))
      else Some None
    end
  else Some None.

Definition vsb_newauto : option (option vsb) := vsb_new false None 0 VSB_AUTOEXTEND.

Definition vsb_clear (s : vsb) : option vsb :=
  assert! integrity s ;;
  let s := VSB_CLEARFLAG (VSB_CLEARFLAG s VSB_FINISHED) VSB_OVERFLOWED in
  Some (Vsb (s_buf s) (s_size s) 0 (s_flags s)).

Definition vsb_setpos (s : vsb) (pos : Z) : option (Z * vsb) :=
  assert! integrity s ;; assert! state_is s false ;;
  assert! (0 <=? pos) ;; assert! (pos <? s_size s) ;;
  if (pos <? 0) || (s_len s <? pos) then Some (-1, s)
  else Some (0, Vsb (s_buf s) (s_size s) pos (s_flags s)).

(** The copying loop of [vsb_bcat] and [vsb_cat]; returns what is left. *)
Fixpoint bcat_loop (s : vsb) (str : list Z) : vsb * list Z :=
  match str with
  | [] => (s, [])
  | c :: r =>
    if VSB_HASROOM s then bcat_loop (store1 s c) r
    else match vsb_extend s (Z.of_nat (length str)) with
         | Some s' => bcat_loop (store1 s' c) r
         | None => (s, str)
         end
  end.

Definition vsb_bcat (s : vsb) (buf : list Z) : option (Z * vsb) :=
  assert! integrity s ;; assert! state_is s false ;;
  if has VSB_OVERFLOWED s then Some (-1, s)
  else match bcat_loop s buf with
       | (s, []) => Some (0, s)
       | (s, _) => Some (-1, VSB_SETFLAG s VSB_OVERFLOWED)
       end.

Definition vsb_bcpy (s : vsb) (buf : list Z) : option (Z * vsb) :=
  assert! integrity s ;; assert! state_is s false ;;
  let? s := vsb_clear s in vsb_bcat s buf.

Definition vsb_cat (s : vsb) (str : list Z) : option (Z * vsb) :=
  assert! integrity s ;; assert! state_is s false ;;
  if has VSB_OVERFLOWED s then Some (-1, s)
  else match bcat_loop s (c_str str) with
       | (s, []) => Some (0, s)
       | (s, _) => Some (-1, VSB_SETFLAG s VSB_OVERFLOWED)
       end.

Definition vsb_cpy (s : vsb) (str : list Z) : option (Z * vsb) :=
  assert! integrity s ;; assert! state_is s false ;;
  let? s := vsb_clear s in vsb_cat s str.

(** What [vsnprintf(&s_buf[s_len], FREESPACE + 1, ...)] leaves in the buffer
    when the formatted text is [txt]: at most FREESPACE bytes and a NUL. *)
Definition snprintf_into (s : vsb) (txt : list Z) : vsb :=
  let out := take (Z.to_nat (VSB_FREESPACE s)) txt ++ [0] in
  let pre := take (Z.to_nat (s_len s)) (s_buf s) in
  Vsb (pre ++ out ++ drop (length pre + length out) (s_buf s))
      (s_size s) (s_len s) (s_flags s).

(** One extension makes enough room, so the loop runs at most twice; the third
    turn is never taken. *)
Fixpoint vprintf_loop (fuel : nat) (s : vsb) (txt : list Z) : vsb :=
  let s := snprintf_into s txt in
  let len := Z.of_nat (length txt) in
  match fuel with
  | O => s
  | S fuel =>
    if VSB_FREESPACE s <? len then
      match vsb_extend s (len - VSB_FREESPACE s) with
      | Some s => vprintf_loop fuel s txt
      | None => s
      end
    else s
  end.

Definition vsb_vprintf (s : vsb) (txt : list Z) : option (Z * vsb) :=
  assert! integrity s ;; assert! state_is s false ;;
  if has VSB_OVERFLOWED s then Some (-1, s)
  else
    let s := vprintf_loop 2 s txt in
    let s := Vsb (s_buf s) (s_size s)
                 (s_len s + Z.min (Z.of_nat (length txt)) (VSB_FREESPACE s))
                 (s_flags s) in
    let s := if negb (VSB_HASROOM s) && negb (VSB_CANEXTEND s)
             then VSB_SETFLAG s VSB_OVERFLOWED else s in
    assert! integrity s ;;
    if has VSB_OVERFLOWED s then Some (-1, s) else Some (0, s).

Definition vsb_printf := vsb_vprintf.

Definition vsb_putc (s : vsb) (c : Z) : option (Z * vsb) :=
  assert! integrity s ;; assert! state_is s false ;;
  if has VSB_OVERFLOWED s then Some (-1, s)
  else
    let put s := if c =? 0 then Some (0, s) else Some (0, store1 s c) in
    if VSB_HASROOM s then put s
    else match vsb_extend s 1 with
         | Some s => put s
         | None => Some (-1, VSB_SETFLAG s VSB_OVERFLOWED)
         end.

Fixpoint trim_loop (buf : list Z) (n : nat) : nat :=
  match n with
  | O => O
  | S m => if isspace (at_ buf m) then trim_loop buf m else n
  end.

Definition vsb_trim (s : vsb) : option (Z * vsb) :=
  assert! integrity s ;; assert! state_is s false ;;
  if has VSB_OVERFLOWED s then Some (-1, s)
  else Some (0, Vsb (s_buf s) (s_size s)
                    (Z.of_nat (trim_loop (s_buf s) (Z.to_nat (s_len s))))
                    (s_flags s)).

Definition vsb_overflowed (s : vsb) : bool := has VSB_OVERFLOWED s.

Definition vsb_finish (s : vsb) : option vsb :=
  assert! integrity s ;; assert! state_is s false ;;
  let s := Vsb (<[Z.to_nat (s_len s) := 0]> (s_buf s)) (s_size s) (s_len s) (s_flags s) in
  Some (VSB_SETFLAG (VSB_CLEARFLAG s VSB_OVERFLOWED) VSB_FINISHED).

(** [vsb_data]: the C string the returned pointer addresses. *)
Definition vsb_data (s : vsb) : option (list Z) :=
  assert! integrity s ;; assert! state_is s true ;; Some (c_str (s_buf s)).

Definition vsb_len (s : vsb) : option Z :=
  assert! integrity s ;;
  if has VSB_OVERFLOWED s then Some (-1) else Some (s_len s).

Definition vsb_done (s : vsb) : bool := has VSB_FINISHED s.

(** [printf("%o")] of a byte. *)
Definition octal (c : Z) : list Z :=
  if 64 <=? c then [48 + c / 64; 48 + c / 8 mod 8; 48 + c mod 8]
  else if 8 <=? c then [48 + c / 8; 48 + c mod 8]
  else [48 + c].

Definition quote1 (s : vsb) (c : Z) : option vsb :=
  if c =? 32 then let? (_, s) := vsb_putc s c in Some s
  else if (c =? 92) || (c =? 34) then
    let? (_, s) := vsb_putc s 92 in let? (_, s) := vsb_putc s c in Some s
  else if c =? 10 then let? (_, s) := vsb_cat s [92; 110] in Some s
  else if c =? 13 then let? (_, s) := vsb_cat s [92; 114] in Some s
  else if c =? 9 then let? (_, s) := vsb_cat s [92; 116] in Some s
  else if isgraph c then let? (_, s) := vsb_putc s c in Some s
  else let? (_, s) := vsb_printf s (92 :: octal c) in Some s.

Fixpoint quote_loop (s : vsb) (p : list Z) : option vsb :=
  match p with
  | [] => Some s
  | c :: p => let? s := quote1 s c in quote_loop s p
  end.

Definition needs_quote (p : list Z) : bool :=
  existsb (fun c => negb (isgraph c) || (c =? 34)) p.

(** [vsb_quote(s, p, len, how)]: [p] is the [len] bytes to quote. *)
Definition vsb_quote (s : vsb) (p : list Z) : option vsb :=
  if needs_quote p then
    let? (_, s) := vsb_putc s 34 in
    let? s := quote_loop s p in
    let? (_, s) := vsb_putc s 34 in Some s
  else let? (_, s) := vsb_bcat s p in Some s.

Fixpoint strtoul8 (acc : Z) (q : list Z) : Z * list Z :=
  match q with
  | c :: r => if (48 <=? c) && (c <=? 55) then strtoul8 (acc * 8 + (c - 48)) r
              else (acc, q)
  | [] => (acc, [])
  end.

Inductive unq_err := UnqIncomplete | UnqRange.

(** [vsb_unquote] of a whole C string ([len == -1]). *)
Fixpoint vsb_unquote (fuel : nat) (s : vsb) (p : list Z) : option (option unq_err * vsb) :=
  match fuel, p with
  | O, _ | _, [] => Some (None, s)
  | S fuel, c :: p =>
    if negb (c =? 92) then let? (_, s) := vsb_bcat s [c] in vsb_unquote fuel s p
    else match p with
    | [] => Some (Some UnqIncomplete, s)
    | c :: p' =>
      if c =? 110 then let? (_, s) := vsb_bcat s [10] in vsb_unquote fuel s p'
      else if c =? 114 then let? (_, s) := vsb_bcat s [13] in vsb_unquote fuel s p'
      else if c =? 116 then let? (_, s) := vsb_bcat s [9] in vsb_unquote fuel s p'
      else if (48 <=? c) && (c <=? 55) then
        let '(u, r) := strtoul8 0 p in
        if 0xff <? u then Some (Some UnqRange, s)
        else let? (_, s) := vsb_bcat s [u] in vsb_unquote fuel s r
      else let? (_, s) := vsb_bcat s [c] in vsb_unquote fuel s p'
    end
  end.
End Malloc.

(** ** Well-formed buffers and their contents *)

Definition wf (s : vsb) : Prop :=
  0 <= s_len s < s_size s /\ Z.of_nat (length (s_buf s)) = s_size s.

Definition content (s : vsb) : list Z := take (Z.to_nat (s_len s)) (s_buf s).

(** An open buffer: neither finished nor overflowed. *)
Definition open (s : vsb) : Prop :=
  wf s /\ has VSB_FINISHED s = false /\ has VSB_OVERFLOWED s = false.

Lemma wf_integrity s : wf s -> integrity s = true.
Proof. unfold wf, integrity. lia. Qed.

Lemma open_checks s :
  open s -> integrity s = true /\ state_is s false = true /\ has VSB_OVERFLOWED s = false.
Proof.
  intros (Hw & Hf & Ho). unfold state_is. rewrite Hf. auto using wf_integrity.
Qed.

Lemma has_eq f s s' : s_flags s = s_flags s' -> has f s = has f s'.
Proof. unfold has. by intros ->. Qed.

Lemma has_setflag f g s : has f (VSB_SETFLAG s g) = has f s || negb (Z.land g f =? 0).
Proof.
  unfold has, VSB_SETFLAG; simpl. rewrite Z.land_lor_distr_l.
  destruct (Z.eqb_spec (Z.land (s_flags s) f) 0) as [->|H1]; simpl.
  - by rewrite Z.lor_0_l.
  - destruct (Z.eqb_spec (Z.lor (Z.land (s_flags s) f) (Z.land g f)) 0) as [E|]; [|done].
    apply Z.lor_eq_0_iff in E. tauto.
Qed.

Lemma extendsize_loop_spec fuel newsize size :
  16 <= newsize -> size - newsize <= Z.of_nat fuel * 16 ->
  let r := extendsize_loop fuel newsize size in
  size <= r /\ newsize <= r /\ (r = newsize \/ r < size + 4096) /\
  (newsize mod 16 = 0 -> r mod 16 = 0).
Proof.
  revert newsize; induction fuel as [|fuel IH]; intros newsize H16 Hf; simpl.
  - lia.
  - unfold VSB_MAXEXTENDSIZE, VSB_MAXEXTENDINCR.
    destruct (Z.ltb_spec newsize size); [|lia].
    destruct (Z.ltb_spec newsize 4096).
    + destruct (IH (newsize * 2)) as (A & B & C & D); [lia..|].
      repeat split; [lia..|]. intros. apply D. Z.div_mod_to_equations; lia.
    + destruct (IH (newsize + 4096)) as (A & B & C & D); [lia..|].
      repeat split; [lia..|]. intros. apply D. Z.div_mod_to_equations; lia.
Qed.

Lemma vsb_extendsize_spec size :
  0 <= size ->
  size <= vsb_extendsize size /\ 16 <= vsb_extendsize size /\
  vsb_extendsize size < Z.max 17 (size + 4096) /\ vsb_extendsize size mod 16 = 0.
Proof.
  intros H. unfold vsb_extendsize, VSB_MINEXTENDSIZE.
  destruct (extendsize_loop_spec (Z.to_nat size) 16 size) as (A & B & C & D); [lia..|].
  repeat split; [lia..|]. by apply D.
Qed.

Lemma store1_spec s c :
  wf s -> VSB_HASROOM s = true ->
  wf (store1 s c) /\ content (store1 s c) = content s ++ [c] /\
  s_flags (store1 s c) = s_flags s.
Proof.
  unfold wf, VSB_HASROOM, content, store1. intros [Hl Hb] Hr. simpl.
  rewrite length_insert. split; [lia|]. split; [|done].
  replace (Z.to_nat (s_len s + 1)) with (S (Z.to_nat (s_len s))) by lia.
  rewrite (take_S_r _ _ c) by (apply list_lookup_insert_eq; lia).
  by rewrite take_insert_ge by lia.
Qed.

Section Laws.
Context (malloc_ok : Z -> bool) (junk : Z).
Notation extend := (vsb_extend malloc_ok junk).
Notation bcatl := (bcat_loop malloc_ok junk).

Lemma vsb_extend_spec s n s' :
  wf s -> 0 <= n -> extend s n = Some s' ->
  wf s' /\ content s' = content s /\ s_len s' = s_len s /\ s_size s + n <= s_size s' /\
  (forall f, Z.land VSB_DYNAMIC f = 0 -> has f s' = has f s).
Proof.
  unfold vsb_extend, wf. intros [Hl Hb] Hn H.
  destruct (VSB_CANEXTEND s); [|done].
  destruct (malloc_ok _); [|done].
  set (s1 := if has VSB_DYNAMIC s then s else VSB_SETFLAG s VSB_DYNAMIC) in H.
  assert (El : s_len s1 = s_len s) by (subst s1; by destruct (has _ s)).
  assert (Ef : forall f, Z.land VSB_DYNAMIC f = 0 -> has f s1 = has f s).
  { intros f Hf. subst s1. destruct (has VSB_DYNAMIC s) eqn:E; [done|].
    rewrite has_setflag, Hf. by rewrite orb_false_r. }
  clearbody s1. injection H as <-. simpl. rewrite El.
  destruct (vsb_extendsize_spec (s_size s + n)) as (A & B & C & D); [lia|].
  rewrite length_app, length_replicate.
  split; [lia|]. split; [|split; [done|split; [lia|]]].
  - unfold content; simpl. by rewrite take_app_le by lia.
  - intros f Hf. rewrite <- Ef by done. by apply has_eq.
Qed.

Lemma vsb_extend_ok s n :
  (forall z, malloc_ok z = true) -> VSB_CANEXTEND s = true -> is_Some (extend s n).
Proof. intros Hm Hc. unfold vsb_extend. rewrite Hc, Hm. eauto. Qed.

Lemma extend_room s n s' : wf s -> 0 < n -> extend s n = Some s' -> VSB_HASROOM s' = true.
Proof.
  intros Hw Hn He. destruct (vsb_extend_spec s n s') as (A & B & C & D & _); auto; [lia|].
  unfold VSB_HASROOM, wf in *. lia.
Qed.

(** The copying loop appends a prefix of its argument, and the whole of it
    unless an extension is refused. *)
Lemma bcat_loop_spec str s s' rest :
  wf s -> bcatl s str = (s', rest) ->
  wf s' /\ (exists done, str = done ++ rest /\ content s' = content s ++ done) /\
  (forall f, Z.land VSB_DYNAMIC f = 0 -> has f s' = has f s) /\
  ((forall z, malloc_ok z = true) -> VSB_CANEXTEND s = true -> rest = []).
Proof.
  revert s; induction str as [|c str IH]; intros s Hw H; simpl in H.
  - injection H as <- <-. split; [done|]. split; [exists []; split; [done|by rewrite app_nil_r]|]. auto.
  - destruct (VSB_HASROOM s) eqn:Hr.
    + destruct (store1_spec s c) as (A & B & C); [done..|].
      destruct (IH _ A H) as (D & (dn & E & F) & G & K).
      split; [done|]. split; [exists (c :: dn); split; [by rewrite E|]|].
      { rewrite F, B, <- app_assoc. done. }
      split; [intros f Hf; rewrite G by done; by apply has_eq|].
      intros Hm Hc. apply K; [done|]. unfold VSB_CANEXTEND in *. by rewrite (has_eq _ _ s).
    + destruct (extend s _) as [s1|] eqn:He.
      * destruct (vsb_extend_spec s (Z.of_nat (S (length str))) s1) as (A & B & C & D & L); [done|lia|done|].
        assert (Hr1 : VSB_HASROOM s1 = true).
        { eapply extend_room; [| |exact He]; [done|simpl; lia]. }
        destruct (store1_spec s1 c) as (A' & B' & C'); [done..|].
        destruct (IH _ A' H) as (D' & (dn & E & F) & G & K).
        split; [done|]. split; [exists (c :: dn); split; [by rewrite E|]|].
        { rewrite F, B', B, <- app_assoc. done. }
        split; [intros f Hf; rewrite G by done; rewrite (has_eq _ _ s1) by done; auto|].
        intros Hm Hc. apply K; [done|]. unfold VSB_CANEXTEND in *.
        rewrite (has_eq _ _ s1) by done. by rewrite L.
      * injection H as <- <-. split; [done|]. split; [exists []; split; [done|by rewrite app_nil_r]|].
        split; [auto|]. intros Hm Hc.
        destruct (vsb_extend_ok s (Z.of_nat (S (length str))) Hm Hc) as [x Hx]. simpl in *. congruence.
Qed.

(** The append operations on an open buffer: they never abort, the buffer
    stays well formed, and either everything was appended or a prefix was and
    the buffer is marked overflowed. *)
Lemma vsb_bcat_spec s buf :
  open s -> exists r s', vsb_bcat malloc_ok junk s buf = Some (r, s') /\ wf s' /\
    has VSB_FINISHED s' = false /\
    ((r = 0 /\ content s' = content s ++ buf /\ has VSB_OVERFLOWED s' = false /\
      VSB_CANEXTEND s' = VSB_CANEXTEND s) \/
     (r = -1 /\ has VSB_OVERFLOWED s' = true /\
      (exists done, done `prefix_of` buf /\ content s' = content s ++ done) /\
      ~ ((forall z, malloc_ok z = true) /\ VSB_CANEXTEND s = true))).
Proof.
  intros Ho. destruct (open_checks s Ho) as (Hi & Hs & Hv). destruct Ho as (Hw & Hf & _).
  unfold vsb_bcat. rewrite Hi, Hs, Hv.
  destruct (bcatl s buf) as [s1 rest] eqn:E.
  destruct (bcat_loop_spec _ _ _ _ Hw E) as (A & (dn & B & C) & D & F).
  destruct rest as [|c rest].
  - eexists _, _. split; [done|]. split; [done|]. rewrite (D VSB_FINISHED) by done.
    split; [done|]. left. rewrite app_nil_r in B. subst dn.
    rewrite (D VSB_OVERFLOWED) by done. repeat split; auto.
    unfold VSB_CANEXTEND. by rewrite D.
  - eexists _, _. split; [done|]. split; [done|].
    rewrite !has_setflag. rewrite (D VSB_FINISHED) by done. rewrite Hf.
    split; [done|]. right. split; [done|]. split; [apply orb_true_r|].
    split; [exists dn; split; [by exists (c :: rest)|done]|].
    intros [Hm Hc]. by specialize (F Hm Hc).
Qed.

(** With memory available an auto-extending buffer takes every byte. *)
Lemma vsb_bcat_auto s buf :
  open s -> (forall z, malloc_ok z = true) -> VSB_CANEXTEND s = true ->
  exists s', vsb_bcat malloc_ok junk s buf = Some (0, s') /\ open s' /\
    content s' = content s ++ buf /\ VSB_CANEXTEND s' = true.
Proof.
  intros Ho Hm Hc. destruct (vsb_bcat_spec s buf Ho) as (r & s' & E & Hw & Hf & H).
  destruct H as [(-> & Hk & Hv & Hx)|(_ & _ & _ & Hn)]; [|tauto].
  exists s'. rewrite Hx. unfold open. auto.
Qed.
End Laws.

Lemma snprintf_into_spec s txt :
  wf s ->
  let s' := snprintf_into s txt in
  wf s' /\ content s' = content s /\ s_len s' = s_len s /\ s_size s' = s_size s /\
  s_flags s' = s_flags s /\
  take (Z.to_nat (s_len s + Z.min (Z.of_nat (length txt)) (VSB_FREESPACE s))) (s_buf s')
    = content s ++ take (Z.to_nat (VSB_FREESPACE s)) txt.
Proof.
  intros [Hl Hb]. unfold snprintf_into, VSB_FREESPACE, content, wf in *. simpl.
  set (pre := take (Z.to_nat (s_len s)) (s_buf s)).
  assert (Lp : length pre = Z.to_nat (s_len s)) by (subst pre; rewrite length_take; lia).
  set (t := take (Z.to_nat (s_size s - (s_len s + 1))) txt).
  assert (Lt : length t = Nat.min (Z.to_nat (s_size s - (s_len s + 1))) (length txt))
    by (subst t; by rewrite length_take).
  rewrite !length_app, length_drop. simpl.
  split; [lia|]. split; [by rewrite take_app_le, take_ge by lia|].
  split; [done|]. split; [done|]. split; [done|].
  rewrite <- !app_assoc, app_assoc, take_app_le by (rewrite length_app; lia).
  rewrite take_ge by (rewrite length_app; lia). done.
Qed.

(** [open] is what the append operations need; they keep it or mark overflow. *)
Lemma content_len s : wf s -> Z.of_nat (length (content s)) = s_len s.
Proof. unfold wf, content. intros. rewrite length_take. lia. Qed.

Section Printf.
Context (malloc_ok : Z -> bool) (junk : Z).

Lemma vprintf_loop_spec s txt :
  wf s -> exists s0,
    vprintf_loop malloc_ok junk 2 s txt = snprintf_into s0 txt /\ wf s0 /\
    content s0 = content s /\ s_len s0 = s_len s /\ s_size s <= s_size s0 /\
    (forall f, Z.land VSB_DYNAMIC f = 0 -> has f s0 = has f s) /\
    (VSB_CANEXTEND s = false -> s0 = s) /\
    (Z.of_nat (length txt) <= VSB_FREESPACE s0 \/
     (s_size s0 = s_size s /\
      ~ ((forall z, malloc_ok z = true) /\ VSB_CANEXTEND s = true))).
Proof.
  intros Hw. destruct (snprintf_into_spec s txt Hw) as (A & B & C & D & E & _).
  cbn [vprintf_loop]. set (s1 := snprintf_into s txt) in *.
  assert (Hfl : forall f, has f s1 = has f s) by (intros; by apply has_eq).
  destruct (Z.ltb_spec (VSB_FREESPACE s1) (Z.of_nat (length txt))) as [Hlt|Hge].
  2:{ exists s. split_and!; auto using Z.le_refl. }
  destruct (vsb_extend malloc_ok junk s1 _) as [s2|] eqn:Ex.
  - assert (Hn : 0 <= Z.of_nat (length txt) - VSB_FREESPACE s1) by lia.
    destruct (vsb_extend_spec _ _ _ _ _ A Hn Ex) as (A2 & B2 & C2 & D2 & F2).
    destruct (snprintf_into_spec s2 txt A2) as (A3 & B3 & C3 & D3 & E3 & _).
    assert (Hfr : VSB_FREESPACE (snprintf_into s2 txt) <? Z.of_nat (length txt) = false).
    { apply Z.ltb_ge. unfold VSB_FREESPACE in *. rewrite C3, D3. lia. }
    exists s2. rewrite Hfr. split; [done|]. split; [done|].
    split; [congruence|]. split; [congruence|]. split; [lia|].
    split; [intros f Hf; rewrite F2 by done; auto|].
    split. { intros Hc. unfold vsb_extend, VSB_CANEXTEND in Ex. rewrite Hfl in Ex.
      unfold VSB_CANEXTEND in Hc. by rewrite Hc in Ex. }
    left. apply Z.ltb_ge in Hfr. unfold VSB_FREESPACE in *. congruence.
  - exists s. split_and!; auto using Z.le_refl. right. split; [done|].
    intros [Hm Hc]. unfold VSB_CANEXTEND in Hc. rewrite <- Hfl in Hc.
    destruct (vsb_extend_ok malloc_ok junk s1 (Z.of_nat (length txt) - VSB_FREESPACE s1) Hm Hc).
    congruence.
Qed.

Lemma vsb_vprintf_cases s txt :
  open s -> exists r s', vsb_vprintf malloc_ok junk s txt = Some (r, s') /\ wf s' /\
    has VSB_FINISHED s' = false /\
    (exists done, done `prefix_of` txt /\ content s' = content s ++ done) /\
    r = (if has VSB_OVERFLOWED s' then -1 else 0) /\
    ((forall z, malloc_ok z = true) -> VSB_CANEXTEND s = true ->
      r = 0 /\ content s' = content s ++ txt /\ VSB_CANEXTEND s' = true) /\
    (VSB_CANEXTEND s = false -> (r = 0 <-> Z.of_nat (length txt) < VSB_FREESPACE s) /\
      content s' = content s ++ take (Z.to_nat (VSB_FREESPACE s)) txt).
Proof.
  intros Ho. destruct (open_checks s Ho) as (Hi & Hs & Hv). destruct Ho as (Hw & Hf & _).
  unfold vsb_vprintf. rewrite Hi, Hs, Hv.
  destruct (vprintf_loop_spec s txt Hw) as (s0 & -> & W0 & C0 & L0 & Z0 & F0 & N0 & R0).
  destruct (snprintf_into_spec s0 txt W0) as (A & _ & C & D & E & F).
  set (s1 := snprintf_into s0 txt) in *. clearbody s1.
  set (s2 := Vsb _ _ _ _).
  assert (L2 : s_len s2 = s_len s0 + Z.min (Z.of_nat (length txt)) (VSB_FREESPACE s0))
    by (subst s2; simpl; unfold VSB_FREESPACE; by rewrite C, D).
  assert (W2 : wf s2).
  { unfold wf in *; rewrite L2; subst s2; simpl. unfold VSB_FREESPACE. lia. }
  assert (C2 : content s2 = content s ++ take (Z.to_nat (VSB_FREESPACE s0)) txt)
    by (rewrite <- C0, <- F; unfold content; by rewrite L2).
  assert (F2 : forall f, Z.land VSB_DYNAMIC f = 0 -> has f s2 = has f s)
    by (intros f Hf'; rewrite <- F0 by done; by apply has_eq).
  set (s3 := if _ && _ then _ else s2).
  assert (E3 : s3 = s2 \/ s3 = VSB_SETFLAG s2 VSB_OVERFLOWED) by (subst s3; case_if; auto).
  assert (W3 : wf s3) by (destruct E3 as [->| ->]; done).
  assert (C3 : content s3 = content s2) by (destruct E3 as [->| ->]; done).
  assert (O3 : has VSB_OVERFLOWED s3 = negb (VSB_HASROOM s2) && negb (VSB_CANEXTEND s2)).
  { subst s3. case_if; [rewrite has_setflag; apply orb_true_r|by rewrite F2]. }
  rewrite (wf_integrity s3 W3).
  exists (if has VSB_OVERFLOWED s3 then -1 else 0), s3.
  split; [by destruct (has VSB_OVERFLOWED s3)|]. split; [done|].
  split. { destruct E3 as [->| ->]; [by rewrite F2|]. rewrite has_setflag, F2 by done. by rewrite Hf. }
  split. { eexists. split; [|by rewrite C3, C2]. apply prefix_take. }
  split; [done|].
  assert (X2 : VSB_CANEXTEND s2 = VSB_CANEXTEND s) by (by apply F2).
  split.
  - intros Hm Hc. destruct R0 as [R0|[_ R0]]; [|tauto].
    rewrite O3, X2, Hc, andb_false_r, C3, C2, take_ge by lia. split; [done|].
    split; [done|]. destruct E3 as [->| ->]; [congruence|].
    unfold VSB_CANEXTEND in *. rewrite has_setflag, F2 by done. by rewrite Hc.
  - intros Hc. rewrite O3, X2, Hc, andb_true_r, C3, C2.
    rewrite (N0 Hc) in *. split; [|done].
    unfold VSB_HASROOM. rewrite L2. subst s2; simpl. rewrite D.
    unfold VSB_FREESPACE. unfold wf in Hw. case_if; lia.
Qed.
End Printf.

(** ** Quoting *)

(** What [vsb_quote] emits for one byte, and for a string. *)
Definition quoted1 (c : Z) : list Z :=
  if c =? 32 then [c]
  else if (c =? 92) || (c =? 34) then [92; c]
  else if c =? 10 then [92; 110]
  else if c =? 13 then [92; 114]
  else if c =? 9 then [92; 116]
  else if isgraph c then [c]
  else 92 :: octal c.

Definition quoted (p : list Z) : list Z :=
  if needs_quote p then 34 :: mjoin (map quoted1 p) ++ [34] else p.

Section Quote.
Context (malloc_ok : Z -> bool) (junk : Z) (Hm : forall z, malloc_ok z = true).

(** Appending to an auto-extending buffer while memory lasts. *)
Definition grown (s s' : vsb) (txt : list Z) : Prop :=
  open s' /\ VSB_CANEXTEND s' = true /\ content s' = content s ++ txt.

Lemma grown_trans s1 s2 s3 a b : grown s1 s2 a -> grown s2 s3 b -> grown s1 s3 (a ++ b).
Proof. intros (A & B & C) (D & E & F). unfold grown. rewrite F, C, <- app_assoc. auto. Qed.

Lemma vsb_putc_auto s c :
  open s -> VSB_CANEXTEND s = true -> c <> 0 ->
  exists s', vsb_putc malloc_ok junk s c = Some (0, s') /\ grown s s' [c].
Proof.
  intros Ho Hc Hz. destruct (open_checks s Ho) as (Hi & Hs & Hv).
  destruct Ho as (Hw & Hf & _). unfold vsb_putc. rewrite Hi, Hs, Hv.
  destruct (Z.eqb_spec c 0); [done|].
  assert (put : forall s1, wf s1 -> VSB_HASROOM s1 = true -> content s1 = content s ->
            (forall f, Z.land VSB_DYNAMIC f = 0 -> has f s1 = has f s) ->
            grown s (store1 s1 c) [c]).
  { intros s1 A B C D. destruct (store1_spec s1 c A B) as (X & Y & W).
    unfold grown, open, VSB_CANEXTEND in *. rewrite !(has_eq _ (store1 s1 c) s1) by done.
    rewrite !D by done. rewrite Y, C. auto 10. }
  destruct (VSB_HASROOM s) eqn:Hr; [eauto|].
  destruct (vsb_extend_ok malloc_ok junk s 1 Hm Hc) as [s1 E]. rewrite E.
  destruct (vsb_extend_spec _ _ _ 1 _ Hw ltac:(lia) E) as (A & B & C & D & F).
  eexists; split; [done|]. apply put; auto. eapply extend_room; [| |exact E]; [done|lia].
Qed.

Lemma vsb_bcat_grown s txt :
  open s -> VSB_CANEXTEND s = true ->
  exists s', vsb_bcat malloc_ok junk s txt = Some (0, s') /\ grown s s' txt.
Proof.
  intros Ho Hc. destruct (vsb_bcat_auto malloc_ok junk s txt Ho Hm Hc) as (s' & A & B & C & D).
  exists s'. by unfold grown.
Qed.

Lemma vsb_cat_grown s txt :
  open s -> VSB_CANEXTEND s = true -> c_str txt = txt ->
  exists s', vsb_cat malloc_ok junk s txt = Some (0, s') /\ grown s s' txt.
Proof.
  intros Ho Hc Ht. destruct (vsb_bcat_grown s txt Ho Hc) as (s' & A & B).
  exists s'. split; [|done]. unfold vsb_cat. by rewrite Ht.
Qed.

Lemma vsb_printf_grown s txt :
  open s -> VSB_CANEXTEND s = true ->
  exists s', vsb_printf malloc_ok junk s txt = Some (0, s') /\ grown s s' txt.
Proof.
  intros Ho Hc.
  destruct (vsb_vprintf_cases malloc_ok junk s txt Ho) as (r & s' & A & B & C & _ & D & E & _).
  destruct (E Hm Hc) as (-> & F & G). exists s'. split; [done|].
  unfold grown, open. destruct (has VSB_OVERFLOWED s'); done.
Qed.

Lemma quote1_grown s c :
  open s -> VSB_CANEXTEND s = true ->
  exists s', quote1 malloc_ok junk s c = Some s' /\ grown s s' (quoted1 c).
Proof.
  intros Ho Hc. unfold quote1, quoted1.
  destruct (Z.eqb_spec c 32).
  { destruct (vsb_putc_auto s c Ho Hc) as (s' & -> & G); [lia|eauto]. }
  destruct ((c =? 92) || (c =? 34)) eqn:E.
  { destruct (vsb_putc_auto s 92 Ho Hc) as (s' & -> & G); [lia|].
    destruct (vsb_putc_auto s' c) as (s2 & -> & G2); [apply G|apply G|bool_prop; lia|].
    exists s2. split; [done|]. exact (grown_trans _ _ _ _ _ G G2). }
  case_if; [destruct (vsb_cat_grown s [92; 110] Ho Hc eq_refl) as (s' & -> & G); eauto|].
  case_if; [destruct (vsb_cat_grown s [92; 114] Ho Hc eq_refl) as (s' & -> & G); eauto|].
  case_if; [destruct (vsb_cat_grown s [92; 116] Ho Hc eq_refl) as (s' & -> & G); eauto|].
  case_if.
  - destruct (vsb_putc_auto s c Ho Hc) as (s' & -> & G); [unfold isgraph in *; lia|eauto].
  - destruct (vsb_printf_grown s (92 :: octal c) Ho Hc) as (s' & -> & G). eauto.
Qed.

Lemma quote_loop_grown p s :
  open s -> VSB_CANEXTEND s = true ->
  exists s', quote_loop malloc_ok junk s p = Some s' /\ grown s s' (mjoin (map quoted1 p)).
Proof.
  revert s; induction p as [|c p IH]; intros s Ho Hc; simpl.
  - exists s. unfold grown. by rewrite app_nil_r.
  - destruct (quote1_grown s c Ho Hc) as (s1 & -> & G).
    destruct (IH s1) as (s2 & -> & G2); [apply G|apply G|].
    exists s2. split; [done|]. exact (grown_trans _ _ _ _ _ G G2).
Qed.

Lemma vsb_quote_grown s p :
  open s -> VSB_CANEXTEND s = true ->
  exists s', vsb_quote malloc_ok junk s p = Some s' /\ grown s s' (quoted p).
Proof.
  intros Ho Hc. unfold vsb_quote, quoted. destruct (needs_quote p).
  - destruct (vsb_putc_auto s 34 Ho Hc) as (s1 & -> & G1); [lia|].
    destruct (quote_loop_grown p s1) as (s2 & -> & G2); [apply G1..|].
    destruct (vsb_putc_auto s2 34) as (s3 & -> & G3); [apply G2|apply G2|lia|].
    exists s3. split; [done|].
    exact (grown_trans _ _ _ _ _ G1 (grown_trans _ _ _ _ _ G2 G3)).
  - destruct (vsb_bcat_grown s p Ho Hc) as (s' & -> & G). eauto.
Qed.
End Quote.

(** ** Finishing and clearing *)

Lemma has_clearflag f g s : has f (VSB_CLEARFLAG s g) = negb (Z.land (Z.ldiff (s_flags s) g) f =? 0).
Proof. done. Qed.

Lemma ldiff_other a f g : Z.land f g = 0 -> Z.land (Z.ldiff a f) g = Z.land a g.
Proof.
  intros H. apply Z.bits_inj_iff. intros n.
  rewrite !Z.land_spec, Z.ldiff_spec. pose proof (f_equal (fun z => Z.testbit z n) H) as K.
  cbv beta in K. rewrite Z.land_spec, Z.bits_0 in K.
  destruct (Z.testbit a n), (Z.testbit f n), (Z.testbit g n); simpl in *; congruence.
Qed.

Lemma has_clear_other f g s : Z.land g f = 0 -> has f (VSB_CLEARFLAG s g) = has f s.
Proof. intros H. rewrite has_clearflag, ldiff_other by done. done. Qed.

Lemma has_clear_same f s : has f (VSB_CLEARFLAG s f) = false.
Proof. rewrite has_clearflag. by rewrite Z.land_ldiff. Qed.

(** A finished buffer still holds its bytes, with a NUL behind them; a mark of
    overflow would be gone. *)
Lemma vsb_finish_spec s : open s ->
  exists s', vsb_finish s = Some s' /\ vsb_overflowed s' = false /\ wf s' /\
    content s' = content s /\ s_len s' = s_len s /\ vsb_len s' = Some (s_len s) /\
    VSB_CANEXTEND s' = VSB_CANEXTEND s /\ vsb_data s' = Some (c_str (content s ++ [0])).
Proof.
  intros Ho. destruct (open_checks s Ho) as (Hi & Hs & Hv). destruct Ho as (Hw & Hf & _).
  unfold vsb_finish. rewrite Hi, Hs. set (s1 := Vsb _ _ _ _).
  set (s' := VSB_SETFLAG (VSB_CLEARFLAG s1 VSB_OVERFLOWED) VSB_FINISHED).
  assert (W : wf s') by (unfold wf in *; simpl; rewrite length_insert; lia).
  assert (O : has VSB_OVERFLOWED s' = false)
    by (unfold s'; rewrite has_setflag, has_clear_same; done).
  exists s'. split; [done|]. split; [exact O|]. split; [exact W|].
  assert (C : content s' = content s)
    by (unfold content; simpl; by rewrite take_insert_ge by lia).
  split; [exact C|]. split; [done|].
  unfold vsb_len, vsb_data. rewrite (wf_integrity _ W), O. split; [done|]. split.
  - unfold VSB_CANEXTEND, s'. by rewrite has_setflag, has_clear_other, orb_false_r by done.
  - unfold state_is, s'. rewrite has_setflag. replace (_ || _) with true by (by rewrite orb_true_r).
    cbn [eqb]. f_equal. unfold content. simpl. destruct Hw as [Hl Hb].
    rewrite insert_take_drop by lia.
    generalize (take (Z.to_nat (s_len s)) (s_buf s)) as l.
    induction l as [|c l IH]; simpl; [done|]. case_if; [done|]. by rewrite IH.
Qed.

Lemma vsb_clear_spec s : wf s ->
  exists s', vsb_clear s = Some s' /\ open s' /\ content s' = [] /\ VSB_CANEXTEND s' = VSB_CANEXTEND s.
Proof.
  intros Hw. unfold vsb_clear. rewrite wf_integrity by done. eexists. split; [done|].
  unfold open, wf, content in *. simpl. split_and!; try lia.
  - unfold has. simpl. rewrite ldiff_other by done. by rewrite Z.land_ldiff.
  - unfold has. simpl. by rewrite Z.land_ldiff.
  - done.
  - unfold VSB_CANEXTEND, has. simpl. by rewrite !ldiff_other.
Qed.

(** ** The properties *)

(** appending bytes to an open buffer never trips an assertion and never
    writes outside the buffer; either all bytes were appended, or the buffer
    holds a prefix of them and is marked overflowed with result -1, which does
    not happen to an auto-extending buffer while memory lasts. *)
Theorem vsb_bcat_total (malloc_ok : Z -> bool) (junk : Z) (s : vsb) (buf : list Z)
  (Ho : open s) :
  exists r s', vsb_bcat malloc_ok junk s buf = Some (r, s') /\ wf s' /\
    ((r = 0 /\ content s' = content s ++ buf /\ open s') \/
     (r = -1 /\ vsb_overflowed s' = true /\
      (exists done, done `prefix_of` buf /\ content s' = content s ++ done) /\
      ~ ((forall z, malloc_ok z = true) /\ VSB_CANEXTEND s = true))).
Proof.
  destruct (vsb_bcat_spec malloc_ok junk s buf Ho) as (r & s' & A & B & C & D).
  exists r, s'. split; [done|]. split; [done|].
  destruct D as [(? & ? & ? & ?)|D]; [left|right; exact D].
  unfold open. auto.
Qed.

(** A four byte buffer on the stack, and an automatic one. *)
Definition fixed4 : vsb := Vsb [0; 0; 0; 0] 4 0 0.
Definition auto0 : vsb :=
  match vsb_newauto (fun _ => true) 0 with Some (Some s) => s | _ => fixed4 end.

Lemma fixed4_open : open fixed4.
Proof. unfold open, wf. simpl. repeat split; lia. Qed.

Lemma auto0_open : open auto0.
Proof. unfold open, wf. vm_compute. repeat split; discriminate. Qed.

Lemma vsb_bcat_total_witness :
  open fixed4 /\ exists s', vsb_bcat (fun _ => true) 0 fixed4 (bs "abcdef") = Some (-1, s')
    /\ content s' = bs "abc".
Proof.
  split; [exact fixed4_open|].
  destruct (vsb_bcat_total (fun _ => true) 0 fixed4 (bs "abcdef") fixed4_open)
    as (r & s' & E & _). vm_compute in E. injection E as <- <-.
  eexists. split; [vm_compute; reflexivity|vm_compute; reflexivity].
Defined.

(** formatted output.  On an auto-extending buffer with memory the whole
    text is appended.  On a fixed buffer the text that fits is appended, and the
    call reports overflow exactly when the text is not strictly shorter than the
    free space: a text that fills the buffer to the last byte is stored in full
    and still reported as an overflow. *)
Theorem vsb_vprintf_total (malloc_ok : Z -> bool) (junk : Z) (s : vsb) (txt : list Z)
  (Ho : open s) :
  exists r s', vsb_vprintf malloc_ok junk s txt = Some (r, s') /\ wf s' /\
    ((forall z, malloc_ok z = true) -> VSB_CANEXTEND s = true ->
      r = 0 /\ content s' = content s ++ txt) /\
    (VSB_CANEXTEND s = false -> (r = 0 <-> Z.of_nat (length txt) < VSB_FREESPACE s) /\
      content s' = content s ++ take (Z.to_nat (VSB_FREESPACE s)) txt).
Proof.
  destruct (vsb_vprintf_cases malloc_ok junk s txt Ho) as (r & s' & A & B & _ & _ & _ & E & F).
  exists r, s'. split; [done|]. split; [done|]. split; [|done].
  intros Hm Hc. destruct (E Hm Hc) as (? & ? & _). done.
Qed.

Lemma vsb_vprintf_total_witness :
  open fixed4 /\ exists s', vsb_vprintf (fun _ => true) 0 fixed4 (bs "abc") = Some (-1, s')
    /\ content s' = bs "abc".
Proof.
  split; [exact fixed4_open|].
  destruct (vsb_vprintf_total (fun _ => true) 0 fixed4 (bs "abc") fixed4_open)
    as (r & s' & E & _). vm_compute in E. injection E as <- <-.
  eexists. split; vm_compute; reflexivity.
Defined.

(** The size an extension asks for is a multiple of 16, is large enough for
    the request, and exceeds it by less than one 4096 byte step (or is the
    minimum of 16); the doubling loop always ends. *)
Theorem vsb_extendsize_bounds (size : Z) (Hs : 0 <= size) :
  size <= vsb_extendsize size < Z.max 17 (size + 4096) /\
  vsb_extendsize size mod 16 = 0 /\
  ~ (vsb_extendsize size < size).
Proof. destruct (vsb_extendsize_spec size Hs) as (A & B & C & D). lia. Qed.

Lemma vsb_extendsize_bounds_witness :
  0 <= 5000 /\ vsb_extendsize 5000 = 8192 /\ 5000 <= vsb_extendsize 5000 < Z.max 17 9096.
Proof.
  assert (H : 0 <= 5000) by lia.
  destruct (vsb_extendsize_bounds 5000 H) as (A & _). split; [exact H|].
  split; [vm_compute; reflexivity|exact A].
Defined.

End Vsb.
