(* ===== verification/Argv.v ===== *)
(** * Argv: the command line parser

    [lib/libvarnish/argv.c].  A [char *] is the list of the bytes before the NUL
    it points into; reading past the list yields the NUL.  Moving a pointer
    beyond the NUL leaves the object: the parser then answers [AvOverrun].
    [sscanf(s + 1, "x%02x", &u)] is modelled by its C library definition:
    white space is skipped, then at most two bytes are converted. *)
From S2P Require Import Prelude Vsb.

Module Argv.

Definition hexval (c : Z) : option Z :=
  if isdigit c then Some (c - 48)
  else if (97 <=? c) && (c <=? 102) then Some (c - 87)
  else if (65 <=? c) && (c <=? 70) then Some (c - 55)
  else None.

Fixpoint skip_ws (p : list Z) : list Z :=
  match p with
  | c :: r => if isspace c then skip_ws r else p
  | [] => []
  end.

(** [%02x] *)
Definition scan_2x (p : list Z) : option Z :=
  let p := skip_ws p in
  let c0 := at_ p 0 in
  let c1 := at_ p 1 in
  if c0 =? 43 then hexval c1
  else if c0 =? 45 then match hexval c1 with Some v => Some (u32 (- v)) | None => None end
  else match hexval c0 with
       | None => None
       | Some h =>
         if (c0 =? 48) && ((c1 =? 120) || (c1 =? 88)) then None
         else match hexval c1 with Some l => Some (16 * h + l) | None => Some h end
       end.

(** [for (r = 1; r < 4; r++)]: at most three octal digits into a [char]. *)
Fixpoint octal_loop (k r : nat) (c : Z) (s : list Z) : nat * Z :=
  match k with
  | O => (r, c)
  | S k =>
    if negb (isdigit (at_ s r)) then (r, c)
    else if 7 <? at_ s r - 48 then (r, c)
    else octal_loop k (S r) (u8 (Z.lor (Z.shiftl c 3) (at_ s r - 48))) s
  end.

(** [BackSlash(s, &c)]: the length of the sequence, 0 if it is not one, and the
    byte it stands for. *)
Definition BackSlash (s : list Z) : option (nat * Z) :=
  assert! peek s =? 92 ;;
  let c1 := at_ s 1 in
  if c1 =? 110 then Some (2%nat, 10)
  else if c1 =? 114 then Some (2%nat, 13)
  else if c1 =? 116 then Some (2%nat, 9)
  else if c1 =? 34 then Some (2%nat, 34)
  else if c1 =? 92 then Some (2%nat, 92)
  else if (48 <=? c1) && (c1 <=? 55) then Some (octal_loop 3 1 0 s)
  else if c1 =? 120 then
    match scan_2x (drop 2 s) with
    | Some u => assert! Z.land u (Z.lnot 0xff) =? 0 ;; Some (4%nat, u8 u)
    | None => Some (O, 0)
    end
  else Some (O, 0).

(** [BackSlashDecode(s, e)] with [n = e - s].  A sequence of length 0 would make
    the loop of the source spin; that is the [None] of exhausted fuel. *)
Fixpoint BackSlashDecode (fuel : nat) (q : list Z) (n : nat) : option (list Z) :=
  match n with
  | O => Some []
  | S m =>
    match fuel with
    | O => None
    | S fuel =>
      if negb (peek q =? 92) then
        let? l := BackSlashDecode fuel (tail q) m in Some (peek q :: l)
      else
        let? (i, c) := BackSlash q in
        let? l := BackSlashDecode fuel (drop i q) (n - i) in Some (c :: l)
    end
  end.

Inductive avres :=
  | AvOk (args : list (list Z))       (* argv[1..], argv[0] == NULL *)
  | AvInvalidBackslash                (* argv[0] == err_invalid_backslash *)
  | AvMissingQuote                    (* argv[0] == err_missing_quote *)
  | AvAbort                           (* an assertion failed *)
  | AvOverrun                         (* the pointer left the string *)
  | AvFuel.

Inductive scanres := SEnd (s : list Z) (n : nat) | SFail (r : avres).

(** The inner [while (1)]: find the end of the token; [n] bytes were passed. *)
Fixpoint scan (fuel : nat) (comma quote : bool) (s : list Z) (n : nat) : scanres :=
  match fuel with
  | O => SFail AvFuel
  | S fuel =>
    if peek s =? 92 then
      match BackSlash s with
      | None => SFail AvAbort
      | Some (O, _) => SFail AvInvalidBackslash
      | Some (i, _) =>
        if (length s <? i)%nat then SFail AvOverrun
        else scan fuel comma quote (drop i s) (n + i)
      end
    else if negb quote then
      if (peek s =? 0) || isspace (peek s) then SEnd s n
      else if comma && (peek s =? 44) then SEnd s n
      else scan fuel comma quote (tail s) (S n)
    else if peek s =? 34 then SEnd s n
    else if peek s =? 0 then SFail AvMissingQuote
    else scan fuel comma quote (tail s) (S n)
  end.

Definition ARGV_COMMENT : Z := 1.
Definition ARGV_COMMA : Z := 2.

Fixpoint parse_loop (fuel : nat) (comment comma : bool) (s : list Z) (acc : list (list Z)) : avres :=
  match fuel with
  | O => AvFuel
  | S fuel =>
    if peek s =? 0 then AvOk (rev acc)
    else if isspace (peek s) then parse_loop fuel comment comma (tail s) acc
    else if comment && (peek s =? 35) then AvOk (rev acc)
    else
      let quote := peek s =? 34 in
      let p := if quote then tail s else s in
      match scan (S (length p)) comma quote p 0 with
      | SFail r => r
      | SEnd s' n =>
        match BackSlashDecode n p n with
        | None => AvAbort
        | Some a => parse_loop fuel comment comma (if peek s' =? 0 then s' else tail s') (a :: acc)
        end
      end
  end.

(** Every turn of either loop consumes a byte, so the length is enough fuel. *)
Definition ParseArgv (s : list Z) (flag : Z) : avres :=
  parse_loop (S (length s)) (negb (Z.land flag ARGV_COMMENT =? 0))
             (negb (Z.land flag ARGV_COMMA =? 0)) s [].

(** ** Lemmas *)

Lemma octal_loop_len k r c s : (r <= fst (octal_loop k r c s))%nat.
Proof.
  revert r c; induction k as [|k IH]; intros r c; simpl; [lia|].
  repeat case_if; simpl; try lia. etransitivity; [|apply IH]. lia.
Qed.

Lemma BackSlash_len s i c : BackSlash s = Some (S i, c) -> (1 <= S i)%nat.
Proof. lia. Qed.

Lemma peek_nil_or s : peek s = 0 \/ exists c r, s = c :: r.
Proof. destruct s; [by left|right; eauto]. Qed.

Lemma nonnul_cons s : (peek s =? 0) = false -> exists c r, s = c :: r.
Proof. destruct s; simpl; [done|eauto]. Qed.

(** The scanner never runs out of the fuel its callers give it. *)
Lemma scan_no_fuel fuel comma quote s n :
  (length s < fuel)%nat -> scan fuel comma quote s n <> SFail AvFuel.
Proof.
  revert s n; induction fuel as [|fuel IH]; intros s n Hl; [lia|]. simpl.
  destruct (peek s =? 92) eqn:E.
  - destruct (BackSlash s) as [[[|i] c]|]; [done| |done].
    destruct (length s <? S i)%nat eqn:E2; [done|]. apply Nat.ltb_ge in E2.
    apply IH. rewrite length_drop. lia.
  - destruct quote; simpl.
    + case_if; [done|]. case_if; [done|].
      destruct (nonnul_cons s Hif0) as (c & r & ->). apply IH. simpl in *; lia.
    + destruct (peek s =? 0) eqn:E0; simpl; [done|]. repeat case_if; try done;
      destruct (nonnul_cons s E0) as (c' & r & ->); apply IH; simpl in *; lia.
Qed.

Lemma scan_shrinks fuel comma quote s n s' n' :
  scan fuel comma quote s n = SEnd s' n' -> (length s' <= length s)%nat.
Proof.
  revert s n; induction fuel as [|fuel IH]; intros s n H; [done|]. simpl in H.
  destruct (peek s =? 92).
  - destruct (BackSlash s) as [[[|i] c]|]; [done| |done].
    destruct (length s <? S i)%nat; [done|]. apply IH in H. rewrite length_drop in H. lia.
  - repeat case_match; try done; try (injection H as <- <-; done);
      apply IH in H; destruct s; simpl in *; lia.
Qed.

Lemma parse_no_fuel fuel comment comma s acc :
  (length s < fuel)%nat -> parse_loop fuel comment comma s acc <> AvFuel.
Proof.
  revert s acc; induction fuel as [|fuel IH]; intros s acc Hl; [lia|]. cbn [parse_loop].
  destruct (peek s =? 0) eqn:E0; [done|].
  destruct (nonnul_cons s E0) as (c & r & ->). cbn [peek tail length] in *.
  case_if; [apply IH; lia|]. case_if; [done|].
  set (p := if c =? 34 then r else c :: r).
  assert (Hp : (length p <= S (length r))%nat) by (subst p; case_if; simpl; lia).
  destruct (scan (S (length p)) comma (c =? 34) p 0) as [s' n|e] eqn:Es.
  - destruct (BackSlashDecode n p n); [|done].
    pose proof (scan_shrinks _ _ _ _ _ _ _ Es) as Hs.
    destruct (peek s' =? 0) eqn:E1.
    + destruct fuel; [lia|]. simpl. by rewrite E1.
    + apply IH. destruct (nonnul_cons _ E1) as (c' & r' & ->). simpl in *. lia.
  - intros ->. eapply scan_no_fuel; [|exact Es]. lia.
Qed.

(** ** Reading back what [vsb_quote] wrote *)

Definition octdigit (c : Z) : bool := (48 <=? c) && (c <=? 55).

(** The bytes [vsb_quote] writes as an octal escape of one or two digits. *)
Definition short_octal (c : Z) : bool :=
  negb (isgraph c) && negb (c =? 32) && negb (c =? 10) && negb (c =? 13) &&
  negb (c =? 9) && (c <? 64).

Fixpoint octal_safe (p : list Z) : bool :=
  match p with
  | [] => true
  | c :: r => negb (short_octal c && octdigit (peek r)) && octal_safe r
  end.

(** The strings the pair [vsb_quote], [ParseArgv] carries faithfully. *)
Definition safe (p : list Z) : bool :=
  negb (bool_decide (p = [])) && forallb (fun c => (0 <? c) && (c <? 256)) p &&
  (if Vsb.needs_quote p then octal_safe p else forallb (fun c => negb (c =? 92)) p).

(** Quoted words on a line. *)
Fixpoint words (args : list (list Z)) : list Z :=
  match args with
  | [] => []
  | [p] => Vsb.quoted p
  | p :: r => Vsb.quoted p ++ 32 :: words r
  end.

Lemma octal_step a d : 0 <= a < 32 -> 0 <= d < 8 -> u8 (Z.lor (Z.shiftl a 3) d) = 8 * a + d.
Proof.
  intros Ha Hd.
  assert (H : forallb (fun a => forallb (fun d =>
                u8 (Z.lor (Z.shiftl a 3) d) =? 8 * a + d) (seqZ 0 8)) (seqZ 0 32) = true)
    by (vm_compute; reflexivity).
  rewrite forallb_forall in H. specialize (H a). rewrite forallb_forall in H.
  apply Z.eqb_eq, H; apply list_elem_of_In, elem_of_seqZ; lia.
Qed.

Lemma octal_loop_stop k r c s : octdigit (at_ s r) = false -> octal_loop k r c s = (r, c).
Proof.
  intros H. destruct k as [|k]; simpl; [done|]. unfold octdigit, isdigit in *.
  case_if; [done|]. case_if; [done|]. lia.
Qed.

Lemma octal_loop_digit k r c s d :
  at_ s r = 48 + d -> 0 <= d < 8 -> 0 <= c < 32 ->
  octal_loop (S k) r c s = octal_loop k (S r) (8 * c + d) s.
Proof.
  intros E Hd Hc. cbn [octal_loop]. rewrite E. unfold isdigit.
  replace ((48 <=? 48 + d) && (48 + d <=? 57)) with true by lia. cbn [negb].
  replace (7 <? 48 + d - 48) with false by lia.
  replace (48 + d - 48) with d by lia. by rewrite octal_step.
Qed.

Lemma octal_read c t :
  0 < c < 256 -> (c < 64 -> octdigit (at_ t 0) = false) ->
  octal_loop 3 1 0 (92 :: Vsb.octal c ++ t) = (S (length (Vsb.octal c)), c).
Proof.
  intros Hc Ht. unfold Vsb.octal.
  assert (M : forall z, 0 <= z mod 8 < 8) by (intros; apply Z.mod_pos_bound; lia).
  destruct (Z.leb_spec 64 c).
  - erewrite octal_loop_digit by (first [reflexivity|Z.div_mod_to_equations; lia]).
    erewrite octal_loop_digit by (first [reflexivity|Z.div_mod_to_equations; lia]).
    erewrite octal_loop_digit by (first [reflexivity|Z.div_mod_to_equations; lia]).
    simpl. f_equal. Z.div_mod_to_equations; lia.
  - specialize (Ht ltac:(lia)). destruct (Z.leb_spec 8 c).
    + erewrite octal_loop_digit by (first [reflexivity|Z.div_mod_to_equations; lia]).
      erewrite octal_loop_digit by (first [reflexivity|Z.div_mod_to_equations; lia]).
      rewrite octal_loop_stop by done. simpl. f_equal. Z.div_mod_to_equations; lia.
    + erewrite octal_loop_digit by (first [reflexivity|lia]).
      rewrite octal_loop_stop by done. simpl; f_equal; lia.
Qed.

(** One written byte is either itself or an escape sequence that reads back. *)
Lemma quoted1_read c t :
  0 < c < 256 -> (short_octal c = true -> octdigit (at_ t 0) = false) ->
  (Vsb.quoted1 c = [c] /\ c <> 92 /\ c <> 34) \/
  (exists r, Vsb.quoted1 c = 92 :: r /\ r <> [] /\
     BackSlash (Vsb.quoted1 c ++ t) = Some (length (Vsb.quoted1 c), c)).
Proof.
  intros Hc Ht. unfold Vsb.quoted1.
  destruct (Z.eqb_spec c 32); [left; split; [done|lia]|].
  destruct ((c =? 92) || (c =? 34)) eqn:E.
  { right. eexists; split; [done|]. split; [done|].
    assert (c = 92 \/ c = 34) as [->| ->] by (bool_prop; lia); done. }
  destruct (Z.eqb_spec c 10) as [->|]; [by right; eexists|].
  destruct (Z.eqb_spec c 13) as [->|]; [by right; eexists|].
  destruct (Z.eqb_spec c 9) as [->|]; [by right; eexists|].
  destruct (isgraph c) eqn:G; [left; bool_prop; split; [done|lia]|].
  right. eexists; split; [done|].
  assert (Hd : exists d r, Vsb.octal c = d :: r /\ 48 <= d <= 55).
  { unfold Vsb.octal. case_if; [|case_if]; do 2 eexists; (split; [done|]);
      Z.div_mod_to_equations; lia. }
  destruct Hd as (d & r & Ed & Hd). split; [by rewrite Ed|].
  pose proof (octal_read c t Hc) as R. rewrite Ed in *. cbn [app] in *.
  unfold BackSlash. cbn [peek]. rewrite at_cons_S, at_cons_0.
  assert (X : forall k, k < 48 \/ 55 < k -> (d =? k) = false) by (intros; lia).
  rewrite !X by lia. replace ((48 <=? d) && (d <=? 55)) with true by lia.
  cbn [Z.eqb Pos.eqb]. rewrite R; [done|]. intros; apply Ht. unfold short_octal.
  rewrite G. lia.
Qed.

Lemma octdigit_quoted c t :
  0 < c < 256 -> octdigit c = false -> octdigit (at_ (Vsb.quoted1 c ++ t) 0) = false.
Proof. intros Hc H. unfold Vsb.quoted1. repeat case_if; try done. Qed.

Definition body (p : list Z) : list Z := mjoin (map Vsb.quoted1 p).

Lemma body_cons c p : body (c :: p) = Vsb.quoted1 c ++ body p.
Proof. done. Qed.

Lemma body_stop p t :
  Forall cchar p -> octdigit (peek p) = false -> octdigit (at_ (body p ++ 34 :: t) 0) = false.
Proof.
  intros Hp H. destruct p as [|c p]; [done|]. inv Hp. unfold body. simpl.
  rewrite <- app_assoc. by apply octdigit_quoted.
Qed.

(** The escape or plain byte at the head of a body, by cases. *)
Lemma body_read c p t :
  Forall cchar (c :: p) -> octal_safe (c :: p) = true ->
  (Vsb.quoted1 c = [c] /\ c <> 92 /\ c <> 34) \/
  (exists r, Vsb.quoted1 c = 92 :: r /\ r <> [] /\
     BackSlash (Vsb.quoted1 c ++ body p ++ 34 :: t) = Some (length (Vsb.quoted1 c), c)).
Proof.
  intros Hp Hs. inv Hp. apply quoted1_read; [done|]. intros Hc. apply body_stop; [done|].
  cbn [octal_safe] in Hs. rewrite Hc in Hs. simpl in Hs. bool_prop. done.
Qed.

Lemma SEnd_eq s n m : n = m -> SEnd s n = SEnd s m.
Proof. by intros ->. Qed.

Lemma scan_quoted p : forall fuel n t,
  Forall cchar p -> octal_safe p = true -> (length (body p) < fuel)%nat ->
  scan fuel false true (body p ++ 34 :: t) n = SEnd (34 :: t) (n + length (body p)).
Proof.
  induction p as [|c p IH]; intros fuel n t Hp Hs Hf.
  - destruct fuel; [simpl in Hf; lia|]. cbn. apply SEnd_eq. lia.
  - pose proof (body_read c p t Hp Hs) as R. apply Forall_cons_1 in Hp as [Hc Hp].
    assert (Hs' : octal_safe p = true) by (cbn [octal_safe] in Hs; by bool_prop).
    rewrite body_cons in *. rewrite length_app in Hf. rewrite <- app_assoc.
    destruct fuel as [|fuel]; [lia|]. destruct R as [(E & N1 & N2)|(r & E & Nr & B)].
    + rewrite E in *. cbn [app length] in *. unfold cchar in Hc. cbn [scan peek].
      assert (X : forall k, c <> k -> (c =? k) = false) by (intros; lia).
      rewrite (X 92), (X 34), (X 0) by lia. cbn [negb tail]. rewrite IH by (auto; lia). apply SEnd_eq. lia.
    + cbn [scan]. rewrite B. rewrite E in *. destruct r as [|x r]; [done|].
      assert (L : (length ((92%Z :: x :: r) ++ body p ++ 34%Z :: t) <?
                   length (92%Z :: x :: r))%nat = false)
        by (apply Nat.ltb_ge; rewrite length_app; lia).
      cbn [app length] in L |- *. cbn [peek Z.eqb Pos.eqb]. rewrite L.
      cbn [drop]. rewrite drop_app_length. rewrite IH by (auto; simpl in *; lia).
      apply SEnd_eq. rewrite !length_app. simpl. lia.
Qed.

Lemma decode_quoted p : forall fuel t,
  Forall cchar p -> octal_safe p = true -> (length (body p) <= fuel)%nat ->
  BackSlashDecode fuel (body p ++ 34 :: t) (length (body p)) = Some p.
Proof.
  induction p as [|c p IH]; intros fuel t Hp Hs Hf; [by destruct fuel|].
  pose proof (body_read c p t Hp Hs) as R. apply Forall_cons_1 in Hp as [Hc Hp].
  assert (Hs' : octal_safe p = true) by (cbn [octal_safe] in Hs; by bool_prop).
  rewrite body_cons in *. rewrite length_app in *. rewrite <- app_assoc.
  destruct R as [(E & N1 & N2)|(r & E & Nr & B)].
  - rewrite E in *. cbn [app length] in *. destruct fuel as [|fuel]; [lia|].
    cbn [Nat.add BackSlashDecode peek]. replace (c =? 92) with false by lia.
    cbn [negb tail]. by rewrite IH by (auto; lia).
  - rewrite E in *. cbn [length Nat.add] in *. destruct fuel as [|fuel]; [lia|].
    cbn [BackSlashDecode]. rewrite B. cbn [app peek Z.eqb Pos.eqb negb].
    rewrite <- Nat.add_succ_l, Nat.add_comm, Nat.add_sub.
    cbn [drop]. rewrite drop_app_length. by rewrite IH by (auto; lia).
Qed.

Definition plain (c : Z) : Prop := isgraph c = true /\ c <> 34 /\ c <> 92.

Lemma scan_plain p : forall fuel n t,
  Forall plain p -> t = [] \/ peek t = 32 -> (length p < fuel)%nat ->
  scan fuel false false (p ++ t) n = SEnd t (n + length p).
Proof.
  induction p as [|c p IH]; intros fuel n t Hp Ht Hf; (destruct fuel as [|fuel]; [simpl in Hf; lia|]).
  - cbn [app length]. rewrite Nat.add_0_r. cbn [scan].
    destruct Ht as [->|E]; [done|by rewrite E].
  - apply Forall_cons_1 in Hp as [(G & N1 & N2) Hp]. unfold isgraph in G. bool_prop.
    cbn [app scan peek tail length]. unfold isspace.
    replace (c =? 92) with false by lia. replace ((c =? 0) || _) with false by lia.
    simpl in Hf. cbn [negb]. rewrite IH by (auto; lia). apply SEnd_eq. lia.
Qed.

Lemma decode_plain p : forall fuel t,
  Forall plain p -> (length p <= fuel)%nat -> BackSlashDecode fuel (p ++ t) (length p) = Some p.
Proof.
  induction p as [|c p IH]; intros fuel t Hp Hf; [by destruct fuel|].
  apply Forall_cons_1 in Hp as [(G & N1 & N2) Hp]. destruct fuel as [|fuel]; [simpl in Hf; lia|].
  cbn [length BackSlashDecode app peek]. replace (c =? 92) with false by lia.
  cbn [negb tail]. simpl in Hf. by rewrite IH by (auto; lia).
Qed.

Lemma safe_spec p :
  safe p = true -> p <> [] /\ Forall cchar p /\
  (if Vsb.needs_quote p then octal_safe p = true else Forall plain p).
Proof.
  unfold safe. intros H. bool_prop. split; [done|].
  assert (Hc : Forall cchar p).
  { apply Forall_forall. intros x Hx. apply list_elem_of_In in Hx.
    match goal with K : forallb _ p = true |- _ => rewrite forallb_forall in K;
      first [specialize (K x Hx); unfold cchar; lia | idtac] end. }
  split; [done|]. destruct (Vsb.needs_quote p) eqn:N; [done|].
  apply Forall_forall. intros x Hx. apply list_elem_of_In in Hx.
  match goal with K : forallb (fun c => negb (c =? 92)) p = true |- _ =>
    rewrite forallb_forall in K; specialize (K x Hx) end.
  destruct (negb (isgraph x) || (x =? 34)) eqn:E.
  - unfold Vsb.needs_quote in N. rewrite (proj2 (existsb_exists _ p)) in N; [done|by exists x].
  - bool_prop. unfold plain. split; [done|]. lia.
Qed.

Lemma parse_word p fuel t acc :
  safe p = true -> t = [] \/ peek t = 32 -> (length (Vsb.quoted p ++ t) < S fuel)%nat ->
  exists k, (k <= length t)%nat /\ drop k t = (if Vsb.needs_quote p then t else tail t) /\
  parse_loop (S fuel) false false (Vsb.quoted p ++ t) acc =
  parse_loop fuel false false (drop k t) (p :: acc).
Proof.
  intros Hp Ht Hf. destruct (safe_spec p Hp) as (Hn & Hc & Hq).
  unfold Vsb.quoted in *. destruct (Vsb.needs_quote p) eqn:N.
  - exists O. split; [lia|]. split; [done|]. rewrite drop_0. fold (body p).
    cbn [app parse_loop peek Z.eqb Pos.eqb]. change (isspace 34) with false. cbn [tail].
    rewrite <- app_assoc. cbn [app andb].
    rewrite scan_quoted by (auto; rewrite length_app; simpl; lia).
    cbn [Nat.add]. rewrite decode_quoted by auto. done.
  - destruct p as [|c p]; [done|].
    pose proof Hq as (G & N1 & N2)%Forall_inv. unfold isgraph in G. bool_prop.
    assert (Hd : (if peek t =? 0 then t else tail t) = tail t)
      by (destruct Ht as [->|E]; [done|by rewrite E]).
    assert (W : exists k, (k <= length t)%nat /\ drop k t = tail t)
      by (destruct t; [exists O|exists 1%nat]; split; simpl; auto with lia).
    destruct W as (k & Hk & Ek). exists k. split; [done|]. split; [done|]. rewrite Ek.
    cbn [app]. cbn [parse_loop peek]. replace (c =? 0) with false by lia.
    unfold isspace at 1. replace (((9 <=? c) && (c <=? 13)) || (c =? 32)) with false by lia.
    cbn [andb]. replace (c =? 34) with false by lia. change (c :: p ++ t) with ((c :: p) ++ t).
    rewrite scan_plain by (auto; rewrite length_app; lia).
    cbn [Nat.add]. rewrite decode_plain by auto. by rewrite Hd.
Qed.

Lemma words_cons p a r : words (p :: a :: r) = Vsb.quoted p ++ 32 :: words (a :: r).
Proof. done. Qed.

Lemma parse_words args : forall fuel acc,
  forallb safe args = true -> (length (words args) < fuel)%nat ->
  parse_loop fuel false false (words args) acc = AvOk (rev acc ++ args).
Proof.
  induction args as [|p args IH]; intros fuel acc Hs Hf; (destruct fuel as [|fuel]; [lia|]).
  - cbn. by rewrite app_nil_r.
  - cbn [forallb] in Hs. apply andb_true_iff in Hs as [Hp Hs]. destruct args as [|a args].
    + cbn [words] in *. rewrite <- (app_nil_r (Vsb.quoted p)) in *.
      destruct (parse_word p fuel [] acc Hp) as (k & _ & _ & ->); [auto|done|].
      assert (Hl : (0 < length (Vsb.quoted p))%nat).
      { unfold Vsb.quoted. case_if; [simpl; lia|].
        destruct (safe_spec p Hp) as (Hn & _). destruct p; [done|simpl; lia]. }
      rewrite length_app in Hf. simpl in Hf. destruct fuel; [lia|].
      rewrite drop_nil. reflexivity.
    + rewrite words_cons in *.
      destruct (parse_word p fuel (32 :: words (a :: args)) acc Hp) as (k & Hk & E & ->);
        [auto|done|]. rewrite length_app in Hf. cbn [length] in Hf.
      rewrite E. destruct (Vsb.needs_quote p) eqn:N; cbn [tail].
      * destruct fuel as [|fuel]; [lia|].
        cbn [parse_loop peek]. change (32 =? 0) with false. change (isspace 32) with true.
        cbn iota. cbn [tail]. rewrite IH; [|done|]. { simpl. by rewrite <- app_assoc. }
        unfold Vsb.quoted in Hf. rewrite N in Hf. simpl in *. lia.
      * rewrite IH by (done || lia). simpl. by rewrite <- app_assoc.
Qed.

(** ** The properties *)

(** [ParseArgv] terminates on every string and in every mode: neither of its
    loops can turn without consuming a byte. *)
Theorem ParseArgv_terminates (s : list Z) (flag : Z) : ParseArgv s flag <> AvFuel.
Proof. unfold ParseArgv. apply parse_no_fuel. lia. Qed.



(** The three conditions are needed.  A regular expression such as a backslash
    and a dot has no byte that forces quotes, and does not parse. *)
Theorem ParseArgv_unquoted_backslash :
  Vsb.needs_quote (bs "\.png$") = false /\
  ParseArgv (words [bs "\.png$"]) 0 = AvInvalidBackslash.
Proof. split; reflexivity. Qed.

(** An octal escape is not padded: byte 1 and the digit 2 come back as byte 10. *)
Theorem ParseArgv_short_octal :
  Vsb.quoted [1; 50] = [34; 92; 49; 50; 34] /\
  ParseArgv (words [[1; 50]]) 0 = AvOk [[10]].
Proof. split; reflexivity. Qed.

(** The empty word is written as nothing and vanishes. *)
Theorem ParseArgv_empty_word : ParseArgv (words [[]; bs "x"]) 0 = AvOk [bs "x"].
Proof. reflexivity. Qed.

(** [\x] with one hexadecimal digit before the end of the string moves the
    pointer behind the terminating NUL; a signed operand fails the assertion. *)
Theorem ParseArgv_hex_overrun :
  ParseArgv (bs "\x1") 0 = AvOverrun /\ ParseArgv (bs "\x-1") 0 = AvAbort.
Proof. split; reflexivity. Qed.

End Argv.
