(* ===== verification/Vbm.v ===== *)
(** * Vbm: the growing bit maps

    [include/vbm.h].  The bit map is an array of 32-bit words and the number of
    bits it holds.  An access outside the array is undefined behaviour and is
    answered by [None]; so is [realloc] to size zero.  [vbit_expand] is
    computed with the wrap-around of its [unsigned] argument. *)
From S2P Require Import Prelude.

Module Vbm.

Definition VBITMAP_LUMP : Z := 1024.
Definition VBITMAP_WORD : Z := 32.
Definition VBITMAP_IDX (n : Z) : nat := Z.to_nat (n / VBITMAP_WORD).
Definition VBITMAP_BIT (n : Z) : Z := Z.shiftl 1 (n mod VBITMAP_WORD).

Record vbitmap := Vbitmap { bits : list Z; nbits : Z }.

Definition vbit_expand (vb : vbitmap) (bit : Z) : option vbitmap :=
  let bit := u32 (bit + VBITMAP_LUMP - 1) in
  let bit := bit - bit mod VBITMAP_LUMP in
  if (bit =? 0) || (bit <? nbits vb) then None
  else Some (Vbitmap (bits vb ++ replicate (Z.to_nat ((bit - nbits vb) / VBITMAP_WORD)) 0) bit).

Definition vbit_init (initial : Z) : option vbitmap :=
  let vb := Vbitmap [] 0 in
  let initial := if initial =? 0 then VBITMAP_LUMP else initial in
  vbit_expand vb initial.

(** [vb->bits[i] = f(vb->bits[i])] *)
Definition upd (f : Z -> Z) (i : nat) (vb : vbitmap) : option vbitmap :=
  match bits vb !! i with
  | Some w => Some (Vbitmap (<[i := f w]> (bits vb)) (nbits vb))
  | None => None
  end.

Definition vbit_set (vb : vbitmap) (bit : Z) : option vbitmap :=
  let? vb := (if nbits vb <=? bit then vbit_expand vb bit else Some vb) in
  upd (fun w => Z.lor w (VBITMAP_BIT bit)) (VBITMAP_IDX bit) vb.

Definition vbit_clr (vb : vbitmap) (bit : Z) : option vbitmap :=
  if bit <? nbits vb
  then upd (fun w => Z.land w (Z.lnot (VBITMAP_BIT bit))) (VBITMAP_IDX bit) vb
  else Some vb.

Definition vbit_test (vb : vbitmap) (bit : Z) : option bool :=
  if nbits vb <=? bit then Some false
  else let? w := bits vb !! VBITMAP_IDX bit in
       Some (negb (Z.land w (VBITMAP_BIT bit) =? 0)).

(** ** The set of bits a map stands for *)

Definition inv (vb : vbitmap) : Prop :=
  nbits vb mod VBITMAP_LUMP = 0 /\ 0 < nbits vb < 2 ^ 32 /\
  Z.of_nat (length (bits vb)) = nbits vb / VBITMAP_WORD.

Definition mem (vb : vbitmap) (j : Z) : bool :=
  Z.testbit (default 0 (bits vb !! VBITMAP_IDX j)) (j mod VBITMAP_WORD).

Lemma inv_idx vb j : inv vb -> 0 <= j -> j < nbits vb <-> (VBITMAP_IDX j < length (bits vb))%nat.
Proof.
  intros (A & B & C) Hj. unfold VBITMAP_IDX, VBITMAP_WORD, VBITMAP_LUMP in *.
  Z.div_mod_to_equations. lia.
Qed.

Lemma vbit_test_mem vb j : inv vb -> 0 <= j -> vbit_test vb j = Some (mem vb j).
Proof.
  intros Hi Hj. pose proof (inv_idx vb j Hi Hj) as X. unfold vbit_test, mem.
  destruct (Z.leb_spec (nbits vb) j).
  - rewrite lookup_ge_None_2 by lia. simpl. by rewrite Z.bits_0.
  - destruct (lookup_lt_is_Some_2 (bits vb) (VBITMAP_IDX j)) as [w ->]; [lia|].
    simpl. unfold VBITMAP_BIT. rewrite bit_testbit; [done|].
    unfold VBITMAP_WORD. Z.div_mod_to_equations. lia.
Qed.

(** Two bits are the same if word and position are. *)
Lemma idx_inj i j : 0 <= i -> 0 <= j ->
  VBITMAP_IDX i = VBITMAP_IDX j -> i mod VBITMAP_WORD = j mod VBITMAP_WORD -> i = j.
Proof. unfold VBITMAP_IDX, VBITMAP_WORD. intros. Z.div_mod_to_equations. lia. Qed.

Lemma upd_mem (f : Z -> Z) (g : bool -> bool) vb bit :
  inv vb -> 0 <= bit < nbits vb ->
  (forall w k, 0 <= k -> Z.testbit (f w) k =
     if k =? bit mod VBITMAP_WORD then g (Z.testbit w k) else Z.testbit w k) ->
  exists vb', upd f (VBITMAP_IDX bit) vb = Some vb' /\ inv vb' /\ nbits vb' = nbits vb /\
    forall j, 0 <= j -> mem vb' j = if j =? bit then g (mem vb j) else mem vb j.
Proof.
  intros Hi Hb Hf. pose proof (proj1 (inv_idx vb bit Hi ltac:(lia)) ltac:(lia)) as L.
  unfold upd. destruct (lookup_lt_is_Some_2 _ _ L) as [w Hw]. rewrite Hw.
  eexists; split; [done|]. split; [|split; [done|]].
  - destruct Hi as (A & B & C). unfold inv. simpl. by rewrite length_insert.
  - intros j Hj. unfold mem. simpl.
    assert (P : 0 <= j mod VBITMAP_WORD) by (unfold VBITMAP_WORD; Z.div_mod_to_equations; lia).
    destruct (decide (VBITMAP_IDX j = VBITMAP_IDX bit)) as [E|E].
    + rewrite E, list_lookup_insert_eq, Hw by done. simpl. rewrite Hf by done.
      destruct (Z.eqb_spec j bit) as [->|N]; [by rewrite Z.eqb_refl|].
      destruct (Z.eqb_spec (j mod VBITMAP_WORD) (bit mod VBITMAP_WORD)) as [F|]; [|done].
      destruct N. apply idx_inj; auto; lia.
    + rewrite list_lookup_insert_ne by done. destruct (Z.eqb_spec j bit) as [->|]; done.
Qed.

Lemma vbit_expand_spec vb bit :
  inv vb -> nbits vb <= bit < 2 ^ 32 - 1024 ->
  exists vb', vbit_expand vb bit = Some vb' /\ inv vb' /\
    nbits vb' = (bit + 1023) / 1024 * 1024 /\ forall j, 0 <= j -> mem vb' j = mem vb j.
Proof.
  intros (A & B & C) Hb. unfold vbit_expand, VBITMAP_LUMP, VBITMAP_WORD in *.
  rewrite u32_small by lia.
  set (n := bit + 1024 - 1 - (bit + 1024 - 1) mod 1024).
  assert (Hn : n = (bit + 1023) / 1024 * 1024) by (subst n; Z.div_mod_to_equations; lia).
  clearbody n.
  assert (Hn2 : nbits vb <= n < 2 ^ 32) by (subst n; Z.div_mod_to_equations; lia).
  replace ((n =? 0) || (n <? nbits vb)) with false by lia.
  eexists; split; [done|]. split.
  - unfold inv. simpl. rewrite length_app, length_replicate.
    unfold VBITMAP_LUMP, VBITMAP_WORD. split; [subst n; Z.div_mod_to_equations; lia|].
    split; [lia|]. rewrite Hn in *. Z.div_mod_to_equations. lia.
  - split; [done|]. intros j Hj. unfold mem. simpl.
    destruct (decide (VBITMAP_IDX j < length (bits vb))%nat) as [L|L].
    + by rewrite lookup_app_l.
    + rewrite lookup_app_r, (lookup_ge_None_2 (bits vb)) by lia. simpl.
      destruct (_ !! _) eqn:E; simpl; [|done].
      apply lookup_replicate in E as [-> _]. done.
Qed.

Lemma lor_bit w n k : 0 <= k -> Z.testbit (Z.lor w (VBITMAP_BIT n)) k =
  if k =? n mod VBITMAP_WORD then true else Z.testbit w k.
Proof.
  intros Hk. assert (P : 0 <= n mod VBITMAP_WORD) by (apply Z.mod_pos_bound; done).
  unfold VBITMAP_BIT. rewrite Z.lor_spec, Z.shiftl_1_l, Z.pow2_bits_eqb by done.
  rewrite (Z.eqb_sym k). destruct (_ =? _); [apply orb_true_r|apply orb_false_r].
Qed.

Lemma clr_bit w n k : 0 <= k -> Z.testbit (Z.land w (Z.lnot (VBITMAP_BIT n))) k =
  if k =? n mod VBITMAP_WORD then false else Z.testbit w k.
Proof.
  intros Hk. assert (P : 0 <= n mod VBITMAP_WORD) by (apply Z.mod_pos_bound; done).
  unfold VBITMAP_BIT. rewrite Z.land_spec, Z.lnot_spec, Z.shiftl_1_l, Z.pow2_bits_eqb by done.
  rewrite (Z.eqb_sym k). destruct (_ =? _); [apply andb_false_r|apply andb_true_r].
Qed.

(** ** The properties *)

(** what setting a bit does, on every bit number an expansion does not wrap.
    The map afterwards holds the bits it held and the new one, except in one
    case: a bit beyond the end whose number is a multiple of 1024.  The
    expansion then rounds to the bit itself, one bit too few, and the store goes
    outside the array. *)
Theorem vbit_set_spec (vb : vbitmap) (bit : Z) (Hi : inv vb) (Hb : 0 <= bit < 2 ^ 32 - 1024) :
  match vbit_set vb bit with
  | Some vb' => inv vb' /\ (bit < nbits vb \/ bit mod VBITMAP_LUMP <> 0) /\
      forall j, 0 <= j -> vbit_test vb' j = Some (if j =? bit then true else mem vb j)
  | None => nbits vb <= bit /\ bit mod VBITMAP_LUMP = 0
  end.
Proof.
  unfold vbit_set. set (f := fun w => Z.lor w _).
  assert (F : forall w k, 0 <= k -> Z.testbit (f w) k =
            if k =? bit mod VBITMAP_WORD then true else Z.testbit w k)
    by (intros; by apply lor_bit).
  destruct (Z.leb_spec (nbits vb) bit) as [L|L].
  - destruct (vbit_expand_spec vb bit Hi ltac:(lia)) as (v1 & -> & I1 & N1 & M1).
    unfold VBITMAP_LUMP. destruct (Z.eqb_spec (bit mod 1024) 0) as [E|E].
    + unfold upd. rewrite lookup_ge_None_2; [done|].
      assert (~ bit < nbits v1) by (rewrite N1; Z.div_mod_to_equations; lia).
      pose proof (inv_idx v1 bit I1 ltac:(lia)). lia.
    + assert (H1 : 0 <= bit < nbits v1) by (rewrite N1; Z.div_mod_to_equations; lia).
      destruct (upd_mem f (fun _ => true) v1 bit I1 H1 F) as (v2 & -> & I2 & N2 & M2).
      split; [done|]. split; [by right|]. intros j Hj.
      rewrite vbit_test_mem, M2, M1 by done. done.
  - destruct (upd_mem f (fun _ => true) vb bit Hi ltac:(lia) F) as (v2 & -> & I2 & N2 & M2).
    split; [done|]. split; [by left|]. intros j Hj. by rewrite vbit_test_mem, M2.
Qed.

Lemma vbit_set_spec_witness :
  exists vb, vbit_init 0 = Some vb /\ inv vb /\ vbit_set vb 1024 = None /\
  exists vb', vbit_set vb 1025 = Some vb' /\ vbit_test vb' 1025 = Some true /\ nbits vb' = 2048.
Proof.
  eexists. split; [reflexivity|].
  set (vb := Vbitmap _ _).
  assert (Hi : inv vb) by (unfold inv; vm_compute; repeat split; discriminate).
  split; [exact Hi|]. split; [reflexivity|].
  pose proof (vbit_set_spec vb 1025 Hi ltac:(lia)) as H.
  destruct (vbit_set vb 1025) as [vb'|] eqn:E; [|destruct H as [_ H]; discriminate H].
  destruct H as (_ & _ & H). exists vb'. split; [reflexivity|].
  split; [exact (H 1025 ltac:(lia))|]. vm_compute in E. injection E as <-. reflexivity.
Defined.

(** Clearing never leaves the array and removes exactly the one bit. *)
Theorem vbit_clr_spec (vb : vbitmap) (bit : Z) (Hi : inv vb) (Hb : 0 <= bit) :
  exists vb', vbit_clr vb bit = Some vb' /\ inv vb' /\
    forall j, 0 <= j -> vbit_test vb' j = Some (if j =? bit then false else mem vb j).
Proof.
  unfold vbit_clr. set (f := fun w => Z.land w _).
  destruct (Z.ltb_spec bit (nbits vb)).
  - destruct (upd_mem f (fun _ => false) vb bit Hi ltac:(lia)) as (v2 & -> & I2 & N2 & M2).
    { intros; by apply clr_bit. }
    exists v2. split; [done|]. split; [done|]. intros j Hj. by rewrite vbit_test_mem, M2.
  - exists vb. split; [done|]. split; [done|]. intros j Hj. rewrite vbit_test_mem by done.
    f_equal. destruct (Z.eqb_spec j bit) as [->|]; [|done]. unfold mem.
    pose proof (inv_idx vb bit Hi Hb). rewrite lookup_ge_None_2 by lia. apply Z.bits_0.
Qed.

End Vbm.
