(* ===== verification/Ws.v ===== *)
(** * Ws: the workspaces

    [bin/varnishd/cache_ws.c] and [struct ws] of [cache.h].  A pointer is its
    address, the NULL pointer is 0; memory is the map from addresses to bytes.
    The checks of [WS_Assert] and of the operations abort ([None]). *)
From S2P Require Import Prelude.

Module Ws.

Record ws := MkWs {
  s : Z;             (* start of buffer *)
  f : Z;             (* free pointer *)
  r : Z;             (* end of the reservation, 0 if none *)
  e : Z;             (* end of buffer *)
  overflow : Z
}.

Notation mem := (gmap Z Z).

Definition WS_Assert (w : ws) : bool :=
  negb (s w =? 0) && negb (e w =? 0) && (s w <? e w) && (s w <=? f w) && (f w <=? e w) &&
  (if r w =? 0 then true else (s w <? r w) && (r w <=? e w)).

Definition WS_Init (space len : Z) : option ws :=
  assert! negb (space =? 0) ;;
  let w := MkWs space space 0 (space + len) 0 in
  assert! WS_Assert w ;;
  Some w.

Definition WS_Reset (w : ws) (p : Z) : option ws :=
  assert! WS_Assert w ;;
  assert! r w =? 0 ;;
  if p =? 0 then Some (MkWs (s w) (s w) (r w) (e w) (overflow w))
  else
    assert! s w <=? p ;;
    assert! p <? e w ;;
    Some (MkWs (s w) p (r w) (e w) (overflow w)).

Definition WS_Alloc (w : ws) (bytes : Z) : option (Z * ws) :=
  assert! WS_Assert w ;;
  assert! r w =? 0 ;;
  if e w <? f w + bytes then Some (0, MkWs (s w) (f w) (r w) (e w) (overflow w + 1))
  else Some (f w, MkWs (s w) (f w + bytes) (r w) (e w) (overflow w)).

(** [memcpy(p, l, ...)] *)
Fixpoint memcpy (m : mem) (p : Z) (l : list Z) : mem :=
  match l with
  | [] => m
  | c :: l => memcpy (<[p := c]> m) (p + 1) l
  end.

Definition WS_Dup (w : ws) (m : mem) (str : list Z) : option (Z * ws * mem) :=
  let l := u32 (Z.of_nat (length str) + 1) in
  let? (p, w) := WS_Alloc w l in
  Some (p, w, if p =? 0 then m else memcpy m p (take (Z.to_nat l) (str ++ [0]))).

Definition WS_Free (w : ws) : option Z :=
  assert! WS_Assert w ;;
  Some (u32 (e w - f w)).

Definition WS_Snapshot (w : ws) : option Z :=
  assert! WS_Assert w ;;
  assert! r w =? 0 ;;
  Some (f w).

Definition WS_Reserve (w : ws) (bytes : Z) : option (Z * ws) :=
  assert! WS_Assert w ;;
  assert! r w =? 0 ;;
  let b2 := if bytes =? 0 then u32 (e w - f w) else bytes in
  assert! f w + b2 <=? e w ;;
  let w := MkWs (s w) (f w) (f w + b2) (e w) (overflow w) in
  Some (u32 (r w - f w), w).

Definition WS_Release (w : ws) (bytes : Z) : option ws :=
  assert! WS_Assert w ;;
  assert! bytes <=? e w - f w ;;
  assert! negb (r w =? 0) ;;
  assert! f w + bytes <=? r w ;;
  Some (MkWs (s w) (f w + bytes) 0 (e w) (overflow w)).

Definition WS_ReleaseP (w : ws) (ptr : Z) : option ws :=
  assert! WS_Assert w ;;
  assert! negb (r w =? 0) ;;
  assert! f w <=? ptr ;;
  assert! ptr <=? r w ;;
  Some (MkWs (s w) ptr 0 (e w) (overflow w)).

(** ** Well-formed workspaces and their clients *)

(** A workspace of a size that fits its [unsigned] length. *)
Definition wf (w : ws) : Prop :=
  0 < s w /\ s w <= f w <= e w /\ s w < e w /\ e w - s w < 2 ^ 32 /\
  (r w = 0 \/ (s w < r w <= e w /\ f w <= r w)).

Lemma wf_assert w : wf w -> WS_Assert w = true.
Proof. unfold wf, WS_Assert. intros (A & B & C & D & E). destruct (Z.eqb_spec (r w) 0); lia. Qed.

(** One call of a client that follows the protocol. *)
Inductive op :=
  | OAlloc (bytes : Z)
  | ODup (str : list Z)
  | OReserve (bytes : Z)
  | OWrite (off c : Z)          (* a store into the reservation *)
  | ORelease (bytes : Z)
  | OReleaseP (off : Z).

(** The call, and the piece of memory it hands out for good, if any. *)
Definition exec (w : ws) (m : mem) (o : op) : option (ws * mem * option (Z * Z)) :=
  match o with
  | OAlloc n => let? (p, w') := WS_Alloc w n in
                Some (w', m, if p =? 0 then None else Some (p, n))
  | ODup str => let? (p, w', m) := WS_Dup w m str in
                Some (w', m, if p =? 0 then None else Some (p, Z.of_nat (length str) + 1))
  | OReserve n => let? (_, w) := WS_Reserve w n in Some (w, m, None)
  | OWrite off c => Some (w, <[f w + off := c]> m, None)
  | ORelease n => let? w' := WS_Release w n in Some (w', m, Some (f w, n))
  | OReleaseP off => let? w' := WS_ReleaseP w (f w + off) in Some (w', m, Some (f w, off))
  end.

(** What the callers have to respect. *)
Definition obeys (w : ws) (o : op) : Prop :=
  match o with
  | OAlloc n => r w = 0 /\ 0 <= n < 2 ^ 32
  | ODup str => r w = 0 /\ Z.of_nat (length str) < 2 ^ 32 - 1
  | OReserve n => r w = 0 /\ 0 <= n /\ f w + n <= e w
  | OWrite off _ => r w <> 0 /\ 0 <= off < r w - f w
  | ORelease n | OReleaseP n => r w <> 0 /\ 0 <= n <= r w - f w
  end.

(** A run of calls, collecting the pieces handed out. *)
Inductive run : ws -> mem -> list (Z * Z) -> ws -> mem -> Prop :=
  | run_nil w m : run w m [] w m
  | run_cons w m o w1 m1 c l w2 m2 :
      obeys w o -> exec w m o = Some (w1, m1, c) -> run w1 m1 l w2 m2 ->
      run w m (option_list c ++ l) w2 m2.

Lemma memcpy_out l m p a : ~ (p <= a < p + Z.of_nat (length l)) -> memcpy m p l !! a = m !! a.
Proof.
  revert m p; induction l as [|c l IH]; intros m p H; simpl in *; [done|].
  rewrite IH by lia. rewrite lookup_insert_ne by lia. done.
Qed.

Lemma memcpy_in l m p i : (i < length l)%nat -> memcpy m p l !! (p + Z.of_nat i) = l !! i.
Proof.
  revert m p i; induction l as [|c l IH]; intros m p i H; simpl in *; [lia|].
  destruct i as [|i]; simpl.
  - rewrite memcpy_out by lia. rewrite Z.add_0_r. by rewrite lookup_insert_eq.
  - replace (p + Z.of_nat (S i)) with (p + 1 + Z.of_nat i) by lia. apply IH. lia.
Qed.

(** What one call does: the free pointer only moves up, the piece handed out is
    what it moved over, and no byte below the old free pointer changes. *)
Definition stepped (w : ws) (m : mem) (w' : ws) (m' : mem) (c : option (Z * Z)) : Prop :=
  wf w' /\ s w' = s w /\ e w' = e w /\ f w <= f w' /\
  (forall a, a < f w -> m' !! a = m !! a) /\
  match c with Some (p, n) => p = f w /\ 0 <= n /\ p + n = f w' | None => f w' = f w end.

Lemma WS_Alloc_spec w n :
  wf w -> r w = 0 -> 0 <= n ->
  (f w + n <= e w /\ WS_Alloc w n = Some (f w, MkWs (s w) (f w + n) 0 (e w) (overflow w))) \/
  (e w < f w + n /\ WS_Alloc w n = Some (0, MkWs (s w) (f w) 0 (e w) (overflow w + 1))).
Proof.
  intros Hw Hr Hn. unfold WS_Alloc. rewrite (wf_assert w Hw), Hr. simpl.
  destruct (Z.ltb_spec (e w) (f w + n)); [right|left]; done.
Qed.

Lemma wf_room w : wf w -> u32 (e w - f w) = e w - f w.
Proof. intros (A & B & C & D & E). apply u32_small. lia. Qed.

Ltac ws_solve := unfold wf in *; simpl in *; (split_and!; try lia; auto).

Lemma exec_steps w m o :
  wf w -> obeys w o -> exists w' m' c, exec w m o = Some (w', m', c) /\ stepped w m w' m' c.
Proof.
  intros Hw Ho. pose proof (wf_assert w Hw) as Ha. pose proof (wf_room w Hw) as Hroom.
  unfold stepped. destruct o as [n|str|n|off c|n|off]; simpl in Ho.
  - destruct Ho as [Hr Hn]. unfold exec.
    destruct (WS_Alloc_spec w n Hw Hr ltac:(lia)) as [[L ->]|[L ->]].
    + replace (f w =? 0) with false by (unfold wf in Hw; lia). do 3 eexists. split; [done|]. ws_solve.
    + do 3 eexists. split; [done|]. ws_solve.
  - destruct Ho as [Hr Hn]. unfold exec, WS_Dup. rewrite u32_small by lia.
    destruct (WS_Alloc_spec w (Z.of_nat (length str) + 1) Hw Hr ltac:(lia)) as [[L ->]|[L ->]].
    + replace (f w =? 0) with false by (unfold wf in Hw; lia). do 3 eexists. split; [done|].
      ws_solve. intros a Ha'. apply memcpy_out. lia.
    + do 3 eexists. split; [done|]. ws_solve.
  - destruct Ho as (Hr & Hn & Hb). unfold exec, WS_Reserve. rewrite Ha, Hr, Hroom. simpl.
    replace (f w + _ <=? e w) with true by (case_if; lia).
    do 3 eexists. split; [done|]. ws_solve. right. case_if; lia.
  - destruct Ho as [Hr Hn]. do 3 eexists. split; [done|]. ws_solve.
    intros a Ha'. by rewrite lookup_insert_ne by lia.
  - destruct Ho as [Hr Hn]. unfold exec, WS_Release. rewrite Ha.
    assert (n <= e w - f w) by (unfold wf in Hw; lia).
    replace (n <=? e w - f w) with true by lia. replace (r w =? 0) with false by lia.
    replace (f w + n <=? r w) with true by lia. do 3 eexists. split; [done|]. ws_solve.
  - destruct Ho as [Hr Hn]. unfold exec, WS_ReleaseP. rewrite Ha.
    replace (r w =? 0) with false by lia. replace (f w <=? f w + off) with true by lia.
    replace (f w + off <=? r w) with true by lia. do 3 eexists. split; [done|]. ws_solve.
Qed.

(** Pieces laid out one after the other between two addresses. *)
Fixpoint laid (a b : Z) (l : list (Z * Z)) : Prop :=
  match l with
  | [] => a <= b
  | (p, n) :: l => a <= p /\ 0 <= n /\ laid (p + n) b l
  end.

Lemma run_stepped w m l w' m' :
  run w m l w' m' -> wf w ->
  wf w' /\ s w' = s w /\ e w' = e w /\ laid (f w) (f w') l /\
  (forall a, a < f w -> m' !! a = m !! a).
Proof.
  induction 1 as [w m|w m o w1 m1 c l w2 m2 Ho He Hr IH]; intros Hw.
  - split_and!; auto. simpl. lia.
  - destruct (exec_steps w m o Hw Ho) as (w1' & m1' & c' & E & W1 & S1 & E1 & F1 & M1 & C1).
    rewrite He in E. injection E as <- <- <-.
    destruct (IH W1) as (W2 & S2 & E2 & L2 & M2). split_and!; auto; try congruence.
    + destruct c as [[p n]|]; simpl; [|congruence]. destruct C1 as (-> & C & D).
      split; [lia|]. split; [lia|]. congruence.
    + intros a Ha. rewrite M2 by lia. auto.
Qed.

Lemma run_snoc w m l w1 m1 o w2 m2 c :
  run w m l w1 m1 -> obeys w1 o -> exec w1 m1 o = Some (w2, m2, c) ->
  run w m (l ++ option_list c) w2 m2.
Proof.
  induction 1 as [w m|w m o' w1 m1 c' l w3 m3 Ho He Hr IH]; intros Ho' He'.
  - rewrite <- (app_nil_r (option_list c)). rewrite app_nil_l. econstructor; eauto. constructor.
  - rewrite <- app_assoc. econstructor; eauto.
Qed.

(** ** The properties *)

(** a client that follows the protocol never trips an assertion: in a
    well-formed workspace every call succeeds, keeps the workspace well formed
    and its bounds in place, and moves the free pointer up by exactly the piece
    it hands out. *)
Theorem ws_protocol_safe (w : ws) (m : mem) (o : op) (Hw : wf w) (Ho : obeys w o) :
  exists w' m' c, exec w m o = Some (w', m', c) /\ wf w' /\
    s w' = s w /\ e w' = e w /\
    match c with
    | Some (p, n) => p = f w /\ p + n = f w' /\ s w <= p /\ p + n <= e w
    | None => f w' = f w
    end.
Proof.
  destruct (exec_steps w m o Hw Ho) as (w' & m' & c & E & W & S & B & F & _ & C).
  exists w', m', c. split_and!; auto. destruct c as [[p n]|]; [|done].
  destruct C as (-> & C & D). unfold wf in *. lia.
Qed.

(** 64 bytes at address 4096. *)
Definition ws64 : ws := MkWs 4096 4096 0 4160 0.

Lemma ws64_wf : wf ws64.
Proof. unfold wf; simpl; lia. Qed.

Lemma ws_protocol_safe_witness :
  wf ws64 /\ obeys ws64 (ODup (bs "Age")) /\
  exists w' m', exec ws64 ∅ (ODup (bs "Age")) = Some (w', m', Some (4096, 4)) /\ wf w'.
Proof.
  assert (Ho : obeys ws64 (ODup (bs "Age"))) by (vm_compute; split; reflexivity).
  split; [exact ws64_wf|]. split; [exact Ho|].
  destruct (ws_protocol_safe ws64 ∅ _ ws64_wf Ho) as (w' & m' & c & E & W & _).
  exists w', m'. split; [|exact W]. rewrite E.
  unfold exec in E. change (WS_Dup ws64 ∅ (bs "Age"))
    with (Some (4096, MkWs 4096 4100 0 4160 0, memcpy ∅ 4096 (bs "Age" ++ [0]))) in E.
  injection E as _ _ <-. reflexivity.
Defined.

(** the pieces a workspace hands out over any run of calls lie inside it, one
    after the other and disjoint, and whatever was stored in front of the run
    stays as it was; in particular a string copied by [WS_Dup] is still there,
    with its NUL, after any further calls. *)
Theorem ws_pieces_disjoint (w : ws) (m : mem) (str : list Z) (l : list (Z * Z))
  (w1 w2 : ws) (m1 m2 : mem) (p n : Z)
  (Hw : wf w) (Ho : obeys w (ODup str))
  (Hd : exec w m (ODup str) = Some (w1, m1, Some (p, n)))
  (Hr : run w1 m1 l w2 m2) :
  laid (f w) (f w2) ((p, n) :: l) /\ s w <= p /\ f w2 <= e w /\
  forall i, (i <= length str)%nat -> m2 !! (p + Z.of_nat i) = (str ++ [0]) !! i.
Proof.
  destruct (exec_steps w m _ Hw Ho) as (w1' & m1' & c & E & W1 & S1 & E1 & F1 & M1 & C1).
  rewrite Hd in E. injection E as <- <- <-. destruct C1 as (-> & Hn & Hf).
  destruct (run_stepped _ _ _ _ _ Hr W1) as (W2 & S2 & E2 & L2 & M2).
  split; [|split; [|split]].
  - simpl. split; [lia|]. split; [lia|]. by rewrite Hf.
  - unfold wf in Hw. lia.
  - unfold wf in W2. rewrite <- E1, <- E2. lia.
  - intros i Hi. destruct Ho as [Hr0 Hl].
    unfold exec, WS_Dup in Hd. rewrite u32_small in Hd by lia.
    destruct (WS_Alloc_spec w (Z.of_nat (length str) + 1) Hw Hr0 ltac:(lia))
      as [[L E]|[L E]]; rewrite E in Hd; [|done].
    replace (f w =? 0) with false in Hd by (unfold wf in Hw; lia).
    injection Hd as <- <- <-. simpl in *. rewrite M2 by lia.
    rewrite take_ge by (rewrite length_app; simpl; lia).
    apply memcpy_in. rewrite length_app. simpl. lia.
Qed.

Lemma ws_pieces_disjoint_witness :
  exists w1 m1 w2 m2, exec ws64 ∅ (ODup (bs "Age")) = Some (w1, m1, Some (4096, 4)) /\
    run w1 m1 [(4100, 8)] w2 m2 /\ m2 !! 4097 = Some 103.
Proof.
  assert (Ho : obeys ws64 (ODup (bs "Age"))) by (vm_compute; split; reflexivity).
  pose (w1 := MkWs 4096 4100 0 4160 0). pose (m1 := memcpy ∅ 4096 (bs "Age" ++ [0])).
  assert (Hd : exec ws64 ∅ (ODup (bs "Age")) = Some (w1, m1, Some (4096, 4))) by reflexivity.
  assert (Hr : run w1 m1 [(4100, 8)] (MkWs 4096 4108 0 4160 0) m1).
  { change [(4100, 8)] with (option_list (Some (4100, 8)) ++ []).
    eapply (run_cons w1 m1 (OAlloc 8)); [simpl; lia|reflexivity|constructor]. }
  exists w1, m1, (MkWs 4096 4108 0 4160 0), m1. split; [exact Hd|]. split; [exact Hr|].
  exact (proj2 (proj2 (proj2 (ws_pieces_disjoint _ _ _ _ _ _ _ _ _ _ ws64_wf Ho Hd Hr)))
           1%nat ltac:(vm_compute; lia)).
Defined.

(** [WS_Snapshot] and [WS_Reset] are inverse across any balanced run, except
    at a completely full workspace, whose own snapshot [WS_Reset] refuses. *)
Theorem ws_snapshot_reset (w : ws) (m : mem) (l : list (Z * Z)) (w' : ws) (m' : mem)
  (Hw : wf w) (Hr : r w = 0) (Hrun : run w m l w' m') (Hr' : r w' = 0) :
  exists p, WS_Snapshot w = Some p /\
    (if p <? e w
     then exists w2, WS_Reset w' p = Some w2 /\ wf w2 /\ f w2 = f w /\ s w2 = s w /\
            forall a, a < f w2 -> m' !! a = m !! a
     else WS_Reset w' p = None).
Proof.
  destruct (run_stepped _ _ _ _ _ Hrun Hw) as (W & S & E & L & M).
  exists (f w). unfold WS_Snapshot, WS_Reset.
  rewrite (wf_assert w Hw), (wf_assert w' W), Hr, Hr', S, E. split; [done|].
  assert (f w =? 0 = false) as -> by (unfold wf in Hw; lia). simpl.
  assert (s w <=? f w = true) as -> by (unfold wf in Hw; lia).
  destruct (f w <? e w) eqn:D; [|done].
  eexists; split; [done|]. unfold wf in *. simpl. split_and!; auto; lia.
Qed.

Lemma ws_snapshot_reset_witness :
  wf ws64 /\ r ws64 = 0 /\ run ws64 ∅ [(4096, 8)] (MkWs 4096 4104 0 4160 0) ∅ /\
  WS_Reset (MkWs 4096 4104 0 4160 0) 4096 = Some ws64 /\
  WS_Reset (MkWs 4096 4160 0 4160 0) 4160 = None.
Proof.
  assert (Hrun : run ws64 ∅ [(4096, 8)] (MkWs 4096 4104 0 4160 0) ∅).
  { change [(4096, 8)] with (option_list (Some (4096, 8)) ++ []).
    eapply (run_cons ws64 ∅ (OAlloc 8)); [simpl; lia|reflexivity|constructor]. }
  destruct (ws_snapshot_reset _ _ _ _ _ ws64_wf eq_refl Hrun eq_refl) as (p & E & H).
  injection E as <-. destruct H as (w2 & E & W & F & _). vm_compute in E.
  split; [exact ws64_wf|]. split; [reflexivity|]. split; [exact Hrun|].
  split; reflexivity.
Defined.

End Ws.
