(* ===== verification/Sha256.v ===== *)
(** * Sha256: the object digest

    [lib/libvarnish/vsha256.c].  32-bit words are integers with the wrap-around
    written out, byte arrays are lists of bytes.  The context is the eight state
    words, the 64-bit byte count and the 64-byte buffer.  [Fips] is the
    algorithm as FIPS 180-4 states it, on whole messages, with rotating working
    variables; the code unrolls the rotation into array indices and works on
    pieces of the message of any size. *)
From S2P Require Import Prelude.

Module Sha256.

Definition mybe32enc (u : Z) : list Z :=
  [Z.land (Z.shiftr u 24) 0xff; Z.land (Z.shiftr u 16) 0xff;
   Z.land (Z.shiftr u 8) 0xff; Z.land u 0xff].

Definition mybe64enc (u : Z) : list Z :=
  mybe32enc (u32 (Z.shiftr u 32)) ++ mybe32enc (u32 (Z.land u 0xffffffff)).

Definition mybe32dec (p : list Z) : Z :=
  u32 (Z.lor (Z.lor (Z.lor (Z.shiftl (at_ p 0) 24) (Z.shiftl (at_ p 1) 16))
                    (Z.shiftl (at_ p 2) 8)) (at_ p 3)).

Definition be32enc_vect (src : list Z) (len : nat) : list Z :=
  mjoin (map (fun i => mybe32enc (at_ src i)) (seq 0 (len / 4))).

Definition be32dec_vect (src : list Z) (len : nat) : list Z :=
  map (fun i => mybe32dec (drop (i * 4) src)) (seq 0 (len / 4)).

Definition Ch (x y z : Z) : Z := Z.lxor (Z.land x (Z.lxor y z)) z.
Definition Maj (x y z : Z) : Z := Z.lor (Z.land x (Z.lor y z)) (Z.land y z).
Definition SHR (x n : Z) : Z := Z.shiftr x n.
Definition ROTR (x n : Z) : Z := Z.lor (Z.shiftr x n) (u32 (Z.shiftl x (32 - n))).
Definition S0 (x : Z) : Z := Z.lxor (Z.lxor (ROTR x 2) (ROTR x 13)) (ROTR x 22).
Definition S1 (x : Z) : Z := Z.lxor (Z.lxor (ROTR x 6) (ROTR x 11)) (ROTR x 25).
Definition s0 (x : Z) : Z := Z.lxor (Z.lxor (ROTR x 7) (ROTR x 18)) (SHR x 3).
Definition s1 (x : Z) : Z := Z.lxor (Z.lxor (ROTR x 17) (ROTR x 19)) (SHR x 10).

(** [RND]: the arguments are the places of a to h in the array. *)
Definition RND (st : list Z) (a b c d e f g h : nat) (k : Z) : list Z :=
  let t0 := u32 (at_ st h + S1 (at_ st e) + Ch (at_ st e) (at_ st f) (at_ st g) + k) in
  let t1 := u32 (S0 (at_ st a) + Maj (at_ st a) (at_ st b) (at_ st c)) in
  let st := <[d := u32 (at_ st d + t0)]> st in
  <[h := u32 (t0 + t1)]> st.

Definition RNDr (st W : list Z) (i : nat) (k : Z) : list Z :=
  RND st ((64 - i) mod 8) ((65 - i) mod 8) ((66 - i) mod 8) ((67 - i) mod 8)
         ((68 - i) mod 8) ((69 - i) mod 8) ((70 - i) mod 8) ((71 - i) mod 8)
         (u32 (at_ W i + k)).

(** The message schedule loop, from the first 16 words on. *)
Fixpoint W_loop (n : nat) (W : list Z) : list Z :=
  match n with
  | O => W
  | S n =>
    let i := length W in
    W_loop n (W ++ [u32 (s1 (at_ W (i - 2)) + at_ W (i - 7) + s0 (at_ W (i - 15))
                           + at_ W (i - 16))])
  end.

(** The 64 [RNDr] lines: index and constant. *)
Definition rounds : list (nat * Z) :=
  [(0%nat, 0x428a2f98); (1%nat, 0x71374491); (2%nat, 0xb5c0fbcf); (3%nat, 0xe9b5dba5);
   (4%nat, 0x3956c25b); (5%nat, 0x59f111f1); (6%nat, 0x923f82a4); (7%nat, 0xab1c5ed5);
   (8%nat, 0xd807aa98); (9%nat, 0x12835b01); (10%nat, 0x243185be); (11%nat, 0x550c7dc3);
   (12%nat, 0x72be5d74); (13%nat, 0x80deb1fe); (14%nat, 0x9bdc06a7); (15%nat, 0xc19bf174);
   (16%nat, 0xe49b69c1); (17%nat, 0xefbe4786); (18%nat, 0x0fc19dc6); (19%nat, 0x240ca1cc);
   (20%nat, 0x2de92c6f); (21%nat, 0x4a7484aa); (22%nat, 0x5cb0a9dc); (23%nat, 0x76f988da);
   (24%nat, 0x983e5152); (25%nat, 0xa831c66d); (26%nat, 0xb00327c8); (27%nat, 0xbf597fc7);
   (28%nat, 0xc6e00bf3); (29%nat, 0xd5a79147); (30%nat, 0x06ca6351); (31%nat, 0x14292967);
   (32%nat, 0x27b70a85); (33%nat, 0x2e1b2138); (34%nat, 0x4d2c6dfc); (35%nat, 0x53380d13);
   (36%nat, 0x650a7354); (37%nat, 0x766a0abb); (38%nat, 0x81c2c92e); (39%nat, 0x92722c85);
   (40%nat, 0xa2bfe8a1); (41%nat, 0xa81a664b); (42%nat, 0xc24b8b70); (43%nat, 0xc76c51a3);
   (44%nat, 0xd192e819); (45%nat, 0xd6990624); (46%nat, 0xf40e3585); (47%nat, 0x106aa070);
   (48%nat, 0x19a4c116); (49%nat, 0x1e376c08); (50%nat, 0x2748774c); (51%nat, 0x34b0bcb5);
   (52%nat, 0x391c0cb3); (53%nat, 0x4ed8aa4a); (54%nat, 0x5b9cca4f); (55%nat, 0x682e6ff3);
   (56%nat, 0x748f82ee); (57%nat, 0x78a5636f); (58%nat, 0x84c87814); (59%nat, 0x8cc70208);
   (60%nat, 0x90befffa); (61%nat, 0xa4506ceb); (62%nat, 0xbef9a3f7); (63%nat, 0xc67178f2)].

Definition K : list Z := map snd rounds.

Fixpoint mix (rs : list (nat * Z)) (st W : list Z) : list Z :=
  match rs with
  | [] => st
  | (i, k) :: rs => mix rs (RNDr st W i k) W
  end.

Definition SHA256_Transform (state block : list Z) : list Z :=
  let W := W_loop 48 (be32dec_vect block 64) in
  let st := mix rounds state W in
  map (fun i => u32 (at_ state i + at_ st i)) (seq 0 8).

Record SHA256_CTX := Ctx { state : list Z; count : Z; buf : list Z }.

Definition PAD : list Z := 0x80 :: replicate 63 0.

Definition SHA256_Init (junk : list Z) : SHA256_CTX :=
  Ctx [0x6A09E667; 0xBB67AE85; 0x3C6EF372; 0xA54FF53A;
       0x510E527F; 0x9B05688C; 0x1F83D9AB; 0x5BE0CD19] 0 junk.

(** One turn of the loop: copy [l] bytes to offset [r] and transform a full
    buffer. *)
Fixpoint update_loop (fuel : nat) (ctx : SHA256_CTX) (r : nat) (src : list Z) : SHA256_CTX :=
  match fuel with
  | O => ctx
  | S fuel =>
    if (length src =? 0)%nat then ctx
    else
      let l := Nat.min (64 - r) (length src) in
      let b := take r (buf ctx) ++ take l src ++ drop (r + l) (buf ctx) in
      let ctx := Ctx (state ctx) (u64 (count ctx + Z.of_nat l)) b in
      let r := Z.to_nat (Z.land (count ctx) 0x3f) in
      let ctx := if (r =? 0)%nat then Ctx (SHA256_Transform (state ctx) b) (count ctx) b
                 else ctx in
      update_loop fuel ctx r (drop l src)
  end.

(** Every turn takes at least one byte. *)
Definition SHA256_Update (ctx : SHA256_CTX) (src : list Z) : SHA256_CTX :=
  update_loop (length src) ctx (Z.to_nat (Z.land (count ctx) 0x3f)) src.

Definition SHA256_Pad (ctx : SHA256_CTX) : SHA256_CTX :=
  let len := mybe64enc (u64 (Z.shiftl (count ctx) 3)) in
  let r := Z.land (count ctx) 0x3f in
  let plen := if r <? 56 then 56 - r else 120 - r in
  let ctx := SHA256_Update ctx (take (Z.to_nat plen) PAD) in
  SHA256_Update ctx len.

Definition SHA256_Final (ctx : SHA256_CTX) : list Z :=
  be32enc_vect (state (SHA256_Pad ctx)) 32.

Definition SHA256_of (junk m : list Z) : list Z :=
  SHA256_Final (SHA256_Update (SHA256_Init junk) m).

(** ** FIPS 180-4 *)

Module Fips.

(** A big-endian word, and its bytes, by arithmetic. *)
Definition word (b : list Z) : Z := foldl (fun a c => a * 256 + c) 0 b.
Definition bytes (n : nat) (w : Z) : list Z :=
  map (fun i => w / 256 ^ Z.of_nat i mod 256) (rev (seq 0 n)).

Definition rotr (x n : Z) : Z := x / 2 ^ n + (x mod 2 ^ n) * 2 ^ (32 - n).
Definition not32 (x : Z) : Z := 2 ^ 32 - 1 - x.
Definition ch (x y z : Z) : Z := Z.lxor (Z.land x y) (Z.land (not32 x) z).
Definition maj (x y z : Z) : Z := Z.lxor (Z.lxor (Z.land x y) (Z.land x z)) (Z.land y z).
Definition Sigma0 (x : Z) : Z := Z.lxor (Z.lxor (rotr x 2) (rotr x 13)) (rotr x 22).
Definition Sigma1 (x : Z) : Z := Z.lxor (Z.lxor (rotr x 6) (rotr x 11)) (rotr x 25).
Definition sigma0 (x : Z) : Z := Z.lxor (Z.lxor (rotr x 7) (rotr x 18)) (x / 2 ^ 3).
Definition sigma1 (x : Z) : Z := Z.lxor (Z.lxor (rotr x 17) (rotr x 19)) (x / 2 ^ 10).

(** The working variables. *)
Record wv := Wv { a : Z; b : Z; c : Z; d : Z; e : Z; f : Z; g : Z; h : Z }.

Definition round (v : wv) (kw : Z) : wv :=
  let t1 := h v + Sigma1 (e v) + ch (e v) (f v) (g v) + kw in
  let t2 := Sigma0 (a v) + maj (a v) (b v) (c v) in
  Wv ((t1 + t2) mod 2 ^ 32) (a v) (b v) (c v) ((d v + t1) mod 2 ^ 32) (e v) (f v) (g v).

(** [W_t] for [t] from 16 to 63, newest first. *)
Fixpoint expand (n : nat) (rw : list Z) : list Z :=
  match n with
  | O => rw
  | S n => expand n ((sigma1 (at_ rw 1) + at_ rw 6 + sigma0 (at_ rw 14) + at_ rw 15)
                     mod 2 ^ 32 :: rw)
  end.

Definition block_words (m : list Z) : list Z :=
  map (fun i => word (take 4 (drop (4 * i) m))) (seq 0 16).

Definition schedule (m : list Z) : list Z := rev (expand 48 (rev (block_words m))).

Definition compress (H : wv) (m : list Z) : wv :=
  let v := foldl round H (zip_with Z.add K (schedule m)) in
  let add x y := (x + y) mod 2 ^ 32 in
  Wv (add (a H) (a v)) (add (b H) (b v)) (add (c H) (c v)) (add (d H) (d v))
     (add (e H) (e v)) (add (f H) (f v)) (add (g H) (g v)) (add (h H) (h v)).

(** The message, one bit, the fewest zeros, and the length in bits. *)
Definition pad (m : list Z) : list Z :=
  let l := Z.of_nat (length m) in
  m ++ [128] ++ replicate (Z.to_nat ((55 - l) mod 64)) 0 ++ bytes 8 (8 * l).

Fixpoint blocks (n : nat) (H : wv) (m : list Z) : wv :=
  match n with
  | O => H
  | S n => blocks n (compress H (take 64 m)) (drop 64 m)
  end.

Definition H0 : wv :=
  Wv 0x6a09e667 0xbb67ae85 0x3c6ef372 0xa54ff53a 0x510e527f 0x9b05688c 0x1f83d9ab 0x5be0cd19.

Definition sha256 (m : list Z) : list Z :=
  let p := pad m in
  let v := blocks (length p / 64) H0 p in
  mjoin (map (bytes 4) [a v; b v; c v; d v; e v; f v; g v; h v]).

End Fips.

(** ** Words and bytes *)

Definition word32 (x : Z) : Prop := 0 <= x < 2 ^ 32.
Definition byte (c : Z) : Prop := 0 <= c < 256.

Lemma word32_mod z : word32 (z mod 2 ^ 32).
Proof. apply Z.mod_pos_bound. lia. Qed.

Lemma ROTR_rotr x n : word32 x -> 0 < n < 32 -> ROTR x n = Fips.rotr x n.
Proof.
  intros Hx Hn. unfold ROTR, Fips.rotr, u32. rewrite Z.shiftr_div_pow2, Z.shiftl_mul_pow2 by lia.
  assert (E : 2 ^ 32 = 2 ^ n * 2 ^ (32 - n)) by (rewrite <- Z.pow_add_r by lia; f_equal; lia).
  assert (Hp : 0 < 2 ^ n) by lia. assert (Hq : 0 < 2 ^ (32 - n)) by lia.
  rewrite E at 1. rewrite Z.mul_mod_distr_r by lia. apply lor_add; [lia|].
  split; [apply Z.div_pos; unfold word32 in Hx; lia|].
  apply Z.div_lt_upper_bound; [lia|]. unfold word32 in Hx. lia.
Qed.

Lemma word_high x k : word32 x -> 32 <= k -> Z.testbit x k = false.
Proof.
  intros Hx Hk. rewrite <- (Z.mod_small x (2 ^ 32)) by done. by apply Z.mod_pow2_bits_high.
Qed.

Lemma Ch_ch x y z : word32 x -> word32 z -> Ch x y z = Fips.ch x y z.
Proof.
  intros Hx Hz. unfold Ch, Fips.ch. apply Z.bits_inj'. intros k Hk.
  rewrite !Z.lxor_spec, !Z.land_spec, Z.lxor_spec.
  destruct (Z.lt_ge_cases k 32).
  - assert (E : Z.testbit (Fips.not32 x) k = negb (Z.testbit x k)).
    { unfold Fips.not32. rewrite <- (Z.mod_pow2_bits_low (2 ^ 32 - 1 - x) 32) by lia.
      replace (2 ^ 32 - 1 - x) with (Z.lnot x + 1 * 2 ^ 32) by (unfold Z.lnot; lia).
      rewrite Z_mod_plus_full, Z.mod_pow2_bits_low, Z.lnot_spec by lia. done. }
    rewrite E. by destruct (Z.testbit x k), (Z.testbit y k), (Z.testbit z k).
  - rewrite (word_high x), (word_high z) by done. by rewrite !andb_false_r.
Qed.

Lemma Maj_maj x y z : Maj x y z = Fips.maj x y z.
Proof.
  unfold Maj, Fips.maj. apply Z.bits_inj'. intros k Hk.
  rewrite !Z.lxor_spec, !Z.lor_spec, !Z.land_spec, Z.lor_spec.
  by destruct (Z.testbit x k), (Z.testbit y k), (Z.testbit z k).
Qed.

Lemma Sigmas x : word32 x ->
  S0 x = Fips.Sigma0 x /\ S1 x = Fips.Sigma1 x /\ s0 x = Fips.sigma0 x /\ s1 x = Fips.sigma1 x.
Proof.
  intros Hx. unfold S0, S1, s0, s1, SHR, Fips.Sigma0, Fips.Sigma1, Fips.sigma0, Fips.sigma1.
  rewrite !ROTR_rotr by (done || lia). rewrite !Z.shiftr_div_pow2 by lia. done.
Qed.

Lemma land_ff z : Z.land z 0xff = z mod 256.
Proof. change 0xff with (Z.ones 8). by rewrite Z.land_ones. Qed.

Lemma mybe32enc_bytes u : mybe32enc u = Fips.bytes 4 u.
Proof.
  unfold mybe32enc, Fips.bytes. rewrite !land_ff, !Z.shiftr_div_pow2 by lia. simpl.
  by rewrite Z.div_1_r.
Qed.

Lemma mybe64enc_bytes u : 0 <= u < 2 ^ 64 -> mybe64enc u = Fips.bytes 8 u.
Proof.
  intros Hu. unfold mybe64enc. rewrite !mybe32enc_bytes. unfold Fips.bytes. simpl.
  change 0xffffffff with (Z.ones 32). rewrite Z.land_ones, Z.shiftr_div_pow2 by lia.
  unfold u32. rewrite !Z.div_1_r. change (2 ^ 32) with 4294967296.
  assert (Hu' : 0 <= u < 18446744073709551616) by lia. clear Hu.
  repeat (apply (f_equal2 cons); [Z.div_mod_to_equations; lia|]). done.
Qed.

Lemma lor_shl a b k : 0 <= k -> 0 <= b < 2 ^ k -> Z.lor (Z.shiftl a k) b = a * 2 ^ k + b.
Proof. intros. rewrite Z.lor_comm, Z.shiftl_mul_pow2, lor_add by done. lia. Qed.

Lemma mybe32dec_word p : Forall byte p -> length p = 4%nat -> mybe32dec p = Fips.word p.
Proof.
  intros Hp Hl. destruct p as [|b0 [|b1 [|b2 [|b3 []]]]]; try done.
  repeat match goal with H : Forall _ (_ :: _) |- _ => apply Forall_cons_1 in H as [? H] end.
  unfold byte in *. unfold mybe32dec, Fips.word. simpl foldl.
  rewrite ?at_cons_S, ?at_cons_0. 
  replace (Z.lor (Z.lor (Z.lor (Z.shiftl b0 24) (Z.shiftl b1 16)) (Z.shiftl b2 8)) b3)
    with (Z.lor (Z.shiftl (Z.lor (Z.shiftl (Z.lor (Z.shiftl b0 8) b1) 8) b2) 8) b3).
  2:{ by rewrite !Z.shiftl_lor, !Z.shiftl_shiftl by lia. }
  rewrite !lor_shl by lia. rewrite u32_small by lia. lia.
Qed.

Lemma mybe32dec_range p : word32 (mybe32dec p).
Proof. apply u32_range. Qed.

(** ** The rounds: array indices and rotating variables *)

(** Where the working variable number [j] lives before round [i]. *)
Definition slot (i j : nat) : nat := (64 - i + j) mod 8.

Definition wv_of (i : nat) (st : list Z) : Fips.wv :=
  Fips.Wv (at_ st (slot i 0)) (at_ st (slot i 1)) (at_ st (slot i 2)) (at_ st (slot i 3))
          (at_ st (slot i 4)) (at_ st (slot i 5)) (at_ st (slot i 6)) (at_ st (slot i 7)).

Definition st_of (v : Fips.wv) : list Z :=
  [Fips.a v; Fips.b v; Fips.c v; Fips.d v; Fips.e v; Fips.f v; Fips.g v; Fips.h v].

Definition good (st : list Z) : Prop := length st = 8%nat /\ Forall word32 st.

Lemma good_at st i : good st -> word32 (at_ st i).
Proof.
  intros [Hl Hf]. destruct (decide (i < length st)%nat); [by apply Forall_at|].
  unfold at_. rewrite lookup_ge_None_2 by lia. unfold word32. simpl. lia.
Qed.

(** The eight slots of a round are different, and the next round sees them
    shifted by one: the slot of [h] becomes that of [a]. *)
Lemma slots i : (i < 64)%nat ->
  slot i 3 <> slot i 7 /\ (slot i 3 < 8)%nat /\ (slot i 7 < 8)%nat /\
  slot (S i) 0 = slot i 7 /\ slot (S i) 1 = slot i 0 /\ slot (S i) 2 = slot i 1 /\
  slot (S i) 3 = slot i 2 /\ slot (S i) 4 = slot i 3 /\ slot (S i) 5 = slot i 4 /\
  slot (S i) 6 = slot i 5 /\ slot (S i) 7 = slot i 6 /\
  Forall (fun j => slot i 3 <> slot i j /\ slot i 7 <> slot i j) [0; 1; 2; 4; 5; 6]%nat.
Proof.
  intros Hi.
  assert (H : forall i, (i < 64)%nat -> bool_decide (
    slot i 3 <> slot i 7 /\ (slot i 3 < 8)%nat /\ (slot i 7 < 8)%nat /\
    slot (S i) 0 = slot i 7 /\ slot (S i) 1 = slot i 0 /\ slot (S i) 2 = slot i 1 /\
    slot (S i) 3 = slot i 2 /\ slot (S i) 4 = slot i 3 /\ slot (S i) 5 = slot i 4 /\
    slot (S i) 6 = slot i 5 /\ slot (S i) 7 = slot i 6 /\
    Forall (fun j => slot i 3 <> slot i j /\ slot i 7 <> slot i j) [0; 1; 2; 4; 5; 6]%nat) = true)
    by (apply (forall_below (fun i => bool_decide _)); vm_compute; reflexivity).
  specialize (H i Hi). by apply bool_decide_eq_true in H.
Qed.

Lemma RNDr_slots st W i k : (i < 64)%nat ->
  RNDr st W i k = RND st (slot i 0) (slot i 1) (slot i 2) (slot i 3) (slot i 4) (slot i 5)
                      (slot i 6) (slot i 7) (u32 (at_ W i + k)).
Proof.
  intros Hi. unfold RNDr, slot.
  replace (65 - i)%nat with (64 - i + 1)%nat by lia. replace (66 - i)%nat with (64 - i + 2)%nat by lia.
  replace (67 - i)%nat with (64 - i + 3)%nat by lia. replace (68 - i)%nat with (64 - i + 4)%nat by lia.
  replace (69 - i)%nat with (64 - i + 5)%nat by lia. replace (70 - i)%nat with (64 - i + 6)%nat by lia.
  replace (71 - i)%nat with (64 - i + 7)%nat by lia. by rewrite Nat.add_0_r.
Qed.

Lemma RNDr_round st W i k : (i < 64)%nat -> good st ->
  good (RNDr st W i k) /\ wv_of (S i) (RNDr st W i k) = Fips.round (wv_of i st) (k + at_ W i).
Proof.
  intros Hi Hg. rewrite RNDr_slots by done.
  destruct (slots i Hi) as (N & L3 & L7 & E0 & E1 & E2 & E3 & E4 & E5 & E6 & E7 & F).
  rewrite !Forall_cons in F. destruct F as ([? ?] & [? ?] & [? ?] & [? ?] & [? ?] & [? ?] & _).
  pose proof (good_at st) as R. specialize (R) with (1 := Hg).
  destruct Hg as [Hl Hf]. unfold RND. split.
  - split; [by rewrite !length_insert|].
    apply Forall_insert; [apply Forall_insert; [done|]|]; apply word32_mod.
  - unfold wv_of. rewrite E0, E1, E2, E3, E4, E5, E6, E7. unfold Fips.round. cbn [Fips.a Fips.b
      Fips.c Fips.d Fips.e Fips.f Fips.g Fips.h].
    rewrite (at_insert_eq _ (slot i 7)) by (rewrite length_insert; lia).
    rewrite !(at_insert_ne _ (slot i 7)) by done.
    rewrite (at_insert_eq _ (slot i 3)) by lia. rewrite !(at_insert_ne _ (slot i 3)) by done.
    rewrite Ch_ch, Maj_maj by apply R.
    destruct (Sigmas _ (R (slot i 4))) as (_ & -> & _ & _).
    destruct (Sigmas _ (R (slot i 0))) as (-> & _ & _ & _).
    unfold u32. f_equal.
    + rewrite Zplus_mod_idemp_l, Zplus_mod_idemp_r.
      match goal with |- (?a + ?b + ?c + ?d mod _ + ?e) mod _ = _ =>
        replace (a + b + c + d mod 2 ^ 32 + e) with (d mod 2 ^ 32 + (a + b + c + e)) by lia end.
      rewrite Zplus_mod_idemp_l. f_equal. lia.
    + rewrite Zplus_mod_idemp_r.
      match goal with |- (?z + (?a + ?b + ?c + ?d mod _)) mod _ = _ =>
        replace (z + (a + b + c + d mod 2 ^ 32)) with (d mod 2 ^ 32 + (z + a + b + c)) by lia end.
      rewrite Zplus_mod_idemp_l. f_equal. lia.
Qed.

Lemma mix_rounds ks : forall i st W, (i + length ks <= 64)%nat -> (64 <= length W)%nat -> good st ->
  let st' := mix (zip (seq i (length ks)) ks) st W in
  good st' /\
  wv_of (i + length ks) st' = foldl Fips.round (wv_of i st) (zip_with Z.add ks (drop i W)).
Proof.
  induction ks as [|k ks IH]; intros i st W Hi HW Hg; simpl in *; [by rewrite Nat.add_0_r|].
  rewrite drop_at by lia. simpl.
  destruct (RNDr_round st W i k ltac:(lia) Hg) as [G E].
  rewrite <- E, Nat.add_succ_r. apply (IH (S i)); auto; lia.
Qed.

(** ** The message schedule *)

Lemma schedule_expand n : forall W, (16 <= length W)%nat -> Forall word32 W ->
  W_loop n W = rev (Fips.expand n (rev W)) /\ length (W_loop n W) = (n + length W)%nat /\
  Forall word32 (W_loop n W).
Proof.
  induction n as [|n IH]; intros W HW Hf; [simpl; by rewrite rev_involutive|].
  cbn [W_loop Fips.expand].
  assert (R : forall i, (i < length W)%nat -> word32 (at_ W i)) by (intros; by apply Forall_at).
  rewrite !at_rev by lia.
  replace (length W - 2)%nat with (length W - 2)%nat by lia.
  set (x := u32 _). set (y := _ mod _).
  assert (E : y = x).
  { subst x y. unfold u32.
    destruct (Sigmas _ (R (length W - 2)%nat ltac:(lia))) as (_ & _ & _ & ->).
    destruct (Sigmas _ (R (length W - 15)%nat ltac:(lia))) as (_ & _ & -> & _). done. }
  rewrite E. change (x :: rev W) with (rev [x] ++ rev W). rewrite <- rev_app_distr.
  destruct (IH (W ++ [x])) as (A & B & C).
  - rewrite length_app. lia.
  - apply Forall_app. split; [done|]. constructor; [apply word32_mod|done].
  - split; [done|]. split; [|done]. rewrite B, length_app. simpl. lia.
Qed.

Lemma block_words_dec m : Forall byte m -> length m = 64%nat ->
  be32dec_vect m 64 = Fips.block_words m.
Proof.
  intros Hm Hl. unfold be32dec_vect, Fips.block_words. change (64 / 4)%nat with 16%nat.
  apply map_ext_in. intros i Hi%in_seq.
  rewrite (Nat.mul_comm i 4), <- mybe32dec_word.
  - unfold mybe32dec, at_. rewrite !lookup_take_lt by lia. done.
  - by apply Forall_take, Forall_drop.
  - rewrite length_take, length_drop. lia.
Qed.

Lemma compress_range v m : good (st_of (Fips.compress v m)).
Proof.
  unfold Fips.compress. set (w := foldl _ _ _). clearbody w.
  split; [done|]. cbn [st_of Fips.a Fips.b Fips.c Fips.d Fips.e Fips.f Fips.g Fips.h].
  repeat (apply Forall_cons; split; [apply word32_mod|]). done.
Qed.

Lemma length_K : length K = 64%nat.
Proof. reflexivity. Qed.

Lemma rounds_K : rounds = zip (seq 0 (length K)) K.
Proof. reflexivity. Qed.

Lemma wv_of_0 v : wv_of 0 (st_of v) = v.
Proof. by destruct v. Qed.

Lemma wv_sum v st :
  map (fun i => u32 (at_ (st_of v) i + at_ st i)) (seq 0 8) =
  let w := wv_of (0 + 64) st in
  let add x y := (x + y) mod 2 ^ 32 in
  st_of (Fips.Wv (add (Fips.a v) (Fips.a w)) (add (Fips.b v) (Fips.b w))
    (add (Fips.c v) (Fips.c w)) (add (Fips.d v) (Fips.d w)) (add (Fips.e v) (Fips.e w))
    (add (Fips.f v) (Fips.f w)) (add (Fips.g v) (Fips.g w)) (add (Fips.h v) (Fips.h w))).
Proof. reflexivity. Qed.

Lemma Transform_compress v m : good (st_of v) -> Forall byte m -> length m = 64%nat ->
  SHA256_Transform (st_of v) m = st_of (Fips.compress v m).
Proof.
  intros Hg Hm Hl. unfold SHA256_Transform. rewrite rounds_K, block_words_dec by done.
  assert (Hb : length (Fips.block_words m) = 16%nat) by done.
  destruct (schedule_expand 48 (Fips.block_words m)) as (E & L & R); [lia| |].
  { rewrite <- block_words_dec by done. unfold be32dec_vect. apply Forall_map, Forall_true.
    intros; apply mybe32dec_range. }
  rewrite Hb in L. unfold Fips.compress, Fips.schedule. rewrite <- E.
  set (W := W_loop _ _) in *. clearbody W.
  destruct (mix_rounds K 0 (st_of v) W) as [G F]; [by rewrite length_K|lia|done|].
  rewrite length_K, drop_0, wv_of_0 in F. rewrite <- F. apply wv_sum.
Qed.

(** ** Streaming *)

Lemma blocks_app n : forall v m x, (64 * n <= length m)%nat ->
  Fips.blocks n v (m ++ x) = Fips.blocks n v m.
Proof.
  induction n as [|n IH]; intros v m x H; [done|]. cbn [Fips.blocks].
  rewrite take_app_le, drop_app_le by lia. apply IH. rewrite length_drop. lia.
Qed.

Lemma blocks_snoc n : forall v m,
  Fips.blocks (S n) v m = Fips.compress (Fips.blocks n v m) (take 64 (drop (64 * n) m)).
Proof.
  induction n as [|n IH]; intros v m; [done|].
  change (Fips.blocks (S (S n)) v m)
    with (Fips.blocks (S n) (Fips.compress v (take 64 m)) (drop 64 m)).
  rewrite IH. cbn [Fips.blocks]. rewrite drop_drop. do 3 f_equal. lia.
Qed.

Lemma blocks_good n v m : good (st_of v) -> good (st_of (Fips.blocks n v m)).
Proof. intros. destruct n; [done|]. rewrite blocks_snoc. apply compress_range. Qed.

Lemma land_3f z : Z.land z 0x3f = z mod 64.
Proof. change 0x3f with (Z.ones 6). by rewrite Z.land_ones. Qed.

(** The context after the bytes [m], in pieces of whatever sizes. *)
Definition absorbed (ctx : SHA256_CTX) (m : list Z) : Prop :=
  length (buf ctx) = 64%nat /\ Forall byte m /\
  count ctx = u64 (Z.of_nat (length m)) /\
  state ctx = st_of (Fips.blocks (length m / 64) Fips.H0 m) /\
  take (length m mod 64) (buf ctx) = drop (64 * (length m / 64)) m.

Lemma count_fill n : Z.to_nat (Z.land (u64 (Z.of_nat n)) 0x3f) = (n mod 64)%nat.
Proof.
  rewrite land_3f. unfold u64.
  assert (E : Z.of_nat n mod 2 ^ 64 mod 64 = Z.of_nat n mod 64).
  { rewrite <- Znumtheory.Zmod_div_mod; [done|lia|lia|]. by exists (2 ^ 58). }
  rewrite E. change 64 with (Z.of_nat 64). rewrite <- Nat2Z.inj_mod. apply Nat2Z.id.
Qed.

Lemma H0_good : good (st_of Fips.H0).
Proof. split; [done|]. repeat (apply Forall_cons; split; [done|]). done. Qed.

(** One turn of the loop of [SHA256_Update]. *)
Lemma update_turn ctx m src : absorbed ctx m -> Forall byte src -> src <> [] ->
  let r := (length m mod 64)%nat in
  let l := Nat.min (64 - r) (length src) in
  let b := take r (buf ctx) ++ take l src ++ drop (r + l) (buf ctx) in
  let c := u64 (count ctx + Z.of_nat l) in
  Z.to_nat (Z.land c 0x3f) = (length (m ++ take l src) mod 64)%nat /\
  (if (Z.to_nat (Z.land c 0x3f) =? 0)%nat
   then absorbed (Ctx (SHA256_Transform (state ctx) b) c b) (m ++ take l src)
   else absorbed (Ctx (state ctx) c b) (m ++ take l src)).
Proof.
  intros (Lb & Fm & Ec & Es & Eb) Fs Ne r l b c.
  assert (Hl : (0 < length src)%nat) by (destruct src; [done|simpl; lia]).
  assert (Hr : (r < 64)%nat) by (apply Nat.mod_upper_bound; lia).
  assert (Ll : length (take l src) = l) by (rewrite length_take; lia).
  assert (Lm : length (m ++ take l src) = (length m + l)%nat) by (rewrite length_app; lia).
  assert (Dm : (length m = 64 * (length m / 64) + r)%nat) by (apply Nat.div_mod_eq).
  assert (Hc : c = u64 (Z.of_nat (length (m ++ take l src)))).
  { subst c. rewrite Ec, Lm. unfold u64. rewrite Zplus_mod_idemp_l. f_equal. lia. }
  assert (F' : Forall byte (m ++ take l src)) by (apply Forall_app; auto using Forall_take).
  assert (Lbb : length b = 64%nat)
    by (subst b; rewrite !length_app, !length_take, length_drop; lia).
  assert (Tb : take (r + l) b = drop (64 * (length m / 64)) (m ++ take l src)).
  { rewrite drop_app_le by lia. subst b. unfold r at 2. rewrite Eb. fold r.
    rewrite app_assoc, take_app_le by (rewrite length_app, length_drop; lia).
    rewrite take_ge by (rewrite length_app, length_drop; lia). done. }
  rewrite Hc at 1. rewrite count_fill. split; [done|]. rewrite Hc, count_fill.
  clearbody b. set (q := (length m / 64)%nat) in *.
  destruct (Nat.eqb_spec (length (m ++ take l src) mod 64) 0) as [Z0|Z0].
  - assert (E64 : (r + l = 64)%nat).
    { rewrite Lm in Z0. destruct (decide (r + l = 64)%nat); [done|].
      rewrite Dm in Z0. replace (64 * q + r + l)%nat with (r + l + q * 64)%nat in Z0 by lia.
      rewrite Nat.Div0.mod_add, Nat.mod_small in Z0 by lia. lia. }
    assert (Eq : (length (m ++ take l src) / 64 = S q)%nat).
    { rewrite Lm. symmetry. apply (Nat.div_unique _ _ _ 0); lia. }
    rewrite E64, take_ge in Tb by lia.
    split; [done|]. split; [done|]. split; [done|]. cbn [state buf]. rewrite Eq, Z0.
    split; [|rewrite take_0, drop_ge by lia; done].
    rewrite Es, blocks_snoc, blocks_app by lia. rewrite <- Tb, take_ge by lia.
    apply Transform_compress; [apply blocks_good, H0_good| |done].
    rewrite Tb. by apply Forall_drop.
  - assert (Lt : (r + l < 64)%nat).
    { destruct (decide (r + l = 64)%nat) as [E|]; [|lia]. destruct Z0. rewrite Lm, Dm.
      replace (64 * q + r + l)%nat with (0 + S q * 64)%nat by lia.
      by rewrite Nat.Div0.mod_add. }
    assert (Eq : (length (m ++ take l src) / 64 = q)%nat).
    { rewrite Lm. symmetry. apply (Nat.div_unique _ _ _ (r + l)); lia. }
    assert (Em : (length (m ++ take l src) mod 64 = r + l)%nat).
    { rewrite Lm. symmetry. apply (Nat.mod_unique _ _ q); lia. }
    split; [done|]. split; [done|]. split; [done|]. cbn [state buf]. rewrite Eq, Em.
    split; [|done]. rewrite Es, blocks_app by lia. done.
Qed.

Lemma update_loop_absorbed fuel : forall ctx m src,
  absorbed ctx m -> Forall byte src -> (length src <= fuel)%nat ->
  absorbed (update_loop fuel ctx (length m mod 64) src) (m ++ src).
Proof.
  induction fuel as [|fuel IH]; intros ctx m src Ha Fs Hf.
  - destruct src; [|simpl in Hf; lia]. by rewrite app_nil_r.
  - cbn [update_loop]. destruct (Nat.eqb_spec (length src) 0) as [E|E].
    + destruct src; [|done]. by rewrite app_nil_r.
    + assert (Ne : src <> []) by (by intros ->).
      destruct (update_turn ctx m src Ha Fs Ne) as [Er Ea].
      set (r := (length m mod 64)%nat) in *.
      assert (Hr : (r < 64)%nat) by (apply Nat.mod_upper_bound; lia).
      set (l := Nat.min (64 - r) (length src)) in *. cbn [state count buf].
      rewrite Er. rewrite Er in Ea.
      replace (m ++ src) with ((m ++ take l src) ++ drop l src)
        by (by rewrite <- app_assoc, take_drop).
      apply IH; [|by apply Forall_drop|rewrite length_drop; lia]. by case_if.
Qed.

Lemma Update_absorbed ctx m src :
  absorbed ctx m -> Forall byte src -> absorbed (SHA256_Update ctx src) (m ++ src).
Proof.
  intros Ha Fs. unfold SHA256_Update. pose proof Ha as (_ & _ & Ec & _).
  rewrite Ec, count_fill. by apply update_loop_absorbed.
Qed.

Lemma Init_absorbed junk : length junk = 64%nat -> absorbed (SHA256_Init junk) [].
Proof. by intros H. Qed.

Lemma pieces_absorbed pieces : forall ctx m,
  absorbed ctx m -> Forall (Forall byte) pieces ->
  absorbed (foldl SHA256_Update ctx pieces) (m ++ mjoin pieces).
Proof.
  induction pieces as [|p ps IH]; intros ctx m Ha Hf; simpl; [by rewrite app_nil_r|].
  apply Forall_cons_1 in Hf as [Hp Hf]. rewrite app_assoc.
  apply IH; [|done]. by apply Update_absorbed.
Qed.

(** ** Padding *)

Lemma pad_bytes l : 0 <= l ->
  take (Z.to_nat (if l mod 64 <? 56 then 56 - l mod 64 else 120 - l mod 64)) PAD =
  [128] ++ replicate (Z.to_nat ((55 - l) mod 64)) 0.
Proof.
  intros Hl. set (n := Z.to_nat _). set (k := Z.to_nat _).
  assert (E : n = S k) by (subst n k; case_if; Z.div_mod_to_equations; lia).
  assert (Hk : (k <= 63)%nat) by (subst k; Z.div_mod_to_equations; lia).
  rewrite E. unfold PAD. cbn [take app]. f_equal. by rewrite take_replicate, Nat.min_l.
Qed.

Lemma bytes_range n w : Forall byte (Fips.bytes n w).
Proof. apply Forall_map, Forall_true. intros i. apply Z.mod_pos_bound. lia. Qed.

Lemma Pad_absorbed ctx m :
  absorbed ctx m -> 8 * Z.of_nat (length m) < 2 ^ 64 -> absorbed (SHA256_Pad ctx) (Fips.pad m).
Proof.
  intros Ha Hl. pose proof Ha as (_ & _ & Ec & _). unfold SHA256_Pad.
  rewrite Ec, (u64_small (Z.of_nat _)), Z.shiftl_mul_pow2, u64_small, land_3f by lia.
  rewrite pad_bytes, mybe64enc_bytes by lia. unfold Fips.pad.
  replace (Z.of_nat (length m) * 2 ^ 3) with (8 * Z.of_nat (length m)) by lia.
  rewrite (app_assoc [128]), app_assoc. apply Update_absorbed; [|apply bytes_range].
  apply Update_absorbed; [done|]. apply Forall_app. split; [by constructor|].
  by apply Forall_replicate.
Qed.

Lemma digest_bytes v : be32enc_vect (st_of v) 32 =
  mjoin (map (Fips.bytes 4) [Fips.a v; Fips.b v; Fips.c v; Fips.d v; Fips.e v; Fips.f v;
                             Fips.g v; Fips.h v]).
Proof.
  unfold be32enc_vect. change (32 / 4)%nat with (length (st_of v)).
  rewrite <- (map_map (at_ (st_of v)) mybe32enc), map_at. f_equal.
  apply map_ext. intros; apply mybe32enc_bytes.
Qed.

(** ** The properties *)



(** the compression function: the 64 unrolled rounds, which address the
    working variables through indices modulo 8, compute the rotating rounds of
    the standard on every state and block. *)
Theorem SHA256_Transform_fips (v : Fips.wv) (block : list Z)
  (Hv : good (st_of v)) (Hb : Forall byte block) (Hl : length block = 64%nat) :
  SHA256_Transform (st_of v) block = st_of (Fips.compress v block).
Proof. by apply Transform_compress. Qed.

Lemma SHA256_Transform_fips_witness :
  SHA256_Transform (st_of Fips.H0) (replicate 64 0) = st_of (Fips.compress Fips.H0 (replicate 64 0)).
Proof.
  assert (Hb : Forall byte (replicate 64 0)) by (apply Forall_replicate; done).
  exact (SHA256_Transform_fips Fips.H0 (replicate 64 0) H0_good Hb eq_refl).
Defined.

(** The test vectors of [SHA256_Test]. *)
Example SHA256_Test_1 : SHA256_of (replicate 64 0) [] =
  [0xe3; 0xb0; 0xc4; 0x42; 0x98; 0xfc; 0x1c; 0x14; 0x9a; 0xfb; 0xf4;
   0xc8; 0x99; 0x6f; 0xb9; 0x24; 0x27; 0xae; 0x41; 0xe4; 0x64; 0x9b;
   0x93; 0x4c; 0xa4; 0x95; 0x99; 0x1b; 0x78; 0x52; 0xb8; 0x55].
Proof. vm_compute. reflexivity. Qed.

Example SHA256_Test_3 : SHA256_of (replicate 64 0)
  (bs "ABCDEFGHIJKLMNOPQRSTUVWXYZabcdefghijklmnopqrstuvwxyz0123456789") =
  [0xdb; 0x4b; 0xfc; 0xbd; 0x4d; 0xa0; 0xcd; 0x85; 0xa6; 0x0c; 0x3c;
   0x37; 0xd3; 0xfb; 0xd8; 0x80; 0x5c; 0x77; 0xf1; 0x5f; 0xc6; 0xb1;
   0xfd; 0xfe; 0x61; 0x4e; 0xe0; 0xa7; 0xc8; 0xfd; 0xb4; 0xc0].
Proof. vm_compute. reflexivity. Qed.

End Sha256.
