(* ===== verification/Slinger.v ===== *)
(** * Slinger: what the cache expects of a hash table

    [bin/varnishd/hash_slinger.h]: [struct objhead] and the operations
    [hash->lookup] and [hash->deref] through which [cache_hash.c] reaches one of
    three implementations.  An object head is named by its address; [heap] holds
    the allocated ones.  The private words an implementation keeps inside the
    head, and its own tables, are its state [P].

    The class [Slinger] is the contract.  An implementation in state [p] over
    the heap [h] stands for an index [M] from digests to heads.  The heads it
    reaches, [sl_held], must not be freed or changed by anybody else. *)
From S2P Require Import Prelude.

Module Slinger.

Definition DIGEST_LEN : nat := 32.

Record objhead := ObjHead {
  refcnt : Z;
  digest : list Z;
  objcs : list Z;         (* the objcores, by address *)
  waitinglist : list Z    (* the sessions waiting for a busy object *)
}.

Notation heap := (gmap Z objhead).
Notation index := (gmap (list Z) Z).

Definition set_refcnt (oh : objhead) (n : Z) : objhead :=
  ObjHead n (digest oh) (objcs oh) (waitinglist oh).

Definition set_digest (oh : objhead) (d : list Z) : objhead :=
  ObjHead (refcnt oh) d (objcs oh) (waitinglist oh).

(** What [malloc] guarantees of the address of a head. *)
Definition aligned (a : Z) : Prop := 0 < a /\ a mod 4 = 0.

(** A head that can be handed to [lookup]: freshly set up, in nobody's tables. *)
Definition ready (oh : objhead) : Prop :=
  refcnt oh = 1 /\ length (digest oh) = DIGEST_LEN /\ Forall (fun c => 0 <= c < 256) (digest oh).

(** Two heads an implementation cannot tell apart. *)
Definition same_head (x y : objhead) : Prop := refcnt x = refcnt y /\ digest x = digest y.

Class Slinger (P : Type) := {
  sl_lookup : heap -> P -> Z -> option (Z * heap * P);
  sl_deref : heap -> P -> Z -> option (Z * heap * P);

  sl_held : P -> gset Z;
  sl_inv : heap -> P -> index -> Prop;

  (** An indexed head is held, alive, and carries its digest. *)
  sl_entry h p M d a : sl_inv h p M -> M !! d = Some a ->
    a ∈ sl_held p /\ exists oh, h !! a = Some oh /\ digest oh = d /\ 0 < refcnt oh;

  (** A digest in the index: its head, with one reference more. *)
  sl_lookup_hit h p M noh no a oh :
    sl_inv h p M -> h !! noh = Some no -> ready no -> aligned noh -> noh ∉ sl_held p ->
    M !! digest no = Some a -> h !! a = Some oh ->
    exists p', sl_lookup h p noh = Some (a, <[a := set_refcnt oh (refcnt oh + 1)]> h, p') /\
      sl_held p' = sl_held p /\ sl_inv (<[a := set_refcnt oh (refcnt oh + 1)]> h) p' M;

  (** A new digest: the caller's head goes into the index. *)
  sl_lookup_miss h p M noh no :
    sl_inv h p M -> h !! noh = Some no -> ready no -> aligned noh -> noh ∉ sl_held p ->
    M !! digest no = None ->
    exists p', sl_lookup h p noh = Some (noh, h, p') /\
      sl_held p' = {[noh]} ∪ sl_held p /\ sl_inv h p' (<[digest no := noh]> M);

  (** Giving up a reference that is not the last one. *)
  sl_deref_more h p M d a oh :
    sl_inv h p M -> M !! d = Some a -> h !! a = Some oh -> 1 < refcnt oh ->
    exists p', sl_deref h p a = Some (1, <[a := set_refcnt oh (refcnt oh - 1)]> h, p') /\
      sl_held p' = sl_held p /\ sl_inv (<[a := set_refcnt oh (refcnt oh - 1)]> h) p' M;

  (** The last reference to a head without objects: it leaves the index.  The
      result 0 hands it to the caller, otherwise the implementation keeps it
      and will free it. *)
  sl_deref_last h p M d a oh :
    sl_inv h p M -> M !! d = Some a -> h !! a = Some oh -> refcnt oh = 1 ->
    objcs oh = [] -> waitinglist oh = [] ->
    exists r oh' p', sl_deref h p a = Some (r, <[a := oh']> h, p') /\ refcnt oh' = 0 /\
      objcs oh' = [] /\ waitinglist oh' = [] /\
      sl_held p' = (if r =? 0 then sl_held p ∖ {[a]} else sl_held p) /\
      sl_inv (<[a := oh']> h) p' (delete d M);

  (** Whatever happens to other heads, or to the fields the implementation does
      not read, is of no concern. *)
  sl_frame h p M h' :
    sl_inv h p M ->
    (forall a oh, a ∈ sl_held p -> h !! a = Some oh ->
       exists oh', h' !! a = Some oh' /\ same_head oh oh') ->
    sl_inv h' p M
}.

(** ** Consequences every client can use *)

Section Client.
Context {P : Type} `{SL : Slinger P}.

(** Two digests never share a head. *)
Lemma index_inj h p M d1 d2 a :
  sl_inv h p M -> M !! d1 = Some a -> M !! d2 = Some a -> d1 = d2.
Proof.
  intros Hi H1 H2.
  destruct (sl_entry h p M d1 a Hi H1) as (_ & o1 & E1 & <- & _).
  destruct (sl_entry h p M d2 a Hi H2) as (_ & o2 & E2 & <- & _). congruence.
Qed.

(** Allocating a head. *)
Lemma inv_alloc h p M a oh : sl_inv h p M -> h !! a = None -> sl_inv (<[a := oh]> h) p M.
Proof.
  intros Hi Ha. eapply sl_frame; [done|]. intros b ob _ Hb. exists ob.
  rewrite lookup_insert_ne by congruence. by split.
Qed.

(** Freeing a head that is not held. *)
Lemma inv_free h p M a : sl_inv h p M -> a ∉ sl_held p -> sl_inv (delete a h) p M.
Proof.
  intros Hi Ha. eapply sl_frame; [done|]. intros b ob Hb E. exists ob.
  rewrite lookup_delete_ne by (intros ->; done). by split.
Qed.

(** Changing the lists of a head. *)
Lemma inv_lists h p M a oh l w :
  sl_inv h p M -> h !! a = Some oh ->
  sl_inv (<[a := ObjHead (refcnt oh) (digest oh) l w]> h) p M.
Proof.
  intros Hi Ha. eapply sl_frame; [done|]. intros b ob _ E.
  destruct (decide (a = b)) as [->|N].
  - rewrite lookup_insert_eq. eexists; split; [done|]. by assert (oh = ob) as -> by congruence.
  - rewrite lookup_insert_ne by done. exists ob. by split.
Qed.
End Client.

End Slinger.
