(* ===== verification/SimpleList.v ===== *)
(** * SimpleList: the sorted list of heads

    [bin/varnishd/hash_simple_list.c].  [hsl_head] is the list of the addresses
    on the tail queue; both operations run under [hsl_mtx] and are atomic.  The
    walk and the insertion are shared with [hash_classic.c], whose source
    repeats them. *)
From S2P Require Import Prelude Slinger.
Import Slinger.

Module SimpleList.

(** [VTAILQ_FOREACH]: where the walk ends, and whether that is a match.  The
    outer [None] is a dangling pointer. *)
Fixpoint walk (h : heap) (l : list Z) (d : list Z) : option (option (Z * bool)) :=
  match l with
  | [] => Some None
  | oh :: l =>
    let? o := h !! oh in
    match memcmp (digest o) d with
    | Lt => walk h l d
    | Gt => Some (Some (oh, false))
    | Eq => Some (Some (oh, true))
    end
  end.

(** [VTAILQ_INSERT_BEFORE(oh, noh, hoh_list)] *)
Fixpoint insert_before (l : list Z) (oh noh : Z) : list Z :=
  match l with
  | [] => []
  | x :: l => if x =? oh then noh :: x :: l else x :: insert_before l oh noh
  end.

(** [VTAILQ_REMOVE] *)
Fixpoint remove (l : list Z) (oh : Z) : list Z :=
  match l with
  | [] => []
  | x :: l => if x =? oh then l else x :: remove l oh
  end.

Definition hsl_lookup (h : heap) (hsl_head : list Z) (noh : Z)
  : option (Z * heap * list Z) :=
  let? no := h !! noh in
  let? w := walk h hsl_head (digest no) in
  match w with
  | Some (oh, true) =>
    let? o := h !! oh in
    Some (oh, <[oh := set_refcnt o (refcnt o + 1)]> h, hsl_head)
  | Some (oh, false) => Some (noh, h, insert_before hsl_head oh noh)
  | None => Some (noh, h, hsl_head ++ [noh])
  end.

Definition hsl_deref (h : heap) (hsl_head : list Z) (oh : Z) : option (Z * heap * list Z) :=
  let? o := h !! oh in
  let n := refcnt o - 1 in
  let h := <[oh := set_refcnt o n]> h in
  if n =? 0 then Some (0, h, remove hsl_head oh) else Some (1, h, hsl_head).

(** ** The sorted list as an index *)

Definition dig (h : heap) (a : Z) : list Z := match h !! a with Some o => digest o | None => [] end.

(** Every head on the list is alive and well formed; the digests increase. *)
Definition live (h : heap) (a : Z) : Prop :=
  exists o, h !! a = Some o /\ length (digest o) = DIGEST_LEN /\ 0 < refcnt o.

Fixpoint sorted (h : heap) (l : list Z) : Prop :=
  match l with
  | [] => True
  | a :: l => Forall (fun b => memcmp (dig h a) (dig h b) = Lt) l /\ sorted h l
  end.

Definition list_inv (h : heap) (l : list Z) (M : index) : Prop :=
  Forall (live h) l /\ sorted h l /\ NoDup l /\
  forall d a, M !! d = Some a <-> a ∈ l /\ dig h a = d.

Lemma live_dig h a : live h a -> length (dig h a) = DIGEST_LEN.
Proof. intros (o & E & L & _). unfold dig. by rewrite E. Qed.

(** The walk stops at the match, at the first larger digest, or at the end; in
    the last two cases the new head goes where the order wants it. *)
Lemma walk_spec h l d : Forall (live h) l -> sorted h l -> length d = DIGEST_LEN ->
  (exists a, walk h l d = Some (Some (a, true)) /\ a ∈ l /\ dig h a = d) \/
  (exists l1 a l2, l = l1 ++ a :: l2 /\ walk h l d = Some (Some (a, false)) /\
     Forall (fun b => memcmp (dig h b) d = Lt) l1 /\
     Forall (fun b => memcmp d (dig h b) = Lt) (a :: l2)) \/
  (walk h l d = Some None /\ Forall (fun b => memcmp (dig h b) d = Lt) l).
Proof.
  induction l as [|a l IH]; intros HL HS Hd; [right; right; by split|].
  apply Forall_cons_1 in HL as [Ha HL]. destruct HS as [HF HS].
  pose proof (live_dig h a Ha) as La. cbn [walk].
  destruct Ha as (o & E & Lo & _). rewrite E.
  assert (Ed : dig h a = digest o) by (unfold dig; by rewrite E). rewrite <- Ed.
  destruct (memcmp (dig h a) d) eqn:C.
  - left. exists a. split; [done|]. split; [left|]. apply memcmp_eq; [|done]. congruence.
  - destruct (IH HL HS Hd) as [(b & W & B & D)|[(l1 & b & l2 & -> & W & F1 & F2)|(W & F)]].
    + left. exists b. split; [done|]. split; [by right|done].
    + right; left. exists (a :: l1), b, l2. split; [done|]. split; [done|]. split; [|done].
      by constructor.
    + right; right. split; [done|]. by constructor.
  - right; left. exists [], a, l. split; [done|]. split; [done|]. split; [done|].
    assert (Ca : memcmp d (dig h a) = Lt) by (by rewrite memcmp_antisym, C).
    constructor; [done|]. apply Forall_forall. intros b Hb.
    rewrite Forall_forall in HF, HL. pose proof (live_dig h b (HL b Hb)).
    eapply memcmp_lt_trans; [| |exact Ca|by apply HF]; congruence.
Qed.

Lemma insert_before_at l1 a l2 noh : a ∉ l1 -> insert_before (l1 ++ a :: l2) a noh = l1 ++ noh :: a :: l2.
Proof.
  induction l1 as [|x l1 IH]; intros H; simpl; [by rewrite Z.eqb_refl|].
  apply not_elem_of_cons in H as [? ?]. replace (x =? a) with false by lia. by rewrite IH.
Qed.

Lemma remove_at l1 a l2 : a ∉ l1 -> remove (l1 ++ a :: l2) a = l1 ++ l2.
Proof.
  induction l1 as [|x l1 IH]; intros H; simpl; [by rewrite Z.eqb_refl|].
  apply not_elem_of_cons in H as [? ?]. replace (x =? a) with false by lia. by rewrite IH.
Qed.

Lemma sorted_app h l1 l2 : sorted h (l1 ++ l2) <->
  sorted h l1 /\ sorted h l2 /\
  forall a b, a ∈ l1 -> b ∈ l2 -> memcmp (dig h a) (dig h b) = Lt.
Proof.
  induction l1 as [|x l1 IH]; simpl.
  - split; [intros; split_and!; auto; intros ? ? K; by apply elem_of_nil in K|tauto].
  - rewrite Forall_app, IH. rewrite !Forall_forall. split.
    + intros ((A & B) & C & D & E). split_and!; auto. intros a b [->|]%elem_of_cons; auto.
    + intros ((A & B) & C & E). split_and!; auto.
      * intros b Hb. apply E; [left|done].
      * intros a b Ha. apply E. by right.
Qed.

Lemma list_inv_sorted_eq h l M a b :
  list_inv h l M -> a ∈ l -> b ∈ l -> dig h a = dig h b -> a = b.
Proof.
  intros (_ & _ & _ & H) Ha Hb E.
  assert (M !! dig h a = Some a) by (by apply H). assert (M !! dig h a = Some b) by (by apply H).
  congruence.
Qed.

(** Heads the walk cannot tell apart keep the invariant. *)
Lemma list_inv_frame h l M h' : list_inv h l M ->
  (forall a oh, a ∈ l -> h !! a = Some oh ->
     exists oh', h' !! a = Some oh' /\ digest oh' = digest oh /\ 0 < refcnt oh') ->
  list_inv h' l M.
Proof.
  intros (HL & HS & HN & HM) Hf.
  assert (D : forall a, a ∈ l -> live h' a /\ dig h' a = dig h a).
  { intros a Ha. rewrite Forall_forall in HL. destruct (HL a Ha) as (o & E & L & P).
    destruct (Hf a o Ha E) as (o' & E' & S & P'). unfold live, dig. rewrite E, E'.
    split; [|done]. exists o'. by rewrite S. }
  split_and!; [apply Forall_forall; intros; by apply D| |done|].
  - clear - HS D. induction l as [|a l IH]; [done|]. destruct HS as [F HS]. split.
    + rewrite !Forall_forall in *. intros b Hb. destruct (D a) as [_ ->]; [left|].
      destruct (D b) as [_ ->]; [by right|]. auto.
    + apply IH; [done|]. intros. apply D. by right.
  - intros d a. rewrite HM. split; intros [Ha E]; (split; [done|]); destruct (D a Ha); congruence.
Qed.

Lemma list_inv_set h l M a o n : list_inv h l M -> h !! a = Some o -> 0 < n ->
  list_inv (<[a := set_refcnt o n]> h) l M.
Proof.
  intros Hi Ha Hn. pose proof Hi as (HL & _). rewrite Forall_forall in HL.
  apply (list_inv_frame _ _ _ _ Hi). intros b ob Hb E.
  destruct (HL b Hb) as (o2 & E2 & _ & P).
  destruct (decide (a = b)) as [->|N].
  - rewrite lookup_insert_eq. assert (o = ob) as -> by congruence. eauto.
  - rewrite lookup_insert_ne by done. assert (o2 = ob) as -> by congruence. eauto.
Qed.

Lemma walk_match h l M d a o : list_inv h l M -> length d = DIGEST_LEN ->
  M !! d = Some a -> h !! a = Some o -> walk h l d = Some (Some (a, true)).
Proof.
  intros Hi Hd Hm Ha. pose proof Hi as (HL & HS & _ & HM). apply HM in Hm as [Hin Ed].
  assert (X : forall P : Z -> Prop, P a -> P a) by auto.
  destruct (walk_spec h l d HL HS Hd) as [(b & W & B & D)|[(l1 & b & l2 & -> & W & F1 & F2)|(W & F)]].
  - rewrite W. by rewrite (list_inv_sorted_eq h l M b a Hi B Hin) by congruence.
  - exfalso. apply elem_of_app in Hin as [Hin|Hin].
    + rewrite Forall_forall in F1. specialize (F1 _ Hin). rewrite Ed in F1.
      by rewrite (proj2 (memcmp_eq d d eq_refl)) in F1.
    + rewrite Forall_forall in F2. specialize (F2 _ Hin). rewrite Ed in F2.
      by rewrite (proj2 (memcmp_eq d d eq_refl)) in F2.
  - exfalso. rewrite Forall_forall in F. specialize (F _ Hin). rewrite Ed in F.
    by rewrite (proj2 (memcmp_eq d d eq_refl)) in F.
Qed.

(** A head inserted where the order wants it. *)
Lemma list_inv_insert h l1 l2 M noh no :
  list_inv h (l1 ++ l2) M -> h !! noh = Some no -> ready no -> noh ∉ l1 ++ l2 ->
  Forall (fun b => memcmp (dig h b) (digest no) = Lt) l1 ->
  Forall (fun b => memcmp (digest no) (dig h b) = Lt) l2 ->
  list_inv h (l1 ++ noh :: l2) (<[digest no := noh]> M).
Proof.
  intros (HL & HS & HN & HM) Hn (Rr & Rl & _) Hf F1 F2.
  assert (Dn : dig h noh = digest no) by (unfold dig; by rewrite Hn).
  apply Forall_app in HL as [HL1 HL2]. apply sorted_app in HS as (S1 & S2 & S3).
  assert (Hd : forall b, b ∈ l1 ++ l2 -> dig h b <> digest no).
  { intros b Hb E. rewrite Forall_forall in F1, F2. apply elem_of_app in Hb as [Hb|Hb].
    - specialize (F1 b Hb). rewrite E, (proj2 (memcmp_eq _ _ eq_refl)) in F1; done.
    - specialize (F2 b Hb). rewrite E, (proj2 (memcmp_eq _ _ eq_refl)) in F2; done. }
  split_and!.
  - apply Forall_app. split; [done|]. constructor; [|done]. exists no. split_and!; auto. lia.
  - apply sorted_app. cbn [sorted]. rewrite Dn. split_and!; auto.
    intros a b Ha [->|Hb]%elem_of_cons; [|by apply S3].
    rewrite Dn. rewrite Forall_forall in F1. by apply F1.
  - apply NoDup_app in HN as (N1 & N2 & N3). apply not_elem_of_app in Hf as [Hf1 Hf2].
    apply NoDup_app. split_and!; [done| |by apply NoDup_cons].
    intros x Hx [->|Hx2]%elem_of_cons; [done|]. by apply (N2 x).
  - intros d a. destruct (decide (d = digest no)) as [->|Nd].
    + rewrite lookup_insert_eq. split.
      * intros [= <-]. split; [apply elem_of_app; right; left|done].
      * intros [Ha E]. apply elem_of_app in Ha as [Ha|[->|Ha]%elem_of_cons]; [|done|];
          (destruct (Hd a); [apply elem_of_app; auto|done]).
    + rewrite lookup_insert_ne by done. rewrite HM.
      split; intros [Ha E]; (split; [|done]).
      * apply elem_of_app in Ha as [Ha|Ha]; apply elem_of_app; [by left|right; by right].
      * apply elem_of_app in Ha as [Ha|[->|Ha]%elem_of_cons]; apply elem_of_app; auto. congruence.
Qed.

Lemma list_inv_remove h l M a o o' :
  list_inv h l M -> a ∈ l -> h !! a = Some o -> NoDup l ->
  list_inv (<[a := o']> h) (remove l a) (delete (digest o) M) /\
  (forall b, b ∈ remove l a <-> b ∈ l /\ b <> a).
Proof.
  intros Hi Ha E Hnd. apply list_elem_of_split in Ha as (l1 & l2 & ->).
  apply NoDup_app in Hnd as Hnd'. destruct Hnd' as (N1 & N2 & N3).
  apply NoDup_cons in N3 as [N3 N4].
  assert (Ha1 : a ∉ l1) by (intros H; apply (N2 a H); left).
  rewrite remove_at by done. pose proof Hi as (HL & HS & _ & HM).
  assert (Da : dig h a = digest o) by (unfold dig; by rewrite E).
  assert (Hin : forall b, b ∈ l1 ++ l2 <-> b ∈ l1 ++ a :: l2 /\ b <> a).
  { intros b. rewrite !elem_of_app, elem_of_cons. split.
    - intros [H|H]; (split; [tauto|intros ->; done]).
    - tauto. }
  split; [|done].
  assert (H0 : list_inv h (l1 ++ l2) (delete (digest o) M)).
  { apply Forall_app in HL as [HL1 HL2]. apply Forall_cons_1 in HL2 as [_ HL2].
    apply sorted_app in HS as (S1 & [_ S2] & S3). split_and!.
    - by apply Forall_app.
    - apply sorted_app. split_and!; auto. intros x y Hx Hy. apply S3; [done|by right].
    - apply NoDup_app. split_and!; auto. intros x Hx Hy. apply (N2 x Hx). by right.
    - intros d b. rewrite Hin. destruct (decide (d = digest o)) as [->|Nd].
      + rewrite lookup_delete_eq. split; [done|]. intros [[Hb Nb] Eb]. destruct Nb.
        apply (list_inv_sorted_eq h _ M b a Hi Hb); [apply elem_of_app; right; left|congruence].
      + rewrite lookup_delete_ne by done. rewrite HM. split.
        * intros [Hb Eb]. split; [split; [done|]|done]. intros ->. congruence.
        * tauto. }
  apply (list_inv_frame _ _ _ _ H0). intros b ob Hb Eb. apply Hin in Hb as [Hb Nb].
  rewrite lookup_insert_ne by done. rewrite Forall_forall in HL.
  destruct (HL b Hb) as (o2 & E2 & _ & P). assert (o2 = ob) as -> by congruence. eauto.
Qed.

(** A digest that is not there: where the walk ends and what the insertion makes. *)
Lemma walk_miss h l M noh no :
  list_inv h l M -> h !! noh = Some no -> ready no -> noh ∉ l -> M !! digest no = None ->
  exists w l', walk h l (digest no) = Some w /\
    match w with
    | Some (_, true) => False
    | Some (oh, false) => l' = insert_before l oh noh
    | None => l' = l ++ [noh]
    end /\
    list_inv h l' (<[digest no := noh]> M) /\ forall x, x ∈ l' <-> x = noh \/ x ∈ l.
Proof.
  intros Hi Hn Hr Hf Hm. pose proof Hi as (HL & HS & HN & HM). pose proof Hr as (_ & Rl & _).
  destruct (walk_spec h l (digest no) HL HS Rl)
    as [(b & W & B & D)|[(l1 & b & l2 & -> & W & F1 & F2)|(W & F)]].
  - exfalso. assert (M !! digest no = Some b) by (by apply HM). congruence.
  - assert (Hb : b ∉ l1).
    { intros Hb. apply NoDup_app in HN as (_ & N & _). apply (N b Hb). left. }
    eexists (Some (b, false)), _. split; [done|]. split; [done|].
    rewrite insert_before_at by done. split; [by eapply list_inv_insert|].
    intros x. rewrite !elem_of_app, !elem_of_cons. tauto.
  - eexists None, _. split; [done|]. split; [done|].
    split; [eapply list_inv_insert; rewrite ?app_nil_r; eauto|].
    intros x. rewrite elem_of_app, list_elem_of_singleton. tauto.
Qed.

(** ** The contract *)

#[export] Program Instance hsl_slinger : Slinger (list Z) := {
  sl_lookup := hsl_lookup;
  sl_deref := hsl_deref;
  sl_held l := list_to_set l;
  sl_inv := list_inv
}.
Next Obligation.
  intros h l M d a (HL & _ & _ & HM) H. apply HM in H as [Ha E].
  split; [by apply elem_of_list_to_set|]. rewrite Forall_forall in HL.
  destruct (HL a Ha) as (o & Eo & _ & P). exists o. unfold dig in E. by rewrite Eo in E.
Qed.
Next Obligation.
  intros h l M noh no a oh Hi Hn (Rr & Rl & _) _ _ Hm Ha.
  unfold hsl_lookup. rewrite Hn, (walk_match h l M _ a oh Hi Rl Hm Ha), Ha.
  exists l. split; [done|]. split; [done|]. apply list_inv_set; [done|done|].
  pose proof Hi as (HL & _ & _ & HM). apply HM in Hm as [Hin _].
  rewrite Forall_forall in HL. destruct (HL a Hin) as (o & Eo & _ & P).
  assert (o = oh) as -> by congruence. lia.
Qed.
Next Obligation.
  intros h l M noh no Hi Hn Hr _ Hf Hm. rewrite elem_of_list_to_set in Hf.
  destruct (walk_miss h l M noh no Hi Hn Hr Hf Hm) as (w & l' & W & E & I & X).
  unfold hsl_lookup. rewrite Hn, W. exists l'.
  split; [|split; [simpl; set_solver|done]].
  destruct w as [[oh []]|]; [done|by rewrite E|by rewrite E].
Qed.
Next Obligation.
  intros h l M d a oh Hi Hm Ha Hr. unfold hsl_deref. rewrite Ha.
  replace (refcnt oh - 1 =? 0) with false by lia. exists l. split; [done|]. split; [done|].
  apply list_inv_set; [done|done|lia].
Qed.
Next Obligation.
  intros h l M d a oh Hi Hm Ha Hr Hc Hw. unfold hsl_deref. rewrite Ha, Hr. simpl.
  pose proof Hi as (_ & _ & HN & HM). apply HM in Hm as [Hin Ed].
  assert (Ed' : digest oh = d) by (unfold dig in Ed; by rewrite Ha in Ed).
  do 3 eexists. split; [done|]. split; [done|]. split; [done|]. split; [done|].
  destruct (list_inv_remove h l M a oh (set_refcnt oh 0) Hi Hin Ha HN) as [I R].
  split; [|by rewrite Ed' in I]. simpl. apply set_eq. intros x.
  rewrite elem_of_difference, elem_of_singleton, !elem_of_list_to_set. apply R.
Qed.
Next Obligation.
  intros h l M h' Hi Hf. apply (list_inv_frame _ _ _ _ Hi). intros a oh Ha E.
  destruct (Hf a oh) as (oh' & E' & S1 & S2); [by apply elem_of_list_to_set|done|].
  exists oh'. split; [done|]. split; [done|]. rewrite <- S1.
  destruct Hi as (HL & _). rewrite Forall_forall in HL. destruct (HL a Ha) as (o & Eo & _ & P).
  assert (o = oh) as -> by congruence. done.
Qed.

End SimpleList.
