(* ===== verification/Classic.v ===== *)
(** * Classic: the bucket hash

    [bin/varnishd/hash_classic.c].  The array [hcl_head] of bucket lists and the
    back pointers [hoh_head] of the heads, here the number of the bucket.  Each
    operation runs under the lock of one bucket and is atomic.  The first four
    bytes of the digest are read as a native integer; the model is little
    endian.  What [hcl_init] scans from its argument is a parameter. *)
From S2P Require Import Prelude Slinger SimpleList.
Import Slinger SimpleList.

Module Classic.

Record hcl := Hcl {
  hcl_nhash : Z;
  hcl_head : list (list Z);
  hoh_head : gmap Z nat
}.

(** [hcl_init] with [u] the number [sscanf] read, if it read one. *)
Definition hcl_init (nhash : Z) (u : option Z) : Z :=
  match u with
  | None => nhash
  | Some u =>
    if u =? 0 then nhash
    else if (2 <? u) && (Z.land u (u - 1) =? 0) then u - 1 else u
  end.

Definition hcl_start (nhash : Z) : hcl := Hcl nhash (replicate (Z.to_nat nhash) []) ∅.

Definition bucket_of (nhash : Z) (d : list Z) : nat :=
  Z.to_nat ((at_ d 0 + 2 ^ 8 * at_ d 1 + 2 ^ 16 * at_ d 2 + 2 ^ 24 * at_ d 3) mod nhash).

Definition hcl_lookup (h : heap) (p : hcl) (noh : Z) : option (Z * heap * hcl) :=
  let? no := h !! noh in
  let u1 := bucket_of (hcl_nhash p) (digest no) in
  let? hp := hcl_head p !! u1 in
  let? w := walk h hp (digest no) in
  let put l := Hcl (hcl_nhash p) (<[u1 := l]> (hcl_head p)) (<[noh := u1]> (hoh_head p)) in
  match w with
  | Some (oh, true) =>
    let? o := h !! oh in
    Some (oh, <[oh := set_refcnt o (refcnt o + 1)]> h, p)
  | Some (oh, false) => Some (noh, h, put (insert_before hp oh noh))
  | None => Some (noh, h, put (hp ++ [noh]))
  end.

Definition hcl_deref (h : heap) (p : hcl) (oh : Z) : option (Z * heap * hcl) :=
  let? o := h !! oh in
  let? u1 := hoh_head p !! oh in
  let? hp := hcl_head p !! u1 in
  assert! 0 <? refcnt o ;;
  let n := refcnt o - 1 in
  let h := <[oh := set_refcnt o n]> h in
  if n =? 0
  then Some (0, h, Hcl (hcl_nhash p) (<[u1 := remove hp oh]> (hcl_head p)) (hoh_head p))
  else Some (1, h, p).

(** ** The buckets as one index *)

(** The part of the index that belongs into bucket [i]. *)
Definition part (n : Z) (i : nat) (M : index) : index :=
  filter (fun kv => bucket_of n kv.1 = i) M.

Lemma part_Some n i M d a : part n i M !! d = Some a <-> M !! d = Some a /\ bucket_of n d = i.
Proof. unfold part. by rewrite map_lookup_filter_Some. Qed.

Lemma part_insert_same n i M d a : bucket_of n d = i ->
  part n i (<[d := a]> M) = <[d := a]> (part n i M).
Proof. intros. unfold part. by rewrite map_filter_insert_True. Qed.

Lemma part_insert_other n i M d a : bucket_of n d <> i -> M !! d = None ->
  part n i (<[d := a]> M) = part n i M.
Proof.
  intros H Hm. apply map_eq. intros k. apply option_eq. intros b. rewrite !part_Some.
  destruct (decide (k = d)) as [->|N]; [|by rewrite lookup_insert_ne by done].
  rewrite Hm. split; [by intros [_ ?]|by intros [? _]].
Qed.

Lemma part_delete_same n i M d : part n i (delete d M) = delete d (part n i M).
Proof. unfold part. by rewrite map_filter_delete. Qed.

Lemma part_delete_other n i M d : bucket_of n d <> i -> part n i (delete d M) = part n i M.
Proof.
  intros H. apply map_eq. intros k. apply option_eq. intros b. rewrite !part_Some.
  destruct (decide (k = d)) as [->|N]; [|by rewrite lookup_delete_ne by done].
  split; by intros [_ ?].
Qed.

Definition hcl_inv (h : heap) (p : hcl) (M : index) : Prop :=
  0 < hcl_nhash p /\ Z.of_nat (length (hcl_head p)) = hcl_nhash p /\
  forall i l, hcl_head p !! i = Some l ->
    list_inv h l (part (hcl_nhash p) i M) /\ forall a, a ∈ l -> hoh_head p !! a = Some i.

Definition hcl_held (p : hcl) : gset Z := list_to_set (mjoin (hcl_head p)).

Lemma held_bucket p a : a ∈ hcl_held p <-> exists i l, hcl_head p !! i = Some l /\ a ∈ l.
Proof.
  unfold hcl_held. rewrite elem_of_list_to_set, list_elem_of_join. split.
  - intros (l & Ha & Hl). apply list_elem_of_lookup in Hl as [i Hi]. eauto.
  - intros (i & l & Hi & Ha). exists l. split; [done|]. apply list_elem_of_lookup. eauto.
Qed.

Lemma bucket_range p d : 0 < hcl_nhash p -> Z.of_nat (length (hcl_head p)) = hcl_nhash p ->
  exists l, hcl_head p !! bucket_of (hcl_nhash p) d = Some l.
Proof.
  intros Hn Hl. apply lookup_lt_is_Some_2. unfold bucket_of.
  pose proof (Z.mod_pos_bound (at_ d 0 + 2 ^ 8 * at_ d 1 + 2 ^ 16 * at_ d 2 + 2 ^ 24 * at_ d 3)
    (hcl_nhash p) Hn). lia.
Qed.

(** A head sits in the bucket of its digest. *)
Lemma in_bucket h p M i l a o : hcl_inv h p M -> hcl_head p !! i = Some l -> a ∈ l ->
  h !! a = Some o -> bucket_of (hcl_nhash p) (digest o) = i /\ M !! digest o = Some a.
Proof.
  intros (_ & _ & HB) Hl Ha E. destruct (HB i l Hl) as ((_ & _ & _ & HM) & _).
  assert (H : part (hcl_nhash p) i M !! digest o = Some a)
    by (apply HM; split; [done|]; unfold dig; by rewrite E).
  apply part_Some in H. tauto.
Qed.

(** ** The contract *)

#[export] Program Instance hcl_slinger : Slinger hcl := {
  sl_lookup := hcl_lookup;
  sl_deref := hcl_deref;
  sl_held := hcl_held;
  sl_inv := hcl_inv
}.
Next Obligation.
  intros h p M d a Hi Hm. pose proof Hi as (Hn & Hl & HB).
  destruct (bucket_range p d Hn Hl) as [l El]. destruct (HB _ _ El) as [Li _].
  destruct (@sl_entry (list Z) hsl_slinger h l _ d a Li) as [Ha Ho]; [by apply part_Some|].
  split; [|done]. apply held_bucket. apply elem_of_list_to_set in Ha. eauto.
Qed.
Next Obligation.
  intros h p M noh no a oh Hi Hno (Rr & Rl & _) _ _ Hm Ha. pose proof Hi as (Hn & Hl & HB).
  destruct (bucket_range p (digest no) Hn Hl) as [l El]. destruct (HB _ _ El) as [Li Hh].
  assert (Hp : part (hcl_nhash p) (bucket_of (hcl_nhash p) (digest no)) M !! digest no = Some a)
    by (by apply part_Some).
  unfold hcl_lookup. rewrite Hno, El, (walk_match h l _ _ a oh Li Rl Hp Ha), Ha.
  exists p. split; [done|]. split; [done|]. split_and!; auto.
  destruct (@sl_entry (list Z) hsl_slinger h l _ _ a Li Hp) as (_ & o & Eo & _ & Pos).
  assert (o = oh) as -> by congruence.
  intros i l2 El2. destruct (HB i l2 El2). split; [|done]. apply list_inv_set; [done|done|lia].
Qed.
Next Obligation.
  intros h p M noh no Hi Hno Hr _ Hf Hm. pose proof Hi as (Hn & Hl & HB).
  set (i := bucket_of (hcl_nhash p) (digest no)).
  destruct (bucket_range p (digest no) Hn Hl) as [l El]. destruct (HB _ _ El) as [Li Hh].
  fold i in El, Li, Hh.
  assert (Hnl : noh ∉ l) by (intros H; apply Hf, held_bucket; eauto).
  destruct (walk_miss h l _ noh no Li Hno Hr Hnl) as (w & l' & W & E & I & X).
  { destruct (part _ _ M !! digest no) eqn:Ep; [|done]. apply part_Some in Ep as [Ep _]. congruence. }
  exists (Hcl (hcl_nhash p) (<[i := l']> (hcl_head p)) (<[noh := i]> (hoh_head p))).
  assert (Li' : (i < length (hcl_head p))%nat) by (by eapply lookup_lt_Some).
  split; [|split].
  - unfold hcl_lookup. rewrite Hno. fold i. rewrite El, W.
    destruct w as [[oh []]|]; [done|by rewrite E|by rewrite E].
  - apply set_eq. intros x. rewrite elem_of_union, elem_of_singleton, !held_bucket. simpl. split.
    + intros (j & lj & Ej & Hx). destruct (decide (i = j)) as [<-|N].
      * rewrite list_lookup_insert_eq in Ej by done. injection Ej as <-. apply X in Hx as [->|]; eauto.
      * rewrite list_lookup_insert_ne in Ej by done. eauto.
    + intros [->|(j & lj & Ej & Hx)].
      * exists i, l'. rewrite list_lookup_insert_eq by done. split; [done|]. apply X. by left.
      * destruct (decide (i = j)) as [<-|N].
        -- exists i, l'. rewrite list_lookup_insert_eq by done. split; [done|].
           apply X. right. congruence.
        -- exists j, lj. by rewrite list_lookup_insert_ne.
  - split; [done|]. split; [simpl; by rewrite length_insert|]. simpl. intros j lj Ej.
    destruct (decide (i = j)) as [<-|N].
    + rewrite list_lookup_insert_eq in Ej by done. injection Ej as <-.
      rewrite part_insert_same by done. split; [done|]. intros a Ha.
      destruct (decide (a = noh)) as [->|]; [by rewrite lookup_insert_eq|].
      rewrite lookup_insert_ne by done. apply Hh. by apply X in Ha as [?|].
    + rewrite list_lookup_insert_ne in Ej by done. destruct (HB j lj Ej) as [Lj Hj].
      rewrite part_insert_other by done. split; [done|]. intros a Ha.
      rewrite lookup_insert_ne; [by apply Hj|]. intros ->. apply Hf, held_bucket. eauto.
Qed.
Next Obligation.
  intros h p M d a oh Hi Hm Ha Hr. pose proof Hi as (Hn & Hl & HB).
  destruct (bucket_range p d Hn Hl) as [l El]. destruct (HB _ _ El) as [Li Hh].
  destruct (@sl_entry (list Z) hsl_slinger h l _ d a Li) as [Hin _]; [by apply part_Some|].
  apply elem_of_list_to_set in Hin.
  unfold hcl_deref. rewrite Ha, (Hh a Hin), El. replace (0 <? refcnt oh) with true by lia.
  replace (refcnt oh - 1 =? 0) with false by lia. exists p. split; [done|]. split; [done|].
  split_and!; auto. intros j lj Ej. destruct (HB j lj Ej). split; [|done].
  apply list_inv_set; [done|done|lia].
Qed.
Next Obligation.
  intros h p M d a oh Hi Hm Ha Hr Hc Hw. pose proof Hi as (Hn & Hl & HB).
  set (i := bucket_of (hcl_nhash p) d).
  destruct (bucket_range p d Hn Hl) as [l El]. destruct (HB _ _ El) as [Li Hh].
  fold i in El, Li, Hh.
  destruct (@sl_entry (list Z) hsl_slinger h l _ d a Li) as (Hin & o & Eo & Ed & _); [by apply part_Some|].
  assert (o = oh) as -> by congruence. subst d. apply elem_of_list_to_set in Hin.
  unfold hcl_deref. rewrite Ha, (Hh a Hin), El, Hr. cbn [Z.ltb Z.compare Z.sub Z.eqb Z.add Z.opp
    Z.pos_sub].
  do 3 eexists. split; [done|]. split; [done|]. split; [done|]. split; [done|].
  assert (Li' : (i < length (hcl_head p))%nat) by (by eapply lookup_lt_Some).
  pose proof Li as (_ & _ & HN & _).
  destruct (list_inv_remove h l _ a oh (set_refcnt oh 0) Li Hin Ha HN) as [I R].
  assert (Other : forall j lj, hcl_head p !! j = Some lj -> j <> i -> a ∉ lj).
  { intros j lj Ej N H. destruct (in_bucket h p M j lj a oh Hi Ej H Ha) as [E _]. by destruct N. }
  split.
  - apply set_eq. intros x. simpl. rewrite elem_of_difference, elem_of_singleton, !held_bucket. simpl.
    split.
    + intros (j & lj & Ej & Hx). destruct (decide (i = j)) as [<-|N].
      * rewrite list_lookup_insert_eq in Ej by done. injection Ej as <-.
        apply R in Hx as [? ?]. eauto.
      * rewrite list_lookup_insert_ne in Ej by done. split; [eauto|]. intros ->.
        by apply (Other j lj).
    + intros [(j & lj & Ej & Hx) Nx]. destruct (decide (i = j)) as [<-|N].
      * exists i, (remove l a). rewrite list_lookup_insert_eq by done. split; [done|].
        apply R. split; [congruence|done].
      * exists j, lj. by rewrite list_lookup_insert_ne.
  - split; [done|]. split; [simpl; by rewrite length_insert|]. simpl. intros j lj Ej.
    destruct (decide (i = j)) as [<-|N].
    + rewrite list_lookup_insert_eq in Ej by done. injection Ej as <-.
      rewrite part_delete_same. split; [done|]. intros b Hb. apply Hh. by apply R in Hb as [? _].
    + rewrite list_lookup_insert_ne in Ej by done. destruct (HB j lj Ej) as [Lj Hj].
      rewrite part_delete_other by done. split; [|done].
      apply (list_inv_frame _ _ _ _ Lj). intros b ob Hb Eb.
      rewrite lookup_insert_ne by (intros ->; by apply (Other j lj)).
      destruct Lj as (HLj & _). rewrite Forall_forall in HLj. destruct (HLj b Hb) as (o2 & E2 & _ & P2).
      assert (o2 = ob) as -> by congruence. eauto.
Qed.
Next Obligation.
  intros h p M h' Hi Hf. pose proof Hi as (Hn & Hl & HB). split; [done|]. split; [done|].
  intros j lj Ej. destruct (HB j lj Ej) as [Lj Hj]. split; [|done].
  eapply (@sl_frame (list Z) hsl_slinger); [exact Lj|]. intros a oh Ha. apply Hf, held_bucket.
  apply elem_of_list_to_set in Ha. eauto.
Qed.

(** ** The properties *)

(** [hcl_init] never leaves the table without a bucket, takes the number it is
    given, and replaces a power of two by its predecessor; one and two are kept. *)
Theorem hcl_init_buckets (nhash : Z) (u : option Z) (Hn : 0 < nhash)
  (Hu : forall n, u = Some n -> 0 <= n < 2 ^ 32) :
  0 < hcl_init nhash u /\
  (forall k, u = Some (2 ^ k) -> 1 < k -> hcl_init nhash u = 2 ^ k - 1) /\
  (forall n, u = Some n -> 0 < n <= 2 -> hcl_init nhash u = n).
Proof.
  unfold hcl_init. split_and!.
  - destruct u as [n|]; [|done]. specialize (Hu n eq_refl).
    case_if; [done|]. case_if; bool_prop; lia.
  - intros k E Hk. rewrite E.
    assert (H2 : 4 <= 2 ^ k) by (change 4 with (2 ^ 2); apply Z.pow_le_mono_r; lia).
    replace (2 ^ k =? 0) with false by lia. replace (2 <? 2 ^ k) with true by lia.
    replace (2 ^ k - 1) with (Z.ones k) by (rewrite Z.ones_equiv; lia).
    rewrite Z.land_ones, Z_mod_same_full by lia. done.
  - intros n E Hk. rewrite E. replace (n =? 0) with false by lia.
    replace (2 <? n) with false by lia. done.
Qed.

Lemma hcl_init_buckets_witness :
  hcl_init 16383 (Some 4096) = 4095 /\ 0 < hcl_init 16383 (Some 7).
Proof.
  assert (H1 : forall n, Some 4096 = Some n -> 0 <= n < 2 ^ 32) by (intros n [= <-]; lia).
  assert (H2 : forall n, Some 7 = Some n -> 0 <= n < 2 ^ 32) by (intros n [= <-]; lia).
  split.
  - exact (proj1 (proj2 (hcl_init_buckets 16383 (Some 4096) eq_refl H1)) 12 eq_refl eq_refl).
  - exact (proj1 (hcl_init_buckets 16383 (Some 7) eq_refl H2)).
Defined.

End Classic.
