(* ===== verification/CritTree.v ===== *)
(** * CritTree: the crit-bit tree as a mathematical object

    What the pointers of [hash_critbit.c] stand for: a binary tree whose tips
    are heads and whose branches test one bit of the key, bits increasing
    downwards, such that all keys below a branch agree on the earlier bits and
    split on its own.  [D] gives the key of a head.  Searching, inserting and
    deleting are structural, and keep that shape. *)
From S2P Require Import Prelude.

Module CritTree.

(** The bits of a key, most significant first. *)
Definition bit (d : list Z) (i : Z) : bool := Z.testbit (at_ d (Z.to_nat (i / 8))) (7 - i mod 8).

Definition agree (d1 d2 : list Z) (c : Z) : Prop := forall i, 0 <= i < c -> bit d1 i = bit d2 i.

Inductive tree := Tip (a : Z) | Br (y c : Z) (l r : tree).

Fixpoint tips (t : tree) : list Z :=
  match t with Tip a => [a] | Br _ _ l r => tips l ++ tips r end.

Fixpoint ynodes (t : tree) : list Z :=
  match t with Tip _ => [] | Br y _ l r => y :: ynodes l ++ ynodes r end.

Fixpoint depth (t : tree) : nat :=
  match t with Tip _ => 1 | Br _ _ l r => S (Nat.max (depth l) (depth r)) end.

Fixpoint descend (d : list Z) (t : tree) : Z :=
  match t with Tip a => a | Br _ c l r => if bit d c then descend d r else descend d l end.

(** The new branch [y] at bit [c] goes in front of the first branch that tests a
    later bit. *)
Fixpoint ins (d : list Z) (c oh y : Z) (t : tree) : tree :=
  let here := if bit d c then Br y c t (Tip oh) else Br y c (Tip oh) t in
  match t with
  | Tip _ => here
  | Br y' c' l r =>
    if c <? c' then here
    else if bit d c' then Br y' c' l (ins d c oh y r) else Br y' c' (ins d c oh y l) r
  end.

(** The tree without the tip [a] and the branch above it; a single tip stays. *)
Fixpoint del (d : list Z) (a : Z) (t : tree) : tree :=
  match t with
  | Tip _ => t
  | Br y c l r =>
    if bit d c
    then match r with Tip b => if b =? a then l else t | _ => Br y c l (del d a r) end
    else match l with Tip b => if b =? a then r else t | _ => Br y c (del d a l) r end
  end.

Section Keys.
Context (D : Z -> list Z).

Fixpoint wft (lo : Z) (t : tree) : Prop :=
  match t with
  | Tip _ => True
  | Br _ c l r =>
    lo <= c < 256 /\ wft (c + 1) l /\ wft (c + 1) r /\
    (forall a, a ∈ tips l -> bit (D a) c = false) /\
    (forall a, a ∈ tips r -> bit (D a) c = true) /\
    (forall a b, a ∈ tips l ++ tips r -> b ∈ tips l ++ tips r -> agree (D a) (D b) c)
  end.

Lemma wft_weaken lo lo' t : lo' <= lo -> wft lo t -> wft lo' t.
Proof. destruct t; simpl; [done|]. intros ? (? & H). split; [lia|exact H]. Qed.

Lemma wft_depth t : forall lo, wft lo t -> lo <= 256 -> Z.of_nat (depth t) <= 257 - lo.
Proof.
  induction t as [a|y c l IHl r IHr]; intros lo H Hlo; simpl in *; [lia|].
  destruct H as (Hc & Hl & Hr & _). apply IHl in Hl; [|lia]. apply IHr in Hr; [|lia]. lia.
Qed.

Lemma descend_in d t : descend d t ∈ tips t.
Proof.
  induction t as [a|y c l IHl r IHr]; simpl; [apply list_elem_of_singleton; done|].
  case_if; apply elem_of_app; auto.
Qed.

(** A key that is in the tree is where the search ends. *)
Lemma descend_hit t : forall lo a, wft lo t -> a ∈ tips t -> descend (D a) t ∈ tips t /\
  (forall b, b ∈ tips t -> D b = D a -> b = a) -> descend (D a) t = a.
Proof.
  induction t as [x|y c l IHl r IHr]; intros lo a H Ha [_ Hu]; simpl in *.
  - by apply list_elem_of_singleton in Ha.
  - destruct H as (Hc & Hl & Hr & Bl & Br & _). apply elem_of_app in Ha as [Ha|Ha].
    + rewrite (Bl a Ha). eapply IHl; eauto. split; [apply descend_in|].
      intros b Hb. apply Hu, elem_of_app. by left.
    + rewrite (Br a Ha). eapply IHr; eauto. split; [apply descend_in|].
      intros b Hb. apply Hu, elem_of_app. by right.
Qed.

(** All keys below a node agree with the one the search finds, up to any bit
    before the first branch. *)
Lemma wft_agree t : forall lo d c, wft lo t ->
  match t with Tip _ => True | Br _ c' _ _ => c < c' end ->
  forall a, a ∈ tips t -> agree (D a) (D (descend d t)) (c + 1).
Proof.
  destruct t as [x|y c' l r]; intros lo d c H Hc a Ha.
  - apply list_elem_of_singleton in Ha as ->. by intros i _.
  - destruct H as (_ & _ & _ & _ & _ & Ag). intros i Hi.
    apply (Ag a (descend d (Br y c' l r))); [done|apply descend_in|lia].
Qed.

Section Insert.
Context (d : list Z) (oh y c : Z) (Hoh : D oh = d) (Hc : 0 <= c < 256).

(** [c] is the first bit in which [d] differs from the key the search found. *)
Definition crit (t : tree) : Prop :=
  agree d (D (descend d t)) c /\ bit d c = negb (bit (D (descend d t)) c).

Lemma ins_tips t : tips (ins d c oh y t) ≡ₚ oh :: tips t.
Proof.
  induction t as [x|y' c' l IHl r IHr]; simpl.
  - case_if; simpl; [constructor|done].
  - repeat case_if; simpl; rewrite ?IHl, ?IHr.
    + by rewrite (Permutation_app_comm _ [oh]).
    + done.
    + rewrite (Permutation_app_comm (tips l)). simpl. by rewrite Permutation_app_comm.
    + done.
Qed.

Lemma ins_ynodes t : ynodes (ins d c oh y t) ≡ₚ y :: ynodes t.
Proof.
  induction t as [x|y' c' l IHl r IHr]; simpl.
  - by case_if.
  - repeat case_if; simpl; rewrite ?IHl, ?IHr, ?app_nil_r; try done.
    + rewrite <- Permutation_middle. constructor.
    + constructor.
Qed.

Lemma here_wft t lo : lo <= c -> wft lo t ->
  match t with Tip _ => True | Br _ c' _ _ => c < c' end -> crit t ->
  wft lo (if bit d c then Br y c t (Tip oh) else Br y c (Tip oh) t).
Proof.
  intros Hlo Hw Hb (Ag & Sp).
  assert (Ht : wft (c + 1) t) by (destruct t; [done|]; simpl in *; destruct Hw; split; [lia|done]).
  pose proof (wft_agree t lo d c Hw Hb) as A.
  assert (Bt : forall a, a ∈ tips t -> bit (D a) c = negb (bit d c)).
  { intros a Ha. rewrite (A a Ha c) by lia. rewrite Sp. by rewrite negb_involutive. }
  assert (At : forall a, a ∈ tips t -> agree (D a) d c).
  { intros a Ha i Hi. rewrite (A a Ha i) by lia. symmetry. by apply Ag. }
  assert (Aa : forall a b, a = oh \/ a ∈ tips t -> b = oh \/ b ∈ tips t -> agree (D a) (D b) c).
  { intros a b [->|Ha] [->|Hb'] i Hi; rewrite ?Hoh; try done.
    - symmetry. by apply At.
    - by apply At.
    - rewrite (At a Ha i), (At b Hb' i) by done. done. }
  destruct (bit d c) eqn:E; simpl; (split_and!; [lia|lia|auto..| |]); try done.
  - intros a ->%list_elem_of_singleton. by rewrite Hoh.
  - intros a b. rewrite !elem_of_app, !list_elem_of_singleton. intros. apply Aa; tauto.
  - intros a ->%list_elem_of_singleton. by rewrite Hoh.
  - intros a b. rewrite !elem_of_cons. intros. apply Aa; tauto.
Qed.

Lemma ins_wft t : forall lo, lo <= c -> wft lo t -> crit t -> wft lo (ins d c oh y t).
Proof.
  induction t as [x|y' c' l IHl r IHr]; intros lo Hlo Hw Hcr.
  - by apply here_wft.
  - cbn [ins]. destruct (Z.ltb_spec c c') as [L|L]; [by apply here_wft|].
    pose proof (descend_in d (Br y' c' l r)) as Hin. destruct Hcr as (Ag & Sp).
    pose proof Hw as (Hc' & Hl & Hr & Bl & Br' & Agt).
    assert (Hne : c' <> c).
    { intros ->. cbn [descend] in Sp. destruct (bit d c) eqn:E.
      - rewrite (Br' (descend d r)) in Sp by apply descend_in. done.
      - rewrite (Bl (descend d l)) in Sp by apply descend_in. done. }
    assert (Ao : forall x, x ∈ tips l ++ tips r -> agree d (D x) c').
    { intros x Hx i Hi. rewrite (Ag i) by lia. by apply (Agt _ x Hin Hx). }
    assert (Aa : forall a b, a = oh \/ a ∈ tips l ++ tips r -> b = oh \/ b ∈ tips l ++ tips r ->
                   agree (D a) (D b) c').
    { intros a b [->|Ha] [->|Hb] i Hi; rewrite ?Hoh; try done.
      - by apply Ao.
      - symmetry. by apply Ao.
      - by apply Agt. }
    cbn [descend] in Ag, Sp. destruct (bit d c') eqn:E; cbn [wft].
    + split_and!; auto; try lia.
      * apply IHr; [lia|done|by split].
      * intros a Ha. rewrite (ins_tips r) in Ha. apply elem_of_cons in Ha as [->|Ha]; [by rewrite Hoh|auto].
      * intros a b. rewrite (ins_tips r), !elem_of_app, !elem_of_cons. intros.
        apply Aa; rewrite elem_of_app; tauto.
    + split_and!; auto; try lia.
      * apply IHl; [lia|done|by split].
      * intros a Ha. rewrite (ins_tips l) in Ha. apply elem_of_cons in Ha as [->|Ha]; [by rewrite Hoh|auto].
      * intros a b. rewrite (ins_tips l), !elem_of_app, !elem_of_cons. intros.
        apply Aa; rewrite elem_of_app; tauto.
Qed.
End Insert.

(** ** Deleting *)

(** The branch that [del] removes. *)
Fixpoint del_node (d : list Z) (a : Z) (t : tree) : Z :=
  match t with
  | Tip _ => 0
  | Br y c l r =>
    if bit d c
    then match r with Tip _ => y | _ => del_node d a r end
    else match l with Tip _ => y | _ => del_node d a l end
  end.

Lemma del_tips_sub d a t x : x ∈ tips (del d a t) -> x ∈ tips t.
Proof.
  induction t as [b|y c l IHl r IHr]; simpl; [done|].
  case_if.
  - destruct r as [b|y2 c2 l2 r2].
    + case_if; simpl; rewrite ?elem_of_app; tauto.
    + simpl in *. rewrite !elem_of_app. rewrite !elem_of_app in IHr. tauto.
  - destruct l as [b|y2 c2 l2 r2].
    + case_if; simpl; rewrite ?elem_of_app, ?elem_of_cons; tauto.
    + simpl in *. rewrite !elem_of_app. rewrite !elem_of_app in IHl. tauto.
Qed.

Lemma del_wft d a t : forall lo, wft lo t -> wft lo (del d a t).
Proof.
  induction t as [b|y c l IHl r IHr]; intros lo H; [done|].
  pose proof H as (Hc & Hl & Hr & Bl & Br' & Ag). cbn [del]. destruct (bit d c).
  - destruct r as [b|y2 c2 l2 r2].
    + case_if; [|done]. eapply wft_weaken; [|exact Hl]. lia.
    + assert (S : forall x, x ∈ tips (del d a (Br y2 c2 l2 r2)) -> x ∈ tips (Br y2 c2 l2 r2))
        by (intros x; apply del_tips_sub).
      cbn [wft]. split_and!; auto; try lia.
      intros x z Hx Hz. apply Ag; rewrite elem_of_app in *; naive_solver.
  - destruct l as [b|y2 c2 l2 r2].
    + case_if; [|done]. eapply wft_weaken; [|exact Hr]. lia.
    + assert (S : forall x, x ∈ tips (del d a (Br y2 c2 l2 r2)) -> x ∈ tips (Br y2 c2 l2 r2))
        by (intros x; apply del_tips_sub).
      cbn [wft]. split_and!; auto; try lia.
      intros x z Hx Hz. apply Ag; rewrite elem_of_app in *; naive_solver.
Qed.

Lemma del_spec d a t : forall lo, wft lo t -> a ∈ tips t -> D a = d -> t <> Tip a ->
  tips t ≡ₚ a :: tips (del d a t) /\ ynodes t ≡ₚ del_node d a t :: ynodes (del d a t).
Proof.
  induction t as [b|y c l IHl r IHr]; intros lo H Ha Hd Hne.
  - apply list_elem_of_singleton in Ha as ->. done.
  - pose proof H as (Hc & Hl & Hr & Bl & Br' & _). cbn [del del_node].
    assert (Hside : if bit d c then a ∈ tips r else a ∈ tips l).
    { apply elem_of_app in Ha as [Ha|Ha].
      - by rewrite <- Hd, (Bl a Ha).
      - by rewrite <- Hd, (Br' a Ha). }
    destruct (bit d c).
    + destruct r as [b|y2 c2 l2 r2].
      * apply list_elem_of_singleton in Hside as ->. rewrite Z.eqb_refl. simpl. split.
        -- by rewrite (Permutation_app_comm _ [b]).
        -- by rewrite app_nil_r.
      * destruct (IHr (c + 1) Hr Hside Hd ltac:(done)) as [E1 E2].
        set (r := Br y2 c2 l2 r2) in *. cbn [tips ynodes]. rewrite E1, E2. split.
        -- by rewrite <- Permutation_middle.
        -- rewrite <- Permutation_middle. constructor.
    + destruct l as [b|y2 c2 l2 r2].
      * apply list_elem_of_singleton in Hside as ->. rewrite Z.eqb_refl. done.
      * destruct (IHl (c + 1) Hl Hside Hd ltac:(done)) as [E1 E2].
        set (l := Br y2 c2 l2 r2) in *. cbn [tips ynodes]. rewrite E1, E2. split; [done|].
        simpl. constructor.
Qed.
End Keys.

(** The shape only depends on the keys of the tips. *)
Lemma wft_ext D D' t : (forall a, a ∈ tips t -> D' a = D a) -> forall lo, wft D lo t -> wft D' lo t.
Proof.
  induction t as [b|y c l IHl r IHr]; intros HD lo H; [done|].
  destruct H as (Hc & Hl & Hr & Bl & Br' & Ag). cbn [tips] in HD.
  assert (H1 : forall a, a ∈ tips l -> D' a = D a) by (intros; apply HD, elem_of_app; auto).
  assert (H2 : forall a, a ∈ tips r -> D' a = D a) by (intros; apply HD, elem_of_app; auto).
  cbn [wft]. split_and!; auto; try lia.
  - intros a Ha. rewrite H1 by done. auto.
  - intros a Ha. rewrite H2 by done. auto.
  - intros a b Ha Hb. rewrite !HD by done. auto.
Qed.
End CritTree.
