(* ===== verification/CritBit.v ===== *)
(** * CritBit: the crit-bit tree of heads

    [bin/varnishd/hash_critbit.c].  A tree pointer is a tagged word: bit 0 marks
    an object head, bit 1 an inner node.  The inner node a head brings along,
    [(void * )&oh->u], lies [OFF_U] bytes into the head, so that a removed head
    may still lend its node to the tree: it is parked on [laylow], and the
    cleaner frees it only when its node has left the tree.

    Inner nodes live in the map [ys] from their addresses; a node nobody has
    written yet is zero.  A place that holds a tree pointer ([uintptr_t *p]) is
    the root or one leaf of a node.  Loops carry fuel; a key has 256 bits and
    every turn goes to a larger one, so 257 is enough. *)
From S2P Require Import Prelude Slinger.
Import Slinger.

Module CritBit.

(** ** [hcb_bittbl] *)

(** [for (; y < (1U << x); y++) hcb_bittbl[y] = 8 - x;] for each [x]. *)
Fixpoint build_inner (fuel : nat) (y x : Z) (tbl : list Z) : Z * list Z :=
  match fuel with
  | O => (y, tbl)
  | S fuel => if y <? Z.shiftl 1 x then build_inner fuel (y + 1) x (<[Z.to_nat y := 8 - x]> tbl)
              else (y, tbl)
  end.

Definition hcb_build_bittbl : list Z :=
  snd (foldl (fun st x => build_inner 256 (fst st) x (snd st)) (0, replicate 256 0)
             [0; 1; 2; 3; 4; 5; 6; 7]).

Definition hcb_bittbl : list Z := Eval vm_compute in hcb_build_bittbl.

Definition hcb_bits (x y : Z) : Z := at_ hcb_bittbl (Z.to_nat (Z.lxor x y)).

(** ** Nodes and pointers *)

Record hcb_y := HcbY { critbit : Z; ptr : Z; bitmask : Z; leaf0 : Z; leaf1 : Z }.

Definition hcb_y0 : hcb_y := HcbY 0 0 0 0 0.

Definition leaf (y : hcb_y) (s : Z) : Z := if s =? 0 then leaf0 y else leaf1 y.
Definition set_leaf (y : hcb_y) (s u : Z) : hcb_y :=
  if s =? 0 then HcbY (critbit y) (ptr y) (bitmask y) u (leaf1 y)
  else HcbY (critbit y) (ptr y) (bitmask y) (leaf0 y) u.

Definition HCB_BIT_NODE : Z := Z.shiftl 1 0.
Definition HCB_BIT_Y : Z := Z.shiftl 1 1.

(** The tree, with the root and the statistics of [struct hcb_root]. *)
Record hcb := Hcb { origo : Z; cmps : Z; ys : gmap Z hcb_y; laylow : list Z }.

Definition hcb_is_node (u : Z) : bool := negb (Z.land u HCB_BIT_NODE =? 0).
Definition hcb_is_y (u : Z) : bool := negb (Z.land u HCB_BIT_Y =? 0).

Definition hcb_r_node (n : Z) : option Z :=
  assert! Z.land n (Z.lor HCB_BIT_NODE HCB_BIT_Y) =? 0 ;;
  Some (Z.lor HCB_BIT_NODE n).

Definition hcb_l_node (u : Z) : option Z :=
  assert! hcb_is_node u ;;
  assert! negb (hcb_is_y u) ;;
  Some (Z.land u (Z.lnot HCB_BIT_NODE)).

Definition hcb_r_y (y : Z) : option Z :=
  assert! Z.land y (Z.lor HCB_BIT_NODE HCB_BIT_Y) =? 0 ;;
  Some (Z.lor HCB_BIT_Y y).

Definition hcb_l_y (u : Z) : option Z :=
  assert! negb (hcb_is_node u) ;;
  assert! hcb_is_y u ;;
  Some (Z.land u (Z.lnot HCB_BIT_Y)).

(** [offsetof(struct objhead, u)] on an LP64 machine. *)
Definition OFF_U : Z := 88.

(** The places that hold a tree pointer. *)
Inductive place := Origo | Leaf (y s : Z).

#[export] Instance place_eq_dec : EqDecision place.
Proof. solve_decision. Defined.

Definition get_y (t : hcb) (y : Z) : hcb_y := default hcb_y0 (ys t !! y).
Definition put_y (t : hcb) (y : Z) (v : hcb_y) : hcb :=
  Hcb (origo t) (cmps t) (<[y := v]> (ys t)) (laylow t).
Definition count_cmp (t : hcb) : hcb := Hcb (origo t) (cmps t + 1) (ys t) (laylow t).

Definition rd (t : hcb) (p : place) : Z :=
  match p with Origo => origo t | Leaf y s => leaf (get_y t y) s end.

Definition wr (t : hcb) (p : place) (u : Z) : hcb :=
  match p with
  | Origo => Hcb u (cmps t) (ys t) (laylow t)
  | Leaf y s => put_y t y (set_leaf (get_y t y) s u)
  end.

(** [s = (oh->digest[y->ptr] & y->bitmask) != 0] *)
Definition branch (d : list Z) (y : hcb_y) : Z :=
  if Z.land (at_ d (Z.to_nat (ptr y))) (bitmask y) =? 0 then 0 else 1.

Fixpoint first_diff (n u : nat) (d1 d2 : list Z) : option nat :=
  match n with
  | O => None
  | S n => if at_ d1 u =? at_ d2 u then first_diff n (S u) d1 d2 else Some u
  end.

(** [hcb_crit_bit(oh1, oh2, y)] into a zeroed node. *)
Definition hcb_crit_bit (d1 d2 : list Z) : option hcb_y :=
  let? u := first_diff DIGEST_LEN 0 d1 d2 in
  let r := hcb_bits (at_ d1 u) (at_ d2 u) in
  Some (HcbY (Z.of_nat u * 8 + r) (Z.of_nat u) (Z.shiftr 0x80 r) 0 0).

(** [while (hcb_is_y(pp))] of [hcb_insert]. *)
Fixpoint walk (fuel : nat) (t : hcb) (p : place) (pp : Z) (d : list Z)
  : option (hcb * place * Z) :=
  match fuel with
  | O => None
  | S fuel =>
    if hcb_is_y pp then
      let? y := hcb_l_y pp in
      let yr := get_y t y in
      assert! ptr yr <? Z.of_nat DIGEST_LEN ;;
      let s := branch d yr in
      let t := count_cmp t in
      walk fuel t (Leaf y s) (rd t (Leaf y s)) d
    else Some (t, p, pp)
  end.

(** [while (hcb_is_y( *p))]: down to where the new node belongs. *)
Fixpoint walk_to (fuel : nat) (t : hcb) (p : place) (d : list Z) (cb : Z) : option (hcb * place) :=
  match fuel with
  | O => None
  | S fuel =>
    if hcb_is_y (rd t p) then
      let? y := hcb_l_y (rd t p) in
      let yr := get_y t y in
      if cb <? critbit yr then Some (t, p)
      else
        assert! ptr yr <? Z.of_nat DIGEST_LEN ;;
        walk_to fuel (count_cmp t) (Leaf y (branch d yr)) d cb
    else Some (t, p)
  end.

Definition FUEL : nat := 257.

(** [hcb_insert(root, oh, has_lock)]; 0 is NULL. *)
Definition hcb_insert (h : heap) (t : hcb) (oh : Z) (has_lock : bool) : option (Z * hcb) :=
  let? o := h !! oh in
  let d := digest o in
  let pp := rd t Origo in
  if pp =? 0 then
    if negb has_lock then Some (0, t)
    else let? u := hcb_r_node oh in Some (oh, wr t Origo u)
  else
    let? (t, p, pp) := walk FUEL t Origo pp d in
    assert! hcb_is_node pp ;;
    let? oh2 := hcb_l_node pp in
    let? o2 := h !! oh2 in
    match memcmp (digest o2) d with
    | Eq => Some (oh2, t)
    | _ =>
      if negb has_lock then Some (0, t)
      else
        let y2 := oh + OFF_U in
        let? oh3 := hcb_l_node (rd t p) in
        let? o3 := h !! oh3 in
        let? v := hcb_crit_bit d (digest o3) in
        let s2 := branch d v in
        let? u := hcb_r_node oh in
        let t := put_y t y2 (set_leaf v s2 u) in
        assert! negb (rd t Origo =? 0) ;;
        let? (t, p) := walk_to FUEL t Origo d (critbit v) in
        let t := put_y t y2 (set_leaf (get_y t y2) (1 - s2) (rd t p)) in
        let? w := hcb_r_y y2 in
        Some (oh, wr t p w)
    end.

Fixpoint delete_loop (fuel : nat) (t : hcb) (p : place) (d : list Z) (node : Z) : option hcb :=
  match fuel with
  | O => None
  | S fuel =>
    assert! hcb_is_y (rd t p) ;;
    let? y := hcb_l_y (rd t p) in
    let yr := get_y t y in
    assert! ptr yr <? Z.of_nat DIGEST_LEN ;;
    let s := branch d yr in
    if leaf yr s =? node then
      let t := wr t p (leaf yr (1 - s)) in
      let t := put_y t y (set_leaf (get_y t y) 0 0) in
      Some (put_y t y (set_leaf (get_y t y) 1 0))
    else delete_loop fuel (count_cmp t) (Leaf y s) d node
  end.

Definition hcb_delete (h : heap) (t : hcb) (oh : Z) : option hcb :=
  let? o := h !! oh in
  let? node := hcb_r_node oh in
  if origo t =? node then Some (wr t Origo 0)
  else
    assert! hcb_is_y (origo t) ;;
    delete_loop FUEL t Origo (digest o) node.

(** The heads [dumptree] visits. *)
Fixpoint dumptree (fuel : nat) (t : hcb) (p : Z) : list Z :=
  match fuel with
  | O => []
  | S fuel =>
    if p =? 0 then []
    else if hcb_is_node p then option_list (hcb_l_node p)
    else match hcb_l_y p with
         | Some y => dumptree fuel t (leaf0 (get_y t y)) ++ dumptree fuel t (leaf1 (get_y t y))
         | None => []
         end
  end.

Definition COOL_DURATION : Z := 60.

(** [HSH_DeleteObjHead]: the memory of the head and of the node in it is gone. *)
Definition HSH_DeleteObjHead (h : heap) (t : hcb) (oh : Z) : option (heap * hcb) :=
  let? o := h !! oh in
  assert! refcnt o =? 0 ;;
  assert! bool_decide (objcs o = []) ;;
  Some (delete oh h, Hcb (origo t) (cmps t) (delete (oh + OFF_U) (ys t)) (laylow t)).

(** One pass of [hcb_cleaner] over [laylow]; what it keeps is rebuilt in [kept]. *)
Fixpoint clean_pass (h : heap) (t : hcb) (todo kept : list Z) : option (heap * hcb) :=
  match todo with
  | [] => Some (h, Hcb (origo t) (cmps t) (ys t) kept)
  | oh :: todo =>
    let? o := h !! oh in
    assert! refcnt o =? 0 ;;
    let y := get_y t (oh + OFF_U) in
    if negb (leaf0 y =? 0) || negb (leaf1 y =? 0) then clean_pass h t todo (kept ++ [oh])
    else
      let c := u8 (at_ (digest o) 0 + 1) in
      let o := set_digest o (<[0%nat := c]> (digest o)) in
      let h := <[oh := o]> h in
      if COOL_DURATION <? c then
        let? (h, t) := HSH_DeleteObjHead h t oh in
        clean_pass h t todo kept
      else clean_pass h t todo (kept ++ [oh])
  end.

Definition hcb_cleaner (h : heap) (t : hcb) : option (heap * hcb) := clean_pass h t (laylow t) [].

Definition hcb_start : hcb := Hcb 0 0 ∅ [].

Definition hcb_deref (h : heap) (t : hcb) (oh : Z) : option (Z * heap * hcb) :=
  let r := 1 in
  let? o := h !! oh in
  assert! 0 <? refcnt o ;;
  if refcnt o =? 1 then
    let? t := hcb_delete h t oh in
    assert! bool_decide (objcs o = []) ;;
    assert! bool_decide (waitinglist o = []) ;;
    let o := set_digest o (<[0%nat := 0]> (digest o)) in
    let t := Hcb (origo t) (cmps t) (ys t) (laylow t ++ [oh]) in
    Some (r, <[oh := set_refcnt o (refcnt o - 1)]> h, t)
  else Some (r, <[oh := set_refcnt o (refcnt o - 1)]> h, t).

Definition hcb_lookup (h : heap) (t : hcb) (noh : Z) : option (Z * heap * hcb) :=
  let? (oh, t) := hcb_insert h t noh false in
  let locked t :=
    let? no := h !! noh in
    assert! refcnt no =? 1 ;;
    let? (oh, t) := hcb_insert h t noh true in
    let? o := h !! oh in
    assert! 0 <? refcnt o ;;
    if oh =? noh then Some (oh, h, t)
    else Some (oh, <[oh := set_refcnt o (refcnt o + 1)]> h, t) in
  if negb (oh =? 0) then
    assert! negb (oh =? noh) ;;
    let? o := h !! oh in
    if negb (refcnt o =? 0) then Some (oh, <[oh := set_refcnt o (refcnt o + 1)]> h, t)
    else locked t
  else locked t.

End CritBit.
