(* ===== verification/CritBitSpec.v ===== *)
(** * CritBitSpec: the crit-bit tree implements the hash table contract

    [rep] reads the tagged pointers of [CritBit] as a tree of [CritTree].  The
    loops of [hcb_insert] and [hcb_delete] follow the search path, their
    updates in place are the insertion and deletion of the tree, and the heads
    parked on [laylow] are exactly those whose nodes the tree may still use. *)
From S2P Require Import Prelude Slinger SimpleList CritTree CritBit.
Import Slinger CritTree CritBit.
Notation dig := SimpleList.dig.

Module CritBitSpec.

(** ** Tags *)

Lemma low_bits a : Z.land a 3 = 0 -> Z.testbit a 0 = false /\ Z.testbit a 1 = false.
Proof.
  intros H. assert (B : forall k, Z.testbit (Z.land a 3) k = false) by (intros; by rewrite H, Z.bits_0).
  pose proof (B 0) as B0. pose proof (B 1) as B1. rewrite Z.land_spec in B0, B1.
  change (Z.testbit 3 0) with true in B0. change (Z.testbit 3 1) with true in B1.
  by rewrite andb_true_r in B0, B1.
Qed.

Lemma is_node_bit u : hcb_is_node u = Z.testbit u 0.
Proof. apply (bit_testbit u 0). lia. Qed.

Lemma is_y_bit u : hcb_is_y u = Z.testbit u 1.
Proof. apply (bit_testbit u 1). lia. Qed.

Definition nodew (a : Z) : Z := Z.lor HCB_BIT_NODE a.
Definition yw (y : Z) : Z := Z.lor HCB_BIT_Y y.

Lemma untag m a : (m = 1 \/ m = 2) -> Z.land a 3 = 0 -> Z.land (Z.lor m a) (Z.lnot m) = a.
Proof.
  intros Hm Ha. destruct (low_bits a Ha) as [A0 A1]. apply Z.bits_inj'. intros k Hk.
  rewrite Z.land_spec, Z.lor_spec, Z.lnot_spec by done.
  assert (k = 0 \/ k = 1 \/ 2 <= k) as [->|[->|H2]] by lia.
  - rewrite A0. by destruct Hm as [->| ->].
  - rewrite A1. by destruct Hm as [->| ->].
  - assert (Z.testbit m k = false) as ->; [|by rewrite andb_true_r].
    destruct Hm as [->| ->]; (apply Z.bits_above_log2; [lia|]).
    + change (Z.log2 1) with 0. lia.
    + change (Z.log2 2) with 1. lia.
Qed.

Section Tags.
Context (a : Z) (Ha : Z.land a 3 = 0).

Lemma r_node_ok : hcb_r_node a = Some (nodew a).
Proof. unfold hcb_r_node. change (Z.lor HCB_BIT_NODE HCB_BIT_Y) with 3. by rewrite Ha. Qed.

Lemma r_y_ok : hcb_r_y a = Some (yw a).
Proof. unfold hcb_r_y. change (Z.lor HCB_BIT_NODE HCB_BIT_Y) with 3. by rewrite Ha. Qed.

Lemma node_tags : hcb_is_node (nodew a) = true /\ hcb_is_y (nodew a) = false.
Proof.
  destruct (low_bits a Ha) as [A0 A1]. rewrite is_node_bit, is_y_bit. unfold nodew.
  rewrite !Z.lor_spec, A0, A1. done.
Qed.

Lemma y_tags : hcb_is_node (yw a) = false /\ hcb_is_y (yw a) = true.
Proof.
  destruct (low_bits a Ha) as [A0 A1]. rewrite is_node_bit, is_y_bit. unfold yw.
  rewrite !Z.lor_spec, A0, A1. done.
Qed.

Lemma l_node_ok : hcb_l_node (nodew a) = Some a.
Proof.
  unfold hcb_l_node. destruct node_tags as [-> ->]. simpl. unfold nodew.
  rewrite untag; [done|by left|done].
Qed.

Lemma l_y_ok : hcb_l_y (yw a) = Some a.
Proof.
  unfold hcb_l_y. destruct y_tags as [-> ->]. simpl. unfold yw.
  rewrite untag; [done|by right|done].
Qed.
End Tags.

Lemma nodew_inj a b : Z.land a 3 = 0 -> Z.land b 3 = 0 -> nodew a = nodew b -> a = b.
Proof. intros Ha Hb E. pose proof (l_node_ok a Ha) as H. rewrite E, l_node_ok in H by done. congruence. Qed.

Lemma word_nonzero a : Z.land a 3 = 0 -> nodew a <> 0 /\ yw a <> 0.
Proof.
  intros Ha. split; intros E.
  - destruct (node_tags a Ha) as [H _]. by rewrite E in H.
  - destruct (y_tags a Ha) as [_ H]. by rewrite E in H.
Qed.

(** ** What the pointers stand for *)

Definition tests (v : hcb_y) (c : Z) : Prop :=
  critbit v = c /\ ptr v = c / 8 /\ bitmask v = Z.shiftr 0x80 (c mod 8).

Fixpoint rep (m : gmap Z hcb_y) (u : Z) (t : tree) : Prop :=
  match t with
  | Tip a => u = nodew a /\ Z.land a 3 = 0
  | Br y c l r => u = yw y /\ Z.land y 3 = 0 /\
      exists v, m !! y = Some v /\ tests v c /\ rep m (leaf0 v) l /\ rep m (leaf1 v) r
  end.

(** The node tests exactly its critical bit. *)
Lemma branch_bit d v c : tests v c -> 0 <= c -> branch d v = if bit d c then 1 else 0.
Proof.
  intros (_ & Hp & Hb) Hc. unfold branch, bit. rewrite Hp, Hb.
  assert (Hm : 0 <= c mod 8 < 8) by (apply Z.mod_pos_bound; lia).
  replace (Z.shiftr 128 (c mod 8)) with (Z.shiftl 1 (7 - c mod 8)).
  - pose proof (bit_testbit (at_ d (Z.to_nat (c / 8))) (7 - c mod 8) ltac:(lia)) as H.
    rewrite <- H. by destruct (_ =? 0).
  - change 128 with (Z.shiftl 1 7). rewrite Z.shiftr_shiftl_l by lia. done.
Qed.

Lemma rep_frame m m' t : forall u, (forall y, y ∈ ynodes t -> m' !! y = m !! y) -> rep m u t -> rep m' u t.
Proof.
  induction t as [a|y c l IHl r IHr]; intros u Hm H; [done|].
  destruct H as (Hu & Hy & v & Hv & Ht & Hl & Hr). cbn [ynodes] in Hm.
  split; [done|]. split; [done|]. exists v. split_and!; auto.
  - rewrite Hm; [done|left].
  - apply IHl; [|done]. intros z Hz. apply Hm. right. apply elem_of_app. by left.
  - apply IHr; [|done]. intros z Hz. apply Hm. right. apply elem_of_app. by right.
Qed.

(** The same tree in memory; only the comparison counter may differ. *)
Definition same (t t' : hcb) : Prop :=
  origo t' = origo t /\ ys t' = ys t /\ laylow t' = laylow t.

Lemma same_refl t : same t t.
Proof. done. Qed.

Lemma same_trans a b c : same a b -> same b c -> same a c.
Proof. intros (A & B & C) (E & F & G). split_and!; congruence. Qed.

Lemma same_count t : same t (count_cmp t).
Proof. done. Qed.

Lemma same_rd t t' p : same t t' -> rd t' p = rd t p.
Proof. intros (A & B & C). destruct p; simpl; [done|]. unfold get_y. by rewrite B. Qed.

Lemma get_y_at t y v : ys t !! y = Some v -> get_y t y = v.
Proof. intros H. unfold get_y. by rewrite H. Qed.

Lemma tests_ptr v c : tests v c -> 0 <= c < 256 -> ptr v <? Z.of_nat DIGEST_LEN = true.
Proof.
  intros (_ & -> & _) Hc. unfold DIGEST_LEN. apply Z.ltb_lt. Z.div_mod_to_equations. lia.
Qed.

Lemma leaf_rep m v l r d c : rep m (leaf0 v) l -> rep m (leaf1 v) r -> tests v c -> 0 <= c ->
  rep m (leaf v (branch d v)) (if bit d c then r else l).
Proof. intros Hl Hr Ht Hc. rewrite (branch_bit d v c Ht Hc). by destruct (bit d c). Qed.

Section Keys.
Context (D : Z -> list Z).

(** The search loop ends at the tip the tree search finds. *)
Lemma walk_rep d t : forall fuel T p u lo,
  rep (ys T) u t -> wft D lo t -> 0 <= lo -> (depth t <= fuel)%nat -> rd T p = u ->
  exists T' q, walk fuel T p u d = Some (T', q, nodew (descend d t)) /\ same T T' /\
    rd T' q = nodew (descend d t) /\ Z.land (descend d t) 3 = 0.
Proof.
  induction t as [a|y c l IHl r IHr]; intros fuel T p u lo Hrep Hw Hlo Hf Hp;
    (destruct fuel as [|fuel]; [simpl in Hf; lia|]); cbn [walk].
  - destruct Hrep as [-> Ha]. destruct (node_tags a Ha) as [_ ->]. exists T, p. by split_and!.
  - destruct Hrep as (-> & Hy & v & Hv & Ht & Hl & Hr). destruct Hw as (Hc & Wl & Wr & _).
    destruct (y_tags y Hy) as [_ ->]. rewrite (l_y_ok y Hy), (get_y_at _ _ _ Hv).
    rewrite (tests_ptr v c Ht) by lia. cbn [depth] in Hf.
    assert (Erd : rd (count_cmp T) (Leaf y (branch d v)) = leaf v (branch d v))
      by (simpl; unfold get_y; simpl; by rewrite Hv).
    pose proof (leaf_rep (ys T) v l r d c Hl Hr Ht ltac:(lia)) as Hs.
    rewrite Erd. cbn [descend]. destruct (bit d c).
    + destruct (IHr fuel (count_cmp T) (Leaf y (branch d v)) _ _ Hs Wr ltac:(lia) ltac:(lia) Erd)
        as (T' & q & E & S & R). exists T', q. by rewrite E.
    + destruct (IHl fuel (count_cmp T) (Leaf y (branch d v)) _ _ Hs Wl ltac:(lia) ltac:(lia) Erd)
        as (T' & q & E & S & R). exists T', q. by rewrite E.
Qed.
End Keys.

(** ** The critical bit *)

Definition key (d : list Z) : Prop := length d = DIGEST_LEN /\ Forall (fun c => 0 <= c < 256) d.

Lemma bittbl_spec z : (0 < z < 256)%nat ->
  let r := at_ hcb_bittbl z in
  0 <= r < 8 /\ Z.testbit (Z.of_nat z) (7 - r) = true /\
  forall j, 0 <= j < r -> Z.testbit (Z.of_nat z) (7 - j) = false.
Proof.
  intros Hz. assert (H : forall z, (z < 256)%nat ->
    (if (z =? 0)%nat then true else
     let r := at_ hcb_bittbl z in (0 <=? r) && (r <? 8) && Z.testbit (Z.of_nat z) (7 - r) &&
     forallb (fun j => if Z.of_nat j <? r then negb (Z.testbit (Z.of_nat z) (7 - Z.of_nat j)) else true)
             (seq 0 8)) = true)
    by (apply (forall_below (fun z => _)); vm_compute; reflexivity).
  specialize (H z ltac:(lia)). replace (z =? 0)%nat with false in H by (symmetry; apply Nat.eqb_neq; lia).
  cbv zeta in *. set (r := at_ hcb_bittbl z) in *. bool_prop. split; [lia|]. split; [done|].
  intros j Hj. match goal with K : forallb _ _ = true |- _ => rename K into HA end.
  rewrite forallb_forall in HA. specialize (HA (Z.to_nat j)).
  rewrite Z2Nat.id in HA by lia. replace (j <? r) with true in HA by lia.
  apply negb_true_iff, HA, in_seq. lia.
Qed.

Lemma first_diff_spec n : forall u d1 d2,
  match first_diff n u d1 d2 with
  | Some k => (u <= k < u + n)%nat /\ at_ d1 k <> at_ d2 k /\
              forall i, (u <= i < k)%nat -> at_ d1 i = at_ d2 i
  | None => forall i, (u <= i < u + n)%nat -> at_ d1 i = at_ d2 i
  end.
Proof.
  induction n as [|n IH]; intros u d1 d2; cbn [first_diff]; [intros; lia|].
  destruct (Z.eqb_spec (at_ d1 u) (at_ d2 u)) as [E|E].
  - specialize (IH (S u) d1 d2). destruct (first_diff n (S u) d1 d2) as [k|].
    + destruct IH as (A & B & C). split; [lia|]. split; [done|]. intros i Hi.
      destruct (decide (i = u)) as [->|]; [done|]. apply C. lia.
    + intros i Hi. destruct (decide (i = u)) as [->|]; [done|]. apply IH. lia.
  - split; [lia|]. split; [done|]. intros; lia.
Qed.

Lemma key_byte d u : key d -> (u < DIGEST_LEN)%nat -> 0 <= at_ d u < 256.
Proof. intros [L F] H. apply (Forall_at (fun c => 0 <= c < 256)); [done|lia]. Qed.

Lemma crit_bit_spec d1 d2 : key d1 -> key d2 -> d1 <> d2 ->
  exists v c, hcb_crit_bit d1 d2 = Some v /\ tests v c /\ leaf0 v = 0 /\ leaf1 v = 0 /\
    0 <= c < 256 /\ agree d1 d2 c /\ bit d1 c = negb (bit d2 c).
Proof.
  intros K1 K2 Hne. unfold hcb_crit_bit. pose proof (first_diff_spec DIGEST_LEN 0 d1 d2) as F.
  destruct (first_diff DIGEST_LEN 0 d1 d2) as [u|].
  2:{ destruct Hne. destruct K1 as [L1 _], K2 as [L2 _]. rewrite <- (map_at d1), <- (map_at d2), L1, L2.
      apply map_ext_in. intros i Hi%in_seq. apply F. lia. }
  destruct F as (Hu & Hd & Hb). unfold DIGEST_LEN in Hu.
  pose proof (key_byte d1 u K1 ltac:(unfold DIGEST_LEN; lia)) as B1.
  pose proof (key_byte d2 u K2 ltac:(unfold DIGEST_LEN; lia)) as B2.
  set (z := Z.lxor (at_ d1 u) (at_ d2 u)).
  assert (Hz : 0 < z < 256).
  { assert (0 <= z) by (apply Z.lxor_nonneg; lia). assert (z <> 0) by (subst z; by rewrite Z.lxor_eq_0_iff).
    split; [lia|]. destruct (Z.lt_ge_cases z 256) as [|G]; [done|].
    assert (L : 8 <= Z.log2 z) by (apply Z.log2_le_pow2; lia).
    pose proof (Z.bit_log2 z ltac:(lia)) as T. subst z. rewrite Z.lxor_spec in T.
    assert (X : forall x, 0 <= x < 256 -> forall k, 8 <= k -> Z.testbit x k = false).
    { intros x Hx k Hk. rewrite <- (Z.mod_small x (2 ^ 8)) by lia. apply Z.mod_pow2_bits_high. lia. }
    by rewrite !X in T by done. }
  destruct (bittbl_spec (Z.to_nat z) ltac:(lia)) as (Hr & Ht & Hj). cbv zeta in *.
  rewrite Z2Nat.id in Ht, Hj by lia. unfold hcb_bits. fold z.
  set (r := at_ hcb_bittbl (Z.to_nat z)) in *.
  set (c := Z.of_nat u * 8 + r).
  assert (Ec : c / 8 = Z.of_nat u /\ c mod 8 = r) by (subst c; Z.div_mod_to_equations; lia).
  destruct Ec as [E1 E2].
  exists (HcbY c (Z.of_nat u) (Z.shiftr 0x80 r) 0 0), c. split; [done|]. split.
  { unfold tests. cbn [critbit ptr bitmask]. by rewrite E1, E2. }
  split; [done|]. split; [done|]. split; [lia|].
  subst z. split.
  - intros i Hi. unfold bit.
    destruct (Z.lt_ge_cases (i / 8) (Z.of_nat u)) as [L|L].
    + rewrite Hb; [done|]. assert (0 <= i / 8) by (Z.div_mod_to_equations; lia). lia.
    + assert (Ei : i / 8 = Z.of_nat u) by (Z.div_mod_to_equations; lia).
      rewrite Ei, Nat2Z.id. specialize (Hj (i mod 8)). rewrite Z.lxor_spec in Hj.
      apply xorb_eq, Hj. Z.div_mod_to_equations. lia.
  - unfold bit. rewrite E1, E2, Nat2Z.id. rewrite Z.lxor_spec in Ht.
    by destruct (Z.testbit (at_ d1 u) (7 - r)), (Z.testbit (at_ d2 u) (7 - r)).
Qed.

(** ** Updates in place *)

(** The map after a store to a place. *)
Definition wrm (m : gmap Z hcb_y) (q : place) (w : Z) : gmap Z hcb_y :=
  match q with
  | Origo => m
  | Leaf y s => <[y := set_leaf (default hcb_y0 (m !! y)) s w]> m
  end.

Definition outside (q : place) (l : list Z) : Prop :=
  match q with Origo => True | Leaf y _ => y ∉ l end.

Lemma wrm_out m q w y : outside q [y] -> wrm m q w !! y = m !! y.
Proof.
  destruct q as [|z s]; simpl; [done|]. intros H. apply lookup_insert_ne.
  intros ->. apply H. left.
Qed.

Lemma outside_one q l y : outside q l -> y ∈ l -> outside q [y].
Proof. destruct q as [|z s]; simpl; [done|]. intros H Hy ->%list_elem_of_singleton. done. Qed.

Lemma outside_sub q l l' : outside q l -> (forall y, y ∈ l' -> y ∈ l) -> outside q l'.
Proof. destruct q; simpl; auto. Qed.

(** A place in the subtree: the one it hangs from, or a leaf of one of its nodes. *)
Definition within (q p : place) (l : list Z) : Prop :=
  q = p \/ exists y s, q = Leaf y s /\ y ∈ l.

Lemma within_outside q p l l' : within q p l -> outside p l' -> (forall y, y ∈ l -> y ∉ l') -> outside q l'.
Proof. intros [->|(y & s & -> & Hy)] Ho Hd; [done|]. simpl. auto. Qed.

Lemma leaf_set_same v s w : (s = 0 \/ s = 1) -> leaf (set_leaf v s w) s = w /\
  leaf (set_leaf v s w) (1 - s) = leaf v (1 - s) /\ forall c, tests v c -> tests (set_leaf v s w) c.
Proof. intros [->| ->]; done. Qed.

Lemma branch_01 d v : branch d v = 0 \/ branch d v = 1.
Proof. unfold branch. case_if; auto. Qed.

(** The inner node the insertion adds. *)
Definition new_node (v : hcb_y) (d : list Z) (c oh uq : Z) : Prop :=
  tests v c /\ if bit d c then leaf1 v = nodew oh /\ leaf0 v = uq else leaf0 v = nodew oh /\ leaf1 v = uq.

(** A branch whose child on the side of [d] is replaced. *)
Lemma rep_side m v l r d c y X :
  Z.land y 3 = 0 -> m !! y = Some v -> tests v c -> 0 <= c ->
  rep m (leaf v (branch d v)) X -> rep m (leaf v (1 - branch d v)) (if bit d c then l else r) ->
  rep m (yw y) (if bit d c then Br y c l X else Br y c X r).
Proof.
  intros Hy Hv Ht Hc H1 H2. rewrite (branch_bit d v c Ht Hc) in H1, H2.
  destruct (bit d c); (split; [done|]; split; [done|]; exists v; by split_and!).
Qed.

Lemma ins_side d c oh y2 y c' l r : (c <? c') = false ->
  ins d c oh y2 (Br y c' l r) =
  if bit d c' then Br y c' l (ins d c oh y2 (if bit d c' then r else l))
  else Br y c' (ins d c oh y2 (if bit d c' then r else l)) r.
Proof. intros H. cbn [ins]. rewrite H. by destruct (bit d c'). Qed.

Section Keys2.
Context (D : Z -> list Z).

(** What holds of the child a loop goes to. *)
Lemma child_facts T d y c l r v lo :
  rep (ys T) (yw y) (Br y c l r) -> wft D lo (Br y c l r) -> NoDup (y :: ynodes l ++ ynodes r) ->
  0 <= lo -> ys T !! y = Some v ->
  let X := if bit d c then r else l in
  let O := if bit d c then l else r in
  tests v c /\ 0 <= c < 256 /\ rep (ys T) (leaf v (branch d v)) X /\
  rep (ys T) (leaf v (1 - branch d v)) O /\ wft D (c + 1) X /\ NoDup (ynodes X) /\
  y ∉ ynodes X /\ y ∉ ynodes O /\ (forall z, z ∈ ynodes X -> z ∉ ynodes O) /\
  (forall z, z ∈ ynodes X \/ z ∈ ynodes O -> z ∈ ynodes (Br y c l r)) /\
  (depth X < depth (Br y c l r))%nat.
Proof.
  intros (_ & Hy & v' & Hv & Ht & Hl & Hr) (Hc & Wl & Wr & _) Hnd Hlo Hv' X O.
  assert (v' = v) as -> by congruence.
  apply NoDup_cons in Hnd as [N1 (N2 & N3 & N4)%NoDup_app].
  rewrite elem_of_app in N1. rewrite (branch_bit d v c Ht ltac:(lia)).
  subst X O. cbn [ynodes depth].
  destruct (bit d c); split_and!; auto; try lia; try tauto.
  - intros z Hz Hz'. by apply (N3 z).
  - intros z. rewrite elem_of_cons, elem_of_app. tauto.
  - intros z. rewrite elem_of_cons, elem_of_app. tauto.
Qed.

Lemma walk_to_rep d c t : forall fuel T p u lo,
  rep (ys T) u t -> wft D lo t -> 0 <= lo -> (depth t <= fuel)%nat -> rd T p = u ->
  NoDup (ynodes t) -> outside p (ynodes t) ->
  exists T' q, walk_to fuel T p d c = Some (T', q) /\ same T T' /\ within q p (ynodes t) /\
  forall mf y2 v2 oh, y2 ∉ ynodes t -> Z.land y2 3 = 0 -> Z.land oh 3 = 0 ->
    new_node v2 d c oh (rd T q) -> mf !! y2 = Some v2 ->
    (forall y, y ∈ ynodes t -> mf !! y = wrm (ys T) q (yw y2) !! y) ->
    rep mf (if decide (q = p) then yw y2 else u) (ins d c oh y2 t).
Proof.
  assert (Here : forall T p u t mf y2 v2 oh, rep (ys T) u t -> rd T p = u -> outside p (ynodes t) ->
    Z.land y2 3 = 0 -> Z.land oh 3 = 0 -> new_node v2 d c oh (rd T p) -> mf !! y2 = Some v2 ->
    (forall y, y ∈ ynodes t -> mf !! y = wrm (ys T) p (yw y2) !! y) ->
    rep mf (yw y2) (if bit d c then Br y2 c t (Tip oh) else Br y2 c (Tip oh) t)).
  { intros T p u t0 mf y2 v2 oh Hr Hp Ho Hy2 Hoh [Ht Hn] Hv2 Hmf.
    assert (R : rep mf u t0).
    { eapply rep_frame; [|exact Hr]. intros y Hy. rewrite (Hmf y Hy).
      apply wrm_out. by eapply outside_one. }
    rewrite Hp in Hn.
    destruct (bit d c); destruct Hn as [-> ->] || destruct Hn as [E1 E2];
      (split; [done|]; split; [done|]; exists v2; rewrite ?E1, ?E2; by split_and!). }
  induction t as [a|y c' l IHl r IHr]; intros fuel T p u lo Hrep Hw Hlo Hf Hp Hnd Ho;
    (destruct fuel as [|fuel]; [simpl in Hf; lia|]); cbn [walk_to]; rewrite Hp.
  - pose proof Hrep as [-> Ha]. destruct (node_tags a Ha) as [_ ->].
    exists T, p. split; [done|]. split; [done|]. split; [by left|].
    intros mf y2 v2 oh _ Hy2 Hoh Hn Hv2 Hmf. rewrite decide_True by done.
    by eapply Here.
  - pose proof Hrep as (-> & Hy & v & Hv & Ht & _).
    destruct (y_tags y Hy) as [_ ->]. rewrite (l_y_ok y Hy), (get_y_at _ _ _ Hv).
    pose proof Ht as (Ecb & _). rewrite Ecb. destruct (c <? c') eqn:L.
    + exists T, p. split; [done|]. split; [done|]. split; [by left|].
      intros mf y2 v2 oh _ Hy2 Hoh Hn Hv2 Hmf. rewrite decide_True by done.
      cbn [ins]. rewrite L. by eapply Here.
    + destruct (child_facts T d y c' l r v lo Hrep Hw Hnd Hlo Hv)
        as (_ & Hc & HX & HO & WX & NX & YX & YO & XO & Sub & Dep).
      set (X := if bit d c' then r else l) in *. set (O := if bit d c' then l else r) in *.
      rewrite (tests_ptr v c' Ht Hc).
      assert (IH : forall fuel T p u lo, rep (ys T) u X -> wft D lo X -> 0 <= lo ->
        (depth X <= fuel)%nat -> rd T p = u -> NoDup (ynodes X) -> outside p (ynodes X) ->
        exists T' q, walk_to fuel T p d c = Some (T', q) /\ same T T' /\ within q p (ynodes X) /\
        forall mf y2 v2 oh, y2 ∉ ynodes X -> Z.land y2 3 = 0 -> Z.land oh 3 = 0 ->
          new_node v2 d c oh (rd T q) -> mf !! y2 = Some v2 ->
          (forall y, y ∈ ynodes X -> mf !! y = wrm (ys T) q (yw y2) !! y) ->
          rep mf (if decide (q = p) then yw y2 else u) (ins d c oh y2 X))
        by (subst X; destruct (bit d c'); assumption).
      assert (Erd : rd (count_cmp T) (Leaf y (branch d v)) = leaf v (branch d v))
        by (simpl; unfold get_y; simpl; by rewrite Hv).
      destruct (IH fuel (count_cmp T) (Leaf y (branch d v)) _ (c' + 1) HX WX ltac:(lia) ltac:(lia)
                  Erd NX YX) as (T' & q & E & S & Win & Post).
      exists T', q. split; [done|]. split; [done|].
      assert (Wy : exists yq sq, q = Leaf yq sq /\ (yq = y \/ yq ∈ ynodes X))
        by (destruct Win as [->|(yq & sq & -> & ?)]; eauto 10).
      destruct Wy as (yq & sq & Eq & Hyq).
      assert (Hyt : yq ∈ ynodes (Br y c' l r)) by (destruct Hyq as [->|]; [left|apply Sub; by left]).
      split; [right; exists yq, sq; by split|].
      intros mf y2 v2 oh Hy2 Hl2 Hoh Hn Hv2 Hmf.
      rewrite decide_False by (intros ->; subst p; by apply Ho).
      assert (Hy2y : y2 <> y) by (intros ->; apply Hy2; left).
      specialize (Post mf y2 v2 oh ltac:(intros H; apply Hy2, Sub; by left) Hl2 Hoh Hn Hv2
                    ltac:(intros z Hz; apply Hmf, Sub; by left)).
      assert (HOf : rep mf (leaf v (1 - branch d v)) O).
      { eapply rep_frame; [|exact HO]. intros z Hz. rewrite Hmf by (apply Sub; by right).
        apply wrm_out. subst q. simpl. intros ->%list_elem_of_singleton.
        destruct Hyq as [->|Hq]; [done|by apply (XO z)]. }
      rewrite ins_side by done. fold X. destruct (branch_01 d v) as [Hb|Hb];
        pose proof (leaf_set_same v (branch d v) (yw y2) (branch_01 d v)) as (La & Lb & Lt);
        assert (Hmy : mf !! y = Some (if decide (q = Leaf y (branch d v))
                 then set_leaf v (branch d v) (yw y2) else v))
        by (rewrite Hmf by left; destruct (decide (q = Leaf y (branch d v))) as [->|N];
            [simpl; by rewrite Hv, lookup_insert_eq|];
            rewrite wrm_out; [done|]; destruct Win as [|(z & s & -> & Hz)]; [done|];
            simpl; intros ->%list_elem_of_singleton; done).
      all: eapply (rep_side mf _ l r d c' y); [done|exact Hmy|case_decide; auto|lia| |].
      all: destruct (decide (q = Leaf y (branch d v))) as [Q|Q]; [|done].
      all: assert (Eb : branch d (set_leaf v (branch d v) (yw y2)) = branch d v)
             by (rewrite !(branch_bit d _ c') by (auto; lia); done).
      all: rewrite Eb, ?La, ?Lb; done.
Qed.

(** The outcome of the deletion loop entered at place [p], which held [u]. *)
Definition deleted (T T' : hcb) (p : place) (u : Z) (d : list Z) (a : Z) (t : tree) : Prop :=
  let z := del_node d a t in
  exists q w,
    origo T' = match q with Origo => w | _ => origo T end /\ laylow T' = laylow T /\
    (exists v0, ys T' !! z = Some v0 /\ leaf0 v0 = 0 /\ leaf1 v0 = 0) /\
    (forall y, y <> z -> ys T' !! y = wrm (ys T) q w !! y) /\
    within q p (ynodes t) /\ outside q [z] /\ z ∈ ynodes t /\
    rep (ys T') (if decide (q = p) then w else u) (del d a t).

Lemma del_side d a y c l r :
  let X := if bit d c then r else l in
  let O := if bit d c then l else r in
  match X with
  | Tip b => if b =? a then del d a (Br y c l r) = O /\ del_node d a (Br y c l r) = y else True
  | _ => del d a (Br y c l r) = (if bit d c then Br y c l (del d a X) else Br y c (del d a X) r) /\
         del_node d a (Br y c l r) = del_node d a X
  end.
Proof.
  cbn [del del_node]. destruct (bit d c); [destruct r|destruct l]; try done; by case_if.
Qed.

Lemma tip_side a d y c l r lo : wft D lo (Br y c l r) -> a ∈ tips (Br y c l r) -> D a = d ->
  a ∈ tips (if bit d c then r else l).
Proof.
  intros (_ & _ & _ & Bl & Br' & _) Ha Hd. apply elem_of_app in Ha as [Ha|Ha].
  - by rewrite <- Hd, (Bl a Ha).
  - by rewrite <- Hd, (Br' a Ha).
Qed.

Lemma clear_leaves T y : exists v0,
  ys (put_y (put_y T y (set_leaf (get_y T y) 0 0)) y
     (set_leaf (get_y (put_y T y (set_leaf (get_y T y) 0 0)) y) 1 0)) !! y = Some v0 /\
  leaf0 v0 = 0 /\ leaf1 v0 = 0.
Proof.
  eexists. split; [simpl; by rewrite lookup_insert_eq|].
  unfold get_y at 1 3. simpl. rewrite lookup_insert_eq. done.
Qed.

Lemma delete_rep d a t : forall fuel T p u lo,
  rep (ys T) u t -> wft D lo t -> 0 <= lo -> (depth t <= fuel)%nat -> rd T p = u ->
  NoDup (ynodes t) -> outside p (ynodes t) -> D a = d -> a ∈ tips t -> t <> Tip a ->
  Z.land a 3 = 0 ->
  exists T', delete_loop fuel T p d (nodew a) = Some T' /\ deleted T T' p u d a t.
Proof.
  induction t as [b|y c l IHl r IHr]; intros fuel T p u lo Hrep Hw Hlo Hf Hp Hnd Ho Hd Ha Hne Hal;
    (destruct fuel as [|fuel]; [simpl in Hf; lia|]).
  { apply list_elem_of_singleton in Ha as ->. done. }
  cbn [delete_loop]. rewrite Hp. pose proof Hrep as (-> & Hy & v & Hv & Ht & _).
  destruct (y_tags y Hy) as [_ ->]. rewrite (l_y_ok y Hy), (get_y_at _ _ _ Hv).
  destruct (child_facts T d y c l r v lo Hrep Hw Hnd Hlo Hv)
    as (_ & Hc & HX & HO & WX & NX & YX & YO & XO & Sub & Dep).
  pose proof (tip_side a d y c l r lo Hw Ha Hd) as Hside.
  pose proof (del_side d a y c l r) as Hdel. cbv zeta in Hdel.
  set (X := if bit d c then r else l) in *. set (O := if bit d c then l else r) in *.
  rewrite (tests_ptr v c Ht Hc). set (s := branch d v) in *.
  destruct X as [b|yx cx lx rx] eqn:EX.
  - apply list_elem_of_singleton in Hside as <-. rewrite Z.eqb_refl in Hdel.
    destruct Hdel as [E1 E2]. destruct HX as [-> _]. rewrite Z.eqb_refl.
    eexists; split; [reflexivity|]. unfold deleted. rewrite E1, E2.
    set (w := leaf v (1 - s)) in *.
    exists p, w. split; [by destruct p|]. split; [by destruct p|].
    split; [apply clear_leaves|].
    assert (F : forall y', y' <> y -> ys (put_y (put_y (wr T p w) y
        (set_leaf (get_y (wr T p w) y) 0 0)) y (set_leaf (get_y (put_y (wr T p w) y
        (set_leaf (get_y (wr T p w) y) 0 0)) y) 1 0)) !! y' = wrm (ys T) p w !! y').
    { intros y' N. simpl. rewrite !lookup_insert_ne by done. by destruct p. }
    split; [exact F|]. split; [by left|].
    split; [eapply outside_one; [exact Ho|left]|]. split; [left|].
    rewrite decide_True by done. eapply rep_frame; [|exact HO]. intros y' Hy'.
    rewrite F by (intros ->; done). apply wrm_out. eapply outside_one; [exact Ho|].
    apply Sub. by right.
  - rewrite <- EX in *. assert (NeX : X <> Tip a) by (rewrite EX; done).
    pose proof Hdel as Hdel'. clear Hdel.
    assert (Hword : leaf v s =? nodew a = false).
    { apply Z.eqb_neq. intros E. rewrite E, EX in HX. destruct HX as (E' & Hyx & _).
      destruct (node_tags a Hal) as [_ K]. rewrite E' in K. destruct (y_tags yx Hyx). congruence. }
    rewrite Hword.
    assert (IH : forall fuel T p u lo, rep (ys T) u X -> wft D lo X -> 0 <= lo ->
        (depth X <= fuel)%nat -> rd T p = u -> NoDup (ynodes X) -> outside p (ynodes X) ->
        D a = d -> a ∈ tips X -> X <> Tip a -> Z.land a 3 = 0 ->
        exists T', delete_loop fuel T p d (nodew a) = Some T' /\ deleted T T' p u d a X)
      by (subst X; destruct (bit d c); assumption).
    assert (Erd : rd (count_cmp T) (Leaf y s) = leaf v s)
        by (simpl; unfold get_y; simpl; by rewrite Hv).
    destruct (IH fuel (count_cmp T) (Leaf y s) _ (c + 1) HX WX ltac:(lia) ltac:(lia) Erd NX YX Hd
                Hside NeX Hal) as (T' & E & q & w & A & B & C & F & Win & Oz & Hz & R).
    exists T'. split; [exact E|]. destruct Hdel' as [E1 E2]. unfold deleted. rewrite E1, E2.
    exists q, w. assert (Wy : exists yq sq, q = Leaf yq sq /\ (yq = y \/ yq ∈ ynodes X))
        by (destruct Win as [->|(yq & sq & -> & ?)]; eauto 10).
    destruct Wy as (yq & sq & Eq & Hyq).
    assert (Hyt : yq ∈ ynodes (Br y c l r)) by (destruct Hyq as [->|]; [left|apply Sub; by left]).
    split; [by rewrite Eq in A |- *|]. split; [done|]. split; [done|]. split; [done|].
    split; [right; exists yq, sq; by split|]. split; [done|].
    split; [apply Sub; by left|].
    assert (Hzy : del_node d a X <> y) by (intros K; rewrite K in Hz; done).
    rewrite decide_False by (intros ->; subst p; by apply Ho).
    assert (HOf : rep (ys T') (leaf v (1 - s)) O).
    { eapply rep_frame; [|exact HO]. intros y' Hy'.
      rewrite F by (intros ->; by apply (XO _ Hz)). apply wrm_out. subst q. simpl.
      intros ->%list_elem_of_singleton. destruct Hyq as [->|Hq]; [done|by eapply XO]. }
    pose proof (leaf_set_same v s w (branch_01 d v)) as (La & Lb & Lt).
    assert (Hmy : ys T' !! y = Some (if decide (q = Leaf y s) then set_leaf v s w else v)).
    { rewrite F by congruence. destruct (decide (q = Leaf y s)) as [->|N].
      - simpl. by rewrite Hv, lookup_insert_eq.
      - rewrite wrm_out; [done|]. destruct Win as [|(z & s' & -> & Hz')]; [done|].
        simpl. intros ->%list_elem_of_singleton. done. }
    eapply (rep_side (ys T') _ l r d c y); [done|exact Hmy|case_decide; auto|lia| |].
    all: destruct (decide (q = Leaf y s)) as [Q|Q]; [|done].
    all: assert (Eb : branch d (set_leaf v s w) = s)
           by (unfold s; rewrite !(branch_bit d _ c) by (auto; lia); done).
    all: rewrite Eb, ?La, ?Lb; done.
Qed.
End Keys2.

(** ** The invariant *)

Definition otips (ot : option tree) : list Z := match ot with Some tr => tips tr | None => [] end.
Definition oynodes (ot : option tree) : list Z := match ot with Some tr => ynodes tr | None => [] end.
Definition oshape (D : Z -> list Z) (ot : option tree) : Prop :=
  match ot with Some tr => wft D 0 tr | None => True end.
Definition orep (m : gmap Z hcb_y) (u : Z) (ot : option tree) : Prop :=
  match ot with Some tr => rep m u tr | None => u = 0 end.

(** A head in the tree, and a head that cools off. *)
Definition tip_ok (h : heap) (a : Z) : Prop :=
  a <> 0 /\ Z.land a 3 = 0 /\ exists o, h !! a = Some o /\ key (digest o) /\ 0 < refcnt o.
Definition cool_ok (h : heap) (a : Z) : Prop :=
  exists o, h !! a = Some o /\ refcnt o = 0 /\ length (digest o) = DIGEST_LEN.

Record inv_with (h : heap) (t : hcb) (M : index) (ot : option tree) : Prop := {
  iv_rep : orep (ys t) (origo t) ot;
  iv_wft : oshape (dig h) ot;
  iv_nodup : NoDup (otips ot ++ laylow t);
  iv_ynodup : NoDup (oynodes ot);
  iv_tips : forall a, a ∈ otips ot -> tip_ok h a;
  iv_cool : forall a, a ∈ laylow t -> cool_ok h a;
  (* every node of the tree, and every node ever written, lies in a head that
     is in the tree or still cooling *)
  iv_home : forall y, y ∈ oynodes ot \/ is_Some (ys t !! y) ->
              exists a, y = a + OFF_U /\ a ∈ otips ot ++ laylow t;
  (* a node that is not in the tree is zero: what the cleaner looks for *)
  iv_zero : forall y v, ys t !! y = Some v -> y ∉ oynodes ot -> leaf0 v = 0 /\ leaf1 v = 0;
  iv_index : forall d a, M !! d = Some a <-> a ∈ otips ot /\ dig h a = d
}.

Definition hcb_inv (h : heap) (t : hcb) (M : index) : Prop := exists ot, inv_with h t M ot.

Definition hcb_held (t : hcb) : gset Z := list_to_set (dumptree FUEL t (origo t) ++ laylow t).

Lemma dumptree_rep t : forall fuel T u, rep (ys T) u t -> (depth t <= fuel)%nat ->
  dumptree fuel T u = tips t.
Proof.
  induction t as [a|y c l IHl r IHr]; intros fuel T u Hr Hf;
    (destruct fuel as [|fuel]; [simpl in Hf; lia|]); cbn [dumptree tips].
  - destruct Hr as [-> Ha]. destruct (word_nonzero a Ha) as [N _].
    replace (nodew a =? 0) with false by lia. destruct (node_tags a Ha) as [-> _].
    by rewrite (l_node_ok a Ha).
  - destruct Hr as (-> & Hy & v & Hv & _ & Hl & Hr). destruct (word_nonzero y Hy) as [_ N].
    replace (yw y =? 0) with false by lia. destruct (y_tags y Hy) as [-> _].
    rewrite (l_y_ok y Hy), (get_y_at _ _ _ Hv). simpl in Hf.
    by rewrite (IHl _ _ _ Hl), (IHr _ _ _ Hr) by lia.
Qed.

Lemma shape_fuel D tr : wft D 0 tr -> (depth tr <= FUEL)%nat.
Proof. intros H. apply wft_depth in H; [|lia]. unfold FUEL. lia. Qed.

Lemma held_spec h t M ot : inv_with h t M ot -> hcb_held t = list_to_set (otips ot ++ laylow t).
Proof.
  intros Hi. unfold hcb_held. pose proof (iv_rep _ _ _ _ Hi) as Hr. pose proof (iv_wft _ _ _ _ Hi) as Hw.
  destruct ot as [tr|]; cbn [orep oshape otips] in *.
  - by rewrite (dumptree_rep tr) by (eauto using shape_fuel).
  - by rewrite Hr.
Qed.

Lemma held_in h t M ot a : inv_with h t M ot -> a ∈ hcb_held t <-> a ∈ otips ot ++ laylow t.
Proof. intros Hi. by rewrite (held_spec _ _ _ _ Hi), elem_of_list_to_set. Qed.

Lemma inv_same h t t' M ot : inv_with h t M ot -> same t t' -> inv_with h t' M ot.
Proof. intros [] (A & B & C). constructor; rewrite ?A, ?B, ?C; auto. Qed.

Lemma held_same h t t' M ot : inv_with h t M ot -> same t t' -> hcb_held t' = hcb_held t.
Proof.
  intros Hi S. rewrite (held_spec _ _ _ _ Hi), (held_spec _ _ _ _ (inv_same _ _ _ _ _ Hi S)).
  destruct S as (_ & _ & ->). done.
Qed.

Lemma dig_at h a o : h !! a = Some o -> dig h a = digest o.
Proof. intros H. unfold SimpleList.dig. by rewrite H. Qed.

(** Heaps that agree on the held heads. *)
Lemma inv_heap h h' t M ot : inv_with h t M ot ->
  (forall a o, a ∈ otips ot -> h !! a = Some o ->
     exists o', h' !! a = Some o' /\ digest o' = digest o /\ 0 < refcnt o') ->
  (forall a o, a ∈ laylow t -> h !! a = Some o ->
     exists o', h' !! a = Some o' /\ length (digest o') = length (digest o) /\ refcnt o' = 0) ->
  inv_with h' t M ot.
Proof.
  intros Hi H1 H2.
  assert (Ed : forall a, a ∈ otips ot -> dig h' a = dig h a).
  { intros a Ha. destruct (iv_tips _ _ _ _ Hi a Ha) as (_ & _ & o & E & _).
    destruct (H1 a o Ha E) as (o' & E' & S & _). by rewrite (dig_at _ _ _ E), (dig_at _ _ _ E'). }
  destruct Hi as [Rp Wf Nd Yn Tp Co Ho Ze Ix]. constructor; auto.
  - destruct ot as [tr|]; [|done]. eapply wft_ext; [|exact Wf]. exact Ed.
  - intros a Ha. destruct (Tp a Ha) as (N & A & o & E & K & P).
    destruct (H1 a o Ha E) as (o' & E' & S & P'). split; [done|]. split; [done|].
    exists o'. split; [done|]. split; [by rewrite S|done].
  - intros a Ha. destruct (Co a Ha) as (o & E & R & L).
    destruct (H2 a o Ha E) as (o' & E' & S & R'). exists o'. split_and!; auto. congruence.
  - intros d a. rewrite Ix. split; intros [Ha E]; (split; [done|]); rewrite <- E; [|symmetry]; auto.
Qed.

(** ** Searching *)

Lemma index_descend h t M tr d a : inv_with h t M (Some tr) -> M !! d = Some a -> descend d tr = a.
Proof.
  intros Hi Hm. pose proof (iv_index _ _ _ _ Hi) as Ix. pose proof (iv_wft _ _ _ _ Hi) as Wf.
  apply Ix in Hm as [Ha Ed]. rewrite <- Ed. eapply (descend_hit (dig h)); [exact Wf|exact Ha|].
  split; [apply descend_in|]. intros b Hb E.
  assert (X : M !! dig h a = Some a) by (by apply Ix).
  assert (Y : M !! dig h a = Some b) by (by apply Ix). congruence.
Qed.

(** The first half of [hcb_insert]: to the tip and the comparison. *)
Lemma search_spec h t M tr no : inv_with h t M (Some tr) -> key (digest no) ->
  exists t1 q b o, walk FUEL t Origo (origo t) (digest no) = Some (t1, q, nodew b) /\ same t t1 /\
    rd t1 q = nodew b /\ b = descend (digest no) tr /\ Z.land b 3 = 0 /\ h !! b = Some o /\
    key (digest o) /\ b ∈ tips tr /\
    (digest o = digest no <-> M !! digest no = Some b).
Proof.
  intros Hi Hk. pose proof (iv_wft _ _ _ _ Hi) as Wf.
  destruct (walk_rep (dig h) (digest no) tr FUEL t Origo (origo t) 0) as (t1 & q & E & S & R & A);
    [exact (iv_rep _ _ _ _ Hi)|exact Wf|lia|by eapply shape_fuel|done|].
  pose proof (descend_in (digest no) tr) as Hin.
  destruct (iv_tips _ _ _ _ Hi _ Hin) as (_ & _ & o & Eo & Ko & _).
  exists t1, q, (descend (digest no) tr), o. split_and!; auto.
  rewrite (iv_index _ _ _ _ Hi), (dig_at _ _ _ Eo). cbn [otips]. tauto.
Qed.

Lemma key_memcmp d1 d2 : key d1 -> key d2 -> memcmp d1 d2 = Eq <-> d1 = d2.
Proof. intros [L1 _] [L2 _]. apply memcmp_eq. congruence. Qed.

Lemma insert_hit h t M ot noh no a lock : inv_with h t M ot -> h !! noh = Some no ->
  key (digest no) -> M !! digest no = Some a ->
  exists t', hcb_insert h t noh lock = Some (a, t') /\ same t t'.
Proof.
  intros Hi Hn Hk Hm. unfold hcb_insert. rewrite Hn. cbn [rd].
  destruct ot as [tr|].
  2:{ apply (iv_index _ _ _ _ Hi) in Hm as [Ha _]. by apply elem_of_nil in Ha. }
  destruct (search_spec h t M tr no Hi Hk) as (t1 & q & b & o & E & S & R & Eb & A & Eo & Ko & Hb & Hd).
  assert (Nz : origo t =? 0 = false).
  { apply Z.eqb_neq. pose proof (iv_rep _ _ _ _ Hi) as Rp. destruct tr; simpl in Rp.
    - destruct Rp as [-> ?]. by apply word_nonzero.
    - destruct Rp as (-> & ? & _). by apply word_nonzero. }
  rewrite Nz, E. destruct (node_tags b A) as [-> _]. rewrite (l_node_ok b A), Eo.
  rewrite (index_descend h t M tr _ a Hi Hm) in Eb. subst b.
  rewrite (proj2 (key_memcmp _ _ Ko Hk)) by (by apply Hd). eauto.
Qed.

Lemma insert_miss_nolock h t M ot noh no : inv_with h t M ot -> h !! noh = Some no ->
  key (digest no) -> M !! digest no = None ->
  exists t', hcb_insert h t noh false = Some (0, t') /\ same t t'.
Proof.
  intros Hi Hn Hk Hm. unfold hcb_insert. rewrite Hn. cbn [rd].
  destruct ot as [tr|]; [|pose proof (iv_rep _ _ _ _ Hi) as Rp; simpl in Rp; rewrite Rp; eauto using same_refl].
  destruct (search_spec h t M tr no Hi Hk) as (t1 & q & b & o & E & S & R & Eb & A & Eo & Ko & Hb & Hd).
  case_if; [eauto using same_refl|]. rewrite E.
  destruct (node_tags b A) as [-> _]. rewrite (l_node_ok b A), Eo.
  destruct (memcmp (digest o) (digest no)) eqn:C; [|eauto..].
  apply key_memcmp in C; [|done..]. apply Hd in C. congruence.
Qed.

(** ** Inserting *)

Lemma node_in_head h t M ot a : inv_with h t M ot -> a ∉ otips ot ++ laylow t ->
  a + OFF_U ∉ oynodes ot /\ ys t !! (a + OFF_U) = None.
Proof.
  intros Hi Ha. assert (N : forall y, y = a + OFF_U -> ~ (y ∈ oynodes ot \/ is_Some (ys t !! y))).
  { intros y -> H. destruct (iv_home _ _ _ _ Hi _ H) as (b & E & Hb).
    assert (b = a) as -> by lia. done. }
  split; [intros H; eapply N; eauto|]. destruct (ys t !! (a + OFF_U)) eqn:E; [|done].
  exfalso. eapply N; eauto.
Qed.

Lemma off_land a : Z.land a 3 = 0 -> Z.land (a + OFF_U) 3 = 0.
Proof.
  change 3 with (Z.ones 2). rewrite !Z.land_ones by lia. unfold OFF_U. intros H.
  change (2 ^ 2) with 4 in *. Z.div_mod_to_equations. lia.
Qed.

(** The empty tree. *)
Lemma insert_first h t M noh no : inv_with h t M None -> h !! noh = Some no -> ready no ->
  noh <> 0 -> Z.land noh 3 = 0 -> noh ∉ laylow t ->
  exists t', hcb_insert h t noh true = Some (noh, t') /\ laylow t' = laylow t /\
    inv_with h t' (<[digest no := noh]> M) (Some (Tip noh)).
Proof.
  intros Hi Hn (Rr & Rk) N0 Ha Hl. pose proof (iv_rep _ _ _ _ Hi) as Rp. simpl in Rp.
  unfold hcb_insert. rewrite Hn. cbn [rd]. rewrite Rp. simpl. rewrite (r_node_ok noh Ha).
  eexists; split; [done|]. split; [done|].
  assert (M0 : M = ∅).
  { apply map_eq. intros d. rewrite lookup_empty. destruct (M !! d) eqn:E; [|done].
    apply (iv_index _ _ _ _ Hi) in E as [E _]. by apply elem_of_nil in E. }
  pose proof (iv_nodup _ _ _ _ Hi) as Nd. pose proof (iv_home _ _ _ _ Hi) as Hh.
  constructor; cbn [otips oynodes orep oshape tips ynodes laylow ys origo wr rep wft].
  - done.
  - done.
  - simpl. apply NoDup_cons. by split.
  - constructor.
  - intros a ->%list_elem_of_singleton. split; [done|]. split; [done|]. exists no.
    split; [done|]. split; [exact Rk|lia].
  - apply (iv_cool _ _ _ _ Hi).
  - intros y [Hy|Hy]; [by apply elem_of_nil in Hy|].
    destruct (Hh y ltac:(by right)) as (a & E & Hin). exists a. split; [done|]. by right.
  - intros y v Hv _. eapply (iv_zero _ _ _ _ Hi); [done|]. by apply not_elem_of_nil.
  - intros d a. rewrite M0, list_elem_of_singleton. destruct (decide (d = digest no)) as [->|Nd'].
    + rewrite lookup_insert_eq. rewrite <- (dig_at _ _ _ Hn). split; [by intros [= ->]|by intros [-> _]].
    + rewrite lookup_insert_ne, lookup_empty by done. split; [done|].
      intros [-> E]. rewrite (dig_at _ _ _ Hn) in E. done.
Qed.

Lemma new_node_ok v d c oh uq : tests v c -> 0 <= c ->
  new_node (set_leaf (set_leaf v (branch d v) (nodew oh)) (1 - branch d v) uq) d c oh uq.
Proof.
  intros Ht Hc. pose proof (branch_bit d v c Ht Hc) as B. unfold new_node. rewrite B.
  split; [destruct (bit d c); exact Ht|]. by destruct (bit d c).
Qed.

(** The second half of [hcb_insert] in memory: from the tree [t1] the search left
    to the tree with the new node at its place. *)
Lemma splice D t1 u tr d c v noh y2 :
  rep (ys t1) u tr -> origo t1 = u -> wft D 0 tr -> NoDup (ynodes tr) -> y2 ∉ ynodes tr ->
  Z.land y2 3 = 0 -> Z.land noh 3 = 0 -> tests v c -> 0 <= c ->
  let T1 := put_y t1 y2 (set_leaf v (branch d v) (nodew noh)) in
  exists T2 p, walk_to FUEL T1 Origo d c = Some (T2, p) /\
    let T4 := wr (put_y T2 y2 (set_leaf (get_y T2 y2) (1 - branch d v) (rd T2 p))) p (yw y2) in
    laylow T4 = laylow t1 /\ rep (ys T4) (origo T4) (ins d c noh y2 tr) /\
    forall y w, ys T4 !! y = Some w -> y = y2 \/ y ∈ ynodes tr \/ ys t1 !! y = Some w.
Proof.
  intros Rp So Wf Yn Y2 Ay Ah Tv Hc T1.
  assert (R1 : rep (ys T1) u tr).
  { eapply rep_frame; [|exact Rp]. intros y Hy. simpl. apply lookup_insert_ne. by intros ->. }
  destruct (walk_to_rep D d c tr FUEL T1 Origo u 0 R1 Wf ltac:(lia) (shape_fuel _ _ Wf) So Yn I)
    as (T2 & p & E2 & S2 & Win & Post).
  exists T2, p. split; [done|]. pose proof S2 as (S2o & S2y & S2l).
  assert (Eg : get_y T2 y2 = set_leaf v (branch d v) (nodew noh))
    by (unfold get_y; rewrite S2y; simpl; by rewrite lookup_insert_eq).
  rewrite Eg, (same_rd _ _ p S2). set (v2 := set_leaf (set_leaf v _ _) _ _).
  assert (Hp2 : outside p [y2]).
  { destruct Win as [->|(y & s & -> & Hy)]; [done|]. simpl. by intros ->%list_elem_of_singleton. }
  set (T4 := wr (put_y T2 y2 v2) p (yw y2)). cbv zeta.
  assert (Y4 : ys T4 = wrm (<[y2 := v2]> (ys T1)) p (yw y2))
    by (subst T4; unfold wr, put_y, wrm, get_y; destruct p; cbn [ys origo]; by rewrite S2y).
  assert (O4 : origo T4 = if decide (p = Origo) then yw y2 else u)
    by (subst T4; destruct p; simpl; [done|]; rewrite S2o; exact So).
  split; [subst T4; destruct p; simpl; by rewrite S2l|].
  assert (H2 : ys T4 !! y2 = Some v2) by (rewrite Y4, wrm_out by done; apply lookup_insert_eq).
  assert (Hmf : forall y, y <> y2 -> ys T4 !! y = wrm (ys T1) p (yw y2) !! y).
  { intros y N. rewrite Y4. destruct p as [|z s]; simpl; [by rewrite lookup_insert_ne|].
    simpl in Hp2. rewrite list_elem_of_singleton in Hp2.
    destruct (decide (z = y)) as [->|N'].
    - rewrite !lookup_insert_eq. by rewrite (lookup_insert_ne _ y2 y) by congruence.
    - rewrite !(lookup_insert_ne _ z) by done. by rewrite lookup_insert_ne. }
  split.
  - rewrite O4. eapply Post; [exact Y2|exact Ay|exact Ah| |exact H2|].
    + by apply new_node_ok.
    + intros y Hy. apply Hmf. by intros ->.
  - intros y w Hw. destruct (decide (y = y2)) as [|N]; [by left|right]. rewrite Hmf in Hw by done.
    destruct Win as [->|(z & s & -> & Hz)]; simpl in Hw.
    + right. by rewrite lookup_insert_ne in Hw.
    + destruct (decide (z = y)) as [->|N']; [by left|right].
      rewrite lookup_insert_ne in Hw by done. by rewrite lookup_insert_ne in Hw.
Qed.

Lemma index_insert (h : heap) (M : index) l noh no :
  (forall d a, M !! d = Some a <-> a ∈ l /\ dig h a = d) ->
  h !! noh = Some no -> noh ∉ l -> M !! digest no = None ->
  forall l', l' ≡ₚ noh :: l ->
  forall d a, <[digest no := noh]> M !! d = Some a <-> a ∈ l' /\ dig h a = d.
Proof.
  intros Ix Hn Hl Hm l' P d a. rewrite P, elem_of_cons.
  destruct (decide (d = digest no)) as [->|N].
  - rewrite lookup_insert_eq. split.
    + intros [= <-]. split; [by left|by apply dig_at].
    + intros [[->|Ha] E]; [done|]. assert (M !! digest no = Some a) by (by apply Ix). congruence.
  - rewrite lookup_insert_ne by done. rewrite Ix. split; [tauto|].
    intros [[->|Ha] E]; [|done]. rewrite (dig_at _ _ _ Hn) in E. congruence.
Qed.

(** The invariant of the tree with the new head. *)
Lemma insert_inv h t M tr noh no c T4 : inv_with h t M (Some tr) -> h !! noh = Some no -> ready no ->
  noh <> 0 -> Z.land noh 3 = 0 -> noh ∉ tips tr ++ laylow t -> M !! digest no = None ->
  0 <= c < 256 -> crit (dig h) (digest no) c tr ->
  let tr' := ins (digest no) c noh (noh + OFF_U) tr in
  laylow T4 = laylow t -> rep (ys T4) (origo T4) tr' ->
  (forall y w, ys T4 !! y = Some w -> y = noh + OFF_U \/ y ∈ ynodes tr \/ ys t !! y = Some w) ->
  inv_with h T4 (<[digest no := noh]> M) (Some tr').
Proof.
  intros Hi Hn (Rr & Rk) N0 Ha Hl Hm Hc Cr tr' L4 Hrep Hdom.
  pose proof (ins_tips (digest no) noh (noh + OFF_U) c tr) as Pt. fold tr' in Pt.
  pose proof (ins_ynodes (digest no) noh (noh + OFF_U) c tr) as Py. fold tr' in Py.
  destruct (node_in_head h t M _ noh Hi Hl) as [Y2 _].
  assert (Sub : forall a, a ∈ tips tr ++ laylow t -> a ∈ tips tr' ++ laylow t)
    by (intros a; rewrite !elem_of_app, Pt, elem_of_cons; tauto).
  constructor; cbn [otips oynodes orep oshape]; rewrite ?L4.
  - exact Hrep.
  - apply ins_wft; [by apply dig_at|done|lia|exact (iv_wft _ _ _ _ Hi)|done].
  - rewrite Pt. simpl. apply NoDup_cons. split; [done|exact (iv_nodup _ _ _ _ Hi)].
  - rewrite Py. apply NoDup_cons. split; [done|exact (iv_ynodup _ _ _ _ Hi)].
  - intros a. rewrite Pt. intros [->|H]%elem_of_cons; [|by apply (iv_tips _ _ _ _ Hi)].
    split; [done|]. split; [done|]. exists no. split; [done|]. split; [exact Rk|lia].
  - apply (iv_cool _ _ _ _ Hi).
  - intros y Hy. assert (Hy' : y = noh + OFF_U \/ y ∈ ynodes tr \/ is_Some (ys t !! y)).
    { destruct Hy as [Hy|[w Hw]].
      - rewrite Py in Hy. apply elem_of_cons in Hy. tauto.
      - destruct (Hdom y w Hw) as [?|[?|?]]; eauto. }
    destruct Hy' as [->|Hy'].
    + exists noh. split; [done|]. apply elem_of_app. left. rewrite Pt. left.
    + destruct (iv_home _ _ _ _ Hi y Hy') as (a & E & H). eauto.
  - intros y v Hv Hn'. rewrite Py, not_elem_of_cons in Hn'.
    destruct (Hdom y v Hv) as [?|[?|H]]; [tauto|tauto|]. eapply (iv_zero _ _ _ _ Hi); [done|]. tauto.
  - apply (index_insert h M (tips tr)); auto.
    + exact (iv_index _ _ _ _ Hi).
    + intros H. apply Hl, elem_of_app. by left.
Qed.

Lemma cmp_neq {A} (c : comparison) (x y : A) : c <> Eq -> match c with Eq => x | _ => y end = y.
Proof. by destruct c. Qed.

Lemma rep_nonzero m u tr : rep m u tr -> u <> 0.
Proof. destruct tr; simpl; [intros [-> ?]|intros (-> & ? & _)]; by apply word_nonzero. Qed.

(** A tree that has a tip. *)
Lemma insert_more h t M tr noh no : inv_with h t M (Some tr) -> h !! noh = Some no -> ready no ->
  noh <> 0 -> Z.land noh 3 = 0 -> noh ∉ tips tr ++ laylow t -> M !! digest no = None ->
  exists t' tr', hcb_insert h t noh true = Some (noh, t') /\ laylow t' = laylow t /\
    tips tr' ≡ₚ noh :: tips tr /\ inv_with h t' (<[digest no := noh]> M) (Some tr').
Proof.
  intros Hi Hn Hr N0 Ha Hl Hm. pose proof Hr as (Rr & Rk).
  destruct (node_in_head h t M _ noh Hi Hl) as [Y2 _].
  destruct (search_spec h t M tr no Hi Rk) as (t1 & q & b & o & E & S & R & Eb & A & Eo & Ko & Hb & Hd).
  assert (Hne : digest no <> digest o) by (intros K; symmetry in K; apply Hd in K; congruence).
  destruct (crit_bit_spec _ _ Rk Ko Hne) as (v & c & Ev & Tv & L0 & L1 & Hc & Ag & Sp).
  assert (Cr : crit (dig h) (digest no) c tr) by (unfold crit; by rewrite <- Eb, (dig_at _ _ _ Eo)).
  pose proof (inv_same _ _ _ _ _ Hi S) as Hi1.
  pose proof (rep_nonzero _ _ _ (iv_rep _ _ _ _ Hi)) as Nz.
  destruct (splice (dig h) t1 (origo t1) tr (digest no) c v noh (noh + OFF_U)
    (iv_rep _ _ _ _ Hi1) eq_refl (iv_wft _ _ _ _ Hi) (iv_ynodup _ _ _ _ Hi) Y2 (off_land noh Ha)
    Ha Tv (proj1 Hc)) as (T2 & p & E2 & L4 & Hrep & Hdom).
  destruct S as (So & Sy & Sl).
  set (T4 := wr _ _ _) in L4, Hrep, Hdom. rewrite Sy in Hdom. rewrite Sl in L4.
  exists T4, (ins (digest no) c noh (noh + OFF_U) tr).
  split; [|split; [done|split; [apply ins_tips|by apply (insert_inv h t)]]].
  unfold hcb_insert. rewrite Hn. cbn [rd]. replace (origo t =? 0) with false by lia.
  rewrite E. destruct (node_tags b A) as [-> _].
  rewrite (l_node_ok b A), Eo, R, (l_node_ok b A), Eo, Ev, (r_node_ok noh Ha).
  rewrite cmp_neq by (intros K; apply key_memcmp in K; [congruence|done..]).
  match goal with |- context [origo (put_y ?x ?a ?b)] =>
    change (origo (put_y x a b)) with (origo x) end.
  rewrite So. replace (origo t =? 0) with false by lia. cbn [negb].
  pose proof Tv as (Ecb & _). rewrite Ecb, E2.
  by rewrite (r_y_ok _ (off_land noh Ha)).
Qed.

(** ** Deleting *)

(** Parking a removed head. *)
Definition park (t : hcb) (a : Z) : hcb := Hcb (origo t) (cmps t) (ys t) (laylow t ++ [a]).

Lemma index_delete (h : heap) (M : index) l a o o' :
  (forall d b, M !! d = Some b <-> b ∈ l /\ dig h b = d) -> h !! a = Some o ->
  forall l', l ≡ₚ a :: l' -> NoDup l ->
  forall d b, delete (digest o) M !! d = Some b <-> b ∈ l' /\ dig (<[a := o']> h) b = d.
Proof.
  intros Ix Ha l' P Nd d b. rewrite P in Nd. apply NoDup_cons in Nd as [Nd _].
  assert (Hb : b ∈ l' -> dig (<[a := o']> h) b = dig h b).
  { intros Hb. unfold SimpleList.dig. rewrite lookup_insert_ne; [done|]. by intros ->. }
  assert (Xa : M !! digest o = Some a).
  { apply Ix. split; [rewrite P; left|by apply dig_at]. }
  destruct (decide (d = digest o)) as [->|N].
  - rewrite lookup_delete_eq. split; [done|]. intros [Hin E]. rewrite Hb in E by done.
    assert (M !! digest o = Some b) by (apply Ix; split; [rewrite P; by right|done]).
    assert (a = b) as -> by congruence. done.
  - rewrite lookup_delete_ne by done. rewrite Ix, P, elem_of_cons. split.
    + intros [[->|Hin] E]; [|by rewrite Hb]. rewrite (dig_at _ _ _ Ha) in E. congruence.
    + intros [Hin E]. rewrite Hb in E by done. tauto.
Qed.

(** The invariant of the tree without the tip [a]. *)
Lemma delete_inv h t M ot a o o' T' ot' : inv_with h t M ot -> h !! a = Some o ->
  refcnt o' = 0 -> length (digest o') = DIGEST_LEN -> laylow T' = laylow t ->
  otips ot ≡ₚ a :: otips ot' -> orep (ys T') (origo T') ot' -> oshape (dig h) ot' ->
  NoDup (oynodes ot') -> (forall y, y ∈ oynodes ot' -> y ∈ oynodes ot) ->
  (forall y, is_Some (ys T' !! y) -> y ∈ oynodes ot \/ is_Some (ys t !! y)) ->
  (forall y v, ys T' !! y = Some v -> y ∉ oynodes ot' ->
     (leaf0 v = 0 /\ leaf1 v = 0) \/ (y ∉ oynodes ot /\ ys t !! y = Some v)) ->
  inv_with (<[a := o']> h) (park T' a) (delete (digest o) M) ot'.
Proof.
  intros Hi Ha Hr' Hl' L Pt Rp Wf Yn Ysub Hdom Hze.
  pose proof (iv_nodup _ _ _ _ Hi) as Nd. rewrite Pt in Nd. simpl in Nd.
  apply NoDup_cons in Nd as [Na Nd]. rewrite not_elem_of_app in Na.
  assert (Dg : forall b, b ∈ otips ot' -> dig (<[a := o']> h) b = dig h b).
  { intros b Hb. unfold SimpleList.dig. rewrite lookup_insert_ne; [done|]. intros ->. tauto. }
  assert (Home : forall b, b ∈ otips ot ++ laylow t -> b ∈ otips ot' ++ laylow t ++ [a]).
  { intros b. rewrite !elem_of_app, Pt, elem_of_cons, list_elem_of_singleton. tauto. }
  constructor; cbn [park laylow ys origo]; rewrite ?L; auto.
  - destruct ot' as [tr'|]; [|done]. eapply wft_ext; [|exact Wf]. exact Dg.
  - rewrite app_assoc, (Permutation_app_comm (otips ot' ++ laylow t)). simpl.
    apply NoDup_cons. split; [rewrite elem_of_app; tauto|done].
  - intros b Hb. destruct (iv_tips _ _ _ _ Hi b) as (N & A & ob & E & K & P);
      [rewrite Pt; by right|]. split; [done|]. split; [done|]. exists ob.
    rewrite lookup_insert_ne by (intros ->; tauto). by split_and!.
  - intros b [Hb|Hb]%elem_of_app.
    + destruct (iv_cool _ _ _ _ Hi b Hb) as (ob & E & R & K). exists ob.
      rewrite lookup_insert_ne by (intros ->; tauto). by split_and!.
    + apply list_elem_of_singleton in Hb as ->. exists o'. by rewrite lookup_insert_eq.
  - intros y Hy. assert (Hy' : y ∈ oynodes ot \/ is_Some (ys t !! y))
      by (destruct Hy as [Hy|Hy]; auto).
    destruct (iv_home _ _ _ _ Hi y Hy') as (b & E & Hb). exists b. auto.
  - intros y v Hv Hn. destruct (Hze y v Hv Hn) as [?|[? ?]]; [done|].
    by eapply (iv_zero _ _ _ _ Hi).
  - eapply index_delete; [exact (iv_index _ _ _ _ Hi)|done|exact Pt|].
    rewrite Pt. apply NoDup_cons. rewrite NoDup_app in Nd. tauto.
Qed.

Lemma delete_ok h t M ot d a o o' : inv_with h t M ot -> M !! d = Some a -> h !! a = Some o ->
  refcnt o' = 0 -> length (digest o') = DIGEST_LEN ->
  exists T' ot', hcb_delete h t a = Some T' /\ laylow T' = laylow t /\
    otips ot ≡ₚ a :: otips ot' /\
    inv_with (<[a := o']> h) (park T' a) (delete d M) ot'.
Proof.
  intros Hi Hm Ha Hr' Hl'. apply (iv_index _ _ _ _ Hi) in Hm as [Hin Ed].
  rewrite (dig_at _ _ _ Ha) in Ed. subst d.
  pose proof (iv_rep _ _ _ _ Hi) as Rp. pose proof (iv_wft _ _ _ _ Hi) as Wf.
  pose proof (iv_ynodup _ _ _ _ Hi) as Yn.
  destruct (iv_tips _ _ _ _ Hi a Hin) as (N0 & Aa & _).
  unfold hcb_delete. rewrite Ha, (r_node_ok a Aa).
  destruct ot as [tr|]; [|by apply elem_of_nil in Hin]. cbn [orep oshape otips oynodes] in *.
  destruct (Z.eqb_spec (origo t) (nodew a)) as [E|E].
  - assert (tr = Tip a) as ->.
    { destruct tr as [b|y c l r]; [by apply list_elem_of_singleton in Hin as ->|].
      destruct Rp as (Eu & Hy & _). rewrite E in Eu.
      destruct (node_tags a Aa) as [_ K]. rewrite Eu in K. destruct (y_tags y Hy). congruence. }
    eexists _, None. split; [done|]. split; [done|]. split; [done|].
    eapply delete_inv; eauto; cbn [otips oynodes orep ynodes]; try done.
  - assert (Hne : tr <> Tip a) by (intros ->; destruct Rp as [? _]; done).
    assert (Hy : hcb_is_y (origo t) = true).
    { destruct tr as [b|y c l r]; [by apply list_elem_of_singleton in Hin as ->|].
      destruct Rp as (-> & Ay & _). by apply y_tags. }
    rewrite Hy.
    destruct (delete_rep (dig h) (digest o) a tr FUEL t Origo (origo t) 0 Rp Wf ltac:(lia)
      (shape_fuel _ _ Wf) eq_refl Yn I (dig_at _ _ _ Ha) Hin Hne Aa) as (T' & Ed & q & w & Eo & El &
      (v0 & Ez & Z0 & Z1) & F & Win & Oz & Hz & R).
    destruct (del_spec (dig h) (digest o) a tr 0 Wf Hin (dig_at _ _ _ Ha) Hne) as [Pt Py].
    set (z := del_node (digest o) a tr) in *. set (tr' := del (digest o) a tr) in *.
    assert (Nz : z ∉ ynodes tr' /\ NoDup (ynodes tr')) by (rewrite Py in Yn; by apply NoDup_cons).
    exists T', (Some tr'). split; [done|]. split; [done|]. split; [done|].
    eapply delete_inv; eauto; cbn [otips oynodes orep oshape].
    + rewrite Eo. destruct q as [|yq sq]; [by rewrite decide_True in R by done|].
      by rewrite decide_False in R by done.
    + by apply del_wft.
    + tauto.
    + intros y Hy'. rewrite Py. by right.
    + intros y [w' Hw']. destruct (decide (y = z)) as [->|Nyz]; [by left|]. rewrite F in Hw' by done.
      destruct Win as [->|(yq & sq & -> & Hq)]; simpl in Hw'; [eauto|].
      destruct (decide (yq = y)) as [->|]; [by left|]. rewrite lookup_insert_ne in Hw' by done. eauto.
    + intros y v Hv Hn. destruct (decide (y = z)) as [->|Nyz].
      * left. assert (v = v0) as -> by congruence. done.
      * right. assert (Hnt : y ∉ ynodes tr) by (rewrite Py, not_elem_of_cons; by split).
        split; [done|]. rewrite F in Hv by done.
        destruct Win as [->|(yq & sq & -> & Hq)]; simpl in Hv; [done|].
        rewrite lookup_insert_ne in Hv; [done|]. by intros ->.
Qed.

(** ** The contract *)

Lemma aligned_land a : aligned a -> a <> 0 /\ Z.land a 3 = 0.
Proof.
  intros [Hp Hm]. split; [lia|]. change 3 with (Z.ones 2). by rewrite Z.land_ones.
Qed.

Lemma inv_incr h t M ot a o n : inv_with h t M ot -> a ∈ otips ot -> h !! a = Some o -> 0 < n ->
  inv_with (<[a := set_refcnt o n]> h) t M ot.
Proof.
  intros Hi Ha Eo Hn. apply (inv_heap _ _ _ _ _ Hi).
  - intros b ob Hb Eb. destruct (iv_tips _ _ _ _ Hi b Hb) as (_ & _ & o2 & E2 & _ & P).
    destruct (decide (a = b)) as [<-|N].
    + rewrite lookup_insert_eq. eexists; split; [done|]. by assert (o = ob) as -> by congruence.
    + rewrite lookup_insert_ne by done. assert (o2 = ob) as -> by congruence. eauto.
  - intros b ob Hb Eb. pose proof (iv_nodup _ _ _ _ Hi) as (_ & Nd & _)%NoDup_app.
    destruct (iv_cool _ _ _ _ Hi b Hb) as (o2 & E2 & R2 & _).
    rewrite lookup_insert_ne by (intros ->; by apply (Nd b)).
    assert (o2 = ob) as -> by congruence. eauto.
Qed.

#[export] Program Instance hcb_slinger : Slinger hcb := {
  sl_lookup := hcb_lookup;
  sl_deref := hcb_deref;
  sl_held := hcb_held;
  sl_inv := hcb_inv
}.
Next Obligation.
  intros h t M d a [ot Hi] Hm. apply (iv_index _ _ _ _ Hi) in Hm as [Ha E].
  split; [rewrite (held_in _ _ _ _ _ Hi), elem_of_app; by left|].
  destruct (iv_tips _ _ _ _ Hi a Ha) as (_ & _ & o & Eo & _ & P). exists o.
  rewrite (dig_at _ _ _ Eo) in E. by split_and!.
Qed.
Next Obligation.
  intros h t M noh no a oh [ot Hi] Hn (Rr & Rk) Al Hf Hm Ha.
  destruct (insert_hit h t M ot noh no a false Hi Hn Rk Hm) as (t' & E & S).
  pose proof Hm as [Hin _]%(iv_index _ _ _ _ Hi).
  destruct (iv_tips _ _ _ _ Hi a Hin) as (N0 & _ & o & Eo & _ & P).
  assert (o = oh) as -> by congruence.
  assert (Nn : a <> noh) by (intros ->; apply Hf; rewrite (held_in _ _ _ _ _ Hi), elem_of_app; by left).
  exists t'. unfold hcb_lookup. rewrite E. replace (a =? 0) with false by lia.
  replace (a =? noh) with false by lia. rewrite Ha. replace (refcnt oh =? 0) with false by lia.
  split; [done|]. split; [by eapply held_same|]. exists ot.
  eapply inv_same; [|exact S]. by apply inv_incr; [..|lia].
Qed.
Next Obligation.
  intros h t M noh no [ot Hi] Hn Hr Al Hf Hm. pose proof Hr as (Rr & Rk).
  destruct (aligned_land noh Al) as [N0 La].
  destruct (insert_miss_nolock h t M ot noh no Hi Hn Rk Hm) as (t1 & E1 & S1).
  pose proof (inv_same _ _ _ _ _ Hi S1) as Hi1.
  assert (Hf1 : noh ∉ otips ot ++ laylow t1)
    by (destruct S1 as (_ & _ & ->); by rewrite <- (held_in _ _ _ _ _ Hi)).
  assert (Ins : exists t' ot', hcb_insert h t1 noh true = Some (noh, t') /\ laylow t' = laylow t1 /\
    otips ot' ≡ₚ noh :: otips ot /\ inv_with h t' (<[digest no := noh]> M) ot').
  { destruct ot as [tr|].
    - destruct (insert_more h t1 M tr noh no Hi1 Hn Hr N0 La Hf1 Hm) as (t' & tr' & A & B & C & D).
      exists t', (Some tr'). by split_and!.
    - destruct (insert_first h t1 M noh no Hi1 Hn Hr N0 La Hf1) as (t' & A & B & C).
      exists t', (Some (Tip noh)). by split_and!. }
  destruct Ins as (t' & ot' & E & L & P & Hi').
  exists t'. unfold hcb_lookup. rewrite E1. simpl. rewrite Hn, Rr. simpl. rewrite E, Hn, Rr. simpl.
  rewrite Z.eqb_refl. split; [done|]. split; [|by exists ot'].
  rewrite (held_spec _ _ _ _ Hi), (held_spec _ _ _ _ Hi'), L. destruct S1 as (_ & _ & ->).
  apply set_eq. intros x.
  rewrite elem_of_union, elem_of_singleton, !elem_of_list_to_set, !elem_of_app, P, elem_of_cons. tauto.
Qed.
Next Obligation.
  intros h t M d a oh [ot Hi] Hm Ha Hr. unfold hcb_deref. rewrite Ha.
  replace (0 <? refcnt oh) with true by lia. replace (refcnt oh =? 1) with false by lia.
  exists t. split; [done|]. split; [done|]. exists ot.
  apply (iv_index _ _ _ _ Hi) in Hm as [Hin _]. apply inv_incr; auto. lia.
Qed.
Next Obligation.
  intros h t M d a oh [ot Hi] Hm Ha Hr Hc Hw.
  pose proof Hm as [Hin _]%(iv_index _ _ _ _ Hi).
  destruct (iv_tips _ _ _ _ Hi a Hin) as (_ & _ & o & Eo & (Kl & _) & _).
  assert (o = oh) as -> by congruence.
  set (o' := set_refcnt (set_digest oh (<[0%nat := 0]> (digest oh))) (refcnt oh - 1)).
  destruct (delete_ok h t M ot d a oh o' Hi Hm Ha) as (T' & ot' & E & L & P & Hi').
  { unfold o'. simpl. lia. }
  { unfold o'. simpl. by rewrite length_insert. }
  exists 1, o', (park T' a). unfold hcb_deref. rewrite Ha, Hr, E, Hc, Hw. simpl.
  split; [unfold o'; by rewrite Hr|]. split; [lia|]. split; [done|]. split; [done|].
  split; [|by exists ot'].
  rewrite (held_spec _ _ _ _ Hi), (held_spec _ _ _ _ Hi'). simpl. rewrite L.
  apply set_eq. intros x.
  rewrite !elem_of_list_to_set, !elem_of_app, P, !elem_of_cons, elem_of_nil. tauto.
Qed.
Next Obligation.
  intros h t M h' [ot Hi] Hf. exists ot. apply (inv_heap _ _ _ _ _ Hi).
  - intros a o Ha Eo. destruct (Hf a o) as (o' & E' & S1 & S2).
    { rewrite (held_in _ _ _ _ _ Hi), elem_of_app. by left. } { done. }
    destruct (iv_tips _ _ _ _ Hi a Ha) as (_ & _ & o2 & E2 & _ & P).
    assert (o2 = o) as -> by congruence. exists o'. rewrite <- S1. by split_and!.
  - intros a o Ha Eo. destruct (Hf a o) as (o' & E' & S1 & S2).
    { rewrite (held_in _ _ _ _ _ Hi), elem_of_app. by right. } { done. }
    destruct (iv_cool _ _ _ _ Hi a Ha) as (o2 & E2 & R & _).
    assert (o2 = o) as -> by congruence. exists o'. rewrite <- S1, S2. by split_and!.
Qed.

(** ** The cleaner *)

Definition with_low (t : hcb) (l : list Z) : hcb := Hcb (origo t) (cmps t) (ys t) l.

Lemma node_nonzero m u tr y : rep m u tr -> y ∈ ynodes tr ->
  exists v, m !! y = Some v /\ leaf0 v <> 0 /\ leaf1 v <> 0.
Proof.
  revert u; induction tr as [a|z c l IHl r IHr]; intros u H Hy; [by apply elem_of_nil in Hy|].
  destruct H as (_ & _ & v & Hv & _ & Hl & Hr). cbn [ynodes] in Hy.
  apply elem_of_cons in Hy as [->|[Hy|Hy]%elem_of_app]; [|by eapply IHl|by eapply IHr].
  exists v. split; [done|]. split; by eapply rep_nonzero.
Qed.

(** Ageing a cooling head. *)
Lemma age_inv h t M ot a o d' : inv_with h t M ot -> a ∈ laylow t -> h !! a = Some o ->
  length d' = length (digest o) -> inv_with (<[a := set_digest o d']> h) t M ot.
Proof.
  intros Hi Ha Eo Hd. pose proof (iv_nodup _ _ _ _ Hi) as (_ & Nd & _)%NoDup_app.
  apply (inv_heap _ _ _ _ _ Hi).
  - intros b ob Hb Eb. rewrite lookup_insert_ne by (intros ->; by apply (Nd b)).
    destruct (iv_tips _ _ _ _ Hi b Hb) as (_ & _ & o2 & E2 & _ & P).
    assert (o2 = ob) as -> by congruence. eauto.
  - intros b ob Hb Eb. destruct (iv_cool _ _ _ _ Hi b Hb) as (o2 & E2 & R & _).
    assert (o2 = ob) as -> by congruence. destruct (decide (a = b)) as [<-|N].
    + rewrite lookup_insert_eq. eexists; split; [done|]. assert (o = ob) as -> by congruence. done.
    + rewrite lookup_insert_ne by done. eauto.
Qed.

(** Freeing a cooling head whose node is zero. *)
Lemma free_inv h t M ot l1 a l2 : inv_with h (with_low t (l1 ++ a :: l2)) M ot ->
  leaf0 (get_y t (a + OFF_U)) = 0 ->
  inv_with (delete a h)
    (with_low (Hcb (origo t) (cmps t) (delete (a + OFF_U) (ys t)) (laylow t)) (l1 ++ l2)) M ot.
Proof.
  intros Hi Hz. pose proof (iv_nodup _ _ _ _ Hi) as Nd. cbn [with_low laylow] in Nd.
  assert (P : l1 ++ a :: l2 ≡ₚ a :: l1 ++ l2) by (by rewrite <- Permutation_middle).
  assert (Nd' : NoDup (otips ot ++ l1 ++ l2) /\ a ∉ otips ot ++ l1 ++ l2).
  { rewrite P, <- Permutation_middle in Nd. apply NoDup_cons in Nd. tauto. }
  destruct Nd' as [Nd' Na]. clear Nd.
  assert (Hy : a + OFF_U ∉ oynodes ot).
  { destruct ot as [tr|]; [|apply not_elem_of_nil]. intros Hy.
    destruct (node_nonzero _ _ _ _ (iv_rep _ _ _ _ Hi) Hy) as (v & Hv & N & _).
    unfold get_y in Hz. cbn [with_low ys] in Hv. rewrite Hv in Hz. done. }
  assert (Home : forall b, b ∈ otips ot ++ l1 ++ a :: l2 -> b <> a -> b ∈ otips ot ++ l1 ++ l2)
    by (intros b; rewrite !elem_of_app, elem_of_cons; tauto).
  rewrite not_elem_of_app in Na.
  constructor; cbn [with_low laylow ys origo].
  - destruct ot as [tr|]; [|exact (iv_rep _ _ _ _ Hi)].
    eapply rep_frame; [|exact (iv_rep _ _ _ _ Hi)]. intros y Hy'. simpl.
    rewrite lookup_delete_ne; [done|]. intros <-. done.
  - destruct ot as [tr|]; [|done]. eapply wft_ext; [|exact (iv_wft _ _ _ _ Hi)].
    intros b Hb. unfold SimpleList.dig. rewrite lookup_delete_ne; [done|]. intros ->. tauto.
  - done.
  - exact (iv_ynodup _ _ _ _ Hi).
  - intros b Hb. destruct (iv_tips _ _ _ _ Hi b Hb) as (N & A & o & E & K).
    split; [done|]. split; [done|]. exists o. rewrite lookup_delete_ne; [done|]. intros ->. tauto.
  - intros b Hb. destruct (iv_cool _ _ _ _ Hi b) as (o & E & K).
    { cbn [with_low laylow]. rewrite P. by right. }
    exists o. rewrite lookup_delete_ne; [done|]. intros ->. tauto.
  - intros y Hy'. assert (Ny : y <> a + OFF_U).
    { intros ->. destruct Hy' as [?|[? H]]; [done|]. by rewrite lookup_delete_eq in H. }
    destruct (iv_home _ _ _ _ Hi y) as (b & E & Hb).
    { destruct Hy' as [?|H]; [by left|right]. by rewrite lookup_delete_ne in H by done. }
    exists b. split; [done|]. apply Home; [done|]. intros ->. done.
  - intros y v Hv Hn. apply lookup_delete_Some in Hv as [_ Hv]. by eapply (iv_zero _ _ _ _ Hi).
  - intros d b. rewrite (iv_index _ _ _ _ Hi).
    assert (b ∈ otips ot -> dig (delete a h) b = dig h b).
    { intros Hb. unfold SimpleList.dig. rewrite lookup_delete_ne; [done|]. intros ->. tauto. }
    split; intros [Hb E]; (split; [done|]); [by rewrite H|by rewrite <- H].
Qed.

Lemma clean_pass_spec todo : forall h t M ot kept,
  inv_with h (with_low t (kept ++ todo)) M ot ->
  (forall a o, a ∈ todo -> h !! a = Some o -> objcs o = []) ->
  exists h' t', clean_pass h t todo kept = Some (h', t') /\ inv_with h' t' M ot /\
    origo t' = origo t /\ (forall a, a ∈ laylow t' -> a ∈ kept ++ todo) /\
    (forall a, a ∉ todo -> h' !! a = h !! a).
Proof.
  induction todo as [|a todo IH]; intros h t M ot kept Hi Hc; cbn [clean_pass].
  - rewrite app_nil_r in Hi. eexists _, _. split; [done|]. split; [exact Hi|]. split; [done|].
    rewrite app_nil_r. done.
  - assert (Ha : a ∈ laylow (with_low t (kept ++ a :: todo)))
      by (cbn [with_low laylow]; apply elem_of_app; right; left).
    destruct (iv_cool _ _ _ _ Hi a Ha) as (o & Eo & Ro & Lo). rewrite Eo, Ro. cbn [Z.eqb].
    assert (Nt : a ∉ todo).
    { pose proof (iv_nodup _ _ _ _ Hi) as Nd. cbn [with_low laylow] in Nd.
      apply NoDup_app in Nd as (_ & _ & (_ & _ & Nd)%NoDup_app). by apply NoDup_cons in Nd as [? _]. }
    assert (Keep : forall h1, inv_with h1 (with_low t (kept ++ a :: todo)) M ot ->
      (forall b o, b ∈ todo -> h1 !! b = Some o -> objcs o = []) ->
      (forall b, b <> a -> h1 !! b = h !! b) ->
      exists h' t', clean_pass h1 t todo (kept ++ [a]) = Some (h', t') /\ inv_with h' t' M ot /\
        origo t' = origo t /\ (forall b, b ∈ laylow t' -> b ∈ kept ++ a :: todo) /\
        (forall b, b ∉ a :: todo -> h' !! b = h !! b)).
    { intros h1 Hi1 Hc1 Eq. destruct (IH h1 t M ot (kept ++ [a])) as (h' & t' & E & I & O & L & F);
        [by rewrite <- app_assoc|done|].
      exists h', t'. split; [done|]. split; [done|]. split; [done|]. rewrite <- app_assoc in L.
      split; [done|]. intros b [? ?]%not_elem_of_cons. rewrite F by done. by apply Eq. }
    destruct (negb (leaf0 (get_y t (a + OFF_U)) =? 0) || negb (leaf1 (get_y t (a + OFF_U)) =? 0)) eqn:Ez.
    + apply Keep; [done| |done]. intros b ob Hb. apply Hc. by right.
    + set (d' := <[0%nat := _]> (digest o)). set (o' := set_digest o d').
      assert (Hi' : inv_with (<[a := o']> h) (with_low t (kept ++ a :: todo)) M ot)
        by (apply age_inv; [done|done|done|]; unfold d'; apply length_insert).
      assert (Hc' : forall b ob, b ∈ todo -> <[a := o']> h !! b = Some ob -> objcs ob = []).
      { intros b ob Hb Eb. rewrite lookup_insert_ne in Eb by (intros ->; done).
        apply (Hc b); [by right|done]. }
      case_if; [|apply Keep; [done|done|intros; by rewrite lookup_insert_ne]].
      unfold HSH_DeleteObjHead. rewrite lookup_insert_eq. unfold o' at 1. cbn [set_digest refcnt].
      rewrite Ro. change (objcs o') with (objcs o). rewrite (Hc a o) by (left || done).
      cbn [Z.eqb]. rewrite bool_decide_true by done. bool_prop.
      pose proof (free_inv (<[a := o']> h) t M ot kept a todo Hi' ltac:(lia)) as Hi2.
      set (t2 := Hcb (origo t) (cmps t) (delete (a + OFF_U) (ys t)) (laylow t)) in *.
      destruct (IH (delete a (<[a := o']> h)) t2 M ot kept Hi2) as (h' & t' & E & I & O & L & F).
      { intros b ob Hb Eb. apply lookup_delete_Some in Eb as [_ Eb]. by apply (Hc' b). }
      exists h', t'. split; [exact E|]. split; [done|]. split; [done|]. split.
      * intros b Hb%L. rewrite elem_of_app in *. rewrite elem_of_cons. tauto.
      * intros b [? ?]%not_elem_of_cons. rewrite F by done. by rewrite lookup_delete_ne, lookup_insert_ne.
Qed.

(** ** The properties *)

(** C31: [hcb_lookup] on any well-formed tree.  It always answers, within the depth
    the fuel allows: with the head of that digest and one more reference if the
    tree has one, otherwise with the caller's own head, which is in the tree
    from then on; the tree stays well formed and stands for the index with that
    one binding. *)
Theorem hcb_lookup_refines (h : heap) (t : hcb) (M : index) (noh : Z) (no : objhead)
  (Hi : hcb_inv h t M) (Hn : h !! noh = Some no) (Hr : ready no) (Ha : aligned noh)
  (Hf : noh ∉ hcb_held t) :
  exists a h' t', hcb_lookup h t noh = Some (a, h', t') /\
    a = default noh (M !! digest no) /\ hcb_inv h' t' (<[digest no := a]> M) /\
    (forall o, h !! a = Some o ->
       h' !! a = Some (if a =? noh then o else set_refcnt o (refcnt o + 1))).
Proof.
  destruct (M !! digest no) as [a|] eqn:Em; simpl.
  - destruct (@sl_entry _ hcb_slinger h t M _ a Hi Em) as (Hin & o & Eo & _ & P).
    destruct (@sl_lookup_hit _ hcb_slinger h t M noh no a o Hi Hn Hr Ha Hf Em Eo) as (t' & E & _ & I).
    assert (Nn : a <> noh).
    { destruct Hi as [ot Hi]. intros ->. apply Hf. rewrite (held_in _ _ _ _ _ Hi), elem_of_app.
      left. by apply (iv_index _ _ _ _ Hi) in Em as [? _]. }
    exists a, (<[a := set_refcnt o (refcnt o + 1)]> h), t'.
    split; [exact E|]. split; [done|]. split; [rewrite (insert_id M) by exact Em; exact I|].
    intros o2 E2. assert (o2 = o) as -> by congruence. rewrite lookup_insert_eq.
    by rewrite (proj2 (Z.eqb_neq a noh) Nn).
  - destruct (@sl_lookup_miss _ hcb_slinger h t M noh no Hi Hn Hr Ha Hf Em) as (t' & E & _ & I).
    exists noh, h, t'. split; [exact E|]. split; [done|]. split; [exact I|].
    intros o Eo. by rewrite Z.eqb_refl.
Qed.

(** Two heads that differ in the last bit. *)
Definition dg (x : Z) : list Z := replicate 31 0 ++ [x].
Definition heap2 : heap := {[ 4096 := ObjHead 1 (dg 0) [] []; 8192 := ObjHead 1 (dg 1) [] [] ]}.

Lemma dg_ready x : 0 <= x < 256 -> ready (ObjHead 1 (dg x) [] []).
Proof.
  intros Hx. split; [done|]. split; [done|]. unfold dg. apply Forall_app. split.
  - apply Forall_replicate. lia.
  - by constructor.
Qed.

Lemma start_inv h : hcb_inv h hcb_start ∅.
Proof.
  exists None. constructor; simpl; try done.
  - constructor.
  - constructor.
  - intros a Ha. by apply elem_of_nil in Ha.
  - intros a Ha. by apply elem_of_nil in Ha.
  - intros y [Hy|Hy]; [by apply elem_of_nil in Hy|]. rewrite lookup_empty in Hy. by destruct Hy.
  - intros d a. rewrite lookup_empty. split; [done|]. intros [Ha _]. by apply elem_of_nil in Ha.
Qed.

Lemma hcb_lookup_refines_witness :
  exists t1 t2, hcb_lookup heap2 hcb_start 4096 = Some (4096, heap2, t1) /\
    hcb_lookup heap2 t1 8192 = Some (8192, heap2, t2) /\
    hcb_inv heap2 t2 (<[dg 1 := 8192]> (<[dg 0 := 4096]> ∅)).
Proof.
  destruct (hcb_lookup_refines heap2 hcb_start ∅ 4096 _ (start_inv heap2) eq_refl
              (dg_ready 0 ltac:(lia)) ltac:(by split) ltac:(by apply not_elem_of_empty))
    as (a & h' & t1 & E1 & Ea & I1 & _).
  rewrite lookup_empty in Ea. simpl in Ea. subst a.
  assert (E1' := E1). vm_compute in E1'. injection E1' as <- Et.
  change (Hcb 4097 0 ∅ [] = t1) in Et. subst t1.
  destruct (hcb_lookup_refines heap2 (Hcb 4097 0 ∅ []) _ 8192 _ I1 eq_refl
              (dg_ready 1 ltac:(lia)) ltac:(by split)
              ltac:(by apply (bool_decide_unpack _); vm_compute))
    as (a & h2 & t2 & E2 & Ea & I2 & _).
  simpl in Ea. rewrite lookup_insert_ne, lookup_empty in Ea by done. simpl in Ea. subst a.
  exists (Hcb 4097 0 ∅ []), t2. split; [exact E1|].
  assert (Eh : h2 = heap2).
  { assert (E2' := E2). vm_compute in E2'. injection E2' as <- _. reflexivity. }
  subst h2. split; [exact E2|exact I2].
Defined.

(** the last reference.  [hcb_deref] takes the head out of the tree, leaves the
    rest of the index alone, and parks it; every node the tree still uses lies in
    a head that is in the tree or parked. *)
Theorem hcb_deref_last_parks (h : heap) (t : hcb) (M : index) (d : list Z) (a : Z) (o : objhead)
  (Hi : hcb_inv h t M) (Hm : M !! d = Some a) (Ha : h !! a = Some o) (Hr : refcnt o = 1)
  (Hc : objcs o = []) (Hw : waitinglist o = []) :
  exists h' t' ot, hcb_deref h t a = Some (1, h', t') /\ inv_with h' t' (delete d M) ot /\
    a ∈ laylow t' /\ a ∉ otips ot /\
    (exists o', h' !! a = Some o' /\ refcnt o' = 0) /\
    forall y, y ∈ oynodes ot -> exists b, y = b + OFF_U /\ b ∈ otips ot ++ laylow t' /\ is_Some (h' !! b).
Proof.
  destruct Hi as [ot Hi]. pose proof Hm as [Hin _]%(iv_index _ _ _ _ Hi).
  destruct (iv_tips _ _ _ _ Hi a Hin) as (_ & _ & o2 & E2 & (Kl & _) & _).
  assert (o2 = o) as -> by congruence.
  set (o' := set_refcnt (set_digest o (<[0%nat := 0]> (digest o))) 0).
  destruct (delete_ok h t M ot d a o o' Hi Hm Ha) as (T' & ot' & E & L & P & Hi');
    [done|unfold o'; simpl; by rewrite length_insert|].
  exists (<[a := o']> h), (park T' a), ot'. unfold hcb_deref. rewrite Ha, Hr, E, Hc, Hw. simpl.
  split; [unfold o'; by rewrite Hr|]. split; [done|]. split; [apply elem_of_app; right; left|].
  split. { pose proof (iv_nodup _ _ _ _ Hi') as (_ & N & _)%NoDup_app. intros H. apply (N a H).
    cbn [park laylow]. apply elem_of_app. right. left. }
  split; [exists o'; by rewrite lookup_insert_eq|].
  intros y Hy. destruct (iv_home _ _ _ _ Hi' y ltac:(by left)) as (b & Eb & Hb).
  exists b. split; [done|]. split; [done|]. apply elem_of_app in Hb as [Hb|Hb].
  - destruct (iv_tips _ _ _ _ Hi' b Hb) as (_ & _ & ob & Eob & _). eauto.
  - destruct (iv_cool _ _ _ _ Hi' b Hb) as (ob & Eob & _). eauto.
Qed.

(** The tree of one head. *)
Lemma one_head : inv_with heap2 (Hcb 4097 0 ∅ []) (<[dg 0 := 4096]> ∅) (Some (Tip 4096)).
Proof.
  destruct (start_inv heap2) as [ot Hs].
  assert (ot = None) as ->.
  { destruct ot as [tr|]; [|done]. pose proof (iv_rep _ _ _ _ Hs) as R. by apply rep_nonzero in R. }
  destruct (insert_first heap2 hcb_start ∅ 4096 (ObjHead 1 (dg 0) [] []) Hs eq_refl
    (dg_ready 0 ltac:(lia)) ltac:(done) eq_refl ltac:(by apply not_elem_of_nil))
    as (t' & E & _ & Hi).
  assert (E' := E). vm_compute in E'. injection E' as Et. subst t'. exact Hi.
Qed.

Lemma hcb_deref_last_parks_witness :
  exists h' t' ot, hcb_deref heap2 (Hcb 4097 0 ∅ []) 4096 = Some (1, h', t') /\
    inv_with h' t' (delete (dg 0) (<[dg 0 := 4096]> ∅)) ot /\ 4096 ∈ laylow t'.
Proof.
  destruct (hcb_deref_last_parks heap2 (Hcb 4097 0 ∅ []) (<[dg 0 := 4096]> ∅) (dg 0) 4096
    (ObjHead 1 (dg 0) [] []) (ex_intro _ _ one_head) (lookup_insert_eq _ _ _) eq_refl eq_refl
    eq_refl eq_refl) as (h' & t' & ot & E & I & L & _).
  exists h', t', ot. split; [exact E|]. split; [exact I|exact L].
Defined.


(** A parked head at the end of its time. *)
Definition cold : heap := {[ 4096 := ObjHead 0 (60 :: replicate 31 0) [] [] ]}.

Lemma cold_inv : inv_with cold (Hcb 0 0 ∅ [4096]) ∅ None.
Proof.
  constructor; simpl; try done.
  - apply NoDup_singleton.
  - constructor.
  - intros a Ha. by apply elem_of_nil in Ha.
  - intros a ->%list_elem_of_singleton. by eexists.
  - intros y [Hy|Hy]; [by apply elem_of_nil in Hy|]. rewrite lookup_empty in Hy. by destruct Hy.
  - intros d a. rewrite lookup_empty. split; [done|]. intros [Ha _]. by apply elem_of_nil in Ha.
Qed.


End CritBitSpec.
