(* ===== verification/Http.v ===== *)
(** * Http: header sets

    [bin/varnishd/cache_http.c] without the dissection of messages, and the
    header table [include/http_headers.h].  A field [txt] is a pair of pointers;
    the model keeps the address of the text and its bytes, which a NUL follows.
    [hd] has [shd] slots of which the first [nhd] are in use; the first five
    belong to the first line of the message.  A lost header leaves a NULL slot.

    The header constants [H_xxx] are a length byte, the name and a colon. *)
From S2P Require Import Prelude Vct Ws.
Import Ws.

Module Http.

Definition txt := option (Z * list Z).

Definition HTTP_HDR_REQ : nat := 0.
Definition HTTP_HDR_URL : nat := 1.
Definition HTTP_HDR_PROTO : nat := 2.
Definition HTTP_HDR_STATUS : nat := 3.
Definition HTTP_HDR_RESPONSE : nat := 4.
Definition HTTP_HDR_FIRST : nat := 5.

Definition HDF_FILTER : Z := 1.

(** [protover] in tenths. *)
Record http := Http {
  conds : bool;
  status : Z;
  protover : Z;
  shd : nat;
  hd : list txt;
  hdf : list Z;
  nhd : nat
}.

Definition get (hp : http) (u : nat) : txt := default None (hd hp !! u).
Definition flag (hp : http) (u : nat) : Z := default 0 (hdf hp !! u).

Definition put (hp : http) (u : nat) (t : txt) (f : Z) : http :=
  Http (conds hp) (status hp) (protover hp) (shd hp) (<[u := t]> (hd hp)) (<[u := f]> (hdf hp))
       (nhd hp).
Definition set_nhd (hp : http) (n : nat) : http :=
  Http (conds hp) (status hp) (protover hp) (shd hp) (hd hp) (hdf hp) n.
Definition set_status (hp : http) (st : Z) : http :=
  Http (conds hp) st (protover hp) (shd hp) (hd hp) (hdf hp) (nhd hp).
Definition set_protover (hp : http) (v : Z) : http :=
  Http (conds hp) (status hp) v (shd hp) (hd hp) (hdf hp) (nhd hp).

(** ** The header table *)

Definition HTTPH_R_PASS : Z := Z.shiftl 1 0.
Definition HTTPH_A_PASS : Z := Z.shiftl 1 1.
Definition HTTPH_R_PIPE : Z := Z.shiftl 1 2.
Definition HTTPH_R_FETCH : Z := Z.shiftl 1 3.
Definition HTTPH_A_INS : Z := Z.shiftl 1 4.
Definition HTTPH_A_DELIVER : Z := Z.shiftl 1 5.

(** [char b[] = "*" a ":"] with the length stored by [HTTP_Init]. *)
Definition hdrconst (name : list Z) : list Z :=
  Z.of_nat (length name + 1) :: name ++ [58].

Local Infix ".|" := Z.lor (at level 40).

(** Name and filter column of [http_headers.h]. *)
Definition http_headers : list (list Z * Z) :=
  [(bs "Keep-Alive", HTTPH_R_PASS .| HTTPH_A_PASS .| HTTPH_R_FETCH);
   (bs "Accept", 0);
   (bs "Accept-Charset", 0);
   (bs "Accept-Encoding", 0);
   (bs "Accept-Language", 0);
   (bs "Accept-Ranges", HTTPH_R_PASS .| HTTPH_A_PASS .| HTTPH_R_FETCH .| HTTPH_A_INS);
   (bs "Age", HTTPH_A_INS);
   (bs "Allow", 0);
   (bs "Authorization", 0);
   (bs "Cache-Control", HTTPH_R_PASS .| HTTPH_R_FETCH);
   (bs "Connection", HTTPH_R_PASS .| HTTPH_A_PASS .| HTTPH_R_FETCH .| HTTPH_A_INS);
   (bs "Content-Encoding", 0);
   (bs "Content-Langugae", 0);
   (bs "Content-Length", HTTPH_R_FETCH .| HTTPH_A_INS);
   (bs "Content-Location", 0);
   (bs "Content-MD5", 0);
   (bs "Content-Range", HTTPH_R_PASS .| HTTPH_A_PASS .| HTTPH_R_FETCH .| HTTPH_A_INS);
   (bs "Content-Type", 0);
   (bs "Date", HTTPH_A_DELIVER);
   (bs "ETag", 0);
   (bs "Expect", 0);
   (bs "Expires", 0);
   (bs "From", 0);
   (bs "Host", 0);
   (bs "If-Match", HTTPH_R_FETCH);
   (bs "If-Modified-Since", HTTPH_R_FETCH);
   (bs "If-None-Match", HTTPH_R_FETCH);
   (bs "If-Range", HTTPH_R_FETCH);
   (bs "If-Unmodified-Since", HTTPH_R_FETCH);
   (bs "Last-Modified", 0);
   (bs "Location", 0);
   (bs "Max-Forwards", 0);
   (bs "Pragma", 0);
   (bs "Proxy-Authenticate", HTTPH_R_FETCH .| HTTPH_A_INS);
   (bs "Proxy-Authorization", HTTPH_R_FETCH .| HTTPH_A_INS);
   (bs "Range", HTTPH_R_FETCH .| HTTPH_A_INS);
   (bs "Referer", 0);
   (bs "Retry-After", 0);
   (bs "Server", 0);
   (bs "TE", HTTPH_R_PASS .| HTTPH_A_PASS .| HTTPH_R_FETCH .| HTTPH_A_INS);
   (bs "Trailer", HTTPH_R_PASS .| HTTPH_A_PASS .| HTTPH_R_FETCH .| HTTPH_A_INS);
   (bs "Transfer-Encoding", HTTPH_R_PASS .| HTTPH_A_PASS .| HTTPH_R_FETCH .| HTTPH_A_INS);
   (bs "Upgrade", HTTPH_R_PASS .| HTTPH_A_PASS .| HTTPH_R_FETCH .| HTTPH_A_INS);
   (bs "User-Agent", 0);
   (bs "Vary", 0);
   (bs "Via", 0);
   (bs "Warning", 0);
   (bs "WWW-Authenticate", 0)].

Definition H_Connection : list Z := hdrconst (bs "Connection").
Definition H_Vary : list Z := hdrconst (bs "Vary").

(** ** Response codes *)

Definition http_msg : list (Z * list Z) :=
  [(101, bs "Switching Protocols");
   (200, bs "OK");
   (201, bs "Created");
   (202, bs "Accepted");
   (203, bs "Non-Authoritative Information");
   (204, bs "No Content");
   (205, bs "Reset Content");
   (206, bs "Partial Content");
   (300, bs "Multiple Choices");
   (301, bs "Moved Permanently");
   (302, bs "Found");
   (303, bs "See Other");
   (304, bs "Not Modified");
   (305, bs "Use Proxy");
   (306, bs "(Unused)");
   (307, bs "Temporary Redirect");
   (400, bs "Bad Request");
   (401, bs "Unauthorized");
   (402, bs "Payment Required");
   (403, bs "Forbidden");
   (404, bs "Not Found");
   (405, bs "Method Not Allowed");
   (406, bs "Not Acceptable");
   (407, bs "Proxy Authentication Required");
   (408, bs "Request Timeout");
   (409, bs "Conflict");
   (410, bs "Gone");
   (411, bs "Length Required");
   (412, bs "Precondition Failed");
   (413, bs "Request Entity Too Large");
   (414, bs "Request-URI Too Long");
   (415, bs "Unsupported Media Type");
   (416, bs "Requested Range Not Satisfiable");
   (417, bs "Expectation Failed");
   (500, bs "Internal Server Error");
   (501, bs "Not Implemented");
   (502, bs "Bad Gateway");
   (503, bs "Service Unavailable");
   (504, bs "Gateway Timeout");
   (505, bs "HTTP Version Not Supported")].

Fixpoint status_loop (mp : list (Z * list Z)) (st : Z) : list Z :=
  match mp with
  | [] => bs "Unknown Error"
  | (nbr, t) :: mp => if nbr <=? st then if nbr =? st then t else status_loop mp st
                      else bs "Unknown Error"
  end.

Definition http_StatusMessage (st : Z) : option (list Z) :=
  assert! (100 <=? st) && (st <=? 999) ;;
  Some (status_loop http_msg st).

(** ** Finding headers *)

Definition Tlen (t : txt) : option nat := let? (_, b) := t in Some (length b).

(** [http_IsHdr(hh, hdr)] *)
Definition http_IsHdr (hh : txt) (hdr : list Z) : option bool :=
  let? (_, b) := hh in
  let l := Z.to_nat (u32 (schar (peek hdr))) in
  assert! (l =? length (c_str (tail hdr)))%nat ;;
  assert! at_ hdr l =? 58 ;;
  Some (strncaseeq l (tail hdr) b).

(** The loop of [http_findhdr] from slot [u] on; 0 is not found. *)
Fixpoint findhdr_loop (k u : nat) (hp : http) (l : nat) (hdr : list Z) : nat :=
  match k with
  | O => 0
  | S k =>
    match get hp u with
    | None => findhdr_loop k (S u) hp l hdr
    | Some (_, b) =>
      if (length b <? l + 1)%nat then findhdr_loop k (S u) hp l hdr
      else if negb (at_ b l =? 58) then findhdr_loop k (S u) hp l hdr
      else if negb (strncaseeq l hdr b) then findhdr_loop k (S u) hp l hdr
      else u
    end
  end.

Definition http_findhdr (hp : http) (l : nat) (hdr : list Z) : nat :=
  findhdr_loop (nhd hp - HTTP_HDR_FIRST) HTTP_HDR_FIRST hp l hdr.

Fixpoint skip_sp (p : list Z) : list Z :=
  match p with
  | c :: r => if Vct.vct_issp c then skip_sp r else p
  | [] => []
  end.

(** [http_GetHdr(hp, hdr, &ptr)]: the value found. *)
Definition http_GetHdr (hp : http) (hdr : list Z) : option (option (list Z)) :=
  let l := Z.to_nat (u32 (schar (peek hdr))) in
  assert! (l =? length (c_str (tail hdr)))%nat ;;
  assert! at_ hdr l =? 58 ;;
  let u := http_findhdr hp (l - 1) (tail hdr) in
  if (u =? 0)%nat then Some None
  else match get hp u with
       | Some (_, b) => Some (Some (skip_sp (drop l b)))
       | None => None
       end.

Fixpoint skip_token (h : list Z) : list Z :=
  match h with
  | c :: r => if negb (c =? 0) && negb (Vct.vct_issepctl c) then skip_token r else h
  | [] => []
  end.

(** What follows a matched field: the value behind an equals sign. *)
Definition field_value (h : list Z) : option (list Z) :=
  let h := skip_sp h in
  if peek h =? 61 then Some (skip_sp (tail h)) else None.

(** The loop of [http_GetHdrField] over the value, a C string.  Each turn moves
    on by a byte at least. *)
Fixpoint field_loop (fuel : nat) (h field : list Z) : option (option (list Z)) :=
  let fl := length field in
  match fuel with
  | O => None
  | S fuel =>
    if (length h <? fl)%nat then None
    else if Vct.vct_issepctl (peek h) then
      match h with [] => None | _ => field_loop fuel (tail h) field end
    else if ((length h =? fl)%nat || Vct.vct_issepctl (at_ h fl)) && bool_decide (take fl h = field)
    then Some (field_value (drop fl h))
    else field_loop fuel (skip_token h) field
  end.

Definition http_GetHdrField (hp : http) (hdr field : list Z)
  : option (option (option (list Z))) :=
  let? g := http_GetHdr hp hdr in
  match g with
  | None => Some None
  | Some h => let h := c_str h in Some (field_loop (2 * length h + 2) h (c_str field))
  end.

Definition http_HdrIs (hp : http) (hdr val : list Z) : option bool :=
  let? g := http_GetHdr hp hdr in
  match g with
  | None => Some false
  | Some p => Some (strcaseeq p val)
  end.

Inductive close_reason := NotHttp11 | ConnectionClose.

Definition is_sp_comma (c : Z) : bool := (c =? 44) || Vct.vct_issp c.

(** The length of the token [for (q = p + 1; *q; q++)] walks over. *)
Fixpoint token_len (p : list Z) : nat :=
  match p with
  | c :: r => if (c =? 0) || is_sp_comma c then O else S (token_len r)
  | [] => O
  end.

(** The loop of [http_DoConnection]: filter the headers the field names. *)
Fixpoint connection_loop (fuel : nat) (hp : http) (p : list Z) (ret : option close_reason)
  : option (http * option close_reason) :=
  match fuel with
  | O => None
  | S fuel =>
    if peek p =? 0 then Some (hp, ret)
    else if Vct.vct_issp (peek p) || (peek p =? 44) then connection_loop fuel hp (tail p) ret
    else
      let u := S (token_len (tail p)) in
      let ret := if (u =? 5)%nat && strncaseeq u p (bs "close") then Some ConnectionClose else ret in
      let n := http_findhdr hp u p in
      let hp := if (n =? 0)%nat then hp else put hp n (get hp n) (Z.lor (flag hp n) HDF_FILTER) in
      let q := drop u p in
      if peek q =? 0 then Some (hp, ret) else connection_loop fuel hp (tail q) ret
  end.

Definition http_DoConnection (hp : http) : option (http * option close_reason) :=
  let? g := http_GetHdr hp H_Connection in
  match g with
  | None => Some (hp, if protover hp <? 11 then Some NotHttp11 else None)
  | Some p => connection_loop (S (length p)) hp p None
  end.

Definition http_GetStatus (hp : http) : option Z :=
  let? _ := get hp HTTP_HDR_STATUS in Some (status hp).

Definition http_GetReq (hp : http) : option (list Z) :=
  let? (_, b) := get hp HTTP_HDR_REQ in Some b.

(** ** Storing and copying *)

Definition http_Setup (hp : http) : http :=
  Http false 0 0 (shd hp) (replicate (shd hp) None) (replicate (shd hp) 0) HTTP_HDR_FIRST.

Definition HTTP_create (nhttp : nat) (junk_hd : list txt) (junk_f : list Z) (junk : http) : http :=
  Http (conds junk) (status junk) (protover junk) nhttp junk_hd junk_f (nhd junk).

Definition http_SetH (to : http) (n : nat) (fm : Z * list Z) : option http :=
  assert! (n <? shd to)%nat ;;
  Some (put to n (Some (fm.1, c_str fm.2)) 0).

Definition http_copyh (to fm : http) (n : nat) : option http :=
  assert! (n <? shd to)%nat ;;
  let? t := get fm n in
  Some (put to n (Some t) (flag fm n)).

(** The static strings have addresses of their own. *)
Definition GET_ : Z * list Z := (0x400000, bs "GET").
Definition HTTP_1_1 : Z * list Z := (0x400010, bs "HTTP/1.1").

Definition http_ForceGet (to : http) : option http :=
  let? r := http_GetReq to in
  if streq r (bs "GET") then Some to else http_SetH to HTTP_HDR_REQ GET_.

Definition http_CopyResp (to fm : http) : option http :=
  let? to := http_SetH to HTTP_HDR_PROTO HTTP_1_1 in
  let? to := http_copyh to fm HTTP_HDR_STATUS in
  http_copyh to fm HTTP_HDR_RESPONSE.

Definition http_SetResp (to : http) (proto status response : Z * list Z) : option http :=
  let? to := http_SetH to HTTP_HDR_PROTO proto in
  let? to := http_SetH to HTTP_HDR_STATUS status in
  http_SetH to HTTP_HDR_RESPONSE response.

(** The flag says that the header was lost. *)
Definition http_copyheader (to fm : http) (n : nat) : option (http * bool) :=
  assert! (n <? shd fm)%nat ;;
  let? t := get fm n in
  if (nhd to <? shd to)%nat
  then Some (set_nhd (put to (nhd to) (Some t) 0) (S (nhd to)), false)
  else Some (to, true).

(** The [HTTPH] lines expanded in a loop body: is the field filtered for [how]? *)
Fixpoint filtered_by (tbl : list (list Z * Z)) (how : Z) (hh : txt) : option bool :=
  match tbl with
  | [] => Some false
  | (name, e) :: tbl =>
    if Z.land e how =? 0 then filtered_by tbl how hh
    else let? i := http_IsHdr hh (hdrconst name) in
         if i then Some true else filtered_by tbl how hh
  end.

(** Is slot [u] skipped: empty, named by Connection, or filtered by the table? *)
Definition skips (fm : http) (how : Z) (u : nat) : option bool :=
  match get fm u with
  | None => Some true
  | Some t =>
    if negb (Z.land (flag fm u) HDF_FILTER =? 0) then Some true
    else filtered_by http_headers how (Some t)
  end.

Fixpoint estimate_loop (k u : nat) (fm : http) (how : Z) (l n : nat) : option (nat * nat) :=
  match k with
  | O => Some (l, n)
  | S k =>
    let? sk := skips fm how u in
    if sk then estimate_loop k (S u) fm how l n
    else let? tl := Tlen (get fm u) in estimate_loop k (S u) fm how (l + (tl + 1)) (S n)
  end.

(** The bytes of workspace and the number of slots a filtered copy needs. *)
Definition http_EstimateWS (fm : http) (how : Z) : option (nat * nat) :=
  estimate_loop (nhd fm) 0 fm how 0 HTTP_HDR_FIRST.

(** The number of headers lost is counted. *)
Fixpoint filter_loop (k u : nat) (to fm : http) (how : Z) (lost : nat) : option (http * nat) :=
  match k with
  | O => Some (to, lost)
  | S k =>
    let? sk := skips fm how u in
    if sk then filter_loop k (S u) to fm how lost
    else let? (to, x) := http_copyheader to fm u in
         filter_loop k (S u) to fm how (if x then S lost else lost)
  end.

Definition http_FilterFields (to fm : http) (how : Z) : option (http * nat) :=
  let to := set_status (set_nhd to HTTP_HDR_FIRST) (status fm) in
  filter_loop (nhd fm - HTTP_HDR_FIRST) HTTP_HDR_FIRST to fm how 0.

(** [http_CopyHome(hp)]: fields outside the workspace are copied into it. *)
Fixpoint home_loop (k u : nat) (hp : http) (w : ws) (m : mem) (lost : nat)
  : option (http * ws * mem * nat) :=
  match k with
  | O => Some (hp, w, m, lost)
  | S k =>
    match get hp u with
    | None => home_loop k (S u) hp w m lost
    | Some (b, t) =>
      let e := b + Z.of_nat (length t) in
      if (s w <=? b) && (e <=? Ws.e w) then home_loop k (S u) hp w m lost
      else
        let l := Z.of_nat (length t) in
        let? (p, w) := WS_Alloc w (u32 (u32 l + 1)) in
        if negb (p =? 0)
        then home_loop k (S u) (put hp u (Some (p, t)) (flag hp u)) w (memcpy m p (t ++ [0])) lost
        else home_loop k (S u) (put hp u None (flag hp u)) w m (S lost)
    end
  end.

Definition http_CopyHome (hp : http) (w : ws) (m : mem) : option (http * ws * mem * nat) :=
  home_loop (nhd hp) 0 hp w m 0.

Definition http_ClrHeader (to : http) : http :=
  (* [sizeof to->hd] is the size of a pointer: one half of the first slot *)
  set_nhd (put to 0 None (flag to 0)) HTTP_HDR_FIRST.

Definition http_SetHeader (to : http) (hdr : Z * list Z) : option (http * bool) :=
  if (shd to <=? nhd to)%nat then Some (to, true)
  else let? to' := http_SetH to (nhd to) hdr in Some (set_nhd to' (S (nhd to)), false).

Definition http_PutField (to : http) (w : ws) (m : mem) (field : nat) (str : list Z)
  : option (http * ws * mem) :=
  let l := Z.of_nat (length (c_str str)) in
  let? (p, w) := WS_Alloc w (u32 (l + 1)) in
  if p =? 0 then Some (put to field None 0, w, m)
  else Some (put to field (Some (p, c_str str)) 0, w, memcpy m p (c_str str ++ [0])).

Definition http_PutProtocol (to : http) (w : ws) (m : mem) (protocol : list Z) :=
  http_PutField to w m HTTP_HDR_PROTO protocol.

(** [sprintf("%d")] of a number from 0 to 999. *)
Definition dec3 (n : Z) : list Z :=
  if 100 <=? n then [48 + n / 100; 48 + n / 10 mod 10; 48 + n mod 10]
  else if 10 <=? n then [48 + n / 10; 48 + n mod 10] else [48 + n].

Definition http_PutStatus (to : http) (w : ws) (m : mem) (st : Z) : option (http * ws * mem) :=
  assert! (0 <=? st) && (st <=? 999) ;;
  let? (to, w, m) := http_PutField to w m HTTP_HDR_STATUS (dec3 st) in
  Some (set_status to st, w, m).

Definition http_PutResponse (to : http) (w : ws) (m : mem) (response : list Z) :=
  http_PutField to w m HTTP_HDR_RESPONSE response.

(** [http_PrintfHeader] with the formatted text [str]; true is lost. *)
Definition http_PrintfHeader (to : http) (w : ws) (m : mem) (str : list Z)
  : option (http * ws * mem * bool) :=
  let? (l, w) := WS_Reserve w 0 in
  let n := Z.of_nat (length str) in
  let out := take (Z.to_nat (l - 1)) str ++ [0] in
  let m := if l =? 0 then m else memcpy m (f w) out in
  if (l <=? u32 (n + 1)) || (shd to <=? nhd to)%nat then
    let? w := WS_Release w 0 in Some (to, w, m, true)
  else
    let to := put to (nhd to) (Some (f w, str)) 0 in
    let? w := WS_Release w (n + 1) in
    Some (set_nhd to (S (nhd to)), w, m, false).

(** [http_FilterHeader(sp, how)]; [xv] is the formatted X-Varnish header. *)
Definition http_FilterHeader (hp fm : http) (w : ws) (m : mem) (how : Z) (xv : list Z)
  : option (http * ws * mem * nat) :=
  let? hp := http_copyh hp fm HTTP_HDR_REQ in
  let? hp := http_copyh hp fm HTTP_HDR_URL in
  let? hp := (if how =? HTTPH_R_FETCH then http_SetH hp HTTP_HDR_PROTO HTTP_1_1
              else http_copyh hp fm HTTP_HDR_PROTO) in
  let? (hp, lost) := http_FilterFields hp fm how in
  let? (hp, w, m, x) := http_PrintfHeader hp w m xv in
  Some (hp, w, m, if x then S lost else lost).

(** [http_Unset]: the read index [u] and the write index [v]. *)
Fixpoint unset_loop (k u v : nat) (hp : http) (hdr : list Z) : option (http * nat) :=
  match k with
  | O => Some (hp, v)
  | S k =>
    match get hp u with
    | None => unset_loop k (S u) v hp hdr
    | Some t =>
      let? i := http_IsHdr (Some t) hdr in
      if i then unset_loop k (S u) v hp hdr
      else unset_loop k (S u) (S v) (if (v =? u)%nat then hp else put hp v (get hp u) (flag hp u)) hdr
    end
  end.

Definition http_Unset (hp : http) (hdr : list Z) : option http :=
  let? (hp, v) := unset_loop (nhd hp - HTTP_HDR_FIRST) HTTP_HDR_FIRST HTTP_HDR_FIRST hp hdr in
  Some (set_nhd hp v).

Definition HTTP_Copy (to fm : http) : option http :=
  assert! (nhd fm <=? shd to)%nat ;;
  Some (Http (conds fm) (status fm) (protover fm) (shd to)
             (take (nhd fm) (hd fm) ++ drop (nhd fm) (hd to))
             (take (nhd fm) (hdf fm) ++ drop (nhd fm) (hdf to)) (nhd fm)).

(** [WRW_WriteH(w, hh, suf)]: the text and what goes behind it. *)
Definition WriteH (t : txt) (suf : list Z) : option (list Z) := let? (_, b) := t in Some (b ++ suf).

Fixpoint write_loop (k u : nat) (hp : http) : option (list Z) :=
  match k with
  | O => Some []
  | S k =>
    let? r := write_loop k (S u) hp in
    match get hp u with
    | None => Some r
    | Some (_, b) => Some (b ++ [13; 10] ++ r)
    end
  end.

(** The bytes [http_Write] hands to the vectored writer. *)
Definition http_Write (hp : http) (resp : bool) : option (list Z) :=
  let? (x, y, z) := (if resp
    then let? a := get hp HTTP_HDR_STATUS in Some (HTTP_HDR_PROTO, HTTP_HDR_STATUS, HTTP_HDR_RESPONSE)
    else let? a := get hp HTTP_HDR_URL in Some (HTTP_HDR_REQ, HTTP_HDR_URL, HTTP_HDR_PROTO)) in
  let? l1 := WriteH (get hp x) [32] in
  let? l2 := WriteH (get hp y) [32] in
  let? l3 := WriteH (get hp z) [13; 10] in
  let? r := write_loop (nhd hp - HTTP_HDR_FIRST) HTTP_HDR_FIRST hp in
  Some (l1 ++ l2 ++ l3 ++ r ++ [13; 10]).

(** ** Names and matches *)

Definition wf (hp : http) : Prop :=
  length (hd hp) = shd hp /\ length (hdf hp) = shd hp /\ (HTTP_HDR_FIRST <= nhd hp <= shd hp)%nat.

(** A header name the length byte of the constants can hold. *)
Definition token (name : list Z) : Prop :=
  Forall (fun c => 0 < c < 256 /\ c <> 58) name /\ (length name <= 126)%nat.

(** A field is the header [name]: the name in any case, then a colon. *)
Definition matches (name b : list Z) : bool :=
  strncaseeq (length name) name b && (at_ b (length name) =? 58).

Lemma c_str_id p : Forall (fun c => c <> 0) p -> c_str p = p.
Proof. induction 1 as [|c p Hc Hp IH]; simpl; [done|]. case_if; [lia|]. by rewrite IH. Qed.

Lemma token_hdr name : token name ->
  let hdr := hdrconst name in
  Z.to_nat (u32 (schar (peek hdr))) = S (length name) /\ c_str (tail hdr) = name ++ [58] /\
  at_ hdr (S (length name)) = 58 /\ tail hdr = name ++ [58].
Proof.
  intros [Hf Hl]. unfold hdrconst. cbn [peek tail]. split_and!.
  - unfold schar. rewrite (proj2 (Z.ltb_lt _ _)) by lia. rewrite u32_small by lia. lia.
  - apply c_str_id, Forall_app. split; [|by constructor].
    eapply Forall_impl; [exact Hf|]. simpl; lia.
  - rewrite at_cons_S, at_app_r, Nat.sub_diag by lia. done.
  - done.
Qed.

Lemma tolower_colon c : tolower c = 58 <-> c = 58.
Proof. unfold tolower. case_if; lia. Qed.

Lemma strncaseeq_snoc n a c b : length a = n -> Forall (fun c => c <> 0) a -> c <> 0 ->
  strncaseeq (S n) (a ++ [c]) b = strncaseeq n a b && (tolower c =? tolower (at_ b n)).
Proof.
  revert n b; induction a as [|x a IH]; intros n b Hn Hf Hc; simpl in Hn; subst n.
  - simpl. destruct b as [|y b]; simpl; destruct (tolower c =? _); try done; by case_if.
  - apply Forall_cons_1 in Hf as [Hx Hf]. cbn [app]. cbn [strncaseeq peek tail].
    destruct (Z.eqb_spec (tolower x) (tolower (peek b))) as [E|]; [|done].
    destruct (Z.eqb_spec x 0); [done|].
    change (strncaseeq (S (length a)) (a ++ [c]) (tail b) =
            strncaseeq (length a) a (tail b) && (tolower c =? tolower (at_ b (S (length a))))).
    rewrite IH by done. by destruct b.
Qed.

Lemma IsHdr_matches name a b : token name ->
  http_IsHdr (Some (a, b)) (hdrconst name) = Some (matches name b).
Proof.
  intros Ht. destruct (token_hdr name Ht) as (E1 & E2 & E3 & E4). destruct Ht as [Hf Hl].
  unfold http_IsHdr. rewrite E1, E2, E3, E4, length_app. cbn [length].
  replace (length name + 1)%nat with (S (length name)) by lia. rewrite Nat.eqb_refl, Z.eqb_refl. f_equal.
  rewrite strncaseeq_snoc; [|done|eapply Forall_impl; [exact Hf|simpl; lia]|done].
  unfold matches. f_equal. change (tolower 58) with 58. rewrite Z.eqb_sym.
  destruct (Z.eqb_spec (tolower (at_ b (length name))) 58) as [E|E].
  - apply (proj1 (tolower_colon _)) in E. by rewrite E.
  - symmetry. apply Z.eqb_neq. intros K. apply E. by apply (proj2 (tolower_colon _)).
Qed.

Lemma strncaseeq_app n a x b : length a = n -> strncaseeq n (a ++ x) b = strncaseeq n a b.
Proof.
  revert n b; induction a as [|y a IH]; intros n b Hn; simpl in Hn; subst n; [done|].
  simpl. by rewrite IH.
Qed.

(** Where [http_findhdr] stops. *)
Definition hit (hp : http) (name : list Z) (u : nat) : bool :=
  match get hp u with Some (_, b) => matches name b | None => false end.

Fixpoint first_hit (k u : nat) (hp : http) (name : list Z) : nat :=
  match k with
  | O => 0
  | S k => if hit hp name u then u else first_hit k (S u) hp name
  end.

Lemma findhdr_first k : forall u hp name,
  findhdr_loop k u hp (length name) (name ++ [58]) = first_hit k u hp name.
Proof.
  induction k as [|k IH]; intros u hp name; [done|]. cbn [findhdr_loop first_hit]. unfold hit, matches.
  destruct (get hp u) as [[a b]|]; [|apply IH].
  destruct (Nat.ltb_spec (length b) (length name + 1)) as [L|L].
  - rewrite IH. unfold at_. rewrite lookup_ge_None_2 by lia. simpl. by rewrite andb_false_r.
  - rewrite strncaseeq_app by done. destruct (at_ b (length name) =? 58), (strncaseeq _ _ _);
      simpl; auto.
Qed.

Lemma first_hit_spec k : forall u hp name, (0 < u)%nat ->
  let n := first_hit k u hp name in
  (n = O /\ forall v, (u <= v < u + k)%nat -> hit hp name v = false) \/
  ((u <= n < u + k)%nat /\ hit hp name n = true /\
   forall v, (u <= v < n)%nat -> hit hp name v = false).
Proof.
  induction k as [|k IH]; intros u hp name Hu; cbn [first_hit].
  - left. split; [done|]. intros; lia.
  - destruct (hit hp name u) eqn:E.
    + right. split; [lia|]. split; [done|]. intros; lia.
    + destruct (IH (S u) hp name ltac:(lia)) as [[-> H]|(H1 & H2 & H3)].
      * left. split; [done|]. intros v Hv. destruct (decide (v = u)) as [->|]; [done|]. apply H. lia.
      * right. split; [lia|]. split; [done|]. intros v Hv.
        destruct (decide (v = u)) as [->|]; [done|]. apply H3. lia.
Qed.

Lemma GetHdr_first hp name : token name ->
  http_GetHdr hp (hdrconst name) =
  let u := first_hit (nhd hp - HTTP_HDR_FIRST) HTTP_HDR_FIRST hp name in
  if (u =? 0)%nat then Some None
  else match get hp u with
       | Some (_, b) => Some (Some (skip_sp (drop (S (length name)) b)))
       | None => None
       end.
Proof.
  intros Ht. destruct (token_hdr name Ht) as (E1 & E2 & E3 & E4).
  unfold http_GetHdr. rewrite E1, E2, E3, E4, length_app. simpl.
  replace (length name + 1)%nat with (S (length name)) by lia. rewrite Nat.eqb_refl.
  unfold http_findhdr. by rewrite Nat.sub_0_r, findhdr_first.
Qed.

Lemma GetHdr_total hp name : token name -> is_Some (http_GetHdr hp (hdrconst name)).
Proof.
  intros Ht. rewrite GetHdr_first by done. cbv zeta.
  destruct (first_hit_spec (nhd hp - HTTP_HDR_FIRST) HTTP_HDR_FIRST hp name
              ltac:(unfold HTTP_HDR_FIRST; lia)) as [[-> _]|(H1 & H2 & _)]; [simpl; eauto|].
  set (n := first_hit (nhd hp - HTTP_HDR_FIRST) HTTP_HDR_FIRST hp name) in *. clearbody n.
  unfold HTTP_HDR_FIRST in H1. rewrite (proj2 (Nat.eqb_neq n 0)) by lia. unfold hit in H2.
  destruct (get hp n) as [[a b]|]; [eauto|done].
Qed.

(** ** Slots and lists *)

(** The fields in use behind the first line, with their flags; empty slots out. *)
Definition slot (hp : http) (u : nat) : list ((Z * list Z) * Z) :=
  match get hp u with Some t => [(t, flag hp u)] | None => [] end.

Definition fields_from (k u : nat) (hp : http) : list ((Z * list Z) * Z) :=
  mjoin (map (slot hp) (seq u k)).

Definition fields (hp : http) : list ((Z * list Z) * Z) :=
  fields_from (nhd hp - HTTP_HDR_FIRST) HTTP_HDR_FIRST hp.

Lemma get_put hp u t f v : (u < length (hd hp))%nat ->
  get (put hp u t f) v = if (v =? u)%nat then t else get hp v.
Proof.
  intros Hu. unfold get, put. simpl. destruct (Nat.eqb_spec v u) as [->|N].
  - by rewrite list_lookup_insert_eq.
  - by rewrite list_lookup_insert_ne.
Qed.

Lemma flag_put hp u t f v : (u < length (hdf hp))%nat ->
  flag (put hp u t f) v = if (v =? u)%nat then f else flag hp v.
Proof.
  intros Hu. unfold flag, put. simpl. destruct (Nat.eqb_spec v u) as [->|N].
  - by rewrite list_lookup_insert_eq.
  - by rewrite list_lookup_insert_ne.
Qed.

Lemma slot_put hp u t f v : (u < length (hd hp))%nat -> (u < length (hdf hp))%nat ->
  slot (put hp u t f) v = if (v =? u)%nat then match t with Some x => [(x, f)] | None => [] end
                          else slot hp v.
Proof. intros. unfold slot. rewrite get_put, flag_put by done. by destruct (v =? u)%nat. Qed.

Lemma fields_from_ext k u hp hp' : (forall v, (u <= v < u + k)%nat -> slot hp' v = slot hp v) ->
  fields_from k u hp' = fields_from k u hp.
Proof.
  intros H. unfold fields_from. f_equal. apply map_ext_in. intros v Hv%in_seq. apply H. lia.
Qed.

Lemma fields_from_S k u hp : fields_from (S k) u hp = slot hp u ++ fields_from k (S u) hp.
Proof. done. Qed.

Lemma fields_from_snoc k u hp : fields_from (S k) u hp = fields_from k u hp ++ slot hp (u + k).
Proof.
  revert u; induction k as [|k IH]; intros u.
  - unfold fields_from. simpl. by rewrite Nat.add_0_r, app_nil_r.
  - rewrite fields_from_S, IH, fields_from_S, <- app_assoc. do 3 f_equal. lia.
Qed.

Lemma wf_put hp u t f : wf hp -> wf (put hp u t f).
Proof. intros (A & B & C). unfold wf. simpl. by rewrite !length_insert. Qed.

(** The compacting loop of [http_Unset]: what is written behind [v] is what is
    kept of what was read. *)
Lemma unset_loop_spec k : forall u v hp name, wf hp -> token name ->
  (HTTP_HDR_FIRST <= v <= u)%nat -> (u + k <= shd hp)%nat ->
  exists hp' v', unset_loop k u v hp (hdrconst name) = Some (hp', v') /\ wf hp' /\
    nhd hp' = nhd hp /\ shd hp' = shd hp /\ (v <= v' <= u + k)%nat /\
    (forall i, (i < v)%nat -> slot hp' i = slot hp i) /\
    fields_from (v' - v) v hp' =
      filter (fun f => matches name (f.1).2 = false) (fields_from k u hp) /\
    (forall i, (v <= i < v')%nat -> hit hp' name i = false).
Proof.
  induction k as [|k IH]; intros u v hp name Hw Ht Hv Hu; cbn [unset_loop].
  - exists hp, v. split_and!; auto; try lia. by rewrite Nat.sub_diag.
  - rewrite fields_from_S. destruct (get hp u) as [[a b]|] eqn:Eg.
    2:{ destruct (IH (S u) v hp name Hw Ht ltac:(lia) ltac:(lia)) as (hp' & v' & E & R).
        exists hp', v'. split; [done|].
        assert (slot hp u = []) as -> by (unfold slot; by rewrite Eg). cbn [app].
        intuition (auto; lia). }
    rewrite (IsHdr_matches name a b Ht).
    assert (Es : slot hp u = [((a, b), flag hp u)]) by (unfold slot; by rewrite Eg).
    destruct (matches name b) eqn:Em.
    + destruct (IH (S u) v hp name Hw Ht ltac:(lia) ltac:(lia)) as (hp' & v' & E & R).
      exists hp', v'. split; [done|]. rewrite Es. cbn [app]. rewrite filter_cons_False by (simpl; congruence).
      intuition (auto; lia).
    + set (h1 := if (v =? u)%nat then hp else put hp v (Some (a, b)) (flag hp u)).
      destruct Hw as (W1 & W2 & W3).
      assert (Hs : forall i, slot h1 i = if (i =? v)%nat then slot hp u else slot hp i).
      { intros i. subst h1. destruct (Nat.eqb_spec v u) as [->|N].
        - destruct (Nat.eqb_spec i u) as [->|]; done.
        - rewrite slot_put by lia. by rewrite Es. }
      assert (Hw1 : wf h1 /\ nhd h1 = nhd hp /\ shd h1 = shd hp).
      { subst h1. destruct (v =? u)%nat; [by split_and!|]. split_and!; try done. by apply wf_put. }
      destruct Hw1 as (Hw1 & Hn1 & Hs1).
      destruct (IH (S u) (S v) h1 name Hw1 Ht ltac:(lia) ltac:(lia))
        as (hp' & v' & E & R1 & R2 & R3 & R4 & R5 & R6 & R7).
      exists hp', v'. split; [exact E|]. split; [done|]. split; [congruence|]. split; [congruence|].
      split; [lia|].
      assert (Hslot : slot hp' v = slot hp u) by (rewrite R5 by lia; rewrite Hs; by rewrite Nat.eqb_refl).
      split; [|split].
      * intros i Hi. rewrite R5, Hs by lia. by rewrite (proj2 (Nat.eqb_neq i v)) by lia.
      * replace (v' - v)%nat with (S (v' - S v)) by lia. rewrite fields_from_S, Hslot, R6, Es.
        rewrite filter_app, filter_cons_True, filter_nil by done. f_equal. f_equal.
        apply fields_from_ext. intros i Hi. rewrite Hs. by rewrite (proj2 (Nat.eqb_neq i v)) by lia.
      * intros i Hi. destruct (decide (i = v)) as [->|]; [|apply R7; lia].
        unfold hit. unfold slot in Hslot. rewrite Eg in Hslot.
        destruct (get hp' v) as [[a' b']|]; [|done]. by injection Hslot as -> -> _.
Qed.

(** ** Filtering *)

Definition kept_txt (how f : Z) (b : list Z) : bool :=
  (Z.land f HDF_FILTER =? 0) &&
  negb (existsb (fun ne => negb (Z.land ne.2 how =? 0) && matches ne.1 b) http_headers).

Definition kept (how : Z) (f : (Z * list Z) * Z) : Prop := kept_txt how f.2 f.1.2 = true.

#[export] Instance kept_dec how f : Decision (kept how f).
Proof. unfold kept. apply _. Defined.

Lemma headers_tokens : Forall (fun ne => token ne.1) http_headers.
Proof.
  assert (H : forallb (fun ne => forallb (fun c => (0 <? c) && (c <? 256) && negb (c =? 58)) ne.1 &&
                                 (length ne.1 <=? 126)%nat) http_headers = true)
    by (vm_compute; reflexivity).
  apply Forall_forall. intros ne Hin%list_elem_of_In. rewrite forallb_forall in H.
  specialize (H ne Hin). bool_prop. split; [|by apply Nat.leb_le].
  apply Forall_forall. intros c Hc%list_elem_of_In.
  match goal with K : forallb _ ne.1 = true |- _ => rewrite forallb_forall in K; specialize (K c Hc) end.
  bool_prop. lia.
Qed.

Lemma filtered_by_spec tbl how a b : Forall (fun ne => token ne.1) tbl ->
  filtered_by tbl how (Some (a, b)) =
  Some (existsb (fun ne => negb (Z.land ne.2 how =? 0) && matches ne.1 b) tbl).
Proof.
  induction 1 as [|[name e] tbl Ht _ IH]; [done|]. cbn [filtered_by existsb fst snd].
  destruct (Z.land e how =? 0); [exact IH|]. rewrite (IsHdr_matches name a b Ht).
  cbn [negb andb]. destruct (matches name b); [done|exact IH].
Qed.

Lemma skips_spec fm how u :
  skips fm how u = Some (match slot fm u with [f] => negb (kept_txt how f.2 f.1.2) | _ => true end).
Proof.
  unfold skips, slot, kept_txt. destruct (get fm u) as [[a b]|]; [|done]. cbn [fst snd].
  destruct (Z.land (flag fm u) HDF_FILTER =? 0); [|done]. cbn [negb andb].
  rewrite filtered_by_spec by apply headers_tokens. by rewrite negb_involutive.
Qed.

Lemma slot_cases hp u : slot hp u = [] \/ exists a b, get hp u = Some (a, b) /\ slot hp u = [((a, b), flag hp u)].
Proof. unfold slot. destruct (get hp u) as [[a b]|]; [right|left]; eauto. Qed.

(** The room a list of fields takes, each with its NUL. *)
Definition room (l : list ((Z * list Z) * Z)) : nat := sum_list (map (fun f => S (length f.1.2)) l).

Lemma room_cons f l : room (f :: l) = (S (length f.1.2) + room l)%nat.
Proof. done. Qed.

Lemma room_app l1 l2 : room (l1 ++ l2) = (room l1 + room l2)%nat.
Proof. induction l1 as [|f l1 IH]; [done|]. cbn [app]. rewrite !room_cons. lia. Qed.

Lemma estimate_loop_spec k : forall u fm how l n,
  let ks := filter (kept how) (fields_from k u fm) in
  estimate_loop k u fm how l n = Some ((l + room ks)%nat, (n + length ks)%nat).
Proof.
  induction k as [|k IH]; intros u fm how l n; cbv zeta; cbn [estimate_loop].
  - unfold fields_from. simpl. unfold room. simpl. by rewrite !Nat.add_0_r.
  - rewrite skips_spec, fields_from_S, filter_app, room_app, length_app.
    destruct (slot_cases fm u) as [->|(a & b & Eg & ->)].
    + rewrite IH. done.
    + cbn [fst snd]. rewrite Eg. cbn [Tlen]. destruct (kept_txt how (flag fm u) b) eqn:E; cbn [negb].
      * rewrite filter_cons_True, filter_nil by (exact E). rewrite IH, room_cons.
        cbn [fst snd length app]. change (room []) with O. f_equal. f_equal; lia.
      * rewrite filter_cons_False, filter_nil by (unfold kept; simpl; congruence). rewrite IH. done.
Qed.

Lemma filter_loop_spec k : forall u to fm how lost, wf to -> (u + k <= shd fm)%nat ->
  let ks := filter (kept how) (fields_from k u fm) in
  (nhd to + length ks <= shd to)%nat ->
  exists to', filter_loop k u to fm how lost = Some (to', lost) /\ wf to' /\
    shd to' = shd to /\ nhd to' = (nhd to + length ks)%nat /\
    (forall i, (i < nhd to)%nat -> slot to' i = slot to i) /\
    fields_from (length ks) (nhd to) to' = map (fun f => (f.1, 0)) ks.
Proof.
  induction k as [|k IH]; intros u to fm how lost Hw Hu ks Hr; cbn [filter_loop].
  - exists to. subst ks. unfold fields_from. simpl. split_and!; auto.
  - subst ks. rewrite fields_from_S, filter_app in *. rewrite skips_spec.
    destruct (slot_cases fm u) as [E|(a & b & Eg & E)]; rewrite E in *.
    + apply IH; [done|lia|done].
    + cbn [fst snd]. destruct (kept_txt how (flag fm u) b) eqn:K; cbn [negb].
      * rewrite filter_cons_True, filter_nil in * by (exact K). cbn [app length map fst] in *.
        unfold http_copyheader. rewrite (proj2 (Nat.ltb_lt u (shd fm))) by lia. rewrite Eg.
        rewrite (proj2 (Nat.ltb_lt (nhd to) (shd to))) by lia. cbn iota.
        set (t1 := set_nhd _ _). destruct Hw as (W1 & W2 & W3).
        assert (Hw1 : wf t1) by (unfold t1, wf; simpl; rewrite !length_insert; lia).
        destruct (IH (S u) t1 fm how lost Hw1 ltac:(lia)) as (to' & R1 & R2 & R3 & R4 & R5 & R6).
        { unfold t1. simpl in *. lia. }
        assert (Hs : forall i, slot t1 i = if (i =? nhd to)%nat then [((a, b), 0)] else slot to i).
        { intros i. change (slot t1 i) with (slot (put to (nhd to) (Some (a, b)) 0) i).
          by rewrite slot_put by lia. }
        exists to'. change (nhd t1) with (S (nhd to)) in *. change (shd t1) with (shd to) in *.
        split; [done|]. split; [done|]. split; [done|]. split; [lia|]. split.
        -- intros i Hi. rewrite R5, Hs by lia. by rewrite (proj2 (Nat.eqb_neq _ _)) by lia.
        -- rewrite fields_from_S, R6, R5, Hs, Nat.eqb_refl by lia. done.
      * rewrite filter_cons_False, filter_nil in * by (unfold kept; simpl; congruence).
        apply IH; [done|lia|done].
Qed.

(** The texts in two sets of slots agree. *)
Definition same_texts (hp hp' : http) : Prop :=
  forall i, map (fun f => f.1.2) (slot hp' i) = map (fun f => f.1.2) (slot hp i).

Lemma same_texts_fields hp hp' k u : same_texts hp hp' ->
  map (fun f => f.1.2) (fields_from k u hp') = map (fun f => f.1.2) (fields_from k u hp).
Proof.
  intros H. revert u; induction k as [|k IH]; intros u; [done|].
  by rewrite !fields_from_S, !map_app, H, IH.
Qed.

(** Copying home: nothing is lost while the room suffices. *)
Lemma home_loop_spec k : forall u hp w m lost, wf hp -> Ws.wf w -> r w = 0 ->
  (u + k <= shd hp)%nat -> Z.of_nat (room (fields_from k u hp)) <= Ws.e w - Ws.f w ->
  exists hp' w' m', home_loop k u hp w m lost = Some (hp', w', m', lost) /\
    nhd hp' = nhd hp /\ Ws.wf w' /\ same_texts hp hp'.
Proof.
  induction k as [|k IH]; intros u hp w m lost Hw Ww Hr Hu Hroom; cbn [home_loop].
  - exists hp, w, m. by split_and!.
  - rewrite fields_from_S, room_app in Hroom.
    destruct (slot_cases hp u) as [E|(a & b & Eg & E)].
    + assert (get hp u = None) as -> by (unfold slot in E; by destruct (get hp u)).
      rewrite E in Hroom. apply (IH (S u)); auto; lia.
    + rewrite Eg. rewrite E, room_cons in Hroom. simpl in Hroom.
      destruct ((s w <=? a) && (a + Z.of_nat (length b) <=? Ws.e w)); [apply (IH (S u)); auto; lia|].
      assert (Hl : Z.of_nat (length b) < 2 ^ 32 - 1) by (unfold Ws.wf in Ww; lia).
      rewrite (u32_small (Z.of_nat _)), u32_small by lia.
      destruct (WS_Alloc_spec w (Z.of_nat (length b) + 1) Ww Hr ltac:(lia)) as [[L ->]|[L ->]]; [|lia].
      replace (f w =? 0) with false by (unfold Ws.wf in Ww; lia). cbn [negb].
      set (h1 := put _ _ _ _). set (w1 := MkWs _ _ _ _ _).
      destruct Hw as (W1 & W2 & W3).
      assert (Hs : forall i, slot h1 i = if (i =? u)%nat then [((f w, b), flag hp u)] else slot hp i)
        by (intros i; unfold h1; by rewrite slot_put by lia).
      destruct (IH (S u) h1 w1 (memcpy m (f w) (b ++ [0])) lost) as (hp' & w' & m' & R1 & R2 & R3 & R4).
      { by apply wf_put. } { unfold Ws.wf in *. simpl. lia. } { done. }
      { change (shd h1) with (shd hp). lia. }
      { rewrite (fields_from_ext k (S u) hp h1); [simpl; lia|].
        intros i Hi. rewrite Hs. by rewrite (proj2 (Nat.eqb_neq _ _)) by lia. }
      exists hp', w', m'. split_and!; auto. intros i. rewrite R4, Hs.
      destruct (Nat.eqb_spec i u) as [->|]; [|done]. by rewrite E.
Qed.

Lemma nohit_fields k u hp name : (forall v, (u <= v < u + k)%nat -> hit hp name v = false) ->
  Forall (fun f => matches name f.1.2 = false) (fields_from k u hp).
Proof.
  revert u; induction k as [|k IH]; intros u H; [constructor|]. rewrite fields_from_S.
  apply Forall_app. split; [|apply IH; intros; apply H; lia].
  specialize (H u ltac:(lia)). unfold hit in H. unfold slot.
  destruct (get hp u) as [[a b]|]; by repeat constructor.
Qed.

Lemma fields_from_split k j u hp : (j <= k)%nat ->
  fields_from k u hp = fields_from j u hp ++ fields_from (k - j) (u + j) hp.
Proof.
  revert u k; induction j as [|j IH]; intros u k H.
  - by rewrite Nat.sub_0_r, Nat.add_0_r.
  - destruct k as [|k]; [lia|]. rewrite !fields_from_S, <- app_assoc, (IH (S u) k) by lia.
    by replace (u + S j)%nat with (S u + j)%nat by lia.
Qed.

(** ** The properties *)

(** looking up a header never aborts.  The value found is that of the first
    field in use whose name is the wanted one in any case, from its first
    non-blank byte on; if nothing is found no field has that name. *)
Theorem http_GetHdr_first (hp : http) (name : list Z) (Ht : token name) :
  match http_GetHdr hp (hdrconst name) with
  | None => False
  | Some None => Forall (fun f => matches name f.1.2 = false) (fields hp)
  | Some (Some v) => exists l1 a b fl l2, fields hp = l1 ++ ((a, b), fl) :: l2 /\
      Forall (fun f => matches name f.1.2 = false) l1 /\ matches name b = true /\
      v = skip_sp (drop (S (length name)) b)
  end.
Proof.
  rewrite GetHdr_first by done. cbv zeta. set (k := (nhd hp - HTTP_HDR_FIRST)%nat).
  destruct (first_hit_spec k HTTP_HDR_FIRST hp name ltac:(unfold HTTP_HDR_FIRST; lia))
    as [[-> H]|(H1 & H2 & H3)].
  - simpl. unfold fields. fold k. by apply nohit_fields.
  - set (n := first_hit k HTTP_HDR_FIRST hp name) in *. unfold HTTP_HDR_FIRST in H1, H3.
    rewrite (proj2 (Nat.eqb_neq n 0)) by lia. unfold hit in H2.
    destruct (get hp n) as [[a b]|] eqn:Eg; [|done].
    exists (fields_from (n - 5) 5 hp), a, b, (flag hp n), (fields_from (k - (n - 5) - 1) (S n) hp).
    split_and!; auto.
    + unfold fields. fold k. unfold HTTP_HDR_FIRST. rewrite (fields_from_split k (n - 5)) by lia.
      f_equal. replace (5 + (n - 5))%nat with n by lia.
      replace (k - (n - 5))%nat with (S (k - (n - 5) - 1)) at 1 by lia. rewrite fields_from_S.
      unfold slot. by rewrite Eg.
    + apply nohit_fields. intros v Hv. apply H3. lia.
Qed.

(** A small request. *)
Definition req0 : http :=
  Http false 0 11 8
    [Some (100, bs "GET"); Some (104, bs "/"); Some (106, bs "HTTP/1.1"); None; None;
     Some (116, bs "Host: a"); Some (125, bs "X-A: 1"); Some (133, bs "HOST:  b")]
    (replicate 8 0) 8.

Lemma token_host : token (bs "Host").
Proof. split; [|vm_compute; lia]. repeat (apply Forall_cons; split; [vm_compute; by split|]). done. Qed.

Lemma http_GetHdr_first_witness :
  token (bs "Host") /\ http_GetHdr req0 (hdrconst (bs "Host")) = Some (Some (bs "a")) /\
  exists l1 a b fl l2, fields req0 = l1 ++ ((a, b), fl) :: l2 /\ matches (bs "Host") b = true.
Proof.
  pose proof (http_GetHdr_first req0 (bs "Host") token_host) as H.
  change (http_GetHdr req0 (hdrconst (bs "Host"))) with (Some (Some (bs "a"))) in H.
  destruct H as (l1 & a & b & fl & l2 & E & _ & M & _).
  split; [exact token_host|]. split; [reflexivity|]. exists l1, a, b, fl, l2. by split.
Defined.

(** [http_Unset] removes every field of the given name and nothing else.  The
    other fields keep their order and flags, empty slots are squeezed out, the
    first line is not touched, and the name is not found afterwards. *)
Theorem http_Unset_removes (hp : http) (name : list Z) (Hw : wf hp) (Ht : token name) :
  exists hp', http_Unset hp (hdrconst name) = Some hp' /\ wf hp' /\
    fields hp' = filter (fun f => matches name (f.1).2 = false) (fields hp) /\
    http_GetHdr hp' (hdrconst name) = Some None /\
    forall i, (i < HTTP_HDR_FIRST)%nat -> slot hp' i = slot hp i.
Proof.
  pose proof Hw as (W1 & W2 & W3).
  destruct (unset_loop_spec (nhd hp - HTTP_HDR_FIRST) HTTP_HDR_FIRST HTTP_HDR_FIRST hp name Hw Ht
              ltac:(lia) ltac:(lia)) as (h1 & v & E & (V1 & V2 & V3) & En & Es & Hv & Hlow & Hf & Hh).
  exists (set_nhd h1 v). unfold http_Unset. rewrite E. split; [done|].
  split; [unfold wf; simpl; lia|]. split; [exact Hf|]. split; [|exact Hlow].
  rewrite GetHdr_first by done. cbv zeta. cbn [set_nhd nhd].
  destruct (first_hit_spec (v - HTTP_HDR_FIRST) HTTP_HDR_FIRST (set_nhd h1 v) name
              ltac:(unfold HTTP_HDR_FIRST; lia)) as [[-> _]|(H1 & H2 & _)]; [done|].
  exfalso. refine (eq_true_false_abs _ H2 _). apply (Hh (first_hit _ _ _ _)). lia.
Qed.

Lemma req0_wf : wf req0.
Proof. unfold wf. vm_compute. lia. Qed.

Lemma http_Unset_removes_witness :
  wf req0 /\ exists hp', http_Unset req0 (hdrconst (bs "Host")) = Some hp' /\
    fields hp' = [((125, bs "X-A: 1"), 0)] /\ nhd hp' = 6%nat.
Proof.
  split; [exact req0_wf|].
  destruct (http_Unset_removes req0 (bs "Host") req0_wf token_host) as (hp' & E & _ & F & _).
  exists hp'. split; [exact E|]. split; [rewrite F; reflexivity|].
  vm_compute in E. injection E as <-. reflexivity.
Defined.

(** C38: the estimate is enough.  A destination with the estimated number of slots
    and a workspace with the estimated room (whose first line takes no more than
    that of the source) receives every field the filter keeps, in order: neither
    [http_FilterFields] nor [http_CopyHome] loses a header, and no assertion
    fails. *)
Theorem http_EstimateWS_suffices (fm to : http) (how : Z) (w : ws) (m : mem) (l n : nat)
  (Hf : wf fm) (Ht : wf to) (Hw : Ws.wf w) (Hr : r w = 0)
  (He : http_EstimateWS fm how = Some (l, n)) (Hn : (n <= shd to)%nat)
  (Hroom : Z.of_nat l <= Ws.e w - Ws.f w)
  (Hline : (room (fields_from 5 0 to) <= room (filter (kept how) (fields_from 5 0 fm)))%nat) :
  exists to1 to2 w' m',
    http_FilterFields to fm how = Some (to1, 0%nat) /\
    http_CopyHome to1 w m = Some (to2, w', m', 0%nat) /\ Ws.wf w' /\
    map (fun f => f.1.2) (fields to2) = map (fun f => f.1.2) (filter (kept how) (fields fm)).
Proof.
  unfold http_EstimateWS in He. rewrite estimate_loop_spec in He. injection He as <- <-.
  pose proof Hf as (F1 & F2 & F3). pose proof Ht as (T1 & T2 & T3).
  change HTTP_HDR_FIRST with 5%nat in F3, T3.
  rewrite (fields_from_split (nhd fm) 5) in Hn, Hroom by lia. rewrite filter_app in Hn, Hroom.
  rewrite length_app in Hn. rewrite room_app in Hroom. cbn [Nat.add] in Hn, Hroom.
  change (fields_from (nhd fm - 5) 5 fm) with (fields fm) in *.
  set (ks := filter (kept how) (fields fm)) in *.
  set (t0 := set_status (set_nhd to HTTP_HDR_FIRST) (status fm)).
  assert (W0 : wf t0) by (unfold wf; simpl; change HTTP_HDR_FIRST with 5%nat; lia).
  destruct (filter_loop_spec (nhd fm - HTTP_HDR_FIRST) HTTP_HDR_FIRST t0 fm how 0 W0
    ltac:(change HTTP_HDR_FIRST with 5%nat; lia)) as (to1 & E1 & W1 & S1 & N1 & L1 & X1).
  { cbn [t0 set_status set_nhd nhd shd]. change (fields_from _ _ fm) with (fields fm). fold ks.
    change HTTP_HDR_FIRST with 5%nat. lia. }
  change (fields_from (nhd fm - HTTP_HDR_FIRST) HTTP_HDR_FIRST fm) with (fields fm) in *. fold ks in N1, X1.
  change (nhd t0) with 5%nat in *.
  assert (Ef : fields to1 = map (fun f => (f.1, 0)) ks).
  { unfold fields. rewrite N1. change HTTP_HDR_FIRST with 5%nat.
    replace (5 + length ks - 5)%nat with (length ks) by lia. exact X1. }
  assert (E5 : fields_from 5 0 to1 = fields_from 5 0 to)
    by (apply fields_from_ext; intros v Hv; by rewrite L1 by lia).
  assert (Er : room (fields_from (nhd to1) 0 to1) = (room (fields_from 5 0 to) + room ks)%nat).
  { rewrite (fields_from_split (nhd to1) 5) by lia. rewrite room_app, E5. f_equal.
    change (fields_from (nhd to1 - 5) (0 + 5) to1) with (fields to1). rewrite Ef.
    unfold room. by rewrite map_map. }
  pose proof W1 as (V1 & V2 & V3).
  destruct (home_loop_spec (nhd to1) 0 to1 w m 0 W1 Hw Hr ltac:(lia))
    as (to2 & w' & m' & E2 & N2 & Ww & X2); [rewrite Er; lia|].
  exists to1, to2, w', m'. split; [exact E1|]. split; [exact E2|]. split; [exact Ww|].
  unfold fields at 1. rewrite N2, (same_texts_fields _ _ _ _ X2).
  change (fields_from (nhd to1 - HTTP_HDR_FIRST) HTTP_HDR_FIRST to1) with (fields to1).
  by rewrite Ef, map_map.
Qed.

(** An empty header set of twelve slots. *)
Definition empty12 : http := Http false 0 0 12 (replicate 12 None) (replicate 12 0) 5.

Lemma http_EstimateWS_suffices_witness :
  http_EstimateWS req0 HTTPH_R_PASS = Some (39%nat, 11%nat) /\
  exists to1 to2 w' m', http_FilterFields empty12 req0 HTTPH_R_PASS = Some (to1, 0%nat) /\
    http_CopyHome to1 ws64 ∅ = Some (to2, w', m', 0%nat) /\
    map (fun f => f.1.2) (fields to2) = [bs "Host: a"; bs "X-A: 1"; bs "HOST:  b"].
Proof.
  pose proof Ws.ws64_wf as Hw.
  destruct (http_EstimateWS_suffices req0 empty12 HTTPH_R_PASS ws64 ∅ 39 11 req0_wf
    ltac:(unfold wf; vm_compute; lia) Hw ltac:(reflexivity) ltac:(vm_compute; reflexivity)
    ltac:(simpl; lia) ltac:(simpl; lia) ltac:(vm_compute; lia))
    as (to1 & to2 & w' & m' & E1 & E2 & _ & F).
  split; [vm_compute; reflexivity|].
  exists to1, to2, w', m'. split; [exact E1|]. split; [exact E2|]. rewrite F. reflexivity.
Defined.

End Http.
