(* ===== verification/Dissect.v ===== *)
(** * Dissect: parsing HTTP messages

    [bin/varnishd/cache_http.c], the functions that cut a message into header
    fields.  They work in place: the buffer holds the received bytes up to the
    NUL behind them, which also includes pipelined input behind the end [e] of
    the message; a store at the NUL itself changes nothing.  Positions are
    indices into the buffer, [base] is its address.  The result codes are those
    of the program: 0, -1 (refused) and an HTTP status. *)
From S2P Require Import Prelude Vct Ws Http.

Module Dissect.
Import Vct Http.

Definition text (base : Z) (buf : list Z) (i j : nat) : txt :=
  Some (base + Z.of_nat i, take (j - i) (drop i buf)).

Definition set_conds (hp : http) (b : bool) : http :=
  Http b (status hp) (protover hp) (shd hp) (hd hp) (hdf hp) (nhd hp).

(** [hp->hd[h].b = ...; hp->hd[h].e = ...] *)
Definition set_txt (hp : http) (h : nat) (t : txt) : http := put hp h t (flag hp h).

(** How far a loop [while (cond( *p)) p++] goes. *)
Fixpoint run (cond : Z -> bool) (l : list Z) : nat :=
  match l with
  | c :: l => if cond c then S (run cond l) else O
  | [] => O
  end.

(** [while (vct_islws( *q)) *q++ = ' '] with the length of the run. *)
Definition fill (buf : list Z) (q n : nat) : list Z :=
  take q buf ++ replicate n 32 ++ drop (q + n) buf.

(** The end [q] of the next header and the start [r] of what follows it.  Line
    continuations are turned into spaces. *)
Fixpoint line_end (fuel : nat) (buf : list Z) (q r e : nat) : option (list Z * nat * nat) :=
  match fuel with
  | O => None
  | S fuel =>
    if (r <? e)%nat then
      if negb (vct_iscrlf (at_ buf r)) then line_end fuel buf q (S r) e
      else
        let q := r in
        let r := (r + vct_skipcrlf (drop r buf))%nat in
        if (e <=? r)%nat then Some (buf, q, r)
        else if negb (vct_issp (at_ buf r)) then Some (buf, q, r)
        else
          let n := run vct_islws (drop q buf) in
          line_end fuel (fill buf q n) (q + n) r e
    else Some (buf, q, r)
  end.

(** [while (q > p && vct_issp(q[-1])) q--] *)
Fixpoint trim (buf : list Z) (p q : nat) : nat :=
  match q with
  | O => O
  | S q' => if (p <? q)%nat && vct_issp (at_ buf q') then trim buf p q' else q
  end.

(** A conditional: the name starts with "If-". *)
Definition is_if (b : list Z) : bool :=
  ((at_ b 0 =? 105) || (at_ b 0 =? 73)) && ((at_ b 1 =? 102) || (at_ b 1 =? 70)) && (at_ b 2 =? 45).

Fixpoint hdr_loop (fuel : nat) (hp : http) (buf : list Z) (base : Z) (p e : nat)
  : option (http * list Z * Z) :=
  match fuel with
  | O => None
  | S fuel =>
    if (p <? e)%nat then
      let? (buf, q, r) := line_end (S e) buf p p e in
      if (p =? q)%nat then Some (hp, buf, 0)
      else
        let hp := if is_if (drop p buf) then set_conds hp true else hp in
        let q := trim buf p q in
        let buf := <[q := 0]> buf in
        if (nhd hp <? shd hp)%nat then
          hdr_loop fuel (set_nhd (put hp (nhd hp) (text base buf p q) 0) (S (nhd hp))) buf base r e
        else Some (hp, buf, 400)
    else Some (hp, buf, 0)
  end.

Definition http_dissect_hdrs (hp : http) (buf : list Z) (base : Z) (p e : nat)
  : option (http * list Z * Z) :=
  let p := if at_ buf p =? 13 then S p else p in
  hdr_loop (S e) (set_conds (set_nhd hp HTTP_HDR_FIRST) false) buf base p e.

(** [for (; !stop( *p); p++) if (vct_isctl( *p)) return (-1);] — the length of the
    field.  The NUL at the end is a control character. *)
Fixpoint field (stop : Z -> bool) (l : list Z) : option nat :=
  match l with
  | c :: l => if stop c then Some O else if vct_isctl c then None else let? n := field stop l in Some (S n)
  | [] => if stop 0 then Some O else None
  end.

(** [for (; vct_issp( *p); p++) if (vct_isctl( *p)) return (-1);] *)
Fixpoint spaces (l : list Z) : option nat :=
  match l with
  | c :: l => if vct_issp c then if vct_isctl c then None else let? n := spaces l in Some (S n) else Some O
  | [] => Some O
  end.

Definition http_splitline (hp : http) (buf : list Z) (base : Z) (e : nat) (h1 h2 h3 : nat)
  : option (http * list Z * Z) :=
  let p := run vct_islws buf in
  match field vct_issp (drop p buf) with
  | None => Some (hp, buf, -1)
  | Some n1 =>
    let e1 := (p + n1)%nat in
    let hp := set_txt hp h1 (text base buf p e1) in
    match spaces (drop e1 buf) with
    | None => Some (hp, buf, -1)
    | Some k1 =>
      let p := (e1 + k1)%nat in
      match field vct_islws (drop p buf) with
      | None => Some (hp, buf, -1)
      | Some n2 =>
        let e2 := (p + n2)%nat in
        let hp := set_txt hp h2 (text base buf p e2) in
        let? l2 := Tlen (get hp h2) in
        if (l2 =? 0)%nat then Some (hp, buf, 400)
        else
          match spaces (drop e2 buf) with
          | None => Some (hp, buf, -1)
          | Some k2 =>
            let p := (e2 + k2)%nat in
            match field vct_iscrlf (drop p buf) with
            | None => Some (hp, buf, -1)
            | Some n3 =>
              let e3 := (p + n3)%nat in
              let hp := set_txt hp h3 (text base buf p e3) in
              let p := (e3 + vct_skipcrlf (drop e3 buf))%nat in
              let buf := <[e3 := 0]> (<[e2 := 0]> (<[e1 := 0]> buf)) in
              http_dissect_hdrs hp buf base p e
            end
          end
      end
    end
  end.

Definition http_ProtoVer (hp : http) : option http :=
  let? (_, b) := get hp HTTP_HDR_PROTO in
  Some (set_protover hp (if strcaseeq b (bs "HTTP/1.0") then 10
                         else if strcaseeq b (bs "HTTP/1.1") then 11 else 9)).

(** [http_DissectRequest(sp)] of the message in [sp->htc]. *)
Definition http_DissectRequest (hp : http) (buf : list Z) (base : Z) (e : nat) : option (http * list Z * Z) :=
  let? (hp, buf, i) := http_splitline hp buf base e HTTP_HDR_REQ HTTP_HDR_URL HTTP_HDR_PROTO in
  if negb (i =? 0) then Some (hp, buf, i)
  else let? hp := http_ProtoVer hp in Some (hp, buf, i).

(** [strtoul(p, NULL, 10)] stored in an [int]. *)
Fixpoint digits (l : list Z) (n : Z) : Z :=
  match l with
  | c :: l => if isdigit c then digits l (n * 10 + (c - 48)) else n
  | [] => n
  end.
Definition ULONG_MAX : Z := 2 ^ 64 - 1.
Definition strtoul (l : list Z) : Z :=
  let l := drop (run isspace l) l in
  let v := if (peek l =? 43) || (peek l =? 45) then digits (tail l) 0 else digits l 0 in
  if ULONG_MAX <? v then ULONG_MAX else if peek l =? 45 then u64 (- v) else v.
Definition to_int (z : Z) : Z := let u := u32 z in if u <? 2 ^ 31 then u else u - 2 ^ 32.

(** The checks of a response line, for the code 0 or 503. *)
Definition check_response (hp : http) : option (http * Z) :=
  let? (_, b) := get hp HTTP_HDR_PROTO in
  if negb (bool_decide (take 7 b = bs "HTTP/1.")) then Some (hp, 503)
  else
    let? l := Tlen (get hp HTTP_HDR_STATUS) in
    if negb (l =? 3)%nat then Some (hp, 503)
    else
      let? (_, b) := get hp HTTP_HDR_STATUS in
      let hp := set_status hp (to_int (strtoul b)) in
      Some (hp, if (status hp <? 100) || (999 <? status hp) then 503 else 0).

(** The standard text stands in for a missing one; [msg] is the address of the
    text for a status. *)
Definition standard_reason (msg : Z -> Z) (hp : http) : option http :=
  if match get hp HTTP_HDR_RESPONSE with None => true | Some (_, b) => (length b =? 0)%nat end
  then let? t := http_StatusMessage (status hp) in
       Some (set_txt hp HTTP_HDR_RESPONSE (Some (msg (status hp), t)))
  else Some hp.

(** [http_DissectResponse(w, htc, hp)] *)
Definition http_DissectResponse (msg : Z -> Z) (hp : http) (buf : list Z) (base : Z) (e : nat)
  : option (http * list Z * Z) :=
  let? (hp, buf, j) := http_splitline hp buf base e HTTP_HDR_PROTO HTTP_HDR_STATUS HTTP_HDR_RESPONSE in
  let? (hp, i) := (if negb (j =? 0) then Some (hp, 503) else check_response hp) in
  let? hp := (if negb (i =? 0) then Some (set_status hp i) else http_ProtoVer hp) in
  let? hp := standard_reason msg hp in
  Some (hp, buf, i).

(** ** Character classes *)

Lemma is_u8 x y : vct_is (u8 x) y = vct_is x y.
Proof. unfold vct_is, u8. by rewrite Z.mod_mod. Qed.

Lemma classes x : vct_islws x = vct_issp x || vct_iscrlf x /\ (vct_iscrlf x = true -> vct_isctl x = true /\ vct_issp x = false).
Proof.
  assert (B : 0 <= u8 x < 256) by (unfold u8; apply Z.mod_pos_bound; lia).
  unfold vct_islws, vct_issp, vct_iscrlf, vct_isctl. rewrite <- (is_u8 x VCT_LWS), <- (is_u8 x VCT_SP),
    <- (is_u8 x VCT_CRLF), <- (is_u8 x VCT_CTL). generalize (u8 x) B. clear. intros y B.
  pose proof (forall_bytes (fun y => eqb (vct_is y VCT_LWS) (vct_is y VCT_SP || vct_is y VCT_CRLF) &&
    (negb (vct_is y VCT_CRLF) || vct_is y VCT_CTL && negb (vct_is y VCT_SP))) ltac:(by vm_compute) y B) as H.
  cbv beta in H. apply andb_true_iff in H as [H1 H2]. apply eqb_prop in H1. split; [done|]. intros E. rewrite E in H2.
  cbn in H2. apply andb_true_iff in H2 as [H2 H3]. split; [done|by apply negb_true_iff].
Qed.

Lemma lws_cases x : vct_islws x = false -> vct_issp x = false /\ vct_iscrlf x = false.
Proof. rewrite (proj1 (classes x)). by intros [? ?]%orb_false_iff. Qed.

Lemma not_ctl x : vct_isctl x = false -> vct_iscrlf x = false.
Proof. intros H. destruct (vct_iscrlf x) eqn:E; [|done]. apply classes in E as [E _]. congruence. Qed.

Lemma sp32 : vct_issp 32 = true /\ vct_iscrlf 32 = false /\ vct_islws 32 = true /\ vct_isctl 32 = false.
Proof. by vm_compute. Qed.

(** ** Runs *)

Lemma run_app cond a l : Forall (fun c => cond c = true) a -> run cond (a ++ l) = (length a + run cond l)%nat.
Proof. induction 1 as [|c a Hc Ha IH]; [done|]. simpl. by rewrite Hc, IH. Qed.

Lemma run_stop cond l : cond (peek l) = false -> run cond l = O.
Proof. destruct l as [|c l]; [done|]. simpl. by intros ->. Qed.

Lemma run_le cond l : (run cond l <= length l)%nat.
Proof. induction l as [|c l IH]; [done|]. simpl. destruct (cond c); lia. Qed.

Lemma run_at cond l i : (i < run cond l)%nat -> cond (at_ l i) = true.
Proof.
  revert i; induction l as [|c l IH]; intros i Hi; simpl in Hi; [lia|]. destruct (cond c) eqn:E; [|lia].
  destruct i as [|i]; [done|]. rewrite at_cons_S. apply IH. lia.
Qed.

Lemma field_app stop a l : Forall (fun c => stop c = false /\ vct_isctl c = false) a -> stop (peek l) = true ->
  field stop (a ++ l) = Some (length a).
Proof.
  intros Ha Hl. induction Ha as [|c a [H1 H2] Ha IH]; simpl.
  - destruct l as [|c l]; simpl in *; by rewrite Hl.
  - by rewrite H1, H2, IH.
Qed.

Lemma field_some stop l n : field stop l = Some n -> (n <= length l)%nat /\ stop (at_ l n) = true /\
  forall i, (i < n)%nat -> stop (at_ l i) = false /\ vct_isctl (at_ l i) = false.
Proof.
  revert n; induction l as [|c l IH]; intros n H; simpl in H.
  - destruct (stop 0) eqn:E; [|done]. injection H as <-. split_and!; [done|done|lia].
  - destruct (stop c) eqn:E; [injection H as <-; split_and!; [simpl; lia|done|lia]|].
    destruct (vct_isctl c) eqn:Ec; [done|]. destruct (field stop l) as [m|]; [|done]. injection H as <-.
    destruct (IH m eq_refl) as (H1 & H2 & H3). split_and!; [simpl; lia|done|].
    intros [|i] Hi; [done|]. rewrite at_cons_S. apply H3. lia.
Qed.

Lemma spaces_some l n : spaces l = Some n -> (n <= length l)%nat.
Proof.
  revert n; induction l as [|c l IH]; intros n H; simpl in H; [injection H as <-; simpl; lia|].
  destruct (vct_issp c); [|injection H as <-; lia]. destruct (vct_isctl c); [done|].
  destruct (spaces l) as [m|]; [|done]. injection H as <-. specialize (IH m eq_refl). simpl. lia.
Qed.

Lemma spaces_one l : vct_issp (peek l) = false -> spaces (32 :: l) = Some 1%nat.
Proof.
  intros H. cbn [spaces]. destruct sp32 as (-> & _ & _ & ->). destruct l as [|c l]; [done|]. cbn [spaces peek] in *. by rewrite H.
Qed.

Lemma skipcrlf_range l : (1 <= vct_skipcrlf l <= 2)%nat.
Proof. unfold vct_skipcrlf. destruct (_ && _); lia. Qed.

(** ** Filling *)

Lemma fill_length buf q n : (q + n <= length buf)%nat -> length (fill buf q n) = length buf.
Proof. intros H. unfold fill. rewrite !length_app, length_take, length_replicate, length_drop. lia. Qed.

Lemma at_fill buf q n i : (q + n <= length buf)%nat ->
  at_ (fill buf q n) i = if (q <=? i)%nat && (i <? q + n)%nat then 32 else at_ buf i.
Proof.
  intros H. unfold fill. destruct (Nat.leb_spec q i); cbn [andb].
  - rewrite at_app_r by (rewrite length_take; lia). rewrite length_take_le by lia.
    destruct (Nat.ltb_spec i (q + n)).
    + rewrite at_app_l by (rewrite length_replicate; lia). unfold at_. by rewrite lookup_replicate_2 by lia.
    + rewrite at_app_r by (rewrite length_replicate; lia). rewrite length_replicate, at_drop. f_equal. lia.
  - rewrite at_app_l by (rewrite length_take; lia). unfold at_. by rewrite lookup_take_lt by lia.
Qed.

Lemma trim_range buf p q : (trim buf p q <= q)%nat /\ ((p <= q)%nat -> (p <= trim buf p q)%nat).
Proof.
  induction q as [|q [H1 H2]]; simpl; [lia|]. destruct (Nat.ltb_spec p (S q)); simpl; [|lia].
  destruct (vct_issp (at_ buf q)); lia.
Qed.

(** Trailing spaces behind [e] go. *)
Lemma trim_below buf p q e : (p < e)%nat -> (forall i, (e <= i < q)%nat -> at_ buf i = 32) ->
  (trim buf p q <= e)%nat \/ (q <= e)%nat.
Proof.
  intros Hp. induction q as [|q IH]; intros H; [right; lia|]. destruct (le_lt_dec (S q) e) as [?|L]; [by right|left].
  cbn [trim]. rewrite (proj2 (Nat.ltb_lt p (S q))) by lia. rewrite H by lia. destruct sp32 as (-> & _). cbn [andb].
  destruct IH as [?|?]; [intros i Hi; apply H; lia|done|]. pose proof (trim_range buf p q). lia.
Qed.

(** ** The scan for the end of a header *)

(** It ends, and leaves no line end in front of [q]. *)
Lemma line_end_spec p e : forall fuel buf q r, (e < r + fuel)%nat -> (p <= r <= length buf)%nat -> (r <= e <= length buf)%nat ->
  (q = p \/ p <= q <= length buf)%nat ->
  (forall i, (p <= i < r)%nat -> vct_iscrlf (at_ buf i) = false) -> (forall i, (r <= i < q)%nat -> at_ buf i = 32) ->
  exists buf' q' r', line_end fuel buf q r e = Some (buf', q', r') /\ length buf' = length buf /\
    (p <= q' <= length buf)%nat /\ (r <= r')%nat /\ ((r < e)%nat -> (r < r')%nat) /\ (r' <= S e)%nat /\
    (forall i, (i < p)%nat -> at_ buf' i = at_ buf i) /\
    (forall i, (p <= i < q')%nat -> vct_iscrlf (at_ buf' i) = false) /\ (forall i, (e <= i < q')%nat -> at_ buf' i = 32).
Proof.
  intros fuel. induction fuel as [|fuel IH]; intros buf q r Hf Hr He Hq H1 H2; [lia|].
  cbn [line_end]. destruct (Nat.ltb_spec r e) as [L|L].
  2:{ exists buf, q, r. assert (p <= q <= length buf)%nat by lia. split_and!; try done; try lia.
      - intros i Hi. destruct (le_lt_dec r i); [rewrite H2 by lia; apply sp32|apply H1; lia].
      - intros i Hi. apply H2. lia. }
  destruct (vct_iscrlf (at_ buf r)) eqn:Ec; cbn [negb].
  2:{ destruct (IH buf q (S r)) as (b' & q' & r' & E & ?); try lia.
      - intros i Hi. destruct (decide (i = r)) as [->|]; [done|apply H1; lia].
      - intros i Hi. apply H2. lia.
      - exists b', q', r'. rewrite E. destruct_and!. split_and!; (done || lia). }
  set (k := vct_skipcrlf (drop r buf)). pose proof (skipcrlf_range (drop r buf)) as Hk. fold k in Hk.
  assert (Done : length buf = length buf /\ (p <= r <= length buf)%nat /\ (r <= r + k)%nat /\ ((r < e)%nat -> (r < r + k)%nat) /\
    (r + k <= S e)%nat /\ (forall i, (i < p)%nat -> at_ buf i = at_ buf i) /\
    (forall i, (p <= i < r)%nat -> vct_iscrlf (at_ buf i) = false) /\ (forall i, (e <= i < r)%nat -> at_ buf i = 32)).
  { split_and!; (done || lia). }
  destruct (e <=? r + k)%nat eqn:E1; [by exists buf, r, (r + k)%nat|].
  destruct (negb (vct_issp (at_ buf (r + k)))) eqn:E2; [by exists buf, r, (r + k)%nat|].
  apply Nat.leb_gt in E1. set (n := run vct_islws (drop r buf)).
  pose proof (run_le vct_islws (drop r buf)) as Hn. fold n in Hn. rewrite length_drop in Hn.
  assert (Fl : length (fill buf r n) = length buf) by (apply fill_length; lia).
  (* the whole line end and the space behind it are in the run *)
  assert (Hk2 : (r + k <= r + n)%nat).
  { unfold n, k, vct_skipcrlf. destruct ((at_ (drop r buf) 0 =? 13) && (at_ (drop r buf) 1 =? 10)) eqn:E.
    - apply andb_true_iff in E as [Ea Eb]. apply Z.eqb_eq in Ea, Eb. rewrite at_drop in Ea, Eb. rewrite Nat.add_0_r in Ea.
      rewrite (drop_at buf r), (drop_at buf (S r)) by lia. rewrite Ea. replace (S r) with (r + 1)%nat by lia. rewrite Eb.
      simpl. change (vct_islws 13) with true. change (vct_islws 10) with true. simpl. lia.
    - rewrite (drop_at buf r) by lia. simpl. rewrite (proj1 (classes (at_ buf r))), Ec, orb_true_r. lia. }
  destruct (IH (fill buf r n) (r + n)%nat (r + k)%nat) as (b' & q' & r' & E & L' & Hq' & Hr' & Hr'' & Hb & B1 & B2 & B3); try (rewrite ?Fl; lia).
  - intros i Hi. rewrite at_fill by lia. destruct (Nat.leb_spec r i); cbn [andb]; [|apply H1; lia].
    rewrite (proj2 (Nat.ltb_lt i (r + n))) by lia. apply sp32.
  - intros i Hi. rewrite at_fill by lia. rewrite (proj2 (Nat.leb_le r i)), (proj2 (Nat.ltb_lt i (r + n))) by lia. done.
  - exists b', q', r'. rewrite E. rewrite Fl in *. split_and!; try (done || lia).
    intros i Hi. rewrite B1 by done. rewrite at_fill by lia. by rewrite (proj2 (Nat.leb_gt r i)) by lia.
Qed.

(** ** Safety of the header fields *)

(** A text inside the message without a line end. *)
Definition one_line (base : Z) (e : nat) (t : txt) : Prop := exists i b, t = Some (base + Z.of_nat i, b) /\
  (i + length b <= e)%nat /\ Forall (fun c => vct_iscrlf c = false) b.

Lemma Forall_at_range (Q : Z -> Prop) buf p n : (forall i, (p <= i < p + n)%nat -> Q (at_ buf i)) ->
  (p + n <= length buf)%nat -> Forall Q (take n (drop p buf)).
Proof.
  intros H L. apply Forall_lookup. intros i x Hi.
  assert (i < n)%nat by (apply lookup_lt_Some in Hi; rewrite length_take, length_drop in Hi; lia).
  rewrite lookup_take_lt, lookup_drop in Hi by done. specialize (H (p + i)%nat ltac:(lia)). unfold at_ in H. by rewrite Hi in H.
Qed.

(** What a run of the header loop may change. *)
Definition grown (hp hp' : http) : Prop :=
  wf hp' /\ shd hp' = shd hp /\ (nhd hp <= nhd hp')%nat /\ (forall u, (u < nhd hp)%nat -> get hp' u = get hp u).

Lemma hdrs_grown_refl hp : wf hp -> grown hp hp.
Proof. intros W. split; [exact W|]. by split. Qed.

Lemma hdrs_grown_trans hp hp1 hp2 : grown hp hp1 -> grown hp1 hp2 -> grown hp hp2.
Proof.
  intros (_ & S1 & N1 & G1) (W2 & S2 & N2 & G2). split; [done|]. split; [congruence|]. split; [lia|].
  intros u Hu. rewrite G2, G1; [done|done|lia].
Qed.

Lemma grown_conds hp b : wf hp -> grown hp (set_conds hp b).
Proof. intros W. split; [exact W|]. by split. Qed.

Lemma grown_add hp t : wf hp -> (nhd hp < shd hp)%nat ->
  grown hp (set_nhd (put hp (nhd hp) t 0) (S (nhd hp))) /\
  get (set_nhd (put hp (nhd hp) t 0) (S (nhd hp))) (nhd hp) = t.
Proof.
  intros W L. pose proof W as (Wd & Wf & Wn). split; [split|].
  - unfold wf. cbn [set_nhd put hd hdf shd nhd]. rewrite !length_insert. split_and!; (done || lia).
  - split; [done|]. split; [simpl; lia|]. intros u Hu. change (get (put hp (nhd hp) t 0) u = get hp u).
    rewrite get_put by lia. by rewrite (proj2 (Nat.eqb_neq u (nhd hp))) by lia.
  - change (get (put hp (nhd hp) t 0) (nhd hp) = t). rewrite get_put by lia. by rewrite Nat.eqb_refl.
Qed.

Lemma hdr_loop_spec base e : forall fuel hp buf p, (e < p + fuel)%nat -> fuel <> O -> wf hp -> (e <= length buf)%nat ->
  exists hp' buf' c, hdr_loop fuel hp buf base p e = Some (hp', buf', c) /\ (c = 0 \/ c = 400) /\ grown hp hp' /\
    (forall u, (nhd hp <= u < nhd hp')%nat -> one_line base e (get hp' u)) /\ length buf' = length buf.
Proof.
  intros fuel. induction fuel as [|fuel IH]; intros hp buf p Hf F0 W He; [done|]. cbn [hdr_loop].
  destruct (Nat.ltb_spec p e) as [L|L].
  2:{ exists hp, buf, 0. split; [done|]. split; [by left|]. split; [by apply hdrs_grown_refl|]. split; [lia|done]. }
  destruct (line_end_spec p e (S e) buf p p) as (b1 & q & r & E & L1 & Hq & Hr & Hr' & _ & _ & B2 & B3); try lia.
  rewrite E. specialize (Hr' L). destruct (Nat.eqb_spec p q) as [Epq|Npq].
  { exists hp, b1, 0. split; [done|]. split; [by left|]. split; [by apply hdrs_grown_refl|]. split; [lia|done]. }
  set (q2 := trim b1 p q). pose proof (trim_range b1 p q) as [T1 T2]. fold q2 in T1, T2.
  assert (T3 : (q2 <= e)%nat) by (destruct (trim_below b1 p q e L B3) as [?|?]; [done|lia]).
  set (hp1 := if is_if (drop p b1) then set_conds hp true else hp). set (b2 := <[q2 := 0]> b1).
  assert (G1 : grown hp hp1 /\ nhd hp1 = nhd hp).
  { unfold hp1. destruct (is_if _); [split; [by apply grown_conds|done]|split; [by apply hdrs_grown_refl|done]]. }
  destruct G1 as [G1 N1]. assert (L2 : length b2 = length b1) by apply length_insert.
  destruct (Nat.ltb_spec (nhd hp1) (shd hp1)) as [R|R].
  2:{ exists hp1, b2, 400. split; [done|]. split; [by right|]. split; [done|]. split; [lia|congruence]. }
  destruct (grown_add hp1 (text base b2 p q2) (proj1 G1) R) as [G2 E2].
  set (hp2 := set_nhd (put hp1 (nhd hp1) (text base b2 p q2) 0) (S (nhd hp1))) in *.
  destruct (IH hp2 b2 r) as (hp' & buf' & c & E' & Hc & G' & O' & L'); [lia|lia|apply G2|lia|].
  exists hp', buf', c. split; [done|]. split; [done|].
  split; [eapply hdrs_grown_trans; [exact G1|]; by eapply hdrs_grown_trans|]. split; [|congruence].
  intros u Hu. destruct (decide (u = nhd hp)) as [->|Nu].
  - rewrite <- N1. destruct G' as (_ & _ & _ & G'). rewrite G', E2 by (simpl; lia).
    exists p, (take (q2 - p) (drop p b2)). split; [done|]. rewrite length_take, length_drop. split; [lia|].
    apply Forall_at_range; [|lia]. intros i Hi. unfold b2. rewrite at_insert_ne by lia. apply B2. lia.
  - apply O'. simpl. lia.
Qed.

Lemma set_txt_wf hp h t : wf hp -> wf (set_txt hp h t).
Proof. apply wf_put. Qed.

Lemma get_set_txt hp h t u : wf hp -> (h < 5)%nat -> get (set_txt hp h t) u = if (u =? h)%nat then t else get hp u.
Proof. intros (W & _ & Wn) Hh. unfold HTTP_HDR_FIRST in *. apply get_put. lia. Qed.

(** A part of the first line. *)
Definition no_ctl (t : txt) : Prop := exists a b, t = Some (a, b) /\ Forall (fun c => vct_isctl c = false) b.

Lemma no_ctl_text base buf p n : (p + n <= length buf)%nat ->
  (forall i, (i < n)%nat -> vct_isctl (at_ (drop p buf) i) = false) -> no_ctl (text base buf p (p + n)).
Proof.
  intros L H. eexists _, _. split; [reflexivity|]. replace (p + n - p)%nat with n by lia.
  apply Forall_at_range; [|done]. intros i Hi. specialize (H (i - p)%nat ltac:(lia)). rewrite at_drop in H.
  by replace (p + (i - p))%nat with i in H by lia.
Qed.

Lemma dissect_hdrs_spec hp buf base p e : wf hp -> (e <= length buf)%nat ->
  exists hp' buf' c, http_dissect_hdrs hp buf base p e = Some (hp', buf', c) /\ (c = 0 \/ c = 400) /\ wf hp' /\
    shd hp' = shd hp /\ (forall u, (u < HTTP_HDR_FIRST)%nat -> get hp' u = get hp u) /\
    (forall u, (HTTP_HDR_FIRST <= u < nhd hp')%nat -> one_line base e (get hp' u)).
Proof.
  intros W He. unfold http_dissect_hdrs. set (p' := if at_ buf p =? 13 then S p else p).
  destruct (hdr_loop_spec base e (S e) (set_conds (set_nhd hp HTTP_HDR_FIRST) false) buf p') as
    (hp' & buf' & c & E & Hc & (W' & S' & N' & G') & O & _); [lia|lia| |done|].
  { destruct W as (A & B & C). split; [done|]. split; [done|]. simpl. lia. }
  exists hp', buf', c. split_and!; try done.
Qed.

Lemma splitline_spec hp buf base e h1 h2 h3 : wf hp -> (e <= length buf)%nat ->
  (h1 < 5)%nat -> (h2 < 5)%nat -> (h3 < 5)%nat -> h1 <> h2 -> h2 <> h3 -> h1 <> h3 ->
  exists hp' buf' c, http_splitline hp buf base e h1 h2 h3 = Some (hp', buf', c) /\ wf hp' /\ shd hp' = shd hp /\
    (c = 0 \/ c = -1 \/ c = 400) /\
    (forall u, u <> h1 -> u <> h2 -> u <> h3 -> (u < 5)%nat -> get hp' u = get hp u) /\
    (c = 0 -> no_ctl (get hp' h1) /\ no_ctl (get hp' h2) /\ no_ctl (get hp' h3) /\
       forall u, (HTTP_HDR_FIRST <= u < nhd hp')%nat -> one_line base e (get hp' u)) /\
    (get hp h3 = None \/ no_ctl (get hp h3) -> get hp' h3 = None \/ no_ctl (get hp' h3)).
Proof.
  intros W He H1 H2 H3 N12 N23 N13. unfold http_splitline. set (p := run vct_islws buf).
  pose proof (run_le vct_islws buf) as Hp. fold p in Hp.
  destruct (field vct_issp (drop p buf)) as [n1|] eqn:F1.
  2:{ exists hp, buf, (-1). split_and!; try done. by right; left. }
  apply field_some in F1 as (L1 & _ & C1). rewrite length_drop in L1.
  set (t1 := text base buf p (p + n1)). set (hp1 := set_txt hp h1 t1). set (e1 := (p + n1)%nat) in *.
  pose proof (set_txt_wf hp h1 t1 W) as W1. fold hp1 in W1.
  assert (G1 : forall u, get hp1 u = if (u =? h1)%nat then t1 else get hp u) by (intros u; by apply get_set_txt).
  assert (G1n : forall u, u <> h1 -> get hp1 u = get hp u) by (intros u Hu; by rewrite G1, (proj2 (Nat.eqb_neq u h1))).
  destruct (spaces (drop e1 buf)) as [k1|] eqn:S1.
  2:{ exists hp1, buf, (-1). split_and!; try done; [by right; left|intros u ? ? ? ?; by apply G1n|by rewrite G1n]. }
  apply spaces_some in S1. rewrite length_drop in S1. set (p2 := (e1 + k1)%nat) in *.
  destruct (field vct_islws (drop p2 buf)) as [n2|] eqn:F2.
  2:{ exists hp1, buf, (-1). split_and!; try done; [by right; left|intros u ? ? ? ?; by apply G1n|by rewrite G1n]. }
  apply field_some in F2 as (L2 & _ & C2). rewrite length_drop in L2.
  set (t2 := text base buf p2 (p2 + n2)). set (hp2 := set_txt hp1 h2 t2). set (e2 := (p2 + n2)%nat) in *.
  pose proof (set_txt_wf hp1 h2 t2 W1) as W2. fold hp2 in W2.
  assert (G2 : forall u, get hp2 u = if (u =? h2)%nat then t2 else get hp1 u) by (intros u; by apply get_set_txt).
  assert (G2n : forall u, u <> h1 -> u <> h2 -> get hp2 u = get hp u)
    by (intros u Hu Hu'; rewrite G2, (proj2 (Nat.eqb_neq u h2)) by done; by apply G1n).
  assert (G22 : get hp2 h2 = t2) by (by rewrite G2, Nat.eqb_refl). rewrite G22. cbn [Tlen t2 text].
  destruct (length _ =? 0)%nat.
  { exists hp2, buf, 400. split_and!; try done; [by right; right|intros u ? ? ? ?; by apply G2n|rewrite G2n; congruence]. }
  destruct (spaces (drop e2 buf)) as [k2|] eqn:S2.
  2:{ exists hp2, buf, (-1). split_and!; try done; [by right; left|intros u ? ? ? ?; by apply G2n|rewrite G2n; congruence]. }
  apply spaces_some in S2. rewrite length_drop in S2. set (p3 := (e2 + k2)%nat) in *.
  destruct (field vct_iscrlf (drop p3 buf)) as [n3|] eqn:F3.
  2:{ exists hp2, buf, (-1). split_and!; try done; [by right; left|intros u ? ? ? ?; by apply G2n|rewrite G2n; congruence]. }
  apply field_some in F3 as (L3 & _ & C3). rewrite length_drop in L3.
  set (t3 := text base buf p3 (p3 + n3)). set (hp3 := set_txt hp2 h3 t3). set (e3 := (p3 + n3)%nat) in *.
  pose proof (set_txt_wf hp2 h3 t3 W2) as W3. fold hp3 in W3.
  assert (G3 : forall u, get hp3 u = if (u =? h3)%nat then t3 else get hp2 u) by (intros u; by apply get_set_txt).
  set (b3 := <[e3 := 0]> _).
  destruct (dissect_hdrs_spec hp3 b3 base (e3 + vct_skipcrlf (drop e3 buf)) e W3) as (hp' & buf' & c & -> & Hc & W' & S' & G' & O').
  { unfold b3. by rewrite !length_insert. }
  assert (K : forall u, (u < 5)%nat -> get hp' u = if (u =? h3)%nat then t3 else if (u =? h2)%nat then t2 else if (u =? h1)%nat then t1 else get hp u).
  { intros u Hu. rewrite G', G3, G2, G1 by done. done. }
  assert (T1 : no_ctl t1) by (apply no_ctl_text; [lia|intros i Hi; by apply C1]).
  assert (T2 : no_ctl t2) by (apply no_ctl_text; [lia|intros i Hi; by apply C2]).
  assert (T3 : no_ctl t3) by (apply no_ctl_text; [lia|intros i Hi; by apply C3]).
  assert (K3 : get hp' h3 = t3) by (by rewrite K, Nat.eqb_refl).
  assert (K2 : get hp' h2 = t2) by (by rewrite K, (proj2 (Nat.eqb_neq h2 h3)), Nat.eqb_refl by done).
  assert (K1 : get hp' h1 = t1) by (by rewrite K, (proj2 (Nat.eqb_neq h1 h3)), (proj2 (Nat.eqb_neq h1 h2)), Nat.eqb_refl by done).
  exists hp', buf', c. rewrite K1, K2, K3. split; [done|]. split; [done|]. split; [done|].
  split; [by destruct Hc as [->| ->]; [left|right; right]|]. split; [|split; [done|by right]].
  intros u U1 U2 U3 U5. by rewrite K, (proj2 (Nat.eqb_neq u h3)), (proj2 (Nat.eqb_neq u h2)), (proj2 (Nat.eqb_neq u h1)) by done.
Qed.

(** ** Responses *)

Lemma status_loop_nonempty mp st : Forall (fun x => x.2 <> []) mp -> status_loop mp st <> [].
Proof.
  induction 1 as [|[n t] mp Ht Hmp IH]; [done|]. cbn [status_loop]. simpl in Ht.
  destruct (n <=? st); [|done]. by destruct (n =? st).
Qed.

Lemma StatusMessage_some st : 100 <= st <= 999 -> exists t, http_StatusMessage st = Some t /\ t <> [].
Proof.
  intros H. unfold http_StatusMessage. rewrite (proj2 (Z.leb_le _ _)), (proj2 (Z.leb_le _ _)) by lia. cbn [andb].
  eexists. split; [reflexivity|]. apply status_loop_nonempty. unfold http_msg. by repeat (constructor; [done|]).
Qed.

Lemma standard_reason_spec msg hp : wf hp -> 100 <= status hp <= 999 ->
  exists hp' a b, standard_reason msg hp = Some hp' /\ get hp' HTTP_HDR_RESPONSE = Some (a, b) /\ b <> [] /\
    status hp' = status hp /\ nhd hp' = nhd hp /\ (forall u, u <> HTTP_HDR_RESPONSE -> get hp' u = get hp u).
Proof.
  intros W Hs. unfold standard_reason. destruct (StatusMessage_some _ Hs) as (t & -> & Ht).
  assert (New : exists hp' a b, Some (set_txt hp HTTP_HDR_RESPONSE (Some (msg (status hp), t))) = Some hp' /\
    get hp' HTTP_HDR_RESPONSE = Some (a, b) /\ b <> [] /\ status hp' = status hp /\ nhd hp' = nhd hp /\
    (forall u, u <> HTTP_HDR_RESPONSE -> get hp' u = get hp u)).
  { eexists _, _, _. split; [reflexivity|]. rewrite get_set_txt by (done || unfold HTTP_HDR_RESPONSE; lia). rewrite Nat.eqb_refl.
    split; [done|]. split; [done|]. split; [done|]. split; [done|]. intros u Hu.
    rewrite get_set_txt by (done || unfold HTTP_HDR_RESPONSE; lia). by rewrite (proj2 (Nat.eqb_neq u _)). }
  destruct (get hp HTTP_HDR_RESPONSE) as [[a b]|] eqn:E; [|exact New].
  destruct b as [|c b]; [exact New|]. exists hp, a, (c :: b). by split_and!.
Qed.

Lemma ProtoVer_spec hp a b : get hp HTTP_HDR_PROTO = Some (a, b) -> exists v, http_ProtoVer hp = Some (set_protover hp v) /\
  (v = 9 \/ v = 10 \/ v = 11).
Proof.
  intros H. unfold http_ProtoVer. rewrite H. eexists. split; [reflexivity|].
  destruct (strcaseeq b (bs "HTTP/1.0")); [auto|]. destruct (strcaseeq b (bs "HTTP/1.1")); auto.
Qed.

(** C34: [http_DissectResponse] of any bytes ends without a failed check.  It
    accepts the response or answers 503; the status is then a number from 100
    to 999, 503 if refused, and the reason is never empty.  An accepted response
    has a protocol starting with "HTTP/1.", a status of three characters, first
    line parts without control characters, and header fields that lie inside the
    message and contain no CR and no LF, whatever folding the message uses. *)
Theorem http_DissectResponse_sound (msg : Z -> Z) (hp : http) (buf : list Z) (base : Z) (e : nat)
  (W : wf hp) (He : (e <= length buf)%nat) :
  exists hp' buf' c, http_DissectResponse msg hp buf base e = Some (hp', buf', c) /\ (c = 0 \/ c = 503) /\
    100 <= status hp' <= 999 /\ (c = 503 -> status hp' = 503) /\
    (exists a b, get hp' HTTP_HDR_RESPONSE = Some (a, b) /\ b <> []) /\
    (c = 0 -> (exists a b, get hp' HTTP_HDR_PROTO = Some (a, b) /\ take 7 b = bs "HTTP/1.") /\
       Tlen (get hp' HTTP_HDR_STATUS) = Some 3%nat /\
       no_ctl (get hp' HTTP_HDR_PROTO) /\ no_ctl (get hp' HTTP_HDR_STATUS) /\
       forall u, (HTTP_HDR_FIRST <= u < nhd hp')%nat -> one_line base e (get hp' u)).
Proof.
  unfold http_DissectResponse.
  destruct (splitline_spec hp buf base e HTTP_HDR_PROTO HTTP_HDR_STATUS HTTP_HDR_RESPONSE W He) as
    (hp1 & buf' & j & -> & W1 & _ & Hj & _ & H0 & _); [unfold HTTP_HDR_PROTO, HTTP_HDR_STATUS, HTTP_HDR_RESPONSE; lia..|].
  assert (Tail : forall (h : http) i, wf h -> i = 0 \/ i = 503 ->
    (i = 0 -> 100 <= status h <= 999 /\ exists a b, get h HTTP_HDR_PROTO = Some (a, b)) ->
    exists hp', (let? h := (if negb (i =? 0) then Some (set_status h i) else http_ProtoVer h) in
      let? h := standard_reason msg h in Some (h, buf', i)) = Some (hp', buf', i) /\
      100 <= status hp' <= 999 /\ (i = 503 -> status hp' = 503) /\
      (exists a b, get hp' HTTP_HDR_RESPONSE = Some (a, b) /\ b <> []) /\ nhd hp' = nhd h /\
      (forall u, u <> HTTP_HDR_RESPONSE -> get hp' u = get h u)).
  { intros h i Wh [->| ->] Hi; cbn [Z.eqb negb].
    - destruct (Hi eq_refl) as (Hs & a & b & Ep). destruct (ProtoVer_spec h a b Ep) as (v & -> & _).
      destruct (standard_reason_spec msg (set_protover h v) Wh Hs) as (hp' & a' & b' & -> & E1 & E2 & E3 & E4 & E5).
      exists hp'. rewrite E3. split_and!; try done; eauto; simpl; lia.
    - destruct (standard_reason_spec msg (set_status h 503) Wh ltac:(simpl; lia)) as (hp' & a' & b' & -> & E1 & E2 & E3 & E4 & E5).
      exists hp'. rewrite E3. split_and!; try done; eauto; simpl; lia. }
  assert (Refuse : forall h : http, wf h -> exists hp', (let? h := Some (set_status h 503) in
      let? h := standard_reason msg h in Some (h, buf', 503)) = Some (hp', buf', 503) /\
      100 <= status hp' <= 999 /\ (503 = 503 -> status hp' = 503) /\
      (exists a b, get hp' HTTP_HDR_RESPONSE = Some (a, b) /\ b <> [])).
  { intros h Wh. destruct (Tail h 503 Wh) as (hp' & E & E1 & E2 & E3 & _); [by right|done|]. by exists hp'. }
  destruct (Z.eqb_spec j 0) as [->|Nj]; cbn [negb].
  2:{ destruct (Refuse hp1 W1) as (hp' & E & E1 & E2 & E3). exists hp', buf', 503.
      split; [exact E|]. split_and!; try done; [by right|lia..]. }
  destruct (H0 eq_refl) as (T1 & T2 & T3 & O). unfold check_response.
  pose proof T1 as (a1 & b1 & G1 & _). pose proof T2 as (a2 & b2 & G2 & _). rewrite G1, G2.
  destruct (bool_decide (take 7 b1 = bs "HTTP/1.")) eqn:Eb; cbn [negb].
  2:{ destruct (Refuse hp1 W1) as (hp' & E & E1 & E2 & E3). exists hp', buf', 503.
      split; [exact E|]. split_and!; try done; [by right|lia..]. }
  apply bool_decide_eq_true in Eb. cbn [Tlen]. destruct (Nat.eqb_spec (length b2) 3) as [El|Nl]; cbn [negb].
  2:{ destruct (Refuse hp1 W1) as (hp' & E & E1 & E2 & E3). exists hp', buf', 503.
      split; [exact E|]. split_and!; try done; [by right|lia..]. }
  set (h := set_status hp1 (to_int (strtoul b2))). destruct ((status h <? 100) || (999 <? status h)) eqn:Er.
  { destruct (Refuse h W1) as (hp' & E & E1 & E2 & E3). exists hp', buf', 503.
      split; [exact E|]. split_and!; try done; [by right|lia..]. }
  apply orb_false_iff in Er as [Er1 Er2]. apply Z.ltb_ge in Er1, Er2.
  destruct (Tail h 0 W1) as (hp' & E & E1 & E2 & E3 & E4 & E5); [by left|intros _; split; [lia|by exists a1, b1]|].
  exists hp', buf', 0. split; [exact E|]. split; [by left|]. split; [done|]. split; [done|]. split; [done|]. intros _.
  rewrite !E5 by done. change (get h HTTP_HDR_PROTO) with (get hp1 HTTP_HDR_PROTO).
  change (get h HTTP_HDR_STATUS) with (get hp1 HTTP_HDR_STATUS). rewrite G2. cbn [Tlen]. rewrite El, G1, <- G1, <- G2.
  split; [by exists a1, b1|]. split; [done|]. split; [done|]. split; [done|]. intros u Hu. rewrite E4 in Hu.
  rewrite E5 by (unfold HTTP_HDR_FIRST, HTTP_HDR_RESPONSE in *; lia). by apply O.
Qed.

(** ** Reading back what was written *)

(** The header lines of a message and the empty line. *)
Definition lines (fs : list (list Z)) : list Z := concat (map (fun f => f ++ [13; 10]) fs) ++ [13; 10].

(** A field that survives: not empty, on one line, no white space at its ends. *)
Definition clean (f : list Z) : Prop :=
  f <> [] /\ Forall (fun c => vct_iscrlf c = false) f /\ vct_issp (peek f) = false /\
  vct_issp (at_ f (length f - 1)) = false.

Lemma crlf_facts : vct_iscrlf 13 = true /\ vct_iscrlf 10 = true /\ vct_issp 13 = false /\ vct_islws 13 = true /\ vct_isctl 13 = true.
Proof. by vm_compute. Qed.

Lemma lines_peek fs : Forall clean fs -> vct_issp (peek (lines fs)) = false /\ (2 <= length (lines fs))%nat /\
  (fs <> [] -> at_ (lines fs) 0 <> 13).
Proof.
  intros H. unfold lines. rewrite length_app. destruct fs as [|f fs]; [split; [apply crlf_facts|simpl; split; [lia|done]]|].
  apply Forall_cons in H as [(N & C & S & _) _]. destruct f as [|c f]; [done|].
  cbn in S |- *. split; [done|]. split; [lia|]. intros _ E. apply Forall_cons in C as [C _].
  change (c = 13) in E. subst c. destruct crlf_facts as (K & _). congruence.
Qed.

Lemma line_end_clean f e : forall fuel pre post q, Forall (fun c => vct_iscrlf c = false) f ->
  (length f < fuel)%nat -> (length pre + length f < e)%nat ->
  ((e <= length pre + length f + 2)%nat \/ vct_issp (peek post) = false) ->
  line_end fuel (pre ++ f ++ 13 :: 10 :: post) q (length pre) e =
    Some (pre ++ f ++ 13 :: 10 :: post, (length pre + length f)%nat, (length pre + length f + 2)%nat).
Proof.
  induction f as [|c f IH]; intros fuel pre post q Hf Hn He Hp; (destruct fuel as [|fuel]; [lia|]); cbn [line_end].
  - rewrite (proj2 (Nat.ltb_lt (length pre) e)) by lia. cbn [app length]. rewrite Nat.add_0_r in *.
    rewrite at_app_r, Nat.sub_diag by lia. destruct crlf_facts as (K & _). rewrite at_cons_0, K. cbn [negb].
    assert (Sk : vct_skipcrlf (drop (length pre) (pre ++ 13 :: 10 :: post)) = 2%nat) by (by rewrite drop_app_length).
    rewrite Sk. destruct (Nat.leb_spec e (length pre + 2)); [done|]. destruct Hp as [Hp|Hp]; [lia|].
    rewrite at_app_r by lia. replace (length pre + 2 - length pre)%nat with 2%nat by lia.
    rewrite !at_cons_S. unfold at_. destruct post as [|x post]; [done|]. cbn in Hp |- *. by rewrite Hp.
  - apply Forall_cons in Hf as [Hc Hf]. cbn [length] in *. rewrite (proj2 (Nat.ltb_lt (length pre) e)) by lia.
    rewrite at_app_r, Nat.sub_diag by lia. cbn [app]. rewrite at_cons_0, Hc. cbn [negb].
    specialize (IH fuel (pre ++ [c]) post q Hf ltac:(lia)). rewrite length_app in IH. cbn [length] in IH.
    rewrite <- !app_assoc in IH. cbn [app] in IH. replace (length pre + 1)%nat with (S (length pre)) in IH by lia.
    rewrite IH; [|lia|destruct Hp; [left; lia|by right]]. do 2 f_equal; [f_equal; lia|lia].
Qed.

Lemma trim_clean buf p q : (p < q)%nat -> vct_issp (at_ buf (q - 1)) = false -> trim buf p q = q.
Proof.
  destruct q as [|q]; [lia|]. intros H Hs. cbn [trim]. replace (S q - 1)%nat with q in Hs by lia. by rewrite Hs, andb_false_r.
Qed.

Lemma is_if_app f l : is_if (f ++ 13 :: 10 :: l) = is_if f.
Proof. unfold is_if. destruct f as [|a [|b [|c f]]]; unfold at_; simpl; rewrite ?andb_false_r; done. Qed.

(** Header lines are read back one for one, and what follows them stays. *)
Lemma hdr_loop_lines base fs : forall fuel hp pre rest, Forall clean fs -> wf hp ->
  (nhd hp + length fs <= shd hp)%nat -> (length (lines fs) < fuel)%nat ->
  exists hp' pre', hdr_loop fuel hp (pre ++ lines fs ++ rest) base (length pre) (length pre + length (lines fs)) =
      Some (hp', pre' ++ rest, 0) /\
    length pre' = (length pre + length (lines fs))%nat /\ grown hp hp' /\ nhd hp' = (nhd hp + length fs)%nat /\
    (forall i f, fs !! i = Some f -> exists a, get hp' (nhd hp + i) = Some (a, f)) /\
    conds hp' = conds hp || existsb is_if fs.
Proof.
  induction fs as [|f fs IH]; intros fuel hp pre rest Hc W Hr Hf; (destruct fuel as [|fuel]; [lia|]); cbn [hdr_loop].
  - cbn [lines map concat app length]. rewrite (proj2 (Nat.ltb_lt _ _)) by lia.
    pose proof (line_end_clean [] (length pre + 2) (S (length pre + 2)) pre rest (length pre)) as L. cbn [app length] in L.
    rewrite Nat.add_0_r in L. rewrite L by (done || lia || (left; lia)).
    rewrite Nat.eqb_refl. exists hp, (pre ++ [13; 10]). rewrite length_app, <- app_assoc. cbn [length app existsb].
    split; [done|]. split; [done|]. split; [by apply hdrs_grown_refl|]. split; [lia|]. split; [by intros i f ?|by rewrite orb_false_r].
  - apply Forall_cons in Hc as [(Nf & Cf & Sf & Tf) Hc]. pose proof (lines_peek fs Hc) as (Pk & Lk & _).
    assert (Lf : (1 <= length f)%nat) by (destruct f; [done|simpl; lia]).
    assert (El : lines (f :: fs) = f ++ 13 :: 10 :: lines fs) by (unfold lines; cbn [map concat]; by rewrite <- !app_assoc).
    rewrite El in *. rewrite length_app in *. cbn [length] in *. rewrite <- app_assoc. cbn [app].
    set (e := (length pre + (length f + S (S (length (lines fs)))))%nat) in *.
    rewrite (proj2 (Nat.ltb_lt _ _)) by lia.
    rewrite (line_end_clean f e (S e) pre (lines fs ++ rest) (length pre)); [|done|lia|lia|].
    2:{ right. destruct (lines fs); [simpl in Lk; lia|done]. }
    rewrite (proj2 (Nat.eqb_neq _ _)) by lia. rewrite drop_app_length, is_if_app.
    rewrite trim_clean; [|lia|].
    2:{ rewrite at_app_r by lia. rewrite at_app_l by lia. by replace (length pre + length f - 1 - length pre)%nat with (length f - 1)%nat by lia. }
    assert (Eb : <[(length pre + length f)%nat := 0]> (pre ++ f ++ 13 :: 10 :: lines fs ++ rest) =
      (pre ++ f ++ [0; 10]) ++ lines fs ++ rest).
    { rewrite app_assoc, <- length_app, insert_app_r_alt, Nat.sub_diag by lia. cbn [list_insert].
      by rewrite <- !app_assoc. }
    rewrite Eb. set (hp1 := if is_if f then set_conds hp true else hp).
    assert (G1 : grown hp hp1 /\ nhd hp1 = nhd hp /\ shd hp1 = shd hp /\ conds hp1 = conds hp || is_if f).
    { unfold hp1. destruct (is_if f); [rewrite orb_true_r|rewrite orb_false_r]; (split; [|done]).
      - by apply grown_conds.
      - by apply hdrs_grown_refl. }
    destruct G1 as (G1 & N1 & S1 & C1). rewrite (proj2 (Nat.ltb_lt _ _)) by lia.
    destruct (grown_add hp1 (text base ((pre ++ f ++ [0; 10]) ++ lines fs ++ rest) (length pre) (length pre + length f)) (proj1 G1)) as [G2 E2]; [lia|].
    set (hp2 := set_nhd _ _) in *.
    destruct (IH fuel hp2 (pre ++ f ++ [0; 10]) rest Hc (proj1 G2)) as (hp' & pre' & E & Lp & G' & N' & F' & C').
    { simpl. lia. } { lia. }
    rewrite !length_app in E, Lp. cbn [length] in E, Lp.
    replace (length pre + (length f + 2) + length (lines fs))%nat with e in E by lia.
    replace (length pre + (length f + 2))%nat with (length pre + length f + 2)%nat in E by lia.
    exists hp', pre'. split; [exact E|]. split; [lia|]. split; [eapply hdrs_grown_trans; [exact G1|]; by eapply hdrs_grown_trans|].
    split; [rewrite N'; simpl; lia|]. split.
    + intros [|i] g Hg.
      * injection Hg as <-. rewrite Nat.add_0_r, <- N1. destruct G' as (_ & _ & _ & G'). rewrite G', E2 by (simpl; lia).
        eexists. unfold text. do 2 f_equal. replace (length pre + length f - length pre)%nat with (length f) by lia.
        rewrite <- !app_assoc, drop_app_length. by rewrite take_app_length.
      * destruct (F' i g Hg) as [a Ea]. exists a. rewrite <- Ea. f_equal. simpl. lia.
    + rewrite C'. cbn [existsb]. change (conds hp2) with (conds hp1). rewrite C1. by rewrite orb_assoc.
Qed.

(** The parts of a first line that survive. *)
Definition clean_first (l1 l2 l3 : list Z) : Prop :=
  l1 <> [] /\ Forall (fun c => vct_issp c = false /\ vct_isctl c = false) l1 /\
  l2 <> [] /\ Forall (fun c => vct_islws c = false /\ vct_isctl c = false) l2 /\
  Forall (fun c => vct_iscrlf c = false /\ vct_isctl c = false) l3 /\ vct_issp (peek l3) = false.

Definition first_line (l1 l2 l3 : list Z) : list Z := l1 ++ 32 :: l2 ++ 32 :: l3 ++ [13; 10].

Lemma text_mid base pre f post : text base (pre ++ f ++ post) (length pre) (length pre + length f) =
  Some (base + Z.of_nat (length pre), f).
Proof.
  unfold text. replace (length pre + length f - length pre)%nat with (length f) by lia.
  by rewrite drop_app_length, take_app_length.
Qed.

Lemma insert_mid (l r : list Z) c x : <[length l := x]> (l ++ c :: r) = l ++ x :: r.
Proof. rewrite insert_app_r_alt, Nat.sub_diag by lia. done. Qed.

Lemma insert_mid' (l r : list Z) c x n : n = length l -> <[n := x]> (l ++ c :: r) = l ++ x :: r.
Proof. intros ->. apply insert_mid. Qed.

Lemma app_cons_assoc (a b l : list Z) c : a ++ c :: b ++ l = (a ++ c :: b) ++ l.
Proof. by rewrite <- app_assoc. Qed.

(** The headers behind a first line. *)
Lemma dissect_lines base fs hp pre rest : Forall clean fs -> wf hp -> (HTTP_HDR_FIRST + length fs <= shd hp)%nat ->
  exists hp' pre', http_dissect_hdrs hp (pre ++ lines fs ++ rest) base (length pre) (length pre + length (lines fs)) =
      Some (hp', pre' ++ rest, 0) /\
    length pre' = (length pre + length (lines fs))%nat /\ wf hp' /\ nhd hp' = (HTTP_HDR_FIRST + length fs)%nat /\
    (forall u, (u < HTTP_HDR_FIRST)%nat -> get hp' u = get hp u) /\
    (forall i f, fs !! i = Some f -> exists a, get hp' (HTTP_HDR_FIRST + i) = Some (a, f)) /\
    conds hp' = existsb is_if fs.
Proof.
  intros Hc W Hr. pose proof (lines_peek fs Hc) as (Pk & Lk & P0). unfold http_dissect_hdrs.
  set (hp0 := set_conds (set_nhd hp HTTP_HDR_FIRST) false).
  assert (W0 : wf hp0) by (destruct W as (A & B & C); split; [done|split; [done|simpl; lia]]).
  rewrite at_app_r, Nat.sub_diag by lia. rewrite at_app_l by lia.
  destruct (decide (fs = [])) as [->|Nf].
  - change (lines []) with [13; 10]. cbn [length]. change (at_ [13; 10] 0 =? 13) with true. cbv iota.
    exists hp0, (pre ++ [13; 10]).
    assert (E : hdr_loop (S (length pre + 2)) hp0 (pre ++ [13; 10] ++ rest) base (S (length pre)) (length pre + 2) =
      Some (hp0, (pre ++ [13; 10]) ++ rest, 0)).
    { cbn [hdr_loop]. rewrite (proj2 (Nat.ltb_lt _ _)) by lia. cbn [line_end]. rewrite (proj2 (Nat.ltb_lt _ _)) by lia.
      rewrite at_app_r by lia. replace (S (length pre) - length pre)%nat with 1%nat by lia. cbn [app].
      change (vct_iscrlf (at_ (13 :: 10 :: rest) 1)) with true. cbn [negb].
      rewrite drop_app_ge by lia. replace (S (length pre) - length pre)%nat with 1%nat by lia. cbn [drop].
      assert (Sk : vct_skipcrlf (10 :: rest) = 1%nat) by done. change (skipn 1 (13 :: 10 :: rest)) with (10 :: rest). rewrite Sk.
      rewrite (proj2 (Nat.leb_le _ _)) by lia. rewrite Nat.eqb_refl. by rewrite <- app_assoc. }
    rewrite E. rewrite length_app. cbn [length]. split_and!; try done.
  - rewrite (proj2 (Z.eqb_neq _ 13)) by (by apply P0).
    destruct (hdr_loop_lines base fs (S (length pre + length (lines fs))) hp0 pre rest Hc W0) as
      (hp' & pre' & E & Lp & (W' & _ & _ & G') & N' & F' & C'); [exact Hr|lia|].
    exists hp', pre'. by split_and!.
Qed.

Lemma splitline_lines hp base h1 h2 h3 l1 l2 l3 fs rest : wf hp -> (h1 < 5)%nat -> (h2 < 5)%nat -> (h3 < 5)%nat ->
  h1 <> h2 -> h2 <> h3 -> h1 <> h3 -> clean_first l1 l2 l3 -> Forall clean fs -> (HTTP_HDR_FIRST + length fs <= shd hp)%nat ->
  let m := first_line l1 l2 l3 ++ lines fs in
  exists hp' m' a1 a2 a3, http_splitline hp (m ++ rest) base (length m) h1 h2 h3 = Some (hp', m' ++ rest, 0) /\
    length m' = length m /\ wf hp' /\ nhd hp' = (HTTP_HDR_FIRST + length fs)%nat /\
    get hp' h1 = Some (a1, l1) /\ get hp' h2 = Some (a2, l2) /\ get hp' h3 = Some (a3, l3) /\
    (forall i f, fs !! i = Some f -> exists a, get hp' (HTTP_HDR_FIRST + i) = Some (a, f)) /\
    conds hp' = existsb is_if fs.
Proof.
  intros W H1 H2 H3 N12 N23 N13 (Ne1 & C1 & Ne2 & C2 & C3 & S3) Hc Hr m. pose proof (lines_peek fs Hc) as (Pk & Lk & P0).
  destruct crlf_facts as (K1 & K2 & K3 & K4 & K5). destruct sp32 as (Q1 & Q2 & Q3 & Q4).
  assert (Em : m ++ rest = l1 ++ 32 :: l2 ++ 32 :: l3 ++ 13 :: 10 :: lines fs ++ rest).
  { unfold m, first_line. repeat (rewrite <- app_assoc; cbn [app]). done. }
  unfold http_splitline. cbv zeta. rewrite Em.
  assert (R0 : run vct_islws (l1 ++ 32 :: l2 ++ 32 :: l3 ++ 13 :: 10 :: lines fs ++ rest) = O).
  { apply run_stop. destruct l1 as [|c l1]; [done|]. apply Forall_cons in C1 as [[Cs Cc] _]. cbn [app peek].
    rewrite (proj1 (classes c)), Cs. by apply not_ctl. }
  rewrite R0, drop_0. rewrite (field_app vct_issp l1) by (done || exact Q1). cbn [plus].
  rewrite drop_app_length.
  assert (P2 : vct_issp (peek (l2 ++ 32 :: l3 ++ 13 :: 10 :: lines fs ++ rest)) = false).
  { destruct l2 as [|c l2]; [done|]. apply Forall_cons in C2 as [[Cs _] _]. apply lws_cases in Cs as [Cs _]. exact Cs. }
  rewrite (spaces_one _ P2).
  assert (D2 : drop (length l1 + 1) (l1 ++ 32 :: l2 ++ 32 :: l3 ++ 13 :: 10 :: lines fs ++ rest) = l2 ++ 32 :: l3 ++ 13 :: 10 :: lines fs ++ rest).
  { rewrite drop_app_ge by lia. by replace (length l1 + 1 - length l1)%nat with 1%nat by lia. }
  rewrite D2. rewrite (field_app vct_islws l2) by (done || exact Q3).
  set (t1 := text base _ 0 (length l1)). set (hp1 := set_txt hp h1 t1).
  set (t2 := text base _ (length l1 + 1) (length l1 + 1 + length l2)). set (hp2 := set_txt hp1 h2 t2).
  assert (E1 : t1 = Some (base + 0, l1)) by (exact (text_mid base [] l1 _)).
  assert (E2 : exists a, t2 = Some (a, l2)).
  { eexists. unfold t2. pose proof (text_mid base (l1 ++ [32]) l2 (32 :: l3 ++ 13 :: 10 :: lines fs ++ rest)) as T.
    rewrite length_app, <- app_assoc in T. exact T. }
  destruct E2 as [a2 E2].
  assert (W1 : wf hp1) by (by apply set_txt_wf). assert (W2 : wf hp2) by (by apply set_txt_wf).
  assert (G2 : forall u, get hp2 u = if (u =? h2)%nat then t2 else if (u =? h1)%nat then t1 else get hp u).
  { intros u. unfold hp2. rewrite get_set_txt by done. unfold hp1. by rewrite get_set_txt. }
  rewrite (G2 h2), Nat.eqb_refl, E2. cbn [Tlen]. rewrite (proj2 (Nat.eqb_neq (length l2) 0)) by (destruct l2; done).
  assert (D3 : drop (length l1 + 1 + length l2) (l1 ++ 32 :: l2 ++ 32 :: l3 ++ 13 :: 10 :: lines fs ++ rest) = 32 :: l3 ++ 13 :: 10 :: lines fs ++ rest).
  { by rewrite <- drop_drop, D2, drop_app_length. }
  rewrite D3.
  assert (P3 : vct_issp (peek (l3 ++ 13 :: 10 :: lines fs ++ rest)) = false) by (destruct l3; [exact K3|exact S3]).
  rewrite (spaces_one _ P3).
  assert (D4 : drop (length l1 + 1 + length l2 + 1) (l1 ++ 32 :: l2 ++ 32 :: l3 ++ 13 :: 10 :: lines fs ++ rest) = l3 ++ 13 :: 10 :: lines fs ++ rest).
  { by rewrite <- drop_drop, D3. }
  rewrite D4. rewrite (field_app vct_iscrlf l3) by (done || exact K1).
  set (t3 := text base _ (length l1 + 1 + length l2 + 1) _). set (hp3 := set_txt hp2 h3 t3).
  assert (E3 : exists a, t3 = Some (a, l3)).
  { eexists. unfold t3. pose proof (text_mid base (l1 ++ 32 :: l2 ++ [32]) l3 (13 :: 10 :: lines fs ++ rest)) as T.
    rewrite length_app in T. cbn [length] in T. rewrite length_app in T. cbn [length] in T.
    repeat (rewrite <- app_assoc in T; cbn [app] in T).
    replace (length l1 + S (length l2 + 1))%nat with (length l1 + 1 + length l2 + 1)%nat in T by lia. exact T. }
  destruct E3 as [a3 E3]. assert (W3 : wf hp3) by (by apply set_txt_wf).
  assert (D5 : drop (length l1 + 1 + length l2 + 1 + length l3) (l1 ++ 32 :: l2 ++ 32 :: l3 ++ 13 :: 10 :: lines fs ++ rest) = 13 :: 10 :: lines fs ++ rest).
  { by rewrite <- drop_drop, D4, drop_app_length. }
  rewrite D5. change (vct_skipcrlf (13 :: 10 :: lines fs ++ rest)) with 2%nat.
  set (pre := l1 ++ 0 :: l2 ++ 0 :: l3 ++ [0; 10]).
  assert (Lp : length pre = (length l1 + 1 + length l2 + 1 + length l3 + 2)%nat).
  { unfold pre. repeat (rewrite length_app; cbn [length]). lia. }
  assert (Ei : <[(length l1 + 1 + length l2 + 1 + length l3)%nat := 0]> (<[(length l1 + 1 + length l2)%nat := 0]>
      (<[length l1 := 0]> (l1 ++ 32 :: l2 ++ 32 :: l3 ++ 13 :: 10 :: lines fs ++ rest))) = pre ++ lines fs ++ rest).
  { rewrite insert_mid. rewrite (app_cons_assoc l1), (insert_mid' (l1 ++ 0 :: l2)) by (rewrite length_app; cbn [length]; lia).
    rewrite (app_cons_assoc (l1 ++ 0 :: l2)), (insert_mid' ((l1 ++ 0 :: l2) ++ 0 :: l3)) by
      (rewrite !length_app; cbn [length]; lia).
    unfold pre. repeat (rewrite <- app_assoc; cbn [app]). done. }
  rewrite Ei, <- Lp.
  assert (Lm : length m = (length pre + length (lines fs))%nat).
  { unfold m, first_line. rewrite length_app, Lp. repeat (rewrite length_app; cbn [length]). lia. }
  rewrite Lm. destruct (dissect_lines base fs hp3 pre rest Hc W3 Hr) as (hp' & m' & -> & L' & W' & N' & G' & F' & C').
  assert (G3 : forall u, get hp3 u = if (u =? h3)%nat then t3 else get hp2 u) by (intros u; by apply get_set_txt).
  exists hp', m', (base + 0), a2, a3. split; [done|]. split; [lia|]. split; [done|]. split; [done|].
  unfold HTTP_HDR_FIRST in G'. rewrite !G', !G3, !G2 by done. rewrite !Nat.eqb_refl.
  rewrite (proj2 (Nat.eqb_neq h1 h3)), (proj2 (Nat.eqb_neq h2 h3)), (proj2 (Nat.eqb_neq h1 h2)) by done. by split_and!.
Qed.

(** ** The properties *)

Lemma write_loop_texts k : forall u hp, write_loop k u hp =
  Some (concat (map (fun f => f ++ [13; 10]) (map (fun f => f.1.2) (fields_from k u hp)))).
Proof.
  induction k as [|k IH]; intros u hp; [done|]. cbn [write_loop]. rewrite IH, fields_from_S. unfold slot.
  destruct (get hp u) as [[a b]|]; [|done]. cbn [app map concat fst snd]. by rewrite <- app_assoc.
Qed.

(** C33: What [http_Write] sends, the dissection reads back: for a request or a
    response whose first line and fields are clean, with pipelined bytes behind
    it, [http_splitline] accepts exactly the message, yields the same three parts
    of the first line and the same header texts in order, notices conditionals,
    and leaves the pipelined bytes alone. *)
Theorem dissect_reads_write (hp to : http) (resp : bool) (out rest : list Z) (base : Z) (l1 l2 l3 : list Z)
  (Hout : http_Write hp resp = Some out) (W : wf to) (C : clean_first l1 l2 l3)
  (F1 : snd <$> get hp (if resp then HTTP_HDR_PROTO else HTTP_HDR_REQ) = Some l1)
  (F2 : snd <$> get hp (if resp then HTTP_HDR_STATUS else HTTP_HDR_URL) = Some l2)
  (F3 : snd <$> get hp (if resp then HTTP_HDR_RESPONSE else HTTP_HDR_PROTO) = Some l3) :
  let fs := map (fun f => f.1.2) (fields hp) in
  let h1 := if resp then HTTP_HDR_PROTO else HTTP_HDR_REQ in
  let h2 := if resp then HTTP_HDR_STATUS else HTTP_HDR_URL in
  let h3 := if resp then HTTP_HDR_RESPONSE else HTTP_HDR_PROTO in
  Forall clean fs -> (HTTP_HDR_FIRST + length fs <= shd to)%nat ->
  exists hp' m', http_splitline to (out ++ rest) base (length out) h1 h2 h3 = Some (hp', m' ++ rest, 0) /\
    length m' = length out /\ snd <$> get hp' h1 = Some l1 /\ snd <$> get hp' h2 = Some l2 /\ snd <$> get hp' h3 = Some l3 /\
    nhd hp' = (HTTP_HDR_FIRST + length fs)%nat /\
    (forall i f, fs !! i = Some f -> snd <$> get hp' (HTTP_HDR_FIRST + i) = Some f) /\ conds hp' = existsb is_if fs.
Proof.
  intros fs h1 h2 h3 Hc Hr.
  assert (E : out = first_line l1 l2 l3 ++ lines fs).
  { unfold http_Write in Hout. fold h1 in F1. fold h2 in F2. fold h3 in F3.
    destruct (get hp h1) as [[x1 y1]|] eqn:G1; [|done]. destruct (get hp h2) as [[x2 y2]|] eqn:G2; [|done].
    destruct (get hp h3) as [[x3 y3]|] eqn:G3; [|done]. injection F1 as ->. injection F2 as ->. injection F3 as ->.
    assert (H : (let? l1 := WriteH (get hp h1) [32] in let? l2 := WriteH (get hp h2) [32] in let? l3 := WriteH (get hp h3) [13; 10] in
      let? r := write_loop (nhd hp - HTTP_HDR_FIRST) HTTP_HDR_FIRST hp in Some (l1 ++ l2 ++ l3 ++ r ++ [13; 10])) = Some out).
    { unfold h1, h2, h3 in *. destruct resp; rewrite ?G2 in Hout; rewrite ?G2; exact Hout. }
    rewrite G1, G2, G3, write_loop_texts in H. cbn [WriteH] in H. injection H as <-.
    unfold first_line, lines, fs, fields. repeat (rewrite <- app_assoc; cbn [app]). done. }
  destruct (splitline_lines to base h1 h2 h3 l1 l2 l3 fs rest W) as
    (hp' & m' & a1 & a2 & a3 & Es & Lm & _ & N' & G1 & G2 & G3 & F' & C');
    try (unfold h1, h2, h3; destruct resp; unfold HTTP_HDR_PROTO, HTTP_HDR_REQ, HTTP_HDR_STATUS, HTTP_HDR_URL, HTTP_HDR_RESPONSE; lia);
    [done|done|]. rewrite <- E in Es, Lm.
  exists hp', m'. rewrite G1, G2, G3. split_and!; try done. intros i f Hf. destruct (F' i f Hf) as [a ->]. done.
Qed.

(** A header set to parse into, and one to write. *)
Definition blank : http := Http false 0 0 12 (replicate 12 None) (replicate 12 0) 5.
Definition asked : http :=
  Http true 0 11 12
    ([Some (0, bs "GET"); Some (4, bs "/a?b"); Some (9, bs "HTTP/1.1"); None; None;
      Some (20, bs "Host: a.b"); Some (40, bs "If-Match: x")] ++ replicate 5 None) (replicate 12 0) 7.
Definition rest0 : list Z := bs "GET /next".

Lemma clean_by (f : list Z) : negb (length f =? 0)%nat && forallb (fun c => negb (vct_iscrlf c)) f && negb (vct_issp (peek f)) &&
  negb (vct_issp (at_ f (length f - 1))) = true -> clean f.
Proof.
  intros H. repeat (apply andb_true_iff in H; destruct H as [H ?]). split; [by destruct f|].
  split; [|split; by apply negb_true_iff]. apply List.Forall_forall. intros c Hc.
  match goal with H : forallb _ _ = true |- _ => rewrite forallb_forall in H; specialize (H c Hc) end. by apply negb_true_iff.
Qed.

Lemma dissect_reads_write_witness : exists out hp' m',
  http_Write asked false = Some out /\
  http_splitline blank (out ++ rest0) 4096 (length out) HTTP_HDR_REQ HTTP_HDR_URL HTTP_HDR_PROTO = Some (hp', m' ++ rest0, 0) /\
  snd <$> get hp' 6 = Some (bs "If-Match: x") /\ conds hp' = true.
Proof.
  destruct (dissect_reads_write asked blank false (bs "GET /a?b HTTP/1.1" ++ [13; 10] ++ bs "Host: a.b" ++ [13; 10] ++
    bs "If-Match: x" ++ [13; 10; 13; 10]) rest0 4096 (bs "GET") (bs "/a?b") (bs "HTTP/1.1"))
    as (hp' & m' & E & _ & _ & _ & _ & _ & F & C).
  - vm_compute. reflexivity.
  - split; [done|]. split; [done|]. cbn. unfold HTTP_HDR_FIRST. lia.
  - split_and!; try done; by (repeat constructor).
  - done.
  - done.
  - done.
  - constructor; [by apply clean_by|]. constructor; [by apply clean_by|]. constructor.
  - cbn. unfold HTTP_HDR_FIRST. lia.
  - eexists _, hp', m'. split; [|split; [exact E|]].
    + vm_compute. reflexivity.
    + split; [exact (F 1%nat (bs "If-Match: x") eq_refl)|]. rewrite C. reflexivity.
Defined.

Lemma http_DissectResponse_sound_witness : exists hp' buf' c,
  http_DissectResponse (fun _ => 0) blank (bs "ICY 200" ++ [13; 10; 13; 10]) 4096 11 = Some (hp', buf', c) /\
  100 <= status hp' <= 999.
Proof.
  destruct (http_DissectResponse_sound (fun _ => 0) blank (bs "ICY 200" ++ [13; 10; 13; 10]) 4096 11)
    as (hp' & buf' & c & E & _ & S & _).
  - split; [done|]. split; [done|]. cbn. unfold HTTP_HDR_FIRST. lia.
  - cbn. lia.
  - exists hp', buf', c. split; [exact E|exact S].
Defined.

(** A line of white space behind a header line: the header that follows becomes
    part of the value before it, its own line end having been overwritten. *)
Lemma fold_swallows : exists hp' buf',
  http_splitline blank (bs "GET / HTTP/1.1" ++ [13; 10] ++ bs "A: b" ++ [13; 10; 32; 13; 10] ++ bs "C: d" ++ [13; 10; 13; 10])
    0 33 HTTP_HDR_REQ HTTP_HDR_URL HTTP_HDR_PROTO = Some (hp', buf', 0) /\
  map (fun f => f.1.2) (fields hp') = [bs "A: b     C: d"].
Proof. eexists _, _. split; [vm_compute; reflexivity|vm_compute; reflexivity]. Qed.

End Dissect.
