(* ===== verification/Double.v ===== *)
(** * Double: times and time spans

    The program keeps times as [double] seconds.  A finite double is an integer
    number of units of [2^-1074] seconds, and the model keeps that integer:
    copying and comparing are exact, [+] and [-] round the exact result to 53
    significant bits, to nearest and ties to even, as IEEE 754 does when the
    result is finite.  Infinities and NaN are not modelled: no operation here
    produces them from times of ordinary size. *)
From S2P Require Import Prelude.

Module Double.

Notation double := Z (only parsing).

(** One second. *)
Definition sec : double := 2 ^ 1074.

(** An exact result is rounded to a double. *)
Definition rnd (z : Z) : double :=
  let a := Z.abs z in
  let e := Z.log2 a - 52 in
  if e <=? 0 then z
  else
    let q := a / 2 ^ e in
    let r := a mod 2 ^ e in
    let q := if r <? 2 ^ (e - 1) then q
             else if 2 ^ (e - 1) <? r then q + 1
             else q + q mod 2 in
    Z.sgn z * (q * 2 ^ e).

Definition dadd (a b : double) : double := rnd (a + b).
Definition dsub (a b : double) : double := rnd (a - b).

(** An [int] or [unsigned] converted to [double]; exact below 2^53. *)
Definition of_int (n : Z) : double := n * sec.

(** A positive number is rounded to one between the two neighbours. *)
Lemma rnd_pos_near a :
  0 < a -> 0 < Z.log2 a - 52 ->
  let e := Z.log2 a - 52 in
  exists q, rnd a = q * 2 ^ e /\ (q = a / 2 ^ e \/ (q = a / 2 ^ e + 1 /\ a mod 2 ^ e <> 0)) /\
    2 ^ 52 <= a / 2 ^ e < 2 ^ 53.
Proof.
  intros Ha He e. unfold rnd. rewrite Z.abs_eq by lia. fold e.
  rewrite (proj2 (Z.leb_gt e 0)) by lia. rewrite Z.sgn_pos by lia.
  assert (Pe : 0 < 2 ^ (e - 1)) by (apply Z.pow_pos_nonneg; lia).
  assert (Ee : 2 ^ e = 2 * 2 ^ (e - 1)) by (rewrite <- Z.pow_succ_r by lia; f_equal; lia).
  pose proof (Z.mod_pos_bound (a / 2 ^ e) 2 ltac:(lia)) as M.
  pose proof (Z.mod_pos_bound a (2 ^ e) ltac:(lia)) as R.
  destruct (Z.log2_spec a Ha) as [L1 L2].
  assert (B : 2 ^ 52 <= a / 2 ^ e < 2 ^ 53).
  { split; [apply Z.div_le_lower_bound; [lia|]|apply Z.div_lt_upper_bound; [lia|]];
      rewrite <- Z.pow_add_r by lia; [replace (e + 52) with (Z.log2 a) by lia; lia|].
    replace (e + 53) with (Z.succ (Z.log2 a)) by lia. lia. }
  eexists. split; [rewrite Z.mul_1_l; reflexivity|]. split; [|exact B].
  repeat case_if; [by left|right; lia|].
  assert (a / 2 ^ e mod 2 = 0 \/ a / 2 ^ e mod 2 = 1) as [E|E] by lia; rewrite E; [left|right]; lia.
Qed.

Lemma rnd_small a : Z.log2 (Z.abs a) <= 52 -> rnd a = a.
Proof. intros H. unfold rnd. by rewrite (proj2 (Z.leb_le _ 0)) by lia. Qed.

Lemma rnd_neg a : rnd (- a) = - rnd a.
Proof.
  unfold rnd. rewrite Z.abs_opp, Z.sgn_opp. cbv zeta. destruct (_ <=? 0); [done|].
  by rewrite Z.mul_opp_l.
Qed.

Lemma rnd_0 : rnd 0 = 0.
Proof. done. Qed.

(** Rounding keeps the sign and the order. *)
Lemma rnd_nonneg a : 0 <= a -> 0 <= rnd a.
Proof.
  intros Ha. destruct (Z.leb_spec (Z.log2 a - 52) 0) as [H|H].
  - rewrite rnd_small by (rewrite Z.abs_eq by lia; lia). done.
  - assert (a <> 0) by (intros ->; vm_compute in H; discriminate).
    destruct (rnd_pos_near a) as (q & -> & [->|[-> _]] & B); [lia..| |];
      apply Z.mul_nonneg_nonneg; try lia; apply Z.pow_nonneg; lia.
Qed.

(** A positive number lies in the binade of its rounding, or right below it. *)
Lemma rnd_binade a :
  0 < a -> 2 ^ Z.log2 a <= rnd a <= 2 ^ Z.succ (Z.log2 a).
Proof.
  intros Ha. destruct (Z.log2_spec a Ha) as [L1 L2].
  destruct (Z.leb_spec (Z.log2 a - 52) 0) as [H|H].
  - rewrite rnd_small by (rewrite Z.abs_eq by lia; lia). lia.
  - destruct (rnd_pos_near a) as (q & -> & Hq & B); [lia..|].
    set (e := Z.log2 a - 52) in *.
    assert (Pe : 0 < 2 ^ e) by (apply Z.pow_pos_nonneg; lia).
    replace (Z.log2 a) with (52 + e) by lia. replace (Z.succ (52 + e)) with (53 + e) by lia.
    rewrite !Z.pow_add_r by lia. nia.
Qed.

Lemma rnd_mono_pos a b : 0 < a -> a <= b -> rnd a <= rnd b.
Proof.
  intros Ha Hab.
  destruct (Z.eq_dec a b) as [->|Hn]; [done|].
  pose proof (Z.log2_le_mono a b Hab) as Hl.
  destruct (Z.eq_dec (Z.log2 a) (Z.log2 b)) as [El|Nl].
  - destruct (Z.leb_spec (Z.log2 a - 52) 0) as [H|H].
    + rewrite !rnd_small by (rewrite Z.abs_eq by lia; lia). done.
    + destruct (rnd_pos_near a) as (q & Eq & Hq & B); [lia..|].
      destruct (rnd_pos_near b) as (p & Ep & Hp & C); [lia..|].
      rewrite <- El in *. set (e := Z.log2 a - 52) in *.
      assert (Pe : 0 < 2 ^ e) by (apply Z.pow_pos_nonneg; lia).
      pose proof (Z.div_le_mono a b (2 ^ e) Pe Hab) as D.
      destruct (Z.eq_dec (a / 2 ^ e) (b / 2 ^ e)) as [Ed|Nd].
      * (* the same quotient: compare the remainders *)
        unfold rnd. rewrite !Z.abs_eq by lia. rewrite <- El. fold e.
        rewrite !(proj2 (Z.leb_gt e 0)) by lia. rewrite !Z.sgn_pos by lia. rewrite <- Ed.
        pose proof (Z.div_mod a (2 ^ e) ltac:(lia)) as Ma.
        pose proof (Z.div_mod b (2 ^ e) ltac:(lia)) as Mb. rewrite <- Ed in Mb.
        pose proof (Z.mod_pos_bound (a / 2 ^ e) 2 ltac:(lia)) as M2.
        rewrite !Z.mul_1_l. apply Z.mul_le_mono_nonneg_r; [lia|].
        repeat case_if; lia.
      * rewrite Eq, Ep. apply Z.mul_le_mono_nonneg_r; [lia|]. lia.
  - pose proof (rnd_binade a Ha) as [_ Ua]. pose proof (rnd_binade b ltac:(lia)) as [Lb _].
    etransitivity; [exact Ua|]. etransitivity; [|exact Lb]. apply Z.pow_le_mono_r; lia.
Qed.

Lemma rnd_mono a b : a <= b -> rnd a <= rnd b.
Proof.
  intros Hab. destruct (Z.ltb_spec 0 a) as [Ha|Ha]; [by apply rnd_mono_pos|].
  destruct (Z.leb_spec 0 b) as [Hb|Hb].
  - pose proof (rnd_nonneg b Hb). pose proof (rnd_nonneg (- a) ltac:(lia)) as N.
    rewrite rnd_neg in N. lia.
  - pose proof (rnd_mono_pos (- b) (- a) ltac:(lia) ltac:(lia)) as N. rewrite !rnd_neg in N. lia.
Qed.

End Double.
