(* ===== verification/Ban.v ===== *)
(** * Ban: the list of bans

    [bin/varnishd/cache_ban.c], [cache_ban.h] and [include/purge_vars.h].  The
    bans live in a store [bans] by address; [ban_head] is the list, newest first.
    The objects a ban refers to are named by the address of their [objcore];
    [objs] holds the part of an object this file works on.  The regular
    expression library is a parameter, and so is the allocator.

    [ban_check_object] is the composition of its three phases: the walk without
    a lock, the update under [ban_mtx], and the update of the object. *)
From S2P Require Import Prelude Vsb Argv Http Double.

Module Ban.
Import Http Double.

Definition BAN_T_REGEXP : Z := Z.shiftl 1 0.
Definition BAN_T_NOT : Z := Z.shiftl 1 1.
Definition BAN_F_GONE : Z := Z.shiftl 1 0.
Definition BAN_F_PENDING : Z := Z.shiftl 1 1.
Definition BAN_F_REQ : Z := Z.shiftl 1 2.

(** [flags & f] *)
Definition on (flags f : Z) : bool := negb (Z.land flags f =? 0).

(** The condition functions a test points to. *)
Inductive ban_cond_f := ban_cond_url | ban_cond_req_http | ban_cond_obj_http.

#[export] Instance ban_cond_f_dec : EqDecision ban_cond_f.
Proof. solve_decision. Defined.

Definition PVAR_HTTP : Z := 1.
Definition PVAR_REQ : Z := 2.

Definition pvars : list (list Z * Z * ban_cond_f) :=
  [(bs "req.url", PVAR_REQ, ban_cond_url);
   (bs "req.http.", Z.lor PVAR_REQ PVAR_HTTP, ban_cond_req_http);
   (bs "obj.http.", PVAR_HTTP, ban_cond_obj_http)].

Section Ban.
Context {regex : Type} (VRE_compile : list Z -> option regex) (VRE_exec : regex -> list Z -> Z).
Context (malloc_ok : Z -> bool) (junk : Z).

Record ban_test := BanTest {
  func : option ban_cond_f;
  t_flags : Z;
  re : option regex;
  dst : option (list Z);
  src : option (list Z)
}.

Record ban := MkBan {
  refcount : Z;
  flags : Z;
  tests : list ban_test;
  objcore : list Z;
  t0 : Z;
  b_vsb : option Vsb.vsb;
  test : option (list Z)
}.

Definition set_refcount (b : ban) (n : Z) : ban :=
  MkBan n (flags b) (tests b) (objcore b) (t0 b) (b_vsb b) (test b).
Definition set_flags (b : ban) (f : Z) : ban :=
  MkBan (refcount b) f (tests b) (objcore b) (t0 b) (b_vsb b) (test b).
Definition set_tests (b : ban) (l : list ban_test) : ban :=
  MkBan (refcount b) (flags b) l (objcore b) (t0 b) (b_vsb b) (test b).
Definition set_objcore (b : ban) (l : list Z) : ban :=
  MkBan (refcount b) (flags b) (tests b) l (t0 b) (b_vsb b) (test b).
Definition set_vsb (b : ban) (s : option Vsb.vsb) : ban :=
  MkBan (refcount b) (flags b) (tests b) (objcore b) (t0 b) s (test b).
Definition set_text (b : ban) (t : double) (x : list Z) : ban :=
  MkBan (refcount b) (flags b) (tests b) (objcore b) t (b_vsb b) (Some x).

(** ** Manipulation of bans *)

(** Sizes of the structures on an LP64 machine. *)
Definition SIZEOF_BAN : Z := 96.
Definition SIZEOF_BAN_TEST : Z := 64.

(** The outer option is an abort, the inner one a NULL return. *)
Definition BAN_New : option (option ban) :=
  if malloc_ok SIZEOF_BAN then
    let? v := Vsb.vsb_newauto malloc_ok junk in
    match v with
    | None => Some None
    | Some s => Some (Some (MkBan 0 0 [] [] 0 (Some s) None))
    end
  else Some None.

Definition test0 : ban_test := BanTest None 0 None None None.

(** [ban_add_test]: the new test is the last of the list, and still blank. *)
Definition ban_add_test (b : ban) : option ban :=
  if malloc_ok SIZEOF_BAN_TEST then Some (set_tests b (tests b ++ [test0])) else None.

(** [BAN_Free] may be called. *)
Definition BAN_Free (b : ban) : option unit :=
  assert! refcount b =? 0 ;; assert! bool_decide (objcore b = []) ;; Some ().

(** ** Test functions: false when the test matches *)

Definition ban_cond_str (bt : ban_test) (p : option (list Z)) : option bool :=
  match p with
  | None => Some (negb (on (t_flags bt) BAN_T_NOT))
  | Some p =>
    let? i := (if on (t_flags bt) BAN_T_REGEXP
               then let? r := re bt in Some (VRE_exec r p <? 0)
               else let? d := dst bt in Some (negb (streq d p))) in
    if on (t_flags bt) BAN_T_NOT then Some (negb i) else Some i
  end.

(** [bt->func(bt, o, sp)], with the headers of the object and of the request. *)
Definition cond (bt : ban_test) (o_http sp_http : http) : option bool :=
  let? f := func bt in
  match f with
  | ban_cond_url => ban_cond_str bt (snd <$> get sp_http HTTP_HDR_URL)
  | ban_cond_req_http =>
      let? h := src bt in let? s := http_GetHdr sp_http h in ban_cond_str bt s
  | ban_cond_obj_http =>
      let? h := src bt in let? s := http_GetHdr o_http h in ban_cond_str bt s
  end.

(** ** Adding tests *)

Inductive cli_err :=
  | OutOfMemory | BadRegexp | BadConditional | UnknownField | WrongArgs | ExpectedAnd.

(** [ban_parse_regexp]; false is the error return. *)
Definition ban_parse_regexp (bt : ban_test) (a3 : list Z) : ban_test * bool :=
  match VRE_compile a3 with
  | None => (BanTest (func bt) (t_flags bt) None (dst bt) (src bt), false)
  | Some r => (BanTest (func bt) (Z.lor (t_flags bt) BAN_T_REGEXP) (Some r) (dst bt) (src bt), true)
  end.

Definition ban_parse_http (bt : ban_test) (a1 : list Z) : option ban_test :=
  assert! Z.of_nat (length a1) <? 127 ;;
  Some (BanTest (func bt) (t_flags bt) (re bt) (dst bt) (Some (hdrconst a1))).

Definition set_not (bt : ban_test) : ban_test :=
  BanTest (func bt) (Z.lor (t_flags bt) BAN_T_NOT) (re bt) (dst bt) (src bt).
Definition set_dst (bt : ban_test) (a3 : list Z) : ban_test :=
  BanTest (func bt) (t_flags bt) (re bt) (Some a3) (src bt).
Definition set_func (bt : ban_test) (f : ban_cond_f) : ban_test :=
  BanTest (Some f) (t_flags bt) (re bt) (dst bt) (src bt).

(** The conditional of the second word. *)
Definition parse_cond (bt : ban_test) (a2 a3 : list Z) : ban_test + cli_err :=
  let regexp bt := match ban_parse_regexp bt a3 with
                   | (bt, true) => inl bt
                   | (_, false) => inr BadRegexp
                   end in
  if streq a2 (bs "~") then regexp bt
  else if streq a2 (bs "!~") then regexp (set_not bt)
  else if streq a2 (bs "==") then inl (set_dst bt a3)
  else if streq a2 (bs "!=") then inl (set_dst (set_not bt) a3)
  else inr BadConditional.

(** The loop over [pvars]: the entry whose name is a prefix of the first word. *)
Fixpoint find_pvar (l : list (list Z * Z * ban_cond_f)) (a1 : list Z)
  : option (list Z * Z * ban_cond_f) :=
  match l with
  | [] => None
  | pv :: l => if bool_decide (take (length pv.1.1) a1 = pv.1.1) then Some pv else find_pvar l a1
  end.

(** A test that was added in vain stays in the list of a ban that is then freed. *)
Definition BAN_AddTest (b : ban) (a1 a2 a3 : list Z) : option (ban * option cli_err) :=
  let? vsb := b_vsb b in
  let? vsb := (if bool_decide (tests b = []) then Some vsb
               else let? (_, s) := Vsb.vsb_cat malloc_ok junk vsb (bs " && ") in Some s) in
  let b := set_vsb b (Some vsb) in
  match ban_add_test b with
  | None => Some (b, Some OutOfMemory)
  | Some b1 =>
    match parse_cond test0 a2 a3 with
    | inr e => Some (b1, Some e)
    | inl bt =>
      match find_pvar pvars a1 with
      | None => Some (b1, Some UnknownField)
      | Some (name, flag, f) =>
        let bt := set_func bt f in
        let b2 := if on flag PVAR_REQ then set_flags b (Z.lor (flags b) BAN_F_REQ) else b in
        let? bt := (if on flag PVAR_HTTP
                    then ban_parse_http bt (drop (length name) a1) else Some bt) in
        let? (_, vsb) := Vsb.vsb_printf malloc_ok junk vsb (a1 ++ 32 :: a2 ++ [32]) in
        let? vsb := Vsb.vsb_quote malloc_ok junk vsb a3 in
        Some (set_vsb (set_tests b2 (tests b ++ [bt])) (Some vsb), None)
      end
    end
  end.

(** ** The shared state *)

Record object := Obj {
  o_ban : option Z;
  ban_t : Z;
  ttl : Z;
  cacheable : bool;
  o_http : http;
  smp_seg : bool
}.

(** Calls into other components, in order. *)
Inductive event :=
  | SMP_NewBan (t : double) (x : list Z)
  | SMP_BANchanged (oc : Z) (t : double)
  | SMP_TTLchanged (oc : Z)
  | EXP_Rearm (oc : Z).

(** The counters of [VSL_stats] this file maintains. *)
Record stats := Stats {
  n_purge : Z; n_purge_add : Z; n_purge_retire : Z; n_purge_dups : Z;
  n_purge_obj_test : Z; n_purge_re_test : Z
}.

Record world := World {
  bans : gmap Z ban;
  ban_head : list Z;
  ban_start : Z;
  ban_magic : Z;
  objs : gmap Z object;
  stat : stats;
  events : list event
}.

Definition put_ban (w : world) (a : Z) (b : ban) : world :=
  World (<[a := b]> (bans w)) (ban_head w) (ban_start w) (ban_magic w) (objs w) (stat w) (events w).
Definition put_obj (w : world) (oc : Z) (o : object) : world :=
  World (bans w) (ban_head w) (ban_start w) (ban_magic w) (<[oc := o]> (objs w)) (stat w) (events w).
Definition set_list (w : world) (l : list Z) (start : Z) : world :=
  World (bans w) l start (ban_magic w) (objs w) (stat w) (events w).
Definition set_stat (w : world) (s : stats) : world :=
  World (bans w) (ban_head w) (ban_start w) (ban_magic w) (objs w) s (events w).
Definition emit (w : world) (e : event) : world :=
  World (bans w) (ban_head w) (ban_start w) (ban_magic w) (objs w) (stat w) (events w ++ [e]).

Definition count_purge (s : stats) (d add retire : Z) : stats :=
  Stats (n_purge s + d) (n_purge_add s + add) (n_purge_retire s + retire) (n_purge_dups s)
        (n_purge_obj_test s) (n_purge_re_test s).
Definition count_dups (s : stats) (d : Z) : stats :=
  Stats (n_purge s) (n_purge_add s) (n_purge_retire s) (n_purge_dups s + d)
        (n_purge_obj_test s) (n_purge_re_test s).
Definition count_tests (s : stats) (d : Z) : stats :=
  Stats (n_purge s) (n_purge_add s) (n_purge_retire s) (n_purge_dups s)
        (n_purge_obj_test s + 1) (n_purge_re_test s + d).

(** [VTAILQ_REMOVE] of an element that is in the list. *)
Fixpoint remove (oc : Z) (l : list Z) : option (list Z) :=
  match l with
  | [] => None
  | x :: l => if x =? oc then Some l else let? l := remove oc l in Some (x :: l)
  end.

(** ** Inserting *)

(** The hunt for duplicates from the second ban to [be], the last when it
    started: the marked store and the number of bans marked. *)
Fixpoint hunt (l : list Z) (x : list Z) (m : gmap Z ban) (n : Z) : option (gmap Z ban * Z) :=
  match l with
  | [] => Some (m, n)
  | a :: l =>
    let? b := m !! a in
    if on (flags b) BAN_F_GONE then hunt l x m n
    else
      let? t := test b in
      if streq x t then hunt l x (<[a := set_flags b (Z.lor (flags b) BAN_F_GONE)]> m) (n + 1)
      else hunt l x m n
  end.

(** [BAN_Insert(b)] in two halves: under the lock, and the hunt after it.  [now]
    is what [TIM_real] returns, [dups] is [params->purge_dups].  The result of
    the first half is [be]. *)
Definition insert_locked (w : world) (a : Z) (b : ban) (now : double) (dups : bool)
  : option (world * option Z) :=
  let? v := b_vsb b in
  let? v := Vsb.vsb_finish v in
  assert! negb (Vsb.vsb_overflowed v) ;;
  let? x := Vsb.vsb_data v in
  let b := set_vsb (set_text b now x) None in
  let w := set_list (put_ban w a b) (a :: ban_head w) a in
  let w := set_stat w (count_purge (stat w) 1 1 0) in
  let? be := List.last (map Some (ban_head w)) None in
  let? wb := (if dups && negb (be =? a)
              then let? e := bans w !! be in
                   Some (put_ban w be (set_refcount e (refcount e + 1)), Some be)
              else Some (w, None)) in
  Some (emit wb.1 (SMP_NewBan now x), wb.2).

Definition insert_hunt (w : world) (a be : Z) (l : list Z) : option world :=
  let? b := bans w !! a in
  let? x := test b in
  let? (m, n) := hunt l x (bans w) 0 in
  let w := World m (ban_head w) (ban_start w) (ban_magic w) (objs w) (stat w) (events w) in
  let? e := bans w !! be in
  let w := put_ban w be (set_refcount e (refcount e - 1)) in
  Some (set_stat w (count_dups (stat w) n)).

Definition BAN_Insert (w : world) (a : Z) (b : ban) (now : double) (dups : bool) : option world :=
  let? (w, be) := insert_locked w a b now dups in
  match be with
  | None => Some w
  | Some be => insert_hunt w a be (tail (ban_head w))
  end.

(** ** Objects *)

Definition BAN_NewObj (w : world) (oc : Z) : option world :=
  let? o := objs w !! oc in
  assert! bool_decide (o_ban o = None) ;;
  let a := ban_start w in
  let? b := bans w !! a in
  let w := put_ban w a (set_objcore (set_refcount b (refcount b + 1)) (objcore b ++ [oc])) in
  Some (put_obj w oc (Obj (Some a) (t0 b) (ttl o) (cacheable o) (o_http o) (smp_seg o))).

Definition BAN_CheckLast (w : world) : option (world * option Z) :=
  let? a := List.last (map Some (ban_head w)) None in
  let? b := bans w !! a in
  if negb (bool_decide (head (ban_head w) = Some a)) && (refcount b =? 0) then
    let w := set_stat w (count_purge (stat w) (-1) 0 1) in
    Some (set_list w (removelast (ban_head w)) (ban_start w), Some a)
  else Some (w, None).

(** A ban taken off the list is freed: [BAN_Free] and the store without it. *)
Definition free_ban (w : world) (a : Z) : option world :=
  let? b := bans w !! a in
  let? _ := BAN_Free b in
  Some (World (delete a (bans w)) (ban_head w) (ban_start w) (ban_magic w) (objs w) (stat w)
              (events w)).

(** [b = BAN_CheckLast(); if (b != NULL) BAN_Free(b);] *)
Definition retire (w : world) : option (world * bool) :=
  let? (w, b) := BAN_CheckLast w in
  match b with
  | None => Some (w, false)
  | Some a => let? w := free_ban w a in Some (w, true)
  end.

Definition BAN_DestroyObj (w : world) (oc : Z) : option world :=
  let? o := objs w !! oc in
  match o_ban o with
  | None => Some w
  | Some a =>
    let? b := bans w !! a in
    assert! 0 <? refcount b ;;
    let? l := remove oc (objcore b) in
    let w := put_ban w a (set_objcore (set_refcount b (refcount b - 1)) l) in
    let w := put_obj w oc (Obj None (ban_t o) (ttl o) (cacheable o) (o_http o) (smp_seg o)) in
    let? (w, _) := retire w in Some w
  end.

(** ** Checking an object *)

(** The tests of one ban in order; true when all of them match, and how many ran. *)
Fixpoint run_tests (l : list ban_test) (oh sh : http) (n : Z) : option (bool * Z) :=
  match l with
  | [] => Some (true, n)
  | bt :: l =>
    let? i := cond bt oh sh in
    if i then Some (false, n + 1) else run_tests l oh sh (n + 1)
  end.

(** How the walk ends: with nothing to do, or at a ban, after some tests. *)
Inductive walked := Leave | Stop (b : Z) (tests : Z).

Fixpoint walk (m : gmap Z ban) (l : list Z) (stop : Z) (oh sh : http) (has_req : bool) (n : Z)
  : option walked :=
  match l with
  | [] => None
  | a :: l =>
    if a =? stop then Some (Stop a n)
    else
      let? b := m !! a in
      if on (flags b) BAN_F_GONE then walk m l stop oh sh has_req n
      else if negb has_req && on (flags b) BAN_F_REQ then Some Leave
      else
        let? (hit, n) := run_tests (tests b) oh sh n in
        if hit then Some (Stop a n) else walk m l stop oh sh has_req n
  end.

(** The list from a ban on. *)
Fixpoint suffix (a : Z) (l : list Z) : list Z :=
  match l with
  | [] => []
  | x :: r => if x =? a then l else suffix a r
  end.

(** The first phase, with the ban at the head of the list as the code read it. *)
Definition check_walk (w : world) (oc b0 : Z) (sh : http) (has_req : bool) : option walked :=
  let? o := objs w !! oc in
  let? ob := o_ban o in
  if b0 =? ob then Some Leave
  else walk (bans w) (suffix b0 (ban_head w)) ob (o_http o) sh has_req 0.

(** The second phase: move the object from its ban to [b0], unless it is banned. *)
Definition check_lock (w : world) (oc b0 b n : Z) : option world :=
  let? o := objs w !! oc in
  let? ob := o_ban o in
  let? x := bans w !! ob in
  let? l := remove oc (objcore x) in
  let w := put_ban w ob (set_objcore (set_refcount x (refcount x - 1)) l) in
  let? w := (if b =? ob then
               let? y := bans w !! b0 in
               Some (put_ban w b0 (set_refcount (set_objcore y (objcore y ++ [oc])) (refcount y + 1)))
             else Some w) in
  Some (set_stat w (count_tests (stat w) n)).

(** The third phase. *)
Definition check_after (w : world) (oc b0 b : Z) : option (world * bool) :=
  let? o := objs w !! oc in
  let? ob := o_ban o in
  if b =? ob then
    let? y := bans w !! b0 in
    let w := put_obj w oc (Obj (Some b0) (t0 y) (ttl o) (cacheable o) (o_http o) (smp_seg o)) in
    Some (if smp_seg o then emit w (SMP_BANchanged oc (t0 y)) else w, false)
  else
    let w := put_obj w oc (Obj None (ban_t o) 0 false (o_http o) (smp_seg o)) in
    let w := if smp_seg o then emit w (SMP_TTLchanged oc) else w in
    Some (emit w (EXP_Rearm oc), true).

Definition ban_check_object (w : world) (oc : Z) (sh : http) (has_req : bool)
  : option (world * bool) :=
  let b0 := ban_start w in
  let? r := check_walk w oc b0 sh has_req in
  match r with
  | Leave => Some (w, false)
  | Stop b n =>
    let? w := check_lock w oc b0 b n in
    check_after w oc b0 b
  end.

Definition BAN_CheckObject (w : world) (oc : Z) (sh : http) : option (world * bool) :=
  ban_check_object w oc sh true.

(** One turn of [ban_lurker].  [found] is what [HSH_FindBan] answers for an object
    core.  The object returned was checked and holds a reference to drop. *)
Definition lurk (w : world) (sh : http) (found : Z -> bool) : option (world * option Z) :=
  let? (w, retired) := retire w in
  if retired then Some (w, None)
  else
    let? a := List.last (map Some (ban_head w)) None in
    if a =? ban_start w then Some (w, None)
    else
      let? b := bans w !! a in
      match objcore b with
      | [] => Some (w, None)
      | oc :: _ =>
        if found oc then
          let? (w, _) := ban_check_object w oc sh false in Some (w, Some oc)
        else Some (w, None)
      end.

(** ** References *)

Definition BAN_Deref (w : world) (a : Z) : option world :=
  let? b := bans w !! a in Some (put_ban w a (set_refcount b (refcount b - 1))).

Definition BAN_TailRef (w : world) : option (world * Z) :=
  let? a := List.last (map Some (ban_head w)) None in
  let? b := bans w !! a in
  Some (put_ban w a (set_refcount b (refcount b + 1)), a).

Fixpoint find_ref (m : gmap Z ban) (l : list Z) (t : double) (tl : Z) : option Z :=
  match l with
  | [] => None
  | a :: l =>
    if a =? tl then Some a
    else let? b := m !! a in if t0 b <=? t then Some a else find_ref m l t tl
  end.

Definition BAN_RefBan (w : world) (oc : Z) (t : double) (tl : Z) : option (world * Z) :=
  let? a := find_ref (bans w) (ban_head w) t tl in
  let? b := bans w !! a in
  assert! t0 b =? t ;;
  Some (put_ban w a (set_objcore (set_refcount b (refcount b + 1)) (objcore b ++ [oc])), a).

(** ** Bans read back from a silo *)

(** The search of [BAN_Reload]: the bans in front of the place found and those
    behind it, and the flag; None when the ban is there already. *)
Fixpoint reload_loop (m : gmap Z ban) (l pre : list Z) (t : double) (x : list Z) (gone : Z)
  : option (option (list Z * list Z * Z)) :=
  match l with
  | [] => Some (Some (pre, [], gone))
  | a :: l' =>
    let? b := m !! a in
    let? y := test b in
    if streq y x then
      if t <? t0 b then reload_loop m l' (pre ++ [a]) t x (Z.lor gone BAN_F_GONE)
      else if t0 b =? t then Some None
      else Some (Some (pre, l, gone))
    else if t <? t0 b then reload_loop m l' (pre ++ [a]) t x gone
    else if t0 b <? t then Some (Some (pre, l, gone))
    else reload_loop m l' (pre ++ [a]) t x gone
  end.

(** [BAN_Reload(t0, flags, ban)]: the new ban is at address [a]. *)
Definition BAN_Reload (w : world) (a : Z) (t : double) (x : list Z) : option world :=
  let? r := reload_loop (bans w) (ban_head w) [] t x 0 in
  match r with
  | None => Some w
  | Some (pre, post, gone) =>
    let w := set_stat w (count_purge (stat w) 1 1 0) in
    let? b2 := BAN_New in
    let? b2 := b2 in
    let b2 := set_text b2 t x in
    let b2 := set_flags b2 (Z.lor (flags b2) (Z.lor BAN_F_PENDING gone)) in
    let w := set_list (put_ban w a b2) (pre ++ a :: post) (ban_start w) in
    let? (m, _) := hunt post x (bans w) 0 in
    Some (World m (ban_head w) (ban_start w) (ban_magic w) (objs w) (stat w) (events w))
  end.

(** The tests of a parsed ban text, three words each with && between them.  A
    missing word is a NULL pointer the test functions follow. *)
Fixpoint compile_tests (fuel : nat) (b : ban) (av : list (list Z)) : option ban :=
  match fuel with
  | O => None
  | S fuel =>
    match av with
    | a1 :: a2 :: a3 :: av =>
      let? (b, e) := BAN_AddTest b a1 a2 a3 in
      assert! match e with None => true | Some _ => false end ;;
      match av with
      | [] => Some b
      | x :: av => assert! streq x (bs "&&") ;; compile_tests fuel b av
      end
    | _ => None
    end
  end.

Definition compile_ban (b : ban) : option ban :=
  if negb (on (flags b) BAN_F_PENDING) then Some b
  else
    let b := set_flags b (Z.ldiff (flags b) BAN_F_PENDING) in
    if on (flags b) BAN_F_GONE then Some b
    else
      let? x := test b in
      match Argv.ParseArgv x 0 with
      | Argv.AvOk [] => Some b
      | Argv.AvOk av => compile_tests (length av) b av
      | _ => None
      end.

Fixpoint compile_loop (m : gmap Z ban) (l : list Z) : option (gmap Z ban) :=
  match l with
  | [] => Some m
  | a :: l =>
    let? b := m !! a in
    let? b := compile_ban b in
    compile_loop (<[a := b]> m) l
  end.

Definition BAN_Compile (w : world) : option world :=
  let? mb := bans w !! ban_magic w in
  let? x := test mb in
  let w := emit w (SMP_NewBan (t0 mb) x) in
  let? m := compile_loop (bans w) (ban_head w) in
  let? s := head (ban_head w) in
  Some (World m (ban_head w) s (ban_magic w) (objs w) (stat w) (events w)).

(** ** CLI *)

(** [ccf_purge] on the words after the command. *)
Fixpoint check_ands (av : list (list Z)) : bool :=
  match av with
  | _ :: _ :: _ :: x :: av => streq x (bs "&&") && check_ands av
  | _ => true
  end.

(** The loop that adds the tests; a failure hands the ban back to be freed. *)
Fixpoint purge_tests (fuel : nat) (b : ban) (av : list (list Z)) : option (ban * option cli_err) :=
  match fuel, av with
  | S fuel, a1 :: a2 :: a3 :: av =>
    let? (b, e) := BAN_AddTest b a1 a2 a3 in
    match e, av with
    | None, _ :: av => purge_tests fuel b av
    | _, _ => Some (b, e)
    end
  | _, _ => Some (b, None)
  end.

Definition ccf_purge (w : world) (a : Z) (av : list (list Z)) (now : double) (dups : bool)
  : option (world * option cli_err) :=
  if negb (length av mod 4 =? 3)%nat then Some (w, Some WrongArgs)
  else if negb (check_ands av) then Some (w, Some ExpectedAnd)
  else
    let? b := BAN_New in
    match b with
    | None => Some (w, Some OutOfMemory)
    | Some b =>
      let? (b, e) := purge_tests (length av) b av in
      match e with
      | Some e => let? _ := BAN_Free b in Some (w, Some e)
      | None => let? w := BAN_Insert w a b now dups in Some (w, None)
      end
    end.

Definition ccf_purge_url (w : world) (a : Z) (av2 : list Z) (now : double) (dups : bool) :=
  ccf_purge w a [bs "req.url"; bs "~"; av2] now dups.

(** [BAN_Init]: the magic ban at the end of the list. *)
Definition BAN_Init (a : Z) (now : double) (dups : bool) : option world :=
  let? b := BAN_New in
  let? b := b in
  let b := set_flags b (Z.lor (flags b) BAN_F_GONE) in
  BAN_Insert (World ∅ [] 0 a ∅ (Stats 0 0 0 0 0 0) []) a b now dups.

End Ban.
End Ban.
