(* ===== verification/BanSpec.v ===== *)
(** * BanSpec: what the bans promise

    The invariant of the ban list, that every operation keeps it, what the verdict
    on an object is, and that a ban text read back compiles to the same tests. *)
From S2P Require Import Prelude Vsb Argv Http Double Ban.

Module BanSpec.
Import Http Double Ban.

Lemma on_lor f g h : on (Z.lor f g) h = on f h || on g h.
Proof.
  unfold on. rewrite Z.land_lor_distr_l.
  destruct (Z.eqb_spec (Z.land f h) 0) as [->|N]; [by rewrite Z.lor_0_l|].
  destruct (Z.eqb_spec (Z.lor (Z.land f h) (Z.land g h)) 0) as [E|]; [|done].
  apply Z.lor_eq_0_iff in E. tauto.
Qed.

(** ** The list and the objects *)

Section Lists.
#[local] Set Default Proof Using "All".
Context {regex : Type} (VRE_exec : regex -> list Z -> Z).
Notation ban := (@Ban.ban regex).
Notation ban_test := (@Ban.ban_test regex).
Notation world := (@Ban.world regex).
Notation cond := (Ban.cond VRE_exec).

(** ** Tests and bans *)

Definition is_http (f : ban_cond_f) : bool :=
  match f with ban_cond_url => false | _ => true end.
Definition is_req (f : ban_cond_f) : bool :=
  match f with ban_cond_obj_http => false | _ => true end.

(** A test [BAN_AddTest] completed. *)
Definition good_test (t : ban_test) : Prop :=
  exists f, func t = Some f /\
    (if on (t_flags t) BAN_T_REGEXP then is_Some (re t) else is_Some (dst t)) /\
    (is_http f = true -> exists name, token name /\ src t = Some (hdrconst name)).

Definition asks_req (t : ban_test) : bool :=
  match func t with Some f => is_req f | None => false end.

(** A ban is in force unless it is marked gone. *)
Definition live (b : ban) : bool := negb (on (flags b) BAN_F_GONE).

(** A ban of the list, ready to be tested. *)
Definition good_ban (b : ban) : Prop :=
  is_Some (test b) /\ Forall good_test (tests b) /\
  (existsb asks_req (tests b) = true -> on (flags b) BAN_F_REQ = true) /\
  (live b = true -> tests b <> []).

Lemma cond_str_total t p : good_test t -> is_Some (ban_cond_str VRE_exec t p).
Proof.
  intros (f & _ & H & _). unfold ban_cond_str. destruct p as [p|]; [|eauto].
  destruct (on (t_flags t) BAN_T_REGEXP); destruct H as [y ->];
    destruct (on (t_flags t) BAN_T_NOT); eauto.
Qed.

Lemma cond_total t oh sh : good_test t -> is_Some (cond t oh sh).
Proof.
  intros Ht. pose proof Ht as (f & E & _ & Hs). unfold Ban.cond. rewrite E.
  destruct f; [by apply cond_str_total| |];
    (destruct (Hs eq_refl) as (name & Hn & ->); simpl;
     match goal with |- context [http_GetHdr ?h _] =>
       destruct (GetHdr_total h name Hn) as [s ->] end; by apply cond_str_total).
Qed.

(** All tests match. *)
Definition hits (b : ban) (oh sh : http) : bool :=
  forallb (fun t => match cond t oh sh with Some false => true | _ => false end) (tests b).

Lemma run_tests_spec l oh sh n :
  Forall good_test l -> exists n',
  run_tests VRE_exec l oh sh n =
    Some (forallb (fun t => match cond t oh sh with Some false => true | _ => false end) l, n').
Proof.
  intros Hl. revert n; induction Hl as [|t l Ht Hl IH]; intros n; [eexists; done|].
  cbn [run_tests forallb]. destruct (cond_total t oh sh Ht) as [[] ->]; [eexists; done|].
  apply IH.
Qed.

(** A test that does not look at the request gives the same answer for all. *)
Lemma cond_noreq t oh sh sh' : asks_req t = false -> cond t oh sh = cond t oh sh'.
Proof. unfold asks_req, Ban.cond. destruct (func t) as [[]|]; done. Qed.

Lemma hits_noreq b oh sh sh' : existsb asks_req (tests b) = false -> hits b oh sh = hits b oh sh'.
Proof.
  unfold hits. induction (tests b) as [|t l IH]; [done|]. cbn [existsb forallb].
  intros (A & B)%orb_false_iff. rewrite (cond_noreq t oh sh sh' A). by rewrite IH.
Qed.

(** ** The walk *)

(** The first ban in force of a list that hits. *)
Fixpoint first_hit (m : gmap Z ban) (l : list Z) (oh sh : http) : option Z :=
  match l with
  | [] => None
  | a :: l =>
    match m !! a with
    | Some b => if live b && hits b oh sh then Some a else first_hit m l oh sh
    | None => first_hit m l oh sh
    end
  end.

Lemma first_hit_in m l oh sh a : first_hit m l oh sh = Some a ->
  a ∈ l /\ exists b, m !! a = Some b /\ live b = true /\ hits b oh sh = true.
Proof.
  induction l as [|c l IH]; [done|]. cbn [first_hit]. destruct (m !! c) as [b|] eqn:E.
  - destruct (live b && hits b oh sh) eqn:H.
    + intros [= <-]. bool_prop. split; [set_solver|eauto].
    + intros H'. destruct (IH H') as [A B]. split; [set_solver|done].
  - intros H. destruct (IH H) as [A B]. split; [set_solver|done].
Qed.

Lemma first_hit_none m l oh sh : first_hit m l oh sh = None ->
  forall a b, a ∈ l -> m !! a = Some b -> live b = true -> hits b oh sh = false.
Proof.
  induction l as [|c l IH]; intros H a b Ha Hb Hl; [set_solver|]. cbn [first_hit] in H.
  apply elem_of_cons in Ha as [->|Ha].
  - rewrite Hb in H. rewrite Hl in H. by destruct (hits b oh sh).
  - destruct (m !! c) as [b'|]; [|by eapply IH]. destruct (live b' && _); [done|by eapply IH].
Qed.

Definition goodm (m : gmap Z ban) (l : list Z) : Prop :=
  forall a, a ∈ l -> exists b, m !! a = Some b /\ good_ban b.

Lemma ban_walk_spec m pre stop post oh sh n :
  stop ∉ pre -> goodm m pre -> exists n',
  walk VRE_exec m (pre ++ stop :: post) stop oh sh true n =
    Some (Stop (default stop (first_hit m pre oh sh)) n').
Proof.
  revert n; induction pre as [|a pre IH]; intros n Hs Hg; cbn [app walk first_hit].
  - rewrite Z.eqb_refl. eexists; done.
  - apply not_elem_of_cons in Hs as [Hne Hs].
    rewrite (proj2 (Z.eqb_neq a stop)) by congruence.
    destruct (Hg a) as (b & E & Hb); [set_solver|]. rewrite E.
    assert (Hg' : goodm m pre) by (intros c Hc; apply Hg; set_solver).
    unfold live. destruct (on (flags b) BAN_F_GONE); cbn [negb andb]; [by apply IH|].
    destruct Hb as (_ & Ht & _). destruct (run_tests_spec (tests b) oh sh n Ht) as (n' & ->).
    fold (hits b oh sh). destruct (hits b oh sh); [eexists; done|by apply IH].
Qed.

(** Without a request the walk gives up or agrees with every request. *)
Lemma walk_lurker m pre stop post oh s0 n :
  stop ∉ pre -> goodm m pre ->
  walk VRE_exec m (pre ++ stop :: post) stop oh s0 false n = Some Leave \/
  exists n', walk VRE_exec m (pre ++ stop :: post) stop oh s0 false n =
    Some (Stop (default stop (first_hit m pre oh s0)) n') /\
    forall sh, first_hit m pre oh sh = first_hit m pre oh s0.
Proof.
  revert n; induction pre as [|a pre IH]; intros n Hs Hg; cbn [app walk first_hit].
  - rewrite Z.eqb_refl. right. eexists; done.
  - apply not_elem_of_cons in Hs as [Hne Hs].
    rewrite (proj2 (Z.eqb_neq a stop)) by congruence.
    destruct (Hg a) as (b & E & Hb); [set_solver|]. rewrite E.
    assert (Hg' : goodm m pre) by (intros c Hc; apply Hg; set_solver).
    unfold live. destruct (on (flags b) BAN_F_GONE); cbn [negb andb]; [by apply IH|].
    destruct (on (flags b) BAN_F_REQ) eqn:Er; [by left|].
    destruct Hb as (_ & Ht & Hr & _). destruct (run_tests_spec (tests b) oh s0 n Ht) as (n' & ->).
    fold (hits b oh s0).
    assert (Hq : existsb asks_req (tests b) = false).
    { destruct (existsb _ _); [|done]. rewrite Hr in Er; done. }
    assert (Hh : forall sh, hits b oh sh = hits b oh s0) by (intros; by apply hits_noreq).
    destruct (hits b oh s0) eqn:Eh.
    + right. eexists. split; [done|]. intros sh. by rewrite Hh.
    + destruct (IH n' Hs Hg') as [->|(n2 & -> & Hx)]; [by left|]. right.
      eexists. split; [done|]. intros sh. rewrite Hh. apply Hx.
Qed.

(** ** The invariant *)

(** [x] counts the references held by nobody's object: [BAN_TailRef] and a hunt
    for duplicates in progress. *)
Record inv (x : Z -> Z) (w : world) : Prop := {
  i_nodup : NoDup (ban_head w);
  i_start : head (ban_head w) = Some (ban_start w);
  i_store : forall a, a ∈ ban_head w <-> is_Some (bans w !! a);
  i_ref : forall a b, bans w !! a = Some b -> refcount b = Z.of_nat (length (objcore b)) + x a;
  i_uniq : forall a b, bans w !! a = Some b -> NoDup (objcore b);
  i_objs : forall a b oc, bans w !! a = Some b ->
    (oc ∈ objcore b <-> exists o, objs w !! oc = Some o /\ o_ban o = Some a);
  i_refd : forall oc o a, objs w !! oc = Some o -> o_ban o = Some a -> a ∈ ban_head w;
  i_good : forall a b, bans w !! a = Some b -> good_ban b;
  i_count : n_purge (stat w) = Z.of_nat (length (ban_head w))
}.

Definition with_ban (o : object) (a : option Z) (t : Z) (tl : Z) (c : bool) : object :=
  Obj a t tl c (o_http o) (smp_seg o).

Lemma remove_spec oc l : oc ∈ l -> NoDup l ->
  exists l', remove oc l = Some l' /\ l' = filter (fun x => x <> oc) l /\
    length l = S (length l') /\ NoDup l'.
Proof.
  induction l as [|y l IH]; intros Hin Hn; [set_solver|]. apply NoDup_cons in Hn as [Hy Hn].
  cbn [remove]. destruct (Z.eqb_spec y oc) as [->|Hne].
  - exists l. split; [done|]. rewrite filter_cons_False by auto. split; [|done].
    clear IH Hin Hn. induction l as [|z l IH]; [done|].
    apply not_elem_of_cons in Hy as [H1 H2]. rewrite filter_cons_True by auto. by rewrite <- IH.
  - apply elem_of_cons in Hin as [->|Hin]; [done|].
    destruct (IH Hin Hn) as (l' & -> & E & L & N). exists (y :: l').
    split; [done|]. rewrite filter_cons_True by done. rewrite <- E. split; [done|].
    split; [simpl; lia|]. apply NoDup_cons. split; [|done].
    rewrite E. rewrite list_elem_of_filter. naive_solver.
Qed.

(** Releasing an object from its ban. *)
Definition detach (w : world) (oc : Z) (o : object) (a : Z) (b : ban) (l : list Z) : world :=
  put_obj (put_ban w a (set_objcore (set_refcount b (refcount b - 1)) l)) oc o.

Lemma inv_detach x w oc o o' a b :
  inv x w -> objs w !! oc = Some o -> o_ban o = Some a -> bans w !! a = Some b ->
  o_ban o' = None -> exists l, remove oc (objcore b) = Some l /\ inv x (detach w oc o' a b l) /\
    0 < refcount b - x a.
Proof.
  intros [I1 I2 I3 I4 I5 I6 I7 I8 I9] Ho Hb Hm Hn.
  assert (Hin : oc ∈ objcore b) by (apply (I6 a b oc Hm); eauto).
  destruct (remove_spec oc (objcore b) Hin (I5 _ _ Hm)) as (l & E & El & Ll & Nl).
  exists l. split; [done|]. split; [|rewrite (I4 _ _ Hm); lia].
  split; cbn [detach put_obj put_ban bans ban_head ban_start objs stat]; try done.
  - intros c. rewrite I3, lookup_insert_is_Some'. naive_solver.
  - intros c b'. destruct (decide (c = a)) as [->|N].
    + rewrite lookup_insert_eq. intros [= <-]. simpl. rewrite (I4 _ _ Hm). lia.
    + rewrite lookup_insert_ne by done. auto.
  - intros c b'. destruct (decide (c = a)) as [->|N].
    + rewrite lookup_insert_eq. by intros [= <-].
    + rewrite lookup_insert_ne by done. eauto.
  - intros c b' oc'. destruct (decide (c = a)) as [->|N].
    + rewrite lookup_insert_eq. intros [= <-]. simpl. rewrite El, list_elem_of_filter.
      rewrite (I6 _ _ oc' Hm). destruct (decide (oc' = oc)) as [->|No].
      * rewrite lookup_insert_eq. naive_solver.
      * rewrite lookup_insert_ne by done. naive_solver.
    + rewrite lookup_insert_ne by done. intros Hc. rewrite (I6 _ _ oc' Hc).
      destruct (decide (oc' = oc)) as [->|No].
      * rewrite lookup_insert_eq. naive_solver.
      * by rewrite lookup_insert_ne.
  - intros oc' o2 c. destruct (decide (oc' = oc)) as [->|No].
    + rewrite lookup_insert_eq. naive_solver.
    + rewrite lookup_insert_ne by done. eauto.
  - intros c b'. destruct (decide (c = a)) as [->|N].
    + rewrite lookup_insert_eq. intros [= <-]. exact (I8 _ _ Hm).
    + rewrite lookup_insert_ne by done. eauto.
Qed.

(** Tying an object to a ban of the list. *)
Definition attach (w : world) (oc : Z) (o : object) (a : Z) (b : ban) : world :=
  put_obj (put_ban w a (set_objcore (set_refcount b (refcount b + 1)) (objcore b ++ [oc]))) oc o.

Lemma inv_attach x w oc o o' a b :
  inv x w -> objs w !! oc = Some o -> o_ban o = None -> bans w !! a = Some b ->
  o_ban o' = Some a -> inv x (attach w oc o' a b).
Proof.
  intros [I1 I2 I3 I4 I5 I6 I7 I8 I9] Ho Hb Hm Hn.
  assert (Hin : oc ∉ objcore b) by (rewrite (I6 a b oc Hm); naive_solver).
  split; cbn [attach put_obj put_ban bans ban_head ban_start objs stat]; try done.
  - intros c. rewrite I3, lookup_insert_is_Some'. naive_solver.
  - intros c b'. destruct (decide (c = a)) as [->|N].
    + rewrite lookup_insert_eq. intros [= <-]. simpl. rewrite length_app, (I4 _ _ Hm). simpl. lia.
    + rewrite lookup_insert_ne by done. auto.
  - intros c b'. destruct (decide (c = a)) as [->|N].
    + rewrite lookup_insert_eq. intros [= <-]. simpl. apply NoDup_app.
      split; [eauto|]. split; [set_solver|]. apply NoDup_singleton.
    + rewrite lookup_insert_ne by done. eauto.
  - intros c b' oc'. destruct (decide (c = a)) as [->|N].
    + rewrite lookup_insert_eq. intros [= <-]. simpl. rewrite elem_of_app, (I6 _ _ oc' Hm), elem_of_cons.
      destruct (decide (oc' = oc)) as [->|No].
      * rewrite lookup_insert_eq. naive_solver.
      * rewrite lookup_insert_ne by done. set_solver.
    + rewrite lookup_insert_ne by done. intros Hc. rewrite (I6 _ _ oc' Hc).
      destruct (decide (oc' = oc)) as [->|No].
      * rewrite lookup_insert_eq. naive_solver.
      * by rewrite lookup_insert_ne.
  - intros oc' o2 c. destruct (decide (oc' = oc)) as [->|No].
    + rewrite lookup_insert_eq. intros [= <-] E. rewrite Hn in E. injection E as <-.
      apply I3. eauto.
    + rewrite lookup_insert_ne by done. eauto.
  - intros c b'. destruct (decide (c = a)) as [->|N].
    + rewrite lookup_insert_eq. intros [= <-]. exact (I8 _ _ Hm).
    + rewrite lookup_insert_ne by done. eauto.
Qed.

(** The counters, the events and the fields the invariant does not mention. *)
Lemma inv_ext x w w' :
  inv x w -> bans w' = bans w -> ban_head w' = ban_head w -> ban_start w' = ban_start w ->
  objs w' = objs w -> n_purge (stat w') = n_purge (stat w) -> inv x w'.
Proof. intros [] E1 E2 E3 E4 E5. split; rewrite ?E1, ?E2, ?E3, ?E4, ?E5; done. Qed.

(** The list splits at the ban of an object. *)
Lemma split_at x w a : inv x w -> a ∈ ban_head w ->
  exists pre post, ban_head w = pre ++ a :: post /\ a ∉ pre /\
    goodm (bans w) pre /\ suffix (ban_start w) (ban_head w) = ban_head w.
Proof.
  intros I Ha. destruct (list_elem_of_split _ _ Ha) as (pre & post & E).
  exists pre, post. split; [done|]. pose proof (i_nodup _ _ I) as N. rewrite E in N.
  apply NoDup_app in N as (_ & N & _). split; [intros K; apply (N _ K); set_solver|]. split.
  - intros c Hc. destruct (proj1 (i_store _ _ I c)) as [b Hb]; [rewrite E; set_solver|].
    exists b. split; [done|]. exact (i_good _ _ I _ _ Hb).
  - pose proof (i_start _ _ I) as S. destruct (ban_head w) as [|y l]; [done|]. injection S as <-.
    cbn [suffix]. by rewrite Z.eqb_refl.
Qed.

(** What the check leaves: the verdict, and the object on the first ban or free. *)
Definition checked (w : world) (oc : Z) (o : object) (v : bool) (w' : world) : Prop :=
  ban_head w' = ban_head w /\ ban_start w' = ban_start w /\
  (forall oc', oc' <> oc -> objs w' !! oc' = objs w !! oc') /\
  (forall a, fmap (fun b => (flags b, tests b, test b, t0 b)) (bans w' !! a) =
             fmap (fun b => (flags b, tests b, test b, t0 b)) (bans w !! a)) /\
  exists o', objs w' !! oc = Some o' /\ o_http o' = o_http o /\
    if v then o_ban o' = None /\ ttl o' = 0 /\ cacheable o' = false
    else o_ban o' = Some (ban_start w) /\ ttl o' = ttl o /\ cacheable o' = cacheable o.

(** Both locked phases after a walk that stopped at [b]. *)
Lemma commit_spec x w oc o ob b n :
  inv x w -> objs w !! oc = Some o -> o_ban o = Some ob -> ban_start w <> ob ->
  exists w1 w' , check_lock w oc (ban_start w) b n = Some w1 /\
    check_after w1 oc (ban_start w) b = Some (w', negb (b =? ob)) /\
    inv x w' /\ checked w oc o (negb (b =? ob)) w'.
Proof.
  intros I Ho Hb Hne.
  destruct (proj1 (i_store _ _ I ob) (i_refd _ _ I _ _ _ Ho Hb)) as [y Hy].
  set (o1 := with_ban o None (ban_t o) 0 false).
  destruct (inv_detach x w oc o o1 ob y I Ho Hb Hy eq_refl) as (l & El & I1 & _).
  pose proof (i_start _ _ I) as Hs.
  assert (Hin : ban_start w ∈ ban_head w) by (apply list_elem_of_lookup; exists O; by rewrite <- head_lookup).
  destruct (proj1 (i_store _ _ I _) Hin) as [z Hz].
  unfold check_lock. rewrite Ho, Hb, Hy, El. destruct (Z.eqb_spec b ob) as [->|Nb]; cbn [negb].
  - cbn [put_ban bans]. rewrite lookup_insert_ne by done. rewrite Hz. eexists _, _. split; [done|].
    unfold check_after. cbn [set_stat put_ban objs bans]. rewrite Ho, Hb, Z.eqb_refl, lookup_insert_eq.
    split; [done|].
    set (o' := Obj (Some (ban_start w)) (t0 z) (ttl o) (cacheable o) (o_http o) (smp_seg o)).
    pose proof (inv_attach x _ oc o1 o' (ban_start w) z I1 ltac:(apply lookup_insert_eq) eq_refl
      ltac:(cbn [detach put_obj put_ban bans]; by rewrite lookup_insert_ne) eq_refl) as I2.
    assert (forall w2, ban_head w2 = ban_head w -> ban_start w2 = ban_start w ->
      bans w2 = bans (attach (detach w oc o1 ob y l) oc o' (ban_start w) z) ->
      objs w2 = <[oc := o']> (objs w) -> n_purge (stat w2) = n_purge (stat w) ->
      inv x w2 /\ checked w oc o false w2) as K.
    { intros w2 K1 K2 K3 K4 K5. split.
      - apply (inv_ext x _ _ I2); try done. rewrite K4. cbn. by rewrite insert_insert_eq.
      - split; [done|]. split; [done|]. rewrite K3, K4. cbn [attach detach put_obj put_ban bans].
        split; [intros; by rewrite lookup_insert_ne|]. split.
        + intros c. destruct (decide (c = ban_start w)) as [->|Nc].
          * rewrite lookup_insert_eq, Hz. done.
          * rewrite lookup_insert_ne by done. destruct (decide (c = ob)) as [->|Nc'].
            { rewrite lookup_insert_eq, Hy. done. }
            by rewrite lookup_insert_ne.
        + exists o'. rewrite lookup_insert_eq. done. }
    destruct (smp_seg o); apply K; done.
  - eexists _, _. split; [done|]. unfold check_after. cbn [set_stat put_ban objs bans].
    rewrite Ho, Hb, (proj2 (Z.eqb_neq b ob)) by done. split; [done|].
    assert (forall w2, ban_head w2 = ban_head w -> ban_start w2 = ban_start w ->
      bans w2 = bans (detach w oc o1 ob y l) ->
      objs w2 = <[oc := o1]> (objs w) -> n_purge (stat w2) = n_purge (stat w) ->
      inv x w2 /\ checked w oc o true w2) as K.
    { intros w2 K1 K2 K3 K4 K5. split.
      - by apply (inv_ext x _ _ I1).
      - split; [done|]. split; [done|]. rewrite K3, K4. cbn [detach put_obj put_ban bans].
        split; [intros; by rewrite lookup_insert_ne|]. split.
        + intros c. destruct (decide (c = ob)) as [->|Nc'].
          { rewrite lookup_insert_eq, Hy. done. }
          by rewrite lookup_insert_ne.
        + exists o1. rewrite lookup_insert_eq. done. }
    change (Obj None (ban_t o) 0 false (o_http o) (smp_seg o)) with o1.
    destruct (smp_seg o); apply K; done.
Qed.

Lemma check_object_spec x w oc o ob pre post sh has_req :
  inv x w -> objs w !! oc = Some o -> o_ban o = Some ob ->
  ban_head w = pre ++ ob :: post -> ob ∉ pre ->
  (exists w', ban_check_object VRE_exec w oc sh has_req =
     Some (w', bool_decide (is_Some (first_hit (bans w) pre (o_http o) sh))) /\ inv x w' /\
     checked w oc o (bool_decide (is_Some (first_hit (bans w) pre (o_http o) sh))) w' /\
     (has_req = false -> forall sh',
        first_hit (bans w) pre (o_http o) sh' = first_hit (bans w) pre (o_http o) sh)) \/
  (has_req = false /\ ban_check_object VRE_exec w oc sh has_req = Some (w, false)).
Proof.
  intros I Ho Hb Hl Hn. unfold ban_check_object, check_walk. rewrite Ho, Hb.
  destruct (split_at x w ob I) as (p2 & q2 & E2 & N2 & G & S).
  { rewrite Hl. set_solver. }
  pose proof (i_start _ _ I) as Hs.
  assert (Hg : goodm (bans w) pre).
  { intros c Hc. destruct (proj1 (i_store _ _ I c)) as [y Hy]; [rewrite Hl; set_solver|].
    exists y. split; [done|]. exact (i_good _ _ I _ _ Hy). }
  rewrite S, Hl. destruct (Z.eqb_spec (ban_start w) ob) as [E|Ne].
  - left. destruct pre as [|c pre].
    2:{ rewrite Hl in Hs. injection Hs as ->. set_solver. }
    exists w. cbn [first_hit]. rewrite bool_decide_false by (intros [? [=]]).
    split; [done|]. split; [done|]. split; [|done].
    split_and!; try done. exists o. rewrite E. done.
  - assert (forall a n, (a = ob <-> first_hit (bans w) pre (o_http o) sh = None) ->
      exists w', (let? w1 := check_lock w oc (ban_start w) a n in check_after w1 oc (ban_start w) a) =
        Some (w', bool_decide (is_Some (first_hit (bans w) pre (o_http o) sh))) /\ inv x w' /\
        checked w oc o (bool_decide (is_Some (first_hit (bans w) pre (o_http o) sh))) w') as K.
    { intros a n Ha. destruct (commit_spec x w oc o ob a n I Ho Hb Ne) as (w1 & w' & E1 & E3 & I' & C).
      exists w'. rewrite E1, E3.
      replace (bool_decide _) with (negb (a =? ob)); [done|].
      destruct (Z.eqb_spec a ob) as [->|Na]; symmetry.
      - apply bool_decide_false. rewrite (proj1 Ha eq_refl). by intros [? [=]].
      - apply bool_decide_true. apply not_eq_None_Some. naive_solver. }
    assert (Hd : default ob (first_hit (bans w) pre (o_http o) sh) = ob <->
                 first_hit (bans w) pre (o_http o) sh = None).
    { destruct (first_hit _ _ _ _) as [a|] eqn:E; [|done]. simpl. split; [|done].
      intros ->. apply first_hit_in in E as [E _]. done. }
    destruct has_req.
    + left. destruct (ban_walk_spec (bans w) pre ob post (o_http o) sh 0 Hn Hg) as (n & ->).
      destruct (K _ n Hd) as (w' & -> & I' & C). exists w'. done.
    + destruct (walk_lurker (bans w) pre ob post (o_http o) sh 0 Hn Hg) as [->|(n & -> & Hx)].
      * right. done.
      * left. destruct (K _ n Hd) as (w' & -> & I' & C). exists w'. done.
Qed.

(** ** Duplicates *)

(** Every ban out of force has no tests, or there is a newer ban in force with the
    same tests. *)
Definition covered (w : world) : Prop :=
  forall pre a post b, ban_head w = pre ++ a :: post -> bans w !! a = Some b -> live b = false ->
    tests b = [] \/
    exists a' b', a' ∈ pre /\ bans w !! a' = Some b' /\ live b' = true /\ tests b' = tests b.

(** Some ban of the list hits, in force or not. *)
Definition any_hit (w : world) (l : list Z) (oh sh : http) : Prop :=
  exists a b, a ∈ l /\ bans w !! a = Some b /\ tests b <> [] /\ hits b oh sh = true.

Lemma any_hit_first x w pre post oh sh :
  inv x w -> covered w -> ban_head w = pre ++ post ->
  any_hit w pre oh sh <-> is_Some (first_hit (bans w) pre oh sh).
Proof.
  intros I C E. split.
  - intros (a & b & Ha & Hb & Ht & Hh). apply not_eq_None_Some. intros H.
    pose proof (first_hit_none _ _ _ _ H) as N.
    destruct (live b) eqn:L; [by rewrite (N a b Ha Hb L) in Hh|].
    apply list_elem_of_split in Ha as (p & q & ->).
    destruct (C p a (q ++ post) b) as [K|(a' & b' & Ha' & Hb' & L' & T)]; [|done..|].
    { rewrite E, <- app_assoc. done. }
    unfold hits in *. rewrite <- T in Hh. rewrite (N a' b') in Hh; [done| |done..]. set_solver.
  - intros [a H]. destruct (first_hit_in _ _ _ _ _ H) as (Ha & b & Hb & L & Hh).
    exists a, b. split_and!; try done. exact (proj2 (proj2 (proj2 (i_good _ _ I _ _ Hb))) L).
Qed.

(** ** Creating, destroying and retiring *)

Lemma newobj_spec x w oc o :
  inv x w -> objs w !! oc = Some o -> o_ban o = None ->
  exists w' b, bans w !! ban_start w = Some b /\ BAN_NewObj w oc = Some w' /\ inv x w' /\
    ban_head w' = ban_head w /\
    objs w' = <[oc := with_ban o (Some (ban_start w)) (t0 b) (ttl o) (cacheable o)]> (objs w).
Proof.
  intros I Ho Hn. pose proof (i_start _ _ I) as Hs.
  destruct (proj1 (i_store _ _ I (ban_start w))) as [b Hb].
  { apply list_elem_of_lookup. exists O. by rewrite <- head_lookup. }
  eexists _, b. split; [done|]. unfold BAN_NewObj. rewrite Ho, Hn, Hb.
  rewrite bool_decide_true by done. split; [done|]. split; [|done].
  apply (inv_attach x w oc o (with_ban o (Some (ban_start w)) (t0 b) (ttl o) (cacheable o))
           (ban_start w) b I Ho Hn Hb eq_refl).
Qed.

Lemma last_some (l : list Z) a : List.last (map Some (l ++ [a])) None = Some a.
Proof. rewrite map_app. apply last_last. Qed.

Lemma removelast_snoc (l : list Z) a : removelast (l ++ [a]) = l.
Proof. apply removelast_last. Qed.

Lemma retire_spec x w :
  inv x w -> (forall a, 0 <= x a) ->
  exists w' v, retire w = Some (w', v) /\ inv x w' /\ objs w' = objs w /\
    ban_start w' = ban_start w /\ events w' = events w /\
    if v then exists a b, ban_head w = ban_head w' ++ [a] /\ bans w !! a = Some b /\
                objcore b = [] /\ x a = 0 /\ bans w' = delete a (bans w)
    else w' = w.
Proof.
  intros I Hx. pose proof (i_start _ _ I) as Hs.
  destruct (ban_head w) as [|h t] eqn:E0; [done|]. injection Hs as ->.
  destruct (exists_last (l := ban_start w :: t)) as (p & a & E); [done|].
  assert (Ha : a ∈ ban_head w) by (rewrite E0, E; set_solver).
  destruct (proj1 (i_store _ _ I a) Ha) as [b Hb].
  unfold retire, BAN_CheckLast. rewrite E0, E, last_some, Hb.
  pose proof (i_ref _ _ I _ _ Hb) as Hr. pose proof (Hx a) as Hxa.
  destruct (negb (bool_decide (head (p ++ [a]) = Some a)) && (refcount b =? 0)) eqn:G.
  2:{ exists w, false. done. }
  bool_prop. assert (Hoc : objcore b = []) by (destruct (objcore b); simpl in *; [done|lia]).
  rewrite Hoc in Hr. simpl in Hr.
  cbn [set_stat ban_head ban_start]. rewrite E0, E, removelast_snoc. unfold free_ban, BAN_Free. cbn [set_list set_stat bans]. rewrite Hb.
  rewrite (proj2 (Z.eqb_eq _ _)) by lia. rewrite bool_decide_true by done.
  eexists _, true. split; [done|]. cbn [ban_head ban_start bans objs events stat].
  split_and!; try done.
  2:{ exists a, b. split_and!; try done. lia. }
  destruct p as [|h p]; [injection E as <- _; done|]. injection E as <- ->.
  pose proof (i_nodup _ _ I) as N. rewrite E0 in N.
  assert (Na : a ∉ ban_start w :: p).
  { change (NoDup ((ban_start w :: p) ++ [a])) in N. apply NoDup_app in N as (_ & N & _).
    intros K. apply (N a K). set_solver. }
  destruct I as [I1 I2 I3 I4 I5 I6 I7 I8 I9].
  split; cbn [bans ban_head ban_start objs stat set_list set_stat count_purge n_purge].
  - change (NoDup ((ban_start w :: p) ++ [a])) in N. by apply NoDup_app in N as (N & _ & _).
  - done.
  - intros c. destruct (decide (c = a)) as [->|Nc].
    + rewrite lookup_delete_eq. split; [done|by intros []].
    + rewrite lookup_delete_ne by done. rewrite <- I3, E0. change (c ∈ ban_start w :: p <-> c ∈ (ban_start w :: p) ++ [a]).
      rewrite elem_of_app, elem_of_cons. set_solver.
  - intros c y [_ Hy]%lookup_delete_Some. auto.
  - intros c y [_ Hy]%lookup_delete_Some. eauto.
  - intros c y oc [_ Hy]%lookup_delete_Some. auto.
  - intros oc o c Ho Hc. pose proof (I7 _ _ _ Ho Hc) as K. rewrite E0 in K.
    destruct (decide (c = a)) as [->|Nc].
    + exfalso. assert (oc ∈ objcore b) by (apply (I6 a b oc Hb); eauto). rewrite Hoc in *. set_solver.
    + change (c ∈ (ban_start w :: p) ++ [a]) in K. set_solver.
  - intros c y [_ Hy]%lookup_delete_Some. eauto.
  - rewrite I9, E0. change (ban_start w :: p ++ [a]) with ((ban_start w :: p) ++ [a]).
    rewrite length_app. simpl. lia.
Qed.

Lemma retire_covered x w w' v :
  inv x w -> (forall a, 0 <= x a) -> retire w = Some (w', v) -> covered w -> covered w'.
Proof.
  intros I Hx E C. destruct (retire_spec x w I Hx) as (w2 & v2 & E2 & _ & _ & _ & _ & H).
  rewrite E in E2. injection E2 as <- <-. destruct v; [|by subst].
  destruct H as (a & b & Hh & Hb & _ & _ & Hd). intros p c q y Hc Hy L.
  rewrite Hd in Hy. apply lookup_delete_Some in Hy as [Nc Hy].
  destruct (C p c (q ++ [a]) y) as [T|(a' & b' & Ha' & Hb' & L' & T)]; try done.
  { rewrite Hh, Hc, <- app_assoc. done. }
  { by left. }
  right. exists a', b'. split_and!; try done. rewrite Hd. apply lookup_delete_Some. split; [|done].
  intros <-. pose proof (i_nodup _ _ I) as N. rewrite Hh, Hc in N.
  apply NoDup_app in N as (_ & N & _). apply (N a); set_solver.
Qed.

(** ** The hunt for duplicates *)

Definition marked (x : list Z) (b : ban) : ban :=
  if live b && streq x (default [] (test b)) then set_flags b (Z.lor (flags b) BAN_F_GONE) else b.

Lemma hunt_spec l : forall (x : list Z) (m : gmap Z ban) n,
  NoDup l -> (forall a, a ∈ l -> exists b, m !! a = Some b /\ is_Some (test b)) ->
  exists m' n', hunt l x m n = Some (m', n') /\
    forall a, m' !! a = if bool_decide (a ∈ l) then marked x <$> m !! a else m !! a.
Proof.
  induction l as [|a l IH]; intros x m n N H; [eexists m, n; done|].
  apply NoDup_cons in N as [Na N]. destruct (H a) as (b & Hb & t & Ht); [set_solver|].
  cbn [hunt]. rewrite Hb, Ht.
  assert (Hm : forall c, c ∈ l -> exists b, m !! c = Some b /\ is_Some (test b))
    by (intros c Hc; apply H; set_solver).
  assert (Lm : marked x b = if on (flags b) BAN_F_GONE then b
               else if streq x t then set_flags b (Z.lor (flags b) BAN_F_GONE) else b).
  { unfold marked, live. rewrite Ht. simpl. by destruct (on _ _). }
  assert (Same : marked x b = b -> forall n, exists m' n', hunt l x m n = Some (m', n') /\
            forall c, m' !! c = if bool_decide (c ∈ a :: l) then marked x <$> m !! c else m !! c).
  { intros Hs n2. destruct (IH x m n2 N Hm) as (m' & n' & E & F). exists m', n'. split; [done|].
    intros c. rewrite F. destruct (decide (c = a)) as [->|Nc].
    - rewrite bool_decide_false by done. rewrite bool_decide_true by set_solver.
      rewrite Hb. simpl. by rewrite Hs.
    - apply (f_equal (fun b : bool => if b then _ else _)). apply bool_decide_ext. set_solver. }
  destruct (on (flags b) BAN_F_GONE); [by apply Same|].
  destruct (streq x t); [|by apply Same].
  destruct (IH x (<[a := set_flags b (Z.lor (flags b) BAN_F_GONE)]> m) (n + 1) N) as (m' & n' & E & F).
  { intros c Hc. rewrite lookup_insert_ne by set_solver. auto. }
  exists m', n'. split; [done|]. intros c. rewrite F. destruct (decide (c = a)) as [->|Nc].
  - rewrite bool_decide_false by done. rewrite bool_decide_true by set_solver.
    rewrite lookup_insert_eq, Hb. simpl. by rewrite Lm.
  - rewrite lookup_insert_ne by done.
    apply (f_equal (fun b : bool => if b then _ else _)). apply bool_decide_ext. set_solver.
Qed.

(** ** Inserting a ban *)

Lemma finish_data v : Vsb.open v -> Forall (fun c => c <> 0) (Vsb.content v) ->
  exists v', Vsb.vsb_finish v = Some v' /\ Vsb.vsb_overflowed v' = false /\
    Vsb.vsb_data v' = Some (Vsb.content v).
Proof.
  intros Ho Hc. destruct (Vsb.vsb_finish_spec v Ho) as (v' & E & O & _ & _ & _ & _ & _ & D).
  exists v'. split; [done|]. split; [done|]. rewrite D. f_equal. revert Hc.
  generalize (Vsb.content v). induction 1 as [|c l Hc Hl IH]; simpl; [done|]. rewrite (proj2 (Z.eqb_neq c 0)) by done. by rewrite IH.
Qed.

(** A ban [BAN_New] made and [BAN_AddTest] filled, before it is inserted. *)
Record ready (b : ban) (txt : list Z) : Prop := {
  r_vsb : exists v, b_vsb b = Some v /\ Vsb.open v /\ Vsb.content v = txt;
  r_txt : Forall (fun c => c <> 0) txt;
  r_ref : refcount b = 0;
  r_objs : objcore b = [];
  r_tests : Forall good_test (tests b);
  r_req : existsb asks_req (tests b) = true -> on (flags b) BAN_F_REQ = true;
  r_some : live b = true -> tests b <> []
}.

Lemma marked_refcount t (b : ban) n : marked t (set_refcount b n) = set_refcount (marked t b) n.
Proof. unfold marked, live. simpl. by case_if. Qed.

Lemma set_refcount_same (b : ban) : set_refcount b (refcount b) = b.
Proof. by destruct b. Qed.

(** What a hunt changes: flags only. *)
Lemma marked_fields t (b : ban) :
  refcount (marked t b) = refcount b /\ objcore (marked t b) = objcore b /\
  tests (marked t b) = tests b /\ test (marked t b) = test b /\ t0 (marked t b) = t0 b.
Proof. unfold marked. by case_if. Qed.

Lemma marked_live t (b : ban) : live (marked t b) = live b && negb (streq t (default [] (test b))).
Proof.
  unfold marked. destruct (live b) eqn:L; [|exact L]. simpl.
  destruct (streq t _); [|exact L]. unfold live. simpl. rewrite on_lor. by rewrite orb_true_r.
Qed.

Lemma good_marked t b : good_ban b -> good_ban (marked t b).
Proof.
  intros (A & B & C & D). destruct (marked_fields t b) as (_ & _ & E1 & E2 & _).
  unfold good_ban. rewrite E1, E2. split_and!; [done|done| |].
  - intros H. specialize (C H). unfold marked. case_if; [|done]. simpl. by rewrite on_lor, C.
  - rewrite marked_live. intros H. apply D. by bool_prop.
Qed.

(** Replacing bans by ones that differ in their flags. *)
Lemma inv_flags x w w' (f : Z -> ban -> ban) :
  inv x w -> ban_head w' = ban_head w -> ban_start w' = ban_start w -> objs w' = objs w ->
  n_purge (stat w') = n_purge (stat w) ->
  (forall a, bans w' !! a = f a <$> bans w !! a) ->
  (forall a b, bans w !! a = Some b ->
     refcount (f a b) = refcount b /\ objcore (f a b) = objcore b /\ good_ban (f a b)) ->
  inv x w'.
Proof.
  intros [I1 I2 I3 I4 I5 I6 I7 I8 I9] E1 E2 E3 E4 F G.
  split; rewrite ?E1, ?E2, ?E3, ?E4; try done.
  - intros a. rewrite I3, F. by rewrite fmap_is_Some.
  - intros a b. rewrite F. intros (c & Hc & ->)%fmap_Some. destruct (G _ _ Hc) as (-> & -> & _). auto.
  - intros a b. rewrite F. intros (c & Hc & ->)%fmap_Some. destruct (G _ _ Hc) as (_ & -> & _). eauto.
  - intros a b oc. rewrite F. intros (c & Hc & ->)%fmap_Some. destruct (G _ _ Hc) as (_ & -> & _). auto.
  - intros a b. rewrite F. intros (c & Hc & ->)%fmap_Some. by destruct (G _ _ Hc) as (_ & _ & K).
Qed.

(** The new ban as it stands in the list. *)
Definition entered (b : ban) (now : double) (txt : list Z) : ban :=
  set_vsb (set_text b now txt) None.

Lemma good_entered b now txt : ready b txt -> good_ban (entered b now txt).
Proof. intros [_ _ _ _ A B C]. by split; [eexists|]. Qed.

Lemma inv_enter x w a b now txt w' :
  inv x w -> (forall c, 0 <= x c) -> bans w !! a = None -> x a = 0 -> ready b txt ->
  bans w' = <[a := entered b now txt]> (bans w) -> ban_head w' = a :: ban_head w ->
  ban_start w' = a -> objs w' = objs w -> n_purge (stat w') = n_purge (stat w) + 1 -> inv x w'.
Proof.
  intros I Hx Ha Hxa R E1 E2 E3 E4 E5.
  destruct I as [I1 I2 I3 I4 I5 I6 I7 I8 I9].
  assert (Na : a ∉ ban_head w) by (rewrite I3, Ha; by intros []).
  split; rewrite ?E1, ?E2, ?E3, ?E4, ?E5.
  - by apply NoDup_cons.
  - done.
  - intros c. rewrite elem_of_cons, I3, lookup_insert_is_Some'. naive_solver.
  - intros c y. destruct (decide (c = a)) as [->|N].
    + rewrite lookup_insert_eq. intros [= <-]. simpl. rewrite (r_ref _ _ R), (r_objs _ _ R). simpl. lia.
    + rewrite lookup_insert_ne by done. auto.
  - intros c y. destruct (decide (c = a)) as [->|N].
    + rewrite lookup_insert_eq. intros [= <-]. simpl. rewrite (r_objs _ _ R). constructor.
    + rewrite lookup_insert_ne by done. eauto.
  - intros c y oc. destruct (decide (c = a)) as [->|N].
    + rewrite lookup_insert_eq. intros [= <-]. simpl. rewrite (r_objs _ _ R). split; [set_solver|].
      intros (o & Ho & Hb). by apply (I7 _ _ _ Ho) in Hb.
    + rewrite lookup_insert_ne by done. auto.
  - intros oc o c Ho Hc. pose proof (I7 _ _ _ Ho Hc). set_solver.
  - intros c y. destruct (decide (c = a)) as [->|N].
    + rewrite lookup_insert_eq. intros [= <-]. by apply good_entered.
    + rewrite lookup_insert_ne by done. eauto.
  - simpl. lia.
Qed.

(** The store after the insertion, with the duplicates marked or not. *)
Definition deduped (dups : bool) (txt : list Z) (m : gmap Z ban) : gmap Z ban :=
  if dups then fmap (marked txt) m else m.

Lemma insert_spec x w a b now txt dups :
  inv x w -> (forall c, 0 <= x c) -> bans w !! a = None -> x a = 0 -> ready b txt ->
  exists w', BAN_Insert w a b now dups = Some w' /\ inv x w' /\ ban_head w' = a :: ban_head w /\
    objs w' = objs w /\
    (forall c, bans w' !! c = if bool_decide (c = a) then Some (entered b now txt)
                              else deduped dups txt (bans w) !! c).
Proof.
  intros I Hx Ha Hxa R. destruct (r_vsb _ _ R) as (v & Ev & Ov & Cv).
  destruct (finish_data v Ov) as (v' & Ef & Eo & Ed); [rewrite Cv; exact (r_txt _ _ R)|].
  unfold BAN_Insert, insert_locked. rewrite Ev, Ef, Eo, Ed, Cv. cbn [negb].
  pose proof (i_start _ _ I) as Hs.
  destruct (exists_last (l := ban_head w)) as (p & be & E); [by destruct (ban_head w)|].
  cbn [set_list set_stat put_ban ban_head bans stat ban_start objs events ban_magic].
  assert (Na : a ∉ ban_head w) by (rewrite (i_store _ _ I), Ha; by intros []).
  assert (Hbe : be ∈ ban_head w) by (rewrite E; set_solver).
  assert (Nb : be <> a) by congruence.
  destruct (proj1 (i_store _ _ I be) Hbe) as [e He].
  assert (EL : List.last (map Some (a :: ban_head w)) None = Some be).
  { rewrite E. change (a :: p ++ [be]) with ((a :: p) ++ [be]). apply last_some. }
  rewrite EL. fold (entered b now txt).
  assert (K : forall w', bans w' = <[a := entered b now txt]> (bans w) -> ban_head w' = a :: ban_head w ->
    ban_start w' = a -> objs w' = objs w -> n_purge (stat w') = n_purge (stat w) + 1 -> inv x w')
    by (intros w'; by apply inv_enter).
  rewrite (proj2 (Z.eqb_neq be a)) by done. destruct dups; cbn [andb negb fst snd].
  2:{ eexists. split; [done|]. split; [by apply K|]. split; [done|]. split; [done|].
      intros c. cbn. case_bool_decide as Hc; [subst; apply lookup_insert_eq|by apply lookup_insert_ne]. }
  rewrite lookup_insert_ne by done. rewrite He. cbn [fst snd].
  unfold insert_hunt. cbn [emit put_ban set_stat set_list bans ban_head ban_start objs stat events ban_magic tail].
  set (m0 := <[be := set_refcount e (refcount e + 1)]> _).
  assert (M0 : m0 !! a = Some (entered b now txt))
    by (subst m0; rewrite lookup_insert_ne by done; apply lookup_insert_eq).
  assert (M1 : forall c, c <> a -> c <> be -> m0 !! c = bans w !! c)
    by (intros; subst m0; rewrite !lookup_insert_ne by congruence; done).
  assert (M2 : m0 !! be = Some (set_refcount e (refcount e + 1))) by (subst m0; apply lookup_insert_eq).
  clearbody m0. rewrite M0. cbn [entered set_vsb set_text test].
  destruct (hunt_spec (ban_head w) txt m0 0 (i_nodup _ _ I)) as (m' & n' & -> & F).
  { intros c Hc. destruct (decide (c = be)) as [->|N].
    - rewrite M2. eexists. split; [done|]. exact (proj1 (i_good _ _ I _ _ He)).
    - destruct (proj1 (i_store _ _ I c) Hc) as [y Hy]. exists y.
      rewrite M1 by congruence. split; [done|]. exact (proj1 (i_good _ _ I _ _ Hy)). }
  cbn [bans]. assert (Fb : m' !! be = Some (marked txt (set_refcount e (refcount e + 1)))).
  { rewrite F, bool_decide_true, M2 by done. done. }
  rewrite Fb. eexists. split; [done|].
  cbn [set_stat put_ban bans ban_head ban_start objs stat count_dups n_purge].
  match goal with |- inv x ?w' /\ _ => set (w2 := w') end.
  assert (B : forall c, bans w2 !! c = if bool_decide (c = a) then Some (entered b now txt)
                          else marked txt <$> bans w !! c).
  { intros c. subst w2. cbn [set_stat put_ban bans]. rewrite marked_refcount.
    cbn [set_refcount refcount]. case_bool_decide as Hc.
    - subst c. rewrite lookup_insert_ne by done. by rewrite F, bool_decide_false, M0.
    - destruct (decide (c = be)) as [->|N].
      + rewrite lookup_insert_eq, He. simpl. f_equal.
        replace (refcount e + 1 - 1) with (refcount (marked txt e))
          by (rewrite (proj1 (marked_fields txt e)); lia).
        exact (set_refcount_same (marked txt e)).
      + rewrite lookup_insert_ne by done. rewrite F, M1 by done. case_bool_decide as Hin; [done|].
        assert (bans w !! c = None) as ->; [|done].
        destruct (bans w !! c) eqn:Ec; [|done]. exfalso. apply Hin, (i_store _ _ I). eauto. }
  split; [|split; [done|split; [done|]]].
  2:{ intros c. rewrite B. unfold deduped. case_bool_decide; [done|]. by rewrite lookup_fmap. }
  set (w1 := set_stat (set_list (put_ban w a (entered b now txt)) (a :: ban_head w) a)
               (count_purge (stat w) 1 1 0)).
  apply (inv_flags x w1 w2 (fun c y => if c =? a then y else marked txt y)); try done.
  - by apply K.
  - intros c. rewrite B. subst w1. cbn [set_stat set_list put_ban bans]. case_bool_decide as Hc.
    + subst c. rewrite lookup_insert_eq, Z.eqb_refl. done.
    + rewrite lookup_insert_ne by done. by rewrite (proj2 (Z.eqb_neq c a)).
  - intros c y. subst w1. cbn [set_stat set_list put_ban bans]. destruct (Z.eqb_spec c a) as [->|Hc].
    + rewrite lookup_insert_eq. intros [= <-]. split; [done|]. split; [done|]. by apply good_entered.
    + rewrite lookup_insert_ne by done. intros Hy. destruct (marked_fields txt y) as (-> & -> & _).
      split; [done|]. split; [done|]. apply good_marked. exact (i_good _ _ I _ _ Hy).
Qed.

(** Marking duplicates keeps every ban covered, when equal texts have equal tests. *)
Lemma covered_enter (w w' : world) x a b now txt dups :
  inv x w -> covered w -> bans w !! a = None -> ban_head w' = a :: ban_head w ->
  (forall c, bans w' !! c = if bool_decide (c = a) then Some (entered b now txt)
                            else deduped dups txt (bans w) !! c) ->
  (live b = false -> tests b = []) ->
  (forall c y, bans w !! c = Some y -> streq txt (default [] (test y)) = true ->
     live b = true /\ tests y = tests b) ->
  covered w'.
Proof.
  intros I C Ha Eh B Lb Hs p c q y Hc Hy L. rewrite Eh in Hc. rewrite B in Hy.
  destruct p as [|h p].
  - injection Hc as <- _. rewrite bool_decide_true in Hy by done. injection Hy as <-. left. auto.
  - injection Hc as -> Hc.
    assert (Hin : c ∈ ban_head w) by (rewrite Hc; set_solver).
    assert (Nc : c <> h) by (intros ->; apply (i_store _ _ I) in Hin; rewrite Ha in Hin; by destruct Hin).
    rewrite bool_decide_false in Hy by done.
    assert (Old : forall z, bans w !! c = Some z -> live z = false -> tests z = tests y ->
      tests y = [] \/ exists a' b', a' ∈ h :: p /\ bans w' !! a' = Some b' /\ live b' = true /\ tests b' = tests y).
    { intros z Hz Lz Ez. destruct (C p c q z Hc Hz Lz) as [T|(a' & b' & Ha' & Hb' & L' & T)].
      - left. congruence.
      - assert (Na : a' <> h).
        { intros ->. assert (h ∈ ban_head w) as K by (rewrite Hc; set_solver).
          apply (i_store _ _ I) in K. rewrite Ha in K. by destruct K. }
        right. destruct dups; cbn [deduped] in B.
        + destruct (streq txt (default [] (test b'))) eqn:S.
          * destruct (Hs _ _ Hb' S) as [Lv Tb]. exists h, (entered b now txt).
            rewrite B, bool_decide_true by done. split; [set_solver|]. split; [done|].
            split; [exact Lv|]. change (tests b = tests y). congruence.
          * exists a', (marked txt b'). rewrite B, bool_decide_false by done.
            rewrite lookup_fmap, Hb'. split; [set_solver|]. split; [done|].
            rewrite marked_live, L', S. split; [done|].
            destruct (marked_fields txt b') as (_ & _ & -> & _). congruence.
        + exists a', b'. rewrite B, bool_decide_false by done. split_and!; try done; [set_solver|congruence]. }
    destruct dups; cbn [deduped] in Hy; [|by apply (Old y)].
    rewrite lookup_fmap in Hy. apply fmap_Some in Hy as (z & Hz & ->).
    destruct (marked_fields txt z) as (_ & _ & Et & _).
    destruct (live z) eqn:Lz; [|apply (Old z); done].
    right. rewrite marked_live, Lz in L. cbn [andb] in L. bool_prop.
    destruct (streq txt (default [] (test z))) eqn:S; [|done].
    destruct (Hs _ _ Hz S) as [Lv Tb]. exists h, (entered b now txt).
    rewrite B, bool_decide_true by done. rewrite Et, Tb. split; [set_solver|]. done.
Qed.

(** Covering depends on the flags and the tests only. *)
Lemma covered_ext w w' : ban_head w' = ban_head w ->
  (forall a, (fun b => (flags b, tests b)) <$> bans w' !! a = (fun b => (flags b, tests b)) <$> bans w !! a) ->
  covered w -> covered w'.
Proof.
  intros E1 F C p a q b Hp Hb L. rewrite E1 in Hp.
  pose proof (F a) as Fa. rewrite Hb in Fa. symmetry in Fa. apply fmap_Some in Fa as (y & Hy & Ey).
  injection Ey as Ef Et. destruct (C p a q y Hp Hy) as [T|(a' & b' & Ha' & Hb' & L' & T)].
  { unfold live. by rewrite <- Ef. }
  { left. congruence. }
  right. pose proof (F a') as Fa'. rewrite Hb' in Fa'. apply fmap_Some in Fa' as (y' & Hy' & Ey').
  injection Ey' as Ef' Et'. exists a', y'. split_and!; try done.
  - unfold live. by rewrite <- Ef'.
  - congruence.
Qed.

Lemma checked_covered w oc o v w' : checked w oc o v w' -> covered w -> covered w'.
Proof.
  intros (E1 & _ & _ & F & _). apply covered_ext; [done|]. intros a. pose proof (F a) as Fa.
  destruct (bans w' !! a), (bans w !! a); simpl in *; congruence.
Qed.

Lemma destroy_spec x w oc o :
  inv x w -> (forall a, 0 <= x a) -> objs w !! oc = Some o ->
  exists w' o', BAN_DestroyObj w oc = Some w' /\ inv x w' /\ (covered w -> covered w') /\
    objs w' = <[oc := o']> (objs w) /\ o_ban o' = None.
Proof.
  intros I Hx Ho. unfold BAN_DestroyObj. rewrite Ho. destruct (o_ban o) as [a|] eqn:Ea.
  2:{ exists w, o. rewrite insert_id by done. done. }
  destruct (proj1 (i_store _ _ I a) (i_refd _ _ I _ _ _ Ho Ea)) as [b Hb]. rewrite Hb.
  set (o' := Obj None (ban_t o) (ttl o) (cacheable o) (o_http o) (smp_seg o)).
  destruct (inv_detach x w oc o o' a b I Ho Ea Hb eq_refl) as (l & El & I1 & Hr).
  pose proof (Hx a). rewrite (proj2 (Z.ltb_lt _ _)) by lia. rewrite El. fold (detach w oc o' a b l).
  destruct (retire_spec x _ I1 Hx) as (w' & v & E & I2 & Eo & _). rewrite E.
  exists w', o'. split; [done|]. split; [done|]. split; [|by rewrite Eo].
  intros C. apply (retire_covered x _ _ _ I1 Hx E). revert C. apply covered_ext; [done|].
  intros c. cbn [detach put_obj put_ban bans]. destruct (decide (c = a)) as [->|N].
  - by rewrite lookup_insert_eq, Hb.
  - by rewrite lookup_insert_ne.
Qed.

(** ** The properties *)

(** C25: the verdict on an object.  [BAN_CheckObject] never aborts and says banned
    exactly when the tests of some ban newer than the object's all match, whether
    that ban was marked a duplicate or not.  A banned object is left without a
    ban, expired and not cacheable; any other is moved to the newest ban.  The
    invariant holds afterwards and no other object is touched. *)
Theorem BAN_CheckObject_verdict (x : Z -> Z) (w : world) (oc : Z) (o : object) (ob : Z)
  (pre post : list Z) (sh : http) (Hi : inv x w) (Hc : covered w)
  (Ho : objs w !! oc = Some o) (Hb : o_ban o = Some ob)
  (Hl : ban_head w = pre ++ ob :: post) (Hn : ob ∉ pre) :
  exists w' v, BAN_CheckObject VRE_exec w oc sh = Some (w', v) /\
    (v = true <-> any_hit w pre (o_http o) sh) /\ inv x w' /\ covered w' /\ checked w oc o v w'.
Proof.
  destruct (check_object_spec x w oc o ob pre post sh true Hi Ho Hb Hl Hn)
    as [(w' & E & I' & C & _)|[[=] _]].
  eexists w', _. split; [exact E|]. split; [|split; [done|split; [by eapply checked_covered|done]]].
  rewrite bool_decide_eq_true. symmetry. by eapply any_hit_first.
Qed.


(** objects and bans are destroyed without dangling.  Destroying an object
    never aborts, retires at most the oldest ban and that only when nothing holds
    it, and keeps the invariant: every object that still names a ban names one
    that is in the list and in the store. *)
Theorem BAN_DestroyObj_safe (x : Z -> Z) (w : world) (oc : Z) (o : object)
  (Hi : inv x w) (Hx : forall a, 0 <= x a) (Ho : objs w !! oc = Some o) :
  exists w', BAN_DestroyObj w oc = Some w' /\ inv x w' /\ (covered w -> covered w') /\
    (exists o', objs w' !! oc = Some o' /\ o_ban o' = None) /\
    (forall oc', oc' <> oc -> objs w' !! oc' = objs w !! oc') /\
    (forall oc' o' a, objs w' !! oc' = Some o' -> o_ban o' = Some a ->
       a ∈ ban_head w' /\ is_Some (bans w' !! a)).
Proof.
  destruct (destroy_spec x w oc o Hi Hx Ho) as (w' & o' & E & I & C & Eo & Ho').
  exists w'. split_and!; try done.
  - exists o'. by rewrite Eo, lookup_insert_eq.
  - intros oc' N. by rewrite Eo, lookup_insert_ne.
  - intros oc' o2 a H1 H2. pose proof (i_refd _ _ I _ _ _ H1 H2) as K. split; [done|].
    by apply (i_store _ _ I).
Qed.

End Lists.

(** ** Texts and tests *)

Section Texts.
#[local] Set Default Proof Using "All".
Context {regex : Type} (VRE_compile : list Z -> option regex) (VRE_exec : regex -> list Z -> Z).
Context (malloc_ok : Z -> bool) (junk : Z).
Notation ban := (@Ban.ban regex).
Notation ban_test := (@Ban.ban_test regex).
Notation world := (@Ban.world regex).
Notation hits := (hits VRE_exec).
Notation any_hit := (any_hit VRE_exec).

(** ** Adding tests *)

(** The test three words stand for. *)
Definition mk_test (a : list Z * list Z * list Z) : option ban_test :=
  match parse_cond VRE_compile test0 a.1.2 a.2, find_pvar pvars a.1.1 with
  | inl bt, Some (name, flag, f) =>
      if on flag PVAR_HTTP then ban_parse_http (set_func bt f) (drop (length name) a.1.1)
      else Some (set_func bt f)
  | _, _ => None
  end.

Definition wants_req (a : list Z * list Z * list Z) : bool :=
  match find_pvar pvars a.1.1 with Some (_, flag, _) => on flag PVAR_REQ | None => false end.

(** The header name in a test of a header can be looked up. *)
Definition name_ok (a : list Z * list Z * list Z) : Prop :=
  forall name flag f, find_pvar pvars a.1.1 = Some (name, flag, f) -> on flag PVAR_HTTP = true ->
    token (drop (length name) a.1.1).

Lemma find_pvar_in a1 pv : find_pvar pvars a1 = Some pv -> pv ∈ pvars.
Proof.
  generalize pvars. induction l as [|q l IH]; [done|]. cbn [find_pvar].
  case_if; [intros [= <-]; set_solver|]. intros H. specialize (IH H). set_solver.
Qed.

Lemma pvar_flags name flag f : (name, flag, f) ∈ pvars ->
  on flag PVAR_REQ = is_req f /\ on flag PVAR_HTTP = is_http f.
Proof.
  unfold pvars. rewrite !elem_of_cons. intros [E|[E|[E|E]]]; [injection E as -> -> ->; done..|].
  by apply elem_of_nil in E.
Qed.

(** What [parse_cond] fills in. *)
Lemma parse_cond_ok a2 a3 bt : parse_cond VRE_compile test0 a2 a3 = inl bt ->
  func bt = None /\ src bt = None /\
  (if on (t_flags bt) BAN_T_REGEXP then is_Some (re bt) else is_Some (dst bt)).
Proof.
  unfold parse_cond, ban_parse_regexp. cbn [test0 func t_flags re dst src set_not set_dst].
  destruct (VRE_compile a3), (streq a2 (bs "~")), (streq a2 (bs "!~")), (streq a2 (bs "==")),
    (streq a2 (bs "!=")); intros H; try discriminate H; injection H as <-;
    split_and!; vm_compute; eauto.
Qed.

Lemma mk_test_good a t : mk_test a = Some t -> name_ok a ->
  good_test t /\ asks_req t = wants_req a.
Proof.
  unfold mk_test, wants_req, name_ok. intros H Hn.
  destruct (parse_cond VRE_compile test0 a.1.2 a.2) as [bt|] eqn:Ep; [|done].
  destruct (parse_cond_ok _ _ _ Ep) as (E1 & E2 & E3).
  destruct (find_pvar pvars a.1.1) as [[[name flag] f]|] eqn:Ef; [|done].
  destruct (pvar_flags _ _ _ (find_pvar_in _ _ Ef)) as [F1 F2]. rewrite F1.
  specialize (Hn _ _ _ eq_refl). rewrite F2 in H, Hn. unfold good_test, asks_req.
  destruct (is_http f) eqn:Eh.
  - unfold ban_parse_http in H. inv_assert H. injection H as <-. split; [|done].
    exists f. split; [done|]. split; [exact E3|]. eauto.
  - injection H as <-. split; [|done]. exists f. split; [done|]. split; [exact E3|]. by rewrite Eh.
Qed.

Section Memory.
Context (Hm : forall z, malloc_ok z = true).
Notation AddTest := (BAN_AddTest VRE_compile malloc_ok junk).

(** The text of one test. *)
Definition text1 (a : list Z * list Z * list Z) : list Z :=
  a.1.1 ++ 32 :: a.1.2 ++ 32 :: Vsb.quoted a.2.

(** A ban under construction whose text so far is [txt]. *)
Definition building (b : ban) (txt : list Z) : Prop :=
  exists v, b_vsb b = Some v /\ Vsb.open v /\ Vsb.VSB_CANEXTEND v = true /\ Vsb.content v = txt.

Definition sep (b : ban) : list Z := if bool_decide (tests b = []) then [] else bs " && ".

Lemma AddTest_ok b txt a t :
  building b txt -> mk_test a = Some t ->
  exists b', AddTest b a.1.1 a.1.2 a.2 = Some (b', None) /\
    building b' (txt ++ sep b ++ text1 a) /\ tests b' = tests b ++ [t] /\
    flags b' = (if wants_req a then Z.lor (flags b) BAN_F_REQ else flags b) /\
    refcount b' = refcount b /\ objcore b' = objcore b /\ test b' = test b /\ t0 b' = t0 b.
Proof.
  destruct a as [[a1 a2] a3]. cbn [fst snd].
  intros (v & Ev & Ov & Xv & Cv) Ht. unfold mk_test, wants_req in *. cbn [fst snd] in *.
  destruct (parse_cond VRE_compile test0 a2 a3) as [bt|] eqn:Ep; [|done].
  destruct (find_pvar pvars a1) as [[[name flag] f]|] eqn:Ef; [|done].
  assert (S : exists v1, (if bool_decide (tests b = []) then Some v
              else let? (_, s) := Vsb.vsb_cat malloc_ok junk v (bs " && ") in Some s) = Some v1 /\
              Vsb.grown v v1 (sep b)).
  { unfold sep. case_bool_decide.
    - exists v. split; [done|]. unfold Vsb.grown. by rewrite app_nil_r.
    - destruct (Vsb.vsb_cat_grown malloc_ok junk Hm v (bs " && ") Ov Xv eq_refl) as (v1 & -> & G). eauto. }
  destruct S as (v1 & E1 & G1 & X1 & C1). unfold BAN_AddTest. rewrite Ev, E1.
  unfold ban_add_test. rewrite Hm, Ep, Ef.
  match goal with |- context [Vsb.vsb_printf _ _ _ ?x] => set (line := x) end.
  destruct (Vsb.vsb_printf_grown malloc_ok junk Hm v1 line G1 X1) as (v2 & E2 & G2 & X2 & C2).
  destruct (Vsb.vsb_quote_grown malloc_ok junk Hm v2 a3 G2 X2) as (v3 & E3 & G3 & X3 & C3).
  assert (Hb : (if on flag PVAR_HTTP then ban_parse_http (set_func bt f) (drop (length name) a1)
                else Some (set_func bt f)) = Some t) by (by destruct (on flag PVAR_HTTP)).
  rewrite Hb, E2, E3. eexists. split; [done|]. split.
  - exists v3. split; [done|]. split; [done|]. split; [done|].
    rewrite C3, C2, C1, Cv. subst line. unfold text1. cbn [fst snd].
    rewrite <- !app_assoc. f_equal. f_equal. f_equal. cbn [app]. f_equal. by rewrite <- app_assoc.
  - by destruct (on flag PVAR_REQ).
Qed.

(** Several tests, as the words of one line. *)
Fixpoint flat (l : list (list Z * list Z * list Z)) : list (list Z) :=
  match l with
  | [] => []
  | [a] => [a.1.1; a.1.2; a.2]
  | a :: l => a.1.1 :: a.1.2 :: a.2 :: bs "&&" :: flat l
  end.

Fixpoint text (l : list (list Z * list Z * list Z)) : list Z :=
  match l with
  | [] => []
  | [a] => text1 a
  | a :: l => text1 a ++ bs " && " ++ text l
  end.

(** What adding the tests of [l] makes of a ban. *)
Definition filled (b b' : ban) (txt : list Z) (l : list (list Z * list Z * list Z))
  (ts : list ban_test) : Prop :=
  building b' txt /\ tests b' = tests b ++ ts /\
  on (flags b') BAN_F_REQ = on (flags b) BAN_F_REQ || existsb wants_req l /\
  (forall f, Z.land BAN_F_REQ f = 0 -> on (flags b') f = on (flags b) f) /\
  refcount b' = refcount b /\ objcore b' = objcore b /\ test b' = test b /\ t0 b' = t0 b.

Lemma fill_step b b1 a t txt :
  AddTest b a.1.1 a.1.2 a.2 = Some (b1, None) ->
  building b1 txt -> tests b1 = tests b ++ [t] ->
  flags b1 = (if wants_req a then Z.lor (flags b) BAN_F_REQ else flags b) ->
  on (flags b1) BAN_F_REQ = on (flags b) BAN_F_REQ || wants_req a /\
  (forall f, Z.land BAN_F_REQ f = 0 -> on (flags b1) f = on (flags b) f).
Proof.
  intros _ _ _ ->. destruct (wants_req a); [|by rewrite orb_false_r]. split.
  - rewrite on_lor. by destruct (on _ _).
  - intros f Hf. rewrite on_lor. unfold on at 2. rewrite Hf. by rewrite orb_false_r.
Qed.

Lemma fill_tests (l : list (list Z * list Z * list Z)) : forall ts fuel b txt, l <> [] ->
  Forall2 (fun a t => mk_test a = Some t) l ts -> building b txt -> (length l < fuel)%nat ->
  exists b', filled b b' (txt ++ sep b ++ text l) l ts /\
    purge_tests VRE_compile malloc_ok junk fuel b (flat l) = Some (b', None) /\
    compile_tests VRE_compile malloc_ok junk fuel b (flat l) = Some b'.
Proof.
  induction l as [|a l IH]; intros ts fuel b txt Hl F B Hf; [done|].
  apply Forall2_cons_inv_l in F as (t & ts' & Ht & F & ->).
  destruct fuel as [|fuel]; [lia|]. simpl in Hf.
  destruct (AddTest_ok b txt a t B Ht) as (b1 & E1 & B1 & T1 & F1 & R1 & O1 & S1 & D1).
  destruct (fill_step _ _ _ _ _ E1 B1 T1 F1) as [Q1 Q2].
  destruct l as [|a' l].
  - apply Forall2_nil_inv_l in F as ->. exists b1. cbn [flat text purge_tests compile_tests].
    rewrite E1. split; [|done]. unfold filled. cbn [existsb]. rewrite orb_false_r. split_and!; done.
  - destruct (IH ts' fuel b1 (txt ++ sep b ++ text1 a)) as (b2 & (B2 & T2 & P2 & P3 & P4 & P5 & P6 & P7) & E2 & E3); try done.
    { simpl in *. lia. }
    exists b2. change (flat (a :: a' :: l)) with (a.1.1 :: a.1.2 :: a.2 :: bs "&&" :: flat (a' :: l)).
    cbn [purge_tests compile_tests]. rewrite E1. split; [|split; [exact E2|]].
    2:{ change (streq (bs "&&") (bs "&&")) with true. exact E3. }
    unfold filled. assert (S2 : sep b1 = bs " && ").
    { unfold sep. rewrite bool_decide_false; [done|]. rewrite T1. by destruct (tests b). }
    rewrite S2 in B2. change (text (a :: a' :: l)) with (text1 a ++ bs " && " ++ text (a' :: l)).
    split_and!; try congruence.
    + rewrite <- !app_assoc in B2. rewrite <- ?app_assoc. exact B2.
    + rewrite T2, T1, <- app_assoc. done.
    + rewrite P2, Q1. cbn [existsb]. by rewrite <- !orb_assoc.
    + intros f Hf'. rewrite P3, Q2 by done. done.
Qed.

(** The text is a line of words when the first two words of each test are plain. *)
Definition plain_words (a : list Z * list Z * list Z) : Prop :=
  Vsb.needs_quote a.1.1 = false /\ Vsb.needs_quote a.1.2 = false.

Lemma text_words l : Forall plain_words l -> text l = Argv.words (flat l).
Proof.
  induction l as [|a l IH]; [done|]. intros [[P1 P2] P]%Forall_cons_1. specialize (IH P).
  assert (Q : Vsb.quoted a.1.1 = a.1.1 /\ Vsb.quoted a.1.2 = a.1.2)
    by (unfold Vsb.quoted; by rewrite P1, P2).
  destruct Q as [Q1 Q2]. destruct l as [|a' l].
  - cbn [text flat Argv.words]. unfold text1. by rewrite Q1, Q2.
  - change (text (a :: a' :: l)) with (text1 a ++ bs " && " ++ text (a' :: l)).
    change (flat (a :: a' :: l)) with (a.1.1 :: a.1.2 :: a.2 :: bs "&&" :: flat (a' :: l)).
    rewrite IH. cbn [Argv.words]. unfold text1. rewrite Q1, Q2, <- !app_assoc.
    f_equal. cbn [app]. f_equal. rewrite <- app_assoc. f_equal. cbn [app]. f_equal.
    change (Vsb.quoted (bs "&&")) with (bs "&&"). f_equal.
    destruct (flat (a' :: l)) eqn:E; [destruct l; discriminate E|]. done.
Qed.

(** ** Texts determine tests *)

(** Words that survive quoting and parsing, and name known fields. *)
Definition sound (l : list (list Z * list Z * list Z)) : Prop :=
  l <> [] /\ Forall plain_words l /\ forallb Argv.safe (flat l) = true /\ Forall name_ok l.

Definition texts_ok (w : world) : Prop :=
  forall a y, bans w !! a = Some y -> (tests y = [] /\ test y = Some []) \/
    exists l, sound l /\ test y = Some (text l) /\ Forall2 (fun a t => mk_test a = Some t) l (tests y).

Lemma flat_inj l : forall l', flat l = flat l' -> l = l'.
Proof.
  induction l as [|[[a b] c] l IH]; intros [|[[a' b'] c'] l'] E; try done.
  - by destruct l'.
  - by destruct l.
  - destruct l as [|p l], l' as [|p' l'].
    + cbn in E. congruence.
    + cbn [flat] in E. by destruct l'.
    + cbn [flat] in E. by destruct l.
    + change (flat ((a, b, c) :: p :: l)) with (a :: b :: c :: bs "&&" :: flat (p :: l)) in E.
      change (flat ((a', b', c') :: p' :: l')) with (a' :: b' :: c' :: bs "&&" :: flat (p' :: l')) in E.
      injection E as -> -> -> E. by rewrite (IH (p' :: l') E).
Qed.

Lemma text_parses l : sound l -> Argv.ParseArgv (text l) 0 = Argv.AvOk (flat l).
Proof.
  intros (_ & P & S & _). rewrite text_words by done. unfold Argv.ParseArgv.
  by rewrite (Argv.parse_words (flat l)) by (done || lia).
Qed.

Lemma text_inj l l' : sound l -> sound l' -> text l = text l' -> l = l'.
Proof.
  intros S S' E. pose proof (text_parses l S) as P. rewrite E, (text_parses l' S') in P.
  injection P as P. symmetry. by apply flat_inj.
Qed.

Lemma text_nonnul l : sound l -> Forall (fun c => c <> 0) (text l) /\ text l <> [].
Proof.
  intros (N & P & S & _). rewrite text_words by done.
  assert (Q : forall p, Argv.safe p = true -> Forall (fun c => c <> 0) (Vsb.quoted p) /\ Vsb.quoted p <> []).
  { intros p Hp. destruct (Argv.safe_spec p Hp) as (Hn & Hc & _).
    assert (Hc0 : Forall (fun c => c <> 0) p) by (eapply Forall_impl; [exact Hc|unfold cchar; simpl; lia]).
    unfold Vsb.quoted. case_if; [|done]. split; [|done]. constructor; [done|].
    apply Forall_app. split; [|by constructor]. apply Forall_join, Forall_forall.
    intros q (c & -> & Hin)%list_elem_of_fmap.
    pose proof (proj1 (Forall_forall _ _) Hc c Hin) as Hcc. unfold cchar in Hcc.
    unfold Vsb.quoted1, Vsb.octal. repeat case_if; repeat constructor; try done;
      Z.div_mod_to_equations; lia. }
  assert (W : forall ws, forallb Argv.safe ws = true -> Forall (fun c => c <> 0) (Argv.words ws) /\
              (ws <> [] -> Argv.words ws <> [])).
  { induction ws as [|p ws IH]; [done|]. cbn [forallb]. intros [Hp Hw]%andb_true_iff.
    destruct (Q p Hp) as [Q1 Q2]. destruct (IH Hw) as [I1 I2]. destruct ws as [|q ws]; [done|].
    rewrite Argv.words_cons. split; [|by destruct (Vsb.quoted p)].
    apply Forall_app. split; [done|]. constructor; [done|exact I1]. }
  destruct (W _ S) as [W1 W2]. split; [done|]. apply W2. by destruct l as [|? [|? ?]].
Qed.

Lemma c_str_nonnul l : sound l -> c_str (text l) = text l.
Proof. intros S. apply c_str_id. exact (proj1 (text_nonnul l S)). Qed.

Lemma same_text_tests w l ts c y :
  texts_ok w -> sound l -> Forall2 (fun a t => mk_test a = Some t) l ts ->
  bans w !! c = Some y -> streq (text l) (default [] (test y)) = true -> tests y = ts.
Proof.
  intros T S F Hy E. unfold streq in E. apply bool_decide_eq_true in E. rewrite c_str_nonnul in E by done.
  destruct (T _ _ Hy) as [[_ Ey]|(l' & S' & Ey & F')]; rewrite Ey in E; simpl in E.
  - by destruct (text_nonnul l S).
  - rewrite c_str_nonnul in E by done. apply text_inj in E as <-; [|done..].
    clear -F F'. revert ts F; induction F'; intros ts F; inversion F; subst; f_equal; [congruence|auto].
Qed.

(** A fresh ban. *)
Lemma new_ok : exists b, BAN_New malloc_ok junk = Some (Some b) /\ building b [] /\ tests b = [] /\
  flags b = 0 /\ refcount b = 0 /\ objcore b = [] /\ test b = None.
Proof.
  unfold BAN_New. rewrite Hm. unfold Vsb.vsb_newauto, Vsb.vsb_new. rewrite Hm. cbn [orb].
  change (0 <=? 0) with true. change (Z.ldiff Vsb.VSB_AUTOEXTEND Vsb.VSB_USRFLAGMSK =? 0) with true.
  cbn iota. cbv zeta. rewrite Hm. cbn iota.
  eexists. split; [reflexivity|]. split; [|done]. eexists. split; [reflexivity|].
  split; [|done]. unfold Vsb.open, Vsb.wf. vm_compute. split_and!; congruence.
Qed.


(** The checks of [ccf_purge] pass. *)
Lemma flat_args l : l <> [] ->
  (length (flat l) mod 4 = 3)%nat /\ check_ands (flat l) = true /\ (length l < length (flat l))%nat.
Proof.
  induction l as [|a l IH]; [done|]. intros _. destruct l as [|a' l]; [split_and!; simpl; lia|].
  destruct IH as (I1 & I2 & I3); [done|].
  change (flat (a :: a' :: l)) with (a.1.1 :: a.1.2 :: a.2 :: bs "&&" :: flat (a' :: l)).
  set (n := flat (a' :: l)) in *. cbn [length check_ands]. change (streq (bs "&&") (bs "&&")) with true.
  split_and!; [|done|simpl in *; lia].
  replace (S (S (S (S (length n))))) with (length n + 1 * 4)%nat by lia.
  by rewrite Nat.Div0.mod_add.
Qed.

Lemma filled_ready b b' l ts :
  building b [] -> tests b = [] -> flags b = 0 -> refcount b = 0 -> objcore b = [] ->
  sound l -> Forall2 (fun a t => mk_test a = Some t) l ts ->
  filled b b' ([] ++ sep b ++ text l) l ts -> ready b' (text l) /\ tests b' = ts /\ live b' = true.
Proof.
  intros _ Tb Fb Rb Ob S F (B & T & P2 & P3 & P4 & P5 & P6 & P7).
  unfold sep in B. rewrite Tb in *. rewrite bool_decide_true in B by done. cbn [app] in *.
  assert (L : live b' = true).
  { unfold live. rewrite P3, Fb; done. }
  assert (G : Forall good_test ts /\ existsb asks_req ts = existsb wants_req l).
  { destruct S as (_ & _ & _ & N). clear P2 T B Tb. induction F as [|a t l ts Ht F IH]; [done|].
    apply Forall_cons_1 in N as [Na N]. destruct (IH N) as [I1 I2].
    destruct (mk_test_good a t Ht Na) as [G1 G2]. split; [by constructor|]. simpl. by rewrite G2, I2. }
  destruct G as [G1 G2]. split; [|done]. split; rewrite ?T; try done.
  - destruct B as (v & B1 & B2 & _ & B3). eauto.
  - exact (proj1 (text_nonnul l S)).
  - congruence.
  - congruence.
  - rewrite G2, P2. intros ->. apply orb_true_r.
  - intros _ E. destruct S as (S & _). apply Forall2_length in F. rewrite E in F. by destruct l.
Qed.

Lemma purge_spec x w a l ts now dups :
  inv x w -> (forall c, 0 <= x c) -> bans w !! a = None -> x a = 0 -> covered w -> texts_ok w ->
  sound l -> Forall2 (fun a t => mk_test a = Some t) l ts ->
  exists w' b, ccf_purge VRE_compile malloc_ok junk w a (flat l) now dups = Some (w', None) /\
    inv x w' /\ covered w' /\ texts_ok w' /\ ban_head w' = a :: ban_head w /\ objs w' = objs w /\
    bans w' !! a = Some b /\ tests b = ts /\ test b = Some (text l) /\ t0 b = now /\ live b = true /\
    (forall c y, bans w !! c = Some y -> exists y', bans w' !! c = Some y' /\ tests y' = tests y).
Proof.
  intros I Hx Ha Hxa C T S F. destruct S as (Sl & S'). assert (S : sound l) by done.
  destruct (flat_args l Sl) as (A1 & A2 & A3). unfold ccf_purge. rewrite A1, A2.
  destruct new_ok as (b0 & -> & B0 & Tb & Fb & Rb & Ob & _). cbn [Nat.eqb negb].
  destruct (fill_tests l ts (length (flat l)) b0 [] Sl F B0 A3) as (b & Fi & -> & _).
  destruct (filled_ready b0 b l ts B0 Tb Fb Rb Ob S F Fi) as (R & Tt & L).
  destruct (insert_spec VRE_exec x w a b now (text l) dups I Hx Ha Hxa R) as (w' & -> & I' & Eh & Eo & B).
  assert (Bt : forall c y, bans w !! c = Some y -> exists y', bans w' !! c = Some y' /\
                 tests y' = tests y /\ test y' = test y).
  { intros c y Hy. assert (c <> a) by congruence.
    rewrite B, bool_decide_false by done. destruct dups; cbn [deduped]; [|eauto].
    rewrite lookup_fmap, Hy. eexists. split; [done|].
    destruct (marked_fields VRE_exec (text l) y) as (_ & _ & -> & -> & _). done. }
  exists w', (entered b now (text l)). split; [done|]. split; [done|]. split.
  { eapply (covered_enter VRE_exec w w' x a b now (text l) dups); try done.
    - by rewrite L.
    - intros c y Hy E. split; [done|]. rewrite Tt. by eapply same_text_tests. }
  split.
  { intros c y. rewrite B. case_bool_decide as Hc.
    - intros [= <-]. right. exists l. split_and!; try done. change (tests (entered b now (text l))) with (tests b).
      by rewrite Tt.
    - destruct dups; cbn [deduped]; [|apply T]. rewrite lookup_fmap. intros (z & Hz & ->)%fmap_Some.
      destruct (marked_fields VRE_exec (text l) z) as (_ & _ & -> & -> & _). by apply (T c). }
  split; [done|]. split; [done|]. rewrite B, bool_decide_true by done.
  split_and!; try done. intros c y Hy. destruct (Bt c y Hy) as (y' & ? & ? & _). eauto.
Qed.

End Memory.

(** ** Bans read back *)

(** The place [BAN_Reload] finds for a text that is not in the list. *)
Lemma reload_place (m : gmap Z ban) l : forall (pre : list Z) t txt,
  (forall a, a ∈ l -> exists b y, m !! a = Some b /\ test b = Some y /\ streq y txt = false) ->
  exists p q, reload_loop m l pre t txt 0 = Some (Some (pre ++ p, q, 0)) /\ l = p ++ q /\
    (forall a b, a ∈ p -> m !! a = Some b -> t <= t0 b) /\
    (forall a b, head q = Some a -> m !! a = Some b -> t0 b < t).
Proof.
  induction l as [|a l IH]; intros pre t txt H.
  - exists [], []. rewrite app_nil_r. split_and!; try done. set_solver.
  - destruct (H a) as (b & y & Hb & Hy & Hs); [set_solver|]. cbn [reload_loop]. rewrite Hb, Hy, Hs.
    assert (Go : t <= t0 b -> exists p q, reload_loop m l (pre ++ [a]) t txt 0 =
              Some (Some (pre ++ p, q, 0)) /\ a :: l = p ++ q /\
              (forall c z, c ∈ p -> m !! c = Some z -> t <= t0 z) /\
              (forall c z, head q = Some c -> m !! c = Some z -> t0 z < t)).
    { intros Ht. destruct (IH (pre ++ [a]) t txt) as (p & q & E & El & P & Q).
      { intros c Hc. apply H. set_solver. }
      exists (a :: p), q. rewrite <- app_assoc in E. split; [exact E|]. split; [by rewrite El|].
      split; [|done]. intros c z Hc Hz. apply elem_of_cons in Hc as [->|Hc]; [congruence|eauto]. }
    destruct (Z.ltb_spec t (t0 b)); [apply Go; lia|].
    destruct (Z.ltb_spec (t0 b) t); [|apply Go; lia].
    exists [], (a :: l). rewrite app_nil_r. split; [done|]. split; [done|]. split; [set_solver|].
    intros c z [= <-] Hz. congruence.
Qed.

Lemma hunt_none l : forall txt (m : gmap Z ban) n,
  (forall a, a ∈ l -> exists b y, m !! a = Some b /\ test b = Some y /\ streq txt y = false) ->
  hunt l txt m n = Some (m, n).
Proof.
  induction l as [|a l IH]; intros txt m n H; [done|]. cbn [hunt].
  destruct (H a) as (b & y & -> & -> & ->); [set_solver|].
  case_if; apply IH; intros c Hc; apply H; set_solver.
Qed.

Lemma compile_loop_at (m : gmap Z ban) a b b' l : m !! a = Some b ->
  compile_ban VRE_compile malloc_ok junk b = Some b' ->
  compile_ban VRE_compile malloc_ok junk b' = Some b' ->
  (forall c, c ∈ l -> c <> a -> exists y, m !! c = Some y /\ on (flags y) BAN_F_PENDING = false) ->
  compile_loop VRE_compile malloc_ok junk m l = Some (if bool_decide (a ∈ l) then <[a := b']> m else m).
Proof.
  intros Ha Hc Hc' H. assert (G : forall l m, (forall c, c ∈ l -> c <> a ->
      exists y, m !! c = Some y /\ on (flags y) BAN_F_PENDING = false) -> m !! a = Some b' ->
      compile_loop VRE_compile malloc_ok junk m l = Some m).
  { clear -Hc'. induction l as [|c l IH]; intros m H Ha; [done|]. cbn [compile_loop].
    assert (K : exists y, m !! c = Some y /\ compile_ban VRE_compile malloc_ok junk y = Some y).
    { destruct (decide (c = a)) as [->|N]; [eauto|]. destruct (H c) as (y & Hy & P); [set_solver|done|].
      exists y. split; [done|]. unfold compile_ban. by rewrite P. }
    destruct K as (y & Hy & Ey). rewrite Hy, Ey, insert_id by done. apply IH; [|done].
    intros d Hd. apply H. set_solver. }
  induction l as [|c l IH]; [done|]. cbn [compile_loop]. destruct (decide (c = a)) as [->|N].
  - rewrite Ha, Hc. rewrite G; [by rewrite bool_decide_true by set_solver| |apply lookup_insert_eq].
    intros d Hd Nd. rewrite lookup_insert_ne by done. apply H; [set_solver|done].
  - destruct (H c) as (y & Hy & P); [set_solver|done|]. rewrite Hy.
    unfold compile_ban at 1. rewrite P. cbn [negb]. rewrite insert_id by done.
    rewrite IH by (intros d Hd; apply H; set_solver).
    by rewrite (bool_decide_ext (a ∈ c :: l) (a ∈ l)) by set_solver.
Qed.

(** ** The properties *)

(** C28: the purge command with words that survive quoting.  It inserts one ban
    whose tests are the ones asked for and whose text is the line of words; all
    invariants hold afterwards, the tests of older bans are untouched even when
    the ban is a duplicate, and an object checked from then on is banned exactly
    when the new ban matches it or it would have been banned before. *)
Theorem ccf_purge_effect (x : Z -> Z) (w : world) (a : Z) (l : list (list Z * list Z * list Z))
  (ts : list ban_test) (now : double) (dups : bool) (Hm : forall z, malloc_ok z = true)
  (Hi : inv x w) (Hx : forall c, 0 <= x c) (Hc : covered w) (Ht : texts_ok w)
  (Ha : bans w !! a = None) (Hxa : x a = 0) (Hs : sound l)
  (Hts : Forall2 (fun a t => mk_test a = Some t) l ts) :
  exists w' b, ccf_purge VRE_compile malloc_ok junk w a (flat l) now dups = Some (w', None) /\
    inv x w' /\ covered w' /\ texts_ok w' /\ ban_head w' = a :: ban_head w /\
    bans w' !! a = Some b /\ tests b = ts /\ test b = Some (text l) /\ t0 b = now /\
    forall pre post oh sh, ban_head w = pre ++ post ->
      any_hit w' (a :: pre) oh sh <-> hits b oh sh = true \/ any_hit w pre oh sh.
Proof.
  destruct (purge_spec Hm x w a l ts now dups Hi Hx Ha Hxa Hc Ht Hs Hts)
    as (w' & b & E & I' & C' & T' & Eh & _ & Hb & Tb & Xb & Nb & Lb & F).
  exists w', b. split_and!; try done. intros pre post oh sh El.
  assert (Sub : forall c, c ∈ pre -> exists y, bans w !! c = Some y /\ c <> a).
  { intros c K. destruct (proj1 (i_store _ _ Hi c)) as [y Hy]; [rewrite El; set_solver|].
    exists y. split; [done|]. congruence. }
  split.
  - intros (c & y & Hin & Hy & Ny & Hh). apply elem_of_cons in Hin as [->|Hin].
    + left. congruence.
    + right. destruct (Sub c Hin) as (z & Hz & _). destruct (F c z Hz) as (y' & Hy' & Et).
      exists c, z. split_and!; try done; [congruence|]. unfold hits in *.
      assert (y' = y) as -> by congruence. by rewrite <- Et.
  - intros [Hh|(c & y & Hin & Hy & Ny & Hh)].
    + exists a, b. split_and!; try done; [set_solver|].
      exact (proj2 (proj2 (proj2 (i_good _ _ I' _ _ Hb))) Lb).
    + destruct (F c y Hy) as (y' & Hy' & Et). exists c, y'. split_and!; try done; [set_solver|congruence|].
      unfold hits in *. by rewrite Et.
Qed.


End Texts.

(** ** Concrete lists

    Regular expressions are prefixes here.  The magic ban is at 4096, a ban on the
    URL prefix "/a" at 8192, one on an object header at 12288; the object 100
    dates from the magic ban. *)
Definition vre_compile (s : list Z) : option (list Z) := Some s.
Definition vre_exec (r s : list Z) : Z := if bool_decide (take (length r) s = r) then 0 else -1.
Definition mem_ok (n : Z) : bool := true.

Definition url_words : list Z * list Z * list Z := (bs "req.url", bs "~", bs "/a").
Definition obj_words : list Z * list Z * list Z := (bs "obj.http.Host", bs "==", bs "b").
Definition url_test : @ban_test (list Z) :=
  BanTest (Some ban_cond_url) BAN_T_REGEXP (Some (bs "/a")) None None.
Definition obj_test : @ban_test (list Z) :=
  BanTest (Some ban_cond_obj_http) 0 None (Some (bs "b")) (Some (hdrconst (bs "Host"))).

Definition magic0 : @ban (list Z) := MkBan 1 BAN_F_GONE [] [100] 10 None (Some []).
Definition url_ban : @ban (list Z) :=
  MkBan 0 BAN_F_REQ [url_test] [] 20 None (Some (bs "req.url ~ /a")).
Definition obj_ban : @ban (list Z) :=
  MkBan 0 0 [obj_test] [] 20 None (Some (bs "obj.http.Host == b")).
Definition obj100 : object := Obj (Some 4096) 10 99 true req0 false.

Definition wmagic : @world (list Z) :=
  World {[ 4096 := magic0 ]} [4096] 4096 4096 {[ 100 := obj100 ]} (Stats 1 1 0 0 0 0) [].
Definition wpair (b : @ban (list Z)) : @world (list Z) :=
  World {[ 8192 := b; 4096 := magic0 ]} [8192; 4096] 8192 4096 {[ 100 := obj100 ]}
        (Stats 2 2 0 0 0 0) [].
Definition none (a : Z) : Z := 0.

Lemma good_magic : good_ban magic0.
Proof. split; [by eexists|]. split; [constructor|]. split; done. Qed.

Lemma good_url : good_ban url_ban.
Proof.
  split; [by eexists|]. split; [|split; done]. constructor; [|constructor].
  exists ban_cond_url. split; [done|]. split; [by eexists|done].
Qed.

Lemma good_obj : good_ban obj_ban.
Proof.
  split; [by eexists|]. split; [|split; done]. constructor; [|constructor].
  exists ban_cond_obj_http. split; [done|]. split; [by eexists|].
  intros _. exists (bs "Host"). split; [exact token_host|done].
Qed.

Lemma inv_magic : inv none wmagic.
Proof.
  split; cbn [wmagic bans ban_head ban_start objs stat n_purge]; try done.
  - apply NoDup_singleton.
  - intros a. rewrite list_elem_of_singleton. split; [intros ->; by eexists|].
    intros [b [<- _]%lookup_singleton_Some]. done.
  - intros a b [<- <-]%lookup_singleton_Some. done.
  - intros a b [<- <-]%lookup_singleton_Some. apply NoDup_singleton.
  - intros a b oc [<- <-]%lookup_singleton_Some. cbn [magic0 objcore]. rewrite list_elem_of_singleton.
    split; [intros ->; by exists obj100|]. by intros (o & [<- <-]%lookup_singleton_Some & _).
  - intros oc o a [<- <-]%lookup_singleton_Some [= <-]. set_solver.
  - intros a b [<- <-]%lookup_singleton_Some. exact good_magic.
Qed.

(** A ban on top of the magic one. *)
Lemma inv_pair (b : @ban (list Z)) : good_ban b -> refcount b = 0 -> objcore b = [] -> inv none (wpair b).
Proof.
  intros G R O. assert (K : forall a y, bans (wpair b) !! a = Some y ->
    (a = 8192 /\ y = b) \/ (a = 4096 /\ y = magic0)).
  { intros a y. cbn [wpair bans]. intros [[<- <-]|[_ [<- <-]%lookup_singleton_Some]]%lookup_insert_Some; auto. }
  split; cbn [wpair ban_head ban_start objs stat n_purge]; try done.
  - repeat constructor; set_solver.
  - intros a. split.
    + rewrite !elem_of_cons. intros [->|[->|[]%elem_of_nil]]; [exists b|exists magic0]; done.
    + intros [y [[-> _]|[-> _]]%K]; set_solver.
  - intros a y [[-> ->]|[-> ->]]%K; [by rewrite R, O|done].
  - intros a y [[-> ->]|[-> ->]]%K; [rewrite O; constructor|apply NoDup_singleton].
  - intros a y oc [[-> ->]|[-> ->]]%K.
    + rewrite O. split; [set_solver|]. by intros (o & [<- <-]%lookup_singleton_Some & [=]).
    + cbn [magic0 objcore]. rewrite list_elem_of_singleton.
      split; [intros ->; by exists obj100|]. by intros (o & [<- <-]%lookup_singleton_Some & _).
  - intros oc o a [<- <-]%lookup_singleton_Some [= <-]. set_solver.
  - intros a y [[-> ->]|[-> ->]]%K; [done|exact good_magic].
Qed.

Lemma covered_pair (b : @ban (list Z)) : live b = true -> covered (wpair b).
Proof.
  intros L p a q y _. cbn [wpair bans]. intros [[_ <-]|[_ [_ <-]%lookup_singleton_Some]]%lookup_insert_Some H; [congruence|by left].
Qed.

Lemma covered_magic : covered wmagic.
Proof.
  intros p a q y _. cbn [wmagic bans]. intros [_ <-]%lookup_singleton_Some _. by left.
Qed.

Lemma BAN_CheckObject_verdict_witness :
  inv none (wpair url_ban) /\
  exists w' v, BAN_CheckObject vre_exec (wpair url_ban) 100 req0 = Some (w', v) /\ v = false /\
    inv none w'.
Proof.
  assert (I : inv none (wpair url_ban)) by (apply inv_pair; [exact good_url|reflexivity|reflexivity]).
  split; [exact I|].
  destruct (BAN_CheckObject_verdict vre_exec none (wpair url_ban) 100 obj100 4096 [8192] [] req0 I
    (covered_pair url_ban eq_refl) eq_refl eq_refl eq_refl ltac:(set_solver))
    as (w' & v & E & _ & I' & _).
  exists w', v. split; [exact E|]. split; [|exact I']. vm_compute in E. injection E as _ <-. reflexivity.
Defined.


Lemma BAN_DestroyObj_safe_witness :
  inv none (wpair url_ban) /\
  exists w', BAN_DestroyObj (wpair url_ban) 100 = Some w' /\ inv none w' /\ ban_head w' = [8192].
Proof.
  assert (I : inv none (wpair url_ban)) by (apply inv_pair; [exact good_url|reflexivity|reflexivity]).
  split; [exact I|].
  destruct (BAN_DestroyObj_safe vre_exec none (wpair url_ban) 100 obj100 I
    ltac:(intros; unfold none; lia) eq_refl) as (w' & E & I' & _).
  exists w'. split; [exact E|]. split; [exact I'|]. vm_compute in E. injection E as <-. reflexivity.
Defined.

Lemma sound_url : sound [url_words].
Proof.
  split; [done|]. split; [repeat constructor|]. split; [vm_compute; reflexivity|].
  constructor; [|constructor]. intros name flag f. vm_compute. by intros [= <- <- <-].
Qed.

Lemma mk_url : Forall2 (fun a t => mk_test vre_compile a = Some t) [url_words] [url_test].
Proof. constructor; [reflexivity|constructor]. Qed.

Lemma texts_magic : texts_ok vre_compile wmagic.
Proof. intros a y. cbn [wmagic bans]. intros [_ <-]%lookup_singleton_Some. by left. Qed.

Lemma ccf_purge_effect_witness :
  sound [url_words] /\
  exists w' b, ccf_purge vre_compile mem_ok 0 wmagic 8192 (flat [url_words]) 20 true = Some (w', None) /\
    bans w' !! 8192 = Some b /\ tests b = [url_test] /\ test b = Some (bs "req.url ~ /a").
Proof.
  split; [exact sound_url|].
  destruct (ccf_purge_effect vre_compile vre_exec mem_ok 0 none wmagic 8192 [url_words] [url_test] 20 true
    ltac:(reflexivity) inv_magic ltac:(intros; unfold none; lia) covered_magic texts_magic
    eq_refl eq_refl sound_url mk_url)
    as (w' & b & E & _ & _ & _ & _ & Hb & Tb & Xb & _).
  exists w', b. split; [exact E|]. split; [exact Hb|]. split; [exact Tb|]. rewrite Xb. reflexivity.
Defined.


(** The lurker runs without the lock of the object head.  Here its walk found the
    object clean; before it takes [ban_mtx] a request checks the same object and
    moves it to the newest ban.  The lurker then takes the changed [o->ban] for a
    hit, and a good object is expired. *)
Theorem lurker_race :
  let w := wpair obj_ban in
  check_walk vre_exec w 100 8192 req0 false = Some (Stop 4096 1) /\
  exists w1 w2 w3, BAN_CheckObject vre_exec w 100 req0 = Some (w1, false) /\
    check_lock w1 100 8192 4096 1 = Some w2 /\ check_after w2 100 8192 4096 = Some (w3, true) /\
    o_ban <$> objs w3 !! 100 = Some None /\ ttl <$> objs w3 !! 100 = Some 0.
Proof.
  split; [vm_compute; reflexivity|]. eexists _, _, _.
  split; [vm_compute; reflexivity|]. split; [vm_compute; reflexivity|].
  split; [vm_compute; reflexivity|]. split; vm_compute; reflexivity.
Qed.

(** The command line can ask for a header name that is too long for the length
    byte, and the test for it aborts. *)
Theorem purge_long_name_aborts :
  BAN_AddTest vre_compile mem_ok 0 (MkBan 0 0 [] [] 0 (Some Vsb.auto0) None)
    (bs "req.http." ++ replicate 127 97) (bs "==") (bs "x") = None.
Proof. vm_compute. reflexivity. Qed.

(** [vsb_finish] clears the mark that [BAN_Insert] tests after it: a ban text that
    overflowed is accepted. *)
Theorem BAN_Insert_overflow_unseen :
  let v := Vsb.VSB_SETFLAG Vsb.auto0 Vsb.VSB_OVERFLOWED in
  Vsb.vsb_overflowed v = true /\
  exists w, BAN_Insert wmagic 8192 (MkBan 0 0 [url_test] [] 0 (Some v) None) 20 false = Some w.
Proof. split; [reflexivity|]. eexists. vm_compute. reflexivity. Qed.

End BanSpec.
