(* ===== verification/Vary.v ===== *)
(** * Vary: variants of an object

    [bin/varnishd/cache_vary.c].  [VRY_Create] encodes the request headers a
    response varies on; [VRY_Match] compares an encoding with another request.
    The allocator of the string buffers is a parameter. *)
From S2P Require Import Prelude Vct Vsb Http.

Module Vary.
Import Http.

Section Create.
Context (malloc_ok : Z -> bool) (junk : Z).

(** The inner loop: the bytes up to white space, a comma or the end. *)
Fixpoint name_len (p : list Z) : nat :=
  match p with
  | c :: r => if (c =? 0) || isspace c || (c =? 44) then 0 else S (name_len r)
  | [] => 0
  end.

Fixpoint skip_space (p : list Z) : list Z :=
  match p with
  | c :: r => if isspace c then skip_space r else p
  | [] => []
  end.

(** Leading and trailing white space off, as both functions do. *)
Definition trim (h : list Z) : list Z :=
  let h := skip_space (c_str h) in
  rev (skip_space (rev h)).

(** The two bytes and the contents for a request header, or "not present". *)
Definition encode_value (sb : Vsb.vsb) (h : option (list Z)) : option Vsb.vsb :=
  match h with
  | Some h =>
    let h := trim h in
    let l := Z.of_nat (length h) in
    assert! Z.ldiff l 0xffff =? 0 ;;
    let? (_, sb) := Vsb.vsb_printf malloc_ok junk sb [u8 (Z.shiftr l 8); u8 (Z.land l 0xff)] in
    let? (_, sb) := Vsb.vsb_bcat malloc_ok junk sb h in Some sb
  | None =>
    let? (_, sb) := Vsb.vsb_printf malloc_ok junk sb [0xff; 0xff] in Some sb
  end.

(** The loop over the value of the Vary header. *)
Fixpoint create_loop (fuel : nat) (req : http) (p : list Z) (sb sbh : Vsb.vsb) : option Vsb.vsb :=
  match fuel with
  | O => None
  | S fuel =>
    if peek p =? 0 then Some sb
    else if isspace (peek p) then create_loop fuel req (tail p) sb sbh
    else
      let n := name_len p in
      let q := drop n p in
      let? sbh := Vsb.vsb_clear sbh in
      let? (_, sbh) := Vsb.vsb_printf malloc_ok junk sbh
                         (u8 (1 + Z.of_nat n) :: take n p ++ [58; 0]) in
      let? sbh := Vsb.vsb_finish sbh in
      assert! negb (Vsb.vsb_overflowed sbh) ;;
      let? _ := Vsb.vsb_data sbh in
      let? len := Vsb.vsb_len sbh in
      let hdr := take (Z.to_nat len) (Vsb.s_buf sbh) in
      let? (_, sb) := Vsb.vsb_bcat malloc_ok junk sb hdr in
      let? h := http_GetHdr req hdr in
      let? sb := encode_value sb h in
      let q := skip_space q in
      if peek q =? 0 then Some sb
      else
        assert! peek q =? 44 ;;
        create_loop fuel req (tail q) sb sbh
  end.

(** [VRY_Create(sp, hp)] with the request [req]; the inner option is NULL.  Every
    turn consumes a byte of the value. *)
Definition VRY_Create (req hp : http) : option (option Vsb.vsb) :=
  let? v := http_GetHdr hp H_Vary in
  match v with
  | None => Some None
  | Some v =>
    let? sb := Vsb.vsb_newauto malloc_ok junk in
    let? sb := sb in
    let? sbh := Vsb.vsb_newauto malloc_ok junk in
    let? sbh := sbh in
    let? sb := create_loop (S (length v)) req v sb sbh in
    let? (_, sb) := Vsb.vsb_printf malloc_ok junk sb [0] in
    let? sb := Vsb.vsb_finish sb in
    assert! negb (Vsb.vsb_overflowed sb) ;;
    Some (Some sb)
  end.
End Create.

(** [VRY_Match(sp, vary)]; every turn consumes at least four bytes. *)
Fixpoint match_loop (fuel : nat) (req : http) (vary : list Z) : option bool :=
  match fuel with
  | O => None
  | S fuel =>
    if peek vary =? 0 then Some true
    else
      let? h := http_GetHdr req vary in
      let vary := drop (Z.to_nat (peek vary + 2)) vary in
      let l := at_ vary 0 * 256 + at_ vary 1 in
      let vary := drop 2 vary in
      match h with
      | Some h =>
        if l =? 0xffff then Some false
        else
          let h := trim h in
          if negb (Z.of_nat (length h) =? l) then Some false
          else if negb (bool_decide (memcmp h (take (Z.to_nat l) vary) = Eq)) then Some false
          else match_loop fuel req (drop (Z.to_nat l) vary)
      | None =>
        if negb (l =? 0xffff) then Some false else match_loop fuel req vary
      end
  end.

Definition VRY_Match (req : http) (vary : list Z) : option bool :=
  match_loop (S (length vary)) req vary.

(** ** What the encoding means *)

(** The value of a request header, white space trimmed. *)
Definition value (req : http) (name : list Z) : option (option (list Z)) :=
  let? h := http_GetHdr req (hdrconst name) in Some (trim <$> h).

Definition encoded1 (name : list Z) (v : option (list Z)) : list Z :=
  hdrconst name ++ 0 ::
  match v with
  | Some h => Z.of_nat (length h) / 256 :: Z.of_nat (length h) mod 256 :: h
  | None => [0xff; 0xff]
  end.

Definition encoded (l : list (list Z * option (list Z))) : list Z :=
  mjoin (map (fun x => encoded1 x.1 x.2) l) ++ [0].

(** A Vary value that lists names: white space, names and commas. *)
Definition spaces (ws : list Z) : Prop := Forall (fun c => isspace c = true) ws.

(** A header name: no byte that would end it, short enough for its length byte. *)
Definition vname (name : list Z) : Prop :=
  name <> [] /\ token name /\ Forall (fun c => isspace c = false /\ c <> 44) name.

Inductive lists : list (list Z) -> list Z -> Prop :=
  | lists_end ws : spaces ws -> lists [] ws
  | lists_last ws name ws' : spaces ws -> vname name -> spaces ws' ->
      lists [name] (ws ++ name ++ ws')
  | lists_more ws name ws' names v : spaces ws -> vname name -> spaces ws' -> lists names v ->
      lists (name :: names) (ws ++ name ++ ws' ++ 44 :: v).

(** The headers a request shows for some names. *)
Definition shows (req : http) (names : list (list Z)) (l : list (list Z * option (list Z))) : Prop :=
  Forall2 (fun name x => x.1 = name /\ value req name = Some x.2) names l.

(** Contents short enough to be told from "not present". *)
Definition short (l : list (list Z * option (list Z))) : Prop :=
  Forall (fun x => forall h, x.2 = Some h -> Z.of_nat (length h) < 0xffff) l.

(** ** Lemmas *)

Lemma GetHdr_embedded hp name rest : token name ->
  http_GetHdr hp (hdrconst name ++ 0 :: rest) = http_GetHdr hp (hdrconst name).
Proof.
  intros Ht. destruct (token_hdr name Ht) as (E1 & E2 & E3 & E4).
  unfold http_GetHdr. rewrite E1, E2, E3, E4.
  change (peek (hdrconst name ++ 0 :: rest)) with (peek (hdrconst name)). rewrite E1.
  change (tail (hdrconst name ++ 0 :: rest)) with ((name ++ [58]) ++ 0 :: rest).
  assert (C : c_str ((name ++ [58]) ++ 0 :: rest) = name ++ [58]).
  { destruct Ht as [Hf _]. assert (N : Forall (fun c => c <> 0) (name ++ [58])).
    { apply Forall_app. split; [|by constructor]. eapply Forall_impl; [exact Hf|simpl; lia]. }
    clear -N. induction N as [|c l Hc Hl IH]; simpl; [done|]. rewrite (proj2 (Z.eqb_neq c 0)) by done.
    f_equal. exact IH. }
  rewrite C. rewrite at_app_l by (unfold hdrconst; simpl; rewrite length_app; simpl; lia).
  rewrite E3. unfold http_findhdr. cbn [Nat.sub]. rewrite Nat.sub_0_r.
  rewrite findhdr_first. assert (F : forall k u, findhdr_loop k u hp (length name) ((name ++ [58]) ++ 0 :: rest)
    = first_hit k u hp name).
  { induction k as [|k IH]; intros u; [done|]. cbn [findhdr_loop first_hit]. unfold hit, matches.
    destruct (get hp u) as [[a b]|]; [|apply IH].
    destruct (Nat.ltb_spec (length b) (length name + 1)) as [L|L].
    - rewrite IH. unfold at_. rewrite lookup_ge_None_2 by lia. simpl. by rewrite andb_false_r.
    - rewrite <- app_assoc, strncaseeq_app by done.
      rewrite <- app_assoc in IH. destruct (at_ b (length name) =? 58), (strncaseeq _ _ _);
        simpl; auto. }
  by rewrite F.
Qed.

Lemma skip_spaces ws r : spaces ws -> skip_space (ws ++ r) = skip_space r.
Proof. induction 1 as [|c l Hc Hl IH]; simpl; [done|]. by rewrite Hc. Qed.

Lemma skip_stop r : isspace (peek r) = false -> skip_space r = r.
Proof. destruct r as [|c r]; simpl; [done|]. by intros ->. Qed.

Lemma name_len_app name r : Forall (fun c => c <> 0 /\ isspace c = false /\ c <> 44) name ->
  peek r = 0 \/ isspace (peek r) = true \/ peek r = 44 -> name_len (name ++ r) = length name.
Proof.
  induction 1 as [|c l (H1 & H2 & H3) Hl IH]; intros Hr; simpl.
  - destruct r as [|c r]; simpl in *; [done|]. destruct Hr as [->|[->| ->]]; [done| |].
    + by rewrite orb_true_r.
    + by rewrite orb_true_r.
  - rewrite H2, (proj2 (Z.eqb_neq c 0)), (proj2 (Z.eqb_neq c 44)) by done. simpl. by rewrite IH.
Qed.

Lemma vname_bytes name : vname name -> Forall (fun c => c <> 0 /\ isspace c = false /\ c <> 44) name.
Proof.
  intros (_ & [Ht _] & Hs). apply Forall_forall. intros c Hc.
  pose proof (proj1 (Forall_forall _ _) Ht c Hc) as K. pose proof (proj1 (Forall_forall _ _) Hs c Hc) as K'.
  simpl in *. destruct K'. split_and!; [lia|done|done].
Qed.

(** The first byte behind white space in front of a name. *)
Lemma vname_peek name r : vname name -> peek (name ++ r) <> 0 /\ isspace (peek (name ++ r)) = false.
Proof.
  intros Hn. pose proof (vname_bytes name Hn) as B. destruct Hn as (Hn & _). destruct name as [|c n]; [done|].
  apply Forall_cons_1 in B as [(B1 & B2 & _) _]. done.
Qed.

Lemma value_total req name : token name -> is_Some (value req name).
Proof. intros Ht. unfold value. destruct (GetHdr_total req name Ht) as [h ->]. eauto. Qed.

Section Encode.
Context (malloc_ok : Z -> bool) (junk : Z) (Hm : forall z, malloc_ok z = true).
Notation printf := (Vsb.vsb_printf malloc_ok junk).

Lemma encode_value_ok sb h : Vsb.open sb -> Vsb.VSB_CANEXTEND sb = true ->
  (forall h', h = Some h' -> Z.of_nat (length (trim h')) < 0xffff) ->
  exists sb', encode_value malloc_ok junk sb h = Some sb' /\
    Vsb.grown sb sb' (match trim <$> h with
      | Some h => Z.of_nat (length h) / 256 :: Z.of_nat (length h) mod 256 :: h
      | None => [0xff; 0xff]
      end).
Proof.
  intros Ho Hc Hl. unfold encode_value. destruct h as [h|]; simpl.
  - specialize (Hl h eq_refl). set (t := trim h) in *. set (l := Z.of_nat (length t)) in *.
    assert (Hl0 : 0 <= l) by (subst l; lia).
    assert (L : Z.ldiff l 0xffff = 0).
    { change 0xffff with (Z.ones 16). rewrite Z.ldiff_ones_r by lia.
      rewrite Z.shiftr_div_pow2 by lia. rewrite Z.div_small by (change (2 ^ 16) with 65536; lia). done. }
    rewrite L. cbn [Z.eqb].
    destruct (Vsb.vsb_printf_grown malloc_ok junk Hm sb [u8 (Z.shiftr l 8); u8 (Z.land l 0xff)] Ho Hc)
      as (s1 & -> & G1).
    destruct (Vsb.vsb_bcat_grown malloc_ok junk Hm s1 t) as (s2 & -> & G2); [apply G1..|].
    exists s2. split; [done|]. pose proof (Vsb.grown_trans _ _ _ _ _ G1 G2) as G.
    cbn [app] in G. replace (u8 (Z.shiftr l 8)) with (l / 256) in G.
    2:{ rewrite Z.shiftr_div_pow2 by lia. change (2 ^ 8) with 256. unfold u8.
        change (2 ^ 8) with 256. rewrite Z.mod_small; [done|]. Z.div_mod_to_equations; lia. }
    replace (u8 (Z.land l 0xff)) with (l mod 256) in G; [exact G|].
    change 0xff with (Z.ones 8). rewrite Z.land_ones by lia. unfold u8. change (2 ^ 8) with 256.
    by rewrite Z.mod_mod.
  - destruct (Vsb.vsb_printf_grown malloc_ok junk Hm sb [0xff; 0xff] Ho Hc) as (s1 & -> & G1). eauto.
Qed.

(** One name: the header string is built and appended, and the value after it. *)
Lemma create_name sb sbh name (req : http) (h : option (list Z)) :
  Vsb.open sb -> Vsb.VSB_CANEXTEND sb = true -> Vsb.wf sbh -> Vsb.VSB_CANEXTEND sbh = true ->
  vname name -> http_GetHdr req (hdrconst name) = Some h ->
  (forall h', h = Some h' -> Z.of_nat (length (trim h')) < 0xffff) ->
  exists sb' sbh', Vsb.wf sbh' /\ Vsb.VSB_CANEXTEND sbh' = true /\
    Vsb.grown sb sb' (encoded1 name (trim <$> h)) /\
    forall k : Vsb.vsb -> Vsb.vsb -> option Vsb.vsb,
    (let? sbh := Vsb.vsb_clear sbh in
     let? (_, sbh) := printf sbh (u8 (1 + Z.of_nat (length name)) :: name ++ [58; 0]) in
     let? sbh := Vsb.vsb_finish sbh in
     assert! negb (Vsb.vsb_overflowed sbh) ;;
     let? _ := Vsb.vsb_data sbh in
     let? len := Vsb.vsb_len sbh in
     let hdr := take (Z.to_nat len) (Vsb.s_buf sbh) in
     let? (_, sb) := Vsb.vsb_bcat malloc_ok junk sb hdr in
     let? h := http_GetHdr req hdr in
     let? sb := encode_value malloc_ok junk sb h in
     k sb sbh) = k sb' sbh'.
Proof.
  intros Ho Hc Hw Hc2 Hn Hh Hl. pose proof Hn as (_ & Ht & _).
  destruct (Vsb.vsb_clear_spec sbh Hw) as (s1 & -> & O1 & C1 & X1). rewrite Hc2 in X1.
  set (hdr := u8 (1 + Z.of_nat (length name)) :: name ++ [58; 0]).
  destruct (Vsb.vsb_printf_grown malloc_ok junk Hm s1 hdr O1 X1) as (s2 & -> & O2 & X2 & C2).
  rewrite C1 in C2. cbn [app] in C2.
  destruct (Vsb.vsb_finish_spec s2 O2) as (s3 & -> & V3 & W3 & C3 & L3 & N3 & X3 & D3).
  rewrite V3, N3, D3. cbn [negb].
  assert (T : take (Z.to_nat (Vsb.s_len s2)) (Vsb.s_buf s3) = hdr).
  { rewrite <- L3. change (Vsb.content s3 = hdr). congruence. }
  cbv zeta. rewrite T.
  assert (E : hdr = hdrconst name ++ [0]).
  { subst hdr. unfold hdrconst. rewrite <- app_comm_cons, <- app_assoc. cbn [app].
    destruct Ht as [_ Hlen]. unfold u8. rewrite Z.mod_small by (change (2 ^ 8) with 256; lia).
    do 2 f_equal. lia. }
  destruct (Vsb.vsb_bcat_grown malloc_ok junk Hm sb hdr Ho Hc) as (s4 & E4 & G4).
  destruct (encode_value_ok s4 h) as (s5 & E5 & G5); [apply G4..|done|].
  exists s5, s3. split; [done|]. split; [congruence|]. split.
  - pose proof (Vsb.grown_trans _ _ _ _ _ G4 G5) as G. rewrite E, <- app_assoc in G. exact G.
  - intros k. rewrite E4, E, GetHdr_embedded, Hh, E5 by done. done.
Qed.

Notation loop := (create_loop malloc_ok junk).

Lemma isspace_nonnul c : isspace c = true -> (c =? 0) = false.
Proof. unfold isspace. lia. Qed.

Lemma create_skip req ws r sb sbh : spaces ws -> forall fuel, (length (ws ++ r) < fuel)%nat ->
  exists fuel', (length r < fuel')%nat /\ loop fuel req (ws ++ r) sb sbh = loop fuel' req r sb sbh.
Proof.
  induction 1 as [|c ws Hc Hw IH]; intros fuel Hf; [eauto|].
  destruct fuel as [|fuel]; [lia|]. simpl in Hf. destruct (IH fuel) as (f' & L & E); [lia|].
  exists f'. split; [done|]. cbn [app create_loop peek tail].
  rewrite (isspace_nonnul c Hc), Hc. exact E.
Qed.

Lemma create_end req ws sb sbh fuel : spaces ws -> (length ws < fuel)%nat ->
  loop fuel req ws sb sbh = Some sb.
Proof.
  intros Hw Hf. destruct (create_skip req ws [] sb sbh Hw fuel) as (f' & L & E);
    [by rewrite app_nil_r|]. rewrite app_nil_r in E. rewrite E. destruct f'; [simpl in L; lia|done].
Qed.

(** A turn of the loop on a name. *)
Lemma create_turn req fuel name r sb sbh x : vname name ->
  peek r = 0 \/ isspace (peek r) = true \/ peek r = 44 ->
  value req name = Some x -> (forall h, x = Some h -> Z.of_nat (length h) < 0xffff) ->
  Vsb.open sb -> Vsb.VSB_CANEXTEND sb = true -> Vsb.wf sbh -> Vsb.VSB_CANEXTEND sbh = true ->
  exists sb' sbh', Vsb.wf sbh' /\ Vsb.VSB_CANEXTEND sbh' = true /\
    Vsb.grown sb sb' (encoded1 name x) /\
    loop (S fuel) req (name ++ r) sb sbh =
      (let q := skip_space r in
       if peek q =? 0 then Some sb' else assert! peek q =? 44 ;; loop fuel req (tail q) sb' sbh').
Proof.
  intros Hn Hr Hv Hx Ho Hc Hw Hc2. unfold value in Hv.
  destruct (http_GetHdr req (hdrconst name)) as [h|] eqn:Eh; [|done]. injection Hv as <-.
  destruct (create_name sb sbh name req h Ho Hc Hw Hc2 Hn Eh) as (sb' & sbh' & W & X & G & K).
  { intros h' ->. apply Hx. done. }
  exists sb', sbh'. split; [done|]. split; [done|]. split; [done|].
  destruct (vname_peek name r Hn) as [P1 P2]. cbn [create_loop].
  rewrite (proj2 (Z.eqb_neq _ 0)), P2 by done.
  rewrite (name_len_app name r (vname_bytes name Hn) Hr), take_app_length, drop_app_length.
  exact (K (fun sb sbh => if peek (skip_space r) =? 0 then Some sb
            else assert! peek (skip_space r) =? 44 ;; loop fuel req (tail (skip_space r)) sb sbh)).
Qed.

Lemma spaces_stop ws r : spaces ws -> (peek r = 0 \/ peek r = 44) ->
  (peek (ws ++ r) = 0 \/ isspace (peek (ws ++ r)) = true \/ peek (ws ++ r) = 44) /\
  skip_space (ws ++ r) = r.
Proof.
  intros Hw Hr. rewrite skip_spaces by done. split.
  - destruct Hw; simpl; [tauto|auto].
  - apply skip_stop. destruct Hr as [->| ->]; done.
Qed.

Lemma create_loop_spec req names v : lists names v -> forall l sb sbh fuel,
  (length v < fuel)%nat -> shows req names l -> short l ->
  Vsb.open sb -> Vsb.VSB_CANEXTEND sb = true -> Vsb.wf sbh -> Vsb.VSB_CANEXTEND sbh = true ->
  exists sb', loop fuel req v sb sbh = Some sb' /\
    Vsb.grown sb sb' (mjoin (map (fun x => encoded1 x.1 x.2) l)).
Proof.
  induction 1 as [ws Hw|ws name ws' Hw Hn Hw'|ws name ws' names v Hw Hn Hw' Hl IH];
    intros l sb sbh fuel Hf Hs Hsh Ho Hc Hwf Hc2.
  - apply Forall2_nil_inv_l in Hs as ->. rewrite create_end by done. exists sb.
    unfold Vsb.grown. simpl. by rewrite app_nil_r.
  - apply Forall2_cons_inv_l in Hs as ([n x] & l' & [E1 E2] & Hs & ->). simpl in E1, E2. subst n.
    apply Forall2_nil_inv_l in Hs as ->. apply Forall_cons_1 in Hsh as [Hx _].
    destruct (create_skip req ws (name ++ ws') sb sbh Hw fuel Hf) as (f' & L & ->).
    destruct f' as [|f']; [lia|]. pose proof (spaces_stop ws' [] Hw') as Q. rewrite app_nil_r in Q.
    destruct Q as [Q1 Q2]; [by left|].
    destruct (create_turn req f' name ws' sb sbh x Hn Q1 E2 Hx Ho Hc Hwf Hc2) as (sb' & sbh' & _ & _ & G & ->).
    rewrite Q2. exists sb'. split; [done|]. simpl. by rewrite app_nil_r.
  - apply Forall2_cons_inv_l in Hs as ([n x] & l' & [E1 E2] & Hs & ->). simpl in E1, E2. subst n.
    apply Forall_cons_1 in Hsh as [Hx Hsh].
    destruct (create_skip req ws (name ++ ws' ++ 44 :: v) sb sbh Hw fuel Hf) as (f' & L & ->).
    destruct f' as [|f']; [lia|]. destruct (spaces_stop ws' (44 :: v) Hw') as [Q1 Q2]; [by right|].
    destruct (create_turn req f' name (ws' ++ 44 :: v) sb sbh x Hn Q1 E2 Hx Ho Hc Hwf Hc2)
      as (sb' & sbh' & W & X & G & ->).
    rewrite Q2. cbn [peek tail]. change (44 =? 0) with false. change (44 =? 44) with true.
    cbn iota. rewrite !length_app in L. cbn [length] in L.
    destruct (IH l' sb' sbh' f' ltac:(lia) Hs Hsh) as (sb2 & E & G2); [apply G|apply G|done..|].
    exists sb2. split; [exact E|]. exact (Vsb.grown_trans _ _ _ _ _ G G2).
Qed.

Lemma newauto_ok : exists s, Vsb.vsb_newauto malloc_ok junk = Some (Some s) /\ Vsb.open s /\
  Vsb.VSB_CANEXTEND s = true /\ Vsb.content s = [].
Proof.
  unfold Vsb.vsb_newauto, Vsb.vsb_new. rewrite Hm. cbn [orb]. change (0 <=? 0) with true.
  change (Z.ldiff Vsb.VSB_AUTOEXTEND Vsb.VSB_USRFLAGMSK =? 0) with true. cbn iota. cbv zeta.
  rewrite Hm. eexists. split; [reflexivity|]. split; [|done].
  unfold Vsb.open, Vsb.wf. vm_compute. split_and!; congruence.
Qed.

Lemma create_spec req hp v names l : http_GetHdr hp H_Vary = Some (Some v) -> lists names v ->
  shows req names l -> short l ->
  exists sb, VRY_Create malloc_ok junk req hp = Some (Some sb) /\ Vsb.content sb = encoded l.
Proof.
  intros Hv Hl Hs Hsh. unfold VRY_Create. rewrite Hv.
  destruct newauto_ok as (s & -> & O & X & C).
  destruct (create_loop_spec req names v Hl l s s (S (length v)) ltac:(lia) Hs Hsh O X (proj1 O) X)
    as (s1 & -> & O1 & X1 & C1).
  destruct (Vsb.vsb_printf_grown malloc_ok junk Hm s1 [0] O1 X1) as (s2 & -> & O2 & _ & C2).
  destruct (Vsb.vsb_finish_spec s2 O2) as (s3 & -> & V & _ & C3 & _). rewrite V. cbn [negb].
  exists s3. split; [done|]. rewrite C3, C2, C1, C. done.
Qed.
End Encode.

(** ** Matching *)

Lemma value_some req name h : value req name = Some h -> exists h0,
  http_GetHdr req (hdrconst name) = Some h0 /\ h = trim <$> h0.
Proof. unfold value. destruct (http_GetHdr _ _) as [h0|]; [|done]. intros [= <-]. eauto. Qed.

Lemma two_bytes n : 0 <= n -> n / 256 * 256 + n mod 256 = n.
Proof. intros. rewrite (Z.div_mod n 256) at 3 by lia. lia. Qed.

(** One encoded header against a request. *)
Lemma match_step fuel req name x r : token name ->
  (forall h, x = Some h -> Z.of_nat (length h) < 0xffff) ->
  match_loop (S fuel) req (encoded1 name x ++ r) =
    if bool_decide (value req name = Some x) then match_loop fuel req r else Some false.
Proof.
  intros Ht Hx. destruct (value_total req name Ht) as [y Hy]. rewrite Hy.
  destruct (value_some _ _ _ Hy) as (h0 & Eh & Ey).
  set (body := match x with Some h => Z.of_nat (length h) / 256 :: Z.of_nat (length h) mod 256 :: h
               | None => [0xff; 0xff] end).
  change (encoded1 name x) with (hdrconst name ++ 0 :: body). rewrite <- app_assoc. cbn [app].
  destruct (token_hdr name Ht) as (E1 & E2 & E3 & E4).
  assert (P : peek (hdrconst name ++ 0 :: body ++ r) = Z.of_nat (length name + 1)) by done.
  cbn [match_loop]. rewrite P, (proj2 (Z.eqb_neq _ 0)) by lia.
  rewrite GetHdr_embedded, Eh by done.
  replace (Z.to_nat (Z.of_nat (length name + 1) + 2)) with (length (hdrconst name) + 1)%nat
    by (unfold hdrconst; simpl; rewrite length_app; simpl; lia).
  rewrite drop_app_add. cbn [drop]. rewrite !drop_0. subst body.
  destruct x as [h|].
  - specialize (Hx h eq_refl). set (n := Z.of_nat (length h)) in *.
    cbn [app]. rewrite at_cons_0, at_cons_S, at_cons_0. cbn [drop]. rewrite ?drop_0.
    rewrite two_bytes by lia. rewrite (proj2 (Z.eqb_neq n 0xffff)) by lia. cbn [negb].
    destruct h0 as [g|]; simpl in Ey; subst y; cbv beta iota zeta.
    + destruct (Z.eqb_spec (Z.of_nat (length (trim g))) n) as [En|Nn]; cbn [negb].
      * assert (Lg : length (trim g) = length h) by lia.
        replace (Z.to_nat n) with (length h) by lia. rewrite take_app_length, drop_app_length.
        destruct (decide (trim g = h)) as [Eg|Ng].
        { rewrite (bool_decide_true (memcmp (trim g) h = Eq)) by (by apply memcmp_eq).
          by rewrite bool_decide_true by congruence. }
        rewrite (bool_decide_false (memcmp (trim g) h = Eq)) by (by rewrite memcmp_eq).
        rewrite bool_decide_false by congruence. done.
      * rewrite bool_decide_false; [done|]. intros [= K]. apply Nn. subst n. by rewrite K.
    + by rewrite bool_decide_false.
  - cbn [app]. rewrite at_cons_0, at_cons_S, at_cons_0. cbn [drop]. rewrite ?drop_0.
    change (255 * 256 + 255 =? 65535) with true. cbn [negb].
    destruct h0 as [g|]; simpl in Ey; subst y; cbv beta iota zeta; [by rewrite bool_decide_false|by rewrite bool_decide_true].
Qed.

Lemma match_loop_spec req l : forall fuel, (length l < fuel)%nat ->
  Forall (fun x => token x.1) l -> short l ->
  match_loop fuel req (encoded l) = Some (forallb (fun x => bool_decide (value req x.1 = Some x.2)) l).
Proof.
  induction l as [|[name x] l IH]; intros fuel Hf Ht Hs; (destruct fuel as [|fuel]; [simpl in Hf; lia|]).
  - done.
  - apply Forall_cons_1 in Ht as [Ht1 Ht]. apply Forall_cons_1 in Hs as [Hs1 Hs]. simpl in Hf, Ht1, Hs1.
    unfold encoded. cbn [map mjoin list_join]. rewrite <- app_assoc.
    rewrite match_step by done. cbn [forallb]. simpl. case_bool_decide; [|done].
    cbn [andb]. exact (IH fuel ltac:(lia) Ht Hs).
Qed.

Lemma lists_tokens names v : lists names v -> Forall (fun n => token n) names.
Proof.
  induction 1 as [ws Hw|ws name ws' Hw Hn Hw'|ws name ws' names v Hw Hn Hw' Hl IH];
    [constructor|constructor; [apply Hn|constructor]|constructor; [apply Hn|done]].
Qed.

Lemma encoded_len l : (length l < length (encoded l))%nat.
Proof.
  unfold encoded. rewrite length_app. simpl. induction l as [|x l IH]; simpl; [lia|].
  rewrite length_app. simpl in *. lia.
Qed.

(** ** The properties *)

(** C35: [VRY_Create] writes, for every header the Vary field lists, the header's
    match string and the request's trimmed value or the mark for "not present";
    [VRY_Match] never fails on it, and accepts exactly the requests that show
    the same value, or the same absence, for every one of these headers. *)
Theorem VRY_Create_Match (malloc_ok : Z -> bool) (junk : Z) (req hp : http) (v : list Z) names l
  (Hm : forall z, malloc_ok z = true) (Hv : http_GetHdr hp H_Vary = Some (Some v))
  (Hl : lists names v) (Hs : shows req names l) (Hsh : short l) :
  exists sb, VRY_Create malloc_ok junk req hp = Some (Some sb) /\ Vsb.content sb = encoded l /\
    forall req', exists b, VRY_Match req' (Vsb.content sb) = Some b /\
      (b = true <-> forall name, name ∈ names -> value req' name = value req name).
Proof.
  destruct (create_spec malloc_ok junk Hm req hp v names l Hv Hl Hs Hsh) as (sb & E & C).
  exists sb. split; [done|]. split; [done|]. intros req'. rewrite C. unfold VRY_Match.
  pose proof (lists_tokens names v Hl) as Ht. eexists. split.
  { apply match_loop_spec; [pose proof (encoded_len l); lia| |done].
    clear -Ht Hs. induction Hs as [|n x names l [<- _] Hs IH]; constructor.
    - by apply Forall_cons_1 in Ht as [? _].
    - apply IH. by apply Forall_cons_1 in Ht as [_ ?]. }
  rewrite forallb_forall. clear -Hs. induction Hs as [|n [n' x] names l [E1 E2] Hs IH].
  - split; [intros _ n Hn; by apply not_elem_of_nil in Hn|intros _ x []].
  - simpl in E1, E2. subst n'. split.
    + intros K m Hm. apply elem_of_cons in Hm as [->|Hm].
      * specialize (K (n, x) (or_introl eq_refl)). apply bool_decide_eq_true in K. simpl in K. congruence.
      * apply IH; [|done]. intros y Hy. apply K. by right.
    + intros K y [<-|Hy].
      * apply bool_decide_eq_true. simpl. rewrite K by (left). congruence.
      * apply IH; [|done]. intros m Hm. apply K. by right.
Qed.

(** A response that varies on two headers, one of them not in the request. *)
Definition resp0 : http :=
  Http false 200 11 8
    [None; None; Some (0, bs "HTTP/1.1"); Some (9, bs "200"); Some (13, bs "OK");
     Some (16, bs "Vary: Host , X-B"); None; None]
    (replicate 8 0) 6.

Lemma vname_intro name : forallb (fun c => (0 <? c) && (c <? 256) && negb (c =? 58) && negb (isspace c)
    && negb (c =? 44)) name = true -> 0 < Z.of_nat (length name) < 127 -> vname name.
Proof.
  intros Hf Hl. rewrite forallb_forall in Hf.
  assert (K : Forall (fun c => (0 < c < 256 /\ c <> 58) /\ isspace c = false /\ c <> 44) name).
  { apply Forall_forall. intros c Hc. apply list_elem_of_In, Hf in Hc. destruct (isspace c); lia. }
  apply Forall_and in K as [K1 K2]. split; [destruct name; [simpl in Hl; lia|done]|]. split; [|done]. split; [done|lia].
Qed.

Lemma VRY_Create_Match_witness :
  exists sb, VRY_Create (fun _ => true) 0 req0 resp0 = Some (Some sb) /\
    Vsb.content sb = [5; 72; 111; 115; 116; 58; 0; 0; 1; 97; 4; 88; 45; 66; 58; 0; 255; 255; 0] /\
    VRY_Match req0 (Vsb.content sb) = Some true /\ VRY_Match resp0 (Vsb.content sb) = Some false.
Proof.
  destruct (VRY_Create_Match (fun _ => true) 0 req0 resp0 (bs "Host , X-B") [bs "Host"; bs "X-B"]
    [(bs "Host", Some (bs "a")); (bs "X-B", None)]) as (sb & E & C & _).
  - done.
  - reflexivity.
  - apply (lists_more [] (bs "Host") (bs " ") [bs "X-B"] (bs " X-B")); [constructor| |by repeat constructor|].
    + by apply vname_intro.
    + apply (lists_last (bs " ") (bs "X-B") []); [by repeat constructor|by apply vname_intro|constructor].
  - repeat constructor.
  - repeat constructor; simpl; intros h [= <-]. simpl. lia.
  - exists sb. split; [exact E|]. split; [exact C|]. rewrite C. by split; vm_compute.
Defined.

(** A Vary field without a comma between two names aborts the child. *)
Lemma VRY_Create_no_comma :
  VRY_Create (fun _ => true) 0 req0 (put resp0 5 (Some (16, bs "Vary: Host X-B")) 0) = None.
Proof. vm_compute. reflexivity. Qed.

(** A header name of 127 bytes or more aborts it too: the length byte of the match
    string is read as a signed character. *)
Lemma GetHdr_long_name hp name : 127 <= Z.of_nat (length name) < 255 ->
  http_GetHdr hp (u8 (1 + Z.of_nat (length name)) :: name ++ [58; 0]) = None.
Proof.
  intros Hl. unfold http_GetHdr. cbn [peek tail]. unfold u8. rewrite Z.mod_small by (change (2 ^ 8) with 256; lia).
  unfold schar. rewrite (proj2 (Z.ltb_ge _ 128)) by lia.
  assert (L : Z.of_nat (length (c_str (name ++ [58; 0]))) <= Z.of_nat (length name) + 2).
  { replace (Z.of_nat (length name) + 2) with (Z.of_nat (length (name ++ [58; 0]))) by (rewrite length_app; simpl; lia).
    generalize (name ++ [58; 0]). intros s. induction s as [|c s IH]; simpl; [lia|].
    destruct (c =? 0); simpl; lia. }
  assert (U : 2 ^ 31 <= u32 (1 + Z.of_nat (length name) - 256)).
  { unfold u32. rewrite <- (Z.mod_add _ 1) by done. rewrite Z.mod_small; lia. }
  rewrite (proj2 (Nat.eqb_neq _ _)); [done|]. lia.
Qed.

(** A value of 65535 bytes is encoded with the two bytes that mean "not present". *)
Lemma encode_value_ambiguous (malloc_ok : Z -> bool) junk sb h (Hm : forall z, malloc_ok z = true) :
  Vsb.open sb -> Vsb.VSB_CANEXTEND sb = true -> Z.of_nat (length (trim h)) = 0xffff ->
  exists sb', encode_value malloc_ok junk sb (Some h) = Some sb' /\
    Vsb.grown sb sb' ([0xff; 0xff] ++ trim h).
Proof.
  intros Ho Hc Hl. unfold encode_value. cbv zeta. rewrite Hl.
  change (Z.ldiff 65535 65535 =? 0) with true. cbn iota.
  change [u8 (Z.shiftr 65535 8); u8 (Z.land 65535 255)] with [255; 255].
  destruct (Vsb.vsb_printf_grown malloc_ok junk Hm sb [255; 255] Ho Hc) as (s1 & -> & G1).
  destruct (Vsb.vsb_bcat_grown malloc_ok junk Hm s1 (trim h)) as (s2 & -> & G2); [apply G1..|].
  exists s2. split; [done|]. exact (Vsb.grown_trans _ _ _ _ _ G1 G2).
Qed.

End Vary.
