(* ===== verification/BinHeap.v ===== *)
(** * BinHeap: the binary heap of timers

    [lib/libvarnish/binary_heap.c]: a heap laid out so that a walk from the root
    to a leaf touches few memory pages.  Items are named by their address.  The
    client's state [St] is what its [cmp] and [update] callbacks read and write;
    the class [Items] is the contract between the heap and its client.  [None] is
    a failed assertion or an access outside the allocated rows. *)
From Stdlib Require Import Lexicographic_Product Relation_Operators Inverse_Image.
From S2P Require Import Prelude.

Module BinHeap.

Definition ROW_SHIFT : Z := 16.
Definition ROOT_IDX : Z := 1.
Definition ROW_WIDTH : Z := Z.shiftl 1 ROW_SHIFT.

(** The array of rows, [true] for an allocated one, and what is in the slots. *)
Record binheap := Binheap {
  array : list bool;
  slots : gmap Z Z;
  length_ : Z;
  next : Z;
  page_size : Z;
  page_mask : Z;
  page_shift : Z
}.

Definition set_slots (bh : binheap) (m : gmap Z Z) : binheap :=
  Binheap (array bh) m (length_ bh) (next bh) (page_size bh) (page_mask bh) (page_shift bh).
Definition set_next (bh : binheap) (n : Z) : binheap :=
  Binheap (array bh) (slots bh) (length_ bh) n (page_size bh) (page_mask bh) (page_shift bh).
Definition set_rows (bh : binheap) (r : list bool) (l : Z) : binheap :=
  Binheap r (slots bh) l (next bh) (page_size bh) (page_mask bh) (page_shift bh).

Definition row_of (n : Z) : nat := Z.to_nat (Z.shiftr n ROW_SHIFT).
Definition row (bh : binheap) (n : Z) : bool := default false (array bh !! row_of n).

(** [A(bh, n)] read and written.  A slot that was never written has no value. *)
Definition A (bh : binheap) (n : Z) : option Z := assert! row bh n ;; slots bh !! n.
Definition set_A (bh : binheap) (n p : Z) : option binheap :=
  assert! row bh n ;; Some (set_slots bh (<[n := p]> (slots bh))).

Definition parent (bh : binheap) (u : Z) : Z :=
  let po := Z.land u (page_mask bh) in
  if (u <? page_size bh) || (3 <? po) then
    Z.lor (Z.land u (u32 (Z.lnot (page_mask bh)))) (Z.shiftr po 1)
  else if po <? 2 then
    let v := Z.shiftr (u32 (u - page_size bh)) (page_shift bh) in
    let v := u32 (v + Z.land v (u32 (Z.lnot (Z.shiftr (page_mask bh) 1)))) in
    Z.lor v (page_size bh / 2)
  else u32 (u - 2).

(** [child(bh, u, &a, &b)], where [b] comes in with what the variable held. *)
Definition child (bh : binheap) (u b : Z) : Z * Z :=
  if (page_mask bh <? u) && (Z.land u (u32 (page_mask bh - 1)) =? 0) then
    let a := u32 (u + 2) in (a, a)
  else if negb (Z.land u (Z.shiftr (page_size bh) 1) =? 0) then
    let a := Z.shiftr (Z.land u (u32 (Z.lnot (page_mask bh)))) 1 in
    let a := Z.lor a (Z.land u (Z.shiftr (page_mask bh) 1)) in
    let a := u32 (a + 1) in
    let a := u32 (Z.shiftl a (page_shift bh)) in
    (a, u32 (a + 1))
  else (u32 (u + Z.land u (page_mask bh)), u32 (b + 1)).

Section Heap.
Context {St : Type} (cmp : St -> Z -> Z -> option bool) (update : option (St -> Z -> Z -> option St)).
Context (malloc_ok : Z -> bool).

Definition binheap_addrow (bh : binheap) : option binheap :=
  let? rows :=
    if (length (array bh) <=? row_of (length_ bh))%nat then
      let u := (length (array bh) * 2)%nat in
      assert! malloc_ok (8 * Z.of_nat u) ;;
      Some (array bh ++ replicate (u - length (array bh)) false)
    else Some (array bh) in
  assert! bool_decide (rows !! row_of (length_ bh) = Some false) ;;
  assert! malloc_ok (8 * ROW_WIDTH) ;;
  Some (set_rows bh (<[row_of (length_ bh) := true]> rows) (u32 (length_ bh + ROW_WIDTH))).

(** The exponent of the page size. *)
Fixpoint shift_loop (fuel : nat) (u ps : Z) : option Z :=
  match fuel with
  | O => None
  | S fuel => if u32 (Z.shiftl 1 u) =? ps then Some u else shift_loop fuel (u + 1) ps
  end.

(** [binheap_new(priv, cmp, update)]; the inner option is NULL. *)
Definition binheap_new (pagesize : Z) : option (option binheap) :=
  if negb (malloc_ok 72) then Some None else
  let ps := Z.quot (u32 pagesize) 8 in
  let mask := u32 (ps - 1) in
  assert! Z.land ps mask =? 0 ;;
  let? sh := shift_loop 32 1 ps in
  assert! ps <=? 8 * ROW_WIDTH ;;
  assert! malloc_ok (8 * 16) ;;
  let? bh := binheap_addrow (Binheap (replicate 16 false) ∅ 0 ROOT_IDX ps mask sh) in
  let? bh := set_A bh ROOT_IDX 0 in
  Some (Some bh).

Definition binheap_update (s : St) (bh : binheap) (u : Z) : option St :=
  assert! u <? next bh ;;
  let? p := A bh u in
  assert! negb (p =? 0) ;;
  match update with
  | None => Some s
  | Some f => f s p u
  end.

Definition binhead_swap (s : St) (bh : binheap) (u v : Z) : option (St * binheap) :=
  assert! u <? next bh ;;
  assert! v <? next bh ;;
  let? p := A bh u in
  let? q := A bh v in
  let? bh := set_A bh u q in
  let? bh := set_A bh v p in
  let? s := binheap_update s bh u in
  let? s := binheap_update s bh v in
  Some (s, bh).

Fixpoint trickleup (fuel : nat) (s : St) (bh : binheap) (u : Z) : option (St * binheap * Z) :=
  match fuel with
  | O => None
  | S fuel =>
    if ROOT_IDX <? u then
      let v := parent bh u in
      let? p := A bh u in
      let? q := A bh v in
      let? c := cmp s p q in
      if negb c then Some (s, bh, u)
      else let? (s, bh) := binhead_swap s bh u v in trickleup fuel s bh v
    else Some (s, bh, u)
  end.

(** An index shrinks on its way to the root. *)
Definition binheap_trickleup (s : St) (bh : binheap) (u : Z) : option (St * binheap * Z) :=
  trickleup (Z.to_nat u + 1) s bh u.

(** [v2] is the automatic variable, uninitialised at first. *)
Fixpoint binheap_trickledown (fuel : nat) (s : St) (bh : binheap) (u v2 : Z) : option (St * binheap) :=
  match fuel with
  | O => None
  | S fuel =>
    let '(v1, v2) := child bh u v2 in
    if next bh <=? v1 then Some (s, bh)
    else
      let? c2 := if v2 <? next bh then
                   let? p2 := A bh v2 in let? p1 := A bh v1 in cmp s p2 p1
                 else Some false in
      let v1 := if c2 then v2 else v1 in
      let? p := A bh u in
      let? p1 := A bh v1 in
      let? c := cmp s p p1 in
      if c then Some (s, bh)
      else let? (s, bh) := binhead_swap s bh u v1 in binheap_trickledown fuel s bh v1 v2
  end.

Definition binheap_insert (s : St) (bh : binheap) (p : Z) : option (St * binheap) :=
  assert! next bh <=? length_ bh ;;
  let? bh := if length_ bh =? next bh then binheap_addrow bh else Some bh in
  let u := next bh in
  let bh := set_next bh (u32 (next bh + 1)) in
  let? bh := set_A bh u p in
  let? s := binheap_update s bh u in
  let? (s, bh, _) := binheap_trickleup s bh u in
  Some (s, bh).

Definition binheap_root (bh : binheap) : option Z := A bh ROOT_IDX.

(** The last row goes back to the system. *)
Definition drop_row (bh : binheap) : binheap :=
  let r := row_of (length_ bh - 1) in
  let bh := set_slots bh (filter (fun x => row_of x.1 <> r) (slots bh)) in
  set_rows bh (<[r := false]> (array bh)) (u32 (length_ bh - ROW_WIDTH)).

(** [binheap_delete(bh, idx)]; [junk] is what [v2] holds at the start. *)
Definition binheap_delete (fuel : nat) (junk : Z) (s : St) (bh : binheap) (idx : Z)
  : option (St * binheap) :=
  assert! ROOT_IDX <? next bh ;;
  assert! idx <? next bh ;;
  assert! 0 <? idx ;;
  let? p := A bh idx in
  assert! negb (p =? 0) ;;
  let? f := update in
  let? s := f s p 0 in
  let bh := set_next bh (u32 (next bh - 1)) in
  if idx =? next bh then
    let? bh := set_A bh (next bh) 0 in Some (s, bh)
  else
    let? t := A bh (next bh) in
    let? bh := set_A bh idx t in
    let? bh := set_A bh (next bh) 0 in
    let? s := binheap_update s bh idx in
    let? (s, bh, idx) := binheap_trickleup s bh idx in
    let? (s, bh) := binheap_trickledown fuel s bh idx junk in
    Some (s, if u32 (next bh + 2 * ROW_WIDTH) <=? length_ bh then drop_row bh else bh).
End Heap.

(** ** The layout *)

(** Pages of [2 ^ k] slots. *)
Definition geometry (bh : binheap) (k : Z) : Prop :=
  2 <= k <= 19 /\ page_size bh = 2 ^ k /\ page_mask bh = 2 ^ k - 1 /\ page_shift bh = k.

Lemma pow_range k : 2 <= k <= 19 -> 4 <= 2 ^ k <= 524288.
Proof.
  intros H. change 4 with (2 ^ 2). change 524288 with (2 ^ 19).
  split; apply Z.pow_le_mono_r; lia.
Qed.

Lemma ones_pow k : Z.ones k = 2 ^ k - 1.
Proof. rewrite Z.ones_equiv. lia. Qed.

Lemma land_low k u : 0 <= k -> Z.land u (2 ^ k - 1) = u mod 2 ^ k.
Proof. intros. rewrite <- ones_pow. by apply Z.land_ones. Qed.

Lemma land_high k u : 0 <= k <= 32 -> 0 <= u < 2 ^ 32 ->
  Z.land u (u32 (Z.lnot (2 ^ k - 1))) = u / 2 ^ k * 2 ^ k.
Proof.
  intros Hk Hu. unfold u32. rewrite <- Z.land_ones by lia.
  rewrite (Z.land_comm (Z.lnot _)), Z.land_assoc, Z.land_ones, Z.mod_small by lia.
  rewrite <- Z.ldiff_land, <- ones_pow, Z.ldiff_ones_r by lia.
  by rewrite Z.shiftl_mul_pow2, Z.shiftr_div_pow2 by lia.
Qed.

(** The two first elements of a page. *)
Lemma land_first k u : 2 <= k -> (Z.land u (2 ^ k - 2) =? 0) = (u mod 2 ^ k <? 2).
Proof.
  intros Hk. assert (P : 2 ^ k = 2 * 2 ^ (k - 1)) by (rewrite <- Z.pow_succ_r by lia; f_equal; lia).
  assert (E : 2 ^ k - 2 = Z.ldiff (2 ^ k - 1) (Z.ones 1)).
  { rewrite Z.ldiff_ones_r, Z.shiftl_mul_pow2, Z.shiftr_div_pow2 by lia. change (2 ^ 1) with 2.
    pose proof (Z.pow_pos_nonneg 2 (k - 1)). Z.div_mod_to_equations; lia. }
  rewrite E, !Z.ldiff_land, Z.land_assoc, <- Z.ldiff_land, land_low, Z.ldiff_ones_r,
    Z.shiftl_mul_pow2, Z.shiftr_div_pow2 by lia. change (2 ^ 1) with 2.
  pose proof (Z.mod_pos_bound u (2 ^ k) ltac:(lia)).
  destruct (Z.ltb_spec (u mod 2 ^ k) 2); lia || (apply Z.eqb_neq; Z.div_mod_to_equations; lia)
    || (apply Z.eqb_eq; Z.div_mod_to_equations; lia).
Qed.

(** The bottom row of a page. *)
Lemma land_bottom k u : 2 <= k -> 0 <= u ->
  negb (Z.land u (2 ^ (k - 1)) =? 0) = (2 ^ (k - 1) <=? u mod 2 ^ k).
Proof.
  intros Hk Hu. rewrite <- (Z.shiftl_1_l (k - 1)) at 1. rewrite bit_testbit, Z.testbit_eqb by lia.
  assert (P : 2 ^ k = 2 ^ (k - 1) * 2) by (rewrite Z.mul_comm, <- Z.pow_succ_r by lia; f_equal; lia).
  pose proof (Z.pow_pos_nonneg 2 (k - 1)) as Hp. set (h := 2 ^ (k - 1)) in *.
  rewrite P, Z.rem_mul_r by lia. pose proof (Z.mod_pos_bound u h).
  destruct (Z.eqb_spec ((u / h) mod 2) 1) as [->|N]; [symmetry; apply Z.leb_le; lia|].
  assert ((u / h) mod 2 = 0) as -> by (pose proof (Z.mod_pos_bound (u / h) 2); lia).
  symmetry; apply Z.leb_gt; lia.
Qed.

Lemma pow_half k : 2 <= k -> 2 ^ k = 2 * 2 ^ (k - 1) /\ 2 <= 2 ^ (k - 1).
Proof.
  intros Hk. rewrite <- Z.pow_succ_r by lia. split; [f_equal; lia|].
  change 2 with (2 ^ 1) at 1. apply Z.pow_le_mono_r; lia.
Qed.

Lemma parent_spec bh k u : geometry bh k -> 0 <= u < 2 ^ 32 ->
  parent bh u =
    let P := 2 ^ k in let H := 2 ^ (k - 1) in let q := u / P in let r := u mod P in
    if (q =? 0) || (3 <? r) then q * P + r / 2
    else if r <? 2 then (q - 1) / H * P + H + (q - 1) mod H
    else u - 2.
Proof.
  intros (Hk & Ep & Em & Es) Hu. unfold parent. rewrite Ep, Em, Es, land_low by lia. cbv zeta.
  pose proof (pow_range k Hk) as HP. pose proof (pow_half k ltac:(lia)) as [P2 H2].
  set (P := 2 ^ k) in *. set (H := 2 ^ (k - 1)) in *.
  pose proof (Z.mod_pos_bound u P ltac:(lia)) as Hr. pose proof (Z.div_mod u P ltac:(lia)) as D.
  assert (Hq : 0 <= u / P) by (apply Z.div_pos; lia).
  assert (Eq : (u <? P) = (u / P =? 0)).
  { destruct (Z.ltb_spec u P) as [L|L]; symmetry; [apply Z.eqb_eq, Z.div_small; lia|].
    apply Z.eqb_neq. intros E. rewrite E in D. lia. }
  rewrite Eq. destruct ((u / P =? 0) || (3 <? u mod P)) eqn:E1.
  - unfold P at 1. rewrite land_high by lia. fold P. rewrite Z.lor_comm. unfold P at 3.
    rewrite lor_add; [|lia|]; fold P; rewrite Z.shiftr_div_pow2 by lia; change (2 ^ 1) with 2;
      [lia|Z.div_mod_to_equations; lia].
  - bool_prop. destruct (Z.ltb_spec (u mod P) 2) as [L2|L2]; [|by rewrite u32_small by lia].
    assert (Q1 : 1 <= u / P) by lia. assert (PU : P <= u) by (rewrite D; nia).
    rewrite (u32_small (u - P)) by lia. rewrite Z.shiftr_div_pow2 by lia. fold P.
    assert (W : (u - P) / P = u / P - 1).
    { symmetry. apply (Z.div_unique_pos _ _ _ (u mod P)); lia. }
    rewrite W. set (w := u / P - 1). assert (W0 : 0 <= w <= u / 4 - 1).
    { split; [subst w; lia|]. subst w. enough (u / P <= u / 4) by lia. apply Z.div_le_compat_l; lia. }
    assert (Hw : w < 2 ^ 31) by (change (2 ^ 31) with (2 ^ 32 / 2); Z.div_mod_to_equations; lia).
    replace (Z.shiftr (P - 1) 1) with (H - 1)
      by (rewrite Z.shiftr_div_pow2 by lia; change (2 ^ 1) with 2; Z.div_mod_to_equations; lia).
    unfold H at 1. rewrite land_high by lia. fold H.
    pose proof (Z.mod_pos_bound w H ltac:(lia)) as Hm. pose proof (Z.div_mod w H ltac:(lia)) as Dw.
    assert (0 <= w / H) by (apply Z.div_pos; lia).
    rewrite u32_small by (split; [|change (2 ^ 32) with (2 ^ 31 * 2)]; nia).
    replace (P / 2) with H by (Z.div_mod_to_equations; lia).
    replace (w + w / H * H) with (w mod H + w / H * 2 ^ k) by (fold P; nia).
    rewrite <- lor_add by (fold P; lia). rewrite <- Z.lor_assoc, (Z.lor_comm _ H), Z.lor_assoc.
    replace (Z.lor (w mod H) H) with (w mod H + H).
    2:{ pose proof (lor_add (w mod H) 1 (k - 1) ltac:(lia)) as L. fold H in L. rewrite Z.mul_1_l in L.
        rewrite L; lia. }
    rewrite lor_add by (fold P; lia). fold P. lia.
Qed.

Lemma child_spec bh k u b : geometry bh k -> 1 <= u -> (u + 2) * 2 ^ k < 2 ^ 32 ->
  child bh u b =
    let P := 2 ^ k in let H := 2 ^ (k - 1) in let q := u / P in let r := u mod P in
    if (0 <? q) && (r <? 2) then (u + 2, u + 2)
    else if H <=? r then ((q * H + (r - H) + 1) * P, (q * H + (r - H) + 1) * P + 1)
    else (u + r, u32 (b + 1)).
Proof.
  intros (Hk & Ep & Em & Es) Hu Hb. unfold child. rewrite Ep, Em, Es. cbv zeta.
  pose proof (pow_range k Hk) as HP. pose proof (pow_half k ltac:(lia)) as [P2 H2].
  rewrite (u32_small (2 ^ k - 1 - 1)) by lia.
  replace (2 ^ k - 1 - 1) with (2 ^ k - 2) by lia. rewrite land_first by lia.
  replace (Z.shiftr (2 ^ k) 1) with (2 ^ (k - 1))
    by (rewrite Z.shiftr_div_pow2 by lia; change (2 ^ 1) with 2; Z.div_mod_to_equations; lia).
  rewrite land_bottom, land_low by lia.
  assert (U : 0 <= u < 2 ^ 32) by (change (2 ^ 32) with 4294967296 in *; nia). rewrite land_high by lia.
  set (P := 2 ^ k) in *. set (H := 2 ^ (k - 1)) in *.
  pose proof (Z.mod_pos_bound u P ltac:(lia)) as Hr. pose proof (Z.div_mod u P ltac:(lia)) as D.
  assert (Hq : 0 <= u / P) by (apply Z.div_pos; lia).
  assert (Eq : (P - 1 <? u) = (0 <? u / P)).
  { destruct (Z.ltb_spec (P - 1) u) as [L|L]; symmetry; [apply Z.ltb_lt; apply Z.div_str_pos; lia|].
    apply Z.ltb_ge. rewrite Z.div_small by lia. lia. }
  rewrite Eq. change (2 ^ 32) with 4294967296 in *. destruct (_ && _); [by rewrite u32_small by (change (2 ^ 32) with 4294967296; nia)|].
  destruct (Z.leb_spec H (u mod P)) as [L|L]; [|by rewrite u32_small by (change (2 ^ 32) with 4294967296; nia)].
  replace (Z.shiftr (u / P * P) 1) with (u / P * H)
    by (rewrite Z.shiftr_div_pow2 by lia; change (2 ^ 1) with 2;
        apply (Z.div_unique_pos _ _ _ 0); nia).
  replace (Z.shiftr (P - 1) 1) with (H - 1)
    by (rewrite Z.shiftr_div_pow2 by lia; change (2 ^ 1) with 2; Z.div_mod_to_equations; lia).
  assert (LH : Z.land u (H - 1) = u mod H) by (apply land_low; lia). rewrite LH.
  assert (M : u mod H = u mod P - H).
  { symmetry. apply (Z.mod_unique_pos _ _ (u / P * 2 + 1)); nia. }
  assert (B : 0 <= u / P * H + (u mod P - H) + 1 < u + 1) by nia.
  assert (XP : 0 <= (u / P * H + (u mod P - H) + 1) * P <= u * P).
  { split; [apply Z.mul_nonneg_nonneg; lia|apply Z.mul_le_mono_nonneg_r; lia]. }
  match goal with |- (?a, u32 (?a + 1)) = _ => assert (X : a = (u / P * H + (u mod P - H) + 1) * P) end.
  { rewrite M, Z.lor_comm. unfold H at 2. rewrite lor_add by (fold H; lia). fold H.
    replace (u mod P - H + u / P * H + 1) with (u / P * H + (u mod P - H) + 1) by lia.
    rewrite Z.shiftl_mul_pow2 by lia. fold P. rewrite !u32_small; [done| |]; change (2 ^ 32) with 4294967296; [lia|].
    rewrite u32_small by (change (2 ^ 32) with 4294967296; lia). lia. }
  rewrite X, u32_small by (change (2 ^ 32) with 4294967296; lia). done.
Qed.

Lemma parent_range bh k u : geometry bh k -> 1 < u < 2 ^ 32 -> 1 <= parent bh u < u.
Proof.
  intros G Hu. rewrite (parent_spec bh k u G) by lia. destruct G as (Hk & _). cbv zeta.
  pose proof (pow_range k Hk). pose proof (pow_half k ltac:(lia)) as [P2 H2].
  set (P := 2 ^ k) in *. set (H0 := 2 ^ (k - 1)) in *.
  pose proof (Z.mod_pos_bound u P ltac:(lia)) as Hr. pose proof (Z.div_mod u P ltac:(lia)) as D.
  assert (Hq : 0 <= u / P) by (apply Z.div_pos; lia). set (q := u / P) in *. set (r := u mod P) in *.
  destruct ((q =? 0) || (3 <? r)) eqn:E.
  - assert (0 <= r / 2 <= r) by (Z.div_mod_to_equations; lia).
    assert (0 < q * P \/ q = 0) as [L| ->] by nia; [|Z.div_mod_to_equations; lia].
    bool_prop. assert (r / 2 < r \/ r = 0) by (Z.div_mod_to_equations; lia). destruct E as [E|E].
    + apply Z.eqb_eq in E. lia.
    + apply Z.ltb_lt in E. lia.
  - bool_prop. destruct (Z.ltb_spec r 2); [|nia].
    assert (Q1 : 1 <= q) by lia. pose proof (Z.mod_pos_bound (q - 1) H0 ltac:(lia)).
    pose proof (Z.div_mod (q - 1) H0 ltac:(lia)). assert (0 <= (q - 1) / H0) by (apply Z.div_pos; lia).
    assert ((q - 1) / H0 * P <= 2 * (q - 1)) by nia. nia.
Qed.

Lemma page_split P u q r : 0 <= r < P -> u = q * P + r -> u / P = q /\ u mod P = r.
Proof.
  intros Hr ->. split; symmetry; [apply (Z.div_unique_pos _ _ _ r)|apply (Z.mod_unique_pos _ _ q)]; lia.
Qed.

(** The two elements that lead into a page have one child only. *)
Definition single (k u : Z) : bool := (0 <? u / 2 ^ k) && (u mod 2 ^ k <? 2).

(** The first child, and what comes after it. *)
Definition first_child (bh : binheap) (u : Z) : Z := fst (child bh u 0).

Lemma child_pair bh k u b : geometry bh k -> 1 <= u -> (u + 2) * 2 ^ k < 2 ^ 32 ->
  child bh u b = (first_child bh u,
    if single k u then first_child bh u
    else if 2 ^ (k - 1) <=? u mod 2 ^ k then first_child bh u + 1
    else u32 (b + 1)).
Proof.
  intros G Hu Hb. unfold first_child. rewrite !(child_spec bh k u _ G Hu Hb). cbv zeta.
  unfold single. destruct (_ && _); [done|]. by destruct (_ <=? _).
Qed.

Lemma first_child_parent bh k u : geometry bh k -> 1 <= u -> (u + 2) * 2 ^ k < 2 ^ 32 ->
  let a := first_child bh u in
  u < a /\ a + 1 < 2 ^ 32 /\ parent bh a = u /\ (single k u = false -> parent bh (a + 1) = u).
Proof.
  intros G Hu Hb. unfold first_child. rewrite (child_spec bh k u 0 G Hu Hb). cbv zeta. unfold single.
  pose proof G as (Hk & _). pose proof (pow_range k Hk). pose proof (pow_half k ltac:(lia)) as [P2 H2].
  assert (PS : forall q r, 0 <= r < 2 ^ k -> 0 <= q * 2 ^ k + r < 2 ^ 32 -> _) by
    (intros q r Hr Hv; pose proof (parent_spec bh k (q * 2 ^ k + r) G Hv) as X; cbv zeta in X;
     destruct (page_split (2 ^ k) (q * 2 ^ k + r) q r Hr eq_refl) as [E1 E2]; rewrite E1, E2 in X; exact X).
  change (2 ^ 32) with 4294967296 in *.
  set (P := 2 ^ k) in *. set (H0 := 2 ^ (k - 1)) in *.
  pose proof (Z.mod_pos_bound u P ltac:(lia)) as Hr. pose proof (Z.div_mod u P ltac:(lia)) as D.
  assert (Hq : 0 <= u / P) by (apply Z.div_pos; lia). set (q := u / P) in *. set (r := u mod P) in *.
  assert (Du : u = q * P + r) by lia. clear D. clearbody q r.
  assert (Ub : u * 4 < 4294967296) by nia.
  destruct ((0 <? q) && (r <? 2)) eqn:E.
  - apply andb_true_iff in E as [E1 E2]. apply Z.ltb_lt in E1, E2. cbn [fst].
    split; [lia|]. split; [lia|]. split; [|done].
    replace (u + 2) with (q * P + (r + 2)) by lia. rewrite PS by lia.
    rewrite (proj2 (Z.eqb_neq q 0)), (proj2 (Z.ltb_ge 3 _)), (proj2 (Z.ltb_ge _ 2)) by lia. simpl. lia.
  - assert (E' : q = 0 \/ 2 <= r) by (apply andb_false_iff in E as [E|E]; apply Z.ltb_ge in E; lia).
    destruct (Z.leb_spec H0 r) as [L|L]; cbn [fst].
    + set (x := q * H0 + (r - H0) + 1). assert (Hx : 1 <= x <= u) by nia.
      assert (xP : 0 <= x * P <= u * P).
      { split; [apply Z.mul_nonneg_nonneg; lia|apply Z.mul_le_mono_nonneg_r; lia]. }
      assert (u < x * P).
      { assert (0 <= q * P * (H0 - 1)) by (apply Z.mul_nonneg_nonneg; [apply Z.mul_nonneg_nonneg|]; lia).
        assert (0 <= (r - H0) * P) by (apply Z.mul_nonneg_nonneg; lia). subst x. lia. }
      destruct (page_split H0 (x - 1) q (r - H0)) as [X1 X2]; [lia|subst x; lia|].
      assert (K : forall i, 0 <= i < 2 -> parent bh (x * P + i) = u).
      { intros i Hi. rewrite PS by lia. rewrite (proj2 (Z.eqb_neq x 0)), (proj2 (Z.ltb_ge 3 _)),
          (proj2 (Z.ltb_lt _ 2)) by lia. simpl. rewrite X1, X2. lia. }
      split_and!; [lia..| |]; [rewrite <- (Z.add_0_r (x * P)); apply K; lia|intros _; apply K; lia].
    + assert (K : forall i, 0 <= i < 2 -> parent bh (u + r + i) = u).
      { intros i Hi. replace (u + r + i) with (q * P + (2 * r + i)) by lia. rewrite PS by lia.
        replace ((2 * r + i) / 2) with r by (Z.div_mod_to_equations; lia).
        destruct E' as [->|E']; [by simpl|]. rewrite (proj2 (Z.ltb_lt 3 _)), orb_true_r by lia. lia. }
      assert (0 < r) by (destruct E' as [->|]; lia).
      split_and!; [lia..| |]; [rewrite <- (Z.add_0_r (u + r)); apply K; lia|intros _; apply K; lia].
Qed.

Lemma parent_first_child bh k u v : geometry bh k -> 1 <= u -> (u + 2) * 2 ^ k < 2 ^ 32 ->
  1 < v < 2 ^ 32 -> parent bh v = u ->
  v = first_child bh u \/ v = first_child bh u + 1 /\ single k u = false.
Proof.
  intros G Hu Hb Hv. unfold first_child. rewrite (child_spec bh k u 0 G Hu Hb),
    (parent_spec bh k v G) by lia. cbv zeta. unfold single.
  pose proof G as (Hk & _). pose proof (pow_range k Hk). pose proof (pow_half k ltac:(lia)) as [P2 H2].
  set (P := 2 ^ k) in *. set (H0 := 2 ^ (k - 1)) in *.
  pose proof (Z.mod_pos_bound v P ltac:(lia)) as Hr. pose proof (Z.div_mod v P ltac:(lia)) as D.
  assert (Hq : 0 <= v / P) by (apply Z.div_pos; lia). set (q := v / P) in *. set (r := v mod P) in *.
  assert (Dv : v = q * P + r) by lia. clear D. clearbody q r.
  destruct ((q =? 0) || (3 <? r)) eqn:E.
  - intros Eu. destruct (page_split P u q (r / 2)) as [-> ->]; [Z.div_mod_to_equations; lia|lia|].
    assert (S : (0 <? q) && (r / 2 <? 2) = false).
    { apply orb_true_iff in E as [E|E]; [apply Z.eqb_eq in E; subst q; done|].
      apply Z.ltb_lt in E. apply andb_false_iff; right. apply Z.ltb_ge. Z.div_mod_to_equations; lia. }
    rewrite S, (proj2 (Z.leb_gt _ _)) by (Z.div_mod_to_equations; lia). cbn [fst].
    assert (r = 2 * (r / 2) \/ r = 2 * (r / 2) + 1) by (Z.div_mod_to_equations; lia). lia.
  - apply orb_false_iff in E as [E1 E2]. apply Z.eqb_neq in E1. apply Z.ltb_ge in E2.
    destruct (Z.ltb_spec r 2) as [L|L]; intros Eu.
    + pose proof (Z.mod_pos_bound (q - 1) H0 ltac:(lia)) as Hm. pose proof (Z.div_mod (q - 1) H0 ltac:(lia)) as Dq.
      destruct (page_split P u ((q - 1) / H0) (H0 + (q - 1) mod H0)) as [-> ->]; [lia|lia|].
      rewrite (proj2 (Z.ltb_ge (H0 + _) 2)), andb_false_r, (proj2 (Z.leb_le _ _)) by lia. cbn [fst].
      replace ((q - 1) / H0 * H0 + (H0 + (q - 1) mod H0 - H0) + 1) with q by lia. lia.
    + destruct (page_split P u q (r - 2)) as [-> ->]; [lia|lia|].
      rewrite (proj2 (Z.ltb_lt 0 q)), (proj2 (Z.ltb_lt (r - 2) 2)) by lia. cbn [andb fst]. lia.
Qed.

(** ** The contract with the client *)

(** What the callbacks do: items that are [live] compare by [key], and [update]
    records the index and leaves everything else alone.  [untouched] is what the
    client wants to know about the rest of its state. *)
Class Items {St : Type} (cmp : St -> Z -> Z -> option bool) (update : option (St -> Z -> Z -> option St)) := {
  live : St -> Z -> Prop;
  key : St -> Z -> Z;
  idx : St -> Z -> Z;
  untouched : St -> St -> Prop;
  untouched_pre :: PreOrder untouched;
  live_nonnull s p : live s p -> p <> 0;
  cmp_spec s p q : live s p -> live s q -> cmp s p q = Some (key s p <? key s q);
  update_given : is_Some update;
  update_spec f s p i : update = Some f -> live s p ->
    exists s', f s p i = Some s' /\ idx s' p = i /\ (forall q, q <> p -> idx s' q = idx s q) /\
      (forall q, key s' q = key s q) /\ (forall q, live s' q <-> live s q) /\ untouched s s'
}.

(** ** Why the walk down ends

    The walk keeps the child's variable [b] from turn to turn.  It can go back
    to a smaller index, so what decreases is, in this order: the pages ahead,
    whether the page has just been entered, the distance of [b] to the end, the
    distance of the index to the end. *)
Definition down_measure (k N : Z) (x : Z * Z) : ((nat * nat) * nat) * nat :=
  (((Z.to_nat (N - x.1 / 2 ^ k * 2 ^ k), if single k x.1 then 1 else 0), Z.to_nat (N - x.2)), Z.to_nat (N - x.1))%nat.

Definition down_lt (k N : Z) (x y : Z * Z) : Prop :=
  slexprod _ _ (slexprod _ _ (slexprod _ _ lt lt) lt) lt (down_measure k N x) (down_measure k N y).

Lemma down_wf k N : well_founded (down_lt k N).
Proof.
  apply (wf_inverse_image _ _ _ (down_measure k N)). repeat apply wf_slexprod; apply lt_wf.
Qed.

(** What holds of the two variables at the top of the loop. *)
Definition down_inv (k N u b : Z) : Prop :=
  1 <= u < N /\ 0 <= b /\ (single k u = true \/ u / 2 ^ k * 2 ^ k + 2 <= b) /\
  (b < N \/ b + (N - u) < 2 ^ 32).

Lemma down_step bh k N u b v : geometry bh k -> (N + 2) * 2 ^ k < 2 ^ 32 -> down_inv k N u b ->
  let c := child bh u b in c.1 < N -> v = c.1 \/ v = c.2 /\ c.2 < N ->
  down_inv k N v c.2 /\ down_lt k N (v, c.2) (u, b).
Proof.
  intros G Hb (Hu & Hb0 & I & J). cbv zeta. pose proof G as (Hk & _).
  pose proof (pow_range k Hk) as HP. pose proof (pow_half k ltac:(lia)) as [P2 H2].
  assert (NP : 4 * (N + 2) <= (N + 2) * 2 ^ k) by nia.
  assert (uP : (u + 2) * 2 ^ k <= (N + 2) * 2 ^ k) by (apply Z.mul_le_mono_nonneg_r; lia).
  rewrite (child_spec bh k u b G) by lia. cbv zeta. unfold down_inv, single in *.
  unfold down_lt, down_measure, single. cbn [fst snd].
  change (2 ^ 32) with 4294967296 in *. set (P := 2 ^ k) in *. set (H := 2 ^ (k - 1)) in *.
  pose proof (Z.mod_pos_bound u P ltac:(lia)) as Hr. pose proof (Z.div_mod u P ltac:(lia)) as D.
  assert (Hq : 0 <= u / P) by (apply Z.div_pos; lia). set (q := u / P) in *. set (r := u mod P) in *.
  assert (Du : u = q * P + r) by lia. clear D. clearbody q r.
  assert (qP0 : 0 <= q * P) by (apply Z.mul_nonneg_nonneg; lia).
  destruct ((0 <? q) && (r <? 2)) eqn:E; [|destruct (Z.leb_spec H r) as [L|L]]; cbn [fst snd]; intros Hv1 Hv.
  - apply andb_true_iff in E as [E1 E2]. apply Z.ltb_lt in E1, E2. assert (v = u + 2) as -> by lia.
    destruct (page_split P (u + 2) q (r + 2)) as [-> ->]; [lia|lia|].
    rewrite (proj2 (Z.ltb_ge (r + 2) 2)), andb_false_r by lia.
    split; [split_and!; (lia || (left; lia) || (right; lia))|].
    apply left_slex, left_slex, right_slex. lia.
  - assert (qH : 0 <= q * (H - 1)) by (apply Z.mul_nonneg_nonneg; lia).
    assert (xP : q * P < (q * H + (r - H) + 1) * P) by (apply Z.mul_lt_mono_pos_r; lia).
    assert (x1 : 1 <= q * H + (r - H) + 1) by lia.
    set (x := q * H + (r - H) + 1) in *.
    destruct (page_split P v x (v - x * P)) as [-> ->]; [lia|lia|].
    rewrite (proj2 (Z.ltb_lt 0 x)), (proj2 (Z.ltb_lt (v - x * P) 2)) by lia.
    split; [split_and!; (lia || (left; done) || (right; lia))|].
    apply left_slex, left_slex, left_slex. lia.
  - destruct I as [I|I]; [done|]. rewrite u32_small in * by (change (2 ^ 32) with 4294967296; lia).
    assert (E' : q = 0 \/ 2 <= r) by (apply andb_false_iff in E as [E|E]; apply Z.ltb_ge in E; lia).
    assert (r1 : 1 <= r) by (destruct E' as [->|]; lia).
    destruct Hv as [->|[-> Hv2]].
    + destruct (page_split P (u + r) q (2 * r)) as [-> ->]; [lia|lia|].
      assert ((0 <? q) && (2 * r <? 2) = false) as -> by (apply andb_false_iff; right; apply Z.ltb_ge; lia).
      split; [split_and!; (lia || (right; lia))|]. destruct (Z.lt_ge_cases b N) as [Lb|Lb].
      * apply left_slex, right_slex. lia.
      * replace (Z.to_nat (N - (b + 1))) with (Z.to_nat (N - b)) by lia. apply right_slex. lia.
    + pose proof (Z.mod_pos_bound (b + 1) P ltac:(lia)) as Hr'. pose proof (Z.div_mod (b + 1) P ltac:(lia)) as D'.
      set (q' := (b + 1) / P) in *. set (r' := (b + 1) mod P) in *. assert (Dv : b + 1 = q' * P + r') by lia.
      clear D'. clearbody q' r'. assert (Hqq : q < q' + 1) by (apply (Z.mul_lt_mono_pos_r P); lia).
      destruct (decide (q' = q)) as [->|Nq].
      * assert ((0 <? q) && (r' <? 2) = false) as -> by (apply andb_false_iff; right; apply Z.ltb_ge; lia).
        split; [split_and!; (lia || (right; lia) || (left; lia))|]. apply left_slex, right_slex. lia.
      * assert (q * P < q' * P) by (apply Z.mul_lt_mono_pos_r; lia). assert (1 <= q') by lia.
        split; [|apply left_slex, left_slex, left_slex; lia].
        split_and!; [lia..| |left; lia]. destruct (Z.ltb_spec r' 2); [left|right; lia].
        apply andb_true_iff; split; [apply Z.ltb_lt; lia|done].
Qed.

Section Theory.
Context {St : Type} {cmp : St -> Z -> Z -> option bool} {update : option (St -> Z -> Z -> option St)}.
Context {IT : Items cmp update}.
Implicit Types (s : St) (bh : binheap).

Set Default Proof Using "IT".

(** The rows below [length] are allocated, the others are not. *)
Definition rows_ok (bh : binheap) : Prop := exists j : nat, (1 <= j <= length (array bh))%nat /\
  length_ bh = Z.of_nat j * 65536 /\ length_ bh <= 2 ^ 31 /\
  forall i, (i < length (array bh))%nat -> array bh !! i = Some (bool_decide (i < j)%nat).

(** Every slot in use holds a live item that knows its index. *)
Definition items_ok s (bh : binheap) : Prop := forall n, 1 <= n < next bh ->
  exists p, slots bh !! n = Some p /\ live s p /\ idx s p = n.

Record wf s (bh : binheap) : Prop := {
  wf_geometry : exists k, geometry bh k;
  wf_rows : rows_ok bh;
  wf_next : 1 <= next bh <= length_ bh;
  wf_items : items_ok s bh;
  wf_empty : next bh = 1 -> slots bh !! 1 = Some 0
}.

(** Few enough items for the indices of their children to fit in 32 bits. *)
Definition room (bh : binheap) : Prop := (next bh + 2) * page_size bh < 2 ^ 32.

Definition member (bh : binheap) (p : Z) : Prop :=
  exists n, 1 <= n < next bh /\ slots bh !! n = Some p.

Lemma member_dec bh p : member bh p \/ ~ member bh p.
Proof.
  destruct (decide (Exists (fun n => slots bh !! Z.of_nat n = Some p) (seq 1 (Z.to_nat (next bh - 1))))) as [H|H].
  - left. apply Exists_exists in H as (n & Hn & E). apply elem_of_seq in Hn. exists (Z.of_nat n). split; [lia|done].
  - right. intros (n & Hn & E). apply H, Exists_exists. exists (Z.to_nat n).
    rewrite elem_of_seq, Z2Nat.id by lia. split; [lia|done].
Qed.

Definition item (bh : binheap) (n : Z) : Z := default 0 (slots bh !! n).
Definition weight s bh n : Z := key s (item bh n).

(** Nobody is closer to the root than its parent. *)
Definition ordered s bh : Prop := forall v, 1 < v < next bh -> weight s bh (parent bh v) <= weight s bh v.

(** The client's state up to indices. *)
Definition same_items s s' : Prop :=
  (forall q, key s' q = key s q) /\ (forall q, live s' q <-> live s q) /\ untouched s s'.

#[global] Instance same_items_pre : PreOrder same_items.
Proof.
  split.
  - intros s. by split_and!.
  - intros s1 s2 s3 (K1 & L1 & U1) (K2 & L2 & U2). split_and!; [congruence| |by etrans].
    intros q. by rewrite L2.
Qed.

(** The frame of a heap, all but its slots. *)
Definition same_shape bh bh' : Prop :=
  array bh' = array bh /\ length_ bh' = length_ bh /\ next bh' = next bh /\
  page_size bh' = page_size bh /\ page_mask bh' = page_mask bh /\ page_shift bh' = page_shift bh.

(** A rearrangement of the same items. *)
Record moved s bh s' bh' : Prop := {
  mv_items : same_items s s';
  mv_shape : same_shape bh bh';
  mv_members : forall p, member bh' p <-> member bh p;
  mv_idx : forall p, ~ member bh p -> idx s' p = idx s p;
  mv_wf : wf s' bh'
}.

Lemma moved_refl s bh : wf s bh -> moved s bh s bh.
Proof. by split. Qed.

Lemma moved_trans s1 b1 s2 b2 s3 b3 : moved s1 b1 s2 b2 -> moved s2 b2 s3 b3 -> moved s1 b1 s3 b3.
Proof.
  intros [I1 S1 M1 X1 W1] [I2 S2 M2 X2 W2]. split; [by etrans| | | |done].
  - unfold same_shape in *. destruct_and!. split_and!; congruence.
  - intros p. by rewrite M2.
  - intros p Hp. rewrite X2, X1; [done|done|by rewrite M1].
Qed.

Lemma row_true bh n : rows_ok bh -> 0 <= n < length_ bh -> row bh n = true.
Proof.
  intros (j & Hj & El & _ & Hr) Hn. unfold row, row_of, ROW_SHIFT.
  rewrite Z.shiftr_div_pow2 by lia. change (2 ^ 16) with 65536.
  assert ((Z.to_nat (n / 65536) < j)%nat) by (Z.div_mod_to_equations; lia).
  rewrite Hr by lia. simpl. by rewrite bool_decide_true.
Qed.

Lemma A_item s bh n : wf s bh -> 1 <= n < next bh ->
  A bh n = Some (item bh n) /\ slots bh !! n = Some (item bh n) /\ live s (item bh n) /\ idx s (item bh n) = n.
Proof.
  intros W Hn. pose proof (wf_next s bh W). destruct (wf_items s bh W n Hn) as (p & E & L & I).
  unfold A, item. rewrite (row_true bh n) by (apply W || lia). by rewrite E.
Qed.

Lemma set_A_row bh n p : row bh n = true -> set_A bh n p = Some (set_slots bh (<[n := p]> (slots bh))).
Proof using. unfold set_A. by intros ->. Qed.

Lemma set_A_ok s bh n p : wf s bh -> 1 <= n < length_ bh ->
  set_A bh n p = Some (set_slots bh (<[n := p]> (slots bh))).
Proof. intros W Hn. unfold set_A. by rewrite (row_true bh n) by (apply W || lia). Qed.

(** Indices name the items. *)
Lemma item_inj s bh u v : wf s bh -> 1 <= u < next bh -> 1 <= v < next bh -> item bh u = item bh v -> u = v.
Proof.
  intros W Hu Hv E. destruct (A_item s bh u W Hu) as (_ & _ & _ & <-).
  destruct (A_item s bh v W Hv) as (_ & _ & _ & <-). by rewrite E.
Qed.

Lemma swap_shape bh u v p q : same_shape bh (set_slots bh (<[v := p]> (<[u := q]> (slots bh)))).
Proof. by unfold same_shape. Qed.

Lemma swap_spec s bh u v : wf s bh -> 1 <= u < next bh -> 1 <= v < next bh ->
  exists s' bh', binhead_swap update s bh u v = Some (s', bh') /\ moved s bh s' bh' /\
    slots bh' = <[v := item bh u]> (<[u := item bh v]> (slots bh)).
Proof.
  intros W Hu Hv. destruct (A_item s bh u W Hu) as (Au & Su & Lu & Iu).
  destruct (A_item s bh v W Hv) as (Av & Sv & Lv & Iv). pose proof (wf_next s bh W) as Hn.
  set (bh' := set_slots bh (<[v := item bh u]> (<[u := item bh v]> (slots bh)))).
  assert (R : forall n, 1 <= n < next bh -> row bh n = true) by (intros n ?; apply row_true; [apply W|lia]).
  assert (Su' : slots bh' !! u = Some (item bh v)).
  { subst bh'. simpl. destruct (decide (u = v)) as [->|]; [by rewrite lookup_insert_eq|].
    by rewrite lookup_insert_ne, lookup_insert_eq by done. }
  assert (Sv' : slots bh' !! v = Some (item bh u)) by (subst bh'; simpl; by rewrite lookup_insert_eq).
  destruct update_given as [f Ef].
  destruct (update_spec f s (item bh v) u Ef Lv) as (s1 & E1 & I1 & O1 & K1 & L1 & U1).
  destruct (update_spec f s1 (item bh u) v Ef (proj2 (L1 _) Lu)) as (s2 & E2 & I2 & O2 & K2 & L2 & U2).
  exists s2, bh'. split; [|split; [split|done]].
  - unfold binhead_swap. rewrite (proj2 (Z.ltb_lt u _)), (proj2 (Z.ltb_lt v _)) by lia.
    rewrite Au, Av, set_A_row by (by apply R).
    rewrite set_A_row by (by apply R). cbn [slots set_slots]. fold (set_slots bh).
    change (set_slots (set_slots bh (<[u:=item bh v]> (slots bh))) (<[v:=item bh u]> (<[u:=item bh v]> (slots bh))))
      with bh'.
    unfold binheap_update. change (next bh') with (next bh). unfold A.
    change (row bh' u) with (row bh u). change (row bh' v) with (row bh v).
    rewrite !R, Su', Sv', (proj2 (Z.ltb_lt u _)), (proj2 (Z.ltb_lt v _)) by lia.
    rewrite (proj2 (Z.eqb_neq (item bh v) 0)), (proj2 (Z.eqb_neq (item bh u) 0)) by (by eapply live_nonnull).
    cbn [negb]. rewrite Ef, E1, E2. done.
  - split_and!; [congruence| |by etrans]. intros q. by rewrite L2, L1.
  - apply swap_shape.
  - intros p. split; intros (n & Hn' & E); subst bh'; simpl in *.
    + apply lookup_insert_Some in E as [[<- <-]|[N E]]; [by exists u|].
      apply lookup_insert_Some in E as [[<- <-]|[N' E]]; [by exists v|by exists n].
    + destruct (decide (n = u)) as [->|Nu]; [exists v; split; [done|]; simpl; rewrite lookup_insert_eq; congruence|].
      destruct (decide (n = v)) as [->|Nv]; [exists u; split; [done|]; simpl; rewrite lookup_insert_ne, lookup_insert_eq by done; congruence|].
      exists n. split; [done|]. simpl. by rewrite !lookup_insert_ne by done.
  - intros p Hp. rewrite O2, O1; [done| |]; intros ->; apply Hp; [by exists v|by exists u].
  - destruct W as [G Rw N It Em]. split; [exact G|exact Rw|exact N| |].
    + intros n Hn'. change (next bh') with (next bh) in Hn'.
      destruct (decide (n = v)) as [->|Nv]; [exists (item bh u); split_and!; [done|by rewrite L2, L1|done]|].
      destruct (decide (n = u)) as [->|Nu].
      * exists (item bh v). split_and!; [done|by rewrite L2, L1|]. rewrite O2; [done|].
        intros E. apply Nv. symmetry. congruence.
      * destruct (It n Hn') as (p & Ep & Lp & Ip). exists p.
        split_and!; [subst bh'; simpl; by rewrite !lookup_insert_ne|by rewrite L2, L1|].
        rewrite O2, O1; [done|congruence..].
    + intros E. change (next bh') with (next bh) in E. lia.
Qed.

Lemma moved_wf_l s bh s' bh' : moved s bh s' bh' -> next bh' = next bh.
Proof. intros [_ (_ & _ & E & _) _ _ _]. done. Qed.

Lemma moved_parent s bh s' bh' u : moved s bh s' bh' -> parent bh' u = parent bh u.
Proof. intros [_ (_ & _ & _ & E1 & E2 & E3) _ _ _]. unfold parent. by rewrite E1, E2, E3. Qed.

Lemma swap_weight s bh s' bh' u v n : moved s bh s' bh' ->
  slots bh' = <[v := item bh u]> (<[u := item bh v]> (slots bh)) ->
  weight s' bh' n = weight s bh (if decide (n = v) then u else if decide (n = u) then v else n).
Proof.
  intros [(K & _) _ _ _ _] E. unfold weight, item. rewrite E, K. f_equal.
  destruct (decide (n = v)) as [->|Nv]; [by rewrite lookup_insert_eq|].
  rewrite lookup_insert_ne by done.
  destruct (decide (n = u)) as [->|Nu]; [by rewrite lookup_insert_eq|by rewrite lookup_insert_ne].
Qed.

(** The order may be wrong between [u] and its parent, nowhere else. *)
Definition ordered_but s bh (u : Z) : Prop :=
  (forall v, 1 < v < next bh -> v <> u -> weight s bh (parent bh v) <= weight s bh v) /\
  (forall v, 1 < v < next bh -> 1 < u -> parent bh v = u -> weight s bh (parent bh u) <= weight s bh v).

Lemma wf_bound s bh u : wf s bh -> u < next bh -> u < 2 ^ 31.
Proof. intros W Hu. destruct (wf_rows s bh W) as (_ & _ & _ & L & _). pose proof (wf_next s bh W). lia. Qed.

Lemma parent_bounds s bh u : wf s bh -> 1 < u < next bh -> 1 <= parent bh u < u.
Proof.
  intros W Hu. destruct (wf_geometry s bh W) as [k G]. apply (parent_range bh k u G).
  pose proof (wf_bound s bh u W ltac:(lia)). lia.
Qed.

Lemma swap_order s bh s' bh' u : wf s bh -> 1 < u < next bh -> ordered_but s bh u ->
  weight s bh u < weight s bh (parent bh u) -> moved s bh s' bh' ->
  slots bh' = <[parent bh u := item bh u]> (<[u := item bh (parent bh u)]> (slots bh)) ->
  ordered_but s' bh' (parent bh u).
Proof.
  intros W Hu [O1 O2] Hlt Hm E. pose proof (parent_bounds s bh u W Hu) as Hp. set (p := parent bh u) in *.
  pose proof (fun n => swap_weight s bh s' bh' u p n Hm E) as K.
  pose proof (moved_wf_l _ _ _ _ Hm) as N. rewrite <- N in Hu, O1, O2.
  split.
  - intros v Hv Nv. rewrite (moved_parent _ _ _ _ v Hm), !K.
    pose proof (parent_bounds s bh v W ltac:(lia)) as Hpv.
    destruct (decide (v = p)) as [?|_]; [done|]. destruct (decide (v = u)) as [->|Nu].
    + fold p. rewrite !decide_True by done. lia.
    + destruct (decide (parent bh v = p)) as [Ep|Np].
      * specialize (O1 v Hv Nu). rewrite Ep in O1. lia.
      * destruct (decide (parent bh v = u)) as [Eu|_]; [apply O2; [done|lia|done]|by apply O1].
  - intros v Hv H1 Ev. rewrite (moved_parent _ _ _ _ v Hm) in Ev.
    rewrite (moved_parent _ _ _ _ p Hm), !K.
    pose proof (parent_bounds s bh p W ltac:(lia)) as Hpp.
    pose proof (O1 p ltac:(lia) ltac:(lia)) as Op.
    rewrite (decide_False (P := parent bh p = p)), (decide_False (P := parent bh p = u)) by lia.
    destruct (decide (v = p)) as [->|_]; [lia|].
    destruct (decide (v = u)) as [->|Nu]; [done|].
    specialize (O1 v Hv Nu). rewrite Ev in O1. lia.
Qed.

Lemma ordered_at_root s bh u : u <= 1 -> ordered_but s bh u -> ordered s bh.
Proof. intros Hu [O _] v Hv. apply O; [done|lia]. Qed.

Lemma trickleup_spec fuel : forall s bh u, (Z.to_nat u < fuel)%nat -> wf s bh -> 1 <= u < next bh ->
  exists s' bh' u', trickleup cmp update fuel s bh u = Some (s', bh', u') /\ moved s bh s' bh' /\ 1 <= u' < next bh /\ (ordered_but s bh u -> ordered s' bh').
Proof.
  induction fuel as [|fuel IH]; intros s bh u Hf W Hu; [lia|]. cbn [trickleup]. unfold ROOT_IDX.
  destruct (Z.ltb_spec 1 u) as [L|L].
  - pose proof (parent_bounds s bh u W ltac:(lia)) as Hp.
    destruct (A_item s bh u W Hu) as (-> & _ & Lu & _).
    destruct (A_item s bh (parent bh u) W ltac:(lia)) as (-> & _ & Lp & _).
    rewrite (cmp_spec s _ _ Lu Lp). fold (weight s bh u). fold (weight s bh (parent bh u)).
    destruct (Z.ltb_spec (weight s bh u) (weight s bh (parent bh u))) as [Lt|Ge]; cbn [negb].
    + destruct (swap_spec s bh u (parent bh u) W Hu ltac:(lia)) as (s1 & b1 & -> & M1 & E1).
      pose proof (moved_wf_l _ _ _ _ M1) as N1.
      destruct (IH s1 b1 (parent bh u)) as (s2 & b2 & u2 & -> & M2 & B2 & O2);
        [lia|apply M1|lia|].
      exists s2, b2, u2. split; [done|]. split; [by eapply moved_trans|]. split; [lia|].
      intros O. apply O2. apply (swap_order s bh); [done|lia|done..].
    + exists s, bh, u. split; [done|]. split; [by apply moved_refl|]. split; [done|].
      intros [O1 _] v Hv. destruct (decide (v = u)) as [->|N]; [lia|by apply O1].
  - exists s, bh, u. split; [done|]. split; [by apply moved_refl|]. split; [done|].
    by apply ordered_at_root.
Qed.

Lemma room_bound s bh : wf s bh -> room bh -> next bh < 2 ^ 30.
Proof.
  intros W R. unfold room in R. destruct (wf_geometry s bh W) as (k & Hk & Ep & _). rewrite Ep in R.
  pose proof (pow_range k Hk). pose proof (wf_next s bh W). change (2 ^ 32) with 4294967296 in R.
  change (2 ^ 30) with 1073741824. nia.
Qed.

End Theory.

(** ** Insertion *)

Section Insertion.
Context {St : Type} {cmp : St -> Z -> Z -> option bool} {update : option (St -> Z -> Z -> option St)}.
Context {IT : Items cmp update} (malloc_ok : Z -> bool).
Implicit Types (s : St) (bh : binheap).

Set Default Proof Using "IT malloc_ok".


Lemma addrow_spec s bh : wf s bh -> (forall z, malloc_ok z = true) -> next bh < 2 ^ 30 ->
  next bh = length_ bh ->
  exists bh', binheap_addrow malloc_ok bh = Some bh' /\ wf s bh' /\ slots bh' = slots bh /\ next bh' = next bh /\ next bh < length_ bh' /\ (forall u, parent bh' u = parent bh u) /\ page_size bh' = page_size bh.
Proof.
  intros [G (j & Hj & El & Hl & Hr) Hn It Em] Hm Hb Hnl. unfold binheap_addrow.
  assert (Ej : row_of (length_ bh) = j).
  { unfold row_of, ROW_SHIFT. rewrite El, Z.shiftr_div_pow2 by lia. change (2 ^ 16) with 65536.
    rewrite Z.div_mul by lia. lia. }
  rewrite Ej, !Hm. set (n := length (array bh)) in *.
  assert (E : exists rows, (if (n <=? j)%nat then Some (array bh ++ replicate (n * 2 - n) false)
      else Some (array bh)) = Some rows /\ (j < length rows)%nat /\
      forall i, (i < length rows)%nat -> rows !! i = Some (bool_decide (i < j)%nat)).
  { destruct (Nat.leb_spec n j) as [L|L]; eexists; (split; [reflexivity|]); [|done].
    rewrite length_app, length_replicate. fold n. split; [lia|]. intros i Hi.
    destruct (decide (i < n)%nat) as [Li|Gi]; [rewrite lookup_app_l by done; by apply Hr|].
    rewrite lookup_app_r, lookup_replicate_2 by (fold n; lia). by rewrite bool_decide_false by lia. }
  destruct E as (rows & -> & Lr & Hrows). rewrite bool_decide_true.
  2:{ rewrite Hrows by done. by rewrite bool_decide_false by lia. }
  assert (El' : u32 (length_ bh + ROW_WIDTH) = length_ bh + 65536).
  { change ROW_WIDTH with 65536. apply u32_small. lia. }
  rewrite El'. eexists. split; [reflexivity|]. split; [split|split_and!; simpl; (done || lia)].
  - exact G.
  - exists (S j). cbn [set_rows array length_]. rewrite length_insert. split_and!; [lia..|].
    intros i Hi. destruct (decide (i = j)) as [->|Ni].
    + rewrite list_lookup_insert_eq by done. by rewrite bool_decide_true by lia.
    + rewrite list_lookup_insert_ne, Hrows by done. f_equal. apply bool_decide_ext. lia.
  - simpl. lia.
  - exact It.
  - exact Em.
Qed.

(** The new item sits in the last slot. *)
Lemma append_wf s s' bh p : wf s bh -> next bh < 2 ^ 30 -> next bh < length_ bh ->
  live s' p -> idx s' p = next bh ->
  (forall q, q <> p -> idx s' q = idx s q) -> (forall q, live s' q <-> live s q) -> ~ member bh p ->
  let bh' := set_slots (set_next bh (next bh + 1)) (<[next bh := p]> (slots bh)) in
  wf s' bh' /\ forall q, member bh' q <-> q = p \/ member bh q.
Proof.
  intros [G R N It Em] Hb Hl Lp Ip Io Lo Hp bh'. split; [split|].
  - exact G.
  - exact R.
  - subst bh'. simpl. lia.
  - intros n Hn. subst bh'. simpl in *. destruct (decide (n = next bh)) as [->|Ne].
    + exists p. by rewrite lookup_insert_eq.
    + destruct (It n ltac:(lia)) as (q & Eq & Lq & Iq). exists q. rewrite lookup_insert_ne by done.
      split_and!; [done|by apply Lo|]. rewrite Io; [done|]. intros ->. apply Hp. exists n. split; [lia|done].
  - subst bh'. simpl. lia.
  - intros q. subst bh'. split.
    + intros (n & Hn & E). simpl in *. apply lookup_insert_Some in E as [[_ <-]|[Ne E]]; [by left|].
      right. exists n. split; [lia|done].
    + intros [->|(n & Hn & E)]; [exists (next bh); simpl; rewrite lookup_insert_eq; split; [lia|done]|].
      exists n. simpl. rewrite lookup_insert_ne by lia. split; [lia|done].
Qed.

Lemma append_order s s' bh p : wf s bh -> (forall q, key s' q = key s q) -> ordered s bh ->
  ordered_but s' (set_slots (set_next bh (next bh + 1)) (<[next bh := p]> (slots bh))) (next bh).
Proof.
  intros W K O. pose proof (wf_next s bh W).
  assert (E : forall n, n <> next bh -> weight s' (set_slots (set_next bh (next bh + 1))
      (<[next bh := p]> (slots bh))) n = weight s bh n).
  { intros n Hn. unfold weight, item. simpl. by rewrite lookup_insert_ne, K by done. }
  split; cbn [set_slots set_next next]; intros v Hv.
  - intros Nv. pose proof (parent_bounds s bh v W ltac:(lia)) as B.
    change (parent _ v) with (parent bh v). rewrite !E by lia. apply O. lia.
  - intros _ Ev. change (parent _ v) with (parent bh v) in Ev. exfalso.
    destruct (decide (v < next bh)) as [L|L].
    + pose proof (parent_bounds s bh v W ltac:(lia)). lia.
    + assert (v = next bh) as -> by lia. destruct (wf_geometry s bh W) as [k G].
      pose proof (parent_range bh k (next bh) G) as B. destruct (wf_rows s bh W) as (_ & _ & _ & L2 & _). lia.
Qed.

Lemma binheap_insert_spec s bh p : wf s bh -> room bh -> (forall z, malloc_ok z = true) ->
  live s p -> ~ member bh p ->
  exists s' bh', binheap_insert cmp update malloc_ok s bh p = Some (s', bh') /\ wf s' bh' /\
    same_items s s' /\ (forall q, member bh' q <-> q = p \/ member bh q) /\
    next bh' = next bh + 1 /\ page_size bh' = page_size bh /\
    (ordered s bh -> ordered s' bh') /\ (forall q, ~ member bh' q -> idx s' q = idx s q).
Proof.
  intros W Rm Hm Lp Hp. pose proof (room_bound s bh W Rm) as Hb. pose proof (wf_next s bh W) as Hn.
  unfold binheap_insert. rewrite (proj2 (Z.leb_le _ _)) by lia.
  assert (E : exists b1, (if length_ bh =? next bh then binheap_addrow malloc_ok bh else Some bh) = Some b1 /\
    wf s b1 /\ slots b1 = slots bh /\ next b1 = next bh /\ next bh < length_ b1 /\
    (forall u, parent b1 u = parent bh u) /\ page_size b1 = page_size bh).
  { destruct (Z.eqb_spec (length_ bh) (next bh)); [by apply addrow_spec|].
    exists bh. split_and!; (done || lia). }
  destruct E as (b1 & -> & W1 & S1 & N1 & L1 & P1 & Z1).
  rewrite N1, (u32_small (next bh + 1)), <- N1 by lia.
  assert (Hp1 : ~ member b1 p) by (unfold member; rewrite S1, N1; exact Hp).
  rewrite set_A_row by (apply (row_true (set_next b1 (next b1 + 1))); [apply W1|simpl; lia]).
  cbn [slots set_next]. destruct update_given as [f Ef].
  destruct (update_spec f s p (next b1) Ef Lp) as (s1 & E1 & I1 & O1 & K1 & Lv1 & U1).
  destruct (append_wf s s1 b1 p W1 ltac:(lia) ltac:(lia) (proj2 (Lv1 p) Lp) I1 O1 Lv1 Hp1) as [W3 M3].
  pose proof (append_order s s1 b1 p W1 K1) as O3.
  change (set_slots (set_next b1 (next b1 + 1)) (<[next b1:=p]> (slots b1)))
    with (set_slots (set_next b1 (next b1 + 1)) (<[next b1:=p]> (slots b1))) in W3, M3, O3.
  set (b3 := set_slots (set_next b1 (next b1 + 1)) (<[next b1:=p]> (slots b1))) in *.
  assert (X : binheap_update update s b3 (next b1) = Some s1).
  { unfold binheap_update. rewrite (proj2 (Z.ltb_lt _ (next b3))) by (subst b3; simpl; lia).
    destruct (A_item s1 b3 (next b1) W3 ltac:(subst b3; simpl; lia)) as (-> & _).
    assert (item b3 (next b1) = p) as -> by (unfold item; subst b3; simpl; by rewrite lookup_insert_eq).
    rewrite (proj2 (Z.eqb_neq p 0)) by (by eapply live_nonnull). cbn [negb]. by rewrite Ef, E1. }
  rewrite X. clear X.
  unfold binheap_trickleup.
  destruct (trickleup_spec (Z.to_nat (next b1) + 1) s1 b3 (next b1)) as (s2 & b4 & u' & E2 & M & _ & O4);
    [lia|done|subst b3; simpl; lia|]. rewrite E2. exists s2, b4. split; [done|].
  destruct M as [I4 (_ & _ & N4 & Z4 & _) M4 X4 W4]. split; [done|]. split; [by etrans; [|exact I4]|].
  assert (Mb : forall q, member b4 q <-> q = p \/ member bh q)
    by (intros q; rewrite M4, M3; unfold member; by rewrite S1, N1).
  split; [exact Mb|].
  split; [rewrite N4; subst b3; simpl; lia|]. split; [rewrite Z4; subst b3; simpl; done|].
  split.
  - intros O. apply O4, O3. intros v Hv. unfold weight, item. rewrite S1, P1. apply O. by rewrite <- N1.
  - intros q Nq. rewrite X4 by (by rewrite <- M4). apply O1. intros ->. apply Nq, Mb. by left.
Qed.

End Insertion.

(** ** Deletion *)

Section Deletion.
Context {St : Type} {cmp : St -> Z -> Z -> option bool} {update : option (St -> Z -> Z -> option St)}.
Context {IT : Items cmp update}.
Implicit Types (s : St) (bh : binheap).

Set Default Proof Using "IT".


Notation down := (binheap_trickledown cmp update).

Lemma geometry_moved k s bh s' bh' : moved s bh s' bh' -> geometry bh k -> geometry bh' k.
Proof. intros [_ (_ & _ & _ & E1 & E2 & E3) _ _ _]. unfold geometry. by rewrite E1, E2, E3. Qed.

Lemma child_moved s bh s' bh' u b : moved s bh s' bh' -> child bh' u b = child bh u b.
Proof. intros [_ (_ & _ & _ & E1 & E2 & E3) _ _ _]. unfold child. by rewrite E1, E2, E3. Qed.

Lemma child_positive k bh u b : geometry bh k -> (next bh + 2) * 2 ^ k < 2 ^ 32 -> down_inv k (next bh) u b ->
  1 <= (child bh u b).1 /\ ((child bh u b).2 < next bh -> 1 <= (child bh u b).2).
Proof.
  intros G Hb (Hu & Hb0 & I & J). pose proof G as (Hk & _). pose proof (pow_range k Hk).
  assert (uP : (u + 2) * 2 ^ k <= (next bh + 2) * 2 ^ k) by (apply Z.mul_le_mono_nonneg_r; lia).
  assert (NP : 4 * (next bh + 2) <= (next bh + 2) * 2 ^ k)
    by (rewrite (Z.mul_comm 4); apply Z.mul_le_mono_nonneg_l; lia).
  rewrite (child_pair bh k u b G) by lia. cbn [fst snd].
  destruct (first_child_parent bh k u G) as (F & _); [lia..|]. split; [lia|].
  destruct (single k u); [lia|]. destruct (_ <=? _); [lia|]. change (2 ^ 32) with 4294967296 in *.
  rewrite u32_small by (change (2 ^ 32) with 4294967296; lia). lia.
Qed.

Lemma trickledown_spec k N : (N + 2) * 2 ^ k < 2 ^ 32 -> forall x : Z * Z, forall s bh,
  wf s bh -> geometry bh k -> next bh = N -> down_inv k N x.1 x.2 ->
  exists s' bh' n, (forall fuel, (n <= fuel)%nat -> down fuel s bh x.1 x.2 = Some (s', bh')) /\
    moved s bh s' bh'.
Proof.
  intros Hb. refine (well_founded_ind (down_wf k N) _ _).
  intros [u b] IH s bh W G EN I. cbn [fst snd] in *.
  pose proof (down_step bh k N u b) as St_. destruct (child_positive k bh u b G) as [P1 P2];
    [by rewrite EN|by rewrite EN|]. pose proof I as (Hu & _).
  assert (Stop : forall c, (forall fuel, down (Datatypes.S fuel) s bh u b = (if c : bool then Some (s, bh) else down (Datatypes.S fuel) s bh u b)) ->
     c = true -> exists s' bh' n, (forall fuel, (n <= fuel)%nat -> down fuel s bh u b = Some (s', bh')) /\ moved s bh s' bh').
  { intros c Hc ->. exists s, bh, 1%nat. split; [|by apply moved_refl].
    intros [|fuel] Hf; [lia|]. by rewrite Hc. }
  destruct (child bh u b) as [v1 v2] eqn:Ec. cbn [fst snd] in *.
  destruct (Z.leb_spec N v1) as [L|L].
  { apply (Stop true); [|done]. intros fuel. cbn [binheap_trickledown]. rewrite Ec, EN.
    by rewrite (proj2 (Z.leb_le _ _)) by done. }
  destruct (A_item s bh v1 W ltac:(lia)) as (A1 & _ & L1 & _).
  destruct (A_item s bh u W ltac:(lia)) as (Au & _ & Lu & _).
  assert (C2 : exists c2 : bool, (if v2 <? next bh then let? p2 := A bh v2 in let? p1 := A bh v1 in cmp s p2 p1
      else Some false) = Some c2 /\ (c2 = true -> v2 < N)).
  { destruct (Z.ltb_spec v2 (next bh)) as [L2|L2]; [|by exists false].
    destruct (A_item s bh v2 W ltac:(lia)) as (-> & _ & Lv & _). rewrite A1, (cmp_spec s _ _ Lv L1).
    eexists. split; [done|]. intros _. lia. }
  destruct C2 as (c2 & Ec2 & Hc2). set (w := if c2 then v2 else v1).
  assert (Hw : w = v1 \/ w = v2 /\ v2 < N) by (subst w; destruct c2; auto).
  assert (Hw1 : 1 <= w < next bh) by (rewrite EN in *; destruct Hw as [->|[-> ?]]; lia).
  destruct (A_item s bh w W Hw1) as (Aw & _ & Lw & _).
  destruct (Z.ltb_spec (key s (item bh u)) (key s (item bh w))) as [Lt|Ge].
  { apply (Stop true); [|done]. intros fuel. cbn [binheap_trickledown]. rewrite Ec.
    rewrite (proj2 (Z.leb_gt _ _)) by lia. rewrite Ec2. fold w. rewrite Au, Aw, (cmp_spec s _ _ Lu Lw).
    by rewrite (proj2 (Z.ltb_lt _ _)). }
  destruct (swap_spec s bh u w W ltac:(lia) Hw1) as (s1 & b1 & Es & M1 & _).
  specialize (St_ w G Hb I). cbn [fst snd] in St_.
  destruct (St_ L Hw) as [I' D'].
  destruct (IH (w, v2) D' s1 b1) as (s2 & b2 & n & E & M2); cbn [fst snd] in *;
    [apply M1|by eapply geometry_moved|by rewrite (moved_wf_l _ _ _ _ M1)|done|].
  exists s2, b2, (Datatypes.S n). split; [|by eapply moved_trans].
  intros [|fuel] Hf; [lia|]. cbn [binheap_trickledown]. rewrite Ec.
  rewrite (proj2 (Z.leb_gt _ _)) by lia. rewrite Ec2. fold w. rewrite Au, Aw, (cmp_spec s _ _ Lu Lw).
  rewrite (proj2 (Z.ltb_ge _ _)) by lia. cbv iota. rewrite Es. apply E. lia.
Qed.

(** The last slot is given up; the item it held fills the hole at [i]. *)
Lemma remove_wf s s' bh i (t p : Z) : wf s bh -> 1 <= i < next bh -> p = item bh i -> t = item bh (next bh - 1) ->
  (forall q, live s' q <-> live s q) -> (forall q, q <> p -> q <> t -> idx s' q = idx s q) ->
  (i < next bh - 1 -> idx s' t = i) ->
  let bh' := set_slots (set_next bh (next bh - 1))
    (<[next bh - 1 := 0]> (if decide (i = next bh - 1) then slots bh else <[i := t]> (slots bh))) in
  wf s' bh' /\ forall q, member bh' q <-> member bh q /\ q <> p.
Proof.
  intros W Hi Ep Et Lo Io It bh'. pose proof (wf_next s bh W) as Hn.
  assert (Sl : forall n, 1 <= n < next bh - 1 -> slots bh' !! n = Some (if decide (n = i) then t else item bh n)).
  { intros n Hn'. subst bh'. simpl. rewrite lookup_insert_ne by lia. destruct (decide (n = i)) as [->|Ni].
    - rewrite decide_False by lia. by rewrite lookup_insert_eq.
    - destruct (decide (i = next bh - 1)); [|rewrite lookup_insert_ne by done];
        by destruct (A_item s bh n W ltac:(lia)) as (_ & -> & _). }
  split; [split|].
  - apply W.
  - apply W.
  - subst bh'. simpl. lia.
  - intros n Hn'. cbn [bh' set_slots set_next next] in Hn'. exists (if decide (n = i) then t else item bh n).
    rewrite Sl by done. split; [done|]. destruct (decide (n = i)) as [->|Ni].
    + destruct (A_item s bh (next bh - 1) W ltac:(lia)) as (_ & _ & Lt & _).
      rewrite <- Et in Lt. split; [by apply Lo|apply It; lia].
    + destruct (A_item s bh n W ltac:(lia)) as (_ & _ & Ln & In). split; [by apply Lo|].
      rewrite Io; [done| |]; intros E; subst p t; apply (item_inj s bh) in E; (done || lia).
  - intros E. cbn [bh' set_slots set_next next slots] in *. rewrite E. by rewrite lookup_insert_eq.
  - intros q. split.
    + intros (n & Hn' & E). cbn [bh' set_slots set_next next] in Hn'. rewrite Sl in E by done. injection E as <-.
      destruct (decide (n = i)) as [->|Ni].
      * split; [exists (next bh - 1); split; [lia|]; subst t; by destruct (A_item s bh (next bh - 1) W ltac:(lia)) as (_ & -> & _)|].
        intros E. subst p t. apply (item_inj s bh) in E; (done || lia).
      * split; [exists n; split; [lia|]; by destruct (A_item s bh n W ltac:(lia)) as (_ & -> & _)|].
        intros E. subst p. apply (item_inj s bh) in E; (done || lia).
    + intros [(n & Hn' & E) Nq]. destruct (A_item s bh n W Hn') as (_ & E' & _).
      assert (q = item bh n) as -> by congruence.
      assert (Ni : n <> i) by (intros ->; congruence).
      destruct (decide (n = next bh - 1)) as [->|Nl].
      * exists i. cbn [bh' set_slots set_next next]. split; [lia|]. rewrite Sl, decide_True by lia. congruence.
      * exists n. cbn [bh' set_slots set_next next]. split; [lia|]. rewrite Sl, decide_False by (done || lia). done.
Qed.

Lemma drop_row_wf s bh : wf s bh -> next bh + 131072 <= length_ bh ->
  wf s (drop_row bh) /\ (forall q, member (drop_row bh) q <-> member bh q) /\ next (drop_row bh) = next bh.
Proof.
  intros [G (j & Hj & El & Hl & Hr) Hn It Em] Hd.
  assert (Er : row_of (length_ bh - 1) = (j - 1)%nat).
  { unfold row_of, ROW_SHIFT. rewrite Z.shiftr_div_pow2 by lia. change (2 ^ 16) with 65536.
    Z.div_mod_to_equations; lia. }
  assert (Sl : forall n p, n <= next bh -> slots (drop_row bh) !! n = Some p <-> slots bh !! n = Some p).
  { intros n p Hn'. unfold drop_row. rewrite Er. cbn [set_rows set_slots slots].
    rewrite map_lookup_filter_Some. simpl. split; [by intros [? _]|]. intros ?. split; [done|].
    unfold row_of, ROW_SHIFT. rewrite Z.shiftr_div_pow2 by lia. change (2 ^ 16) with 65536.
    assert (n / 65536 < Z.of_nat j - 1) by (Z.div_mod_to_equations; lia). lia. }
  assert (Eu : u32 (length_ bh - ROW_WIDTH) = length_ bh - 65536) by (change ROW_WIDTH with 65536; apply u32_small; lia).
  split; [split|split].
  - exact G.
  - exists (j - 1)%nat. unfold drop_row. cbn [set_rows set_slots array length_]. rewrite Er, Eu.
    rewrite length_insert. split_and!; [lia..|]. intros i Hi. destruct (decide (i = j - 1)%nat) as [->|Ni].
    + rewrite list_lookup_insert_eq by done. by rewrite bool_decide_false by lia.
    + rewrite list_lookup_insert_ne, Hr by done. f_equal. apply bool_decide_ext. lia.
  - unfold drop_row. cbn [set_rows set_slots next length_]. rewrite Eu. lia.
  - intros n Hn'. destruct (It n Hn') as (p & E & K). exists p. split; [|done].
    change (next (drop_row bh)) with (next bh) in Hn'. apply Sl; [lia|done].
  - intros E. change (next (drop_row bh)) with (next bh) in E. apply Sl; [lia|]. by apply Em.
  - intros q. unfold member. change (next (drop_row bh)) with (next bh).
    split; intros (n & Hn' & E); exists n; (split; [done|]); apply Sl; (done || lia).
  - done.
Qed.

Lemma last_step s bh i : wf s bh -> 1 <= i < next bh -> forall s1, same_items s s1 ->
  (forall q, q <> item bh i -> idx s1 q = idx s q) -> i = next bh - 1 ->
  exists bh', set_A (set_next bh (next bh - 1)) (next bh - 1) 0 = Some bh' /\ wf s1 bh' /\
    (forall q, member bh' q <-> member bh q /\ q <> item bh i) /\
    next bh' = next bh - 1 /\ page_size bh' = page_size bh.
Proof.
  intros W Hi s1 (K & Lv & U) Io Ei. pose proof (wf_next s bh W). eexists. split; [|split_and!].
  - apply set_A_row. apply (row_true (set_next bh (next bh - 1))); [apply W|simpl; lia].
  - destruct (remove_wf s s1 bh i (item bh i) (item bh i) W Hi) as [W' _]; [done|by rewrite <- Ei|done|by intros; apply Io|lia|].
    by rewrite decide_True in W'.
  - destruct (remove_wf s s1 bh i (item bh i) (item bh i) W Hi) as [_ M']; [done|by rewrite <- Ei|done|by intros; apply Io|lia|].
    by rewrite decide_True in M'.
  - done.
  - done.
Qed.

(** Up, then down, from the hole that was filled. *)
Lemma settle_spec s bh i junk : wf s bh -> room bh -> 1 <= i < next bh -> next bh <= junk ->
  junk + next bh < 2 ^ 32 ->
  exists s' bh' n, (forall fuel, (n <= fuel)%nat ->
      (let? (x, b, j) := binheap_trickleup cmp update s bh i in down fuel x b j junk) = Some (s', bh')) /\
    moved s bh s' bh'.
Proof.
  intros W Rm Hi Hj Hj2. unfold binheap_trickleup.
  destruct (trickleup_spec (Z.to_nat i + 1) s bh i) as (s1 & b1 & u & -> & M & Hu & _); [lia|done|done|].
  pose proof (moved_wf_l _ _ _ _ M) as N1. destruct (wf_geometry s bh W) as [k G].
  pose proof (geometry_moved k _ _ _ _ M G) as G1. pose proof G as (Hk & Ep & _). unfold room in Rm. rewrite Ep in Rm.
  pose proof (pow_range k Hk).
  assert (D : down_inv k (next bh) u junk).
  { split; [lia|]. split; [lia|]. split; [|lia]. unfold single.
    pose proof (Z.mod_pos_bound u (2 ^ k) ltac:(lia)). pose proof (Z.div_mod u (2 ^ k) ltac:(lia)) as Du.
    assert (0 <= u / 2 ^ k) by (apply Z.div_pos; lia).
    destruct (Z.ltb_spec (u mod 2 ^ k) 2); [|right; lia].
    destruct (Z.ltb_spec 0 (u / 2 ^ k)); [by left|right].
    assert (u / 2 ^ k = 0) as -> by lia. lia. }
  destruct (trickledown_spec k (next bh) Rm (u, junk) s1 b1) as (s2 & b2 & n & E & M2);
    [apply M|done|done|done|]. exists s2, b2, n. split; [exact E|by eapply moved_trans].
Qed.

Lemma delete_spec s bh i junk : wf s bh -> room bh -> 1 <= i < next bh -> next bh <= junk ->
  junk + next bh < 2 ^ 32 ->
  exists s' bh' n, (forall fuel, (n <= fuel)%nat ->
      binheap_delete cmp update fuel junk s bh i = Some (s', bh')) /\
    wf s' bh' /\ same_items s s' /\ (forall q, member bh' q <-> member bh q /\ q <> item bh i) /\
    idx s' (item bh i) = 0 /\ next bh' = next bh - 1 /\ page_size bh' = page_size bh /\
    (forall q, ~ member bh q -> idx s' q = idx s q).
Proof.
  intros W Rm Hi Hj Hj2. pose proof (wf_next s bh W) as Hn. pose proof (room_bound s bh W Rm).
  destruct (A_item s bh i W Hi) as (Ai & Si & Li & Ii). destruct update_given as [f Ef].
  destruct (update_spec f s (item bh i) 0 Ef Li) as (s1 & E1 & I1 & O1 & K1 & L1 & U1).
  assert (Hd : forall fuel, binheap_delete cmp update fuel junk s bh i =
    let b := set_next bh (next bh - 1) in
    if i =? next bh - 1 then let? b := set_A b (next bh - 1) 0 in Some (s1, b)
    else let? t := A b (next bh - 1) in let? b := set_A b i t in let? b := set_A b (next b) 0 in
      let? x := binheap_update update s1 b i in
      let? (x, b, j) := binheap_trickleup cmp update x b i in
      let? (x, b) := down fuel x b j junk in
      Some (x, if u32 (next b + 2 * ROW_WIDTH) <=? length_ b then drop_row b else b)).
  { intros fuel. unfold binheap_delete, ROOT_IDX. rewrite (proj2 (Z.ltb_lt 1 _)), (proj2 (Z.ltb_lt i _)),
      (proj2 (Z.ltb_lt 0 i)), Ai, (proj2 (Z.eqb_neq _ 0)) by (lia || by eapply live_nonnull).
    cbn [negb]. rewrite Ef at 1. rewrite E1, u32_small by lia. done. }
  destruct (Z.eqb_spec i (next bh - 1)) as [Ei|Ni].
  - destruct (last_step s bh i W Hi s1) as (b' & Eb & W' & M' & N' & Z'); [by split|done|done|].
    exists s1, b', 0%nat. split; [intros fuel _; rewrite Hd; cbv zeta; by rewrite Eb|].
    split_and!; try done. intros q Nq. apply O1. intros ->. apply Nq. by exists i.
  - destruct (A_item s bh (next bh - 1) W ltac:(lia)) as (At & St_ & Lt & It). set (t := item bh (next bh - 1)) in *.
    assert (Npt : item bh i <> t) by (intros E; apply (item_inj s bh) in E; (done || lia)).
    destruct (update_spec f s1 t i Ef (proj2 (L1 t) Lt)) as (s2 & E2 & I2 & O2 & K2 & L2 & U2).
    destruct (remove_wf s s2 bh i t (item bh i) W Hi) as [W2 M2]; [done|done|intros q; by rewrite L2, L1
      |intros q N1 N2; rewrite O2, O1; done|done|].
    rewrite decide_False in W2, M2 by done.
    set (b2 := set_slots (set_next bh (next bh - 1)) (<[next bh - 1:=0]> (<[i:=t]> (slots bh)))) in *.
    assert (R : forall n, 1 <= n < next bh -> row bh n = true) by (intros n ?; apply row_true; [apply W|lia]).
    destruct (settle_spec s2 b2 i junk W2) as (s3 & b3 & n & E3 & [I3 S3 M3 X3 W3]);
      [unfold room in *; subst b2; cbn [set_slots set_next next page_size]; change (2 ^ 32) with 4294967296 in *; nia
      |subst b2; cbn [set_slots set_next next]; lia..|].
    assert (Np : ~ member b2 (item bh i)) by (intros Hm; apply M2 in Hm as [_ Hm]; done).
    assert (IX : idx s3 (item bh i) = 0) by (rewrite X3, O2 by done; exact I1).
    destruct S3 as (_ & _ & N3 & Z3 & _).
    set (fin b := if u32 (next b + 2 * ROW_WIDTH) <=? length_ b then drop_row b else b).
    assert (F : wf s3 (fin b3) /\ (forall q, member (fin b3) q <-> member b3 q) /\ next (fin b3) = next b3 /\
      page_size (fin b3) = page_size b3).
    { subst fin. cbv beta. assert (next b3 + 131072 < 2 ^ 32) by (rewrite N3; subst b2; simpl; lia).
      pose proof (wf_next s3 b3 W3). change (2 * ROW_WIDTH) with 131072. rewrite u32_small by lia.
      destruct (Z.leb_spec (next b3 + 131072) (length_ b3)); [|done].
      destruct (drop_row_wf s3 b3 W3) as (F1 & F2 & F3); done. }
    destruct F as (F1 & F2 & F3 & F4).
    exists s3, (fin b3), n. split; [|split_and!].
    + intros fuel Hf. rewrite Hd. cbv zeta. 
      change (A (set_next bh (next bh - 1)) (next bh - 1)) with (A bh (next bh - 1)). rewrite At.
      rewrite set_A_row by (apply R; lia). cbn [next set_slots set_next slots].
      rewrite set_A_row by (apply R; lia). cbn [set_slots slots].
      change (set_slots (set_slots (set_next bh (next bh - 1)) (<[i:=t]> (slots bh)))
        (<[next bh - 1:=0]> (<[i:=t]> (slots bh)))) with b2.
      unfold binheap_update. rewrite (proj2 (Z.ltb_lt i (next b2))) by (subst b2; simpl; lia).
      destruct (A_item s2 b2 i W2) as (-> & _); [subst b2; simpl; lia|].
      assert (item b2 i = t) as ->.
      { unfold item. subst b2. cbn [slots set_slots]. by rewrite lookup_insert_ne, lookup_insert_eq by lia. }
      rewrite (proj2 (Z.eqb_neq t 0)) by (by eapply live_nonnull). cbn [negb]. rewrite Ef at 1. rewrite E2.
      specialize (E3 fuel Hf). destruct (binheap_trickleup cmp update s2 b2 i) as [[[x b] j]|]; [|done].
      by rewrite E3.
    + done.
    + etrans; [split; [exact K1|split; [exact L1|exact U1]]|]. etrans; [|exact I3]. by split.
    + intros q. by rewrite F2, M3, M2.
    + done.
    + rewrite F3, N3. done.
    + rewrite F4, Z3. done.
    + intros q Nq. assert (q <> item bh i) by (intros ->; apply Nq; by exists i).
      assert (q <> t) by (intros ->; apply Nq; exists (next bh - 1); split; [lia|done]).
      rewrite X3, O2, O1; [done..|]. intros Hm. by apply M2 in Hm as [Hm _].
Qed.
End Deletion.

Set Default Proof Using "All".

(** ** A fresh heap *)

Lemma shift_loop_spec k : 2 <= k <= 19 -> shift_loop 32 1 (2 ^ k) = Some k.
Proof.
  intros Hk. assert (H : forallb (fun i => bool_decide (shift_loop 32 1 (2 ^ (Z.of_nat i + 2)) = Some (Z.of_nat i + 2)))
    (seq 0 18) = true) by (vm_compute; reflexivity).
  pose proof (forall_below _ _ H (Z.to_nat (k - 2)) ltac:(lia)) as E. apply bool_decide_eq_true in E.
  replace (Z.of_nat (Z.to_nat (k - 2)) + 2) with k in E by lia. exact E.
Qed.

Section New.
Context {St : Type} {cmp : St -> Z -> Z -> option bool} {update : option (St -> Z -> Z -> option St)}.
Context {IT : Items cmp update}.

Lemma new_spec (malloc_ok : Z -> bool) (s : St) k : (forall z, malloc_ok z = true) -> 2 <= k <= 19 ->
  exists bh, binheap_new malloc_ok (8 * 2 ^ k) = Some (Some bh) /\ wf s bh /\ next bh = 1 /\
    page_size bh = 2 ^ k /\ ordered s bh /\ forall p, ~ member bh p.
Proof.
  intros Hm Hk. pose proof (pow_range k Hk) as HP. unfold binheap_new. rewrite !Hm. cbn [negb].
  rewrite (u32_small (8 * 2 ^ k)) by lia.
  rewrite (Z.mul_comm 8), Z.quot_mul by lia. rewrite u32_small by lia.
  rewrite land_low, Z.mod_same by lia. cbn [Z.eqb]. rewrite shift_loop_spec by done.
  change (8 * ROW_WIDTH) with 524288. rewrite (proj2 (Z.leb_le _ _)) by lia.
  unfold binheap_addrow. cbn [array length_ length replicate]. rewrite Hm.
  change (row_of 0) with 0%nat. cbn [Nat.leb]. rewrite bool_decide_true, Hm by done.
  eexists. split; [reflexivity|].
  split; [split|split_and!].
  - exists k. split; [lia|done].
  - exists 1%nat. split_and!; [vm_compute; lia|vm_compute; lia|reflexivity|vm_compute; congruence|].
    cbn. intros i Hi. do 16 (destruct i as [|i]; [done|]). lia.
  - vm_compute. split; congruence.
  - intros n Hn. change (1 <= n < 1) in Hn. lia.
  - intros _. done.
  - done.
  - done.
  - intros v Hv. change (1 < v < 1) in Hv. lia.
  - intros p (n & Hn & _). change (1 <= n < 1) in Hn. lia.
Qed.

(** Nothing is closer to the root than the root. *)
Lemma root_least (s : St) bh : wf s bh -> ordered s bh -> forall n, 1 <= n < next bh ->
  weight s bh 1 <= weight s bh n.
Proof.
  intros W O n Hn. remember (Z.to_nat n) as m eqn:Em. revert n Hn Em.
  induction m as [m IH] using lt_wf_ind. intros n Hn ->.
  destruct (decide (n = 1)) as [->|N1]; [lia|].
  pose proof (parent_bounds s bh n W ltac:(lia)) as B. specialize (O n ltac:(lia)).
  specialize (IH (Z.to_nat (parent bh n)) ltac:(lia) (parent bh n) ltac:(lia) eq_refl). lia.
Qed.
End New.

(** ** The properties *)

(** The page-wise layout is a tree: [child] yields the two slots, or the one,
    whose [parent] is the given slot, and no other slot has that parent.  The
    second child is right except inside a page, where the code increments
    whatever the variable held instead of assigning the first child plus one. *)
Theorem child_parent (bh : binheap) (k u b : Z) (G : geometry bh k) (Hu : 1 <= u)
  (Hb : (u + 2) * 2 ^ k < 2 ^ 32) :
  let '(a, b') := child bh u b in
  u < a /\ parent bh a = u /\
  b' = (if single k u then a else if 2 ^ (k - 1) <=? u mod 2 ^ k then a + 1 else u32 (b + 1)) /\
  forall v, 1 < v < 2 ^ 32 -> parent bh v = u <-> v = a \/ v = a + 1 /\ single k u = false.
Proof.
  rewrite (child_pair bh k u b G Hu Hb). destruct (first_child_parent bh k u G Hu Hb) as (L & B & P & P2).
  split_and!; [done..|]. intros v Hv. split; [by apply parent_first_child|].
  intros [->|[-> S]]; [done|by apply P2].
Qed.

(** The geometry of 4096-byte pages. *)
Definition bh512 : binheap := Binheap (true :: replicate 15 false) {[1 := 0]} 65536 1 512 511 9.

Lemma bh512_geometry : geometry bh512 9.
Proof. by split_and!. Qed.

Lemma child_parent_witness :
  (let '(a, b') := child bh512 300 7 in a = 23040 /\ b' = 23041 /\ parent bh512 a = 300) /\
  (let '(a, b') := child bh512 3 7 in a = 6 /\ b' = 8 /\ parent bh512 a = 3).
Proof.
  pose proof (child_parent bh512 9 300 7 bh512_geometry ltac:(lia) ltac:(lia)) as H1.
  pose proof (child_parent bh512 9 3 7 bh512_geometry ltac:(lia) ltac:(lia)) as H2.
  change (child bh512 300 7) with (23040, 23041) in *. change (child bh512 3 7) with (6, 8) in *.
  destruct H1 as (_ & P1 & _). destruct H2 as (_ & P2 & _). by split_and!.
Defined.

(** From 2{^24} items on the child's index is cut to 32 bits and points into
    the first page. *)
Lemma child_wraps : fst (child bh512 16777472 0) = 512.
Proof. reflexivity. Qed.

(** C37: [binheap_insert] succeeds, adds exactly the new item, keeps every item's
    index up to date, and keeps the heap order; then [binheap_root] is an item
    that no other one precedes. *)
Theorem binheap_insert_ok {St : Type} {cmp : St -> Z -> Z -> option bool}
  {update : option (St -> Z -> Z -> option St)} {IT : Items cmp update} (malloc_ok : Z -> bool)
  (s : St) (bh : binheap) (p : Z) (Hm : forall z, malloc_ok z = true) (W : wf s bh) (R : room bh)
  (L : live s p) (N : ~ member bh p) :
  exists s' bh', binheap_insert cmp update malloc_ok s bh p = Some (s', bh') /\ wf s' bh' /\
    same_items s s' /\ (forall q, member bh' q <-> q = p \/ member bh q) /\
    (ordered s bh -> ordered s' bh' /\
      exists r, binheap_root bh' = Some r /\ member bh' r /\ forall q, member bh' q -> key s r <= key s q).
Proof.
  destruct (binheap_insert_spec malloc_ok s bh p W R Hm L N) as (s' & bh' & E & W' & I & M & N' & _ & O & _).
  exists s', bh'. split_and!; [done..|]. intros Ho. specialize (O Ho). split; [done|].
  pose proof (wf_next s bh W). destruct (A_item s' bh' 1 W' ltac:(lia)) as (A1 & S1 & _).
  exists (item bh' 1). split; [done|]. split; [exists 1; split; [lia|done]|].
  intros q (n & Hn & Sq). pose proof (root_least s' bh' W' O n Hn) as Le. destruct I as (K & _).
  unfold weight in Le. rewrite !K in Le. unfold item in Le at 2. by rewrite Sq in Le.
Qed.

(** [binheap_delete] of the item at an index, whatever the uninitialised
    child variable holds beyond the end of the heap, terminates, removes exactly
    that item, tells it index 0 and every other item its new index. *)
Theorem binheap_delete_ok {St : Type} {cmp : St -> Z -> Z -> option bool}
  {update : option (St -> Z -> Z -> option St)} {IT : Items cmp update}
  (s : St) (bh : binheap) (p junk : Z) (W : wf s bh) (R : room bh) (M : member bh p)
  (J : next bh <= junk) (J2 : junk + next bh < 2 ^ 32) :
  exists s' bh' n, (forall fuel, (n <= fuel)%nat ->
      binheap_delete cmp update fuel junk s bh (idx s p) = Some (s', bh')) /\
    wf s' bh' /\ same_items s s' /\ (forall q, member bh' q <-> member bh q /\ q <> p) /\
    idx s' p = 0 /\ next bh' = next bh - 1.
Proof.
  destruct M as (i & Hi & Sp). destruct (wf_items s bh W i Hi) as (p' & Sp' & _ & Ip).
  assert (p' = p) as -> by congruence. assert (It : item bh i = p) by (unfold item; by rewrite Sp).
  destruct (delete_spec s bh i junk W R Hi J J2) as (s' & bh' & n & E & W' & I & M' & X & N & _).
  rewrite It in *. exists s', bh', n. rewrite Ip. by split_and!.
Qed.

(** A client: a key and an index for every item. *)
Notation timers := (gmap Z (Z * Z)).
Definition tcmp (s : timers) (a b : Z) : option bool :=
  let? x := s !! a in let? y := s !! b in Some (x.1 <? y.1).
Definition tupdate (s : timers) (p i : Z) : option timers :=
  let? x := s !! p in Some (<[p := (x.1, i)]> s).

#[local] Obligation Tactic := idtac.
#[global] Program Instance timer_items : Items tcmp (Some tupdate) := {
  live s p := p <> 0 /\ is_Some (s !! p);
  key s p := default 0 (fst <$> s !! p);
  idx s p := default 0 (snd <$> s !! p);
  untouched _ _ := True
}.
Next Obligation. by split. Qed.
Next Obligation. by intros s p [? _]. Qed.
Next Obligation. intros s p q [_ [x Hx]] [_ [y Hy]]. unfold tcmp. by rewrite Hx, Hy. Qed.
Next Obligation. by eexists. Qed.
Next Obligation.
  intros f s p i [= <-] [Hp [x Hx]]. cbv beta. unfold tupdate. rewrite Hx. eexists. split; [done|].
  split; [by rewrite lookup_insert_eq|]. split; [intros q Hq; by rewrite lookup_insert_ne|].
  split; [|split; [|done]]; intros q; simpl;
    (destruct (decide (p = q)) as [<-|]; [rewrite lookup_insert_eq, Hx|rewrite lookup_insert_ne by done]);
    try done.
Qed.

(** Three timers in the heap, and one to insert. *)
Definition three : timers := {[1000 := (50, 1); 1001 := (80, 2); 1002 := (60, 3); 1003 := (20, 0)]}.
Definition bh3 : binheap :=
  Binheap (true :: replicate 15 false) {[1 := 1000; 2 := 1001; 3 := 1002]} 65536 4 512 511 9.

Lemma bh3_wf : wf three bh3.
Proof.
  split.
  - exists 9. by split_and!.
  - exists 1%nat. split_and!; [vm_compute; lia|vm_compute; lia|reflexivity|vm_compute; congruence|].
    cbn. intros i Hi. do 16 (destruct i as [|i]; [done|]). lia.
  - vm_compute. split; congruence.
  - intros n Hn. change (1 <= n < 4) in Hn.
    assert (n = 1 \/ n = 2 \/ n = 3) as [->|[->| ->]] by lia; eexists; (split; [reflexivity|]);
      (split; [|reflexivity]); (split; [done|by eexists]).
  - done.
Qed.

Lemma bh3_ordered : ordered three bh3.
Proof.
  intros v Hv. change (1 < v < 4) in Hv. assert (v = 2 \/ v = 3) as [->| ->] by lia; by vm_compute.
Qed.

Lemma bh3_member q : member bh3 q <-> q = 1000 \/ q = 1001 \/ q = 1002.
Proof.
  split.
  - intros (n & Hn & E). change (1 <= n < 4) in Hn.
    assert (n = 1 \/ n = 2 \/ n = 3) as [->|[->| ->]] by lia; injection E; auto.
  - intros [->|[->| ->]]; [exists 1|exists 2|exists 3]; (split; [change (next bh3) with 4; lia|reflexivity]).
Qed.

Lemma binheap_insert_ok_witness : exists s' bh',
  binheap_insert tcmp (Some tupdate) (fun _ => true) three bh3 1003 = Some (s', bh') /\
  binheap_root bh' = Some 1003.
Proof.
  destruct (binheap_insert_ok (fun _ => true) three bh3 1003) as (s' & bh' & E & _ & _ & M & O).
  - done.
  - exact bh3_wf.
  - unfold room. by vm_compute.
  - split; [done|by eexists].
  - rewrite bh3_member. lia.
  - exists s', bh'. split; [exact E|]. destruct (O bh3_ordered) as (_ & r & Er & Mr & Le).
    rewrite Er. f_equal. specialize (Le 1003 (proj2 (M 1003) (or_introl eq_refl))).
    apply M in Mr as [->|Mr]; [done|]. apply bh3_member in Mr as [->|[->| ->]]; by vm_compute in Le.
Defined.

Lemma binheap_delete_ok_witness : exists s' bh' n,
  (forall fuel, (n <= fuel)%nat -> binheap_delete tcmp (Some tupdate) fuel 1000 three bh3 1 = Some (s', bh')) /\
  member bh' 1001 /\ ~ member bh' 1000.
Proof.
  destruct (binheap_delete_ok three bh3 1000 1000) as (s' & bh' & n & E & _ & _ & M & _).
  - exact bh3_wf.
  - unfold room. by vm_compute.
  - rewrite bh3_member. lia.
  - by vm_compute.
  - by vm_compute.
  - exists s', bh', n. split; [exact E|]. rewrite !M, bh3_member. lia.
Defined.

(** ** Where the code falls short *)

(** Deleting the root breaks the heap order: the right child is not looked at,
    because the variable for it is not set, and a later timer hides an earlier
    one. *)
Definition six : timers :=
  {[1 := (10, 1); 2 := (50, 2); 3 := (20, 3); 4 := (60, 4); 5 := (70, 5); 6 := (30, 6)]}.
Definition bh6 : binheap :=
  Binheap (true :: replicate 15 false) {[1 := 1; 2 := 2; 3 := 3; 4 := 4; 5 := 5; 6 := 6]} 65536 7 512 511 9.

Lemma binheap_delete_disorders : ordered six bh6 /\
  exists s' bh', binheap_delete tcmp (Some tupdate) 10 7 six bh6 1 = Some (s', bh') /\
    binheap_root bh' = Some 6 /\ member bh' 3 /\ key s' 3 < key s' 6.
Proof.
  split.
  - intros v Hv. change (1 < v < 7) in Hv.
    assert (v = 2 \/ v = 3 \/ v = 4 \/ v = 5 \/ v = 6) as [->|[->|[->|[->| ->]]]] by lia; by vm_compute.
  - eexists _, _. split; [vm_compute; reflexivity|]. split; [reflexivity|].
    split; [exists 3; split; [vm_compute; split; congruence|reflexivity]|by vm_compute].
Qed.

(** Without the optional update callback a deletion calls a null pointer. *)
Lemma binheap_delete_no_update {St : Type} (cmp : St -> Z -> Z -> option bool) fuel junk s bh i :
  binheap_delete cmp None fuel junk s bh i = None.
Proof.
  unfold binheap_delete. destruct (ROOT_IDX <? next bh), (i <? next bh), (0 <? i), (A bh i); try done.
  by destruct (negb _).
Qed.

End BinHeap.
