(* ===== verification/Hsh.v ===== *)
(** * Hsh: object heads, object cores and lookups

    [bin/varnishd/cache_hash.c]: how requests find objects.  An object head owns
    the list of the object cores with its digest and the list of the sessions
    waiting for a busy one.  Heads live in the heap of the index ([Slinger]),
    cores in [cores], and the object of a core, under the core's address, partly
    in [Ban.objs] and partly in the core's [obj].

    Every operation runs under the lock of the object head, so it is one step.
    Log records are left out.  The persistent stevedore's [SMP_Fixup], the health
    of the backend and the work queue are parameters; the fresh addresses are
    what [ALLOC_OBJ] returns. *)
From S2P Require Import Prelude Sha256 Slinger Http Double Ban Vary.

Module Hsh.
Import Slinger Double.

Definition OC_F_ONLRU : Z := Z.shiftl 1 0.
Definition OC_F_BUSY : Z := Z.shiftl 1 1.
Definition OC_F_PASS : Z := Z.shiftl 1 2.
Definition OC_F_PERSISTENT : Z := Z.shiftl 1 3.
Definition OC_F_LRUDONTMOVE : Z := Z.shiftl 1 4.

(** The part of an object that [cache_ban.c] does not work on. *)
Record object := Object {
  vary : option (list Z);
  grace : option double;      (* [None] is NaN *)
  entered : double;
  hits : Z;
  store : list Z;
  objstore : bool;
  esidata : bool;
  overflow : bool             (* of its workspace *)
}.

Record objcore := Objcore {
  refcnt : Z;
  flags : Z;
  obj : option object;
  objhead : option Z;
  timer_when : double;
  timer_idx : Z
}.

Definition set_refcnt (x : objcore) (n : Z) : objcore :=
  Objcore n (flags x) (obj x) (objhead x) (timer_when x) (timer_idx x).
Definition set_flags (x : objcore) (f : Z) : objcore :=
  Objcore (refcnt x) f (obj x) (objhead x) (timer_when x) (timer_idx x).
Definition set_obj (x : objcore) (o : option object) : objcore :=
  Objcore (refcnt x) (flags x) o (objhead x) (timer_when x) (timer_idx x).
Definition set_objhead (x : objcore) (a : option Z) : objcore :=
  Objcore (refcnt x) (flags x) (obj x) a (timer_when x) (timer_idx x).

Definition on (x : objcore) (f : Z) : bool := negb (Z.land (flags x) f =? 0).
Definition busy (x : objcore) : bool := on x OC_F_BUSY.

(** What [HSH_Deref] hands to other components. *)
Inductive call :=
  | ESI_Destroy (oc : Z)
  | SMP_FreeObj (oc : Z)
  | STV_free (st : Z)
  | STV_free_objstore (oc : Z)
  | client_drop_late (sp : Z).

Record worker := Worker {
  nobjhead : option Z;
  nobjcore : option Z;
  n_object : Z; n_objectcore : Z; n_objecthead : Z; n_vampireobject : Z; n_objoverflow : Z;
  sha256ctx : Sha256.SHA256_CTX
}.

Definition set_nobjhead (w : worker) (a : option Z) (d : Z) : worker :=
  Worker a (nobjcore w) (n_object w) (n_objectcore w) (n_objecthead w + d) (n_vampireobject w)
         (n_objoverflow w) (sha256ctx w).
Definition set_nobjcore (w : worker) (a : option Z) (d : Z) : worker :=
  Worker (nobjhead w) a (n_object w) (n_objectcore w + d) (n_objecthead w) (n_vampireobject w)
         (n_objoverflow w) (sha256ctx w).
Definition count_objects (w : worker) (o c h v ovf : Z) : worker :=
  Worker (nobjhead w) (nobjcore w) (n_object w + o) (n_objectcore w + c) (n_objecthead w + h)
         (n_vampireobject w + v) (n_objoverflow w + ovf) (sha256ctx w).

(** The fields of a session the lookup reads. *)
Record sess := Sess {
  s_id : Z;
  s_objhead : option Z;
  s_objcore : option Z;
  s_digest : list Z;
  esis : Z;
  t_req : double;
  s_http : Http.http;
  s_grace : option double
}.

Definition set_held (sp : sess) (oh oc : option Z) : sess :=
  Sess (s_id sp) oh oc (s_digest sp) (esis sp) (t_req sp) (s_http sp) (s_grace sp).

Record params := Params {
  default_grace : Z;
  rush_exponent : nat;
  diag_bitmap : Z;
  INT_MAX : Z
}.

(** ** Digests *)

Definition HSH_AddString (w : worker) (str : option (list Z)) : worker :=
  let str := c_str (default [] str) in
  let ctx := Sha256.SHA256_Update (sha256ctx w) str in
  let ctx := Sha256.SHA256_Update ctx [35] in
  Worker (nobjhead w) (nobjcore w) (n_object w) (n_objectcore w) (n_objecthead w)
         (n_vampireobject w) (n_objoverflow w) ctx.

(** The digests with edge bit conditions. *)
Definition edge (first last : Z) : list Z := first :: replicate 30 0 ++ [last].
Definition hsh_magiclist_now : list (list Z) :=
  [edge 0 0; edge 0 1; edge 0 2; edge 0 0x40; edge 0 0x80; edge 1 0; edge 2 0; edge 0x80 0; edge 0x40 0].
Definition HSH_NMAGIC : nat := 9.

Fixpoint find_was (was : list (list Z)) (d : list Z) : nat :=
  match was with
  | [] => 0
  | x :: was => if bool_decide (x = d) then 0 else S (find_was was d)
  end.

(** The list holds the digests seen so far; its length is [nused]. *)
Definition hsh_testmagic (was : list (list Z)) (d : list Z) : option (list (list Z) * list Z) :=
  let i := find_was was d in
  let was := if (i =? length was)%nat && (i <? HSH_NMAGIC)%nat then was ++ [d] else was in
  if (i =? length was)%nat then Some (was, d)
  else let? now := hsh_magiclist_now !! i in Some (was, now).

Definition HSH_Grace (p : params) (g : option double) : double :=
  match g with None => of_int (default_grace p) | Some g => g end.

Section Hash.
Context {regex : Type} (VRE_exec : regex -> list Z -> Z).
Context {P : Type} `{SL : Slinger P} (par : params).

Record cache := Cache {
  heads : gmap Z Slinger.objhead;
  index : P;
  cores : gmap Z objcore;
  banw : Ban.world (regex := regex);
  has_wrk : gset Z;         (* the sessions with a worker *)
  queued : list Z;          (* the sessions given to the work queue *)
  calls : list call;
  magic : list (list Z)     (* the digests [hsh_testmagic] trapped *)
}.

Definition set_heads (c : cache) (h : gmap Z Slinger.objhead) (p : P) : cache :=
  Cache h p (cores c) (banw c) (has_wrk c) (queued c) (calls c) (magic c).
Definition put_head (c : cache) (a : Z) (oh : Slinger.objhead) : cache :=
  set_heads c (<[a := oh]> (heads c)) (index c).
Definition set_cores (c : cache) (m : gmap Z objcore) : cache :=
  Cache (heads c) (index c) m (banw c) (has_wrk c) (queued c) (calls c) (magic c).
Definition put_core (c : cache) (a : Z) (x : objcore) : cache := set_cores c (<[a := x]> (cores c)).
Definition set_ban (c : cache) (w : Ban.world) : cache :=
  Cache (heads c) (index c) (cores c) w (has_wrk c) (queued c) (calls c) (magic c).
Definition set_sessions (c : cache) (s : gset Z) (q : list Z) : cache :=
  Cache (heads c) (index c) (cores c) (banw c) s q (calls c) (magic c).
Definition emit (c : cache) (l : list call) : cache :=
  Cache (heads c) (index c) (cores c) (banw c) (has_wrk c) (queued c) (calls c ++ l) (magic c).
Definition set_magic (c : cache) (m : list (list Z)) : cache :=
  Cache (heads c) (index c) (cores c) (banw c) (has_wrk c) (queued c) (calls c) m.

Definition set_objcs (oh : Slinger.objhead) (l : list Z) : Slinger.objhead :=
  ObjHead (Slinger.refcnt oh) (digest oh) l (waitinglist oh).
Definition set_waiting (oh : Slinger.objhead) (l : list Z) : Slinger.objhead :=
  ObjHead (Slinger.refcnt oh) (digest oh) (objcs oh) l.

(** [hash->lookup] and [hash->deref] *)
Definition hash_lookup (c : cache) (noh : Z) : option (Z * cache) :=
  let? (a, h, p) := sl_lookup (heads c) (index c) noh in Some (a, set_heads c h p).
Definition hash_deref (c : cache) (a : Z) : option (Z * cache) :=
  let? (r, h, p) := sl_deref (heads c) (index c) a in Some (r, set_heads c h p).

(** [HSH_Prealloc(sp)]; [noc] and [noh] are the addresses of new structures. *)
Definition HSH_Prealloc (c : cache) (w : worker) (noc noh : Z) : option (cache * worker) :=
  let? (c, w) :=
    match nobjcore w with
    | None =>
      assert! negb (noc =? 0) ;;
      Some (put_core c noc (Objcore 0 OC_F_BUSY None None 0 0), set_nobjcore w (Some noc) 1)
    | Some _ => Some (c, w)
    end in
  match nobjhead w with
  | None =>
    assert! negb (noh =? 0) ;;
    Some (put_head c noh (ObjHead 1 (replicate DIGEST_LEN 0) [] []), set_nobjhead w (Some noh) 1)
  | Some _ => Some (c, w)
  end.

Definition HSH_Cleanup (c : cache) (w : worker) : cache * worker :=
  let '(c, w) := match nobjcore w with
                 | Some a => (set_cores c (delete a (cores c)), set_nobjcore w None (-1))
                 | None => (c, w)
                 end in
  match nobjhead w with
  | Some a => (set_heads c (delete a (heads c)) (index c), set_nobjhead w None (-1))
  | None => (c, w)
  end.

Definition HSH_DeleteObjHead (c : cache) (w : worker) (a : Z) : option (cache * worker) :=
  let? oh := heads c !! a in
  assert! Slinger.refcnt oh =? 0 ;;
  assert! bool_decide (objcs oh = []) ;;
  Some (set_heads c (delete a (heads c)) (index c), count_objects w 0 0 (-1) 0 0).

(** The debugging hack on the digest of a head. *)
Definition testmagic (c : cache) (a : Z) : option cache :=
  if negb (Z.land (diag_bitmap par) 0x80000000 =? 0) then
    let? oh := heads c !! a in
    let? (was, d) := hsh_testmagic (magic c) (digest oh) in
    Some (put_head (set_magic c was) a (set_digest oh d))
  else Some c.

(** [HSH_Insert(sp)]; the worker's head carries the digest already. *)
Definition HSH_Insert (c : cache) (w : worker) (sp : sess) (noc noh : Z)
  : option (cache * worker * Z) :=
  let? (c, w) := HSH_Prealloc c w noc noh in
  let? noh := nobjhead w in
  let? c := testmagic c noh in
  assert! bool_decide (s_objhead sp = None) ;;
  let? (a, c) := hash_lookup c noh in
  let w := if a =? noh then set_nobjhead w None 0 else w in
  let? oh := heads c !! a in
  assert! 0 <? Slinger.refcnt oh ;;
  let? oc := nobjcore w in
  let w := set_nobjcore w None 0 in
  let? x := cores c !! oc in
  assert! negb (busy x) ;;
  let c := put_head c a (set_objcs oh (objcs oh ++ [oc])) in
  let c := put_core c oc (set_objhead (set_refcnt x 1) (Some a)) in
  Some (c, count_objects w 0 0 0 1 0, oc).

(** ** Lookup *)

Context (SMP_Fixup : cache -> Z -> Z -> option cache) (VBE_Healthy : Z -> bool).

(** The walk over the cores of a head: the core that ended it, and the last busy
    one and the last one in grace it passed. *)
Fixpoint look (l : list Z) (c : cache) (sp : sess) (a : Z) (busy_oc grace_oc : option Z)
  : option (cache * option Z * option Z * option Z) :=
  match l with
  | [] => Some (c, None, busy_oc, grace_oc)
  | oc :: l =>
    let? oh := heads c !! a in
    assert! 1 <? Slinger.refcnt oh ;;
    let? x := cores c !! oc in
    assert! bool_decide (objhead x = Some a) ;;
    let? c := if on x OC_F_PERSISTENT then SMP_Fixup c a oc else Some c in
    let? x := cores c !! oc in
    if busy x then look l c sp a (Some oc) grace_oc
    else
      let? o := Ban.objs (banw c) !! oc in
      let? o2 := obj x in
      if negb (Ban.cacheable o) then look l c sp a busy_oc grace_oc
      else if Ban.ttl o =? 0 then look l c sp a busy_oc grace_oc
      else
        let? (bw, banned) := Ban.BAN_CheckObject VRE_exec (banw c) oc (s_http sp) in
        let c := set_ban c bw in
        let? o := Ban.objs bw !! oc in
        if banned then look l c sp a busy_oc grace_oc
        else
          let? m := match vary o2 with None => Some true | Some v => Vary.VRY_Match (s_http sp) v end in
          if negb m then look l c sp a busy_oc grace_oc
          else if t_req sp <=? Ban.ttl o then Some (c, Some oc, busy_oc, grace_oc)
          else
            let grace_oc :=
              if t_req sp <=? dadd (Ban.ttl o) (HSH_Grace par (grace o2)) then Some oc else grace_oc in
            look l c sp a busy_oc grace_oc
  end.

(** The outcome of a lookup: a core and its head, or a session put aside. *)
Inductive looked := Got (oc oh : Z) | Parked.

(** A core in grace serves when nothing better is there and a fetch must wait. *)
Definition use_grace (c : cache) (sp : sess) (a : Z) (oc busy_oc grace_oc : option Z)
  : option (option Z) :=
  match oc, grace_oc with
  | None, Some g =>
    if bool_decide (is_Some busy_oc) || negb (VBE_Healthy a) then
      let? o := Ban.objs (banw c) !! g in
      Some (if t_req sp <=? dadd (Ban.ttl o) (HSH_Grace par (s_grace sp)) then Some g else None)
    else Some None
  | _, _ => Some oc
  end.

(** The found core gets a reference, the head loses the one of the lookup. *)
Definition take_core (c : cache) (a oc : Z) : option cache :=
  let? x := cores c !! oc in
  let? o := obj x in
  assert! bool_decide (objhead x = Some a) ;;
  let o := if hits o <? INT_MAX par
           then Object (vary o) (grace o) (entered o) (hits o + 1) (store o) (objstore o) (esidata o) (overflow o)
           else o in
  let c := put_core c oc (set_obj (set_refcnt x (refcnt x + 1)) (Some o)) in
  let? oh := heads c !! a in
  assert! 1 <? Slinger.refcnt oh ;;
  let? (r, c) := hash_deref c a in
  assert! negb (r =? 0) ;;
  Some c.

(** The session waits for a busy object and keeps the reference to the head. *)
Definition park (c : cache) (sp : sess) (a : Z) : option (cache * sess) :=
  let? oh := heads c !! a in
  let c := if esis sp =? 0 then put_head c a (set_waiting oh (waitinglist oh ++ [s_id sp])) else c in
  Some (set_sessions c (has_wrk c ∖ {[s_id sp]}) (queued c), set_held sp (Some a) (s_objcore sp)).

(** A busy core for the object to be fetched. *)
Definition insert_busy (c : cache) (w : worker) (a : Z) : option (cache * worker * Z) :=
  let? oc := nobjcore w in
  let w := set_nobjcore w None 0 in
  let? x := cores c !! oc in
  assert! busy x ;;
  let? oh := heads c !! a in
  let c := put_head c a (set_objcs oh (objcs oh ++ [oc])) in
  Some (put_core c oc (set_objhead (set_refcnt x 1) (Some a)), w, oc).

(** The head to search: the one the session brings, or the one of its digest. *)
Definition find_head (c : cache) (w : worker) (sp : sess) (noc noh : Z)
  : option (cache * worker * sess * Z) :=
  let? (c, w) := HSH_Prealloc c w noc noh in
  let? noh := nobjhead w in
  let? oh := heads c !! noh in
  let c := put_head c noh (set_digest oh (s_digest sp)) in
  let? c := testmagic c noh in
  match s_objhead sp with
  | Some a => Some (c, w, set_held sp None (s_objcore sp), a)
  | None =>
    let? (a, c) := hash_lookup c noh in
    Some (c, if a =? noh then set_nobjhead w None 0 else w, sp, a)
  end.

Definition HSH_Lookup (c : cache) (w : worker) (sp : sess) (noc noh : Z)
  : option (cache * worker * sess * looked) :=
  assert! bool_decide (s_id sp ∈ has_wrk c) ;;
  let? (c, w, sp, a) := find_head c w sp noc noh in
  let? oh := heads c !! a in
  assert! 0 <? Slinger.refcnt oh ;;
  let? (c, oc, busy_oc, grace_oc) := look (objcs oh) c sp a None None in
  let? oc := use_grace c sp a oc busy_oc grace_oc in
  match oc with
  | Some oc => let? c := take_core c a oc in Some (c, w, sp, Got oc a)
  | None =>
    if bool_decide (is_Some busy_oc) then
      let? (c, sp) := park c sp a in Some (c, w, sp, Parked)
    else
      let? (c, w, oc) := insert_busy c w a in Some (c, w, sp, Got oc a)
  end.

(** ** Giving up references *)

Context (WRK_QueueSession : Z -> bool).   (* true: it could not be scheduled *)

Fixpoint rush (n : nat) (c : cache) (a : Z) : option cache :=
  match n with
  | O => Some c
  | S n =>
    let? oh := heads c !! a in
    match waitinglist oh with
    | [] => Some c
    | sp :: l =>
      assert! negb (bool_decide (sp ∈ has_wrk c)) ;;
      let c := put_head c a (set_waiting oh l) in
      if WRK_QueueSession sp then Some (emit c [client_drop_late sp])
      else rush n (set_sessions c (has_wrk c) (queued c ++ [sp])) a
    end
  end.

Definition hsh_rush (c : cache) (a : Z) : option cache := rush (rush_exponent par) c a.

(** [VTAILQ_REMOVE(&oh->objcs, oc, list)] *)
Definition unlink (c : cache) (a oc : Z) : option cache :=
  let? oh := heads c !! a in
  let? l := Ban.remove oc (objcs oh) in
  Some (put_head c a (set_objcs oh l)).

(** The last lines of [HSH_Deref] and [HSH_DerefObjCore]. *)
Definition drop_head (c : cache) (w : worker) (a : Z) : option (cache * worker) :=
  let? oh := heads c !! a in
  assert! 0 <? Slinger.refcnt oh ;;
  let? (r, c) := hash_deref c a in
  if r =? 0 then HSH_DeleteObjHead c w a else Some (c, w).

Definition HSH_Unbusy (c : cache) (w : worker) (oc : Z) : option (cache * worker) :=
  let? x := cores c !! oc in
  let? a := objhead x in
  let? o2 := obj x in
  let? o := Ban.objs (banw c) !! oc in
  let? oh := heads c !! a in
  assert! busy x ;;
  assert! bool_decide (is_Some (Ban.o_ban o)) ;;
  assert! 0 <? refcnt x ;;
  assert! 0 <? Slinger.refcnt oh ;;
  let w := if overflow o2 then count_objects w 0 0 0 0 1 else w in
  let c := put_core c oc (set_flags x (Z.ldiff (flags x) OC_F_BUSY)) in
  let? c := hsh_rush c a in
  Some (c, w).

Definition HSH_Ref (c : cache) (oc : Z) : option cache :=
  let? x := cores c !! oc in
  let? _ := objhead x in
  assert! 0 <? refcnt x ;;
  Some (put_core c oc (set_refcnt x (refcnt x + 1))).

Definition HSH_DerefObjCore (c : cache) (w : worker) (sp : sess) : option (cache * worker * sess) :=
  let? a := s_objhead sp in
  let? oc := s_objcore sp in
  let sp := set_held sp None None in
  let? x := cores c !! oc in
  assert! bool_decide (objhead x = Some a) ;;
  let? c := unlink c a oc in
  let? c := if busy x then hsh_rush c a else Some c in
  let? oh := heads c !! a in
  assert! 0 <? Slinger.refcnt oh ;;
  let c := set_cores c (delete oc (cores c)) in
  let w := count_objects w 0 (-1) 0 0 0 in
  let? (r, c) := hash_deref c a in
  let? (c, w) := if r =? 0 then HSH_DeleteObjHead c w a else Some (c, w) in
  Some (c, w, sp).

(** [HSH_FindBan(sp, &oc)]: the core, if it is still on the list of its head. *)
Definition HSH_FindBan (c : cache) (oc : Z) : option (cache * option Z) :=
  let? x := cores c !! oc in
  let? a := objhead x in
  let? oh := heads c !! a in
  if bool_decide (oc ∈ objcs oh) then
    let? c := if on x OC_F_PERSISTENT then SMP_Fixup c a oc else Some c in
    let? x := cores c !! oc in
    Some (put_core c oc (set_refcnt x (refcnt x + 1)), Some oc)
  else Some (c, None).

(** What becomes of an object without references. *)
Definition free_object (c : cache) (oc : Z) (o2 : object) (o : Ban.object) : cache :=
  let c := if esidata o2 then emit c [ESI_Destroy oc] else c in
  let c := if Ban.smp_seg o then emit c [SMP_FreeObj oc]
           else emit c (map STV_free (store o2) ++ (if objstore o2 then [STV_free_objstore oc] else [])) in
  set_ban c (Ban.World (Ban.bans (banw c)) (Ban.ban_head (banw c)) (Ban.ban_start (banw c))
    (Ban.ban_magic (banw c)) (delete oc (Ban.objs (banw c))) (Ban.stat (banw c)) (Ban.events (banw c))).

(** [HSH_Deref(w, &o)] of an object with a core. *)
Definition HSH_Deref (c : cache) (w : worker) (oc : Z) : option (cache * worker) :=
  let? x := cores c !! oc in
  let? a := objhead x in
  let? oh := heads c !! a in
  assert! 0 <? Slinger.refcnt oh ;;
  assert! 0 <? refcnt x ;;
  let r := refcnt x - 1 in
  let c := put_core c oc (set_refcnt x r) in
  let? c := if r =? 0 then unlink c a oc else Some c in
  let? c := hsh_rush c a in
  if negb (r =? 0) then Some (c, w)
  else
    let? bw := Ban.BAN_DestroyObj (banw c) oc in
    let c := set_ban c bw in
    let? o := Ban.objs (banw c) !! oc in
    let? o2 := obj x in
    assert! bool_decide (Ban.o_ban o = None) ;;
    let c := free_object c oc o2 o in
    let w := count_objects w (-1) 0 0 0 0 in
    let c := set_cores c (delete oc (cores c)) in
    let w := count_objects w 0 (-1) 0 0 0 in
    drop_head c w a.

(** [HSH_Deref] of a passed object, which has no core: [o2] is the object.  For
    such an object [HSH_Drop] does nothing more. *)
Definition HSH_Deref_pass (c : cache) (w : worker) (o : Z) (o2 : object) : cache * worker :=
  let c := if esidata o2 then emit c [ESI_Destroy o] else c in
  (emit c (map STV_free (store o2) ++ (if objstore o2 then [STV_free_objstore o] else [])),
   count_objects w (-1) 0 0 0 0).

(** [HSH_Drop(sp)] of an object with a core. *)
Definition HSH_Drop (c : cache) (w : worker) (oc : Z) : option (cache * worker) :=
  let? x := cores c !! oc in
  assert! 0 <? refcnt x ;;
  assert! busy x ;;
  let? o := Ban.objs (banw c) !! oc in
  let c := set_ban c (Ban.put_obj (banw c) oc
             (Ban.Obj (Ban.o_ban o) (Ban.ban_t o) 0 false (Ban.o_http o) (Ban.smp_seg o))) in
  let? (c, w) := HSH_Unbusy c w oc in
  HSH_Deref c w oc.
End Hash.

End Hsh.
