(* ===== verification/HshSpec.v ===== *)
(** * HshSpec: correctness of the lookup and of the reference counts

    The invariant [hinv] counts references: a head's count is the number of its
    object cores, of the sessions on its waiting list, and of the references
    held elsewhere ([xh]).  The theorems say which core a lookup chooses, that no
    assertion fails, that every operation keeps the counts, and that a head goes
    away exactly with its last reference.  The proofs use the index only through
    its interface [Slinger] and the bans only through [BanSpec]. *)
From S2P Require Import Prelude Sha256 Slinger SimpleList Http Double Ban BanSpec Vary Hsh.

Module HshSpec.
Import Slinger Double Hsh.

(** ** Bans as the lookup sees them *)

(** The bans newer than [b]. *)
Fixpoint before (b : Z) (l : list Z) : list Z :=
  match l with
  | [] => []
  | a :: l => if a =? b then [] else a :: before b l
  end.

Lemma before_app b pre post : b ∉ pre -> before b (pre ++ b :: post) = pre.
Proof.
  induction pre as [|a pre IH]; intros Hb; cbn [app before]; [by rewrite Z.eqb_refl|].
  apply not_elem_of_cons in Hb as [H1 H2]. rewrite (proj2 (Z.eqb_neq a b)) by congruence.
  by rewrite IH.
Qed.

Section Spec.
Context {regex : Type} (VRE_exec : regex -> list Z -> Z).
Context {P : Type} {SL : Slinger P} (par : params).
Notation cache := (Hsh.cache (regex := regex) (P := P)).
Notation world := (Ban.world (regex := regex)).

(** The verdict of [BAN_CheckObject]. *)
Definition banned (w : world) (oc : Z) (sh : Http.http) : bool :=
  match Ban.objs w !! oc with
  | Some o =>
    match Ban.o_ban o with
    | Some ob => bool_decide (is_Some
        (BanSpec.first_hit VRE_exec (Ban.bans w) (before ob (Ban.ban_head w)) (Ban.o_http o) sh))
    | None => false
    end
  | None => false
  end.

Lemma check_spec xb (w : world) oc o sh : BanSpec.inv xb w -> Ban.objs w !! oc = Some o ->
  is_Some (Ban.o_ban o) ->
  exists w', Ban.BAN_CheckObject VRE_exec w oc sh = Some (w', banned w oc sh) /\ BanSpec.inv xb w' /\
    BanSpec.checked w oc o (banned w oc sh) w'.
Proof.
  intros I Ho [ob Hb]. unfold banned. rewrite Ho, Hb.
  destruct (BanSpec.split_at VRE_exec xb w ob I) as (pre & post & El & Np & _);
    [by eapply (BanSpec.i_refd xb w I)|].
  destruct (BanSpec.check_object_spec VRE_exec xb w oc o ob pre post sh true I Ho Hb El Np)
    as [(w' & E & I' & C & _)|[[=] _]].
  assert (B : before ob (Ban.ban_head w) = pre) by (rewrite El; by apply before_app).
  rewrite B. by exists w'.
Qed.

Lemma first_hit_ext (m m' : gmap Z (Ban.ban (regex := regex))) l oh sh :
  (forall a, (fun b => (Ban.flags b, Ban.tests b)) <$> m' !! a = (fun b => (Ban.flags b, Ban.tests b)) <$> m !! a) ->
  BanSpec.first_hit VRE_exec m' l oh sh = BanSpec.first_hit VRE_exec m l oh sh.
Proof.
  intros H. induction l as [|a l IH]; [done|]. cbn [BanSpec.first_hit]. specialize (H a).
  destruct (m' !! a) as [b'|], (m !! a) as [b|]; simpl in H; try done.
  injection H as Ef Et. unfold BanSpec.live, BanSpec.hits. by rewrite Ef, Et, IH.
Qed.

Lemma banned_frame (w w' : world) oc o v oc' sh : BanSpec.checked w oc o v w' -> oc' <> oc ->
  banned w' oc' sh = banned w oc' sh.
Proof.
  intros (E1 & _ & E3 & E4 & _) N. unfold banned. rewrite E3 by done.
  destruct (Ban.objs w !! oc') as [o'|]; [|done]. destruct (Ban.o_ban o'); [|done].
  rewrite E1, (first_hit_ext (Ban.bans w) (Ban.bans w')); [done|]. intros a. specialize (E4 a).
  destruct (Ban.bans w' !! a), (Ban.bans w !! a); simpl in *; congruence.
Qed.

(** ** The choice of a lookup *)

(** What a core is to a request. *)
Inductive rank := Skip | IsBusy | InGrace | Live.

Definition vary_ok (sp : sess) (v : option (list Z)) : bool :=
  match v with None => true | Some v => default false (Vary.VRY_Match (s_http sp) v) end.

Definition classify (c : cache) (sp : sess) (oc : Z) : rank :=
  match cores c !! oc with
  | None => Skip
  | Some x =>
    if busy x then IsBusy
    else match Ban.objs (banw c) !! oc, obj x with
         | Some o, Some o2 =>
           if Ban.cacheable o && negb (Ban.ttl o =? 0) && negb (banned (banw c) oc (s_http sp))
              && vary_ok sp (vary o2) then
             if t_req sp <=? Ban.ttl o then Live
             else if t_req sp <=? dadd (Ban.ttl o) (HSH_Grace par (grace o2)) then InGrace else Skip
           else Skip
         | _, _ => Skip
         end
  end.

Definition usable (r : rank) : bool := match r with InGrace | Live => true | _ => false end.

(** The first live core; the last busy one and the last in grace before it. *)
Fixpoint pick (rank_of : Z -> rank) (l : list Z) (b g : option Z) : option Z * option Z * option Z :=
  match l with
  | [] => (None, b, g)
  | oc :: l =>
    match rank_of oc with
    | Live => (Some oc, b, g)
    | IsBusy => pick rank_of l (Some oc) g
    | InGrace => pick rank_of l b (Some oc)
    | Skip => pick rank_of l b g
    end
  end.

(** An encoding [VRY_Create] can have written. *)
Definition good_vary (v : list Z) : Prop :=
  exists l, v = Vary.encoded l /\ Forall (fun x => Http.token x.1) l /\ Vary.short l.

Lemma good_vary_total sp v : good_vary v -> is_Some (Vary.VRY_Match (s_http sp) v).
Proof.
  intros (l & -> & Ht & Hs). unfold Vary.VRY_Match.
  rewrite (Vary.match_loop_spec (s_http sp) l) by (try done; pose proof (Vary.encoded_len l); lia). eauto.
Qed.

(** A finished object on a list: with its ban, unless it is banned. *)
Definition good_obj (w : world) (oc : Z) (x : objcore) : Prop :=
  exists o o2, Ban.objs w !! oc = Some o /\ obj x = Some o2 /\
    (Ban.o_ban o = None -> Ban.cacheable o = false) /\
    forall v, vary o2 = Some v -> good_vary v.

(** What checking does to objects: nothing the lookup can see, or a ban. *)
Definition rechecked (w w' : world) : Prop := forall oc o, Ban.objs w !! oc = Some o ->
  exists o', Ban.objs w' !! oc = Some o' /\
    (Ban.cacheable o' = false \/ Ban.cacheable o' = Ban.cacheable o /\ Ban.ttl o' = Ban.ttl o) /\
    (Ban.o_ban o' = None -> Ban.o_ban o = None \/ Ban.cacheable o' = false).

#[global] Instance rechecked_pre : PreOrder rechecked.
Proof.
  split.
  - intros w oc o Ho. exists o. auto.
  - intros w1 w2 w3 H1 H2 oc o Ho. destruct (H1 oc o Ho) as (o1 & E1 & A1 & B1).
    destruct (H2 oc o1 E1) as (o2 & E2 & A2 & B2). exists o2. split; [done|]. split.
    + destruct A2 as [?|[-> ->]]; [by left|exact A1].
    + intros N. destruct (B2 N) as [N1|?]; [|by right]. destruct (B1 N1) as [?|C]; [by left|].
      right. destruct A2 as [?|[-> _]]; assumption.
Qed.

Lemma checked_rechecked (w w' : world) oc o v : Ban.objs w !! oc = Some o -> is_Some (Ban.o_ban o) ->
  BanSpec.checked w oc o v w' -> rechecked w w'.
Proof.
  intros Ho [ob Hob] (_ & _ & E3 & _ & o' & Eo & _ & Hv) oc' o1 H1. destruct (decide (oc' = oc)) as [->|N].
  - exists o'. split; [done|]. assert (o1 = o) as -> by congruence. destruct v.
    + destruct Hv as (_ & _ & C). auto.
    + destruct Hv as (B & T & C). rewrite B. split; [by right|done].
  - exists o1. rewrite E3 by done. auto.
Qed.

Lemma rechecked_good (w w' : world) oc x : rechecked w w' -> good_obj w oc x -> good_obj w' oc x.
Proof.
  intros R (o & o2 & Ho & E & B & V). destruct (R oc o Ho) as (o' & Ho' & A & B').
  exists o', o2. split_and!; [done..| |done]. intros N. destruct (B' N) as [N'|?]; [|done].
  destruct A as [?|[-> _]]; auto.
Qed.

Section Walk.
Context (SMP_Fixup : cache -> Z -> Z -> option cache).
Notation look := (Hsh.look VRE_exec par SMP_Fixup).

Lemma set_ban_id (c : cache) : set_ban c (banw c) = c.
Proof. by destruct c. Qed.

(** A core the walk can come across. *)
Definition visitable (c : cache) (a oc : Z) : Prop := exists x, cores c !! oc = Some x /\ objhead x = Some a /\
  on x OC_F_PERSISTENT = false /\ (busy x = false -> good_obj (banw c) oc x).

(** One turn: the rank decides, and only the object of this core can change. *)
Lemma look_one xb (c : cache) sp a oh oc l b g : heads c !! a = Some oh -> 1 < Slinger.refcnt oh ->
  BanSpec.inv xb (banw c) -> visitable c a oc ->
  exists w, look (oc :: l) c sp a b g =
      match classify c sp oc with
      | Live => Some (set_ban c w, Some oc, b, g)
      | IsBusy => look l (set_ban c w) sp a (Some oc) g
      | InGrace => look l (set_ban c w) sp a b (Some oc)
      | Skip => look l (set_ban c w) sp a b g
      end /\
    BanSpec.inv xb w /\ rechecked (banw c) w /\
    (forall oc', oc' <> oc -> Ban.objs w !! oc' = Ban.objs (banw c) !! oc' /\
       classify (set_ban c w) sp oc' = classify c sp oc') /\
    (usable (classify c sp oc) = true -> Ban.ttl <$> Ban.objs w !! oc = Ban.ttl <$> Ban.objs (banw c) !! oc).
Proof.
  intros Ha Hr Hi (x & Ex & Eh & Ep & Hg). cbn [Hsh.look]. rewrite Ha, (proj2 (Z.ltb_lt 1 _)) by lia.
  rewrite Ex, bool_decide_true, Ep by done. cbn iota. rewrite Ex. unfold classify at 1 4. rewrite Ex.
  destruct (busy x) eqn:Eb; [exists (banw c); rewrite set_ban_id; by split_and!|].
  destruct (Hg eq_refl) as (o & o2 & Eo & E2 & Bn & Vn). rewrite Eo, E2.
  destruct (Ban.cacheable o) eqn:Ec; cbn [negb andb]; [|exists (banw c); rewrite set_ban_id; by split_and!].
  destruct (Ban.ttl o =? 0) eqn:Et; cbn [negb andb]; [exists (banw c); rewrite set_ban_id; by split_and!|].
  assert (Hb : is_Some (Ban.o_ban o)) by (destruct (Ban.o_ban o); [eauto|by specialize (Bn eq_refl)]).
  destruct (check_spec xb (banw c) oc o (s_http sp) Hi Eo Hb) as (w1 & -> & I1 & C1).
  pose proof (checked_rechecked _ _ _ _ _ Eo Hb C1) as R1.
  pose proof C1 as (_ & _ & F1 & _ & o1 & Eo1 & _ & V1). rewrite Eo1. exists w1.
  assert (Rest : BanSpec.inv xb w1 /\ rechecked (banw c) w1 /\
    (forall oc', oc' <> oc -> Ban.objs w1 !! oc' = Ban.objs (banw c) !! oc' /\
       classify (set_ban c w1) sp oc' = classify c sp oc')).
  { split; [done|]. split; [done|]. intros oc' N. split; [by apply F1|]. unfold classify.
    cbn [cores set_ban banw]. by rewrite (banned_frame _ _ _ _ _ _ _ C1 N), F1. }
  destruct Rest as (G1 & G2 & G3).
  destruct (banned (banw c) oc (s_http sp)); cbn [negb andb]; [by split_and!|].
  destruct V1 as (B1 & T1 & K1). rewrite T1. simpl.
  assert (Ev : exists m, (match vary o2 with None => Some true | Some v => Vary.VRY_Match (s_http sp) v end) = Some m /\
    vary_ok sp (vary o2) = m).
  { unfold vary_ok. destruct (vary o2) as [v|]; [|by eexists].
    destruct (good_vary_total sp v (Vn v eq_refl)) as [m ->]. by exists m. }
  destruct Ev as (m & -> & ->). destruct m; cbn [negb]; [|by split_and!].
  assert (Tt : Ban.ttl <$> Ban.objs w1 !! oc = Some (Ban.ttl o)) by (rewrite Eo1; simpl; congruence).
  destruct (t_req sp <=? Ban.ttl o); [|destruct (t_req sp <=? _)]; by split_and!.
Qed.

Lemma visitable_recheck (c : cache) w a oc : rechecked (banw c) w -> visitable c a oc -> visitable (set_ban c w) a oc.
Proof.
  intros R (x & E1 & E2 & E3 & G). exists x. split_and!; try done. intros Hb. eapply rechecked_good; [exact R|by apply G].
Qed.

Lemma pick_ext f f' l : (forall oc, oc ∈ l -> f oc = f' oc) -> forall b g, pick f l b g = pick f' l b g.
Proof.
  induction l as [|oc l IH]; intros H b g; [done|]. cbn [pick]. rewrite H by left.
  rewrite !IH; [done|..]; intros; apply H; by right.
Qed.

Lemma look_spec xb sp a oh l : forall (c : cache) b g,
  heads c !! a = Some oh -> (l = [] \/ 1 < Slinger.refcnt oh) -> NoDup l -> BanSpec.inv xb (banw c) ->
  (forall oc, oc ∈ l -> visitable c a oc) ->
  exists w f b' g', look l c sp a b g = Some (set_ban c w, f, b', g') /\
    (f, b', g') = pick (classify c sp) l b g /\ BanSpec.inv xb w /\ rechecked (banw c) w /\
    (forall oc, oc ∉ l \/ usable (classify c sp oc) = true ->
       Ban.ttl <$> Ban.objs w !! oc = Ban.ttl <$> Ban.objs (banw c) !! oc).
Proof.
  induction l as [|oc l IH]; intros c b g Ha Hr Hn Hi Hl.
  { exists (banw c), None, b, g. by rewrite set_ban_id. }
  destruct Hr as [[=]|Hr]. apply NoDup_cons in Hn as [Hoc Hn].
  destruct (look_one xb c sp a oh oc l b g Ha Hr Hi) as (w1 & -> & I1 & R1 & F1 & T1); [apply Hl; left|].
  assert (T : forall oc', oc' ∉ oc :: l \/ usable (classify c sp oc') = true ->
    Ban.ttl <$> Ban.objs w1 !! oc' = Ban.ttl <$> Ban.objs (banw c) !! oc').
  { intros oc' H. destruct (decide (oc' = oc)) as [->|N]; [|by rewrite (proj1 (F1 oc' N))].
    destruct H as [H|H]; [|by apply T1]. apply not_elem_of_cons in H as [? _]. done. }
  assert (Next : forall b g, exists w f b' g', look l (set_ban c w1) sp a b g = Some (set_ban c w, f, b', g') /\
    (f, b', g') = pick (classify c sp) l b g /\ BanSpec.inv xb w /\ rechecked (banw c) w /\
    (forall oc', oc' ∉ oc :: l \/ usable (classify c sp oc') = true ->
       Ban.ttl <$> Ban.objs w !! oc' = Ban.ttl <$> Ban.objs (banw c) !! oc')).
  { intros b0 g0. destruct (IH (set_ban c w1) b0 g0 Ha (or_intror Hr) Hn I1) as (w & f & b' & g' & E & Ep' & I & R & F).
    { intros oc' H'. apply visitable_recheck; [done|]. apply Hl. by right. }
    exists w, f, b', g'. split; [exact E|]. split; [|split; [done|split; [by etrans|]]].
    - rewrite Ep'. apply pick_ext. intros oc' H'. apply F1. by intros ->.
    - intros oc' H. rewrite F; [by apply T|]. destruct (decide (oc' = oc)) as [->|N]; [by left|].
      destruct H as [H|H]; [left; apply not_elem_of_cons in H; tauto|right; by rewrite (proj2 (F1 oc' N))]. }
  cbn [pick]. destruct (classify c sp oc); try apply Next. by exists w1, (Some oc), b, g.
Qed.

End Walk.

(** ** The invariant *)

(** A listed core: referenced, not on persistent storage, with a finished object
    unless it is busy. *)
Definition good_core (w : world) (oc : Z) (x : objcore) : Prop :=
  0 < refcnt x /\ on x OC_F_PERSISTENT = false /\ (busy x = false -> good_obj w oc x).

(** [M] is the index the heads implement, [xh] the references to heads that are
    neither a core's nor a waiting session's, [xb] those to bans.  The cores in
    [ex] are being taken down. *)
Record hinv (ex : gset Z) (xh xb : Z -> Z) (c : cache) (M : Slinger.index) : Prop := {
  h_index : sl_inv (heads c) (Hsh.index c) M;
  h_ref : forall d a oh, M !! d = Some a -> heads c !! a = Some oh ->
    Slinger.refcnt oh = Z.of_nat (length (objcs oh)) + Z.of_nat (length (waitinglist oh)) + xh a /\ 0 <= xh a;
  h_uniq : forall d a oh, M !! d = Some a -> heads c !! a = Some oh -> NoDup (objcs oh);
  h_list : forall d a oh oc, M !! d = Some a -> heads c !! a = Some oh ->
    (oc ∈ objcs oh <-> oc ∉ ex /\ exists x, cores c !! oc = Some x /\ objhead x = Some a);
  h_home : forall oc x a, oc ∉ ex -> cores c !! oc = Some x -> objhead x = Some a -> exists d, M !! d = Some a;
  h_core : forall oc x a, oc ∉ ex -> cores c !! oc = Some x -> objhead x = Some a -> good_core (banw c) oc x;
  h_ban : BanSpec.inv xb (banw c);
  h_wait : forall d a oh sp, M !! d = Some a -> heads c !! a = Some oh -> sp ∈ waitinglist oh -> sp ∉ has_wrk c;
  h_none : forall a, (forall d, M !! d <> Some a) -> xh a = 0
}.

(** One reference more or less to a head. *)
Definition upd (f : Z -> Z) (a d : Z) : Z -> Z := fun b => if b =? a then f b + d else f b.

Lemma upd_eq f a d : upd f a d a = f a + d.
Proof. unfold upd. by rewrite Z.eqb_refl. Qed.

Lemma upd_ne f a d b : b <> a -> upd f a d b = f b.
Proof. intros. unfold upd. by rewrite (proj2 (Z.eqb_neq b a)). Qed.

Lemma hinv_ext ex xh xh' xb c M : (forall b, xh' b = xh b) -> hinv ex xh xb c M -> hinv ex xh' xb c M.
Proof.
  intros H [A1 A2 A3 A4 A5 A6 A7 A8 A9]. split; try done.
  - intros d a oh H1 H2. rewrite H. by apply (A2 d).
  - intros a Ha. rewrite H. by apply A9.
Qed.

Lemma indexed ex xh xb c M d a : hinv ex xh xb c M -> M !! d = Some a -> exists oh, heads c !! a = Some oh /\ digest oh = d.
Proof.
  intros I E. destruct (sl_entry _ _ _ _ _ (h_index _ _ _ _ _ I) E) as (_ & oh & ? & ? & _). eauto.
Qed.

Lemma xh_nonneg ex xh xb c M a : hinv ex xh xb c M -> 0 <= xh a.
Proof.
  intros I. destruct (decide (map_Exists (fun _ b => b = a) M)) as [(d & b & Hd & ->)|N].
  - destruct (indexed _ _ _ _ _ _ _ I Hd) as (oh & Ea & _). by apply (h_ref _ _ _ _ _ I d a oh).
  - rewrite (h_none _ _ _ _ _ I); [lia|]. intros d Hd. apply N. by exists d, a.
Qed.

(** A head keeps its name. *)
Lemma digest_unique ex xh xb c M d d' a : hinv ex xh xb c M -> M !! d = Some a -> M !! d' = Some a -> d' = d.
Proof. intros I E1 E2. by apply (index_inj _ _ _ _ _ _ (h_index _ _ _ _ _ I) E2 E1). Qed.

(** The step every operation on the lists of one head is an instance of. *)
Lemma hinv_lists ex ex' xh xh' xb c (c' : cache) M d a oh l wl :
  hinv ex xh xb c M -> M !! d = Some a -> heads c !! a = Some oh ->
  heads c' = <[a := ObjHead (Slinger.refcnt oh) (digest oh) l wl]> (heads c) -> Hsh.index c' = Hsh.index c ->
  banw c' = banw c ->
  Z.of_nat (length l) + Z.of_nat (length wl) + xh' a = Z.of_nat (length (objcs oh)) + Z.of_nat (length (waitinglist oh)) + xh a ->
  0 <= xh' a -> (forall b, b <> a -> xh' b = xh b) -> NoDup l ->
  (forall oc, oc ∈ l <-> oc ∉ ex' /\ exists x, cores c' !! oc = Some x /\ objhead x = Some a) ->
  (forall oc b, b <> a -> (oc ∉ ex' /\ exists x, cores c' !! oc = Some x /\ objhead x = Some b) <->
                          (oc ∉ ex /\ exists x, cores c !! oc = Some x /\ objhead x = Some b)) ->
  (forall oc x b, oc ∉ ex' -> cores c' !! oc = Some x -> objhead x = Some b -> good_core (banw c') oc x) ->
  (forall sp, sp ∈ wl -> sp ∉ has_wrk c') ->
  (forall sp b ob, b <> a -> heads c !! b = Some ob -> sp ∈ waitinglist ob -> sp ∉ has_wrk c -> sp ∉ has_wrk c') ->
  hinv ex' xh' xb c' M.
Proof.
  intros I Ed Ea Eh Ei Eb Hc H0 Hx Hn Hl Ho Hg Hw Hw'. 
  assert (L : forall d' b ob, M !! d' = Some b -> heads c' !! b = Some ob ->
    b = a /\ ob = ObjHead (Slinger.refcnt oh) (digest oh) l wl \/ b <> a /\ heads c !! b = Some ob).
  { intros d' b ob _. rewrite Eh. destruct (decide (b = a)) as [->|N].
    - rewrite lookup_insert_eq. intros [= <-]. by left.
    - rewrite lookup_insert_ne by done. by right. }
  split.
  - rewrite Eh, Ei. by apply inv_lists; [apply (h_index _ _ _ _ _ I)|].
  - intros d' b ob E1 E2. destruct (L d' b ob E1 E2) as [[-> ->]|[N E]]; simpl.
    + destruct (h_ref _ _ _ _ _ I d a oh Ed Ea). lia.
    + rewrite Hx by done. by apply (h_ref _ _ _ _ _ I d').
  - intros d' b ob E1 E2. destruct (L d' b ob E1 E2) as [[-> ->]|[N E]]; [done|by apply (h_uniq _ _ _ _ _ I d' b)].
  - intros d' b ob oc E1 E2. destruct (L d' b ob E1 E2) as [[-> ->]|[N E]]; [apply Hl|].
    rewrite (Ho oc b N). by apply (h_list _ _ _ _ _ I d').
  - intros oc x b H1 H2 H3. destruct (decide (b = a)) as [->|N]; [by exists d|].
    destruct (proj1 (Ho oc b N)) as (K1 & y & K2 & K3); [eauto|]. by apply (h_home _ _ _ _ _ I oc y).
  - exact Hg.
  - rewrite Eb. apply (h_ban _ _ _ _ _ I).
  - intros d' b ob sp E1 E2 Hsp. destruct (L d' b ob E1 E2) as [[-> ->]|[N E]]; [by apply Hw|].
    apply (Hw' sp b ob N E Hsp). by apply (h_wait _ _ _ _ _ I d' b ob).
  - intros b Nb. rewrite Hx by (intros ->; by apply (Nb d)). by apply (h_none _ _ _ _ _ I).
Qed.

(** Giving up a reference to a head that is not the last. *)
Lemma hinv_deref_more ex xh xb c M d a oh : hinv ex xh xb c M -> M !! d = Some a -> heads c !! a = Some oh ->
  1 < Slinger.refcnt oh -> 1 <= xh a ->
  exists c', hash_deref c a = Some (1, c') /\ hinv ex (upd xh a (-1)) xb c' M /\
    cores c' = cores c /\ banw c' = banw c /\ has_wrk c' = has_wrk c /\ queued c' = queued c /\
    (forall b, b <> a -> heads c' !! b = heads c !! b) /\ heads c' !! a = Some (Slinger.set_refcnt oh (Slinger.refcnt oh - 1)) /\
    sl_held (Hsh.index c') = sl_held (Hsh.index c).
Proof.
  intros I Ed Ea Hr Hx. destruct (sl_deref_more _ _ _ d a oh (h_index _ _ _ _ _ I) Ed Ea Hr) as (p' & E & Hh & Hi).
  unfold hash_deref. rewrite E. eexists. split; [reflexivity|]. cbn [set_heads cores banw has_wrk queued heads Hsh.index].
  split; [|split_and!; try done; [intros b N; by rewrite lookup_insert_ne|by rewrite lookup_insert_eq]].
  assert (L : forall b ob, <[a:=Slinger.set_refcnt oh (Slinger.refcnt oh - 1)]> (heads c) !! b = Some ob ->
    b = a /\ ob = Slinger.set_refcnt oh (Slinger.refcnt oh - 1) \/ b <> a /\ heads c !! b = Some ob).
  { intros b ob H. apply lookup_insert_Some in H as [[<- <-]|[N H]]; auto. }
  split; cbn [set_heads cores banw has_wrk queued heads Hsh.index]; try by apply I.
  - done.
  - intros d' b ob E1 E2. destruct (L b ob E2) as [[-> ->]|[N E']]; simpl.
    + rewrite upd_eq. destruct (h_ref _ _ _ _ _ I d a oh Ed Ea). lia.
    + rewrite upd_ne by done. by apply (h_ref _ _ _ _ _ I d').
  - intros d' b ob E1 E2. destruct (L b ob E2) as [[-> ->]|[N E']]; [by apply (h_uniq _ _ _ _ _ I d a oh)|by apply (h_uniq _ _ _ _ _ I d' b)].
  - intros d' b ob oc E1 E2. destruct (L b ob E2) as [[-> ->]|[N E']]; [by apply (h_list _ _ _ _ _ I d a oh)|by apply (h_list _ _ _ _ _ I d')].
  - intros d' b ob sp E1 E2. destruct (L b ob E2) as [[-> ->]|[N E']]; [by apply (h_wait _ _ _ _ _ I d a oh)|by apply (h_wait _ _ _ _ _ I d' b)].
  - intros b Nb. rewrite upd_ne by (intros ->; by apply (Nb d)). by apply (h_none _ _ _ _ _ I).
Qed.

(** The last reference: the head leaves the index, and its memory unless the
    index keeps it. *)
Lemma drop_head_spec xh xb c (w : worker) M d a oh : hinv ∅ xh xb c M -> M !! d = Some a -> heads c !! a = Some oh ->
  1 <= xh a ->
  exists (c' : cache) w' M', drop_head c w a = Some (c', w') /\ hinv ∅ (upd xh a (-1)) xb c' M' /\
    cores c' = cores c /\ banw c' = banw c /\ has_wrk c' = has_wrk c /\ queued c' = queued c /\
    M' = (if Slinger.refcnt oh =? 1 then delete d M else M).
Proof.
  intros I Ed Ea Hx. destruct (h_ref _ _ _ _ _ I d a oh Ed Ea) as [Hr Hp]. unfold drop_head. rewrite Ea.
  rewrite (proj2 (Z.ltb_lt 0 _)) by lia. destruct (Z.eqb_spec (Slinger.refcnt oh) 1) as [E1|N1].
  2:{ destruct (hinv_deref_more ∅ xh xb c M d a oh I Ed Ea) as (c' & -> & I' & E); [lia|lia|].
      exists c', w, M. split; [done|]. split; [done|]. destruct_and! E. done. }
  assert (Eo : objcs oh = []) by (destruct (objcs oh); [done|simpl in Hr; lia]).
  assert (Ew : waitinglist oh = []) by (destruct (waitinglist oh); [done|simpl in Hr; lia]).
  destruct (sl_deref_last _ _ _ d a oh (h_index _ _ _ _ _ I) Ed Ea E1 Eo Ew) as (r & oh' & p' & E & R0 & O0 & W0 & Hh & Hi).
  unfold hash_deref. rewrite E.
  assert (Rest : forall h, sl_inv h p' (delete d M) -> (forall b, b <> a -> h !! b = heads c !! b) ->
    forall w0 : worker, exists (c' : cache) w' M', Some (set_heads c h p', w0) = Some (c', w') /\
    hinv ∅ (upd xh a (-1)) xb c' M' /\ cores c' = cores c /\ banw c' = banw c /\ has_wrk c' = has_wrk c /\
    queued c' = queued c /\ M' = delete d M).
  { intros h Hi' Hb w0. exists (set_heads c h p'), w0, (delete d M). split; [done|]. split; [|done].
    assert (Nd : forall d' b, delete d M !! d' = Some b -> M !! d' = Some b /\ b <> a).
    { intros d' b H. apply lookup_delete_Some in H as [N H]. split; [done|]. intros ->.
      apply N. symmetry. by eapply (digest_unique _ _ _ _ _ d d' a). }
    split; cbn [set_heads cores banw has_wrk queued heads Hsh.index].
    - done.
    - intros d' b ob H1 H2. apply Nd in H1 as [H1 Nb]. rewrite Hb in H2 by done. rewrite upd_ne by done.
      by apply (h_ref _ _ _ _ _ I d').
    - intros d' b ob H1 H2. apply Nd in H1 as [H1 Nb]. rewrite Hb in H2 by done. by apply (h_uniq _ _ _ _ _ I d' b).
    - intros d' b ob oc H1 H2. apply Nd in H1 as [H1 Nb]. rewrite Hb in H2 by done. by apply (h_list _ _ _ _ _ I d').
    - intros oc x b H1 H2 H3. destruct (h_home _ _ _ _ _ I oc x b H1 H2 H3) as [d' Hd].
      exists d'. apply lookup_delete_Some. split; [|done]. intros ->.
      assert (b = a) as -> by congruence.
      assert (K : oc ∈ objcs oh) by (apply (h_list _ _ _ _ _ I d' a oh oc Ed Ea); eauto).
      rewrite Eo in K. by apply not_elem_of_nil in K.
    - apply (h_core _ _ _ _ _ I).
    - apply (h_ban _ _ _ _ _ I).
    - intros d' b ob sp H1 H2. apply Nd in H1 as [H1 Nb]. rewrite Hb in H2 by done. by apply (h_wait _ _ _ _ _ I d' b).
    - intros b Nb. unfold upd. destruct (Z.eqb_spec b a) as [->|N]; [rewrite Eo, Ew in Hr; simpl in Hr; lia|].
      apply (h_none _ _ _ _ _ I). intros d' Hd. apply (Nb d'). apply lookup_delete_Some. split; [|done].
      intros ->. congruence. }
  destruct (Z.eqb_spec r 0) as [->|Nr].
  - unfold HSH_DeleteObjHead. cbn [heads set_heads]. rewrite lookup_insert_eq, R0, bool_decide_true by done.
    cbn [Z.eqb Hsh.index]. 
    change (set_heads (set_heads c (<[a:=oh']> (heads c)) p') (delete a (<[a:=oh']> (heads c))) p')
      with (set_heads c (delete a (<[a:=oh']> (heads c))) p').
    apply Rest.
    + apply inv_free; [done|]. rewrite Hh. set_solver.
    + intros b N. by rewrite lookup_delete_ne, lookup_insert_ne by done.
  - apply Rest; [done|]. intros b N. by rewrite lookup_insert_ne by done.
Qed.

(** ** Waking sessions, giving up objects *)

Section Wake.
Context (WRK_QueueSession : Z -> bool).
Notation rush := (Hsh.rush WRK_QueueSession).
Notation hsh_rush := (Hsh.hsh_rush par WRK_QueueSession).

(** What an operation leaves alone besides the lists of one head. *)
Definition same_but_head (a : Z) (c c' : cache) : Prop :=
  cores c' = cores c /\ banw c' = banw c /\ has_wrk c' = has_wrk c /\ Hsh.index c' = Hsh.index c /\
  forall b, b <> a -> heads c' !! b = heads c !! b.

#[global] Instance same_but_head_pre a : PreOrder (same_but_head a).
Proof.
  split; [intros c; by split_and!|]. intros c1 c2 c3 (A1 & A2 & A3 & A4 & A5) (B1 & B2 & B3 & B4 & B5).
  split_and!; try congruence. intros b N. by rewrite B5, A5.
Qed.

Lemma rush_spec n : forall ex xh xb c M d a oh, hinv ex xh xb c M -> M !! d = Some a -> heads c !! a = Some oh ->
  exists c' woken left, rush n c a = Some c' /\ waitinglist oh = woken ++ left /\ (length woken <= n)%nat /\
    hinv ex (upd xh a (Z.of_nat (length woken))) xb c' M /\ same_but_head a c c' /\
    heads c' !! a = Some (set_waiting oh left) /\
    queued c' = queued c ++ List.filter (fun sp => negb (WRK_QueueSession sp)) woken /\
    ((forall sp, sp ∈ waitinglist oh -> WRK_QueueSession sp = false) -> woken = List.firstn n (waitinglist oh)).
Proof.
  induction n as [|n IH]; intros ex xh xb c M d a oh I Ed Ea; cbn [Hsh.rush].
  - exists c, [], (waitinglist oh). split; [done|]. split; [done|]. split; [done|]. split.
    { eapply hinv_ext; [|exact I]. intros b. unfold upd. simpl. destruct (b =? a); lia. }
    split; [done|]. split; [rewrite Ea; by destruct oh|by rewrite app_nil_r].
  - rewrite Ea. destruct (waitinglist oh) as [|sp l] eqn:Ew.
    { exists c, [], []. split; [done|]. split; [done|]. split; [simpl; lia|]. split.
      { eapply hinv_ext; [|exact I]. intros b. unfold upd. simpl. destruct (b =? a); lia. }
      split; [done|]. split; [rewrite Ea; destruct oh; simpl in Ew; by subst|by rewrite app_nil_r]. }
    assert (Hs : sp ∉ has_wrk c) by (apply (h_wait _ _ _ _ _ I d a oh sp Ed Ea); rewrite Ew; left).
    rewrite bool_decide_false by done. cbn [negb].
    set (c1 := put_head c a (set_waiting oh l)).
    assert (Step : forall c2 : cache, heads c2 = heads c1 -> Hsh.index c2 = Hsh.index c -> cores c2 = cores c ->
      banw c2 = banw c -> has_wrk c2 = has_wrk c -> hinv ex (upd xh a 1) xb c2 M).
    { intros c2 E1 E2 E3 E4 E5. destruct (h_ref _ _ _ _ _ I d a oh Ed Ea) as [Hr Hp].
      eapply (hinv_lists ex ex xh (upd xh a 1) xb c c2 M d a oh (objcs oh) l); try done.
      - rewrite upd_eq, Ew. cbn [length]. lia.
      - rewrite upd_eq. lia.
      - intros b N. by rewrite upd_ne.
      - by apply (h_uniq _ _ _ _ _ I d a oh).
      - intros oc. rewrite E3. by apply (h_list _ _ _ _ _ I d).
      - intros oc b N. by rewrite E3.
      - intros oc x b. rewrite E3, E4. apply (h_core _ _ _ _ _ I).
      - intros sp' H'. rewrite E5. apply (h_wait _ _ _ _ _ I d a oh sp' Ed Ea). rewrite Ew. by right.
      - intros. by rewrite E5. }
    assert (S1 : forall c2 : cache, heads c2 = heads c1 -> Hsh.index c2 = Hsh.index c -> cores c2 = cores c ->
      banw c2 = banw c -> has_wrk c2 = has_wrk c -> same_but_head a c c2).
    { intros c2 E1 E2 E3 E4 E5. split_and!; try done. intros b N. rewrite E1. subst c1. simpl.
      by rewrite lookup_insert_ne. }
    destruct (WRK_QueueSession sp) eqn:Eq.
    + exists (emit c1 [client_drop_late sp]), [sp], l. split; [done|]. split; [done|]. split; [simpl; lia|].
      split; [by apply Step|]. split; [by apply S1|]. split; [subst c1; simpl; by rewrite lookup_insert_eq|].
      split; [simpl; rewrite Eq; simpl; by rewrite app_nil_r|].
      intros H. by rewrite H in Eq by left.
    + set (c2 := set_sessions c1 (has_wrk c1) (queued c1 ++ [sp])).
      assert (Ea2 : heads c2 !! a = Some (set_waiting oh l)) by (subst c2 c1; simpl; by rewrite lookup_insert_eq).
      destruct (IH ex (upd xh a 1) xb c2 M d a (set_waiting oh l) (Step c2 eq_refl eq_refl eq_refl eq_refl eq_refl) Ed Ea2)
        as (c3 & woken & left_ & E & Wl & Ln & I3 & S3 & Ha3 & Q3 & Fn).
      exists c3, (sp :: woken), left_. split; [done|]. simpl in Wl. split; [by rewrite Wl|]. split; [simpl; lia|].
      split; [|split; [by etrans; [apply (S1 c2)|exact S3]|split; [done|split]]].
      * eapply hinv_ext; [|exact I3]. intros b. unfold upd. cbn [length]. destruct (b =? a); lia.
      * rewrite Q3. subst c2 c1. simpl. rewrite Eq. simpl. by rewrite <- app_assoc.
      * intros H. simpl. f_equal. apply Fn. intros s' Hs'. apply H. by right.
Qed.

Lemma hsh_rush_spec ex xh xb c M d a oh : hinv ex xh xb c M -> M !! d = Some a -> heads c !! a = Some oh ->
  exists c' woken left, hsh_rush c a = Some c' /\ waitinglist oh = woken ++ left /\
    (length woken <= rush_exponent par)%nat /\
    hinv ex (upd xh a (Z.of_nat (length woken))) xb c' M /\ same_but_head a c c' /\
    heads c' !! a = Some (set_waiting oh left) /\
    queued c' = queued c ++ List.filter (fun sp => negb (WRK_QueueSession sp)) woken /\
    ((forall sp, sp ∈ waitinglist oh -> WRK_QueueSession sp = false) ->
       woken = List.firstn (rush_exponent par) (waitinglist oh)).
Proof. apply rush_spec. Qed.

(** A core's own fields change, not its place. *)
Lemma hinv_core ex xh xb c M oc x x' : hinv ex xh xb c M -> cores c !! oc = Some x -> objhead x' = objhead x ->
  (forall a, objhead x = Some a -> good_core (banw c) oc x') ->
  hinv ex xh xb (put_core c oc x') M.
Proof.
  intros I Ex Eh G.
  assert (L : forall oc' y, <[oc := x']> (cores c) !! oc' = Some y -> oc' = oc /\ y = x' \/ oc' <> oc /\ cores c !! oc' = Some y).
  { intros oc' y H. apply lookup_insert_Some in H as [[<- <-]|[N H]]; auto. }
  destruct I as [A1 A2 A3 A4 A5 A6 A7 A8 A9]. split; try done; cbn [put_core set_cores cores banw heads].
  - intros d a oh oc' H1 H2. rewrite (A4 d a oh oc' H1 H2). split; intros (N & y & Hy & Ha); (split; [done|]).
    + destruct (decide (oc' = oc)) as [->|Ne].
      * exists x'. rewrite lookup_insert_eq. split; [done|]. congruence.
      * exists y. by rewrite lookup_insert_ne.
    + destruct (L oc' y Hy) as [[-> ->]|[Ne Hy']]; [exists x; split; [done|congruence]|by exists y].
  - intros oc' y a N Hy Ha. destruct (L oc' y Hy) as [[-> ->]|[Ne Hy']]; [apply (A5 oc x a); [done|done|congruence]|by apply (A5 oc' y a)].
  - intros oc' y a N Hy Ha. destruct (L oc' y Hy) as [[-> ->]|[Ne Hy']]; [apply (G a); congruence|by apply (A6 oc' y a)].
Qed.

(** The core leaves the list of its head; its reference to the head is ours now. *)
Lemma unlink_spec xh xb c M d a oh oc x : hinv ∅ xh xb c M -> M !! d = Some a -> heads c !! a = Some oh ->
  cores c !! oc = Some x -> objhead x = Some a ->
  exists c', unlink c a oc = Some c' /\ hinv {[oc]} (upd xh a 1) xb c' M /\ same_but_head a c c' /\
    heads c' !! a = Some (set_objcs oh (filter (fun y => y <> oc) (objcs oh))) /\ queued c' = queued c.
Proof.
  intros I Ed Ea Ex Eh. unfold unlink. rewrite Ea.
  assert (Hin : oc ∈ objcs oh) by (apply (h_list _ _ _ _ _ I d a oh oc Ed Ea); split; [set_solver|eauto]).
  pose proof (h_uniq _ _ _ _ _ I d a oh Ed Ea) as Hn.
  destruct (BanSpec.remove_spec VRE_exec oc (objcs oh) Hin Hn) as (l & -> & El & Ll & Nl).
  eexists. split; [reflexivity|]. rewrite El. split; [|split; [|split; [cbn [put_head set_heads heads]; by rewrite lookup_insert_eq|done]]].
  - destruct (h_ref _ _ _ _ _ I d a oh Ed Ea) as [Hr Hp].
    eapply (hinv_lists ∅ {[oc]} xh (upd xh a 1) xb c _ M d a oh l (waitinglist oh)); try done.
    + by rewrite El.
    + rewrite upd_eq. lia.
    + rewrite upd_eq. lia.
    + intros b N. by rewrite upd_ne.
    + intros oc'. cbn [put_head set_heads cores]. rewrite El, list_elem_of_filter.
      rewrite (h_list _ _ _ _ _ I d a oh oc' Ed Ea). set_solver.
    + intros oc' b N. cbn [put_head set_heads cores]. split; intros (H1 & y & H2 & H3); (split; [|eauto]); [set_solver|].
      intros H. apply elem_of_singleton in H as ->. congruence.
    + intros oc' y b H1 H2 H3. apply (h_core _ _ _ _ _ I oc' y b); [set_solver|done|done].
    + intros sp. by apply (h_wait _ _ _ _ _ I d a oh sp).
  - split_and!; try done. intros b N. cbn [put_head set_heads heads]. by rewrite lookup_insert_ne.
Qed.

(** A core without its list, freed. *)
Lemma hinv_free_core oc xh xb c M : hinv {[oc]} xh xb c M -> hinv ∅ xh xb (set_cores c (delete oc (cores c))) M.
Proof.
  intros [A1 A2 A3 A4 A5 A6 A7 A8 A9].
  assert (L : forall oc' y, delete oc (cores c) !! oc' = Some y -> oc' ∉ ({[oc]} : gset Z) /\ cores c !! oc' = Some y).
  { intros oc' y H. apply lookup_delete_Some in H as [N H]. split; [set_solver|done]. }
  split; try done; cbn [set_cores cores banw heads].
  - intros d a oh oc' H1 H2. rewrite (A4 d a oh oc' H1 H2). split.
    + intros (N & y & Hy & Ha). split; [set_solver|]. exists y. split; [|done].
      apply lookup_delete_Some. split; [set_solver|done].
    + intros (_ & y & Hy & Ha). apply L in Hy as [N Hy]. eauto.
  - intros oc' y a _ Hy Ha. apply L in Hy as [N Hy]. by apply (A5 oc' y a).
  - intros oc' y a _ Hy Ha. apply L in Hy as [N Hy]. by apply (A6 oc' y a).
Qed.

(** Bans change underneath, the listed objects stay good. *)
Lemma hinv_ban ex xh xb c M w : hinv ex xh xb c M -> BanSpec.inv xb w ->
  (forall oc x a, oc ∉ ex -> cores c !! oc = Some x -> objhead x = Some a -> busy x = false ->
     good_obj (banw c) oc x -> good_obj w oc x) ->
  hinv ex xh xb (set_ban c w) M.
Proof.
  intros [A1 A2 A3 A4 A5 A6 A7 A8 A9] Iw G. split; try done. intros oc x a H1 H2 H3.
  destruct (A6 oc x a H1 H2 H3) as (K1 & K2 & K3). split_and!; [done..|]. intros Hb.
  apply (G oc x a); auto.
Qed.

Lemma good_core_flags w oc x : good_core w oc x -> good_obj w oc x ->
  good_core w oc (set_flags x (Z.ldiff (flags x) OC_F_BUSY)).
Proof.
  intros (H1 & H2 & _) G. split; [done|]. split; [|done]. rewrite <- H2. unfold on. do 2 f_equal.
  simpl. rewrite Z.ldiff_land, <- Z.land_assoc. done.
Qed.

Lemma unbusy_spec xh xb c (w : worker) M d a oh oc x o2 o : hinv ∅ xh xb c M -> M !! d = Some a -> heads c !! a = Some oh ->
  cores c !! oc = Some x -> objhead x = Some a -> busy x = true ->
  Ban.objs (banw c) !! oc = Some o -> is_Some (Ban.o_ban o) -> obj x = Some o2 ->
  (forall v, vary o2 = Some v -> good_vary v) ->
  exists c' w' woken left, HSH_Unbusy par WRK_QueueSession c w oc = Some (c', w') /\
    waitinglist oh = woken ++ left /\ (length woken <= rush_exponent par)%nat /\
    hinv ∅ (upd xh a (Z.of_nat (length woken))) xb c' M /\
    cores c' = <[oc := set_flags x (Z.ldiff (flags x) OC_F_BUSY)]> (cores c) /\ banw c' = banw c /\
    has_wrk c' = has_wrk c /\ heads c' !! a = Some (set_waiting oh left) /\
    queued c' = queued c ++ List.filter (fun sp => negb (WRK_QueueSession sp)) woken /\
    ((forall sp, sp ∈ waitinglist oh -> WRK_QueueSession sp = false) ->
       woken = List.firstn (rush_exponent par) (waitinglist oh)).
Proof.
  intros I Ed Ea Ex Eh Eb Eo [ob Hob] E2 Hv. unfold HSH_Unbusy. rewrite Ex, Eh, E2, Eo, Ea, Eb, Hob.
  rewrite bool_decide_true by eauto. destruct (h_core _ _ _ _ _ I oc x a) as (R & Pn & Gb); [set_solver|done|done|].
  rewrite (proj2 (Z.ltb_lt 0 (refcnt x))) by done. destruct (h_ref _ _ _ _ _ I d a oh Ed Ea) as [Hr Hp].
  assert (Hin : oc ∈ objcs oh) by (apply (h_list _ _ _ _ _ I d a oh oc Ed Ea); split; [set_solver|eauto]).
  rewrite (proj2 (Z.ltb_lt 0 (Slinger.refcnt oh))) by (destruct (objcs oh); [by apply not_elem_of_nil in Hin|simpl in Hr; lia]).
  set (x' := set_flags x _).
  assert (I1 : hinv ∅ xh xb (put_core c oc x') M).
  { apply (hinv_core ∅ xh xb c M oc x); [done..|]. intros b Hb. apply good_core_flags; [done|].
    exists o, o2. split_and!; [done..| |done]. congruence. }
  destruct (hsh_rush_spec ∅ xh xb _ M d a oh I1 Ed Ea) as (c' & woken & left_ & -> & El & Ln & I2 & (S1 & S2 & S3 & _) & Ha & Q & Fn).
  eexists c', _, woken, left_. split; [reflexivity|]. split_and!; done.
Qed.

Lemma inv_forget_obj xb (w : world) oc o : BanSpec.inv xb w -> Ban.objs w !! oc = Some o -> Ban.o_ban o = None ->
  BanSpec.inv xb (Ban.World (Ban.bans w) (Ban.ban_head w) (Ban.ban_start w) (Ban.ban_magic w)
    (delete oc (Ban.objs w)) (Ban.stat w) (Ban.events w)).
Proof.
  intros [I1 I2 I3 I4 I5 I6 I7 I8 I9] Ho Hb. split; try done; cbn.
  - intros a b oc' Hm. rewrite (I6 a b oc' Hm). split; intros (o' & H1 & H2).
    + exists o'. split; [|done]. apply lookup_delete_Some. split; [congruence|done].
    + apply lookup_delete_Some in H1 as [_ H1]. eauto.
  - intros oc' o' a H1 H2. apply lookup_delete_Some in H1 as [_ H1]. by apply (I7 oc' o').
Qed.

(** An object that is still referenced. *)
Lemma deref_more_spec xh xb c (w : worker) M d a oh oc x : hinv ∅ xh xb c M -> M !! d = Some a -> heads c !! a = Some oh ->
  cores c !! oc = Some x -> objhead x = Some a -> 1 < refcnt x ->
  exists c' woken left, HSH_Deref par WRK_QueueSession c w oc = Some (c', w) /\
    waitinglist oh = woken ++ left /\ (length woken <= rush_exponent par)%nat /\
    hinv ∅ (upd xh a (Z.of_nat (length woken))) xb c' M /\
    cores c' = <[oc := set_refcnt x (refcnt x - 1)]> (cores c) /\ banw c' = banw c /\
    queued c' = queued c ++ List.filter (fun sp => negb (WRK_QueueSession sp)) woken.
Proof.
  intros I Ed Ea Ex Eh Hr. unfold HSH_Deref. rewrite Ex, Eh, Ea.
  destruct (h_ref _ _ _ _ _ I d a oh Ed Ea) as [Hrr Hp].
  assert (Hin : oc ∈ objcs oh) by (apply (h_list _ _ _ _ _ I d a oh oc Ed Ea); split; [set_solver|eauto]).
  rewrite (proj2 (Z.ltb_lt 0 (Slinger.refcnt oh))) by (destruct (objcs oh); [by apply not_elem_of_nil in Hin|simpl in Hrr; lia]).
  rewrite (proj2 (Z.ltb_lt 0 (refcnt x))), (proj2 (Z.eqb_neq (refcnt x - 1) 0)) by lia. cbv zeta.
  destruct (h_core _ _ _ _ _ I oc x a) as (_ & Pn & Gb); [set_solver|done|done|].
  assert (I1 : hinv ∅ xh xb (put_core c oc (set_refcnt x (refcnt x - 1))) M).
  { apply (hinv_core ∅ xh xb c M oc x); [done..|]. intros b Hb. split; [simpl; lia|]. by split. }
  destruct (hsh_rush_spec ∅ xh xb _ M d a oh I1 Ed Ea) as (c' & woken & left_ & -> & El & Ln & I2 & (S1 & S2 & S3 & _) & Ha & Q & Fn).
  exists c', woken, left_. split_and!; done.
Qed.

(** The last reference: the object is destroyed, and its head perhaps. *)
Lemma deref_last_spec xh xb c (w : worker) M d a oh oc x o2 o : hinv ∅ xh xb c M -> (forall b, 0 <= xb b) ->
  M !! d = Some a -> heads c !! a = Some oh ->
  cores c !! oc = Some x -> objhead x = Some a -> refcnt x = 1 -> obj x = Some o2 -> Ban.objs (banw c) !! oc = Some o ->
  exists c' w' M' woken left, HSH_Deref par WRK_QueueSession c w oc = Some (c', w') /\
    waitinglist oh = woken ++ left /\ (length woken <= rush_exponent par)%nat /\
    hinv ∅ (upd xh a (Z.of_nat (length woken))) xb c' M' /\
    cores c' = delete oc (cores c) /\ Ban.objs (banw c') = delete oc (Ban.objs (banw c)) /\
    queued c' = queued c ++ List.filter (fun sp => negb (WRK_QueueSession sp)) woken /\
    M' = (if Slinger.refcnt oh =? 1 then delete d M else M).
Proof.
  intros I Hx Ed Ea Ex Eh Hr E2 Eo. unfold HSH_Deref. rewrite Ex, Eh, Ea, Hr, E2.
  destruct (h_ref _ _ _ _ _ I d a oh Ed Ea) as [Hrr Hp].
  assert (Hin : oc ∈ objcs oh) by (apply (h_list _ _ _ _ _ I d a oh oc Ed Ea); split; [set_solver|eauto]).
  rewrite (proj2 (Z.ltb_lt 0 (Slinger.refcnt oh))) by (destruct (objcs oh); [by apply not_elem_of_nil in Hin|simpl in Hrr; lia]).
  change (0 <? 1) with true. change (1 - 1 =? 0) with true. change (1 - 1) with 0. cbv iota. cbn [negb].
  set (c0 := put_core c oc (set_refcnt x 0)).
  assert (Eu : unlink c0 a oc = match unlink c a oc with Some c1 => Some (put_core c1 oc (set_refcnt x 0)) | None => None end).
  { subst c0. unfold unlink. cbn [put_core set_cores heads]. rewrite Ea. by destruct (Ban.remove oc (objcs oh)). }
  destruct (unlink_spec xh xb c M d a oh oc x I Ed Ea Ex Eh) as (c1 & E1 & I1 & (S1 & S2 & S3 & S4 & S5) & Ha1 & Q1).
  rewrite Eu, E1. set (c2 := put_core c1 oc (set_refcnt x 0)).
  assert (I2 : hinv {[oc]} (upd xh a 1) xb c2 M).
  { subst c2. destruct I1 as [A1 A2 A3 A4 A5 A6 A7 A8 A9].
    assert (L : forall oc' y, oc' ∉ ({[oc]} : gset Z) -> <[oc := set_refcnt x 0]> (cores c1) !! oc' = Some y <-> cores c1 !! oc' = Some y).
    { intros oc' y N. rewrite lookup_insert_ne; [done|]. set_solver. }
    split; try done; cbn [put_core set_cores cores banw heads].
    - intros d' b ob oc' H1 H2. rewrite (A4 d' b ob oc' H1 H2). split; intros (N & y & Hy & Hh); (split; [done|]); exists y; (split; [|done]); by apply L.
    - intros oc' y b N Hy. apply L in Hy; [|done]. by apply (A5 oc' y b).
    - intros oc' y b N Hy. apply L in Hy; [|done]. by apply (A6 oc' y b). }
  destruct (hsh_rush_spec {[oc]} (upd xh a 1) xb c2 M d a _ I2 Ed Ha1)
    as (c3 & woken & left_ & -> & El & Ln & I3 & (T1 & T2 & T3 & _) & Ha3 & Q3 & _).
  assert (B3 : banw c3 = banw c) by (rewrite T2; subst c2; simpl; done).
  destruct (BanSpec.destroy_spec VRE_exec xb (banw c3) oc o) as (bw & o' & Ed1 & Ib & _ & Eob & Nob);
    [apply (h_ban _ _ _ _ _ I3)|done|by rewrite B3|].
  rewrite Ed1. cbn [set_ban banw]. rewrite Eob, lookup_insert_eq, bool_decide_true by done.
  set (c4 := free_object (set_ban c3 bw) oc o2 o').
  set (w4 := count_objects (count_objects w (-1) 0 0 0 0) 0 (-1) 0 0 0).
  assert (E4 : heads c4 = heads c3 /\ Hsh.index c4 = Hsh.index c3 /\ cores c4 = cores c3 /\ has_wrk c4 = has_wrk c3 /\
    queued c4 = queued c3 /\ banw c4 = Ban.World (Ban.bans bw) (Ban.ban_head bw) (Ban.ban_start bw) (Ban.ban_magic bw)
      (delete oc (Ban.objs bw)) (Ban.stat bw) (Ban.events bw)).
  { subst c4. unfold free_object. by destruct (esidata o2), (Ban.smp_seg o'). }
  destruct E4 as (F1 & F2 & F3 & F4 & F5 & F6).
  assert (I4 : hinv {[oc]} (upd (upd xh a 1) a (Z.of_nat (length woken))) xb c4 M).
  { assert (K : hinv {[oc]} (upd (upd xh a 1) a (Z.of_nat (length woken))) xb (set_ban c3 (banw c4)) M).
    - apply hinv_ban; [done| |].
      + rewrite F6. eapply inv_forget_obj; [done| |exact Nob]. by rewrite Eob, lookup_insert_eq.
      + intros oc' y b N _ _ _ (oo & oo2 & G1 & G2 & G3 & G4). exists oo, oo2. split_and!; try done.
        assert (oc' <> oc) by set_solver.
        rewrite F6. cbn. by rewrite lookup_delete_ne, Eob, lookup_insert_ne.
    - clear -K F1 F2 F3 F4. destruct K as [A1 A2 A3 A4 A5 A6 A7 A8 A9]. cbn [set_ban heads Hsh.index cores has_wrk banw] in *.
      split; rewrite ?F1, ?F2, ?F3, ?F4; done. }
  pose proof (hinv_free_core oc _ _ _ _ I4) as I5. set (c5 := set_cores c4 (delete oc (cores c4))) in *.
  destruct (drop_head_spec _ _ c5 w4 M d a (set_waiting (set_objcs oh (filter (fun y => y <> oc) (objcs oh))) left_) I5 Ed)
    as (c6 & w6 & M6 & -> & I6 & G1 & G2 & G3 & G4 & G5).
  { subst c5. cbn [set_cores heads]. by rewrite F1. }
  { rewrite !upd_eq. lia. }
  exists c6, w6, M6, woken, left_. split; [done|]. split; [done|]. split; [done|]. split.
  { eapply hinv_ext; [|exact I6]. intros b. unfold upd. destruct (b =? a); lia. }
  split; [rewrite G1; subst c5; cbn [set_cores cores]; rewrite F3, T1; subst c2; cbn [put_core set_cores cores]; rewrite S1; apply delete_insert_eq|].
  split; [rewrite G2; subst c5; cbn [set_cores banw]; rewrite F6; cbn; rewrite Eob, delete_insert_eq; by rewrite B3|].
  split; [rewrite G4; subst c5; cbn [set_cores queued]; rewrite F5, Q3; subst c2; cbn [put_core set_cores queued]; by rewrite Q1|].
  exact G5.
Qed.

End Wake.

(** ** Finding the head *)

Section Lookup.
Context (SMP_Fixup : cache -> Z -> Z -> option cache) (VBE_Healthy : Z -> bool).
Notation look := (Hsh.look VRE_exec par SMP_Fixup).

Hypothesis magic_off : Z.land (diag_bitmap par) 0x80000000 = 0.

(** What the worker has set aside: a busy core nobody lists, a head nobody has. *)
Record wok (c : cache) (w : worker) : Prop := {
  w_core : forall oc, nobjcore w = Some oc -> exists x, cores c !! oc = Some x /\ objhead x = None /\ flags x = OC_F_BUSY;
  w_head : forall a, nobjhead w = Some a -> exists oh, heads c !! a = Some oh /\ ready oh /\ objcs oh = [] /\
    waitinglist oh = [] /\ aligned a /\ a ∉ sl_held (Hsh.index c)
}.

(** Addresses [malloc] can return. *)
Definition fresh_addr (c : cache) (noc noh : Z) : Prop :=
  noc <> 0 /\ cores c !! noc = None /\ aligned noh /\ heads c !! noh = None /\ noh ∉ sl_held (Hsh.index c).

Definition digest_ok (d : list Z) : Prop := length d = DIGEST_LEN /\ Forall (fun b => 0 <= b < 256) d.

Lemma unindexed ex xh xb c M a d : hinv ex xh xb c M -> a ∉ sl_held (Hsh.index c) -> M !! d <> Some a.
Proof. intros I N E. by destruct (sl_entry _ _ _ _ _ (h_index _ _ _ _ _ I) E) as [? _]. Qed.

(** Heads outside the index come and go. *)
Lemma hinv_heads ex xh xb c h M : hinv ex xh xb c M -> sl_inv h (Hsh.index c) M ->
  (forall d a, M !! d = Some a -> h !! a = heads c !! a) -> hinv ex xh xb (set_heads c h (Hsh.index c)) M.
Proof.
  intros [A1 A2 A3 A4 A5 A6 A7 A8 A9] Hi Hh. split; try done; cbn [set_heads heads cores banw has_wrk].
  - intros d a oh H1. rewrite (Hh d a H1). by apply (A2 d).
  - intros d a oh H1. rewrite (Hh d a H1). by apply (A3 d).
  - intros d a oh oc H1. rewrite (Hh d a H1). by apply (A4 d).
  - intros d a oh sp H1. rewrite (Hh d a H1). by apply (A8 d).
Qed.

(** A core without a head comes. *)
Lemma hinv_new_core ex xh xb c M oc x : hinv ex xh xb c M -> cores c !! oc = None -> objhead x = None ->
  hinv ex xh xb (put_core c oc x) M.
Proof.
  intros [A1 A2 A3 A4 A5 A6 A7 A8 A9] Hn Hx.
  assert (L : forall oc' y a, objhead y = Some a -> <[oc := x]> (cores c) !! oc' = Some y <-> cores c !! oc' = Some y).
  { intros oc' y a Ha. destruct (decide (oc' = oc)) as [->|N]; [|by rewrite lookup_insert_ne].
    rewrite lookup_insert_eq, Hn. split; [intros [= <-]; congruence|done]. }
  split; try done; cbn [put_core set_cores cores banw heads].
  - intros d a oh oc' H1 H2. rewrite (A4 d a oh oc' H1 H2).
    split; intros (N & y & Hy & Ha); (split; [done|]); exists y; (split; [|done]); by apply (L oc' y a).
  - intros oc' y a N Hy Ha. apply (L oc' y a Ha) in Hy. by apply (A5 oc' y a).
  - intros oc' y a N Hy Ha. apply (L oc' y a Ha) in Hy. by apply (A6 oc' y a).
Qed.

Lemma put_digest_spec xh xb c w M noh d : hinv ∅ xh xb c M -> wok c w -> nobjhead w = Some noh -> digest_ok d ->
  exists oh, heads c !! noh = Some oh /\ ready (set_digest oh d) /\
    hinv ∅ xh xb (put_head c noh (set_digest oh d)) M /\ wok (put_head c noh (set_digest oh d)) w.
Proof.
  intros I W Hn [D1 D2]. destruct (w_head c w W noh Hn) as (oh & E & (R1 & R2 & R3) & O & Wl & Al & Nh).
  exists oh. split; [done|]. split; [by split_and!|]. split.
  - apply hinv_heads; [done| |].
    + eapply sl_frame; [apply (h_index _ _ _ _ _ I)|]. intros b ob Hb Eb. exists ob.
      rewrite lookup_insert_ne by (intros ->; done). by split.
    + intros d' b Hb. apply lookup_insert_ne. intros ->. by apply (unindexed _ _ _ _ _ _ d' I Nh).
  - split; [apply (w_core c w W)|]. intros b Hb. assert (b = noh) as -> by congruence.
    cbn [put_head set_heads heads Hsh.index]. rewrite lookup_insert_eq. eexists. split; [done|]. by split_and!.
Qed.

Lemma prealloc_spec xh xb c w M noc noh : hinv ∅ xh xb c M -> wok c w -> fresh_addr c noc noh ->
  exists c' w', HSH_Prealloc c w noc noh = Some (c', w') /\ hinv ∅ xh xb c' M /\ wok c' w' /\
    is_Some (nobjcore w') /\ is_Some (nobjhead w') /\ Hsh.index c' = Hsh.index c /\ banw c' = banw c /\ has_wrk c' = has_wrk c /\
    (forall oc x, cores c !! oc = Some x -> cores c' !! oc = Some x) /\
    (forall a oh, heads c !! a = Some oh -> heads c' !! a = Some oh).
Proof.
  intros I W (N1 & N2 & N3 & N4 & N5). unfold HSH_Prealloc.
  assert (S1 : exists c1 w1, match nobjcore w with
      | None => assert! negb (noc =? 0) ;;
        Some (put_core c noc (Objcore 0 OC_F_BUSY None None 0 0), set_nobjcore w (Some noc) 1)
      | Some _ => Some (c, w) end = Some (c1, w1) /\ hinv ∅ xh xb c1 M /\ wok c1 w1 /\ is_Some (nobjcore w1) /\
      heads c1 = heads c /\ Hsh.index c1 = Hsh.index c /\ banw c1 = banw c /\ has_wrk c1 = has_wrk c /\
      nobjhead w1 = nobjhead w /\ (forall oc x, cores c !! oc = Some x -> cores c1 !! oc = Some x)).
  { destruct (nobjcore w) as [oc|] eqn:E; [exists c, w; split_and!; eauto|].
    rewrite (proj2 (Z.eqb_neq noc 0)) by done. eexists _, _. split; [reflexivity|].
    split; [by apply hinv_new_core|]. split; [|split_and!; try done; try by eexists].
    - split; [|apply (w_head c w W)]. intros oc [= <-]. cbn [put_core set_cores cores]. rewrite lookup_insert_eq. eauto.
    - intros oc x H. cbn [put_core set_cores cores]. rewrite lookup_insert_ne; [done|]. congruence. }
  destruct S1 as (c1 & w1 & -> & I1 & W1 & K1 & H1 & X1 & B1 & S1 & Wh & C1).
  destruct (nobjhead w1) as [a|] eqn:E.
  { exists c1, w1. split_and!; try done; try (by rewrite E); try (by rewrite E; eauto). intros a' oh'. by rewrite H1. }
  rewrite (proj2 (Z.eqb_neq noh 0)) by (destruct N3; lia). eexists _, _. split; [reflexivity|].
  assert (Hd : forall d a, M !! d = Some a -> a <> noh).
  { intros d a Hm ->. by apply (unindexed _ _ _ _ _ _ d I N5). }
  split; [|split; [|split_and!; try done; try by eexists]].
  - apply hinv_heads; [done| |].
    + apply inv_alloc; [apply (h_index _ _ _ _ _ I1)|by rewrite H1].
    + intros d a Hm. apply lookup_insert_ne. symmetry. by apply (Hd d).
  - split; [apply (w_core c1 w1 W1)|]. intros a [= <-]. cbn [put_head set_heads heads Hsh.index].
    rewrite lookup_insert_eq, X1. eexists. split; [done|]. split_and!; try done. split_and!; [done..|].
    by apply Forall_replicate.
  - intros a oh Ha. cbn [put_head set_heads heads]. rewrite lookup_insert_ne, H1; [done|]. congruence.
Qed.

(** Looking a digest up: one more reference to its head, or a new head. *)
Lemma hash_lookup_spec xh xb c w M noh no : hinv ∅ xh xb c M -> wok c w -> nobjhead w = Some noh ->
  heads c !! noh = Some no ->
  exists a c' M', hash_lookup c noh = Some (a, c') /\ hinv ∅ (upd xh a 1) xb c' M' /\
    wok c' (if a =? noh then set_nobjhead w None 0 else w) /\ M' = <[digest no := a]> M /\
    cores c' = cores c /\ banw c' = banw c /\ has_wrk c' = has_wrk c /\
    match M !! digest no with
    | Some b => a = b /\ forall oh, heads c !! a = Some oh -> heads c' !! a = Some (Slinger.set_refcnt oh (Slinger.refcnt oh + 1))
    | None => a = noh /\ heads c' !! a = Some no /\ objcs no = [] /\ waitinglist no = []
    end.
Proof.
  intros I W Hn E. destruct (w_head c w W noh Hn) as (no' & E' & R & O & Wl & Al & Nh).
  assert (no' = no) as -> by congruence. unfold hash_lookup.
  destruct (M !! digest no) as [a|] eqn:Em.
  - destruct (indexed _ _ _ _ _ _ _ I Em) as (oh & Ea & _).
    destruct (sl_lookup_hit _ _ _ noh no a oh (h_index _ _ _ _ _ I) E R Al Nh Em Ea) as (p' & El & Hh & Hi).
    rewrite El. assert (Ne : a <> noh) by (intros ->; by apply (unindexed _ _ _ _ _ _ (digest no) I Nh)).
    eexists a, _, M. split; [reflexivity|]. rewrite (proj2 (Z.eqb_neq a noh)) by done.
    cbn [set_heads heads Hsh.index cores banw has_wrk].
    assert (L : forall d b ob, M !! d = Some b -> <[a:=Slinger.set_refcnt oh (Slinger.refcnt oh + 1)]> (heads c) !! b = Some ob ->
      b = a /\ ob = Slinger.set_refcnt oh (Slinger.refcnt oh + 1) \/ b <> a /\ heads c !! b = Some ob).
    { intros d b ob _ H. apply lookup_insert_Some in H as [[<- <-]|[N H]]; auto. }
    split; [|split; [|split_and!; try done; [by rewrite insert_id|]]].
    + destruct I as [A1 A2 A3 A4 A5 A6 A7 A8 A9]. split; try done; cbn [set_heads heads cores banw has_wrk].
      * intros d b ob H1 H2. destruct (L d b ob H1 H2) as [[-> ->]|[N H]]; [rewrite upd_eq; simpl; specialize (A2 _ _ _ Em Ea); lia|].
        rewrite upd_ne by done. by apply (A2 d).
      * intros d b ob H1 H2. destruct (L d b ob H1 H2) as [[-> ->]|[N H]]; [by apply (A3 _ _ _ Em Ea)|by apply (A3 d b)].
      * intros d b ob oc H1 H2. destruct (L d b ob H1 H2) as [[-> ->]|[N H]]; [by apply (A4 _ _ _ oc Em Ea)|by apply (A4 d b)].
      * intros d b ob sp H1 H2. destruct (L d b ob H1 H2) as [[-> ->]|[N H]]; [by apply (A8 _ _ _ sp Em Ea)|by apply (A8 d b)].
      * intros b Hb. rewrite upd_ne by (intros ->; by apply (Hb (digest no))). by apply A9.
    + split; [apply (w_core c w W)|]. intros b Hb. destruct (w_head c w W b Hb) as (ob & Eb & K). exists ob.
      cbn [set_heads heads Hsh.index]. rewrite Hh. assert (b = noh) as -> by congruence. by rewrite lookup_insert_ne.
    + intros oh' Eo. assert (oh' = oh) as -> by congruence. by rewrite lookup_insert_eq.
  - destruct (sl_lookup_miss _ _ _ noh no (h_index _ _ _ _ _ I) E R Al Nh Em) as (p' & El & Hh & Hi).
    rewrite El. eexists noh, _, (<[digest no := noh]> M). split; [reflexivity|]. rewrite Z.eqb_refl.
    cbn [set_heads heads Hsh.index cores banw has_wrk].
    assert (L : forall d b, <[digest no := noh]> M !! d = Some b -> b = noh /\ d = digest no \/ b <> noh /\ M !! d = Some b).
    { intros d b H. apply lookup_insert_Some in H as [[<- <-]|[N H]]; [by left|right]. split; [|done].
      intros ->. by apply (unindexed _ _ _ _ _ _ d I Nh). }
    assert (X0 : xh noh = 0) by (apply (h_none _ _ _ _ _ I); intros d; by apply (unindexed _ _ _ _ _ _ d I)).
    split; [|split; [|by split_and!]].
    + destruct I as [A1 A2 A3 A4 A5 A6 A7 A8 A9]. split; try done; cbn [set_heads heads cores banw has_wrk].
      * intros d b ob H1 H2. destruct (L d b H1) as [[-> _]|[N H]]; [|rewrite upd_ne by done; by apply (A2 d)].
        assert (ob = no) as -> by congruence. rewrite upd_eq, O, Wl, X0. destruct R as (-> & _). simpl. lia.
      * intros d b ob H1 H2. destruct (L d b H1) as [[-> _]|[N H]]; [|by apply (A3 d b)].
        assert (ob = no) as -> by congruence. rewrite O. constructor.
      * intros d b ob oc H1 H2. destruct (L d b H1) as [[-> _]|[N H]]; [|by apply (A4 d b)].
        assert (ob = no) as -> by congruence. rewrite O. split; [intros H; by apply not_elem_of_nil in H|].
        intros (N & x & Hx & Ha). destruct (A5 oc x noh N Hx Ha) as [d' Hd]. exfalso.
        destruct (sl_entry _ _ _ _ _ A1 Hd) as [? _]. done.
      * intros oc x b H1 H2 H3. destruct (A5 oc x b H1 H2 H3) as [d' Hd]. exists d'. rewrite lookup_insert_ne; [done|]. congruence.
      * intros d b ob sp H1 H2. destruct (L d b H1) as [[-> _]|[N H]]; [|by apply (A8 d b)].
        assert (ob = no) as -> by congruence. rewrite Wl. intros H. by apply not_elem_of_nil in H.
      * intros b Hb. rewrite upd_ne by (intros ->; apply (Hb (digest no)); by rewrite lookup_insert_eq).
        apply A9. intros d Hd. apply (Hb d). rewrite lookup_insert_ne; [done|]. congruence.
    + split; [apply (w_core c w W)|done].
Qed.

Lemma wok_frame (c c' : cache) w : wok c w ->
  (forall oc x, cores c !! oc = Some x -> objhead x = None -> cores c' !! oc = Some x) ->
  (forall a, a ∉ sl_held (Hsh.index c) -> heads c' !! a = heads c !! a) ->
  sl_held (Hsh.index c') = sl_held (Hsh.index c) -> wok c' w.
Proof.
  intros [W1 W2] Hc Hh Hd. split.
  - intros oc Ho. destruct (W1 oc Ho) as (x & E & N & F). exists x. split_and!; [by apply Hc|done..].
  - intros a Ha. destruct (W2 a Ha) as (oh & E & R & O & L & Al & N). exists oh. rewrite Hh, Hd by done. by split_and!.
Qed.

(** The list of the head with a digest, empty for a new head. *)
Definition listed (c : cache) (M : Slinger.index) (d : list Z) : list Z :=
  match M !! d with Some a => match heads c !! a with Some oh => objcs oh | None => [] end | None => [] end.
Definition waiting (c : cache) (M : Slinger.index) (d : list Z) : list Z :=
  match M !! d with Some a => match heads c !! a with Some oh => waitinglist oh | None => [] end | None => [] end.

Lemma find_head_spec xh xb c w M sp noc noh : hinv ∅ xh xb c M -> wok c w -> fresh_addr c noc noh ->
  digest_ok (s_digest sp) ->
  (forall a, s_objhead sp = Some a -> M !! s_digest sp = Some a /\ 1 <= xh a) ->
  exists c1 w1 a oh, find_head par c w sp noc noh = Some (c1, w1, set_held sp None (s_objcore sp), a) /\
    hinv ∅ (match s_objhead sp with Some _ => xh | None => upd xh a 1 end) xb c1 (<[s_digest sp := a]> M) /\
    wok c1 w1 /\ is_Some (nobjcore w1) /\ banw c1 = banw c /\ has_wrk c1 = has_wrk c /\
    (forall oc x, cores c !! oc = Some x -> cores c1 !! oc = Some x) /\
    heads c1 !! a = Some oh /\ objcs oh = listed c M (s_digest sp) /\ waitinglist oh = waiting c M (s_digest sp) /\
    (forall b, s_objhead sp = Some b -> a = b).
Proof using magic_off.
  intros I W Fr D Hs. unfold find_head.
  destruct (prealloc_spec xh xb c w M noc noh I W Fr) as (c1 & w1 & -> & I1 & W1 & K1 & [nh Hn] & X1 & B1 & S1 & C1 & H1).
  rewrite Hn. destruct (put_digest_spec xh xb c1 w1 M nh (s_digest sp) I1 W1 Hn D) as (no & -> & R & I2 & W2).
  unfold testmagic. rewrite magic_off. cbn [Z.eqb negb].
  set (c2 := put_head c1 nh (set_digest no (s_digest sp))) in *.
  assert (Hh : forall d b oh, M !! d = Some b -> heads c !! b = Some oh -> heads c2 !! b = Some oh).
  { intros d b oh Hm Hb. subst c2. cbn [put_head set_heads heads]. rewrite lookup_insert_ne; [by apply H1|].
    intros ->. destruct (w_head c1 w1 W1 b Hn) as (_ & _ & _ & _ & _ & _ & Nh).
    by apply (unindexed _ _ _ _ _ _ d I1 Nh). }
  unfold listed, waiting. destruct (s_objhead sp) as [a|] eqn:Eh.
  - destruct (Hs a eq_refl) as [Em Hx]. destruct (indexed _ _ _ _ _ _ _ I Em) as (oh & Ea & _).
    exists c2, w1, a, oh. rewrite Em, Ea, insert_id by done. split_and!; try done; [by eapply Hh|].
    by intros b [= <-].
  - destruct (hash_lookup_spec xh xb c2 w1 M nh (set_digest no (s_digest sp)) I2 W2 Hn) as (a & c3 & M3 & E3 & I3 & W3 & -> & C3 & B3 & S3 & O3).
    { subst c2. cbn [put_head set_heads heads]. by rewrite lookup_insert_eq. }
    rewrite E3. cbn [digest set_digest] in *.
    assert (Esp : sp = set_held sp None (s_objcore sp)) by (destruct sp; simpl in *; by subst).
    assert (Ko : is_Some (nobjcore (if a =? nh then set_nobjhead w1 None 0 else w1))) by (by destruct (a =? nh)).
    destruct (M !! s_digest sp) as [b|] eqn:Em.
    + destruct O3 as [-> O3]. destruct (indexed _ _ _ _ _ _ _ I Em) as (oh & Ea & _).
      exists c3, (if b =? nh then set_nobjhead w1 None 0 else w1), b, (Slinger.set_refcnt oh (Slinger.refcnt oh + 1)).
      rewrite <- Esp, Ea, B3, S3. split_and!; try done; [by rewrite C3|]. apply O3. by eapply Hh.
    + destruct O3 as (-> & Ea & Eo & Ew).
      exists c3, (if nh =? nh then set_nobjhead w1 None 0 else w1), nh, (set_digest no (s_digest sp)).
      rewrite <- Esp, B3, S3. split_and!; try done. by rewrite C3.
Qed.

(** ** The three outcomes *)

Lemma take_core_spec xh xb c w M d a oh oc x o2 : hinv ∅ xh xb c M -> wok c w -> M !! d = Some a ->
  heads c !! a = Some oh -> cores c !! oc = Some x -> objhead x = Some a -> obj x = Some o2 -> 1 <= xh a ->
  exists c' x', take_core par c a oc = Some c' /\ hinv ∅ (upd xh a (-1)) xb c' M /\ wok c' w /\
    cores c' = <[oc := x']> (cores c) /\ refcnt x' = refcnt x + 1 /\ banw c' = banw c /\ has_wrk c' = has_wrk c /\
    (exists oh', heads c' !! a = Some oh' /\ waitinglist oh' = waitinglist oh).
Proof.
  intros I W Ed Ea Ex Eh E2 Hx. unfold take_core. rewrite Ex, E2, bool_decide_true by done.
  set (o2' := if hits o2 <? INT_MAX par then _ else o2).
  set (x' := set_obj (set_refcnt x (refcnt x + 1)) (Some o2')).
  assert (Hv : vary o2' = vary o2) by (subst o2'; by destruct (_ <? _)).
  destruct (h_core _ _ _ _ _ I oc x a) as (R & Pn & Gb); [set_solver|done|done|].
  assert (I1 : hinv ∅ xh xb (put_core c oc x') M).
  { apply (hinv_core ∅ xh xb c M oc x); [done..|]. intros b _. split; [simpl; lia|]. split; [done|]. intros Hb.
    destruct (Gb Hb) as (o & o3 & G1 & G2 & G3 & G4). exists o, o2'. split_and!; try done. intros v. rewrite Hv.
    assert (o3 = o2) as -> by congruence. apply G4. }
  assert (Hin : oc ∈ objcs oh) by (apply (h_list _ _ _ _ _ I d a oh oc Ed Ea); split; [set_solver|eauto]).
  destruct (h_ref _ _ _ _ _ I d a oh Ed Ea) as [Hr Hp].
  assert (Hr1 : 1 < Slinger.refcnt oh) by (destruct (objcs oh); [by apply not_elem_of_nil in Hin|simpl in Hr; lia]).
  destruct (hinv_deref_more ∅ xh xb _ M d a oh I1 Ed Ea Hr1 Hx) as (c' & E & I2 & C2 & B2 & S2 & _ & O2 & A2 & H2).
  cbn [put_core set_cores heads]. rewrite Ea, (proj2 (Z.ltb_lt 1 _)) by lia.
  change (set_cores c (<[oc:=x']> (cores c))) with (put_core c oc x'). rewrite E. cbn [Z.eqb negb].
  exists c', x'. split; [done|]. split; [done|]. split; [|split_and!; try done; by eexists].
  apply (wok_frame c); [done| | |by rewrite H2].
  - intros oc' y Hy Ny. rewrite C2. cbn [put_core set_cores cores]. rewrite lookup_insert_ne; [done|]. congruence.
  - intros b Nb. apply O2. intros ->. by apply (unindexed _ _ _ _ _ _ d I Nb).
Qed.

Lemma park_spec xh xb c w M d a oh sp : hinv ∅ xh xb c M -> wok c w -> M !! d = Some a -> heads c !! a = Some oh ->
  1 <= xh a ->
  exists c', park c sp a = Some (c', set_held sp (Some a) (s_objcore sp)) /\
    hinv ∅ (if esis sp =? 0 then upd xh a (-1) else xh) xb c' M /\ wok c' w /\ cores c' = cores c /\
    has_wrk c' = has_wrk c ∖ {[s_id sp]} /\
    (exists oh', heads c' !! a = Some oh' /\
       waitinglist oh' = if esis sp =? 0 then waitinglist oh ++ [s_id sp] else waitinglist oh).
Proof.
  intros I W Ed Ea Hx. unfold park. rewrite Ea. destruct (esis sp =? 0).
  - eexists. split; [reflexivity|]. destruct (h_ref _ _ _ _ _ I d a oh Ed Ea) as [Hr Hp]. split; [|split; [|split_and!; try done]].
    + eapply (hinv_lists ∅ ∅ xh (upd xh a (-1)) xb c _ M d a oh (objcs oh) (waitinglist oh ++ [s_id sp]));
        cbn [set_sessions put_head set_heads heads cores banw has_wrk]; try done.
      * rewrite upd_eq, length_app. simpl. lia.
      * rewrite upd_eq. lia.
      * intros b N. by rewrite upd_ne.
      * by apply (h_uniq _ _ _ _ _ I d a oh).
      * intros oc. by apply (h_list _ _ _ _ _ I d).
      * apply (h_core _ _ _ _ _ I).
      * intros s' Hs. apply elem_of_app in Hs as [Hs|Hs]; [|apply list_elem_of_singleton in Hs as ->; set_solver].
        pose proof (h_wait _ _ _ _ _ I d a oh s' Ed Ea Hs). set_solver.
      * set_solver.
    + apply (wok_frame c); try done. intros b Nb. cbn [set_sessions put_head set_heads heads].
      apply lookup_insert_ne. intros <-. by apply (unindexed _ _ _ _ _ _ d I Nb).
    + cbn [set_sessions put_head set_heads heads]. rewrite lookup_insert_eq. by eexists.
  - eexists. split; [reflexivity|]. split; [|split; [|split_and!; try done; by exists oh]].
    + destruct I as [A1 A2 A3 A4 A5 A6 A7 A8 A9]. split; try done. intros d' b ob s' H1 H2 H3.
      specialize (A8 d' b ob s' H1 H2 H3). cbn [set_sessions has_wrk]. set_solver.
    + by apply (wok_frame c).
Qed.

Lemma insert_busy_spec xh xb c w M d a oh : hinv ∅ xh xb c M -> wok c w -> is_Some (nobjcore w) -> M !! d = Some a ->
  heads c !! a = Some oh -> 1 <= xh a ->
  exists c' w' oc x, insert_busy c w a = Some (c', w', oc) /\ hinv ∅ (upd xh a (-1)) xb c' M /\ wok c' w' /\
    oc ∉ objcs oh /\ cores c' !! oc = Some x /\ busy x = true /\ refcnt x = 1 /\ objhead x = Some a /\
    banw c' = banw c /\ has_wrk c' = has_wrk c /\ heads c' !! a = Some (set_objcs oh (objcs oh ++ [oc])).
Proof.
  intros I W [oc Ho] Ed Ea Hx. destruct (w_core c w W oc Ho) as (x & Ex & Nx & Fx).
  unfold insert_busy. rewrite Ho, Ex. assert (Bx : busy x = true) by (unfold busy, on; by rewrite Fx). rewrite Bx, Ea.
  set (x' := set_objhead (set_refcnt x 1) (Some a)).
  assert (Nin : oc ∉ objcs oh).
  { intros H. apply (h_list _ _ _ _ _ I d a oh oc Ed Ea) in H as (_ & y & Hy & Ha). congruence. }
  eexists _, _, oc, x'. split; [reflexivity|]. cbn [put_core set_cores put_head set_heads heads cores banw has_wrk].
  destruct (h_ref _ _ _ _ _ I d a oh Ed Ea) as [Hr Hp].
  split; [|split; [|split_and!; try done; by rewrite lookup_insert_eq]].
  - eapply (hinv_lists ∅ ∅ xh (upd xh a (-1)) xb c _ M d a oh (objcs oh ++ [oc]) (waitinglist oh));
      cbn [put_core set_cores put_head set_heads heads cores banw has_wrk]; try done.
    + rewrite upd_eq, length_app. simpl. lia.
    + rewrite upd_eq. lia.
    + intros b N. by rewrite upd_ne.
    + apply NoDup_app. split; [by apply (h_uniq _ _ _ _ _ I d a oh)|]. split; [|by apply NoDup_singleton].
      intros y Hy Hs. apply list_elem_of_singleton in Hs as ->. done.
    + intros oc'. rewrite elem_of_app, list_elem_of_singleton, (h_list _ _ _ _ _ I d a oh oc' Ed Ea).
      destruct (decide (oc' = oc)) as [->|N].
      * rewrite lookup_insert_eq. split; [intros _; split; [set_solver|by eexists]|by right].
      * rewrite lookup_insert_ne by done. split; [intros [?|?]; done|by left].
    + intros oc' b N. destruct (decide (oc' = oc)) as [->|Ne]; [|by rewrite lookup_insert_ne].
      rewrite lookup_insert_eq. split; intros (_ & y & Hy & Hb); [injection Hy as <-; simpl in Hb; congruence|congruence].
    + intros oc' y b _ Hy Hb. apply lookup_insert_Some in Hy as [[<- <-]|[N Hy]].
      * split; [done|]. split; [unfold on; simpl; by rewrite Fx|]. unfold busy, on in *. simpl. by rewrite Fx.
      * apply (h_core _ _ _ _ _ I oc' y b); [set_solver|done..].
    + intros s' Hs. by apply (h_wait _ _ _ _ _ I d a oh).
  - split; [done|]. intros b Hb. destruct (w_head c w W b Hb) as (ob & Eb & R & O & L & Al & Nb).
    exists ob. cbn [put_core set_cores put_head set_heads heads Hsh.index]. rewrite lookup_insert_ne; [by split_and!|].
    intros <-. by apply (unindexed _ _ _ _ _ _ d I Nb).
Qed.

(** ** The lookup as a whole *)

Inductive choice := Hit (oc : Z) | Fetch | Wait.

(** The grace the request accepts. *)
Definition req_grace (c : cache) (sp : sess) (oc : Z) : bool :=
  match Ban.objs (banw c) !! oc with
  | Some o => t_req sp <=? dadd (Ban.ttl o) (HSH_Grace par (s_grace sp))
  | None => false
  end.

(** Which core of the list [l] of head [a] serves the request: the first live
    one; else the last one in grace, when another session fetches already or the
    backend is sick, and the request accepts it; else the request waits when one
    is being fetched, and fetches when none is. *)
Definition choose (c : cache) (sp : sess) (a : Z) (l : list Z) : choice :=
  match pick (classify c sp) l None None with
  | (Some oc, _, _) => Hit oc
  | (None, b, g) =>
    match g with
    | Some oc => if (bool_decide (is_Some b) || negb (VBE_Healthy a)) && req_grace c sp oc then Hit oc
                 else if bool_decide (is_Some b) then Wait else Fetch
    | None => if bool_decide (is_Some b) then Wait else Fetch
    end
  end.

Lemma pick_in r l : forall b g f b' g', pick r l b g = (f, b', g') ->
  (forall oc, f = Some oc -> oc ∈ l /\ r oc = Live) /\
  (forall oc, g' = Some oc -> g = Some oc \/ oc ∈ l /\ r oc = InGrace).
Proof.
  induction l as [|x l IH]; intros b g f b' g' E; cbn [pick] in E.
  - injection E as <- <- <-. split; [done|by left].
  - destruct (r x) eqn:Er.
    + apply IH in E as [E1 E2]. split; intros oc H; [destruct (E1 oc H); split; [by right|done]|].
      destruct (E2 oc H) as [?|[? ?]]; [by left|right; split; [by right|done]].
    + apply IH in E as [E1 E2]. split; intros oc H; [destruct (E1 oc H); split; [by right|done]|].
      destruct (E2 oc H) as [?|[? ?]]; [by left|right; split; [by right|done]].
    + apply IH in E as [E1 E2]. split; intros oc H; [destruct (E1 oc H); split; [by right|done]|].
      destruct (E2 oc H) as [[= <-]|[? ?]]; [right; split; [by left|done]|right; split; [by right|done]].
    + injection E as <- <- <-. split; [|by left]. intros oc [= <-]. split; [by left|done].
Qed.

(** What a session brings with it is used up or handed on. *)
Definition refs_in (xh : Z -> Z) (sp : sess) : Z -> Z :=
  match s_objhead sp with Some a => upd xh a (-1) | None => xh end.

(** The walk and the choice agree, whatever bans were found on the way. *)
Lemma walk_choice xb (c : cache) sp a oh : heads c !! a = Some oh -> (objcs oh = [] \/ 1 < Slinger.refcnt oh) ->
  NoDup (objcs oh) -> BanSpec.inv xb (banw c) -> (forall oc, oc ∈ objcs oh -> visitable c a oc) ->
  exists w f b g oc, look (objcs oh) c sp a None None = Some (set_ban c w, f, b, g) /\
    use_grace par VBE_Healthy (set_ban c w) sp a f b g = Some oc /\
    choose c sp a (objcs oh) = match oc with Some oc => Hit oc | None => if bool_decide (is_Some b) then Wait else Fetch end /\
    (forall y, oc = Some y -> y ∈ objcs oh /\ usable (classify c sp y) = true) /\
    BanSpec.inv xb w /\ rechecked (banw c) w.
Proof using VRE_exec.
  intros Ha Hr Hn Hi Hv.
  destruct (look_spec SMP_Fixup xb sp a oh (objcs oh) c None None Ha Hr Hn Hi Hv) as (w & f & b & g & E & Ep & I & R & T).
  destruct (pick_in _ _ _ _ _ _ _ (eq_sym Ep)) as [P1 P2]. unfold choose. rewrite <- Ep.
  assert (G : forall oc, g = Some oc -> oc ∈ objcs oh /\ usable (classify c sp oc) = true /\
    exists o', Ban.objs w !! oc = Some o' /\ req_grace c sp oc = (t_req sp <=? dadd (Ban.ttl o') (HSH_Grace par (s_grace sp)))).
  { intros oc Hg. destruct (P2 oc Hg) as [[=]|[H1 H2]].
    assert (U : usable (classify c sp oc) = true) by (by rewrite H2). split; [done|]. split; [done|].
    specialize (T oc (or_intror U)). unfold req_grace. revert H2. unfold classify.
    destruct (cores c !! oc) as [x|]; [|done]. destruct (busy x); [done|].
    destruct (Ban.objs (banw c) !! oc) as [o|]; [|done]. intros _. simpl in T.
    apply fmap_Some in T as (o' & Eo' & Et). exists o'. split; [done|]. by rewrite Et. }
  unfold use_grace. cbn [set_ban banw].
  destruct f as [f|].
  - exists w, (Some f), b, g, (Some f). split_and!; try done; try by destruct g.
    intros y [= <-]. destruct (P1 f eq_refl) as [? E1]. by rewrite E1.
  - destruct g as [g|].
    + destruct (G g eq_refl) as (H1 & H2 & o' & Eo & ->).
      destruct (bool_decide (is_Some b) || negb (VBE_Healthy a)) eqn:Eb; cbn [andb].
      * destruct (t_req sp <=? dadd (Ban.ttl o') (HSH_Grace par (s_grace sp))) eqn:Et.
        -- exists w, None, b, (Some g), (Some g). cbn [set_ban banw]. rewrite Eb, Eo, Et. split_and!; try done; by intros y [= <-].
        -- exists w, None, b, (Some g), None. cbn [set_ban banw]. rewrite Eb, Eo, Et. by split_and!.
      * exists w, None, b, (Some g), None. rewrite Eb. by split_and!.
    + exists w, None, b, None, None. by split_and!.
Qed.

Lemma classify_ext (c c' : cache) sp oc x : cores c !! oc = Some x -> cores c' !! oc = Some x ->
  banw c' = banw c -> classify c' sp oc = classify c sp oc.
Proof. intros H1 H2 H3. unfold classify. by rewrite H1, H2, H3. Qed.

Lemma lookup_spec xh xb c w M sp noc noh : hinv ∅ xh xb c M -> wok c w -> fresh_addr c noc noh ->
  digest_ok (s_digest sp) -> s_id sp ∈ has_wrk c ->
  (forall a, s_objhead sp = Some a -> M !! s_digest sp = Some a /\ 1 <= xh a) ->
  exists c' w' sp' r a, let M' := <[s_digest sp := a]> M in let l := listed c M (s_digest sp) in
    HSH_Lookup VRE_exec par SMP_Fixup VBE_Healthy c w sp noc noh = Some (c', w', sp', r) /\ wok c' w' /\
    (forall b, s_objhead sp = Some b -> a = b) /\
    match choose c sp a l with
    | Hit oc => r = Got oc a /\ oc ∈ l /\ usable (classify c sp oc) = true /\ hinv ∅ (refs_in xh sp) xb c' M' /\
        (refcnt <$> cores c' !! oc) = (fun x => refcnt x + 1) <$> cores c !! oc
    | Fetch => exists oc x, r = Got oc a /\ oc ∉ l /\ hinv ∅ (refs_in xh sp) xb c' M' /\
        cores c' !! oc = Some x /\ busy x = true /\ refcnt x = 1 /\ objhead x = Some a /\
        listed c' M' (s_digest sp) = l ++ [oc]
    | Wait => r = Parked /\ s_objhead sp' = Some a /\ s_id sp ∉ has_wrk c' /\
        hinv ∅ (if esis sp =? 0 then refs_in xh sp else upd (refs_in xh sp) a 1) xb c' M' /\
        waiting c' M' (s_digest sp) = waiting c M (s_digest sp) ++ (if esis sp =? 0 then [s_id sp] else [])
    end.
Proof using magic_off.
  intros I W Fr D Hw Hs. unfold HSH_Lookup. rewrite bool_decide_true by done.
  destruct (find_head_spec xh xb c w M sp noc noh I W Fr D Hs)
    as (c1 & w1 & a & oh & -> & I1 & W1 & K1 & B1 & S1 & C1 & Ea & El & Ew & Hb).
  set (xh1 := match s_objhead sp with Some _ => xh | None => upd xh a 1 end) in *.
  set (M' := <[s_digest sp := a]> M) in *. assert (Ed : M' !! s_digest sp = Some a) by apply lookup_insert_eq.
  assert (Hx : 1 <= xh1 a).
  { subst xh1. destruct (s_objhead sp) as [b|] eqn:Eh.
    - rewrite (Hb b eq_refl). by apply (Hs b).
    - rewrite upd_eq. pose proof (xh_nonneg _ _ _ _ _ a I). lia. }
  assert (Rf : forall b, refs_in xh sp b = upd xh1 a (-1) b).
  { intros b. subst xh1. unfold refs_in. destruct (s_objhead sp) as [e|] eqn:Eh; [by rewrite (Hb e eq_refl)|].
    unfold upd. destruct (b =? a); lia. }
  destruct (h_ref _ _ _ _ _ I1 _ a oh Ed Ea) as [Hr _].
  assert (Hv : forall oc, oc ∈ objcs oh -> visitable c1 a oc).
  { intros oc H. apply (h_list _ _ _ _ _ I1 _ a oh oc Ed Ea) in H as (N & x & Hx1 & Ha1). exists x.
    destruct (h_core _ _ _ _ _ I1 oc x a N Hx1 Ha1) as (_ & Pn & G). by split_and!. }
  rewrite Ea, (proj2 (Z.ltb_lt 0 _)) by lia.
  assert (Hr1 : objcs oh = [] \/ 1 < Slinger.refcnt oh) by (destruct (objcs oh); [by left|right; simpl in Hr; lia]).
  set (sp1 := set_held sp None (s_objcore sp)).
  destruct (walk_choice xb c1 sp1 a oh Ea Hr1 (h_uniq _ _ _ _ _ I1 _ a oh Ed Ea) (h_ban _ _ _ _ _ I1) Hv)
    as (bw & f & b & g & oc & -> & -> & Ch & Hoc & Ib & Rc).
  assert (I2 : hinv ∅ xh1 xb (set_ban c1 bw) M').
  { apply hinv_ban; [done..|]. intros oc' x a' _ _ _ _ G. by eapply rechecked_good. }
  assert (W2 : wok (set_ban c1 bw) w1) by (by apply (wok_frame c1)).
  (* the choice does not depend on what was set up for the lookup *)
  assert (Lc : forall y, y ∈ objcs oh -> cores c1 !! y = cores c !! y).
  { intros y Hy. rewrite El in Hy. unfold listed in Hy. destruct (M !! s_digest sp) as [e|] eqn:Em; [|by apply not_elem_of_nil in Hy].
    destruct (heads c !! e) as [oe|] eqn:Ee; [|by apply not_elem_of_nil in Hy].
    apply (h_list _ _ _ _ _ I _ e oe y Em Ee) in Hy as (_ & x & Hx2 & _). rewrite Hx2. by apply C1. }
  assert (Cl : forall y, y ∈ objcs oh -> classify c1 sp1 y = classify c sp y).
  { intros y Hy. unfold classify. by rewrite (Lc y Hy), B1. }
  assert (Ech : choose c1 sp1 a (objcs oh) = choose c sp a (objcs oh)).
  { unfold choose. rewrite (pick_ext _ _ _ Cl). destruct (pick _ _ _ _) as [[[f0|] b0] [g0|]]; try done.
    unfold req_grace. by rewrite B1. }
  rewrite Ech in Ch. clear Ech.
  destruct oc as [oc|].
  - destruct (Hoc oc eq_refl) as [Hin Us]. destruct (Hv oc Hin) as (x & Ex & Eh & Pn & G).
    assert (Nb : busy x = false).
    { destruct (busy x) eqn:Eb; [|done]. revert Us. unfold classify. by rewrite Ex, Eb. }
    destruct (G Nb) as (o & o2 & _ & E2 & _).
    destruct (take_core_spec xh1 xb (set_ban c1 bw) w1 M' _ a oh oc x o2 I2 W2 Ed Ea Ex Eh E2 Hx)
      as (c3 & x' & -> & I3 & W3 & C3 & R3 & _).
    exists c3, w1, sp1, (Got oc a), a. cbv zeta. rewrite <- El, Ch. split; [done|]. split; [done|]. split; [done|].
    split; [done|]. split; [done|]. split; [by rewrite <- Cl|].
    split; [by eapply hinv_ext; [|exact I3]|]. rewrite C3, lookup_insert_eq, <- (Lc oc Hin), Ex. simpl. by rewrite R3.
  - destruct (bool_decide (is_Some b)) eqn:Eb.
    + destruct (park_spec xh1 xb (set_ban c1 bw) w1 M' _ a oh sp1 I2 W2 Ed Ea Hx)
        as (c3 & -> & I3 & W3 & C3 & S3 & oh' & Ea' & Ew').
      eexists c3, w1, _, Parked, a. cbv zeta. rewrite <- El, Ch. split; [reflexivity|]. split; [done|]. split; [done|].
      split; [done|]. split; [done|]. split; [rewrite S3; set_solver|]. split.
      * eapply hinv_ext; [|exact I3]. intros y. change (esis sp1) with (esis sp). destruct (esis sp =? 0); [apply Rf|].
        unfold upd at 1. rewrite Rf. unfold upd. destruct (y =? a); lia.
      * unfold waiting at 1. rewrite lookup_insert_eq, Ea', Ew', Ew. change (esis sp1) with (esis sp).
        destruct (esis sp =? 0); [done|by rewrite app_nil_r].
    + destruct (insert_busy_spec xh1 xb (set_ban c1 bw) w1 M' _ a oh I2 W2 K1 Ed Ea Hx)
        as (c3 & w3 & oc & x & -> & I3 & W3 & N3 & E3 & Bx & Rx & Hh & _ & _ & A3).
      exists c3, w3, sp1, (Got oc a), a. cbv zeta. rewrite <- El, Ch. split; [done|]. split; [done|]. split; [done|].
      exists oc, x. split; [done|]. split; [done|]. split; [by eapply hinv_ext; [|exact I3]|].
      split_and!; try done. unfold listed at 1. by rewrite lookup_insert_eq, A3.
Qed.
End Lookup.
End Spec.

(** ** The properties *)

(** C1: [HSH_Lookup] never fails an assertion and keeps the reference counts; it
    answers with the first live object the request may see; failing that, with
    an object in grace when a fetch is under way or the backend is sick and the
    request accepts the object's age; failing that, it parks the session when
    another one is fetching, and hands out a new busy core otherwise. *)
Theorem HSH_Lookup_chooses {regex : Type} (VRE_exec : regex -> list Z -> Z) {P : Type} {SL : Slinger P}
  (par : params) (SMP_Fixup : cache (regex := regex) (P := P) -> Z -> Z -> option cache) (VBE_Healthy : Z -> bool)
  (xh xb : Z -> Z) (c : cache) (w : worker) (M : Slinger.index) (sp : sess) (noc noh : Z)
  (Hmagic : Z.land (diag_bitmap par) 0x80000000 = 0) (I : hinv ∅ xh xb c M) (W : wok c w)
  (Fr : fresh_addr c noc noh) (D : digest_ok (s_digest sp)) (Hw : s_id sp ∈ has_wrk c)
  (Hs : forall a, s_objhead sp = Some a -> M !! s_digest sp = Some a /\ 1 <= xh a) :
  exists c' w' sp' r a, let M' := <[s_digest sp := a]> M in let l := listed c M (s_digest sp) in
    HSH_Lookup VRE_exec par SMP_Fixup VBE_Healthy c w sp noc noh = Some (c', w', sp', r) /\ wok c' w' /\
    (forall b, s_objhead sp = Some b -> a = b) /\
    match choose VRE_exec par VBE_Healthy c sp a l with
    | Hit oc => r = Got oc a /\ oc ∈ l /\ usable (classify VRE_exec par c sp oc) = true /\
        hinv ∅ (refs_in xh sp) xb c' M' /\
        (refcnt <$> cores c' !! oc) = (fun x => refcnt x + 1) <$> cores c !! oc
    | Fetch => exists oc x, r = Got oc a /\ oc ∉ l /\ hinv ∅ (refs_in xh sp) xb c' M' /\
        cores c' !! oc = Some x /\ busy x = true /\ refcnt x = 1 /\ objhead x = Some a /\
        listed c' M' (s_digest sp) = l ++ [oc]
    | Wait => r = Parked /\ s_objhead sp' = Some a /\ s_id sp ∉ has_wrk c' /\
        hinv ∅ (if esis sp =? 0 then refs_in xh sp else upd (refs_in xh sp) a 1) xb c' M' /\
        waiting c' M' (s_digest sp) = waiting c M (s_digest sp) ++ (if esis sp =? 0 then [s_id sp] else [])
    end.
Proof. by apply lookup_spec. Qed.

(** C2: [HSH_Deref] drops one reference.  While others are left nothing else
    changes; with the last one the core and its object are freed, its ban is
    released, and the head leaves the index exactly when this was the last
    reference to it.  Either way up to [rush_exponent] sessions are woken. *)
Theorem HSH_Deref_counts {regex : Type} (VRE_exec : regex -> list Z -> Z) {P : Type} {SL : Slinger P} (par : params)
  (WRK_QueueSession : Z -> bool) (xh xb : Z -> Z) (c : cache (regex := regex) (P := P)) (w : worker) (M : Slinger.index)
  (d : list Z) (a oc : Z) (oh : Slinger.objhead) (x : objcore) (o2 : object) (o : Ban.object)
  (I : hinv ∅ xh xb c M) (Hx : forall b, 0 <= xb b) (Ed : M !! d = Some a) (Ea : heads c !! a = Some oh)
  (Ex : cores c !! oc = Some x) (Eh : objhead x = Some a) (E2 : obj x = Some o2) (Eo : Ban.objs (banw c) !! oc = Some o) :
  exists c' w' M' woken left, HSH_Deref par WRK_QueueSession c w oc = Some (c', w') /\
    waitinglist oh = woken ++ left /\ (length woken <= rush_exponent par)%nat /\
    hinv ∅ (upd xh a (Z.of_nat (length woken))) xb c' M' /\
    if refcnt x =? 1 then
      cores c' = delete oc (cores c) /\ Ban.objs (banw c') = delete oc (Ban.objs (banw c)) /\
      M' = (if Slinger.refcnt oh =? 1 then delete d M else M)
    else cores c' = <[oc := set_refcnt x (refcnt x - 1)]> (cores c) /\ banw c' = banw c /\ M' = M.
Proof.
  destruct (h_core _ _ _ _ _ I oc x a) as (R & _); [set_solver|done|done|].
  destruct (Z.eqb_spec (refcnt x) 1) as [E1|N1].
  - destruct (deref_last_spec VRE_exec par WRK_QueueSession xh xb c w M d a oh oc x o2 o I Hx Ed Ea Ex Eh E1 E2 Eo)
      as (c' & w' & M' & woken & left_ & H). exists c', w', M', woken, left_. destruct_and! H. by split_and!.
  - destruct (deref_more_spec par WRK_QueueSession xh xb c w M d a oh oc x I Ed Ea Ex Eh ltac:(lia))
      as (c' & woken & left_ & H). exists c', w, M, woken, left_. destruct_and! H. by split_and!.
Qed.

(** C36: [HSH_Unbusy] publishes a fetched object and takes the sessions that have
    waited longest off the waiting list, as many as [rush_exponent] allows; as
    long as the work queue accepts them each of them runs again, in order. *)
Theorem HSH_Unbusy_wakes {regex : Type} {P : Type} {SL : Slinger P} (par : params)
  (WRK_QueueSession : Z -> bool) (xh xb : Z -> Z) (c : cache (regex := regex) (P := P)) (w : worker) (M : Slinger.index)
  (d : list Z) (a oc : Z) (oh : Slinger.objhead) (x : objcore) (o2 : object) (o : Ban.object)
  (I : hinv ∅ xh xb c M) (Ed : M !! d = Some a) (Ea : heads c !! a = Some oh)
  (Ex : cores c !! oc = Some x) (Eh : objhead x = Some a) (Eb : busy x = true) (E2 : obj x = Some o2)
  (Eo : Ban.objs (banw c) !! oc = Some o) (Hb : is_Some (Ban.o_ban o))
  (Hv : forall v, vary o2 = Some v -> good_vary v)
  (Hq : forall sp, sp ∈ waitinglist oh -> WRK_QueueSession sp = false) :
  let n := rush_exponent par in
  exists c' w', HSH_Unbusy par WRK_QueueSession c w oc = Some (c', w') /\
    queued c' = queued c ++ List.firstn n (waitinglist oh) /\
    heads c' !! a = Some (set_waiting oh (drop n (waitinglist oh))) /\
    hinv ∅ (upd xh a (Z.of_nat (length (List.firstn n (waitinglist oh))))) xb c' M /\
    exists x', cores c' !! oc = Some x' /\ busy x' = false.
Proof.
  destruct (unbusy_spec par WRK_QueueSession xh xb c w M d a oh oc x o2 o I Ed Ea Ex Eh Eb Eo Hb E2 Hv)
    as (c' & w' & woken & left_ & E & El & Ln & I' & C & _ & _ & Ha & Q & Fn).
  specialize (Fn Hq). subst woken. exists c', w'. split; [done|]. split_and!.
  - rewrite Q. f_equal. clear -Hq. assert (H : forall s, s ∈ List.firstn (rush_exponent par) (waitinglist oh) -> WRK_QueueSession s = false).
    { intros s Hs. apply Hq. apply elem_of_take in Hs as (i & Hs & _). by eapply list_elem_of_lookup_2. }
    revert H. generalize (List.firstn (rush_exponent par) (waitinglist oh)). intros l.
    induction l as [|s l IH]; intros H; simpl; [done|]. rewrite H by left. simpl. f_equal. apply IH. intros; apply H; by right.
  - rewrite Ha. do 2 f_equal. apply (app_inv_head (List.firstn (rush_exponent par) (waitinglist oh))).
    by rewrite <- El, firstn_skipn.
  - done.
  - rewrite C. eexists. split; [apply lookup_insert_eq|]. unfold busy, on. simpl.
    rewrite Z.ldiff_land, <- Z.land_assoc. change (Z.land (Z.lnot OC_F_BUSY) OC_F_BUSY) with 0. by rewrite Z.land_0_r.
Qed.

(** ** A small cache

    One head with one object core, on the simple list. *)
#[local] Existing Instance SimpleList.hsl_slinger.

Definition d0 : list Z := replicate DIGEST_LEN 7.
Definition obj0 : object := Object None None 0 0 [] true false false.
Definition core0 (f : Z) : objcore := Objcore 1 f (Some obj0) (Some 64) 0 0.
Definition head0 (wl : list Z) : Slinger.objhead := ObjHead (1 + Z.of_nat (length wl)) d0 [100] wl.
Definition cache0 (f : Z) (wl : list Z) : cache (regex := list Z) (P := list Z) :=
  Cache {[ 64 := head0 wl ]} [64] {[ 100 := core0 f ]} BanSpec.wmagic {[ 5 ]} [] [] [].
Definition worker0 : worker := Worker None None 1 1 1 0 0 (Sha256.SHA256_Init []).
Definition sess0 (t : Z) : sess := Sess 5 None None d0 0 t Http.req0 None.
Definition par0 : params := Params 10 3 0 2147483647.

Lemma cache0_list wl : SimpleList.list_inv (heads (cache0 0 wl)) [64] {[ d0 := 64 ]}.
Proof.
  split; [|split; [|split]].
  - constructor; [|done]. exists (head0 wl). split; [done|]. split; [done|]. simpl. lia.
  - done.
  - apply NoDup_singleton.
  - intros d a. rewrite lookup_singleton_Some, list_elem_of_singleton. split.
    + intros [<- <-]. done.
    + intros [-> <-]. done.
Qed.

Lemma cache0_inv f wl : f = 0 \/ f = OC_F_BUSY -> 5 ∉ wl ->
  hinv ∅ (fun _ => 0) BanSpec.none (cache0 f wl) {[ d0 := 64 ]}.
Proof.
  intros Hf H5.
  assert (L : forall d a oh, ({[ d0 := 64 ]} : Slinger.index) !! d = Some a -> ({[ 64 := head0 wl ]} : gmap Z Slinger.objhead) !! a = Some oh ->
    a = 64 /\ oh = head0 wl).
  { intros d a oh H1 H2. apply lookup_singleton_Some in H1 as [_ <-]. by apply lookup_singleton_Some in H2 as [_ <-]. }
  split; cbn [cache0 heads Hsh.index cores banw has_wrk].
  - exact (cache0_list wl).
  - intros d a oh H1 H2. destruct (L d a oh H1 H2) as [-> ->]. simpl. lia.
  - intros d a oh H1 H2. destruct (L d a oh H1 H2) as [-> ->]. apply NoDup_singleton.
  - intros d a oh oc H1 H2. destruct (L d a oh H1 H2) as [-> ->]. cbn [head0 objcs]. rewrite list_elem_of_singleton. split.
    + intros ->. split; [set_solver|]. by exists (core0 f).
    + intros (_ & x & H & _). by apply lookup_singleton_Some in H as [<- _].
  - intros oc x a _ H1 H2. apply lookup_singleton_Some in H1 as [<- <-]. injection H2 as <-. by exists d0.
  - intros oc x a _ H1 _. apply lookup_singleton_Some in H1 as [<- <-].
    split; [done|]. split; [by destruct Hf as [->| ->]|]. intros _. exists BanSpec.obj100, obj0. by split_and!.
  - exact BanSpec.inv_magic.
  - intros d a oh sp H1 H2. destruct (L d a oh H1 H2) as [-> ->]. cbn [head0 waitinglist]. set_solver.
  - done.
Qed.

Lemma HSH_Lookup_chooses_witness : exists c' w' sp',
  HSH_Lookup BanSpec.vre_exec par0 (fun c _ _ => Some c) (fun _ => true) (cache0 0 []) worker0 (sess0 50) 200 128
    = Some (c', w', sp', Got 100 64) /\
  (refcnt <$> cores c' !! 100) = Some 2.
Proof.
  destruct (HSH_Lookup_chooses BanSpec.vre_exec par0 (fun c _ _ => Some c) (fun _ => true) (fun _ => 0) BanSpec.none
    (cache0 0 []) worker0 {[ d0 := 64 ]} (sess0 50) 200 128) as (c' & w' & sp' & r & a & E & _ & _ & K).
  - done.
  - apply cache0_inv; [by left|set_solver].
  - split; [done|]. intros a. done.
  - split_and!; [done|done|by vm_compute|done|]. cbn [cache0 Hsh.index sl_held SimpleList.hsl_slinger]. set_solver.
  - split; [done|]. by apply Forall_replicate.
  - cbn. set_solver.
  - done.
  - exists c', w', sp'. cbv zeta in E, K.
    assert (Ch : choose BanSpec.vre_exec par0 (fun _ => true) (cache0 0 []) (sess0 50) a
      (listed (cache0 0 []) {[ d0 := 64 ]} (s_digest (sess0 50))) = Hit 100) by (vm_compute; reflexivity).
    rewrite Ch in K. destruct K as (-> & _ & _ & _ & K). rewrite K. split; [|reflexivity].
    rewrite E. repeat f_equal. revert E. clear. vm_compute. intros [= _ _ _ E]. by rewrite E.
Defined.

Lemma HSH_Deref_counts_witness : exists c' w',
  HSH_Deref par0 (fun _ => false) (cache0 0 []) worker0 100 = Some (c', w') /\ cores c' = ∅.
Proof.
  destruct (HSH_Deref_counts BanSpec.vre_exec par0 (fun _ => false) (fun _ => 0) BanSpec.none (cache0 0 []) worker0
    {[ d0 := 64 ]} d0 64 100 (head0 []) (core0 0) obj0 BanSpec.obj100) as (c' & w' & M' & wk & lf & E & _ & _ & _ & K & _).
  - apply cache0_inv; [by left|set_solver].
  - done.
  - done.
  - done.
  - done.
  - done.
  - done.
  - done.
  - exists c', w'. split; [exact E|]. rewrite K. apply delete_singleton_eq.
Defined.

Lemma HSH_Unbusy_wakes_witness : exists c' w',
  HSH_Unbusy par0 (fun _ => false) (cache0 OC_F_BUSY [7; 8; 9; 10]) worker0 100 = Some (c', w') /\ queued c' = [7; 8; 9].
Proof.
  destruct (HSH_Unbusy_wakes par0 (fun _ => false) (fun _ => 0) BanSpec.none (cache0 OC_F_BUSY [7; 8; 9; 10]) worker0
    {[ d0 := 64 ]} d0 64 100 (head0 [7; 8; 9; 10]) (core0 OC_F_BUSY) obj0 BanSpec.obj100) as (c' & w' & E & Q & _).
  - apply cache0_inv; [by right|set_solver].
  - done.
  - done.
  - done.
  - done.
  - done.
  - done.
  - done.
  - by eexists.
  - done.
  - done.
  - exists c', w'. split; [exact E|]. rewrite Q. reflexivity.
Defined.

(** A session that cannot be queued is dropped, but the reference to the head it
    waited with is not: the head is never freed. *)
Lemma dropped_session_leaks : exists c',
  hsh_rush par0 (fun _ => true) (cache0 OC_F_BUSY [7]) 64 = Some c' /\ queued c' = [] /\
  heads c' !! 64 = Some (ObjHead 2 d0 [100] []).
Proof. eexists. split; [vm_compute; reflexivity|]. split; reflexivity. Qed.

End HshSpec.
