(* ===== verification/Expire.v ===== *)
(** * Expire: timers and the LRU list

    [bin/varnishd/cache_expire.c]: every object in the cache has a timer in a
    binary heap, keyed by the time its grace ends, and a place in the LRU list of
    its storage.  The lists are [lrus], oldest object first; the sentinel that
    ends a list in the code is its end.  [exp_mtx] makes every operation one step.
    [fuel] and [junk] belong to [BinHeap.binheap_delete]: the bound for its walk,
    and what its uninitialised variable holds. *)
From S2P Require Import Prelude Sha256 Slinger Http Double Ban Vary BinHeap Hsh.

Module Expire.
Import Slinger Double Hsh.

Definition BINHEAP_NOIDX : Z := 0.

Definition set_timer_idx (x : objcore) (i : Z) : objcore :=
  Objcore (refcnt x) (flags x) (obj x) (objhead x) (timer_when x) i.
Definition set_timer_when (x : objcore) (t : double) : objcore :=
  Objcore (refcnt x) (flags x) (obj x) (objhead x) t (timer_idx x).

(** The helper functions the heap calls. *)
Definition object_cmp (m : gmap Z objcore) (a b : Z) : option bool :=
  let? x := m !! a in let? y := m !! b in Some (timer_when x <? timer_when y).
Definition object_update (m : gmap Z objcore) (p u : Z) : option (gmap Z objcore) :=
  let? x := m !! p in Some (<[p := set_timer_idx x u]> m).

Section Expire.
Context {regex : Type} {P : Type} `{SL : Slinger P} (par : params).
Context (malloc_ok : Z -> bool) (STV_lru : Z -> Z) (fuel : nat) (junk : Z).
Context (WRK_QueueSession : Z -> bool).
Notation cache := (Hsh.cache (regex := regex) (P := P)).

Record exp := Exp {
  core : cache;
  exp_heap : BinHeap.binheap;
  lrus : gmap Z (list Z);
  n_expired : Z; n_lru_moved : Z; n_lru_nuked : Z;
  ttl_changed : list Z          (* the calls of [SMP_TTLchanged] *)
}.

Definition set_core (e : exp) (c : cache) : exp :=
  Exp c (exp_heap e) (lrus e) (n_expired e) (n_lru_moved e) (n_lru_nuked e) (ttl_changed e).
Definition set_heap (e : exp) (m : gmap Z objcore) (b : BinHeap.binheap) : exp :=
  Exp (set_cores (core e) m) b (lrus e) (n_expired e) (n_lru_moved e) (n_lru_nuked e) (ttl_changed e).
Definition set_lrus (e : exp) (l : gmap Z (list Z)) : exp :=
  Exp (core e) (exp_heap e) l (n_expired e) (n_lru_moved e) (n_lru_nuked e) (ttl_changed e).
Definition count (e : exp) (x m n : Z) : exp :=
  Exp (core e) (exp_heap e) (lrus e) (n_expired e + x) (n_lru_moved e + m) (n_lru_nuked e + n) (ttl_changed e).
Definition tell_smp (e : exp) (oc : Z) : exp :=
  match Ban.objs (banw (core e)) !! oc with
  | Some o => if Ban.smp_seg o
              then Exp (core e) (exp_heap e) (lrus e) (n_expired e) (n_lru_moved e) (n_lru_nuked e) (ttl_changed e ++ [oc])
              else e
  | None => e
  end.

Definition put (e : exp) (oc : Z) (x : objcore) : exp := set_core e (put_core (core e) oc x).

(** The heap's operations on the timers of the object cores. *)
Definition heap_insert (e : exp) (oc : Z) : option exp :=
  let? (m, b) := BinHeap.binheap_insert object_cmp (Some object_update) malloc_ok (cores (core e)) (exp_heap e) oc in
  Some (set_heap e m b).
Definition heap_delete (e : exp) (idx : Z) : option exp :=
  let? (m, b) := BinHeap.binheap_delete object_cmp (Some object_update) fuel junk (cores (core e)) (exp_heap e) idx in
  Some (set_heap e m b).

(** [VLIST_INSERT_BEFORE(&lru->senteniel, oc, lru_list)] *)
Definition lru_insert (e : exp) (lru oc : Z) : option exp :=
  let? l := lrus e !! lru in Some (set_lrus e (<[lru := l ++ [oc]]> (lrus e))).

(** [VLIST_REMOVE(oc, lru_list)]: from the list it is on. *)
Definition lru_remove (e : exp) (oc : Z) : option exp :=
  if bool_decide (map_Exists (fun _ l => oc ∈ l) (lrus e))
  then Some (set_lrus e (filter (fun y => y <> oc) <$> lrus e))
  else None.

Definition set_flag (e : exp) (oc f : Z) : option exp :=
  let? x := cores (core e) !! oc in Some (put e oc (set_flags x (Z.lor (flags x) f))).
Definition clear_flag (e : exp) (oc f : Z) : option exp :=
  let? x := cores (core e) !! oc in Some (put e oc (set_flags x (Z.ldiff (flags x) f))).
Definition idx_of (e : exp) (oc : Z) : option Z :=
  let? x := cores (core e) !! oc in Some (timer_idx x).

(** When the timer of an object fires. *)
Definition when_of (e : exp) (oc : Z) : option double :=
  let? x := cores (core e) !! oc in
  let? o2 := obj x in
  let? o := Ban.objs (banw (core e)) !! oc in
  Some (dadd (Ban.ttl o) (HSH_Grace par (grace o2))).

(** [update_object_when(o)]; the result tells whether the time changed. *)
Definition update_object_when (e : exp) (oc : Z) : option (exp * bool) :=
  let? x := cores (core e) !! oc in
  let? t := when_of e oc in
  if t =? timer_when x then Some (e, false)
  else Some (put e oc (set_timer_when x t), true).

Definition EXP_Inject (e : exp) (oc lru : Z) (ttl : double) : option exp :=
  let? x := cores (core e) !! oc in
  assert! timer_idx x =? BINHEAP_NOIDX ;;
  let e := put e oc (set_timer_when x ttl) in
  let? e := heap_insert e oc in
  let? i := idx_of e oc in
  assert! negb (i =? BINHEAP_NOIDX) ;;
  let? e := lru_insert e lru oc in
  set_flag e oc OC_F_ONLRU.

Definition EXP_Insert (e : exp) (oc : Z) : option exp :=
  let? x := cores (core e) !! oc in
  let? o2 := obj x in
  let? o := Ban.objs (banw (core e)) !! oc in
  assert! busy x ;;
  assert! Ban.cacheable o ;;
  let? c := HSH_Ref (core e) oc in
  let e := set_core e c in
  assert! negb (entered o2 =? 0) ;;
  let? i := idx_of e oc in
  assert! i =? BINHEAP_NOIDX ;;
  let? (e, _) := update_object_when e oc in
  let? e := heap_insert e oc in
  let? i := idx_of e oc in
  assert! negb (i =? BINHEAP_NOIDX) ;;
  let? e := if objstore o2 then let? e := lru_insert e (STV_lru oc) oc in set_flag e oc OC_F_ONLRU else Some e in
  Some (tell_smp e oc).

(** [EXP_Touch(o)]; [trylock] tells whether the lock was free. *)
Definition EXP_Touch (e : exp) (oc : option Z) (trylock : bool) : option (exp * Z) :=
  match oc with
  | None => Some (e, 0)
  | Some oc =>
    let? x := cores (core e) !! oc in
    let? _ := objhead x in
    let? o2 := obj x in
    if on x OC_F_LRUDONTMOVE then Some (e, 0)
    else if negb (objstore o2) then Some (e, 0)
    else if negb trylock then Some (e, 0)
    else if on x OC_F_ONLRU then
      let? e := lru_remove e oc in
      let? e := lru_insert e (STV_lru oc) oc in
      Some (count e 0 1 0, 1)
    else Some (e, 0)
  end.

Definition EXP_Rearm (e : exp) (oc : option Z) : option exp :=
  match oc with
  | None => Some e
  | Some oc =>
    let? i := idx_of e oc in
    let? e := (if i =? BINHEAP_NOIDX then Some e
               else
                 let? (e, changed) := update_object_when e oc in
                 if negb changed then Some e
                 else
                   let? e := heap_delete e i in
                   let? j := idx_of e oc in
                   assert! j =? BINHEAP_NOIDX ;;
                   let? e := heap_insert e oc in
                   let? j := idx_of e oc in
                   assert! negb (j =? BINHEAP_NOIDX) ;;
                   Some e) in
    Some (tell_smp e oc)
  end.

(** Off the heap and off the LRU list. *)
Definition retire (e : exp) (oc : Z) : option exp :=
  let? x := cores (core e) !! oc in
  assert! negb (timer_idx x =? BINHEAP_NOIDX) ;;
  let? e := heap_delete e (timer_idx x) in
  let? i := idx_of e oc in
  assert! i =? BINHEAP_NOIDX ;;
  if on x OC_F_ONLRU then let? e := lru_remove e oc in clear_flag e oc OC_F_ONLRU else Some e.

(** One turn of [exp_timer] at time [t]: nothing is due, or an object dies. *)
Definition exp_timer (e : exp) (w : worker) (sp : sess) (t : double) : option (exp * worker * option Z) :=
  let? oc := BinHeap.binheap_root (exp_heap e) in
  if oc =? 0 then Some (e, w, None)
  else
    let? x := cores (core e) !! oc in
    if t <? timer_when x then Some (e, w, None)
    else
      let? a := objhead x in
      let? e := retire e oc in
      let e := count e 1 0 0 in
      if negb (on x OC_F_PERSISTENT) then
        let? _ := obj x in
        let? (c, w) := HSH_Deref par WRK_QueueSession (core e) w oc in
        Some (set_core e c, w, Some oc)
      else
        let? (c, w, sp) := HSH_DerefObjCore par WRK_QueueSession (core e) w (set_held sp (Some a) (Some oc)) in
        assert! bool_decide (s_objcore sp = None) ;;
        assert! bool_decide (s_objhead sp = None) ;;
        Some (set_core e c, count_objects w 0 0 0 (-1) 0, Some oc).

(** The first object on the list that nobody uses. *)
Fixpoint find_unused (m : gmap Z objcore) (l : list Z) : option (option Z) :=
  match l with
  | [] => Some None
  | oc :: l =>
    let? x := m !! oc in
    if timer_idx x =? BINHEAP_NOIDX then find_unused m l
    else if refcnt x =? 1 then Some (Some oc)
    else find_unused m l
  end.

(** Off the LRU list and off the heap. *)
Definition evict (e : exp) (oc : Z) : option exp :=
  let? e := lru_remove e oc in
  let? e := clear_flag e oc OC_F_ONLRU in
  let? i := idx_of e oc in
  let? e := heap_delete e i in
  let? i := idx_of e oc in
  assert! i =? BINHEAP_NOIDX ;;
  Some e.

Definition EXP_NukeOne (e : exp) (w : worker) (lru : Z) : option (exp * worker * Z) :=
  let? l := lrus e !! lru in
  let? r := find_unused (cores (core e)) l in
  match r with
  | None => Some (e, w, -1)
  | Some oc =>
    let? e := evict e oc in
    let e := count e 0 0 1 in
    let? (c, w) := HSH_Deref par WRK_QueueSession (core e) w oc in
    Some (set_core e c, w, 1)
  end.

Definition EXP_Init (c : cache) (l : gmap Z (list Z)) (pagesize : Z) : option exp :=
  let? b := BinHeap.binheap_new malloc_ok pagesize in
  let? b := b in Some (Exp c b l 0 0 0 []).
End Expire.

End Expire.
