(* ===== verification/ExpireSpec.v ===== *)
(** * ExpireSpec: correctness of the timers and of the LRU lists

    The invariant [einv] ties together what [cache_expire.c] keeps: the cores in
    the heap are those whose [timer_idx] is not zero, the cores on an LRU list
    are those marked [OC_F_ONLRU], and what is on a list has a timer.  With the
    invariant of [HshSpec] this says that expiry and nuking give up exactly the
    reference [EXP_Insert] took.  The heap is used through its interface
    [BinHeap.Items]. *)
From S2P Require Import Prelude Sha256 Slinger SimpleList Http Double Ban BanSpec Vary BinHeap Hsh HshSpec Expire.

Module ExpireSpec.
Import Slinger Double Hsh HshSpec Expire.

(** ** Cores as items of the heap *)

(** A core without its place in the heap. *)
Definition untimed (x : objcore) : objcore := set_timer_idx x 0.

Definition same_untimed (m m' : gmap Z objcore) : Prop := forall q, untimed <$> m' !! q = untimed <$> m !! q.

#[global] Instance same_untimed_pre : PreOrder same_untimed.
Proof. split; [done|]. intros m1 m2 m3 H1 H2 q. by rewrite H2. Qed.

Lemma untimed_insert m p x i : m !! p = Some x -> same_untimed m (<[p := set_timer_idx x i]> m).
Proof.
  intros Hx q. destruct (decide (q = p)) as [->|N]; [by rewrite lookup_insert_eq, Hx|by rewrite lookup_insert_ne].
Qed.

Lemma same_untimed_sym m m' : same_untimed m m' -> same_untimed m' m.
Proof. intros H q. by rewrite H. Qed.

Lemma untimed_lookup m m' q x : same_untimed m m' -> m !! q = Some x ->
  exists i, m' !! q = Some (set_timer_idx x i).
Proof.
  intros H Hx. specialize (H q). rewrite Hx in H. destruct (m' !! q) as [y|]; simpl in H; [|done].
  exists (timer_idx y). destruct x, y. cbv in H |- *. congruence.
Qed.

(** Any function of a core that ignores its place. *)
Lemma untimed_proj {A} (f : objcore -> A) m m' q : (forall x, f (untimed x) = f x) -> same_untimed m m' ->
  f <$> m' !! q = f <$> m !! q.
Proof.
  intros Hf H. specialize (H q). destruct (m' !! q), (m !! q); simpl in *; try done.
  f_equal. rewrite <- Hf, <- (Hf o0). congruence.
Qed.

#[local] Obligation Tactic := idtac.
#[global] Program Instance core_items : BinHeap.Items object_cmp (Some object_update) := {
  live m p := p <> 0 /\ is_Some (m !! p);
  key m p := default 0 (timer_when <$> m !! p);
  idx m p := default 0 (timer_idx <$> m !! p);
  untouched := same_untimed
}.
Next Obligation. by intros m p [? _]. Qed.
Next Obligation. intros m p q [_ [x Hx]] [_ [y Hy]]. unfold object_cmp. by rewrite Hx, Hy. Qed.
Next Obligation. by eexists. Qed.
Next Obligation.
  intros f m p i [= <-] [Hp [x Hx]]. cbv beta. unfold object_update. rewrite Hx. eexists. split; [done|].
  pose proof (untimed_insert m p x i Hx) as U.
  split; [by rewrite lookup_insert_eq|]. split; [intros q Hq; by rewrite lookup_insert_ne|].
  split; [|split; [|exact U]]; intros q.
  - by rewrite (untimed_proj timer_when m _ q ltac:(done) U).
  - pose proof (untimed_proj (fun _ => ()) m _ q ltac:(done) U) as E.
    split; intros [H1 H2]; (split; [done|]); destruct (m !! q), (<[p := _]> m !! q); done || by eexists.
Qed.

(** ** The heap and the indices in the cores *)

Definition heap_ok (m : gmap Z objcore) (b : BinHeap.binheap) : Prop :=
  BinHeap.wf m b /\ forall oc x, m !! oc = Some x -> timer_idx x <> 0 -> BinHeap.member b oc.

Lemma member_idx m b oc x : BinHeap.wf m b -> BinHeap.member b oc -> m !! oc = Some x ->
  1 <= timer_idx x < BinHeap.next b.
Proof.
  intros W (n & Hn & Hs) Hx. destruct (BinHeap.wf_items m b W n Hn) as (p & Hp & _ & Hi).
  assert (p = oc) as -> by congruence. cbn in Hi. rewrite Hx in Hi. simpl in Hi. lia.
Qed.

Lemma member_live m b oc : BinHeap.wf m b -> BinHeap.member b oc -> oc <> 0 /\ is_Some (m !! oc).
Proof.
  intros W (n & Hn & Hs). destruct (BinHeap.wf_items m b W n Hn) as (p & Hp & Hl & _).
  by assert (p = oc) as -> by congruence.
Qed.

Lemma member_iff m b oc x : heap_ok m b -> m !! oc = Some x -> BinHeap.member b oc <-> timer_idx x <> 0.
Proof.
  intros [W H] Hx. split; [intros Hm; pose proof (member_idx m b oc x W Hm Hx); lia|by apply H].
Qed.

(** A change of the cores the heap does not see. *)
Lemma wf_cores m m' b : BinHeap.wf m b ->
  (forall q, BinHeap.member b q -> timer_idx <$> m' !! q = timer_idx <$> m !! q) -> BinHeap.wf m' b.
Proof.
  intros W H. destruct W as [W1 W2 W3 W4 W5]. split; try done.
  intros n Hn. destruct (W4 n Hn) as (p & Hp & [L1 [x L2]] & Hi). exists p. split; [done|].
  specialize (H p ltac:(by exists n)). cbn in *. rewrite L2 in *. simpl in *.
  destruct (m' !! p) as [x'|]; simpl in *; [|done]. injection H as H. split; [split; [done|by eexists]|lia].
Qed.

Lemma heap_ok_cores m m' b : heap_ok m b ->
  (forall q, timer_idx <$> m' !! q = timer_idx <$> m !! q) -> heap_ok m' b.
Proof.
  intros [W H] E. split; [by apply (wf_cores m)|]. intros oc x' Hx' Hi. specialize (E oc).
  rewrite Hx' in E. destruct (m !! oc) as [x|] eqn:Ex; simpl in E; [|done]. apply (H oc x Ex). congruence.
Qed.

Lemma heap_ok_delete m b oc : heap_ok m b -> ~ BinHeap.member b oc -> heap_ok (delete oc m) b.
Proof.
  intros [W H] N. split.
  - apply (wf_cores m); [done|]. intros q Hq. rewrite lookup_delete_ne; [done|]. by intros ->.
  - intros q x Hx Hi. apply lookup_delete_Some in Hx as [_ Hx]. by apply (H q x).
Qed.

Lemma idx_default m p x i : m !! p = Some x -> BinHeap.idx m p = i -> timer_idx x = i.
Proof. intros Hx. cbn. by rewrite Hx. Qed.

Lemma heap_ok_insert malloc_ok m b oc x : heap_ok m b -> BinHeap.room b -> (forall z, malloc_ok z = true) ->
  m !! oc = Some x -> oc <> 0 -> timer_idx x = 0 ->
  exists m' b' i, BinHeap.binheap_insert object_cmp (Some object_update) malloc_ok m b oc = Some (m', b') /\
    heap_ok m' b' /\ same_untimed m m' /\ (forall q, BinHeap.member b' q <-> q = oc \/ BinHeap.member b q) /\
    m' !! oc = Some (set_timer_idx x i) /\ i <> 0 /\ BinHeap.next b' = BinHeap.next b + 1 /\
    (BinHeap.ordered m b -> BinHeap.ordered m' b').
Proof.
  intros [W H] R Hm Hx H0 Hi.
  assert (N : ~ BinHeap.member b oc) by (intros K; pose proof (member_idx m b oc x W K Hx); lia).
  destruct (BinHeap.binheap_insert_spec malloc_ok m b oc W R Hm ltac:(split; [done|by eexists]) N)
    as (m' & b' & E & W' & (K & L & U) & M & Nx & _ & O & X).
  destruct (untimed_lookup m m' oc x U Hx) as [i Ei].
  pose proof (member_idx m' b' oc _ W' (proj2 (M oc) (or_introl eq_refl)) Ei) as Bi. simpl in Bi.
  exists m', b', i. split; [done|]. split; [|split_and!; (done || lia)].
  split; [done|]. intros q y Hy Hn. destruct (BinHeap.member_dec b' q) as [?|Nq]; [done|].
  destruct (untimed_lookup m' m q y (same_untimed_sym _ _ U) Hy) as [j Ej]. specialize (X q Nq).
  cbn in X. rewrite Hy, Ej in X. simpl in X. apply M. right. apply (H q _ Ej). simpl. lia.
Qed.

Lemma heap_ok_remove m b oc x junk : heap_ok m b -> BinHeap.room b -> BinHeap.next b <= junk ->
  junk + BinHeap.next b < 2 ^ 32 -> m !! oc = Some x -> timer_idx x <> 0 ->
  exists m' b' n, (forall fuel, (n <= fuel)%nat ->
      BinHeap.binheap_delete object_cmp (Some object_update) fuel junk m b (timer_idx x) = Some (m', b')) /\
    heap_ok m' b' /\ same_untimed m m' /\ (forall q, BinHeap.member b' q <-> BinHeap.member b q /\ q <> oc) /\
    m' !! oc = Some (untimed x) /\ BinHeap.room b'.
Proof.
  intros [W H] R J1 J2 Hx Hi. pose proof (H oc x Hx Hi) as Hm. pose proof (member_idx m b oc x W Hm Hx) as Bi.
  assert (It : BinHeap.item b (timer_idx x) = oc).
  { destruct Hm as (n & Hn & Hs). destruct (BinHeap.wf_items m b W n Hn) as (p & Hp & _ & Hi').
    assert (p = oc) as -> by congruence. cbn in Hi'. rewrite Hx in Hi'. simpl in Hi'. subst n.
    unfold BinHeap.item. by rewrite Hp. }
  destruct (BinHeap.delete_spec m b (timer_idx x) junk W R Bi J1 J2)
    as (m' & b' & n & E & W' & (K & L & U) & M & I0 & Nx & Pg & X). rewrite It in *.
  assert (R' : BinHeap.room b').
  { unfold BinHeap.room in *. rewrite Nx, Pg. eapply Z.le_lt_trans; [|exact R].
    apply Z.mul_le_mono_nonneg_r; [|lia]. destruct (BinHeap.wf_geometry m b W) as (k & _ & -> & _). lia. }
  destruct (untimed_lookup m m' oc x U Hx) as [i Ei].
  assert (i = 0) as -> by (cbn in I0; by rewrite Ei in I0).
  exists m', b', n. split; [done|]. split; [|by split_and!].
  split; [done|]. intros q y Hy Hn. apply M. destruct (decide (q = oc)) as [->|Nq].
  { rewrite Ei in Hy. injection Hy as <-. done. }
  split; [|done]. destruct (BinHeap.member_dec b q) as [?|Nm]; [done|]. specialize (X q Nm).
  destruct (untimed_lookup m' m q y (same_untimed_sym _ _ U) Hy) as [j Ej].
  cbn in X. rewrite Hy, Ej in X. simpl in X. apply (H q _ Ej). simpl. lia.
Qed.

(** ** Flags *)

Lemma on_set x f g : Z.land f g = 0 -> on (set_flags x (Z.lor (flags x) f)) g = on x g.
Proof. intros H. unfold on. simpl. by rewrite Z.land_lor_distr_l, H, Z.lor_0_r. Qed.

Lemma on_clear x f g : Z.land f g = 0 -> on (set_flags x (Z.ldiff (flags x) f)) g = on x g.
Proof.
  intros H. unfold on. simpl. do 2 f_equal. apply Z.bits_inj. intros n.
  rewrite !Z.land_spec, Z.ldiff_spec. assert (B : Z.testbit (Z.land f g) n = false) by (by rewrite H, Z.bits_0).
  rewrite Z.land_spec in B. destruct (Z.testbit f n), (Z.testbit g n), (Z.testbit (flags x) n); done.
Qed.

Lemma onlru_set x : on (set_flags x (Z.lor (flags x) OC_F_ONLRU)) OC_F_ONLRU = true.
Proof.
  unfold on. simpl. change OC_F_ONLRU with (Z.shiftl 1 0). rewrite bit_testbit by lia.
  rewrite Z.lor_spec. by rewrite orb_true_r.
Qed.

Lemma onlru_clear x : on (set_flags x (Z.ldiff (flags x) OC_F_ONLRU)) OC_F_ONLRU = false.
Proof.
  unfold on. simpl. rewrite Z.ldiff_land, <- Z.land_assoc.
  change (Z.land (Z.lnot OC_F_ONLRU) OC_F_ONLRU) with 0. by rewrite Z.land_0_r.
Qed.

(** ** The LRU lists and the flags of the cores *)

Definition on_list (lr : gmap Z (list Z)) (oc : Z) : Prop := exists a l, lr !! a = Some l /\ oc ∈ l.

Record lru_ok (m : gmap Z objcore) (lr : gmap Z (list Z)) : Prop := {
  l_flag : forall oc, on_list lr oc <-> exists x, m !! oc = Some x /\ on x OC_F_ONLRU = true;
  l_nodup : forall a l, lr !! a = Some l -> NoDup l;
  l_one : forall a b l k oc, lr !! a = Some l -> lr !! b = Some k -> oc ∈ l -> oc ∈ k -> a = b
}.

Definition take_off (oc : Z) (lr : gmap Z (list Z)) : gmap Z (list Z) := filter (fun y => y <> oc) <$> lr.

Lemma take_off_lookup oc lr a : take_off oc lr !! a = filter (fun y => y <> oc) <$> lr !! a.
Proof. apply lookup_fmap. Qed.

Lemma take_off_Some oc lr a l : take_off oc lr !! a = Some l ->
  exists k, lr !! a = Some k /\ l = filter (fun y => y <> oc) k.
Proof. rewrite take_off_lookup. destruct (lr !! a) as [k|]; [|done]. intros [= <-]. by exists k. Qed.

Lemma take_off_on oc lr q : on_list (take_off oc lr) q <-> on_list lr q /\ q <> oc.
Proof.
  split.
  - intros (a & l & Hl & Hq). apply take_off_Some in Hl as (k & Hk & ->).
    apply list_elem_of_filter in Hq as [N Hq]. split; [by exists a, k|done].
  - intros [(a & l & Hl & Hq) N]. exists a, (filter (fun y => y <> oc) l).
    rewrite take_off_lookup, Hl. split; [done|]. by apply list_elem_of_filter.
Qed.

(** Off a list it is not on. *)
Lemma take_off_id oc lr : ~ on_list lr oc -> take_off oc lr = lr.
Proof.
  intros N. apply map_eq. intros a. rewrite take_off_lookup. destruct (lr !! a) as [l|] eqn:E; [|done].
  simpl. f_equal. assert (H : oc ∉ l) by (intros H; apply N; by exists a, l). clear -H.
  induction l as [|y l IH]; [done|]. apply not_elem_of_cons in H as [H1 H2].
  rewrite filter_cons, decide_True by done. by rewrite IH.
Qed.

Lemma lru_ok_cores m m' lr : lru_ok m lr ->
  (forall q, (fun x => on x OC_F_ONLRU) <$> m' !! q = (fun x => on x OC_F_ONLRU) <$> m !! q) -> lru_ok m' lr.
Proof.
  intros [A1 A2 A3] H. split; try done. intros oc. rewrite A1. specialize (H oc).
  destruct (m' !! oc) as [y|], (m !! oc) as [x|]; simpl in H; try done.
  injection H as H. split; intros (z & [= <-] & E); eexists; (split; [done|]); congruence.
Qed.

Lemma lru_ok_off m lr oc x : lru_ok m lr -> m !! oc = Some x ->
  lru_ok (<[oc := set_flags x (Z.ldiff (flags x) OC_F_ONLRU)]> m) (take_off oc lr).
Proof.
  intros [A1 A2 A3] Hx. split.
  - intros q. rewrite take_off_on, A1. split.
    + intros [(y & Hy & E) N]. exists y. by rewrite lookup_insert_ne.
    + intros (y & Hy & E). apply lookup_insert_Some in Hy as [[<- <-]|[N Hy]]; [by rewrite onlru_clear in E|eauto].
  - intros a l Hl. apply take_off_Some in Hl as (k & Hk & ->). apply NoDup_filter. by eapply A2.
  - intros a b l k q Ha Hb Hq Hq'. apply take_off_Some in Ha as (l' & Ha & ->), Hb as (k' & Hb & ->).
    apply list_elem_of_filter in Hq as [_ Hq], Hq' as [_ Hq']. by apply (A3 a b l' k' q).
Qed.

Lemma lru_ok_on m lr oc x a l : lru_ok m lr -> m !! oc = Some x -> on x OC_F_ONLRU = false -> lr !! a = Some l ->
  lru_ok (<[oc := set_flags x (Z.lor (flags x) OC_F_ONLRU)]> m) (<[a := l ++ [oc]]> lr).
Proof.
  intros [A1 A2 A3] Hx Hf Ha.
  assert (N : ~ on_list lr oc) by (intros H; apply A1 in H as (y & Hy & E); congruence).
  assert (Nl : forall b k, lr !! b = Some k -> oc ∉ k) by (intros b k Hb H; apply N; by exists b, k).
  assert (L : forall b k, <[a := l ++ [oc]]> lr !! b = Some k -> exists k0, lr !! b = Some k0 /\
    forall q, q ∈ k <-> q ∈ k0 \/ q = oc /\ b = a).
  { intros b k Hk. apply lookup_insert_Some in Hk as [[<- <-]|[Ne Hk]].
    - exists l. split; [done|]. intros q. rewrite elem_of_app, list_elem_of_singleton. tauto.
    - exists k. split; [done|]. intros q. split; [tauto|]. intros [?|[_ ->]]; done. }
  split.
  - intros q. split.
    + intros (b & k & Hk & Hq). destruct (L b k Hk) as (k0 & Hk0 & Iff). apply Iff in Hq. destruct Hq as [Hq|[Eq _]].
      * destruct (proj1 (A1 q)) as (y & Hy & E); [by exists b, k0|]. exists y. rewrite lookup_insert_ne; [done|].
        intros <-. by apply (Nl b k0).
      * subst q. eexists. rewrite lookup_insert_eq. split; [done|apply onlru_set].
    + intros (y & Hy & E). apply lookup_insert_Some in Hy as [[<- <-]|[Ne Hy]].
      * exists a, (l ++ [oc]). rewrite lookup_insert_eq. split; [done|]. set_solver.
      * destruct (proj2 (A1 q)) as (b & k & Hk & Hq); [eauto|]. destruct (decide (b = a)) as [->|Nb].
        { exists a, (l ++ [oc]). rewrite lookup_insert_eq. split; [done|]. set_solver. }
        exists b, k. by rewrite lookup_insert_ne.
  - intros b k Hk. apply lookup_insert_Some in Hk as [[<- <-]|[Ne Hk]]; [|by eapply A2].
    apply NoDup_app. split; [by eapply A2|]. split; [|apply NoDup_singleton]. intros q Hq H.
    apply list_elem_of_singleton in H as ->. by apply (Nl a l).
  - intros b b' k k' q Hk Hk' Hq Hq'. destruct (L b k Hk) as (k0 & Hk0 & I0), (L b' k' Hk') as (k1 & Hk1 & I1).
    apply I0 in Hq. apply I1 in Hq'. destruct Hq as [Hq|[Eq Eb]], Hq' as [Hq'|[Eq' Eb']]; subst.
    + by apply (A3 b b' k0 k1 q).
    + by apply Nl in Hk0.
    + by apply Nl in Hk1.
    + done.
Qed.

Lemma lru_ok_delete m lr oc : lru_ok m lr -> ~ on_list lr oc -> lru_ok (delete oc m) lr.
Proof.
  intros [A1 A2 A3] N. split; try done. intros q. rewrite A1. split; intros (y & Hy & E); exists y; (split; [|done]).
  - apply lookup_delete_Some. split; [|done]. intros <-. apply N, A1. eauto.
  - by apply lookup_delete_Some in Hy as [_ Hy].
Qed.

(** ** The invariant *)

Section Spec.
Context {regex : Type} {P : Type} {SL : Slinger P} (par : params).
Notation cache := (Hsh.cache (regex := regex) (P := P)).
Notation exp := (Expire.exp (regex := regex) (P := P)).

(** What the lookup sees of a core does not change. *)
Definition similar (x x' : objcore) : Prop :=
  objhead x' = objhead x /\ obj x' = obj x /\ busy x' = busy x /\
  on x' OC_F_PERSISTENT = on x OC_F_PERSISTENT /\ (0 < refcnt x -> 0 < refcnt x').

Lemma similar_refl x : similar x x.
Proof. by split_and!. Qed.

Lemma similar_untimed x x' : untimed x' = untimed x -> similar x x'.
Proof. destruct x, x'. intros [=]; subst. by split_and!. Qed.

Lemma hinv_similar ex xh xb (c : cache) M m : hinv ex xh xb c M ->
  (forall q, option_Forall2 similar (cores c !! q) (m !! q)) -> hinv ex xh xb (set_cores c m) M.
Proof.
  intros [A1 A2 A3 A4 A5 A6 A7 A8 A9] S.
  assert (F : forall q x, cores c !! q = Some x -> exists x', m !! q = Some x' /\ similar x x').
  { intros q x Hx. specialize (S q). rewrite Hx in S. inversion S; subst. eauto. }
  assert (B : forall q x', m !! q = Some x' -> exists x, cores c !! q = Some x /\ similar x x').
  { intros q x' Hx. specialize (S q). rewrite Hx in S. inversion S; subst. eauto. }
  split; try done; cbn [set_cores cores heads banw].
  - intros d a oh q H1 H2. rewrite (A4 d a oh q H1 H2). split; intros (N & y & Hy & Ha); (split; [done|]).
    + destruct (F q y Hy) as (y' & Hy' & E & _). exists y'. split; [done|congruence].
    + destruct (B q y Hy) as (y' & Hy' & E & _). exists y'. split; [done|congruence].
  - intros q y a N Hy Ha. destruct (B q y Hy) as (y' & Hy' & E & _). apply (A5 q y' a); congruence.
  - intros q y a N Hy Ha. destruct (B q y Hy) as (y' & Hy' & E1 & E2 & E3 & E4 & E5).
    destruct (A6 q y' a) as (K1 & K2 & K3); [done|done|congruence|].
    split; [auto|]. split; [congruence|]. rewrite E3. intros Hb.
    destruct (K3 Hb) as (o & o2 & Ho & Ho2 & K). exists o, o2. rewrite E2.
    split; [done|]. split; [done|exact K].
Qed.

Lemma similar_same (m m' : gmap Z objcore) oc x' : (forall q, q <> oc -> untimed <$> m' !! q = untimed <$> m !! q) ->
  (forall x, m !! oc = Some x -> similar x x') -> is_Some (m !! oc) -> m' !! oc = Some x' ->
  forall q, option_Forall2 similar (m !! q) (m' !! q).
Proof.
  intros U S [x Hx] Hx' q. destruct (decide (q = oc)) as [->|N].
  - rewrite Hx, Hx'. constructor. by apply S.
  - specialize (U q N). destruct (m' !! q) as [y'|], (m !! q) as [y|]; simpl in U; try done; constructor.
    apply similar_untimed. congruence.
Qed.

(** A core with a timer: it has a head and an object, with its times. *)
Definition timed (c : cache) (oc : Z) (x : objcore) : Prop :=
  is_Some (objhead x) /\ is_Some (obj x) /\ is_Some (Ban.objs (banw c) !! oc).

Record einv (xh xb : Z -> Z) (e : exp) (M : Slinger.index) : Prop := {
  e_hinv : hinv ∅ xh xb (core e) M;
  e_heap : heap_ok (cores (core e)) (exp_heap e);
  e_lru : lru_ok (cores (core e)) (lrus e);
  e_paired : forall oc x, cores (core e) !! oc = Some x -> on x OC_F_ONLRU = true -> timer_idx x <> 0;
  e_timed : forall oc x, cores (core e) !! oc = Some x -> timer_idx x <> 0 -> timed (core e) oc x
}.

(** Counters do not matter. *)
Lemma einv_count xh xb (e : exp) M x m n : einv xh xb e M -> einv xh xb (count e x m n) M.
Proof. by intros [A1 A2 A3 A4 A5]; split. Qed.

Lemma einv_tell xh xb (e : exp) M oc : einv xh xb e M -> einv xh xb (tell_smp e oc) M.
Proof.
  intros I. unfold tell_smp. destruct (Ban.objs (banw (core e)) !! oc) as [o|]; [|done].
  destruct (Ban.smp_seg o); [|done]. by destruct I as [A1 A2 A3 A4 A5]; split.
Qed.

Lemma tell_same (e : exp) oc : core (tell_smp e oc) = core e /\ exp_heap (tell_smp e oc) = exp_heap e /\
  lrus (tell_smp e oc) = lrus e.
Proof. unfold tell_smp. destruct (Ban.objs (banw (core e)) !! oc) as [o|]; [|done]. by destruct (Ban.smp_seg o). Qed.

Definition clear_lru (x : objcore) : objcore := set_flags x (Z.ldiff (flags x) OC_F_ONLRU).

(** An object without timer and place: what expiry and nuking leave. *)
Definition released (e : exp) (oc : Z) (x : objcore) (e' : exp) : Prop :=
  core e' = set_cores (core e) (cores (core e')) /\
  (forall q, q <> oc -> untimed <$> cores (core e') !! q = untimed <$> cores (core e) !! q) /\
  cores (core e') !! oc = Some (untimed (clear_lru x)) /\
  (forall q, BinHeap.member (exp_heap e') q <-> BinHeap.member (exp_heap e) q /\ q <> oc) /\
  lrus e' = take_off oc (lrus e).

Lemma einv_released xh xb (e e' : exp) M oc x : einv xh xb e M -> cores (core e) !! oc = Some x ->
  released e oc x e' -> heap_ok (cores (core e')) (exp_heap e') -> einv xh xb e' M.
Proof.
  intros [A1 A2 A3 A4 A5] Hx (C & U & Ex & Mb & Lr) Ho.
  assert (Ft : forall q y', q <> oc -> cores (core e') !! q = Some y' -> timer_idx y' <> 0 ->
    exists y, cores (core e) !! q = Some y /\ untimed y' = untimed y /\ timer_idx y <> 0).
  { intros q y' N Hy' Ht. pose proof (U q N) as Uq. rewrite Hy' in Uq.
    destruct (cores (core e) !! q) as [y|] eqn:Hy; simpl in Uq; [|done]. exists y. split; [done|].
    split; [congruence|]. apply (member_iff _ _ q y A2 Hy). apply Mb. by apply (member_iff _ _ q y' Ho Hy'). }
  split.
  - rewrite C. apply hinv_similar; [done|]. apply (similar_same _ _ oc (untimed (clear_lru x))); [done| |by eexists|done].
    intros y Hy. assert (y = x) as -> by congruence. split_and!; try done.
    + by apply (on_clear x OC_F_ONLRU).
    + by apply (on_clear x OC_F_ONLRU).
  - exact Ho.
  - rewrite Lr. apply (lru_ok_cores (<[oc := clear_lru x]> (cores (core e)))); [by apply lru_ok_off|].
    intros q. destruct (decide (q = oc)) as [->|N]; [by rewrite Ex, lookup_insert_eq|].
    rewrite lookup_insert_ne by done. specialize (U q N).
    destruct (cores (core e') !! q) as [y'|], (cores (core e) !! q) as [y|]; simpl in U; try done.
    simpl. f_equal. change (on y' OC_F_ONLRU) with (on (untimed y') OC_F_ONLRU). by replace (untimed y') with (untimed y) by congruence.
  - intros q y' Hy' Hf. destruct (decide (q = oc)) as [->|N].
    { rewrite Ex in Hy'. injection Hy' as <-. pose proof (onlru_clear x) as F. change (on (clear_lru x) OC_F_ONLRU = true) in Hf. unfold clear_lru in Hf. congruence. }
    pose proof (U q N) as Uq. rewrite Hy' in Uq. destruct (cores (core e) !! q) as [y|] eqn:Hy; simpl in Uq; [|done].
    apply (member_iff _ _ q y' Ho Hy'), Mb. split; [|done]. apply (member_iff _ _ q y A2 Hy), (A4 q y Hy).
    change (on (untimed y) OC_F_ONLRU = true). by replace (untimed y) with (untimed y') by congruence.
  - intros q y' Hy' Ht. destruct (decide (q = oc)) as [->|N].
    { rewrite Ex in Hy'. by injection Hy' as <-. }
    destruct (Ft q y' N Hy' Ht) as (y & Hy & E & Hi). destruct (A5 q y Hy Hi) as (T1 & T2 & T3).
    split_and!; [..|rewrite C; exact T3]; destruct y, y'; injection E; intros; simpl in *; subst; done.
Qed.

(** The two ways to take an object off heap and list. *)
Lemma on_list_exists (lr : gmap Z (list Z)) oc : on_list lr oc ->
  bool_decide (map_Exists (fun _ l => oc ∈ l) lr) = true.
Proof. intros (a & l & Hl & Ho). apply bool_decide_eq_true. by exists a, l. Qed.

Lemma heap_delete_spec (e : exp) oc x junk : heap_ok (cores (core e)) (exp_heap e) -> BinHeap.room (exp_heap e) ->
  BinHeap.next (exp_heap e) <= junk -> junk + BinHeap.next (exp_heap e) < 2 ^ 32 ->
  cores (core e) !! oc = Some x -> timer_idx x <> 0 ->
  exists m b n, (forall fuel, (n <= fuel)%nat -> heap_delete fuel junk e (timer_idx x) = Some (set_heap e m b)) /\
    heap_ok m b /\ same_untimed (cores (core e)) m /\ m !! oc = Some (untimed x) /\
    (forall q, BinHeap.member b q <-> BinHeap.member (exp_heap e) q /\ q <> oc) /\ BinHeap.room b.
Proof.
  intros H R J1 J2 Hx Hi. destruct (heap_ok_remove _ _ oc x junk H R J1 J2 Hx Hi) as (m & b & n & E & H' & U & M & Ex & R').
  exists m, b, n. split; [|by split_and!]. intros fuel Hf. unfold heap_delete. by rewrite E.
Qed.

Lemma exp_retire_spec xh xb (e : exp) M oc x junk : einv xh xb e M -> BinHeap.room (exp_heap e) ->
  BinHeap.next (exp_heap e) <= junk -> junk + BinHeap.next (exp_heap e) < 2 ^ 32 ->
  cores (core e) !! oc = Some x -> timer_idx x <> 0 ->
  exists e' n, (forall fuel, (n <= fuel)%nat -> retire fuel junk e oc = Some e') /\
    released e oc x e' /\ einv xh xb e' M /\ n_expired e' = n_expired e.
Proof.
  intros I R J1 J2 Hx Hi. pose proof (e_heap _ _ _ _ I) as Hh. pose proof (e_lru _ _ _ _ I) as Hl.
  destruct (heap_delete_spec e oc x junk Hh R J1 J2 Hx Hi) as (m & b & n & E & H' & U & Ex & Mb & _).
  set (e1 := set_heap e m b). set (m2 := <[oc := untimed (clear_lru x)]> m).
  set (e2 := Exp (set_cores (core e) m2) b (take_off oc (lrus e)) (n_expired e) (n_lru_moved e) (n_lru_nuked e) (ttl_changed e)).
  assert (Rl : released e oc x e2).
  { unfold e2, m2. split_and!; try done; cbn [core set_cores cores].
    - intros q N. by rewrite lookup_insert_ne, U.
    - by rewrite lookup_insert_eq. }
  assert (Hf : forall fuel, (n <= fuel)%nat -> retire fuel junk e oc = Some e2).
  { intros fuel Hn. unfold retire. rewrite Hx, (proj2 (Z.eqb_neq _ _)), E by done. cbn [negb].
    unfold idx_of. cbn [core set_heap set_cores cores]. rewrite Ex. cbn [Z.eqb timer_idx untimed set_timer_idx BINHEAP_NOIDX].
    destruct (on x OC_F_ONLRU) eqn:Ef.
    - unfold lru_remove. cbn [lrus set_heap]. rewrite on_list_exists by (apply (l_flag _ _ Hl); eauto).
      unfold clear_flag. cbn [core set_lrus set_heap set_cores cores]. by rewrite Ex.
    - f_equal. unfold e2, set_heap. rewrite take_off_id by (rewrite (l_flag _ _ Hl); intros (y & Hy & Ey); congruence).
      do 2 f_equal. unfold m2. symmetry. apply insert_id. rewrite Ex. f_equal. unfold untimed, clear_lru.
      replace (Z.ldiff (flags x) OC_F_ONLRU) with (flags x); [by destruct x|].
      unfold on in Ef. apply negb_false_iff, Z.eqb_eq in Ef. apply Z.bits_inj. intros k. rewrite Z.ldiff_spec.
      assert (B : Z.testbit (Z.land (flags x) OC_F_ONLRU) k = false) by (by rewrite Ef, Z.bits_0).
      rewrite Z.land_spec in B. by destruct (Z.testbit (flags x) k), (Z.testbit OC_F_ONLRU k). }
  exists e2, n. split; [done|]. split; [done|]. split; [|done].
  apply (einv_released xh xb e e2 M oc x I Hx Rl). unfold e2. cbn [core set_cores cores exp_heap]. apply (heap_ok_cores m); [done|]. intros q.
  unfold m2. destruct (decide (q = oc)) as [->|N]; [by rewrite lookup_insert_eq, Ex|by rewrite lookup_insert_ne].
Qed.

Lemma evict_spec xh xb (e : exp) M oc x junk : einv xh xb e M -> BinHeap.room (exp_heap e) ->
  BinHeap.next (exp_heap e) <= junk -> junk + BinHeap.next (exp_heap e) < 2 ^ 32 ->
  cores (core e) !! oc = Some x -> on x OC_F_ONLRU = true ->
  exists e' n, (forall fuel, (n <= fuel)%nat -> evict fuel junk e oc = Some e') /\
    released e oc x e' /\ einv xh xb e' M /\ n_lru_nuked e' = n_lru_nuked e.
Proof.
  intros I R J1 J2 Hx Hf. pose proof (e_heap _ _ _ _ I) as Hh. pose proof (e_lru _ _ _ _ I) as Hl.
  pose proof (e_paired _ _ _ _ I oc x Hx Hf) as Hi.
  set (e1 := put (set_lrus e (take_off oc (lrus e))) oc (clear_lru x)).
  assert (Hx1 : cores (core e1) !! oc = Some (clear_lru x))
    by (unfold e1; cbn [core put set_core put_core set_cores cores]; by rewrite lookup_insert_eq).
  assert (Hh1 : heap_ok (cores (core e1)) (exp_heap e1)).
  { apply (heap_ok_cores (cores (core e))); [done|]. intros q.
    unfold e1; cbn [core put set_core put_core set_cores cores set_lrus].
    destruct (decide (q = oc)) as [->|N]; [by rewrite lookup_insert_eq, Hx|by rewrite lookup_insert_ne]. }
  destruct (heap_delete_spec e1 oc (clear_lru x) junk Hh1 R J1 J2 Hx1 Hi) as (m & b & n & E & H' & U & Ex & Mb & _).
  assert (Rl : released e oc x (set_heap e1 m b)).
  { split_and!; try done. intros q N. cbn [core set_heap set_cores cores]. rewrite U.
    unfold e1; cbn [core put set_core put_core set_cores cores set_lrus]. by rewrite lookup_insert_ne. }
  exists (set_heap e1 m b), n. split; [|split; [done|split; [|done]]].
  - intros fuel Hn. unfold evict, lru_remove. rewrite on_list_exists by (apply (l_flag _ _ Hl); eauto).
    unfold clear_flag. cbn [core set_lrus]. rewrite Hx. fold (clear_lru x). fold (take_off oc (lrus e)). fold e1.
    unfold idx_of. rewrite Hx1. change (timer_idx (clear_lru x)) with (timer_idx x) in E |- *. rewrite E by done.
    cbn [core set_heap set_cores cores]. by rewrite Ex.
  - by apply (einv_released xh xb e _ M oc x I Hx Rl).
Qed.

(** ** Giving up the reference *)

Context (WRK_QueueSession : Z -> bool).

Lemma deref_spec xh xb (e : exp) (w : worker) M oc x : einv xh xb e M -> (forall b, 0 <= xb b) ->
  cores (core e) !! oc = Some x -> timer_idx x = 0 -> on x OC_F_ONLRU = false -> timed (core e) oc x ->
  exists c' w' M' k a, HSH_Deref par WRK_QueueSession (core e) w oc = Some (c', w') /\ objhead x = Some a /\
    (k <= rush_exponent par)%nat /\ einv (upd xh a (Z.of_nat k)) xb (set_core e c') M' /\
    cores c' = (if refcnt x =? 1 then delete oc (cores (core e))
                else <[oc := set_refcnt x (refcnt x - 1)]> (cores (core e))).
Proof.
  intros [A1 A2 A3 A4 A5] Hb Hx Ht Hf ([a Ha] & [o2 Ho2] & [o Ho]).
  destruct (h_home _ _ _ _ _ A1 oc x a) as [d Hd]; [set_solver|done|done|].
  destruct (indexed _ _ _ _ _ d a A1 Hd) as (oh & Hoh & _).
  destruct (h_core _ _ _ _ _ A1 oc x a) as (Rp & _); [set_solver|done|done|].
  assert (Nm : ~ BinHeap.member (exp_heap e) oc) by (rewrite (member_iff _ _ oc x A2 Hx), Ht; intros K; by apply K).
  assert (Nl : ~ on_list (lrus e) oc) by (rewrite (l_flag _ _ A3); intros (y & Hy & Ey); congruence).
  destruct (Z.eqb_spec (refcnt x) 1) as [E1|N1].
  - destruct (deref_last_spec (fun _ _ => 0) par WRK_QueueSession xh xb (core e) w M d a oh oc x o2 o A1 Hb Hd Hoh Hx Ha E1 Ho2 Ho)
      as (c' & w' & M' & woken & left_ & E & _ & Lw & I' & C' & O' & _).
    exists c', w', M', (length woken), a. split_and!; try done. split; cbn [core set_core exp_heap lrus]; rewrite ?C'; [done|..].
    + by apply heap_ok_delete.
    + by apply lru_ok_delete.
    + intros q y Hy. apply lookup_delete_Some in Hy as [_ Hy]. exact (A4 q y Hy).
    + intros q y Hy Hi. apply lookup_delete_Some in Hy as [N Hy]. destruct (A5 q y Hy Hi) as (T1 & T2 & T3).
      unfold timed. by rewrite O', lookup_delete_ne.
  - destruct (deref_more_spec par WRK_QueueSession xh xb (core e) w M d a oh oc x A1 Hd Hoh Hx Ha ltac:(lia))
      as (c' & woken & left_ & E & _ & Lw & I' & C' & B' & _).
    assert (L : forall q y', cores c' !! q = Some y' -> exists y, cores (core e) !! q = Some y /\
      timer_idx y' = timer_idx y /\ on y' OC_F_ONLRU = on y OC_F_ONLRU /\ objhead y' = objhead y /\ obj y' = obj y).
    { intros q y' Hy. rewrite C' in Hy. apply lookup_insert_Some in Hy as [[<- <-]|[N Hy]]; eexists; by split_and!. }
    exists c', w, M, (length woken), a. split_and!; try done. split; cbn [core set_core exp_heap lrus]; [done|..].
    + rewrite C'. apply (heap_ok_cores (cores (core e))); [done|]. intros q.
      destruct (decide (q = oc)) as [->|N]; [by rewrite lookup_insert_eq, Hx|by rewrite lookup_insert_ne].
    + rewrite C'. apply (lru_ok_cores (cores (core e))); [done|]. intros q.
      destruct (decide (q = oc)) as [->|N]; [by rewrite lookup_insert_eq, Hx|by rewrite lookup_insert_ne].
    + intros q y' Hy. destruct (L q y' Hy) as (y & Hy0 & -> & -> & _). exact (A4 q y Hy0).
    + intros q y' Hy. destruct (L q y' Hy) as (y & Hy0 & -> & _ & Eh & Eo). intros Hi.
      destruct (A5 q y Hy0 Hi) as (T1 & T2 & T3). unfold timed. by rewrite Eh, Eo, B'.
Qed.

(** What expiry and nuking do to the cache and to the object's core. *)
Definition killed (xh xb : Z -> Z) (e : exp) (oc : Z) (x : objcore) (e' : exp) : Prop :=
  (exists a k M', objhead x = Some a /\ (k <= rush_exponent par)%nat /\ einv (upd xh a (Z.of_nat k)) xb e' M') /\
  (forall q, BinHeap.member (exp_heap e') q <-> BinHeap.member (exp_heap e) q /\ q <> oc) /\
  lrus e' = take_off oc (lrus e) /\
  (forall q, q <> oc -> untimed <$> cores (core e') !! q = untimed <$> cores (core e) !! q) /\
  refcnt <$> cores (core e') !! oc = (if refcnt x =? 1 then None else Some (refcnt x - 1)).

Lemma kill_spec xh xb (e e1 : exp) (w : worker) M oc x : einv xh xb e M -> (forall b, 0 <= xb b) ->
  cores (core e) !! oc = Some x -> timer_idx x <> 0 -> released e oc x e1 -> einv xh xb e1 M ->
  exists c' w', HSH_Deref par WRK_QueueSession (core e1) w oc = Some (c', w') /\ killed xh xb e oc x (set_core e1 c').
Proof.
  intros I Hb Hx Hi (C & U & Ex & Mb & Lr) I1. destruct (e_timed _ _ _ _ I oc x Hx Hi) as (T1 & T2 & T3).
  destruct (deref_spec xh xb e1 w M oc _ I1 Hb Ex) as (c' & w' & M' & k & a & E & Ha & Lk & I' & C').
  - done.
  - apply onlru_clear.
  - unfold timed. by rewrite C.
  - exists c', w'. split; [done|]. split_and!; [by exists a, k, M'|done|done|..]; cbn [core set_core]; rewrite C'; cbn [refcnt untimed clear_lru set_timer_idx set_flags].
    + intros q N. rewrite <- (U q N). destruct (refcnt x =? 1); [by rewrite lookup_delete_ne|by rewrite lookup_insert_ne].
    + destruct (refcnt x =? 1); [by rewrite lookup_delete_eq|by rewrite lookup_insert_eq].
Qed.

(** ** The timer thread *)

Lemma root_cases (e : exp) : heap_ok (cores (core e)) (exp_heap e) ->
  BinHeap.binheap_root (exp_heap e) = Some 0 /\ BinHeap.next (exp_heap e) = 1 \/
  exists oc x, oc <> 0 /\ BinHeap.binheap_root (exp_heap e) = Some oc /\ cores (core e) !! oc = Some x /\ timer_idx x <> 0 /\
    (BinHeap.ordered (cores (core e)) (exp_heap e) -> forall q y, cores (core e) !! q = Some y -> timer_idx y <> 0 ->
       timer_when x <= timer_when y).
Proof.
  intros [W H]. set (m := cores (core e)) in *. set (b := exp_heap e) in *. pose proof (BinHeap.wf_next m b W) as Hn.
  destruct (decide (BinHeap.next b = 1)) as [E|N].
  - left. split; [|done]. unfold BinHeap.binheap_root, BinHeap.A, BinHeap.ROOT_IDX.
    rewrite (BinHeap.row_true b 1), (BinHeap.wf_empty m b W E); [done|apply W|].
    destruct (BinHeap.wf_rows m b W) as (j & Hj & Hl & _). lia.
  - right. destruct (BinHeap.A_item m b 1 W ltac:(lia)) as (Ea & Es & [L0 [x Lx]] & Ei).
    exists (BinHeap.item b 1), x. split; [done|]. split; [done|]. split; [done|].
    assert (Hm : BinHeap.member b (BinHeap.item b 1)) by (exists 1; split; [lia|done]).
    pose proof (member_idx m b _ x W Hm Lx). split; [lia|]. intros O q y Hy Hi.
    destruct (H q y Hy Hi) as (n & Hn' & Hs). pose proof (BinHeap.root_least m b W O n Hn') as Le.
    unfold BinHeap.weight in Le. assert (Eq : BinHeap.item b n = q) by (unfold BinHeap.item; by rewrite Hs).
    rewrite Eq in Le. cbn in Le. rewrite Hy in Le. destruct (m !! BinHeap.item b 1) as [x'|] eqn:E'; [|done].
    assert (x' = x) as -> by congruence. exact Le.
Qed.

Lemma timer_spec xh xb (e : exp) (w : worker) sp M t junk : einv xh xb e M -> (forall b, 0 <= xb b) ->
  BinHeap.room (exp_heap e) -> BinHeap.next (exp_heap e) <= junk -> junk + BinHeap.next (exp_heap e) < 2 ^ 32 ->
  exists n e' w' r, (forall fuel, (n <= fuel)%nat -> exp_timer par fuel junk WRK_QueueSession e w sp t = Some (e', w', r)) /\
    match r with
    | None => e' = e /\ w' = w /\
        (BinHeap.ordered (cores (core e)) (exp_heap e) ->
         forall q y, cores (core e) !! q = Some y -> timer_idx y <> 0 -> t < timer_when y)
    | Some oc => exists x, cores (core e) !! oc = Some x /\ timer_idx x <> 0 /\ timer_when x <= t /\
        (BinHeap.ordered (cores (core e)) (exp_heap e) ->
         forall q y, cores (core e) !! q = Some y -> timer_idx y <> 0 -> timer_when x <= timer_when y) /\
        n_expired e' = n_expired e + 1 /\ killed xh xb e oc x e'
    end.
Proof.
  intros I Hb R J1 J2. destruct (root_cases e (e_heap _ _ _ _ I)) as [[Er En]|(oc & x & N0 & Er & Hx & Hi & Lo)].
  { exists 0%nat, e, w, None. split; [intros fuel _; unfold exp_timer; by rewrite Er|]. split_and!; try done.
    intros _ q y Hy Hi. apply (member_iff _ _ q y (e_heap _ _ _ _ I) Hy) in Hi as (n & Hn & _). lia. }
  destruct (Z.ltb_spec t (timer_when x)) as [Lt|Le].
  { exists 0%nat, e, w, None. split.
    - intros fuel _. unfold exp_timer. rewrite Er, (proj2 (Z.eqb_neq oc 0)), Hx, (proj2 (Z.ltb_lt t _)) by done. done.
    - split_and!; try done. intros O q y Hy Hq. specialize (Lo O q y Hy Hq). lia. }
  destruct (exp_retire_spec xh xb e M oc x junk I R J1 J2 Hx Hi) as (e1 & n & E1 & Rl & I1 & Cn).
  destruct (e_timed _ _ _ _ I oc x Hx Hi) as ([a Ha] & [o2 Ho] & _).
  destruct (h_core _ _ _ _ _ (e_hinv _ _ _ _ I) oc x a) as (_ & Pn & _); [set_solver|done|done|].
  destruct (kill_spec xh xb e e1 w M oc x I Hb Hx Hi Rl I1) as (c' & w' & Ed & K).
  exists n, (set_core (count e1 1 0 0) c'), w', (Some oc). split.
  - intros fuel Hf. unfold exp_timer. rewrite Er, (proj2 (Z.eqb_neq oc 0)), Hx, (proj2 (Z.ltb_ge t _)), Ha, E1 by done.
    cbn [negb]. rewrite Pn. cbn [negb]. pose proof Rl as (_ & _ & _). rewrite Ho.
    change (core (count e1 1 0 0)) with (core e1). by rewrite Ed.
  - exists x. split_and!; [done|done|done|done|cbn; lia|]. destruct K as ((a' & k & M' & Ea & Lk & I') & K).
    split; [|exact K]. exists a', k, M'. split; [done|]. split; [done|]. by destruct I' as [B1 B2 B3 B4 B5]; split.
Qed.

(** ** Making room *)

(** The choice of [EXP_NukeOne]. *)
Definition unused (m : gmap Z objcore) (oc : Z) : bool :=
  match m !! oc with Some x => negb (timer_idx x =? BINHEAP_NOIDX) && (refcnt x =? 1) | None => false end.

Lemma find_unused_spec (m : gmap Z objcore) l : (forall oc, oc ∈ l -> is_Some (m !! oc)) ->
  find_unused m l = Some (List.find (unused m) l).
Proof.
  induction l as [|oc l IH]; intros H; [done|]. cbn [find_unused List.find]. unfold unused at 1.
  destruct (H oc) as [x Hx]; [by left|]. rewrite Hx. rewrite IH by (intros q Hq; apply H; by right).
  destruct (timer_idx x =? BINHEAP_NOIDX); cbn [negb andb]; [done|]. by destruct (refcnt x =? 1).
Qed.

Lemma nuke_spec xh xb (e : exp) (w : worker) M lru l junk : einv xh xb e M -> (forall b, 0 <= xb b) ->
  BinHeap.room (exp_heap e) -> BinHeap.next (exp_heap e) <= junk -> junk + BinHeap.next (exp_heap e) < 2 ^ 32 ->
  lrus e !! lru = Some l ->
  exists n e' w' r, (forall fuel, (n <= fuel)%nat -> EXP_NukeOne par fuel junk WRK_QueueSession e w lru = Some (e', w', r)) /\
    match List.find (fun oc => bool_decide (refcnt <$> cores (core e) !! oc = Some 1)) l with
    | None => r = -1 /\ e' = e /\ w' = w
    | Some oc => exists x, cores (core e) !! oc = Some x /\ r = 1 /\ n_lru_nuked e' = n_lru_nuked e + 1 /\ killed xh xb e oc x e'
    end.
Proof.
  intros I Hb R J1 J2 El. pose proof (e_lru _ _ _ _ I) as Hl.
  assert (On : forall oc, oc ∈ l -> exists x, cores (core e) !! oc = Some x /\ on x OC_F_ONLRU = true /\ timer_idx x <> 0).
  { intros oc Ho. destruct (proj1 (l_flag _ _ Hl oc)) as (x & Hx & Hf); [by exists lru, l|].
    exists x. split_and!; [done|done|]. exact (e_paired _ _ _ _ I oc x Hx Hf). }
  assert (Ef : List.find (fun oc => bool_decide (refcnt <$> cores (core e) !! oc = Some 1)) l =
    List.find (unused (cores (core e))) l).
  { clear -On. induction l as [|oc l IH]; [done|]. cbn [List.find]. unfold unused at 1.
    destruct (On oc) as (x & Hx & _ & Hi); [by left|]. rewrite Hx, (proj2 (Z.eqb_neq (timer_idx x) BINHEAP_NOIDX)) by done.
    rewrite IH by (intros q Hq; apply On; by right). cbn [fmap option_fmap option_map negb andb].
    destruct (Z.eqb_spec (refcnt x) 1) as [->|N]; [by rewrite bool_decide_true|rewrite bool_decide_false; [done|congruence]]. }
  rewrite Ef. clear Ef. pose proof (find_unused_spec (cores (core e)) l) as Fu.
  specialize (Fu ltac:(intros oc Ho; destruct (On oc Ho) as (x & -> & _); by eexists)).
  destruct (List.find (unused (cores (core e))) l) as [oc|] eqn:E.
  2:{ exists 0%nat, e, w, (-1). split; [|done]. intros fuel _. unfold EXP_NukeOne. by rewrite El, Fu. }
  apply List.find_some in E as [Ho _]. apply list_elem_of_In in Ho. destruct (On oc Ho) as (x & Hx & Hf & Hi).
  destruct (evict_spec xh xb e M oc x junk I R J1 J2 Hx Hf) as (e1 & n & E1 & Rl & I1 & Cn).
  destruct (kill_spec xh xb e e1 w M oc x I Hb Hx Hi Rl I1) as (c' & w' & Ed & K).
  exists n, (set_core (count e1 0 0 1) c'), w', 1. split.
  - intros fuel Hn. unfold EXP_NukeOne. rewrite El, Fu, E1 by done. change (core (count e1 0 0 1)) with (core e1). by rewrite Ed.
  - exists x. split_and!; [done|done|cbn; lia|]. destruct K as ((a' & k & M' & Ea & Lk & I') & K).
    split; [|exact K]. exists a', k, M'. split; [done|]. split; [done|]. by destruct I' as [B1 B2 B3 B4 B5]; split.
Qed.

End Spec.

(** ** Entering and moving timers *)

Section Moves.
Context {regex : Type} {P : Type} {SL : Slinger P} (par : params).
Notation cache := (Hsh.cache (regex := regex) (P := P)).
Notation exp := (Expire.exp (regex := regex) (P := P)).

Lemma put_id (e : exp) oc x : cores (core e) !! oc = Some x -> put e oc x = e.
Proof.
  intros Hx. destruct e as [c ? ? ? ? ? ?]. unfold put, set_core, put_core, set_cores. cbn in *. f_equal.
  rewrite insert_id by done. by destruct c.
Qed.

Lemma put_lookup (e : exp) oc x : cores (core (put e oc x)) !! oc = Some x.
Proof. cbn [put set_core put_core set_cores core cores]. by rewrite lookup_insert_eq. Qed.

Lemma einv_put xh xb (e : exp) M oc x x' : einv xh xb e M -> cores (core e) !! oc = Some x -> similar x x' ->
  timer_idx x' = timer_idx x -> on x' OC_F_ONLRU = on x OC_F_ONLRU -> einv xh xb (put e oc x') M.
Proof.
  intros [A1 A2 A3 A4 A5] Hx S Et Ef.
  assert (L : forall q y', <[oc := x']> (cores (core e)) !! q = Some y' -> exists y, cores (core e) !! q = Some y /\
    timer_idx y' = timer_idx y /\ on y' OC_F_ONLRU = on y OC_F_ONLRU /\ objhead y' = objhead y /\ obj y' = obj y).
  { intros q y' Hy. apply lookup_insert_Some in Hy as [[<- <-]|[N Hy]]; [|by exists y'].
    exists x. destruct S as (S1 & S2 & _). by split_and!. }
  split; cbn [put set_core put_core core exp_heap lrus].
  - apply hinv_similar; [done|]. apply (similar_same _ _ oc x'); [|intros y Hy; by assert (y = x) as -> by congruence
      |by eexists|by rewrite lookup_insert_eq]. intros q N. by rewrite lookup_insert_ne.
  - apply (heap_ok_cores (cores (core e))); [done|]. intros q. cbn [put_core set_cores cores].
    destruct (decide (q = oc)) as [->|N]; [by rewrite lookup_insert_eq, Hx; simpl; rewrite Et|by rewrite lookup_insert_ne].
  - apply (lru_ok_cores (cores (core e))); [done|]. intros q. cbn [put_core set_cores cores].
    destruct (decide (q = oc)) as [->|N]; [by rewrite lookup_insert_eq, Hx; simpl; rewrite Ef|by rewrite lookup_insert_ne].
  - intros q y' Hy. destruct (L q y' Hy) as (y & Hy0 & -> & -> & _). exact (A4 q y Hy0).
  - intros q y' Hy. destruct (L q y' Hy) as (y & Hy0 & -> & _ & Eh & Eo). intros Hi.
    destruct (A5 q y Hy0 Hi) as (T1 & T2 & T3). unfold timed. by rewrite Eh, Eo.
Qed.

(** The same timers, and perhaps one more, at other places. *)
Lemma einv_heap xh xb (e : exp) M m b oc x : einv xh xb e M -> same_untimed (cores (core e)) m -> heap_ok m b ->
  cores (core e) !! oc = Some x -> timed (core e) oc x ->
  (forall q, BinHeap.member (exp_heap e) q \/ q = oc <-> BinHeap.member b q) -> einv xh xb (set_heap e m b) M.
Proof.
  intros [A1 A2 A3 A4 A5] U H Hx T Mb.
  assert (L : forall q y', m !! q = Some y' -> exists y, cores (core e) !! q = Some y /\ untimed y' = untimed y).
  { intros q y' Hy. destruct (untimed_lookup m _ q y' (same_untimed_sym _ _ U) Hy) as [i Ei]. eexists. split; [exact Ei|done]. }
  split; cbn [set_heap core exp_heap lrus].
  - apply hinv_similar; [done|]. intros q. specialize (U q).
    destruct (m !! q) as [y'|], (cores (core e) !! q) as [y|]; simpl in U; try done; constructor.
    apply similar_untimed. congruence.
  - done.
  - apply (lru_ok_cores (cores (core e))); [done|]. intros q. by apply (untimed_proj (fun y => on y OC_F_ONLRU)).
  - intros q y' Hy Hf. destruct (L q y' Hy) as (y & Hy0 & E). apply (member_iff m b q y' H Hy), Mb. left.
    apply (member_iff _ _ q y A2 Hy0), (A4 q y Hy0). change (on (untimed y) OC_F_ONLRU = true). by rewrite <- E.
  - intros q y' Hy Hi. destruct (L q y' Hy) as (y & Hy0 & E). apply (member_iff m b q y' H Hy), Mb in Hi.
    assert (K : timed (core e) q y).
    { destruct Hi as [Hi|Hi]; [apply (member_iff _ _ q y A2 Hy0) in Hi; by apply A5|].
      subst q. by assert (y = x) as -> by congruence. }
    destruct K as (T1 & T2 & T3). split_and!; [..|exact T3]; destruct y, y'; injection E; intros; simpl in *; subst; done.
Qed.

Lemma update_when_spec (e : exp) oc x t : cores (core e) !! oc = Some x -> when_of par e oc = Some t ->
  update_object_when par e oc = Some (put e oc (set_timer_when x t), negb (t =? timer_when x)).
Proof.
  intros Hx Ht. unfold update_object_when. rewrite Hx, Ht. destruct (Z.eqb_spec t (timer_when x)) as [->|N]; [|done].
  do 2 f_equal. symmetry. apply put_id. rewrite Hx. f_equal. by destruct x.
Qed.

Lemma when_of_put (e : exp) oc x x' q : cores (core e) !! oc = Some x -> obj x' = obj x ->
  when_of par (put e oc x') q = when_of par e q.
Proof.
  intros Hx Eo. unfold when_of. cbn [put set_core put_core set_cores core cores banw].
  destruct (decide (q = oc)) as [->|N]; [by rewrite lookup_insert_eq, Hx, Eo|by rewrite lookup_insert_ne].
Qed.

Lemma heap_insert_spec xh xb (e : exp) M malloc_ok oc x : einv xh xb e M -> (forall z, malloc_ok z = true) ->
  BinHeap.room (exp_heap e) -> oc <> 0 -> cores (core e) !! oc = Some x -> timer_idx x = 0 -> timed (core e) oc x ->
  exists m b i, heap_insert malloc_ok e oc = Some (set_heap e m b) /\ einv xh xb (set_heap e m b) M /\
    same_untimed (cores (core e)) m /\ m !! oc = Some (set_timer_idx x i) /\ i <> 0 /\
    (forall q, BinHeap.member b q <-> q = oc \/ BinHeap.member (exp_heap e) q) /\
    (BinHeap.ordered (cores (core e)) (exp_heap e) -> BinHeap.ordered m b).
Proof.
  intros I Hm R N0 Hx Hi T.
  destruct (heap_ok_insert malloc_ok _ _ oc x (e_heap _ _ _ _ I) R Hm Hx N0 Hi) as (m & b & i & E & H' & U & Mb & Ex & Ni & _ & O).
  exists m, b, i. unfold heap_insert. rewrite E. split; [done|]. split; [|by split_and!].
  apply (einv_heap xh xb e M m b oc x); try done. intros q. rewrite Mb. tauto.
Qed.

Lemma rearm_spec xh xb (e : exp) M malloc_ok oc x t junk : einv xh xb e M -> (forall z, malloc_ok z = true) ->
  BinHeap.room (exp_heap e) -> BinHeap.next (exp_heap e) <= junk -> junk + BinHeap.next (exp_heap e) < 2 ^ 32 ->
  cores (core e) !! oc = Some x -> when_of par e oc = Some t ->
  exists n e' i, (forall fuel, (n <= fuel)%nat -> EXP_Rearm par malloc_ok fuel junk e (Some oc) = Some e') /\
    einv xh xb e' M /\ (forall q, q <> oc -> untimed <$> cores (core e') !! q = untimed <$> cores (core e) !! q) /\
    cores (core e') !! oc = (if timer_idx x =? 0 then Some x else Some (set_timer_idx (set_timer_when x t) i)) /\
    (timer_idx x <> 0 -> i <> 0) /\
    (forall q, BinHeap.member (exp_heap e') q <-> BinHeap.member (exp_heap e) q) /\ lrus e' = lrus e.
Proof.
  intros I Hm R J1 J2 Hx Ht.
  pose proof (fun e0 : exp => tell_same e0 oc) as Tl.
  destruct (Z.eqb_spec (timer_idx x) 0) as [E0|N0].
  { exists 0%nat, (tell_smp e oc), 1. destruct (Tl e) as (T1 & T2 & T3). split.
    - intros fuel _. unfold EXP_Rearm, idx_of. by rewrite Hx, E0.
    - rewrite T1, T2, T3. split; [by apply einv_tell|]. by split_and!. }
  destruct (member_live _ _ oc (proj1 (e_heap _ _ _ _ I))) as [Np _]; [by apply (member_iff _ _ oc x (e_heap _ _ _ _ I) Hx)|].
  set (e1 := put e oc (set_timer_when x t)).
  assert (I1 : einv xh xb e1 M) by (apply (einv_put xh xb e M oc x); [done|done|by split_and!|done|done]).
  assert (X1 : cores (core e1) !! oc = Some (set_timer_when x t)) by apply put_lookup.
  assert (O1 : forall q, q <> oc -> cores (core e1) !! q = cores (core e) !! q).
  { intros q N. cbn [e1 put set_core put_core set_cores core cores]. by rewrite lookup_insert_ne. }
  assert (Hu : forall fuel, EXP_Rearm par malloc_ok fuel junk e (Some oc) = if t =? timer_when x then Some (tell_smp e1 oc)
    else let? e2 := heap_delete fuel junk e1 (timer_idx x) in let? j := idx_of e2 oc in assert! j =? BINHEAP_NOIDX ;;
      let? e3 := heap_insert malloc_ok e2 oc in let? j := idx_of e3 oc in assert! negb (j =? BINHEAP_NOIDX) ;; Some (tell_smp e3 oc)).
  { intros fuel. unfold EXP_Rearm, idx_of at 1. rewrite Hx, (proj2 (Z.eqb_neq _ BINHEAP_NOIDX)) by done.
    rewrite (update_when_spec e oc x t Hx Ht). fold e1. destruct (t =? timer_when x); cbn [negb]; [done|].
    destruct (heap_delete fuel junk e1 (timer_idx x)) as [e2|]; [|done]. destruct (idx_of e2 oc) as [j|]; [|done].
    destruct (j =? BINHEAP_NOIDX); [|done]. destruct (heap_insert malloc_ok e2 oc) as [e3|]; [|done].
    destruct (idx_of e3 oc) as [j'|]; [|done]. by destruct (negb (j' =? BINHEAP_NOIDX)). }
  destruct (Z.eqb_spec t (timer_when x)) as [Et|Nt].
  { exists 0%nat, (tell_smp e1 oc), (timer_idx x). destruct (Tl e1) as (T1 & T2 & T3). rewrite T1, T2, T3.
    split_and!; [done|by apply einv_tell|intros q N; by rewrite O1|by rewrite X1; destruct x|done|done|done]. }
  destruct (heap_delete_spec e1 oc (set_timer_when x t) junk (e_heap _ _ _ _ I1) R J1 J2 X1 N0)
    as (m & b & n & E & H' & U & Ex & Mb & R').
  destruct (heap_ok_insert malloc_ok m b oc _ H' R' Hm Ex Np eq_refl) as (m' & b' & i & E' & H'' & U' & Mb' & Ex' & Ni & _ & _).
  exists n, (tell_smp (set_heap e1 m' b') oc), i. destruct (Tl (set_heap e1 m' b')) as (T1 & T2 & T3). rewrite T1, T2, T3.
  assert (Mm : forall q, BinHeap.member b' q <-> BinHeap.member (exp_heap e) q).
  { intros q. rewrite Mb', Mb. change (exp_heap e1) with (exp_heap e). destruct (decide (q = oc)) as [->|N]; [|tauto].
    split; [intros _; by apply (member_iff _ _ oc x (e_heap _ _ _ _ I) Hx)|by left]. }
  split.
  - intros fuel Hf. rewrite Hu, E by done. unfold idx_of. cbn [core set_heap set_cores cores]. rewrite Ex.
    cbn [timer_idx untimed set_timer_idx Z.eqb BINHEAP_NOIDX]. unfold heap_insert. cbn [core set_heap set_cores cores exp_heap].
    rewrite E'. cbn [core set_heap set_cores cores]. rewrite Ex'. cbn [timer_idx untimed set_timer_idx].
    by rewrite (proj2 (Z.eqb_neq i BINHEAP_NOIDX)).
  - split_and!; try done.
    + apply einv_tell. apply (einv_heap xh xb e1 M m' b' oc (set_timer_when x t)); try done; [by etrans| |].
      * destruct (e_timed _ _ _ _ I oc x Hx N0) as (T4 & T5 & T6). done.
      * intros q. rewrite Mm. change (exp_heap e1) with (exp_heap e). split; [intros [?| ->]; [done|]|by left].
        by apply (member_iff _ _ oc x (e_heap _ _ _ _ I) Hx).
    + intros q N. cbn [core set_heap set_cores cores]. rewrite U', U. by rewrite O1.
Qed.

(** The order of the heap depends on the times of its members only. *)
Lemma ordered_cores (m m' : gmap Z objcore) b : BinHeap.wf m b ->
  (forall q, BinHeap.member b q -> timer_when <$> m' !! q = timer_when <$> m !! q) ->
  BinHeap.ordered m b -> BinHeap.ordered m' b.
Proof.
  intros W H O v Hv. pose proof (BinHeap.parent_bounds m b v W Hv) as B.
  assert (E : forall n, 1 <= n < BinHeap.next b -> BinHeap.weight m' b n = BinHeap.weight m b n).
  { intros n Hn. unfold BinHeap.weight. cbn. rewrite H; [done|].
    destruct (BinHeap.A_item m b n W Hn) as (_ & Es & _). by exists n. }
  rewrite !E by lia. by apply O.
Qed.

(** The place on the LRU list. *)
Lemma lru_step xh xb (e : exp) M lru l oc x : einv xh xb e M -> cores (core e) !! oc = Some x ->
  timer_idx x <> 0 -> on x OC_F_ONLRU = false -> lrus e !! lru = Some l ->
  let x' := set_flags x (Z.lor (flags x) OC_F_ONLRU) in let e' := put (set_lrus e (<[lru := l ++ [oc]]> (lrus e))) oc x' in
  (let? e := lru_insert e lru oc in set_flag e oc OC_F_ONLRU) = Some e' /\ einv xh xb e' M.
Proof.
  intros [A1 A2 A3 A4 A5] Hx Hi Hf Hl x' e'. split.
  { unfold lru_insert. rewrite Hl. unfold set_flag. cbn [core set_lrus]. by rewrite Hx. }
  assert (S : similar x x') by (split_and!; [done|done|by apply on_set|by apply on_set|done]).
  assert (L : forall q y', <[oc := x']> (cores (core e)) !! q = Some y' -> exists y, cores (core e) !! q = Some y /\
    timer_idx y' = timer_idx y /\ objhead y' = objhead y /\ obj y' = obj y /\ (q = oc \/ on y' OC_F_ONLRU = on y OC_F_ONLRU)).
  { intros q y' Hy. apply lookup_insert_Some in Hy as [[<- <-]|[N Hy]]; eexists; split_and!; try done; [by left|by right]. }
  split; cbn [e' put set_core put_core set_cores set_lrus core cores exp_heap lrus].
  - apply hinv_similar; [done|]. apply (similar_same _ _ oc x'); [intros q N; by rewrite lookup_insert_ne| |by eexists|by rewrite lookup_insert_eq].
    intros y Hy. by assert (y = x) as -> by congruence.
  - apply (heap_ok_cores (cores (core e))); [done|]. intros q.
    destruct (decide (q = oc)) as [->|N]; [by rewrite lookup_insert_eq, Hx|by rewrite lookup_insert_ne].
  - by apply lru_ok_on.
  - intros q y' Hy. destruct (L q y' Hy) as (y & Hy0 & Ei & _ & _ & [->|Ef]).
    + assert (y = x) as -> by congruence. by rewrite Ei.
    + rewrite Ei, Ef. exact (A4 q y Hy0).
  - intros q y' Hy. destruct (L q y' Hy) as (y & Hy0 & -> & Eh & Eo & _). intros Hi'.
    destruct (A5 q y Hy0 Hi') as (T1 & T2 & T3). unfold timed. by rewrite Eh, Eo.
Qed.

Lemma exp_insert_spec xh xb (e : exp) M malloc_ok STV_lru oc x a o2 o l : einv xh xb e M -> (forall z, malloc_ok z = true) ->
  BinHeap.room (exp_heap e) -> oc <> 0 -> cores (core e) !! oc = Some x -> busy x = true -> objhead x = Some a ->
  obj x = Some o2 -> Ban.objs (banw (core e)) !! oc = Some o -> Ban.cacheable o = true -> entered o2 <> 0 ->
  timer_idx x = 0 -> lrus e !! STV_lru oc = Some l ->
  exists e' i, EXP_Insert par malloc_ok STV_lru e oc = Some e' /\ einv xh xb e' M /\ i <> 0 /\
    cores (core e') !! oc = Some (Objcore (refcnt x + 1) (if objstore o2 then Z.lor (flags x) OC_F_ONLRU else flags x)
      (obj x) (objhead x) (dadd (Ban.ttl o) (HSH_Grace par (grace o2))) i) /\
    (forall q, q <> oc -> untimed <$> cores (core e') !! q = untimed <$> cores (core e) !! q) /\
    (forall q, BinHeap.member (exp_heap e') q <-> q = oc \/ BinHeap.member (exp_heap e) q) /\
    lrus e' = (if objstore o2 then <[STV_lru oc := l ++ [oc]]> (lrus e) else lrus e) /\
    (BinHeap.ordered (cores (core e)) (exp_heap e) -> BinHeap.ordered (cores (core e')) (exp_heap e')).
Proof.
  intros I Hm R N0 Hx Hb Ha Ho2 Ho Hc He Hi Hl.
  assert (Hf : on x OC_F_ONLRU = false).
  { destruct (on x OC_F_ONLRU) eqn:E; [|done]. by pose proof (e_paired _ _ _ _ I oc x Hx E). }
  destruct (h_core _ _ _ _ _ (e_hinv _ _ _ _ I) oc x a) as (Rp & _); [set_solver|done|done|].
  set (t := dadd (Ban.ttl o) (HSH_Grace par (grace o2))).
  set (x1 := set_refcnt x (refcnt x + 1)). set (e1 := put e oc x1). set (x2 := set_timer_when x1 t). set (e2 := put e1 oc x2).
  assert (I1 : einv xh xb e1 M) by (apply (einv_put xh xb e M oc x); [done|done|split_and!; try done; simpl; lia|done|done]).
  assert (X1 : cores (core e1) !! oc = Some x1) by apply put_lookup.
  assert (I2 : einv xh xb e2 M) by (apply (einv_put xh xb e1 M oc x1); [done|done|by split_and!|done|done]).
  assert (X2 : cores (core e2) !! oc = Some x2) by apply put_lookup.
  assert (O2 : forall q, q <> oc -> cores (core e2) !! q = cores (core e) !! q).
  { intros q N. cbn [e2 e1 put set_core put_core set_cores core cores]. by rewrite !lookup_insert_ne. }
  assert (Wn : when_of par e1 oc = Some t).
  { unfold when_of. rewrite X1. cbn [obj x1 set_refcnt]. rewrite Ho2. cbn [e1 put set_core put_core set_cores core banw]. by rewrite Ho. }
  destruct (heap_insert_spec xh xb e2 M malloc_ok oc x2 I2 Hm R N0 X2 Hi)
    as (m & b & i & E3 & I3 & U3 & X3 & Ni & M3 & Or3).
  { split; [by eexists|]. split; [by eexists|]. by eexists. }
  assert (Or : BinHeap.ordered (cores (core e)) (exp_heap e) -> BinHeap.ordered m b).
  { intros Oo. apply Or3. change (exp_heap e2) with (exp_heap e).
    apply (ordered_cores (cores (core e))); [apply (e_heap _ _ _ _ I)| |done]. intros q Hq.
    rewrite O2; [done|]. intros ->. by apply (member_iff _ _ oc x (e_heap _ _ _ _ I) Hx) in Hq. }
  set (e3 := set_heap e2 m b) in *.
  assert (Hr : EXP_Insert par malloc_ok STV_lru e oc =
    let? e := (if objstore o2 then let? e := lru_insert e3 (STV_lru oc) oc in set_flag e oc OC_F_ONLRU else Some e3) in
    Some (tell_smp e oc)).
  { unfold EXP_Insert. rewrite Hx, Ho2, Ho, Hb, Hc. unfold HSH_Ref. rewrite Hx, Ha, (proj2 (Z.ltb_lt 0 _)) by done.
    rewrite (proj2 (Z.eqb_neq (entered o2) 0)) by done. cbn [negb]. fold x1. change (set_core e (put_core (core e) oc x1)) with e1.
    unfold idx_of at 1. rewrite X1. cbn [timer_idx x1 set_refcnt]. rewrite Hi. cbn [Z.eqb BINHEAP_NOIDX].
    rewrite (update_when_spec e1 oc x1 t X1 Wn). fold x2. fold e2. rewrite E3. unfold idx_of.
    cbn [e3 core set_heap set_cores cores]. rewrite X3. cbn [timer_idx set_timer_idx].
    by rewrite (proj2 (Z.eqb_neq i BINHEAP_NOIDX)). }
  rewrite Hr. destruct (objstore o2).
  - set (e4 := put (set_lrus e3 (<[STV_lru oc := l ++ [oc]]> (lrus e3))) oc
      (set_flags (set_timer_idx x2 i) (Z.lor (flags x) OC_F_ONLRU))).
    assert (E4 : (let? e := lru_insert e3 (STV_lru oc) oc in set_flag e oc OC_F_ONLRU) = Some e4 /\ einv xh xb e4 M)
      by exact (lru_step xh xb e3 M (STV_lru oc) l oc (set_timer_idx x2 i) I3 X3 Ni Hf Hl).
    destruct E4 as [-> I4]. destruct (tell_same e4 oc) as (T1 & T2 & T3).
    exists (tell_smp e4 oc), i. rewrite T1, T2, T3. split; [done|]. split; [by apply einv_tell|].
    assert (O4 : forall q, q <> oc -> cores (core e4) !! q = m !! q).
    { intros q N. cbn [e4 put set_core put_core set_cores set_lrus core cores]. by rewrite lookup_insert_ne. }
    split_and!; try done.
    + unfold e4. by rewrite put_lookup.
    + intros q N. rewrite O4, U3 by done. by rewrite O2.
    + intros Oo. apply (ordered_cores m); [apply (e_heap _ _ _ _ I3)| |by apply Or]. intros q _.
      destruct (decide (q = oc)) as [->|N]; [|by rewrite O4]. unfold e4. by rewrite put_lookup, X3.
  - destruct (tell_same e3 oc) as (T1 & T2 & T3). exists (tell_smp e3 oc), i. rewrite T1, T2, T3.
    split; [done|]. split; [by apply einv_tell|]. split_and!; try done.
    intros q N. cbn [e3 core set_heap set_cores cores]. rewrite U3. by rewrite O2.
Qed.

(** [EXP_Touch] moves the object to the end of its list, or changes nothing. *)
Lemma touch_spec xh xb (e : exp) M STV_lru oc x o2 l trylock : einv xh xb e M -> cores (core e) !! oc = Some x ->
  is_Some (objhead x) -> obj x = Some o2 -> lrus e !! STV_lru oc = Some l ->
  exists e' r, EXP_Touch STV_lru e (Some oc) trylock = Some (e', r) /\ einv xh xb e' M /\
    (forall q, untimed <$> cores (core e') !! q = untimed <$> cores (core e) !! q) /\
    if negb (on x OC_F_LRUDONTMOVE) && objstore o2 && trylock && on x OC_F_ONLRU then
      r = 1 /\ lrus e' = <[STV_lru oc := filter (fun y => y <> oc) l ++ [oc]]> (take_off oc (lrus e)) /\
      n_lru_moved e' = n_lru_moved e + 1
    else r = 0 /\ e' = e.
Proof.
  intros I Hx [a Ha] Ho Hl. unfold EXP_Touch. rewrite Hx, Ha, Ho.
  destruct (on x OC_F_LRUDONTMOVE); cbn [negb andb]; [by exists e, 0|].
  destruct (objstore o2); cbn [negb andb]; [|by exists e, 0].
  destruct trylock; cbn [negb andb]; [|by exists e, 0].
  destruct (on x OC_F_ONLRU) eqn:Ef; [|by exists e, 0].
  pose proof (e_lru _ _ _ _ I) as Lk. unfold lru_remove. rewrite on_list_exists by (apply (l_flag _ _ Lk); eauto).
  fold (take_off oc (lrus e)). unfold lru_insert. cbn [lrus set_lrus]. rewrite take_off_lookup, Hl. cbn [fmap option_fmap option_map].
  eexists _, 1. split; [done|]. split; [|split; [done|by split_and!]].
  apply (einv_count xh xb (set_lrus (set_lrus e (take_off oc (lrus e)))
    (<[STV_lru oc := filter (fun y => y <> oc) l ++ [oc]]> (take_off oc (lrus e)))) M 0 1 0).
  destruct I as [A1 A2 A3 A4 A5]. split; try done. cbn [core set_lrus lrus].
  apply (lru_ok_cores (<[oc := set_flags (clear_lru x) (Z.lor (flags (clear_lru x)) OC_F_ONLRU)]> (<[oc := clear_lru x]> (cores (core e))))).
  - apply lru_ok_on; [by apply lru_ok_off|by rewrite lookup_insert_eq|apply onlru_clear|by rewrite take_off_lookup, Hl].
  - intros q. destruct (decide (q = oc)) as [->|N]; [|by rewrite !lookup_insert_ne].
    rewrite lookup_insert_eq, Hx. simpl. by rewrite onlru_set, Ef.
Qed.
End Moves.

(** ** The properties *)

(** [EXP_Insert] of a new, busy object takes one more reference to it, starts
    its timer at ttl plus grace, enters it in the heap and, when the object has
    storage, as the youngest on the LRU list of the storage, and keeps the
    invariant; nothing else changes, and in a heap in order the root is still an
    object that no other one precedes. *)
Theorem EXP_Insert_registers {regex : Type} {P : Type} {SL : Slinger P} (par : params) (malloc_ok : Z -> bool)
  (STV_lru : Z -> Z) (xh xb : Z -> Z) (e : Expire.exp (regex := regex) (P := P)) (M : Slinger.index)
  (oc a : Z) (x : objcore) (o2 : object) (o : Ban.object) (l : list Z)
  (I : einv xh xb e M) (Hm : forall z, malloc_ok z = true) (R : BinHeap.room (exp_heap e)) (N0 : oc <> 0)
  (Hx : cores (core e) !! oc = Some x) (Hb : busy x = true) (Ha : objhead x = Some a) (Ho2 : obj x = Some o2)
  (Ho : Ban.objs (banw (core e)) !! oc = Some o) (Hc : Ban.cacheable o = true) (He : entered o2 <> 0)
  (Hi : timer_idx x = 0) (Hl : lrus e !! STV_lru oc = Some l) :
  exists e' x', EXP_Insert par malloc_ok STV_lru e oc = Some e' /\ einv xh xb e' M /\
    cores (core e') !! oc = Some x' /\ refcnt x' = refcnt x + 1 /\ timer_idx x' <> 0 /\
    timer_when x' = dadd (Ban.ttl o) (HSH_Grace par (grace o2)) /\ on x' OC_F_ONLRU = objstore o2 /\
    (forall q, q <> oc -> untimed <$> cores (core e') !! q = untimed <$> cores (core e) !! q) /\
    (forall q, BinHeap.member (exp_heap e') q <-> q = oc \/ BinHeap.member (exp_heap e) q) /\
    lrus e' = (if objstore o2 then <[STV_lru oc := l ++ [oc]]> (lrus e) else lrus e) /\
    (BinHeap.ordered (cores (core e)) (exp_heap e) -> exists r y, BinHeap.binheap_root (exp_heap e') = Some r /\
       cores (core e') !! r = Some y /\ forall q z, cores (core e') !! q = Some z -> timer_idx z <> 0 -> timer_when y <= timer_when z).
Proof.
  destruct (exp_insert_spec par xh xb e M malloc_ok STV_lru oc x a o2 o l I Hm R N0 Hx Hb Ha Ho2 Ho Hc He Hi Hl)
    as (e' & i & E & I' & Ni & Ex & U & Mb & Lr & Or). exists e'. eexists. split; [done|]. split; [done|]. split; [done|].
  split_and!; try done.
  - destruct (objstore o2); [apply onlru_set|]. destruct (on _ _) eqn:F; [|done].
    by pose proof (e_paired _ _ _ _ I oc x Hx F).
  - intros O. destruct (root_cases e' (e_heap _ _ _ _ I')) as [[_ En]|(r & y & _ & Er & Hy & _ & Lo)].
    + destruct (proj2 (Mb oc) (or_introl eq_refl)) as (n & Hn & _). lia.
    + exists r, y. split; [done|]. split; [done|]. by apply Lo, Or.
Qed.



(** [EXP_Rearm] of an object that has a timer sets it to the new ttl plus
    grace and moves it in the heap; the set of timers, the LRU lists and every
    other core stay.  An object the timer thread already has is left alone. *)
Theorem EXP_Rearm_moves {regex : Type} {P : Type} {SL : Slinger P} (par : params) (malloc_ok : Z -> bool)
  (xh xb : Z -> Z) (e : Expire.exp (regex := regex) (P := P)) (M : Slinger.index) (oc : Z) (x : objcore) (t junk : Z)
  (I : einv xh xb e M) (Hm : forall z, malloc_ok z = true) (R : BinHeap.room (exp_heap e))
  (J1 : BinHeap.next (exp_heap e) <= junk) (J2 : junk + BinHeap.next (exp_heap e) < 2 ^ 32)
  (Hx : cores (core e) !! oc = Some x) (Ht : when_of par e oc = Some t) :
  exists n e' i, (forall fuel, (n <= fuel)%nat -> EXP_Rearm par malloc_ok fuel junk e (Some oc) = Some e') /\
    einv xh xb e' M /\ (forall q, q <> oc -> untimed <$> cores (core e') !! q = untimed <$> cores (core e) !! q) /\
    cores (core e') !! oc = (if timer_idx x =? 0 then Some x else Some (set_timer_idx (set_timer_when x t) i)) /\
    (timer_idx x <> 0 -> i <> 0) /\
    (forall q, BinHeap.member (exp_heap e') q <-> BinHeap.member (exp_heap e) q) /\ lrus e' = lrus e.
Proof. by apply (rearm_spec par xh xb e M malloc_ok oc x t junk). Qed.

(** ** A cache with one object *)

#[local] Existing Instance SimpleList.hsl_slinger.

Definition obj1 : object := Object None (Some 7) 90 0 [] true false false.
Definition core1 (f when i : Z) : objcore := Objcore 1 f (Some obj1) (Some 64) when i.
Definition heap0 (s : gmap Z Z) (n : Z) : BinHeap.binheap :=
  BinHeap.Binheap (true :: replicate 15 false) s 65536 n 512 511 9.
Definition exp0 (x : objcore) (s : gmap Z Z) (n : Z) (l : list Z) : Expire.exp (regex := list Z) (P := list Z) :=
  Exp (put_core (cache0 0 []) 100 x) (heap0 s n) {[ 9 := l ]} 0 0 0 [].

(** Before [EXP_Insert], and after it. *)
Definition fresh1 := exp0 (core1 OC_F_BUSY 0 0) {[ 1 := 0 ]} 1 [].
Definition timed1 := exp0 (core1 OC_F_ONLRU 50 1) {[ 1 := 100 ]} 2 [100].

Lemma cores_exp0 x s n l q y : cores (core (exp0 x s n l)) !! q = Some y -> q = 100 /\ y = x.
Proof.
  intros H. change (<[100 := x]> ({[ 100 := core0 0 ]} : gmap Z objcore) !! q = Some y) in H.
  apply lookup_insert_Some in H as [[<- <-]|[N H]]; [done|]. by apply lookup_singleton_Some in H as [<- _].
Qed.

Lemma lrus_exp0 x s n k a l : lrus (exp0 x s n k) !! a = Some l -> a = 9 /\ l = k.
Proof. intros H. change (({[ 9 := k ]} : gmap Z (list Z)) !! a = Some l) in H. by apply lookup_singleton_Some in H as [<- <-]. Qed.

Lemma hinv_exp0 x s n l : 0 < refcnt x -> on x OC_F_PERSISTENT = false -> objhead x = Some 64 -> obj x = Some obj1 ->
  hinv ∅ (fun _ => 0) BanSpec.none (core (exp0 x s n l)) {[ d0 := 64 ]}.
Proof.
  intros Hr Hp Hh Ho. apply (hinv_core ∅ _ _ (cache0 0 []) _ 100 (core0 0)); [apply cache0_inv; [by left|set_solver]|done|done|].
  intros a Ha. split; [done|]. split; [done|]. intros _. exists BanSpec.obj100, obj1. by split_and!.
Qed.

Lemma heap0_wf m s n : 1 <= n <= 65536 -> BinHeap.items_ok m (heap0 s n) -> (n = 1 -> s !! 1 = Some 0) ->
  BinHeap.wf m (heap0 s n).
Proof.
  intros Hn Hi He. split; [exists 9; by split_and!| | | done|done].
  - exists 1%nat. split_and!; [vm_compute; lia|vm_compute; lia|reflexivity|vm_compute; congruence|].
    cbn. intros i Hi'. do 16 (destruct i as [|i]; [done|]). lia.
  - cbn. lia.
Qed.

Lemma fresh1_inv : einv (fun _ => 0) BanSpec.none fresh1 {[ d0 := 64 ]}.
Proof.
  split.
  - by apply hinv_exp0.
  - split; [apply heap0_wf; [lia|intros n Hn; cbn in Hn; lia|done]|].
    intros oc x Hx Hi. by apply cores_exp0 in Hx as [-> ->].
  - split.
    + intros oc. split; [|intros (x & Hx & Hf); by apply cores_exp0 in Hx as [-> ->]].
      intros (a & l & Hl & Ho). apply lrus_exp0 in Hl as [-> ->]. by apply not_elem_of_nil in Ho.
    + intros a l Hl. apply lrus_exp0 in Hl as [-> ->]. constructor.
    + intros a b l k oc Ha Hb. apply lrus_exp0 in Ha as [-> _], Hb as [-> _]. done.
  - intros oc x Hx Hf. by apply cores_exp0 in Hx as [-> ->].
  - intros oc x Hx Hi. by apply cores_exp0 in Hx as [-> ->].
Qed.

Lemma timed1_inv : einv (fun _ => 0) BanSpec.none timed1 {[ d0 := 64 ]}.
Proof.
  assert (L : cores (core timed1) !! 100 = Some (core1 OC_F_ONLRU 50 1)) by done.
  split.
  - by apply hinv_exp0.
  - split.
    + apply heap0_wf; [lia| |done]. intros n Hn. change (1 <= n < 2) in Hn. assert (n = 1) as -> by lia.
      exists 100. split; [done|]. split; [split; [done|by eexists]|]. done.
    + intros oc x Hx Hi. apply cores_exp0 in Hx as [-> ->]. exists 1. split; [cbn; lia|done].
  - split.
    + intros oc. split.
      * intros (a & l & Hl & Ho). apply lrus_exp0 in Hl as [-> ->]. apply list_elem_of_singleton in Ho as ->.
        by eexists.
      * intros (x & Hx & Hf). apply cores_exp0 in Hx as [-> ->]. exists 9, [100]. split; [done|by left].
    + intros a l Hl. apply lrus_exp0 in Hl as [-> ->]. apply NoDup_singleton.
    + intros a b l k oc Ha Hb. apply lrus_exp0 in Ha as [-> _], Hb as [-> _]. done.
  - intros oc x Hx Hf. by apply cores_exp0 in Hx as [-> ->].
  - intros oc x Hx Hi. apply cores_exp0 in Hx as [-> ->]. split; [by eexists|]. split; by eexists.
Qed.

Lemma EXP_Insert_registers_witness : exists e' x',
  EXP_Insert par0 (fun _ => true) (fun _ => 9) fresh1 100 = Some e' /\ cores (core e') !! 100 = Some x' /\
  refcnt x' = 2 /\ timer_when x' = 106.
Proof.
  destruct (EXP_Insert_registers par0 (fun _ => true) (fun _ => 9) (fun _ => 0) BanSpec.none fresh1 {[ d0 := 64 ]}
    100 64 (core1 OC_F_BUSY 0 0) obj1 BanSpec.obj100 []) as (e' & x' & E & _ & Ex & Er & _ & Ew & _).
  - exact fresh1_inv.
  - done.
  - done.
  - done.
  - done.
  - done.
  - done.
  - done.
  - done.
  - done.
  - done.
  - done.
  - done.
  - exists e', x'. split; [exact E|]. split; [exact Ex|]. split; [exact Er|]. rewrite Ew. reflexivity.
Defined.



Lemma EXP_Rearm_moves_witness : exists n e' i,
  (forall fuel, (n <= fuel)%nat -> EXP_Rearm par0 (fun _ => true) fuel 7 timed1 (Some 100) = Some e') /\
  cores (core e') !! 100 = Some (core1 OC_F_ONLRU 106 i) /\ i <> 0.
Proof.
  destruct (EXP_Rearm_moves par0 (fun _ => true) (fun _ => 0) BanSpec.none timed1 {[ d0 := 64 ]} 100
    (core1 OC_F_ONLRU 50 1) 106 7) as (n & e' & i & E & _ & _ & Ex & Ni & _).
  - exact timed1_inv.
  - done.
  - done.
  - cbn. lia.
  - done.
  - done.
  - reflexivity.
  - exists n, e', i. split; [exact E|]. split; [exact Ex|]. by apply Ni.
Defined.

(** An object without storage has a timer and is on no list. *)
Lemma timer_without_lru : exists e' x',
  EXP_Insert par0 (fun _ => true) (fun _ => 9)
    (exp0 (Objcore 1 OC_F_BUSY (Some (Object None None 90 0 [] false false false)) (Some 64) 0 0) {[ 1 := 0 ]} 1 []) 100 = Some e' /\
  cores (core e') !! 100 = Some x' /\ timer_idx x' <> 0 /\ lrus e' = {[ 9 := [] ]}.
Proof. eexists _, _. split; [vm_compute; reflexivity|]. split; [vm_compute; reflexivity|]. split; [done|reflexivity]. Qed.

End ExpireSpec.
