(* ===== verification/Cnt.v ===== *)
(** * Cnt: the session state engine

    [bin/varnishd/cache_center.c]: a request is driven through thirteen steps,
    one function each, until the session is closed, handed back to the acceptor
    or parked behind a busy object.  A step works on the session and on its
    worker thread, calls the functions that the VCL compiler generated, and
    calls the hash, the stevedore, the expiry and the backend code.

    The state is the session with the fields of the worker it is attached to,
    the counter of the transaction numbers and the trace of the calls that take
    or give up shared objects.  What those calls, the client, the backend and
    the VCL program answer during one step is a [world]; [obeys] says which
    answers their contracts permit.  A failed assertion is [None].

    Log records, workspaces and the header sets are left out of the state, and
    the inclusion of ESI fragments is one call that works on the session. *)
From coqutil Require Import Datatypes.RecordSetters.
From S2P Require Import Prelude Http Double.
Import TriangleBracketNotations.

Module Cnt.
Import Double Http.

(** ** Steps, methods and return values *)

(** [include/steps.h] *)
Inductive step :=
  | STP_WAIT | STP_FIRST | STP_RECV | STP_START | STP_PIPE | STP_PASS | STP_LOOKUP
  | STP_MISS | STP_HIT | STP_FETCH | STP_DELIVER | STP_ERROR | STP_DONE.

(** [include/vcl_returns.h] *)
Inductive vcl_ret :=
  | VCL_RET_DELIVER | VCL_RET_ERROR | VCL_RET_FETCH | VCL_RET_HASH
  | VCL_RET_LOOKUP | VCL_RET_PASS | VCL_RET_PIPE | VCL_RET_RESTART.

Inductive vcl_met :=
  | VCL_MET_RECV | VCL_MET_PIPE | VCL_MET_PASS | VCL_MET_HASH | VCL_MET_MISS
  | VCL_MET_HIT | VCL_MET_FETCH | VCL_MET_DELIVER | VCL_MET_ERROR.

#[export] Instance step_eq_dec : EqDecision step. Proof. solve_decision. Defined.
#[export] Instance vcl_ret_eq_dec : EqDecision vcl_ret. Proof. solve_decision. Defined.
#[export] Instance vcl_met_eq_dec : EqDecision vcl_met. Proof. solve_decision. Defined.

(** The bit map of the return values a method may take. *)
Definition bitmap (m : vcl_met) : list vcl_ret :=
  match m with
  | VCL_MET_RECV => [VCL_RET_ERROR; VCL_RET_PASS; VCL_RET_PIPE; VCL_RET_LOOKUP]
  | VCL_MET_PIPE => [VCL_RET_ERROR; VCL_RET_PIPE]
  | VCL_MET_PASS => [VCL_RET_ERROR; VCL_RET_RESTART; VCL_RET_PASS]
  | VCL_MET_HASH => [VCL_RET_HASH]
  | VCL_MET_MISS => [VCL_RET_ERROR; VCL_RET_RESTART; VCL_RET_PASS; VCL_RET_FETCH]
  | VCL_MET_HIT => [VCL_RET_ERROR; VCL_RET_RESTART; VCL_RET_PASS; VCL_RET_DELIVER]
  | VCL_MET_FETCH => [VCL_RET_ERROR; VCL_RET_RESTART; VCL_RET_PASS; VCL_RET_DELIVER]
  | VCL_MET_DELIVER => [VCL_RET_RESTART; VCL_RET_DELIVER]
  | VCL_MET_ERROR => [VCL_RET_RESTART; VCL_RET_DELIVER]
  end.

(** ** Data *)

Record objcore := Objcore { oc_id : Z; oc_busy : bool; oc_pass : bool }.

Record object := Object {
  o_xid : Z;
  o_objcore : option objcore;
  o_response : Z;
  o_status : Z;               (* of the status line *)
  o_cacheable : bool;
  o_ttl : double;
  o_grace : option double;    (* [None] is NaN *)
  o_age : Z;
  o_entered : option double;
  o_last_lru : double;
  o_last_use : double;
  o_ban : bool                (* it holds a reference to a ban *)
}.

(** The session; [wrk] tells whether it has a worker, whose fields follow. *)
Record sess := Sess {
  sp_step : step;
  sp_fd : Z;
  sp_xid : Z;
  sp_restarts : Z;
  sp_esis : Z;
  sp_wrk : bool;
  sp_vcl : option Z;
  sp_director : option Z;
  sp_vbe : option Z;
  sp_obj : option object;
  sp_objcore : option objcore;
  sp_objhead : option Z;
  sp_handling : option vcl_ret;
  sp_err_code : Z;
  sp_err_reason : option (list Z);
  sp_doclose : option (list Z);
  sp_sendbody : bool;
  sp_wantbody : bool;
  sp_disable_esi : bool;
  sp_request : option (list Z);         (* sp->http->hd[HTTP_HDR_REQ] *)
  sp_t_open : option double;            (* [None] is NaN *)
  sp_t_req : option double;
  sp_t_resp : option double;
  sp_t_end : option double;
  w_vcl : option Z;
  w_cacheable : bool;
  w_entered : double;
  w_age : Z;
  w_ttl : double;
  w_grace : option double;
  w_do_esi : bool;
  w_bereq : bool;                       (* set, or NULL *)
  w_beresp : bool;
  w_beresp1 : bool;
  w_resp : bool;
  w_lastused : option double
}.

(** The field updates as constants of their own, so that terms stay small. *)
#[export] Instance set_o_xid : RecordSetters.Setter o_xid | 0 := _.
#[export] Instance set_o_objcore : RecordSetters.Setter o_objcore | 0 := _.
#[export] Instance set_o_response : RecordSetters.Setter o_response | 0 := _.
#[export] Instance set_o_status : RecordSetters.Setter o_status | 0 := _.
#[export] Instance set_o_cacheable : RecordSetters.Setter o_cacheable | 0 := _.
#[export] Instance set_o_ttl : RecordSetters.Setter o_ttl | 0 := _.
#[export] Instance set_o_grace : RecordSetters.Setter o_grace | 0 := _.
#[export] Instance set_o_age : RecordSetters.Setter o_age | 0 := _.
#[export] Instance set_o_entered : RecordSetters.Setter o_entered | 0 := _.
#[export] Instance set_o_last_lru : RecordSetters.Setter o_last_lru | 0 := _.
#[export] Instance set_o_last_use : RecordSetters.Setter o_last_use | 0 := _.
#[export] Instance set_o_ban : RecordSetters.Setter o_ban | 0 := _.
#[export] Instance set_oc_busy : RecordSetters.Setter oc_busy | 0 := _.
#[export] Instance set_oc_pass : RecordSetters.Setter oc_pass | 0 := _.
#[export] Instance set_sp_step : RecordSetters.Setter sp_step | 0 := _.
#[export] Instance set_sp_fd : RecordSetters.Setter sp_fd | 0 := _.
#[export] Instance set_sp_xid : RecordSetters.Setter sp_xid | 0 := _.
#[export] Instance set_sp_restarts : RecordSetters.Setter sp_restarts | 0 := _.
#[export] Instance set_sp_wrk : RecordSetters.Setter sp_wrk | 0 := _.
#[export] Instance set_sp_vcl : RecordSetters.Setter sp_vcl | 0 := _.
#[export] Instance set_sp_director : RecordSetters.Setter sp_director | 0 := _.
#[export] Instance set_sp_vbe : RecordSetters.Setter sp_vbe | 0 := _.
#[export] Instance set_sp_obj : RecordSetters.Setter sp_obj | 0 := _.
#[export] Instance set_sp_objcore : RecordSetters.Setter sp_objcore | 0 := _.
#[export] Instance set_sp_objhead : RecordSetters.Setter sp_objhead | 0 := _.
#[export] Instance set_sp_handling : RecordSetters.Setter sp_handling | 0 := _.
#[export] Instance set_sp_err_code : RecordSetters.Setter sp_err_code | 0 := _.
#[export] Instance set_sp_err_reason : RecordSetters.Setter sp_err_reason | 0 := _.
#[export] Instance set_sp_doclose : RecordSetters.Setter sp_doclose | 0 := _.
#[export] Instance set_sp_sendbody : RecordSetters.Setter sp_sendbody | 0 := _.
#[export] Instance set_sp_wantbody : RecordSetters.Setter sp_wantbody | 0 := _.
#[export] Instance set_sp_disable_esi : RecordSetters.Setter sp_disable_esi | 0 := _.
#[export] Instance set_sp_request : RecordSetters.Setter sp_request | 0 := _.
#[export] Instance set_sp_t_open : RecordSetters.Setter sp_t_open | 0 := _.
#[export] Instance set_sp_t_req : RecordSetters.Setter sp_t_req | 0 := _.
#[export] Instance set_sp_t_resp : RecordSetters.Setter sp_t_resp | 0 := _.
#[export] Instance set_sp_t_end : RecordSetters.Setter sp_t_end | 0 := _.
#[export] Instance set_w_vcl : RecordSetters.Setter w_vcl | 0 := _.
#[export] Instance set_w_cacheable : RecordSetters.Setter w_cacheable | 0 := _.
#[export] Instance set_w_entered : RecordSetters.Setter w_entered | 0 := _.
#[export] Instance set_w_age : RecordSetters.Setter w_age | 0 := _.
#[export] Instance set_w_ttl : RecordSetters.Setter w_ttl | 0 := _.
#[export] Instance set_w_grace : RecordSetters.Setter w_grace | 0 := _.
#[export] Instance set_w_do_esi : RecordSetters.Setter w_do_esi | 0 := _.
#[export] Instance set_w_bereq : RecordSetters.Setter w_bereq | 0 := _.
#[export] Instance set_w_beresp : RecordSetters.Setter w_beresp | 0 := _.
#[export] Instance set_w_beresp1 : RecordSetters.Setter w_beresp1 | 0 := _.
#[export] Instance set_w_resp : RecordSetters.Setter w_resp | 0 := _.
#[export] Instance set_w_lastused : RecordSetters.Setter w_lastused | 0 := _.

Record params := Params {
  session_linger : Z;
  max_restarts : Z;
  lru_timeout : Z;
  default_ttl : Z
}.

(** The calls a step makes to the components that share objects and sessions. *)
Inductive event :=
  | ELookup_hit (oc : Z)                   (* HSH_Lookup takes a reference *)
  | ELookup_miss (oc oh : Z)               (* and this inserts a busy core *)
  | ELookup_busy (oh : Z)                  (* and this parks the session *)
  | EDerefObjCore (oc oh : Z)
  | ENewObject (oc : option Z)             (* STV_NewObject, and its core *)
  | EBan_NewObj (oc : Z)
  | EFetchBody (oc : option Z)             (* the whole body is there *)
  | EHSH_Object (oc : Z)
  | EEXP_Insert (oc : Z)
  | EEXP_Touch (oc : Z)
  | EEXP_Rearm (oc : Z)
  | EDoom (oc : Z)                         (* HSH_Drop: never to be found *)
  | EUnbusy (oc : Z)
  | EDeref (oc : option Z)
  | EWriteObj (oc : option Z)
  | EPipe
  | EVcl (m : vcl_met) (r : vcl_ret)
  | EClose (why : list Z)
  | EReturn
  | EDelete.

Record st := St { sp : sess; xids : Z; trace : list event }.

(** ** What happens outside *)

(** Assignments of a VCL program, and its [error] and [esi] statements. *)
Inductive vrt :=
  | Error (code : Z) (reason : option (list Z))
  | Set_req_backend (be : Z)
  | Set_req_esi (b : bool)
  | Set_beresp_cacheable (b : bool)
  | Set_beresp_grace (a : double)
  | Set_beresp_ttl (a : double)
  | Set_obj_ttl (a : double)
  | Set_obj_grace (a : double)
  | Set_obj_cacheable (b : bool)
  | Esi.

Record verdict := Verdict { v_does : list vrt; v_ret : vcl_ret }.

(** What [HSH_Lookup] finds. *)
Inductive found :=
  | Hit (o : object) (oc : objcore)
  | Miss (oc oh : Z)
  | Busy (oh : Z).

(** The answers to the calls of one step. *)
Record world := World {
  now : double;                         (* TIM_real *)
  vcl : vcl_met -> verdict;
  htc_complete : Z;                     (* HTC_Complete *)
  htc_poll : Z;                         (* poll on the client *)
  htc_rx : Z;                           (* HTC_Rx *)
  rx_len : Z;                           (* Tlen(sp->htc->rxbuf) *)
  rx_eof : bool;                        (* errno is 0 or ECONNRESET *)
  htc_reinit : Z;                       (* HTC_Reinit *)
  hangup : bool;                        (* TCP_nonblocking fails *)
  active_vcl : Z;                       (* vcl_active->conf *)
  dissect : Z;                          (* http_DissectRequest *)
  request : option (list Z);            (* the method it found *)
  connection : option (list Z);         (* http_DoConnection *)
  expect : option (list Z);             (* the Expect header *)
  director0 : Z;                        (* sp->vcl->director[0] *)
  hsh_lookup : found;
  backend : option Z;                   (* VBE_GetFd *)
  fetch_hdr : bool;                     (* FetchHdr got the headers *)
  status : Z;                           (* of the backend's response *)
  rfc_ttl : double;                     (* RFC2616_Ttl *)
  rfc_age : Z;
  vary : option Z;                      (* the length of VRY_Create *)
  fetch_body : bool;                    (* FetchBody got the whole body *)
  touched : bool;                       (* EXP_Touch *)
  gone : bool;                          (* the client is, when written to *)
  has_esi : bool;                       (* sp->obj->esidata != NULL *)
  esi_deliver : sess -> sess            (* ESI_Deliver *)
}.

(** ** A monad for code that works on the state and may abort *)
Definition M (A : Type) : Type := st -> option (A * st).

#[export] Instance M_ret : MRet M := fun A a s => Some (a, s).
#[export] Instance M_bind : MBind M := fun A B k m s =>
  match m s with Some (a, s') => k a s' | None => None end.

Definition abort {A} : M A := fun _ => None.
Definition assert (b : bool) : M unit := if b then mret tt else abort.
(** Reading and writing the session. *)
Definition gets {A} (f : sess -> A) : M A := fun s => Some (f (sp s), s).
Definition put (f : sess -> sess) : M unit := fun s => Some (tt, St (f (sp s)) (xids s) (trace s)).
Definition emit (e : event) : M unit := fun s => Some (tt, St (sp s) (xids s) (trace s ++ [e])).
Definition when (b : bool) (m : M unit) : M unit := if b then m else mret tt.
(** A pointer that is not NULL. *)
Definition deref {A} (p : option A) : M A := match p with Some a => mret a | None => abort end.

(** [AZ] and [AN] of a pointer. *)
Definition AZ {A} (p : option A) : M unit :=
  assert (match p with Some _ => false | None => true end).
Definition AN {A} (p : option A) : M unit :=
  assert (match p with Some _ => true | None => false end).

Definition obj_core (o : object) : option Z := oc_id <$> o_objcore o.

(** A comparison with a NaN is false. *)
Definition dlt (a b : option double) : bool :=
  match a, b with Some a, Some b => a <? b | _, _ => false end.
Definition nadd (a : option double) (b : double) : option double := (fun a => dadd a b) <$> a.
Definition nsub (a b : option double) : option double :=
  match a, b with Some a, Some b => Some (dsub a b) | _, _ => None end.

Section Steps.
Context (p : params) (w : world).

(** ** The calls of the steps

    [vca_close_session], [vca_return_session], the VRT functions, the method
    wrapper and [HSH_Drop] are the code's.  The rest are other components seen
    from the session: what they do to its pointers, and what the world answers;
    [Hsh], [Expire] and [Ban] model the insides of the hash, the timers and the
    bans. *)

Definition vca_close_session (why : list Z) : M unit :=
  emit (EClose why);;
  put (fun s => s <| sp_fd := -1 |>).

Definition vca_return_session : M unit :=
  o ← gets sp_obj; AZ o;;
  v ← gets sp_vcl; AZ v;;
  fd ← gets sp_fd; assert (0 <=? fd);;
  if hangup w then vca_close_session (bs "remote closed") else emit EReturn.

(** The object of the session, and a change of it. *)
Definition the_obj : M object := o ← gets sp_obj; deref o.
Definition put_obj (f : object -> object) : M unit :=
  o ← the_obj; put (fun s => s <| sp_obj := Some (f o) |>).

Definition EXP_Rearm (o : object) : M unit :=
  match o_objcore o with None => mret tt | Some oc => emit (EEXP_Rearm (oc_id oc)) end.

(** A time relative to the request; [sp->t_req] is a number while VCL runs. *)
Definition relative (a : double) : M double :=
  t ← gets sp_t_req;
  t ← deref t;
  mret (if a <=? 0 then dsub t sec else dadd t a).

(** The functions of [cache_vrt.c] that the compiled program calls. *)
Definition VRT_error (code : Z) (reason : option (list Z)) : M unit :=
  put (fun s => s <| sp_err_code := if code =? 0 then 503 else code |>);;
  code ← gets sp_err_code;
  text ← match reason with Some r => mret r | None => deref (http_StatusMessage code) end;
  put (fun s => s <| sp_err_reason := Some text |>).

Definition VRT_l_req_backend (be : Z) : M unit := put (fun s => s <| sp_director := Some be |>).
Definition VRT_l_req_esi (b : bool) : M unit :=
  put (fun s => s <| sp_disable_esi := if sp_esis s =? 0 then negb b else sp_disable_esi s |>).
Definition VRT_l_beresp_cacheable (b : bool) : M unit := put (fun s => s <| w_cacheable := b |>).
Definition VRT_l_beresp_grace (a : double) : M unit := put (fun s => s <| w_grace := Some a |>).
Definition VRT_l_beresp_ttl (a : double) : M unit :=
  t ← relative a; put (fun s => s <| w_ttl := t |>).

Definition VRT_l_obj_ttl (a : double) : M unit :=
  o ← the_obj;
  match o_objcore o with
  | None => mret tt
  | Some _ =>
      t ← relative a;
      put_obj (fun o => o <| o_ttl := t |>);;
      EXP_Rearm o
  end.
Definition VRT_l_obj_grace (a : double) : M unit :=
  o ← the_obj;
  put_obj (fun o => o <| o_grace := Some (if a <? 0 then 0 else a) |>);;
  EXP_Rearm o.
Definition VRT_l_obj_cacheable (b : bool) : M unit := put_obj (fun o => o <| o_cacheable := b |>).

(** The method that calls [esi] decides. *)
Definition VRT_ESI (m : vcl_met) : M unit :=
  when (bool_decide (m = VCL_MET_FETCH)) (put (fun s => s <| w_do_esi := true |>)).

Definition VRT (m : vcl_met) (c : vrt) : M unit :=
  match c with
  | Error code reason => VRT_error code reason
  | Set_req_backend be => VRT_l_req_backend be
  | Set_req_esi b => VRT_l_req_esi b
  | Set_beresp_cacheable b => VRT_l_beresp_cacheable b
  | Set_beresp_grace a => VRT_l_beresp_grace a
  | Set_beresp_ttl a => VRT_l_beresp_ttl a
  | Set_obj_ttl a => VRT_l_obj_ttl a
  | Set_obj_grace a => VRT_l_obj_grace a
  | Set_obj_cacheable b => VRT_l_obj_cacheable b
  | Esi => VRT_ESI m
  end.

Fixpoint VRTs (m : vcl_met) (cs : list vrt) : M unit :=
  match cs with [] => mret tt | c :: cs => VRT m c;; VRTs m cs end.

(** [VCL_recv_method] and its like: run the compiled method. *)
Definition VCL_method (m : vcl_met) : M vcl_ret :=
  put (fun s => s <| sp_handling := None |>);;
  VRTs m (v_does (vcl w m));;
  put (fun s => s <| sp_handling := Some (v_ret (vcl w m)) |>);;
  emit (EVcl m (v_ret (vcl w m)));;
  assert (bool_decide (v_ret (vcl w m) ∈ bitmap m));;
  mret (v_ret (vcl w m)).

(** [HSH_Deref(sp->wrk, &sp->obj)] *)
Definition HSH_Deref : M unit :=
  o ← the_obj;
  put (fun s => s <| sp_obj := None |>);;
  emit (EDeref (obj_core o)).

Definition HSH_DerefObjCore : M unit :=
  oh ← gets sp_objhead; oh ← deref oh;
  oc ← gets sp_objcore; oc ← deref oc;
  put (fun s => s <| sp_objhead := None |> <| sp_objcore := None |>);;
  emit (EDerefObjCore (oc_id oc) oh).

Definition set_core (f : objcore -> objcore) (o : object) : object :=
  o <| o_objcore := f <$> o_objcore o |>.

(** [HSH_Unbusy] on an object of the hash. *)
Definition HSH_Unbusy (oc : objcore) : M unit :=
  assert (oc_busy oc);;
  put_obj (set_core (fun oc => oc <| oc_busy := false |>));;
  emit (EUnbusy (oc_id oc)).

Definition HSH_Drop : M unit :=
  o ← the_obj;
  match o_objcore o with
  | None => put_obj (fun o => o <| o_cacheable := false |>)
  | Some oc =>
      assert (oc_busy oc);;
      put_obj (fun o => o <| o_ttl := 0 |> <| o_cacheable := false |>);;
      emit (EDoom (oc_id oc));;
      HSH_Unbusy oc
  end;;
  HSH_Deref.

(** [HSH_Lookup]: what it leaves in the session. *)
Definition HSH_Lookup : M (option (objcore * option object * Z)) :=
  d ← gets sp_director; AN d;;
  put (fun s => s <| sp_objhead := None |>);;
  match hsh_lookup w with
  | Hit o oc =>
      emit (ELookup_hit (oc_id oc));;
      mret (Some (oc, Some (o <| o_objcore := Some oc |>), 0))
  | Miss oc oh => emit (ELookup_miss oc oh);; mret (Some (Objcore oc true false, None, oh))
  | Busy oh =>
      emit (ELookup_busy oh);;
      put (fun s => s <| sp_objhead := Some oh |> <| sp_wrk := false |>);;
      mret None
  end.

(** [STV_NewObject] for a response or an error page. *)
Definition STV_NewObject (ttl : double) : object :=
  Object 0 None 0 0 false ttl None 0 None 0 0 false.

(** [FetchHdr]: with the headers the session holds the backend connection. *)
Definition FetchHdr : M bool :=
  match backend w with
  | None => put (fun s => s <| sp_vbe := None |>);; mret false
  | Some vc =>
      put (fun s => s <| sp_vbe := Some vc |>);;
      if fetch_hdr w then mret true
      else put (fun s => s <| sp_vbe := None |>);; mret false
  end.

(** [FetchBody] gives the backend connection up. *)
Definition FetchBody : M bool :=
  put (fun s => s <| sp_vbe := None |>);;
  o ← the_obj;
  when (fetch_body w) (emit (EFetchBody (obj_core o)));;
  mret (fetch_body w).

(** [PipeSession]: both connections are closed at the end. *)
Definition PipeSession : M unit :=
  put (fun s => s <| sp_vbe := backend w |>);;
  match backend w with
  | None => mret tt
  | Some _ =>
      when (negb (gone w)) (put (fun s => s <| sp_t_resp := Some (now w) |>));;
      vca_close_session (bs "pipe");;
      put (fun s => s <| sp_vbe := None |>);;
      emit EPipe
  end.

Definition RES_WriteObj : M unit :=
  o ← the_obj;
  emit (EWriteObj (obj_core o));;
  s ← gets id;
  if negb (sp_disable_esi s) && sp_wantbody s && has_esi w then
    if gone w then vca_close_session (bs "remote closed")
    else put (esi_deliver w)
  else when (gone w) (vca_close_session (bs "remote closed")).

(** ** The steps; the result tells whether the worker is done with the session *)

Definition goto (x : step) : M bool := put (fun s => s <| sp_step := x |>);; mret false.

Definition cnt_wait : M bool :=
  v ← gets sp_vcl; AZ v;;
  o ← gets sp_obj; AZ o;;
  x ← gets sp_xid; assert (x =? 0);;
  let i := htc_complete w in
  let i :=
    if (i =? 0) && (0 <? session_linger p)
    then if htc_poll w =? 0 then 0 else htc_rx w
    else i in
  if i =? 0 then
    put (fun s => s <| sp_wrk := false |>);;
    vca_return_session;;
    mret true
  else if i =? 1 then goto STP_START
  else if i =? -2 then vca_close_session (bs "overflow");; mret false
  else
    vca_close_session
      (if (i =? -1) && (rx_len w =? 0) && rx_eof w then bs "EOF" else bs "error");;
    goto STP_DONE.

Definition cnt_deliver : M bool :=
  o ← the_obj;
  v ← gets sp_vcl; AN v;;
  put (fun s => s <| sp_t_resp := Some (now w) |>);;
  match o_objcore o with
  | None => mret tt
  | Some oc =>
      when (lru_timeout p * sec <? dsub (now w) (o_last_lru o))
        (emit (EEXP_Touch (oc_id oc));;
         when (touched w) (put_obj (fun o => o <| o_last_lru := now w |>)));;
      put_obj (fun o => o <| o_last_use := now w |>)
  end;;
  put (fun s => s <| w_resp := true |>);;
  h ← VCL_method VCL_MET_DELIVER;
  match h with
  | VCL_RET_DELIVER =>
      put (fun s => s <| sp_director := None |> <| sp_restarts := 0 |>);;
      RES_WriteObj;;
      HSH_Deref;;
      put (fun s => s <| w_resp := false |>);;
      goto STP_DONE
  | _ => abort
  end.

Definition SES_Delete : M unit := emit EDelete.

Definition cnt_done : M bool :=
  o ← gets sp_obj; AZ o;;
  v ← gets sp_vbe; AZ v;;
  put (fun s => s <| sp_director := None |> <| sp_restarts := 0 |>);;
  (* the worker keeps the VCL of the session, when it has one *)
  put (fun s => s <| w_vcl := if sp_esis s =? 0 then union (sp_vcl s) (w_vcl s) else w_vcl s |>
                  <| sp_vcl := if sp_esis s =? 0 then None else sp_vcl s |>);;
  put (fun s => s <| sp_t_end := Some (now w) |> <| w_lastused := Some (now w) |>);;
  put (fun s => s <| sp_t_req := if sp_xid s =? 0 then Some (now w) else sp_t_req s |>
                  <| sp_t_resp := if sp_xid s =? 0 then Some (now w) else sp_t_resp s |>);;
  put (fun s => s <| sp_xid := 0 |> <| sp_t_open := Some (now w) |> <| sp_t_resp := None |>);;
  e ← gets sp_esis;
  if 0 <? e then mret true else
  put (fun s => s <| sp_t_req := None |>);;
  s ← gets id;
  match sp_doclose s with
  | Some why => when (0 <=? sp_fd s) (vca_close_session why)
  | None => mret tt
  end;;
  fd ← gets sp_fd;
  if fd <? 0 then
    put (fun s => s <| sp_wrk := false |>);;
    SES_Delete;;
    mret true
  else if htc_reinit w =? 1 then goto STP_START
  else if negb (rx_len w =? 0) then goto STP_WAIT
  else if 0 <? session_linger p then goto STP_WAIT
  else
    put (fun s => s <| sp_wrk := false |>);;
    vca_return_session;;
    mret true.

Definition cnt_error : M bool :=
  s ← gets id;
  match sp_obj s with
  | None =>
      put (fun s => s <| w_cacheable := false |>);;
      emit (ENewObject None);;
      put (fun s => s <| sp_obj := Some ((STV_NewObject 0) <| o_xid := sp_xid s |>
                                                         <| o_entered := sp_t_req s |>) |>)
  | Some _ => mret tt
  end;;
  put (fun s => s <| sp_err_code := if (sp_err_code s <? 100) || (999 <? sp_err_code s)
                                    then 501 else sp_err_code s |>);;
  code ← gets sp_err_code;
  put_obj (fun o => o <| o_status := code |>);;
  reason ← gets sp_err_reason;
  match reason with
  | Some _ => mret tt
  | None => _ ← deref (http_StatusMessage code); mret tt
  end;;
  h ← VCL_method VCL_MET_ERROR;
  s ← gets id;
  if bool_decide (h = VCL_RET_RESTART) && (sp_restarts s <? max_restarts p) then
    HSH_Drop;;
    put (fun s => s <| sp_director := None |> <| sp_restarts := sp_restarts s + 1 |>);;
    goto STP_RECV
  else
    let h := if bool_decide (h = VCL_RET_RESTART) then VCL_RET_DELIVER else h in
    put (fun s => s <| sp_handling := Some h |>
                    <| sp_doclose := Some (bs "error") |> <| sp_wantbody := true |>);;
    assert (bool_decide (h = VCL_RET_DELIVER));;
    put (fun s => s <| sp_err_code := 0 |> <| sp_err_reason := None |> <| w_bereq := false |>);;
    goto STP_DELIVER.

(** The tail of every path of [cnt_fetch] that leaves the backend behind. *)
Definition unset_be (s : sess) : sess :=
  s <| w_bereq := false |> <| w_beresp := false |> <| w_beresp1 := false |>.

(** The status codes that make a response cacheable [RFC2616, 13.4]. *)
Definition cacheable_status (st : Z) : bool :=
  bool_decide (st ∈ [200; 203; 300; 301; 302; 410; 404]).

(** The first half: headers, cacheability and [vcl_fetch]. *)
Definition fetch_headers : M (option vcl_ret) :=
  v ← gets sp_vcl; AN v;;
  d ← gets sp_director; AN d;;
  b ← gets sp_vbe; AZ b;;
  put (fun s => s <| w_beresp := true |>);;
  ok ← FetchHdr;
  put (fun s => s <| w_beresp1 := true |>);;
  s ← gets id;
  if negb ok then
    match sp_objcore s with Some _ => HSH_DerefObjCore | None => mret tt end;;
    o ← gets sp_obj; AZ o;;
    put unset_be;;
    put (fun s => s <| sp_err_code := 503 |>);;
    mret None
  else
    put (fun s => s <| sp_err_code := status w |>
                    <| w_cacheable := cacheable_status (status w) |>
                    <| w_entered := now w |> <| w_age := 0 |>);;
    put (fun s => s <| w_age := rfc_age w |> <| w_ttl := rfc_ttl w |>);;
    match sp_objcore s with
    | None => put (fun s => s <| w_cacheable := false |>)
    | Some _ => mret tt
    end;;
    put (fun s => s <| w_do_esi := false |> <| w_grace := None |>);;
    h ← VCL_method VCL_MET_FETCH;
    mret (Some h).

(** A busy object is fleshed out or let go; then the new object is made. *)
Definition fetch_object : M unit :=
  s ← gets id;
  match sp_objcore s with
  | None => AZ (sp_objhead s);; put (fun s => s <| w_cacheable := false |>)
  | Some _ =>
      when (negb (w_cacheable s))
        match sp_objhead s with Some _ => HSH_DerefObjCore | None => mret tt end
  end;;
  s ← gets id;
  (if w_cacheable s then
    AN (sp_objhead s);; AN (sp_objcore s);;
    match vary w with Some l => assert (0 <? l) | None => mret tt end
  else AZ (sp_objhead s);; AZ (sp_objcore s));;
  put (fun s => s <| sp_obj := Some (STV_NewObject (w_ttl s)) |>);;
  match sp_objhead s with
  | None => emit (ENewObject None)
  | Some _ =>
      oc ← deref (sp_objcore s);
      emit (ENewObject (Some (oc_id oc)));;
      put_obj (fun o => o <| o_objcore := Some oc |>);;
      put (fun s => s <| sp_objhead := None |> <| sp_objcore := None |>);;
      put_obj (fun o => o <| o_ban := true |>);;
      emit (EBan_NewObj (oc_id oc))
  end;;
  s ← gets id;
  put_obj (fun o => o <| o_xid := sp_xid s |> <| o_response := sp_err_code s |>
                      <| o_cacheable := w_cacheable s |> <| o_ttl := w_ttl s |>
                      <| o_grace := w_grace s |>);;
  put_obj (fun o => o <| o_cacheable := if (o_ttl o =? 0) && bool_decide (o_grace o = Some 0)
                                        then false else o_cacheable o |>);;
  put_obj (fun o => o <| o_age := w_age s |> <| o_entered := Some (w_entered s) |>
                      <| o_status := status w |>).

(** The second half: the body, and what [vcl_fetch] decided. *)
Definition fetch_finish (handling : vcl_ret) : M bool :=
  ok ← FetchBody;
  b ← gets sp_vbe; AZ b;;
  d ← gets sp_director; AN d;;
  if negb ok then
    HSH_Drop;;
    o ← gets sp_obj; AZ o;;
    put unset_be;;
    put (fun s => s <| sp_err_code := 503 |>);;
    goto STP_ERROR
  else
    s ← gets id;
    o ← the_obj;
    match w_cacheable s, o_objcore o with
    | true, Some oc => emit (EHSH_Object (oc_id oc))
    | _, _ => mret tt
    end;;
    let deliver : M bool :=
      put_obj (fun o => o <| o_cacheable := true |>);;
      (if w_cacheable s then
        o ← the_obj;
        oc ← deref (o_objcore o);
        emit (EEXP_Insert (oc_id oc));;
        assert (o_ban o);;
        HSH_Unbusy oc
      else mret tt);;
      put unset_be;;
      goto STP_DELIVER in
    match handling with
    | VCL_RET_RESTART =>
        HSH_Drop;;
        put (fun s => s <| sp_director := None |> <| sp_restarts := sp_restarts s + 1 |>);;
        put unset_be;;
        goto STP_RECV
    | VCL_RET_PASS =>
        put_obj (set_core (fun oc => oc <| oc_pass := true |>));;
        put_obj (fun o => o <| o_ttl :=
          if dlt (nsub (Some (o_ttl o)) (sp_t_req s)) (Some (of_int (default_ttl p)))
          then default 0 (nadd (sp_t_req s) (of_int (default_ttl p))) else o_ttl o |>);;
        deliver
    | VCL_RET_DELIVER => deliver
    | VCL_RET_ERROR =>
        HSH_Drop;;
        put unset_be;;
        goto STP_ERROR
    | _ => abort
    end.

Definition cnt_fetch : M bool :=
  h ← fetch_headers;
  match h with
  | None => goto STP_ERROR
  | Some handling => fetch_object;; fetch_finish handling
  end.

Definition cnt_first : M bool :=
  x ← gets sp_xid; assert (x =? 0);;
  r ← gets sp_restarts; assert (r =? 0);;
  put (fun s => s <| w_lastused := sp_t_open s |>);;
  goto STP_WAIT.

Definition cnt_hit : M bool :=
  o ← the_obj;
  v ← gets sp_vcl; AN v;;
  oc ← deref (o_objcore o);
  assert (negb (oc_pass oc));;
  h ← VCL_method VCL_MET_HIT;
  if bool_decide (h = VCL_RET_DELIVER) then
    put (fun s => s <| w_bereq := false |>);;
    goto STP_DELIVER
  else
    HSH_Deref;;
    put (fun s => s <| sp_objcore := None |>);;
    oh ← gets sp_objhead; AZ oh;;
    match h with
    | VCL_RET_PASS => goto STP_PASS
    | VCL_RET_ERROR => goto STP_ERROR
    | VCL_RET_RESTART =>
        put (fun s => s <| sp_director := None |> <| sp_restarts := sp_restarts s + 1 |>);;
        goto STP_RECV
    | _ => abort
    end.

Definition cnt_lookup : M bool :=
  v ← gets sp_vcl; AN v;;
  f ← HSH_Lookup;
  match f with
  | None => mret true
  | Some (oc, o, oh) =>
      if oc_busy oc then
        AZ o;;
        put (fun s => s <| sp_objhead := Some oh |> <| sp_objcore := Some oc |>);;
        goto STP_MISS
      else
        o ← deref o;
        put (fun s => s <| sp_obj := Some o |>);;
        if oc_pass oc then
          HSH_Deref;;
          put (fun s => s <| sp_objcore := None |> <| sp_objhead := None |>);;
          goto STP_PASS
        else goto STP_HIT
  end.

Definition cnt_miss : M bool :=
  v ← gets sp_vcl; AN v;;
  o ← gets sp_obj; AZ o;;
  oc ← gets sp_objcore; AN oc;;
  oh ← gets sp_objhead; AN oh;;
  put (fun s => s <| w_bereq := true |>);;
  h ← VCL_method VCL_MET_MISS;
  match h with
  | VCL_RET_ERROR => HSH_DerefObjCore;; goto STP_ERROR
  | VCL_RET_PASS => HSH_DerefObjCore;; goto STP_PASS
  | VCL_RET_FETCH => goto STP_FETCH
  | VCL_RET_RESTART => HSH_DerefObjCore;; abort
  | _ => abort
  end.

Definition cnt_pass : M bool :=
  v ← gets sp_vcl; AN v;;
  o ← gets sp_obj; AZ o;;
  put (fun s => s <| w_bereq := true |>);;
  h ← VCL_method VCL_MET_PASS;
  if bool_decide (h = VCL_RET_ERROR) then goto STP_ERROR
  else
    assert (bool_decide (h = VCL_RET_PASS));;
    put (fun s => s <| sp_sendbody := true |>);;
    goto STP_FETCH.

Definition cnt_pipe : M bool :=
  v ← gets sp_vcl; AN v;;
  put (fun s => s <| w_bereq := true |>);;
  h ← VCL_method VCL_MET_PIPE;
  if bool_decide (h = VCL_RET_ERROR) then abort
  else
    assert (bool_decide (h = VCL_RET_PIPE));;
    PipeSession;;
    put (fun s => s <| w_bereq := false |>);;
    goto STP_DONE.

Definition cnt_recv : M bool :=
  v ← gets sp_vcl; AN v;;
  o ← gets sp_obj; AZ o;;
  d ← gets sp_director; AZ d;;
  put (fun s => s <| sp_director := Some (director0 w) |> <| sp_disable_esi := false |>);;
  recv_handling ← VCL_method VCL_MET_RECV;
  r ← gets sp_restarts;
  if max_restarts p <=? r then
    put (fun s => s <| sp_err_code := if sp_err_code s =? 0 then 503 else sp_err_code s |>);;
    goto STP_ERROR
  else
    h ← VCL_method VCL_MET_HASH;
    assert (bool_decide (h = VCL_RET_HASH));;
    m ← gets sp_request; m ← deref m;
    let head := streq m (bs "HEAD") in
    put (fun s => s <| sp_wantbody := negb head |>
                    <| sp_request := Some (if head then bs "GET" else m) |>);;
    put (fun s => s <| sp_sendbody := false |>);;
    match recv_handling with
    | VCL_RET_LOOKUP => goto STP_LOOKUP
    | VCL_RET_PIPE =>
        e ← gets sp_esis;
        if 0 <? e then abort else goto STP_PIPE
    | VCL_RET_PASS => goto STP_PASS
    | VCL_RET_ERROR => goto STP_ERROR
    | _ => abort
    end.

(** [++xids] on an [unsigned]. *)
Definition next_xid : M Z := fun s =>
  let x := (xids s + 1) mod 2 ^ 32 in
  Some (x, St (sp s) x (trace s)).

Definition cnt_start : M bool :=
  r ← gets sp_restarts; assert (r =? 0);;
  o ← gets sp_obj; AZ o;;
  v ← gets sp_vcl; AZ v;;
  put (fun s => s <| sp_t_req := Some (now w) |> <| w_lastused := Some (now w) |>);;
  x ← next_xid;
  put (fun s => s <| sp_xid := x |>);;
  put (fun s => s <| sp_vcl := Some (active_vcl w) |> <| w_vcl := None |>);;
  put (fun s => s <| sp_request := request w |>);;
  let done := dissect w in
  if done <? 0 then
    put (fun s => s <| sp_step := STP_DONE |>);;
    vca_close_session (bs "junk");;
    mret false
  else if negb (done =? 0) then
    put (fun s => s <| sp_err_code := done |>);;
    goto STP_ERROR
  else
    put (fun s => s <| sp_doclose := connection w |>);;
    match expect w with
    | Some e =>
        if negb (streq e (bs "100-continue")) then
          put (fun s => s <| sp_err_code := 417 |>);;
          goto STP_ERROR
        else goto STP_RECV
    | None => goto STP_RECV
    end.

(** ** The dispatcher *)
Definition cnt_step (x : step) : M bool :=
  match x with
  | STP_WAIT => cnt_wait
  | STP_FIRST => cnt_first
  | STP_RECV => cnt_recv
  | STP_START => cnt_start
  | STP_PIPE => cnt_pipe
  | STP_PASS => cnt_pass
  | STP_LOOKUP => cnt_lookup
  | STP_MISS => cnt_miss
  | STP_HIT => cnt_hit
  | STP_FETCH => cnt_fetch
  | STP_DELIVER => cnt_deliver
  | STP_ERROR => cnt_error
  | STP_DONE => cnt_done
  end.

(** One turn of the loop of [CNT_Session]. *)
Definition turn : M bool :=
  a ← gets sp_wrk; assert a;;
  x ← gets sp_step;
  cnt_step x.

End Steps.

(** At most [n] turns; each has answers of its own.  The result tells whether
    the loop came to its end. *)
Fixpoint turns (p : params) (ws : nat -> world) (n : nat) : M bool :=
  match n with
  | O => mret false
  | S n =>
      done ← turn p (ws O);
      if done : bool then mret true else turns p (fun i => ws (S i)) n
  end.

Definition entrance (x : step) : bool :=
  match x with STP_FIRST | STP_START | STP_LOOKUP | STP_RECV => true | _ => false end.

Definition CNT_Session (p : params) (ws : nat -> world) (n : nat) : M bool :=
  a ← gets sp_wrk; assert a;;
  x ← gets sp_step; assert (entrance x);;
  turns p ws n.

End Cnt.
