(* ===== verification/CntSpec.v ===== *)
(** * CntSpec: requests run to their end and give everything back

    The step functions of [Cnt] are proved against a table of what a session
    holds in each step ([shape]) and an automaton over the calls that share
    objects ([act]): a busy object core is published or given up, a reference
    is dropped, exactly once, and an object becomes visible to other sessions
    only when it has its body, its ban and its timer. *)
From coqutil Require Import Datatypes.RecordSetters.
From S2P Require Import Prelude Http Double Cnt.
Import TriangleBracketNotations.

Module CntSpec.
Import Double Http Cnt.

(** ** Total correctness of the monad's programs *)

(** [m] does not abort on [s], and what it returns satisfies [Q]. *)
Definition wp {A} (m : M A) (Q : A -> st -> Prop) (s : st) : Prop :=
  match m s with Some (a, s') => Q a s' | None => False end.

Lemma wp_ret {A} (a : A) Q s : Q a s -> wp (mret a) Q s.
Proof. exact id. Qed.
Lemma wp_bind {A B} (m : M A) (k : A -> M B) Q s :
  wp m (fun a => wp (k a) Q) s -> wp (m ≫= k) Q s.
Proof. unfold wp, mbind, M_bind. destruct (m s) as [[a s'] |]; auto. Qed.
Lemma wp_mono {A} (m : M A) (Q R : A -> st -> Prop) s :
  wp m Q s -> (forall a s', Q a s' -> R a s') -> wp m R s.
Proof. unfold wp. destruct (m s) as [[a s'] |]; auto. Qed.
Lemma wp_gets {A} (f : sess -> A) Q s : Q (f (sp s)) s -> wp (gets f) Q s.
Proof. exact id. Qed.
Lemma wp_put f Q s : Q tt (St (f (sp s)) (xids s) (trace s)) -> wp (put f) Q s.
Proof. exact id. Qed.
Lemma wp_emit e Q s : Q tt (St (sp s) (xids s) (trace s ++ [e])) -> wp (emit e) Q s.
Proof. exact id. Qed.
Lemma wp_assert b Q s : b = true -> Q tt s -> wp (assert b) Q s.
Proof. intros ->. exact id. Qed.
Lemma wp_when b m Q s :
  (b = true -> wp m Q s) -> (b = false -> Q tt s) -> wp (when b m) Q s.
Proof. destruct b; cbn; auto. Qed.
Lemma wp_use {A} (m : M A) Q s a s' : m s = Some (a, s') -> wp m Q s -> Q a s'.
Proof. unfold wp. intros ->. exact id. Qed.

(** ** Who holds what *)

(** What a session holds of the shared objects. *)
Inductive holding :=
  | HNothing
  | HParked (oh : Z)                         (* a reference to an object head *)
  | HCore (oc oh : Z)                        (* a busy core without an object *)
  | HPrivate                                 (* an object outside of the hash *)
  | HBusy (oc : Z) (banned filled timed : bool)
  | HDoomed (oc : Z) (busy : bool)           (* nobody will find it *)
  | HRef (oc : Z).                           (* one reference to a shared object *)

Definition same (a b : Z) (h : holding) : option holding := if a =? b then Some h else None.

(** The calls a holder may make, and what it holds afterwards. *)
Definition act (h : holding) (e : event) : option holding :=
  match e, h with
  | ELookup_hit oc, (HNothing | HParked _) => Some (HRef oc)
  | ELookup_miss oc oh, (HNothing | HParked _) => Some (HCore oc oh)
  | ELookup_busy oh, (HNothing | HParked _) => Some (HParked oh)
  | EDerefObjCore oc oh, HCore oc' oh' => if oh =? oh' then same oc oc' HNothing else None
  | ENewObject None, HNothing => Some HPrivate
  | ENewObject (Some oc), HCore oc' _ => same oc oc' (HBusy oc false false false)
  | EBan_NewObj oc, HBusy oc' false f t => same oc oc' (HBusy oc true f t)
  | EFetchBody (Some oc), HBusy oc' b false t => same oc oc' (HBusy oc b true t)
  | EFetchBody None, HPrivate => Some HPrivate
  | EHSH_Object oc, HBusy oc' b true t => same oc oc' h
  | EEXP_Insert oc, HBusy oc' true true false => same oc oc' (HBusy oc true true true)
  | EUnbusy oc, HBusy oc' true true true => same oc oc' (HRef oc)
  | EDoom oc, HBusy oc' _ _ false => same oc oc' (HDoomed oc true)
  | EUnbusy oc, HDoomed oc' true => same oc oc' (HDoomed oc false)
  | EDeref (Some oc), (HDoomed oc' false | HRef oc') => same oc oc' HNothing
  | EDeref None, HPrivate => Some HNothing
  | (EEXP_Touch oc | EEXP_Rearm oc | EWriteObj (Some oc)), HRef oc' => same oc oc' h
  | EWriteObj None, HPrivate => Some h
  | (EPipe | EReturn | EDelete), HNothing => Some h
  | (EVcl _ _ | EClose _), _ => Some h
  | _, _ => None
  end.

Definition replay (l : list event) : option holding :=
  fold_left (fun h e => h ≫= fun h => act h e) l (Some HNothing).

Lemma replay_snoc l e : replay (l ++ [e]) = replay l ≫= fun h => act h e.
Proof. unfold replay. rewrite fold_left_app. reflexivity. Qed.
Lemma same_self a h : same a a h = Some h.
Proof. unfold same. rewrite Z.eqb_refl. reflexivity. Qed.

(** What the pointers of the session say it holds. *)
Definition held (s : sess) : option holding :=
  match sp_obj s, sp_objcore s, sp_objhead s with
  | Some o, None, None =>
      match o_objcore o with
      | None => Some HPrivate
      | Some oc => if oc_busy oc then None else Some (HRef (oc_id oc))
      end
  | None, Some oc, Some oh => if oc_busy oc then Some (HCore (oc_id oc) oh) else None
  | None, None, Some oh => Some (HParked oh)
  | None, None, None => Some HNothing
  | _, _, _ => None
  end.

(** ** The table of the steps *)
Section Inv.
Context (p : params).

Definition empty (s : sess) : Prop :=
  sp_obj s = None /\ sp_objcore s = None /\ sp_objhead s = None.

(** Between requests. *)
Definition idle (s : sess) : Prop :=
  empty s /\ sp_vcl s = None /\ sp_director s = None /\ sp_xid s = 0 /\
  sp_restarts s = 0 /\ sp_esis s = 0 /\ 0 <= sp_fd s.

(** Within one, whose method is known; [cnt_recv] has chosen a backend. *)
Definition running (s : sess) : Prop :=
  is_Some (sp_vcl s) /\ is_Some (sp_t_req s) /\ is_Some (sp_request s) /\ 0 <= sp_fd s.
Definition received (s : sess) : Prop :=
  running s /\ is_Some (sp_director s) /\ sp_restarts s < max_restarts p.

Definition owns_core (s : sess) : Prop :=
  sp_obj s = None /\
  exists i pass oh, sp_objcore s = Some (Objcore i true pass) /\ sp_objhead s = Some oh.
Definition owns_obj (s : sess) (P : object -> Prop) : Prop :=
  sp_objcore s = None /\ sp_objhead s = None /\ exists o, sp_obj s = Some o /\ P o.

Definition shape (s : sess) : Prop :=
  match sp_step s with
  | STP_WAIT | STP_FIRST | STP_START => idle s
  | STP_RECV => running s /\ empty s /\ sp_director s = None
  | STP_LOOKUP => received s /\ sp_obj s = None /\ sp_objcore s = None
  | STP_MISS => received s /\ owns_core s
  | STP_HIT =>
      received s /\ owns_obj s (fun o => exists i, o_objcore o = Some (Objcore i false false))
  | STP_PASS => received s /\ empty s
  | STP_FETCH => received s /\ (empty s \/ owns_core s)
  | STP_PIPE => received s /\ empty s /\ sp_esis s = 0
  | STP_ERROR => running s /\ empty s
  | STP_DELIVER =>
      running s /\
      owns_obj s (fun o => o_objcore o = None \/
                           exists i pass, o_objcore o = Some (Objcore i false pass))
  | STP_DONE => empty s
  end.

Record inv (s : st) : Prop := Inv {
  inv_wrk : sp_wrk (sp s) = true;
  inv_vbe : sp_vbe (sp s) = None;
  inv_esis : 0 <= sp_esis (sp s);
  inv_restarts : 0 <= sp_restarts (sp s) <= max_restarts p;
  inv_shape : shape (sp s);
  inv_trace : replay (trace s) = held (sp s)
}.

(** The session has left the worker: parked, handed back, closed or, within an
    ESI include, complete. *)
Definition left (s : st) : Prop :=
  replay (trace s) = held (sp s) /\
  ((sp_step (sp s) = STP_LOOKUP /\ sp_wrk (sp s) = false /\
      received (sp s) /\ is_Some (sp_objhead (sp s)) /\
      sp_obj (sp s) = None /\ sp_objcore (sp s) = None) \/
   (sp_esis (sp s) = 0 /\ sp_wrk (sp s) = false /\ empty (sp s) /\ sp_vcl (sp s) = None /\
      sp_xid (sp s) = 0 /\
      (last (trace s) = Some EReturn /\ 0 <= sp_fd (sp s) \/
       last (trace s) = Some EDelete /\ sp_fd (sp s) < 0 \/
       last (trace s) = Some (EClose (bs "remote closed")) /\ sp_fd (sp s) = -1)) \/
   (0 < sp_esis (sp s) /\ sp_step (sp s) = STP_DONE /\ sp_wrk (sp s) = true /\ empty (sp s))).

(** ** What the world may answer *)

(** The variables a method may set ([lib/libvcl/vcc_obj.c]), and a status that
    has a text when the program gives none. *)
Definition writable (m : vcl_met) (c : vrt) : Prop :=
  match c with
  | Error code reason =>
      VCL_RET_ERROR ∈ bitmap m /\ (reason = None -> code = 0 \/ 100 <= code <= 999)
  | Set_req_backend _ | Esi => True
  | Set_req_esi _ => m ∈ [VCL_MET_RECV; VCL_MET_FETCH; VCL_MET_DELIVER; VCL_MET_ERROR]
  | Set_beresp_cacheable _ | Set_beresp_grace _ | Set_beresp_ttl _ => m = VCL_MET_FETCH
  | Set_obj_ttl _ | Set_obj_grace _ => m ∈ [VCL_MET_HIT; VCL_MET_ERROR]
  | Set_obj_cacheable _ => m = VCL_MET_HIT
  end.

(** The return values that the steps have code for: four that
    [include/vcl_returns.h] permits are missing. *)
Definition handled (m : vcl_met) (r : vcl_ret) : Prop :=
  r ∈ bitmap m /\
  match m, r with
  | VCL_MET_PIPE, VCL_RET_ERROR
  | VCL_MET_PASS, VCL_RET_RESTART
  | VCL_MET_MISS, VCL_RET_RESTART
  | VCL_MET_DELIVER, VCL_RET_RESTART => False
  | _, _ => True
  end.

Record obeys (s : sess) (w : world) : Prop := Obeys {
  ob_does : forall m, Forall (writable m) (v_does (vcl w m));
  ob_ret : forall m, handled m (v_ret (vcl w m));
  ob_pipe : 0 < sp_esis s -> v_ret (vcl w VCL_MET_RECV) <> VCL_RET_PIPE;
  ob_complete : htc_complete w <> -2;
  ob_rx : htc_rx w <> -2;
  ob_dissect : 0 <= dissect w -> is_Some (request w);
  ob_vary : forall l, vary w = Some l -> 0 < l;
  ob_hit : forall o oc, hsh_lookup w = Hit o oc -> oc_busy oc = false;
  ob_esi : forall s, let s' := esi_deliver w s in
    sp_obj s' = sp_obj s /\ sp_objcore s' = sp_objcore s /\ sp_objhead s' = sp_objhead s /\
    sp_vcl s' = sp_vcl s /\ sp_vbe s' = sp_vbe s /\ sp_esis s' = sp_esis s /\
    sp_wrk s' = sp_wrk s /\ (sp_restarts s = 0 -> sp_restarts s' = 0)
}.

(** ** Progress: an upper bound of the turns to the end of the request *)
Definition rank (x : step) : Z :=
  match x with
  | STP_DONE => 0
  | STP_DELIVER | STP_PIPE => 1
  | STP_ERROR => 2
  | STP_FETCH => 3
  | STP_PASS => 4
  | STP_MISS | STP_HIT => 5
  | STP_LOOKUP => 6
  | STP_RECV => 7
  | STP_START => 8
  | STP_WAIT | STP_FIRST => 9
  end.
Definition measure (s : sess) : Z :=
  rank (sp_step s) +
  (if rank (sp_step s) <=? 1 then 0 else 8 * (max_restarts p - sp_restarts s)).

Definition in_request (x : step) : bool := (0 <? rank x) && (rank x <? 9).

(** What a turn leaves behind. *)
Definition post (s : sess) (done : bool) (s' : st) : Prop :=
  (if done then left s' else inv s') /\
  (in_request (sp_step s) = true -> done = false -> measure (sp s') < measure s).

End Inv.

(** ** The methods of the VCL program *)

(** What a method may change, erased. *)
Definition mask (s : sess) : sess :=
  s <| sp_handling := None |> <| sp_err_code := 0 |> <| sp_err_reason := None |>
    <| sp_director := None |> <| sp_disable_esi := false |> <| w_cacheable := false |>
    <| w_grace := None |> <| w_ttl := 0 |> <| w_do_esi := false |> <| sp_obj := None |>.

Definition keeps_obj (a b : option object) : Prop :=
  option_Forall2 (fun a b => o_objcore a = o_objcore b /\ o_ban a = o_ban b) a b.

Record frame (s s' : st) : Prop := Frame {
  fr_mask : mask (sp s') = mask (sp s);
  fr_director : is_Some (sp_director (sp s)) -> is_Some (sp_director (sp s'));
  fr_obj : keeps_obj (sp_obj (sp s)) (sp_obj (sp s'));
  fr_xids : xids s' = xids s;
  fr_replay : replay (trace s) = held (sp s) -> replay (trace s') = held (sp s')
}.

Lemma keeps_refl a : keeps_obj a a.
Proof. destruct a; constructor; auto. Qed.
Lemma frame_refl s : frame s s.
Proof. constructor; auto using keeps_refl. Qed.
Lemma frame_trans a b c : frame a b -> frame b c -> frame a c.
Proof.
  intros [? ? H ? ?] [? ? H' ? ?]. constructor; try congruence; auto.
  destruct H as [x y [] | ]; inversion H' as [x' y' [] | ]; subst; constructor; split; congruence.
Qed.

(** Reads and updates of a state that is written out. *)
Ltac flat :=
  cbv beta iota delta [RecordSetters.apply_update RecordSetters.constant mask held negb andb id
      unset_be set_core STV_NewObject fmap option_fmap option_map
      set_o_xid set_o_objcore set_o_response set_o_status set_o_cacheable set_o_ttl
      set_o_grace set_o_age set_o_entered set_o_last_lru set_o_last_use set_o_ban
      set_oc_busy set_oc_pass set_sp_step set_sp_fd set_sp_xid set_sp_restarts set_sp_wrk
      set_sp_vcl set_sp_director set_sp_vbe set_sp_obj set_sp_objcore set_sp_objhead
      set_sp_handling set_sp_err_code set_sp_err_reason set_sp_doclose set_sp_sendbody
      set_sp_wantbody set_sp_disable_esi set_sp_request set_sp_t_open set_sp_t_req
      set_sp_t_resp set_sp_t_end set_w_vcl set_w_cacheable set_w_entered set_w_age set_w_ttl
      set_w_grace set_w_do_esi set_w_bereq set_w_beresp set_w_beresp1 set_w_resp
      set_w_lastused oc_id oc_busy oc_pass o_xid o_objcore o_response o_status o_cacheable
      o_ttl o_grace o_age o_entered o_last_lru o_last_use o_ban sp_step sp_fd sp_xid
      sp_restarts sp_esis sp_wrk sp_vcl sp_director sp_vbe sp_obj sp_objcore sp_objhead
      sp_handling sp_err_code sp_err_reason sp_doclose sp_sendbody sp_wantbody
      sp_disable_esi sp_request sp_t_open sp_t_req sp_t_resp sp_t_end w_vcl w_cacheable
      w_entered w_age w_ttl w_grace w_do_esi w_bereq w_beresp w_beresp1 w_resp w_lastused sp
      xids trace] in *.


Lemma wp_the_obj o Q s : sp_obj (sp s) = Some o -> Q o s -> wp the_obj Q s.
Proof. unfold the_obj, wp, mbind, M_bind, gets. intros ->. exact id. Qed.

Lemma wp_next_xid Q s :
  (forall x, Q x (St (sp s) x (trace s))) -> wp next_xid Q s.
Proof. intros H. apply H. Qed.

(** A comparison of two return values. *)
Ltac compare_rets :=
  repeat match goal with
  | |- context [bool_decide (?a = ?b :> vcl_ret)] =>
      let v := eval cbv in (bool_decide (a = b)) in
      lazymatch v with true => idtac | false => idtac end;
      change (bool_decide (a = b)) with v; cbv beta iota
  end.

(** One call of a program, and its steps as long as they are known. *)
Ltac wp1 :=
  lazymatch goal with
  | |- wp (mbind _ _) _ _ => apply wp_bind
  | |- wp (mret _) _ _ => apply wp_ret
  | |- wp (gets _) _ _ => apply wp_gets
  | |- wp (put _) _ _ => apply wp_put
  | |- wp (emit _) _ _ => apply wp_emit
  | |- wp (assert true) _ _ => apply wp_ret
  | |- wp (assert (_ =? _)) _ _ => apply wp_assert; [apply Z.eqb_eq; lia |]
  | |- wp (assert (_ <=? _)) _ _ => apply wp_assert; [apply Z.leb_le; lia |]
  | |- wp (AZ None) _ _ => apply wp_ret
  | |- wp (AN (Some _)) _ _ => apply wp_ret
  | |- wp (deref (Some _)) _ _ => apply wp_ret
  | |- wp (when true _) _ _ => unfold when
  | |- wp (when false _) _ _ => apply wp_ret
  | |- wp next_xid _ _ => apply wp_next_xid; intros ?
  | |- wp (goto _) _ _ => unfold goto
  | |- wp (put_obj _) _ _ => unfold put_obj
  | |- wp the_obj _ _ => unfold the_obj
  end; flat.
Ltac wps := flat; repeat wp1.

Section Methods.
Context (w : world).

(** What a method needs: the time of the request, and the object it may set. *)
Definition ready (m : vcl_met) (s : sess) : Prop :=
  is_Some (sp_t_req s) /\ (m ∈ [VCL_MET_HIT; VCL_MET_ERROR] -> is_Some (sp_obj s)).

#[local] Ltac framed := constructor; flat; auto using keeps_refl.

Lemma Rearm_ok o s :
  sp_obj (sp s) = Some o -> wp (EXP_Rearm o) (fun _ s' => frame s s') s.
Proof.
  destruct s as [[] x t]. flat. intros ->. unfold EXP_Rearm. destruct o as [xid [[i b q] |] ?]; wps; [| framed].
  framed. intros Ht. rewrite replay_snoc, Ht.
  destruct sp_objcore0, sp_objhead0, b; cbn; rewrite ?same_self; reflexivity.
Qed.

(** A change of the object that leaves its core alone. *)
Lemma put_obj_ok f s o :
  sp_obj (sp s) = Some o -> o_objcore (f o) = o_objcore o -> o_ban (f o) = o_ban o ->
  wp (put_obj f) (fun _ s' => frame s s' /\ sp_obj (sp s') = Some (f o) /\
                              sp_t_req (sp s') = sp_t_req (sp s)) s.
Proof.
  destruct s as [[] x t]. flat. intros -> Ec Eb. wps. split; [| split; reflexivity].
  constructor; flat; auto; [by constructor |]. rewrite Ec. auto.
Qed.

Lemma status_text code : 100 <= code <= 999 -> exists r, http_StatusMessage code = Some r.
Proof.
  intros H. unfold http_StatusMessage.
  rewrite (proj2 (Z.leb_le 100 _)), (proj2 (Z.leb_le _ 999)) by lia. eauto.
Qed.

Lemma relative_ok a s t :
  sp_t_req (sp s) = Some t -> wp (relative a) (fun _ s' => s' = s) s.
Proof. intros E. unfold relative. wps. rewrite E. wps. reflexivity. Qed.

Lemma has_obj m s : ready m s -> m ∈ [VCL_MET_HIT; VCL_MET_ERROR] -> exists o, sp_obj s = Some o.
Proof. intros [_ H] Hm. destruct (H Hm) as [o Ho]. eauto. Qed.

Lemma VRT_error_ok m code reason s :
  writable m (Error code reason) ->
  wp (VRT_error code reason) (fun _ s' => frame s s') s.
Proof.
  intros [_ Hw]. destruct s as [[] x t]. unfold VRT_error. wps.
  destruct reason as [r |]; wps; [framed |].
  assert (exists r, http_StatusMessage (if code =? 0 then 503 else code) = Some r) as [r Er].
  { apply status_text. specialize (Hw eq_refl). destruct (Z.eqb_spec code 0); lia. }
  rewrite Er. wps. framed.
Qed.

Lemma put_rearm f s o :
  sp_obj (sp s) = Some o -> (forall o, o_objcore (f o) = o_objcore o) ->
  (forall o, o_ban (f o) = o_ban o) ->
  wp (put_obj f;; EXP_Rearm o) (fun _ s' => frame s s') s.
Proof.
  intros Eo Ec Eb. apply wp_bind. eapply wp_mono; [eapply put_obj_ok; eauto |].
  intros ? s1 (H1 & E1 & _). unfold EXP_Rearm. rewrite <- Ec.
  eapply wp_mono; [exact (Rearm_ok _ _ E1) | intros ? ? H2; exact (frame_trans _ _ _ H1 H2)].
Qed.

Lemma VRT_ok m c s :
  ready m (sp s) -> writable m c -> wp (VRT m c) (fun _ s' => frame s s') s.
Proof.
  intros Hr Hw. pose proof Hr as [[tr Et] _].
  destruct c; [exact (VRT_error_ok m _ _ _ Hw) | ..];
    unfold VRT, VRT_l_req_backend, VRT_l_req_esi, VRT_l_beresp_cacheable, VRT_l_beresp_grace,
      VRT_l_beresp_ttl, VRT_l_obj_ttl, VRT_l_obj_grace, VRT_l_obj_cacheable, VRT_ESI;
    cbn [writable] in *.
  - destruct s as [[] x t]. wps. framed; eauto.
  - destruct s as [[] x t]. wps. framed.
  - destruct s as [[] x t]. wps. framed.
  - destruct s as [[] x t]. wps. framed.
  - apply wp_bind, (wp_mono _ (fun _ s' => s' = s)); [eapply relative_ok; eauto |].
    intros ? ? ->. destruct s as [[] x t]. wps. framed.
  - destruct (has_obj _ _ Hr Hw) as [o Eo]. apply wp_bind, (wp_the_obj o); [exact Eo |].
    destruct (o_objcore o) as [oc |] eqn:Ec; [| apply frame_refl].
    apply wp_bind, (wp_mono _ (fun _ s' => s' = s)); [eapply relative_ok; eauto |].
    intros ? ? ->. eapply put_rearm; eauto.
  - destruct (has_obj _ _ Hr Hw) as [o Eo]. apply wp_bind, (wp_the_obj o); [exact Eo |].
    eapply put_rearm; eauto.
  - destruct (has_obj _ _ Hr) as [o Eo]; [subst; set_solver |].
    eapply wp_mono; [eapply put_obj_ok; eauto |]. by intros ? ? [].
  - destruct s as [[] x t]. apply wp_when; intros _; wps; framed.
Qed.

(** [frame] keeps what a method needs. *)
Lemma frame_t_req s s' : frame s s' -> sp_t_req (sp s') = sp_t_req (sp s).
Proof. intros [H _ _ _ _]. exact (f_equal sp_t_req H). Qed.
Lemma frame_ready m s s' : frame s s' -> ready m (sp s) -> ready m (sp s').
Proof.
  intros F [Ht Ho]. split; [by rewrite (frame_t_req _ _ F) |].
  intros Hm. destruct (Ho Hm) as [o Eo]. destruct F as [_ _ F _ _].
  rewrite Eo in F. inversion F; eauto.
Qed.

Lemma VRTs_ok m cs s :
  ready m (sp s) -> Forall (writable m) cs -> wp (VRTs m cs) (fun _ s' => frame s s') s.
Proof.
  intros Hr Hw. revert s Hr. induction Hw as [| c cs Hc _ IH]; intros s Hr; cbn [VRTs];
    [apply wp_ret, frame_refl |].
  apply wp_bind. eapply wp_mono; [exact (VRT_ok _ _ _ Hr Hc) |]. intros ? s1 H1.
  eapply wp_mono; [exact (IH _ (frame_ready _ _ _ H1 Hr)) |].
  intros ? s2 H2. exact (frame_trans _ _ _ H1 H2).
Qed.

Lemma set_handling_ok h s :
  wp (put (fun s => s <| sp_handling := h |>)) (fun _ s' => frame s s') s.
Proof. destruct s as [[] x t]. wps. framed. Qed.

(** A method returns what the program decided and keeps the rest. *)
Lemma VCL_method_ok m s :
  ready m (sp s) -> Forall (writable m) (v_does (vcl w m)) -> v_ret (vcl w m) ∈ bitmap m ->
  wp (VCL_method w m) (fun r s' => r = v_ret (vcl w m) /\ frame s s') s.
Proof.
  intros Hr Hw Hb. unfold VCL_method. apply wp_bind.
  eapply wp_mono; [apply set_handling_ok |]. intros ? s1 H1. apply wp_bind.
  eapply wp_mono; [exact (VRTs_ok _ _ _ (frame_ready _ _ _ H1 Hr) Hw) |].
  intros ? s2 H2. apply wp_bind.
  eapply wp_mono; [apply set_handling_ok |]. intros ? s3 H3.
  pose proof (frame_trans _ _ _ H1 (frame_trans _ _ _ H2 H3)) as [E1 E2 E3 E4 E5].
  apply wp_bind, wp_emit, wp_bind, wp_assert; [by apply bool_decide_true |]. apply wp_ret.
  split; [reflexivity |]. constructor; auto. cbn [trace sp]. intros Ht. rewrite replay_snoc, (E5 Ht).
  destruct (held (sp s3)) as [[] |]; reflexivity.
Qed.

End Methods.


(** ** The steps, one by one *)
Section Steps.
Context (p : params) (w : world).

#[local] Ltac shapes :=
  cbv beta iota delta [shape received running idle empty owns_core owns_obj] in *.

(** Takes a session apart along the table. *)
#[local] Ltac parts :=
  repeat match goal with
  | H : _ /\ _ |- _ => destruct H
  | H : exists _, _ |- _ => destruct H
  | H : is_Some ?x |- _ => destruct H
  | o : object |- _ => destruct o
  end; flat; subst.

#[local] Ltac traced :=
  rewrite ?replay_snoc;
  match goal with H : replay ?t = Some _ |- context [replay ?t] => rewrite H end;
  repeat progress (cbn; unfold same; rewrite ?Z.eqb_refl); reflexivity.
(** A row of the table. *)
#[local] Ltac table :=
  shapes; flat;
  repeat lazymatch goal with
  | |- _ /\ _ => split
  | |- _ \/ _ => first [left; solve [table] | right]
  | |- exists _, _ => eexists
  | |- is_Some (Some _) => eexists; reflexivity
  | |- last _ = _ => apply last_snoc
  | |- _ = _ => first [reflexivity | assumption | solve [traced]]
  end; try lia.

#[local] Ltac open_step :=
  let s := fresh "s" in
  intros s [Hw Hv He Hr Hs Ht] Hx Ho;
  destruct s as [[] x t]; flat; subst; shapes; flat; parts; cbv beta iota in Ht.

(** A method of the program: its verdict, and the state it leaves. *)
Lemma handled_in m r : handled m r -> bool_decide (r ∈ bitmap m) = true.
Proof. intros [H _]. by apply bool_decide_true. Qed.

#[local] Ltac ready := split; [eexists; reflexivity | intros ?; first [eexists; reflexivity | set_solver]].
#[local] Ltac method :=
  lazymatch goal with
  | Ho : obeys _ w |- wp (VCL_method w ?m) _ _ =>
      let r := fresh "r" in let s := fresh "s" in let F := fresh "F" in
      let Hin := fresh "Hin" in let Hh := fresh "Hh" in
      let Fd := fresh "Fd" in let Fo := fresh "Fo" in let Fx := fresh "Fx" in
      let Ft := fresh "Ft" in
      pose proof (ob_ret _ _ Ho m) as Hh;
      eapply wp_mono;
      [ apply VCL_method_ok; [ready | exact (ob_does _ _ Ho m) | exact (proj1 Hh)] |];
      intros r s [-> F]; pose proof (handled_in _ _ Hh) as Hin; apply proj2 in Hh;
      destruct s as [[] ? ?]; destruct F as [F Fd Fo Fx Ft]; flat;
      injection F as; subst; try specialize (Ft ltac:(first [eassumption | solve [traced]]));
      try (destruct (Fd (ex_intro _ _ eq_refl)); subst); clear Fd;
      inversion Fo; subst; clear Fo; parts; cbv beta iota in Ft;
      destruct (v_ret (vcl w m)) eqn:?; try discriminate Hin; try destruct Hh; clear Hin;
      compare_rets; wps
  end.

(** The end of a step: the tables, the trace and the measure. *)
#[local] Ltac close_step :=
  cbv beta iota; lazymatch goal with |- post _ _ _ _ => split end;
  [ constructor; flat; first [reflexivity | solve [table] | idtac]
  | unfold measure; cbn; intros; try done; try lia ].

Lemma cnt_first_ok s :
  inv p s -> sp_step (sp s) = STP_FIRST -> obeys (sp s) w -> wp cnt_first (post p (sp s)) s.
Proof.
  revert s. open_step. unfold cnt_first. wps. close_step. 
Qed.

Lemma cnt_pass_ok s :
  inv p s -> sp_step (sp s) = STP_PASS -> obeys (sp s) w -> wp (cnt_pass w) (post p (sp s)) s.
Proof. revert s. open_step. unfold cnt_pass. wps. method; close_step. Qed.

Lemma cnt_pipe_ok s :
  inv p s -> sp_step (sp s) = STP_PIPE -> obeys (sp s) w -> wp (cnt_pipe w) (post p (sp s)) s.
Proof.
  revert s. open_step. unfold cnt_pipe. wps. method.
  unfold PipeSession, vca_close_session. wps.
  destruct (backend w); wps; [destruct (gone w); wps |]; close_step.
Qed.

Lemma cnt_miss_ok s :
  inv p s -> sp_step (sp s) = STP_MISS -> obeys (sp s) w -> wp (cnt_miss w) (post p (sp s)) s.
Proof. revert s. open_step. unfold cnt_miss. wps. method; unfold HSH_DerefObjCore; wps; close_step. Qed.

Lemma cnt_hit_ok s :
  inv p s -> sp_step (sp s) = STP_HIT -> obeys (sp s) w -> wp (cnt_hit w) (post p (sp s)) s.
Proof.
  revert s. open_step. unfold cnt_hit. wps. apply wp_ret. flat.
  method; unfold HSH_Deref; wps; close_step.
Qed.

Lemma cnt_lookup_ok s :
  inv p s -> sp_step (sp s) = STP_LOOKUP -> obeys (sp s) w -> wp (cnt_lookup w) (post p (sp s)) s.
Proof.
  revert s. open_step. unfold cnt_lookup, HSH_Lookup. wps.
  destruct (hsh_lookup w) as [o [i b q] | oc oh | oh] eqn:E; wps.
  - pose proof (ob_hit _ _ Ho _ _ E) as Hb. flat. subst b.
    destruct o, q; wps; unfold HSH_Deref; wps; destruct sp_objhead0; close_step.
  - destruct sp_objhead0; close_step.
  - destruct sp_objhead0; close_step.
Qed.

Lemma cnt_recv_ok s :
  inv p s -> sp_step (sp s) = STP_RECV -> obeys (sp s) w -> wp (cnt_recv p w) (post p (sp s)) s.
Proof.
  revert s. open_step. unfold cnt_recv. wps.
  method; (destruct (Z.leb_spec (max_restarts p) sp_restarts0); wps; [close_step |]);
    method; try solve [close_step].
  destruct (Z.ltb_spec 0 sp_esis0); [destruct (ob_pipe _ _ Ho); auto | wps; close_step].
Qed.

Lemma cnt_start_ok s :
  inv p s -> sp_step (sp s) = STP_START -> obeys (sp s) w -> wp (cnt_start w) (post p (sp s)) s.
Proof.
  revert s. open_step. unfold cnt_start. wps.
  destruct (Z.ltb_spec (dissect w) 0) as [E | E]; wps; [unfold vca_close_session; wps; close_step |].
  destruct (ob_dissect _ _ Ho E) as [m Em]. rewrite Em.
  destruct (dissect w =? 0); wps; [| close_step].
  destruct (expect w); wps; [destruct (streq _ _); wps |]; close_step.
Qed.

Lemma cnt_wait_ok s :
  inv p s -> sp_step (sp s) = STP_WAIT -> obeys (sp s) w -> wp (cnt_wait p w) (post p (sp s)) s.
Proof.
  revert s. open_step. unfold cnt_wait.
  set (i := if _ && _ then _ else htc_complete w).
  assert (i <> -2) as Hi.
  { unfold i. pose proof (ob_complete _ _ Ho). pose proof (ob_rx _ _ Ho). repeat case_match; lia. }
  clearbody i. wps.
  destruct (i =? 0); wps.
  - unfold vca_return_session, vca_close_session. wps. destruct (hangup w); wps; close_step.
  - destruct (i =? 1); wps; [close_step |]. destruct (Z.eqb_spec i (-2)); wps; [easy |].
    unfold vca_close_session; wps; close_step.
Qed.

Lemma cnt_done_ok s :
  inv p s -> sp_step (sp s) = STP_DONE -> obeys (sp s) w -> wp (cnt_done p w) (post p (sp s)) s.
Proof.
  revert s. open_step. unfold cnt_done, vca_return_session, vca_close_session, SES_Delete. wps.
  destruct (Z.ltb_spec 0 sp_esis0); wps; [close_step |].
  assert (sp_esis0 = 0) as -> by lia. change (0 =? 0) with true. wps.
  destruct sp_doclose0; wps; [destruct (Z.leb_spec 0 sp_fd0); wps |];
    (match goal with |- context [?a <? 0] => destruct (Z.ltb_spec a 0) end; wps); try lia;
    [close_step .. |].
  destruct (htc_reinit w =? 1); wps; [close_step |].
  destruct (rx_len w =? 0); wps; [| close_step].
  destruct (0 <? session_linger p); wps; [close_step |].
  destruct (hangup w); wps; close_step.
Qed.

(** Delivery leaves alone what the session holds, also through ESI includes. *)
Definition same_hold (a b : sess) : Prop :=
  sp_obj b = sp_obj a /\ sp_objcore b = sp_objcore a /\ sp_objhead b = sp_objhead a /\
  sp_vcl b = sp_vcl a /\ sp_vbe b = sp_vbe a /\ sp_esis b = sp_esis a /\
  sp_wrk b = sp_wrk a /\ (sp_restarts a = 0 -> sp_restarts b = 0).

Lemma same_hold_held a b : same_hold a b -> held b = held a.
Proof. intros (E1 & E2 & E3 & _). unfold held. by rewrite E1, E2, E3. Qed.

Lemma held_ref a o :
  sp_obj a = Some o -> is_Some (held a) ->
  held a = Some (match o_objcore o with None => HPrivate | Some oc => HRef (oc_id oc) end).
Proof.
  unfold held. intros ->. destruct (sp_objcore a), (sp_objhead a); try by intros [? [=]].
  destruct (o_objcore o) as [[i [] q] |]; [by intros [? [=]] | done..].
Qed.

Lemma RES_WriteObj_ok u s :
  obeys u w -> is_Some (sp_obj (sp s)) -> is_Some (held (sp s)) -> replay (trace s) = held (sp s) ->
  wp (RES_WriteObj w) (fun _ s' => same_hold (sp s) (sp s') /\ replay (trace s') = held (sp s')) s.
Proof.
  intros Ho [o Eo] Hh Ht. pose proof (held_ref _ _ Eo Hh) as E. rewrite E in Ht.
  unfold RES_WriteObj. apply wp_bind, (wp_the_obj o); [exact Eo |].
  apply wp_bind, wp_emit, wp_bind, wp_gets. cbv beta.
  assert (forall s', same_hold (sp s) s' -> replay (trace s ++ [EWriteObj (obj_core o)]) = held s') as H.
  { intros s' H. rewrite (same_hold_held _ _ H), E, replay_snoc, Ht. unfold obj_core.
    destruct (o_objcore o) as [oc |]; cbn; rewrite ?same_self; reflexivity. }
  assert (wp (vca_close_session (bs "remote closed"))
             (fun _ s' => same_hold (sp s) (sp s') /\ replay (trace s') = held (sp s'))
             (St (sp s) (xids s) (trace s ++ [EWriteObj (obj_core o)]))) as Hc.
  { assert (same_hold (sp s) ((sp s) <| sp_fd := -1 |>)) as K by (by destruct (sp s)).
    apply wp_bind, wp_emit, wp_put. split; [exact K |]. cbn [trace sp].
    rewrite replay_snoc, (H _ K). by destruct (held _) as [[] |]. }
  assert (same_hold (sp s) (sp s)) as K by done.
  destruct (negb _ && _ && _); destruct (gone w); cbn [when]; try exact Hc.
  - apply wp_put. pose proof (ob_esi _ _ Ho (sp s)) as K'. split; [exact K' | exact (H _ K')].
  - apply wp_ret. split; [exact K | exact (H _ K)].
Qed.

#[local] Ltac deliver :=
  eapply wp_mono;
  [ eapply RES_WriteObj_ok; [eassumption | by eexists.. |]; flat; first [eassumption | solve [traced]] |];
  intros ? [[] ? ?] [K T]; cbv beta iota delta [same_hold] in K; flat; parts; wps;
  unfold HSH_Deref; wps; close_step.

Lemma cnt_deliver_ok s :
  inv p s -> sp_step (sp s) = STP_DELIVER -> obeys (sp s) w -> wp (cnt_deliver p w) (post p (sp s)) s.
Proof.
  revert s. open_step. unfold cnt_deliver.
  match goal with H : _ \/ _ |- _ => destruct H end; parts; wps.
  - method. deliver.
  - destruct (_ <? _); wps; [destruct (touched w); wps |]; method; deliver.
Qed.

Lemma cnt_error_ok s :
  inv p s -> sp_step (sp s) = STP_ERROR -> obeys (sp s) w -> wp (cnt_error p w) (post p (sp s)) s.
Proof.
  revert s. open_step. unfold cnt_error. wps.
  assert (exists r, http_StatusMessage (if (sp_err_code0 <? 100) || (999 <? sp_err_code0)
                                        then 501 else sp_err_code0) = Some r) as [r Er].
  { apply status_text. destruct (Z.ltb_spec sp_err_code0 100), (Z.ltb_spec 999 sp_err_code0); cbn; lia. }
  rewrite Er. clear Er. set (code := if _ || _ then _ else _). clearbody code.
  destruct sp_err_reason0; wps; (method; [close_step |]);
    (destruct (Z.ltb_spec sp_restarts0 (max_restarts p)); wps; [| close_step]);
    unfold HSH_Drop, HSH_Deref; wps; apply wp_ret; close_step.
Qed.

(** *** Fetching

    Between its calls [cnt_fetch] holds a backend connection, then an object
    without a body that nobody else can see. *)
Definition fetching (s : st) : Prop :=
  sp_step (sp s) = STP_FETCH /\ sp_wrk (sp s) = true /\ 0 <= sp_esis (sp s) /\
  0 <= sp_restarts (sp s) <= max_restarts p /\ received p (sp s) /\
  (empty (sp s) \/ owns_core (sp s)) /\ replay (trace s) = held (sp s).

Definition hollow (s : st) : Prop :=
  sp_step (sp s) = STP_FETCH /\ sp_wrk (sp s) = true /\ 0 <= sp_esis (sp s) /\
  0 <= sp_restarts (sp s) <= max_restarts p /\ received p (sp s) /\
  owns_obj (sp s) (fun o =>
    (o_objcore o = None /\ w_cacheable (sp s) = false /\ replay (trace s) = Some HPrivate) \/
    (exists i q, o_objcore o = Some (Objcore i true q) /\ w_cacheable (sp s) = true /\
                 o_ban o = true /\ replay (trace s) = Some (HBusy i true false false))).

#[local] Ltac close_fetch := unfold fetching, hollow; table.

Lemma fetch_headers_ok s :
  inv p s -> sp_step (sp s) = STP_FETCH -> obeys (sp s) w ->
  wp (fetch_headers w) (fun h s' =>
    fetching s' /\ sp_restarts (sp s') = sp_restarts (sp s) /\
    match h with
    | Some r => r = v_ret (vcl w VCL_MET_FETCH)
    | None => empty (sp s') /\ sp_vbe (sp s') = None
    end) s.
Proof.
  revert s. open_step. unfold fetch_headers, FetchHdr. 
  match goal with H : _ \/ _ |- _ => destruct H end; parts; wps.
  all: destruct (backend w); wps; [destruct (fetch_hdr w); wps |]. 
  - method. all: close_fetch.
  - close_fetch. 
  - close_fetch.
  - method. all: close_fetch. 
  - unfold HSH_DerefObjCore; wps. close_fetch.
  - unfold HSH_DerefObjCore; wps. close_fetch.
Qed.

Lemma fetch_object_ok u s :
  fetching s -> obeys u w ->
  wp (fetch_object w) (fun _ s' => hollow s' /\ sp_restarts (sp s') = sp_restarts (sp s)) s.
Proof.
  intros (Hx & Hw & He & Hr & Hs & Hc & Ht) Ho.
  destruct s as [[] x t]; flat; subst; shapes; flat; parts; cbv beta iota in Ht.
  unfold fetch_object. 
  match goal with H : _ \/ _ |- _ => destruct H end; parts; wps.
  - close_fetch.
  - destruct w_cacheable0; wps; [| unfold HSH_DerefObjCore; wps; close_fetch].
    destruct (vary w) as [l |] eqn:E; wps; [| close_fetch].
    apply wp_assert; [apply Z.ltb_lt, (ob_vary _ _ Ho _ E) | wps; close_fetch].
Qed.

Lemma fetch_finish_ok u s :
  hollow s -> obeys u w ->
  wp (fetch_finish p w (v_ret (vcl w VCL_MET_FETCH))) (post p (sp s)) s.
Proof.
  intros (Hx & Hw & He & Hr & Hs & Hc & Hd & Hh) Ho.
  destruct s as [[] x t]; flat; subst; shapes; flat; parts.
  unfold fetch_finish, FetchBody, HSH_Drop, HSH_Unbusy, HSH_Deref.
  pose proof (handled_in _ _ (ob_ret _ _ Ho VCL_MET_FETCH)) as Hin.
  match goal with H : _ \/ _ |- _ => destruct H end; parts; wps;
    (destruct (fetch_body w); wps; [| close_step]);
    (destruct (v_ret (vcl w VCL_MET_FETCH)); try discriminate Hin; clear Hin; wps; close_step).
Qed.

Lemma post_same a b done s' :
  sp_step a = sp_step b -> sp_restarts a = sp_restarts b -> post p a done s' -> post p b done s'.
Proof. unfold post, measure. intros -> ->. exact id. Qed.

Lemma cnt_fetch_ok s :
  inv p s -> sp_step (sp s) = STP_FETCH -> obeys (sp s) w -> wp (cnt_fetch p w) (post p (sp s)) s.
Proof.
  intros Hi Hx Ho. apply wp_bind. eapply wp_mono; [exact (fetch_headers_ok _ Hi Hx Ho) |].
  intros [r |] s1 (F & Er & H); cbv beta iota.
  - subst r. apply wp_bind. eapply wp_mono; [exact (fetch_object_ok _ _ F Ho) |].
    intros ? s2 [H2 Er2]. eapply wp_mono; [exact (fetch_finish_ok _ _ H2 Ho) |].
    intros. eapply post_same; [| | eassumption].
    + destruct H2 as [-> _]. by rewrite Hx.
    + congruence.
  - destruct F as (Ex & Hw & He & Hr & Hs & _ & Ht), H as [Hn Hv].
    apply (post_same (sp s1)); [by rewrite Hx | exact Er |].
    destruct s1 as [[] x t]. flat. subst. shapes. flat. parts. wps. close_step.
Qed.

(** Every step is correct. *)
Lemma turn_ok s : inv p s -> obeys (sp s) w -> wp (turn p w) (post p (sp s)) s.
Proof.
  intros Hi Ho. unfold turn. apply wp_bind, wp_gets, wp_bind, wp_assert; [exact (inv_wrk _ _ Hi) |].
  apply wp_bind, wp_gets. destruct (sp_step (sp s)) eqn:Hx; cbn [cnt_step];
    [ apply cnt_wait_ok | apply cnt_first_ok | apply cnt_recv_ok | apply cnt_start_ok
    | apply cnt_pipe_ok | apply cnt_pass_ok | apply cnt_lookup_ok | apply cnt_miss_ok
    | apply cnt_hit_ok | apply cnt_fetch_ok | apply cnt_deliver_ok | apply cnt_error_ok
    | apply cnt_done_ok ]; assumption.
Qed.
End Steps.

(** ** Runs *)
Section Runs.
Context (p : params).

(** The answers of every turn fit the session that turn finds. *)
Definition obeyed (ws : nat -> world) (s : st) : Prop :=
  forall i s', turns p ws i s = Some (false, s') -> obeys (sp s') (ws i).

Lemma obeyed_0 ws s : obeyed ws s -> obeys (sp s) (ws O).
Proof. intros H. exact (H O s eq_refl). Qed.

Lemma turns_S ws n s :
  turns p ws (S n) s =
  match turn p (ws O) s with
  | Some (true, s') => Some (true, s')
  | Some (false, s') => turns p (fun i => ws (S i)) n s'
  | None => None
  end.
Proof. cbn [turns]. unfold mbind, M_bind. destruct (turn p (ws O) s) as [[[] s'] |]; reflexivity. Qed.

Lemma obeyed_S ws s s' :
  obeyed ws s -> turn p (ws O) s = Some (false, s') -> obeyed (fun i => ws (S i)) s'.
Proof. intros H E i s1 H1. apply H. rewrite turns_S, E. exact H1. Qed.

Lemma turn_some ws s :
  inv p s -> obeyed ws s -> exists done s', turn p (ws O) s = Some (done, s') /\ post p (sp s) done s'.
Proof.
  intros Hi Ho. pose proof (turn_ok p _ _ Hi (obeyed_0 _ _ Ho)) as H. unfold wp in H.
  destruct (turn p (ws O) s) as [[d s'] |]; [eauto | contradiction].
Qed.

(** No number of turns aborts, and the table holds after each. *)
Lemma turns_ok n : forall ws s,
  inv p s -> obeyed ws s ->
  exists done s', turns p ws n s = Some (done, s') /\ (if done then left p s' else inv p s').
Proof.
  induction n as [| n IH]; intros ws s Hi Ho; [exists false, s; auto |].
  destruct (turn_some _ _ Hi Ho) as (d & s1 & E & H & _). rewrite turns_S, E.
  destruct d; [eauto |]. exact (IH _ _ H (obeyed_S _ _ _ Ho E)).
Qed.

Lemma measure_start s : inv p s -> in_request (sp_step (sp s)) = true ->
  0 < measure p (sp s) <= 8 * (max_restarts p + 1).
Proof.
  intros [_ _ _ Hr _ _]. unfold measure.
  destruct (sp_step (sp s)); cbn [rank]; cbn; intros Hx; try discriminate Hx; lia.
Qed.

(** Between requests nothing is counted. *)
Lemma not_in_request s : inv p s -> in_request (sp_step (sp s)) = false ->
  measure p (sp s) <= 8 * (max_restarts p + 1) -> sp_step (sp s) = STP_DONE.
Proof.
  intros [_ _ _ _ Hs _]. unfold measure, shape in *.
  destruct (sp_step (sp s)); cbn; try done; destruct Hs as (_ & _ & _ & _ & -> & _); lia.
Qed.

(** The table always has an answer to what the session holds. *)
Lemma empty_held s : empty s -> held s = Some HNothing.
Proof. unfold held. by intros (-> & -> & ->). Qed.
Lemma owns_core_held s : owns_core s -> is_Some (held s).
Proof. unfold held. intros (-> & i & q & oh & -> & ->). cbn. eauto. Qed.
Lemma owns_obj_held s P :
  owns_obj s P -> (forall o, P o -> forall oc, o_objcore o = Some oc -> oc_busy oc = false) ->
  is_Some (held s).
Proof.
  unfold held. intros (-> & -> & o & -> & Ho) H. specialize (H _ Ho).
  destruct (o_objcore o) as [oc |]; [rewrite (H _ eq_refl) |]; eauto.
Qed.

Lemma inv_holds s : inv p s -> is_Some (replay (trace s)).
Proof.
  intros [_ _ _ _ Hs ->]. unfold shape, idle in Hs.
  destruct (sp_step (sp s));
    try solve [rewrite empty_held by tauto; eauto]; try solve [apply owns_core_held; tauto].
  - unfold held. destruct Hs as (_ & -> & ->). destruct (sp_objhead (sp s)); eauto.
  - eapply owns_obj_held; [apply Hs |]. intros o (i & ->) ? [= <-]. reflexivity.
  - destruct Hs as [_ [H | H]]; [rewrite empty_held by assumption; eauto | by apply owns_core_held].
  - eapply owns_obj_held; [apply Hs |]. intros o [-> | (i & q & ->)] ? [= <-]. reflexivity.
Qed.
Lemma left_holds s : left p s -> is_Some (replay (trace s)).
Proof.
  intros [-> H]. destruct H as [(_ & _ & _ & [oh Eh] & Eo & Ec) | H].
  - unfold held. rewrite Eo, Ec, Eh. eauto.
  - rewrite empty_held; [eauto |]. destruct H as [H | H]; apply H.
Qed.

(** A request ends within its measure. *)
Lemma request_done n : forall ws s,
  inv p s -> obeyed ws s -> measure p (sp s) <= Z.of_nat n ->
  measure p (sp s) <= 8 * (max_restarts p + 1) ->
  exists k d s', (k <= n)%nat /\ turns p ws k s = Some (d, s') /\
    (if d then left p s' else inv p s' /\ sp_step (sp s') = STP_DONE).
Proof.
  induction n as [| n IH]; intros ws s Hi Ho Hm Hb;
    (destruct (in_request (sp_step (sp s))) eqn:Hx;
      [| exists O, false, s; split; [lia | auto using not_in_request]]).
  - exfalso. destruct (measure_start _ Hi Hx). lia.
  - destruct (turn_some _ _ Hi Ho) as (d & s1 & E & H & Hd). destruct d.
    + exists 1%nat, true, s1. rewrite turns_S, E. split; [lia | auto].
    + specialize (Hd Hx eq_refl).
      destruct (IH _ _ H (obeyed_S _ _ _ Ho E)) as (k & d & s2 & Hk & E2 & H2); [lia.. |].
      exists (S k), d, s2. rewrite turns_S, E. split; [lia | auto].
Qed.

End Runs.

(** *** What the automaton says about a trace *)

Definition done_before (oc : Z) (b f t : bool) (l : list event) : Prop :=
  (b = true -> EBan_NewObj oc ∈ l) /\ (f = true -> EFetchBody (Some oc) ∈ l) /\
  (t = true -> EEXP_Insert oc ∈ l).

Lemma replay_history l :
  match replay l with
  | Some (HBusy oc b f t) => done_before oc b f t l
  | Some (HDoomed oc _) => EDoom oc ∈ l
  | _ => True
  end.
Proof.
  unfold done_before. induction l as [| e l IH] using rev_ind; [exact I |].
  rewrite replay_snoc. destruct (replay l) as [h |]; [| exact I]. cbn [mbind option_bind].
  assert (forall x, x ∈ l -> x ∈ l ++ [e]) as W by (intros; apply elem_of_app; auto).
  assert (e ∈ l ++ [e]) as E by (apply elem_of_app; right; constructor).
  destruct h, e; cbn [act]; try exact I;
    repeat match goal with
    | |- context [match ?b with true => _ | false => _ end] => is_var b; destruct b; try exact I
    | |- context [match ?o with Some _ => _ | None => _ end] => is_var o; destruct o; try exact I
    end; unfold same;
    repeat match goal with |- context [?a =? ?b] => destruct (Z.eqb_spec a b); try exact I; subst end;
    intuition auto; try discriminate.
Qed.

Lemma published oc l1 l2 :
  is_Some (replay (l1 ++ EUnbusy oc :: l2)) ->
  EDoom oc ∈ l1 \/
  EBan_NewObj oc ∈ l1 /\ EFetchBody (Some oc) ∈ l1 /\ EEXP_Insert oc ∈ l1.
Proof.
  replace (l1 ++ EUnbusy oc :: l2) with ((l1 ++ [EUnbusy oc]) ++ l2) by (by rewrite <- app_assoc).
  intros [h H]. assert (is_Some (replay (l1 ++ [EUnbusy oc]))) as [h' H'].
  { unfold replay in *. rewrite fold_left_app in H.
    destruct (fold_left _ (l1 ++ [EUnbusy oc]) _); [eauto |].
    exfalso. clear -H. induction l2; [discriminate | auto]. }
  rewrite replay_snoc in H'. pose proof (replay_history l1) as Hl.
  destruct (replay l1) as [[] |]; try discriminate H'; cbn in H'.
  - destruct banned, filled, timed; try discriminate H'. unfold same in H'.
    destruct (Z.eqb_spec oc oc0); [subst | discriminate]. right. destruct Hl as (? & ? & ?). auto.
  - destruct busy; [| discriminate]. unfold same in H'.
    destruct (Z.eqb_spec oc oc0); [subst; auto | discriminate].
Qed.

(** ** What the engine promises *)


(** C24: A request that has begun reaches its last step, or leaves the worker
    for a busy object, within [8 * (max_restarts + 1)] turns, however often the
    VCL program asks for a restart. *)
Theorem request_ends p ws s :
  inv p s -> in_request (sp_step (sp s)) = true -> obeyed p ws s ->
  exists k d s', Z.of_nat k <= 8 * (max_restarts p + 1) /\ turns p ws k s = Some (d, s') /\
    (if d then left p s' else inv p s' /\ sp_step (sp s') = STP_DONE).
Proof.
  intros Hi Hx Ho. destruct (measure_start _ _ Hi Hx) as [H0 H1].
  destruct (request_done p (Z.to_nat (measure p (sp s))) ws s Hi Ho) as (k & d & s' & Hk & E);
    [lia | lia |]. exists k, d, s'. split; [lia | exact E].
Qed.

(** C23: An object becomes visible to other sessions ([HSH_Unbusy] wakes them)
    only in one of two ways: complete, when this session has given it its
    reference to the newest ban, its whole body and its timer; or, when the
    fetch failed or VCL rejected it, marked so that no lookup will find it. *)
Theorem unbusy_complete p ws n s d s' oc l1 l2 :
  inv p s -> obeyed p ws s -> turns p ws n s = Some (d, s') ->
  trace s' = l1 ++ EUnbusy oc :: l2 ->
  EDoom oc ∈ l1 \/ EBan_NewObj oc ∈ l1 /\ EFetchBody (Some oc) ∈ l1 /\ EEXP_Insert oc ∈ l1.
Proof.
  intros Hi Ho E Et. destruct (turns_ok p n _ _ Hi Ho) as (d1 & s1 & E1 & H).
  rewrite E in E1. injection E1 as <- <-. apply (published oc l1 l2). rewrite <- Et.
  destruct d; [exact (left_holds _ _ H) | exact (inv_holds _ _ H)].
Qed.

(** ** Concrete runs *)

Definition p0 : params := Params 50 4 2 120.

(** A client asks for a page that is not in the cache; the program is the
    default one, and the backend has the page. *)
Definition default_vcl (m : vcl_met) : vcl_ret :=
  match m with
  | VCL_MET_RECV => VCL_RET_LOOKUP
  | VCL_MET_PIPE => VCL_RET_PIPE
  | VCL_MET_PASS => VCL_RET_PASS
  | VCL_MET_HASH => VCL_RET_HASH
  | VCL_MET_MISS => VCL_RET_FETCH
  | VCL_MET_HIT | VCL_MET_FETCH | VCL_MET_DELIVER | VCL_MET_ERROR => VCL_RET_DELIVER
  end.

(** A world with a verdict of its own for one method. *)
Definition world_with (m : vcl_met) (v : verdict) : world :=
  World (1000 * sec) (fun m' => if bool_decide (m' = m) then v else Verdict [] (default_vcl m'))
    1 1 1 0 true 0 false 3 0 (Some (bs "GET")) None None 4 (Miss 5 6) (Some 7) true 200
    (1120 * sec) 0 None true true false false id.

Definition w0 : world := world_with VCL_MET_RECV (Verdict [] VCL_RET_LOOKUP).

Definition sess0 : sess :=
  Sess STP_START 9 0 0 0 true None None None None None None None 0 None None false false false
    None (Some 0) None None None None false 0 0 0 None false false false false false None.
Definition st0 : st := St sess0 0 [].

Lemma w0_obeys s : obeys s w0.
Proof.
  constructor; try done.
  - intros []; constructor.
  - intros []; (split; [| exact I]); apply (bool_decide_unpack _); vm_compute; exact I.
Qed.
Lemma st0_inv : inv p0 st0.
Proof. constructor; cbn; try done; repeat split; lia. Qed.


Lemma request_ends_witness :
  exists k d s', Z.of_nat k <= 8 * (max_restarts p0 + 1) /\
    turns p0 (fun _ => w0) k st0 = Some (d, s') /\
    (if d then left p0 s' else inv p0 s' /\ sp_step (sp s') = STP_DONE).
Proof. apply (request_ends p0 _ st0 st0_inv eq_refl). intros i s' _. apply w0_obeys. Defined.

(** The calls of the run, up to the delivery. *)
Definition before : list event :=
  [EVcl VCL_MET_RECV VCL_RET_LOOKUP; EVcl VCL_MET_HASH VCL_RET_HASH; ELookup_miss 5 6;
   EVcl VCL_MET_MISS VCL_RET_FETCH; EVcl VCL_MET_FETCH VCL_RET_DELIVER; ENewObject (Some 5);
   EBan_NewObj 5; EFetchBody (Some 5); EHSH_Object 5; EEXP_Insert 5].
Definition after : list event :=
  [EEXP_Touch 5; EVcl VCL_MET_DELIVER VCL_RET_DELIVER; EWriteObj (Some 5); EDeref (Some 5)].

Lemma unbusy_complete_witness :
  EDoom 5 ∈ before \/
  EBan_NewObj 5 ∈ before /\ EFetchBody (Some 5) ∈ before /\ EEXP_Insert 5 ∈ before.
Proof.
  eapply (unbusy_complete p0 (fun _ => w0) 6 st0 _ _ 5 before after st0_inv);
    [intros i s' _; apply w0_obeys | vm_compute; reflexivity | reflexivity].
Defined.

(** ** What the engine does not handle *)

(** [include/vcl_returns.h] lets these methods return what the steps abort on. *)
Definition aborts (m : vcl_met) (r : vcl_ret) (recv : vcl_ret) (n : nat) : Prop :=
  r ∈ bitmap m /\
  turns p0 (fun i => if (i <? 2)%nat then world_with VCL_MET_RECV (Verdict [] recv)
                     else world_with m (Verdict [] r)) n st0 = None.

Example restart_in_deliver : aborts VCL_MET_DELIVER VCL_RET_RESTART VCL_RET_PASS 6.
Proof. split; [apply (bool_decide_unpack _); vm_compute; exact I | vm_compute; reflexivity]. Qed.
Example restart_in_miss : aborts VCL_MET_MISS VCL_RET_RESTART VCL_RET_LOOKUP 4.
Proof. split; [apply (bool_decide_unpack _); vm_compute; exact I | vm_compute; reflexivity]. Qed.
Example restart_in_pass : aborts VCL_MET_PASS VCL_RET_RESTART VCL_RET_PASS 4.
Proof. split; [apply (bool_decide_unpack _); vm_compute; exact I | vm_compute; reflexivity]. Qed.
Example error_in_pipe : aborts VCL_MET_PIPE VCL_RET_ERROR VCL_RET_PIPE 4.
Proof. split; [apply (bool_decide_unpack _); vm_compute; exact I | vm_compute; reflexivity]. Qed.

(** [error 42;] without a text: the message is looked up before the code is
    checked. *)
Example error_without_text :
  VRT VCL_MET_RECV (Error 42 None) st0 = None /\
  http_StatusMessage 42 = None.
Proof. split; reflexivity. Qed.

(** A request header that overflows the workspace: [cnt_wait] closes the
    connection but stays in its step, and the next turn aborts when it hands
    the closed session back. *)
Definition waiting (complete poll rx : Z) : world :=
  World (1000 * sec) (fun m => Verdict [] (default_vcl m)) complete poll rx 0 true 0 false 3
    0 (Some (bs "GET")) None None 4 (Miss 5 6) (Some 7) true 200 (1120 * sec) 0 None true true
    false false id.
Definition st_wait : st := St (sess0 <| sp_step := STP_WAIT |>) 0 [].

Example overflow_keeps_waiting :
  turn p0 (waiting 0 1 (-2)) st_wait =
    Some (false, St (sess0 <| sp_step := STP_WAIT |> <| sp_fd := -1 |>) 0 [EClose (bs "overflow")]) /\
  turns p0 (fun i => match i with O => waiting 0 1 (-2) | _ => waiting 0 0 0 end) 2 st_wait = None.
Proof. split; vm_compute; reflexivity. Qed.

(** The page about too many restarts has the status of the last response. *)
Example restart_limit_status :
  match turns (Params 50 1 2 120) (fun _ => world_with VCL_MET_FETCH (Verdict [] VCL_RET_RESTART)) 7 st0 with
  | Some (_, s) => sp_step (sp s) = STP_DELIVER /\ (o_status <$> sp_obj (sp s)) = Some 200
  | None => False
  end.
Proof. vm_compute. auto. Qed.

(** A pipe without a backend: the client gets no answer and stays connected. *)
Definition no_backend : world :=
  World (1000 * sec) (fun m => Verdict [] (match m with VCL_MET_RECV => VCL_RET_PIPE
                                                        | _ => default_vcl m end))
    1 1 1 0 true 0 false 3 0 (Some (bs "GET")) None None 4 (Miss 5 6) None true 200 (1120 * sec) 0
    None true true false false id.
Example pipe_without_backend :
  match turns p0 (fun _ => no_backend) 4 st0 with
  | Some (_, s) => sp_step (sp s) = STP_WAIT /\ sp_fd (sp s) = 9 /\
      trace s = [EVcl VCL_MET_RECV VCL_RET_PIPE; EVcl VCL_MET_HASH VCL_RET_HASH;
                 EVcl VCL_MET_PIPE VCL_RET_PIPE]
  | None => False
  end.
Proof. vm_compute. auto. Qed.

End CntSpec.
