(* ===== verification/Strtoul.v ===== *)
(** * Strtoul: the C library's conversion of numbers

    [strtoul] and [strtoumax] on a string: white space, a sign, the prefix of
    the base, digits; values that do not fit in 64 bits give the largest one.
    Used by the fetching of bodies and the lifetime of objects. *)
From S2P Require Import Prelude.

Module Strtoul.

Definition ULONG_MAX : Z := 2 ^ 64 - 1.

(** The value of a digit in any base. *)
Definition digit_val (c : Z) : option Z :=
  if isdigit c then Some (c - 48)
  else let d := tolower c in
       if (97 <=? d) && (d <=? 122) then Some (d - 97 + 10) else None.
Definition is_digit (base c : Z) : option Z :=
  let? v := digit_val c in if v <? base then Some v else None.

(** The value of the digits and how many there are. *)
Fixpoint digits (base : Z) (l : list Z) (acc : Z) : Z * nat :=
  match l with
  | [] => (acc, O)
  | c :: l' => match is_digit base c with
               | Some v => let '(r, n) := digits base l' (acc * base + v) in (r, S n)
               | None => (acc, O)
               end
  end.

Fixpoint spaces (l : list Z) : nat :=
  match l with
  | c :: l' => if isspace c then S (spaces l') else O
  | [] => O
  end.

(** [0x] before a hexadecimal digit. *)
Definition hex_prefix (l : list Z) : bool :=
  (at_ l 0 =? 48) && (tolower (at_ l 1) =? 120) && bool_decide (is_Some (is_digit 16 (at_ l 2))).

(** The value and the number of characters used, which is 0 when there is no
    number. *)
Definition strtoul (base : Z) (str : list Z) : Z * nat :=
  let l := c_str str in
  let k := spaces l in
  let l := drop k l in
  let neg := peek l =? 45 in
  let k := if neg || (peek l =? 43) then S k else k in
  let l := if neg || (peek l =? 43) then tail l else l in
  let x := ((base =? 0) || (base =? 16)) && hex_prefix l in
  let base := if x then 16
              else if base =? 0 then (if peek l =? 48 then 8 else 10) else base in
  let k := if x then (k + 2)%nat else k in
  let l := if x then drop 2 l else l in
  match digits base l 0 with
  | (_, O) => (0, O)
  | (v, n) => ((if ULONG_MAX <? v then ULONG_MAX else if neg then u64 (- v) else v), (k + n)%nat)
  end.

(** ** Numbers as they are printed *)

Definition digit_char (d : Z) : Z := if d <? 10 then 48 + d else 97 + (d - 10).

(** A number in a base between 2 and 16, with at least one digit. *)
Fixpoint print_fuel (fuel : nat) (base n : Z) : list Z :=
  match fuel with
  | O => []
  | S fuel => if n <? base then [digit_char n]
              else print_fuel fuel base (n / base) ++ [digit_char (n mod base)]
  end.
Definition print (base n : Z) : list Z := print_fuel (S (Z.to_nat (Z.log2 n))) base n.

Lemma is_digit_char base d : 2 <= base <= 16 -> 0 <= d < base -> is_digit base (digit_char d) = Some d.
Proof.
  intros Hb Hd. assert (H : d < 16) by lia.
  unfold is_digit. replace (digit_val (digit_char d)) with (Some d).
  { by rewrite (proj2 (Z.ltb_lt d base)) by lia. }
  assert (d = 0 \/ d = 1 \/ d = 2 \/ d = 3 \/ d = 4 \/ d = 5 \/ d = 6 \/ d = 7 \/ d = 8 \/ d = 9 \/
          d = 10 \/ d = 11 \/ d = 12 \/ d = 13 \/ d = 14 \/ d = 15) as E by lia.
  repeat (destruct E as [-> | E]; [reflexivity |]). by subst.
Qed.

Lemma digits_app base l r acc :
  Forall (fun c => is_Some (is_digit base c)) l ->
  digits base (l ++ r) acc =
    (let '(v, n) := digits base r (fst (digits base l acc)) in (v, (length l + n)%nat)).
Proof.
  revert acc. induction l as [| c l IH]; intros acc H; cbn [app digits length].
  { cbn. by destruct (digits base r acc). }
  apply Forall_cons in H as [[v Hv] H]. rewrite Hv, (IH _ H).
  destruct (digits base l (acc * base + v)) as [w n]. cbn [fst]. by destruct (digits base r w).
Qed.

Section Print.
Context (base : Z) (Hb : 2 <= base <= 16).

Lemma print_fuel_spec fuel : forall n, 0 <= n < base ^ Z.of_nat fuel ->
  Forall (fun c => is_Some (is_digit base c)) (print_fuel fuel base n) /\
  (0 < fuel -> print_fuel fuel base n <> [])%nat /\
  forall acc, fst (digits base (print_fuel fuel base n) acc) =
    acc * base ^ Z.of_nat (length (print_fuel fuel base n)) + n.
Proof.
  induction fuel as [| fuel IH]; intros n Hn.
  { cbn in *. split; [by constructor |]. split; [lia |]. intros acc. lia. }
  cbn [print_fuel]. destruct (Z.ltb_spec n base) as [Hlt | Hge].
  - pose proof (is_digit_char base n Hb ltac:(lia)) as E. split; [| split; [done |]].
    + constructor; [| done]. rewrite E. eauto.
    + intros acc. cbn. rewrite E. cbn. lia.
  - assert (Hq : 0 <= n / base < base ^ Z.of_nat fuel).
    { split; [apply Z.div_pos; lia |]. apply Z.div_lt_upper_bound; [lia |].
      rewrite <- Z.pow_succ_r by lia. replace (Z.succ (Z.of_nat fuel)) with (Z.of_nat (S fuel)) by lia. apply Hn. }
    destruct (IH _ Hq) as (I1 & I2 & I3).
    pose proof (Z.mod_pos_bound n base ltac:(lia)) as Hm.
    pose proof (is_digit_char base (n mod base) Hb Hm) as E. split; [| split].
    + apply Forall_app. split; [done |]. constructor; [| done]. rewrite E. eauto.
    + intros _ Hnil. apply app_eq_nil in Hnil as [_ [=]].
    + intros acc. rewrite digits_app by done. rewrite I3. cbn [digits]. rewrite E. cbn [fst].
      rewrite length_app, Nat2Z.inj_add. cbn [length].
      rewrite Z.pow_add_r by lia. pose proof (Z.div_mod n base ltac:(lia)). nia.
Qed.

Lemma print_spec n : 0 <= n ->
  Forall (fun c => is_Some (is_digit base c)) (print base n) /\ print base n <> [] /\
  fst (digits base (print base n) 0) = n.
Proof.
  intros Hn. unfold print. destruct (print_fuel_spec (S (Z.to_nat (Z.log2 n))) n) as (H1 & H2 & H3).
  { split; [done |]. replace (Z.of_nat (S (Z.to_nat (Z.log2 n)))) with (Z.succ (Z.log2 n))
      by (pose proof (Z.log2_nonneg n); lia).
    apply Z.lt_le_trans with (2 ^ Z.succ (Z.log2 n)).
    - destruct (Z.eq_dec n 0) as [-> |]; [done |]. apply Z.log2_spec. lia.
    - apply Z.pow_le_mono_l. lia. }
  split; [exact H1 |]. split; [apply H2; lia |]. rewrite H3. lia.
Qed.

Lemma print_len_pos n : 0 <= n -> (0 < length (print base n))%nat.
Proof. intros Hn. destruct (print_spec n Hn) as (_ & H & _). destruct (print base n); [done | cbn; lia]. Qed.
End Print.

(** ** Reading a number back *)

Lemma c_str_app a b : ~ In 0 a -> c_str (a ++ b) = a ++ c_str b.
Proof.
  induction a as [| c a IH]; intros H; [done |]. cbn in *.
  destruct (Z.eqb_spec c 0); [naive_solver |]. f_equal. apply IH. tauto.
Qed.
Lemma peek_c_str b : peek (c_str b) = peek b.
Proof. destruct b as [| c b]; [done |]. cbn. by destruct (Z.eqb_spec c 0). Qed.

Lemma spaces_app a l : Forall (fun c => isspace c = true) a -> isspace (peek l) = false ->
  spaces (a ++ l) = length a.
Proof.
  intros Ha Hl. induction Ha as [| c a Hc _ IH]; cbn; [| by rewrite Hc, IH].
  destruct l as [| c l]; [done |]. cbn in *. by rewrite Hl.
Qed.
Lemma digits_stop base l r acc :
  Forall (fun c => is_Some (is_digit base c)) l -> is_digit base (peek r) = None ->
  digits base (l ++ r) acc = (fst (digits base l acc), length l).
Proof.
  intros Hl Hr. rewrite digits_app by done. replace (digits base r _) with (fst (digits base l acc), O).
  - by rewrite Nat.add_0_r.
  - destruct r as [| c r]; [done |]. cbn in *. by rewrite Hr.
Qed.

Lemma digits_bound base l acc : 0 <= acc -> 2 <= base ->
  Forall (fun c => is_Some (is_digit base c)) l ->
  0 <= fst (digits base l acc) < (acc + 1) * base ^ Z.of_nat (length l).
Proof.
  intros Ha Hb Hl. revert acc Ha. induction Hl as [| c l [v Hv] _ IH]; intros acc Ha; cbn [digits length].
  - cbn. lia.
  - rewrite Hv. destruct (digits base l (acc * base + v)) as [w n] eqn:E.
    assert (0 <= v < base).
    { unfold is_digit in Hv. destruct (digit_val c) as [x |] eqn:Ex; [| done].
      destruct (Z.ltb_spec x base); [| done]. injection Hv as <-. split; [| done].
      unfold digit_val, isdigit in Ex. destruct ((48 <=? c) && (c <=? 57)) eqn:E1.
      - injection Ex as <-. lia.
      - destruct (andb _ _) eqn:E2 in Ex; [| done]. injection Ex as <-. lia. }
    specialize (IH (acc * base + v) ltac:(nia)). rewrite E in IH. cbn [fst] in *.
    rewrite Nat2Z.inj_succ, Z.pow_succ_r by lia.
    assert (0 < base ^ Z.of_nat (length l)) by (apply Z.pow_pos_nonneg; lia). nia.
Qed.

(** What a digit is not. *)
Lemma is_digit_chars base c v : is_digit base c = Some v ->
  (48 <= c <= 57 \/ 65 <= c <= 90 \/ 97 <= c <= 122) /\ 0 <= v < base.
Proof.
  unfold is_digit, digit_val, isdigit, tolower. intros H.
  destruct ((48 <=? c) && (c <=? 57)) eqn:E1; bool_prop.
  - destruct (c - 48 <? base) eqn:E; [| done]. injection H as <-. lia.
  - set (d := if (65 <=? c) && (c <=? 90) then c + 32 else c) in H.
    destruct ((97 <=? d) && (d <=? 122)) eqn:E2; [| done]. destruct (d - 97 + 10 <? base) eqn:E3; [| done].
    injection H as <-. unfold d in *. destruct ((65 <=? c) && (c <=? 90)) eqn:E4; lia.
Qed.
Lemma digit_not_space base c v : is_digit base c = Some v -> isspace c = false /\ c <> 0 /\ c <> 43 /\ c <> 45.
Proof. intros H%is_digit_chars. unfold isspace. lia. Qed.
Lemma hex_not_x c : is_Some (is_digit 16 c) -> tolower c <> 120.
Proof.
  intros [v H]. intros E. assert (c = 88 \/ c = 120) as [-> | ->].
  { unfold tolower in E. destruct ((65 <=? c) && (c <=? 90)) eqn:E'; lia. }
  all: done.
Qed.

(** A hexadecimal number after white space, up to something else. *)
Lemma strtoul_hex sp hx rest v :
  Forall (fun c => isspace c = true) sp -> hx <> [] -> Forall (fun c => is_Some (is_digit 16 c)) hx ->
  is_digit 16 (peek rest) = None -> tolower (peek rest) <> 120 ->
  fst (digits 16 hx 0) = v -> v <= ULONG_MAX ->
  strtoul 16 (sp ++ hx ++ rest) = (v, (length sp + length hx)%nat).
Proof.
  intros Hsp Hne Hhx Hrest Hx Hv Hmax. unfold strtoul.
  assert (Hz : ~ In 0 (sp ++ hx)).
  { rewrite in_app_iff, <- !list_elem_of_In. intros [Hin | Hin].
    - rewrite Forall_forall in Hsp. by specialize (Hsp _ Hin).
    - rewrite Forall_forall in Hhx. destruct (Hhx _ Hin) as [w Hw]. destruct (digit_not_space _ _ _ Hw) as (_ & N & _). done. }
  rewrite app_assoc, c_str_app by done. rewrite <- app_assoc. set (r := c_str rest).
  assert (Hpr : peek r = peek rest) by apply peek_c_str.
  destruct hx as [| c hx]; [done |]. pose proof Hhx as [[w Hw] Hhx']%Forall_cons.
  destruct (digit_not_space _ _ _ Hw) as (N1 & N2 & N3 & N4).
  rewrite spaces_app, drop_app_length by done. cbn [app peek].
  rewrite (proj2 (Z.eqb_neq c 45)), (proj2 (Z.eqb_neq c 43)) by done. cbn [orb].
  assert (Hp : hex_prefix (c :: hx ++ r) = false).
  { unfold hex_prefix. rewrite at_cons_0, !at_cons_S.
    replace (tolower (at_ (hx ++ r) 0) =? 120) with false; [by rewrite andb_false_r |]. symmetry. apply Z.eqb_neq.
    destruct hx as [| d hx]; cbn [app].
    - replace (at_ r 0) with (peek r) by by destruct r. by rewrite Hpr.
    - rewrite at_cons_0. apply hex_not_x. by apply Forall_cons in Hhx' as [? _]. }
  rewrite Hp. change ((16 =? 0) || (16 =? 16)) with true. cbn [andb]. change (16 =? 0) with false. cbv iota.
  change (c :: hx ++ r) with ((c :: hx) ++ r). rewrite digits_stop by (done || by rewrite Hpr).
  cbn [length]. rewrite Hv. by rewrite (proj2 (Z.ltb_ge ULONG_MAX v)) by done.
Qed.

End Strtoul.
