(* ===== verification/Reader.v ===== *)
(** * Reader: a source of bytes

    What the fetching of bodies expects of the connection it reads from
    ([HTC_Read] in [bin/varnishd/cache_httpconn.c]): a read takes some of the
    next bytes, at most as many as it asks for and at least one until the end.
    [whole] says that no read will fail. *)
From S2P Require Import Prelude.

Module Reader.

Class Reader (R : Type) := {
  rd : R -> Z -> option (list Z) * R;
  avail : R -> list Z;
  sound : R -> Prop;
  whole : R -> Prop
}.

Class ReaderLaws (R : Type) `{Reader R} := {
  rd_some : forall s n d s', sound s -> 0 < n -> rd s n = (Some d, s') ->
    avail s = d ++ avail s' /\ Z.of_nat (length d) <= n /\ (avail s <> [] -> d <> []) /\
    sound s' /\ (whole s -> whole s');
  rd_whole : forall s n, sound s -> whole s -> 0 < n -> fst (rd s n) <> None
}.

(** A read from a source with bytes left that does not fail. *)
Lemma rd_more {R : Type} `{ReaderLaws R} (s : R) n :
  sound s -> whole s -> 0 < n -> avail s <> [] ->
  exists d s', rd s n = (Some d, s') /\ d <> [] /\ Z.of_nat (length d) <= n /\
    avail s = d ++ avail s' /\ sound s' /\ whole s'.
Proof.
  intros Hs Hw Hn Ha. pose proof (rd_whole s n Hs Hw Hn) as Hr.
  destruct (rd s n) as [[d |] s'] eqn:E; [| done].
  destruct (rd_some s n d s' Hs Hn E) as (E1 & E2 & E3 & E4 & E5). exists d, s'. auto 10.
Qed.

(** A string in memory that is read [k] bytes at a time. *)
Record str_reader := StrReader { sr_bytes : list Z; sr_piece : nat }.
#[export] Instance str_Reader : Reader str_reader := {
  rd s n := let k := Nat.min (S (sr_piece s)) (Z.to_nat n) in
            (Some (take k (sr_bytes s)), StrReader (drop k (sr_bytes s)) (sr_piece s));
  avail := sr_bytes;
  sound _ := True;
  whole _ := True
}.
#[export] Instance str_ReaderLaws : ReaderLaws str_reader.
Proof.
  split; [| done]. intros s n d s' _ Hn E. cbn [rd str_Reader] in E.
  assert (Hk : (0 < Nat.min (S (sr_piece s)) (Z.to_nat n) <= Z.to_nat n)%nat) by lia.
  set (k := Nat.min _ _) in *. clearbody k. injection E as <- <-.
  cbn [avail sound whole str_Reader sr_bytes]. rewrite take_drop, length_take.
  split; [done |]. split; [lia |]. split; [| done].
  intros Ha E. apply (f_equal length) in E. rewrite length_take in E.
  destruct (sr_bytes s); [done |]. cbn [length] in E. lia.
Qed.

End Reader.
