(* ===== verification/HttpConn.v ===== *)
(** * HttpConn: framing the bytes of a connection

    [bin/varnishd/cache_httpconn.c]: bytes are received into the reservation of
    a workspace until they hold a complete HTTP header; what was received
    behind it is kept as pipelined input for the body or the next message.

    A connection delivers its input in pieces of any size; [read] takes at most
    one of them. *)
From S2P Require Import Prelude Ws.

Module HttpConn.
Import Ws.

(** ** The file descriptor *)

Record sock := Sock { segs : list (list Z); broken : bool }.

(** [read(fd, p, n)] for [n > 0]: [None] is an error, no bytes the end. *)
Fixpoint read_segs (l : list (list Z)) (n : Z) : list Z * list (list Z) :=
  match l with
  | [] => ([], [])
  | [] :: l => read_segs l n
  | g :: l => (take (Z.to_nat n) g,
               match drop (Z.to_nat n) g with [] => l | g' => g' :: l end)
  end.
Definition read (fd : sock) (n : Z) : option (list Z) * sock :=
  match read_segs (segs fd) n with
  | ([], l) => (if broken fd then None else Some [], Sock l (broken fd))
  | (d, l) => (Some d, Sock l (broken fd))
  end.

(** ** Memory *)

Fixpoint slice (m : mem) (p : Z) (n : nat) : list Z :=
  match n with
  | O => []
  | S n => default 0 (m !! p) :: slice m (p + 1) n
  end.
(** The bytes from [b] up to [e]. *)
Definition bytes (m : mem) (b e : Z) : list Z := slice m b (Z.to_nat (e - b)).

(** [memmove(d, s, n)] *)
Definition memmove (m : mem) (d s : Z) (n : nat) : mem := memcpy m d (slice m s n).

(** [strchr(p, c)], where [l] are the bytes up to and with the NUL: the string
    from the character on. *)
Fixpoint strchr (l : list Z) (c : Z) : option (list Z) :=
  match l with
  | [] => None
  | x :: l' => if x =? c then Some l else if x =? 0 then None else strchr l' c
  end.

(** ** The connection *)

Record http_conn := Htc {
  cws : ws;
  cfd : sock;
  rxbuf : Z * Z;
  pipeline : option (Z * Z)
}.
Definition set_ws (h : http_conn) (w : ws) : http_conn := Htc w (cfd h) (rxbuf h) (pipeline h).
Definition set_fd (h : http_conn) (fd : sock) : http_conn := Htc (cws h) fd (rxbuf h) (pipeline h).
Definition set_rxbuf (h : http_conn) (t : Z * Z) : http_conn := Htc (cws h) (cfd h) t (pipeline h).
Definition set_pipeline (h : http_conn) (t : option (Z * Z)) : http_conn :=
  Htc (cws h) (cfd h) (rxbuf h) t.

Fixpoint skip_space (l : list Z) : list Z :=
  match l with
  | c :: l' => if isspace c then skip_space l' else l
  | [] => []
  end.

(** The loop over the lines: what is behind the empty line. *)
Fixpoint end_loop (fuel : nat) (p : list Z) : option (option (list Z)) :=
  match fuel with
  | O => None
  | S fuel =>
      match strchr p 10 with
      | None => Some None
      | Some p =>
          let p := tail p in
          let p := if peek p =? 13 then tail p else p in
          if peek p =? 10 then Some (Some (tail p)) else end_loop fuel p
      end
  end.

(** The buffer is the bytes of [t] and the NUL behind them.  The length of the
    header, and whether the buffer is to be emptied. *)
Definition htc_header_complete (t : list Z) : option (Z * bool) :=
  let buf := t ++ [0] in
  let p := skip_space buf in
  if peek p =? 0 then Some (0, true)
  else
    let? r := end_loop (length buf) p in
    match r with
    | None => Some (0, false)
    | Some p => Some (Z.of_nat (length buf - length p), false)
    end.

Definition HTC_Complete (h : http_conn) (m : mem) : option (Z * http_conn * mem) :=
  let '(b, e) := rxbuf h in
  let? (i, clear) := htc_header_complete (bytes m b e) in
  let m := if clear : bool then <[b := 0]> m else m in
  let e := if clear then b else e in
  let h := set_rxbuf h (b, e) in
  if i =? 0 then Some (0, h, m)
  else
    let? w := WS_ReleaseP (cws h) e in
    let h := set_ws h w in
    if b + i <? e then Some (1, set_rxbuf (set_pipeline h (Some (b + i, e))) (b, b + i), m)
    else Some (1, h, m).

Definition HTC_Init (w : ws) (fd : sock) (m : mem) : option (http_conn * mem) :=
  let? (_, w) := WS_Reserve w ((Ws.e w - Ws.s w) / 2) in
  Some (Htc w fd (Ws.f w, Ws.f w) None, <[Ws.f w := 0]> m).

Definition HTC_Reinit (h : http_conn) (m : mem) : option (Z * http_conn * mem) :=
  let? (_, w) := WS_Reserve (cws h) ((Ws.e (cws h) - Ws.s (cws h)) / 2) in
  let h := set_ws h w in
  let b := Ws.f w in
  let '(e, m) := match pipeline h with
                 | Some (pb, pe) => (b + (pe - pb), memmove m b pb (Z.to_nat (pe - pb)))
                 | None => (b, m)
                 end in
  let h := set_rxbuf (set_pipeline h None) (b, e) in
  HTC_Complete h (<[e := 0]> m).

Definition HTC_Rx (h : http_conn) (m : mem) : option (Z * http_conn * mem) :=
  let '(b, e) := rxbuf h in
  assert! negb (r (cws h) =? 0) ;;
  let i := r (cws h) - e - 1 in
  if i <=? 0 then let? w := WS_ReleaseP (cws h) b in Some (-2, set_ws h w, m)
  else
    match read (cfd h) i with
    | (None, fd) | (Some [], fd) =>
        let? w := WS_ReleaseP (cws h) b in Some (-1, set_ws (set_fd h fd) w, m)
    | (Some d, fd) =>
        let m := memcpy m e d in
        let e := e + Z.of_nat (length d) in
        HTC_Complete (set_rxbuf (set_fd h fd) (b, e)) (<[e := 0]> m)
    end.

(** The bytes read, [None] for an error. *)
Definition HTC_Read (h : http_conn) (m : mem) (len : Z) : option (list Z) * http_conn :=
  let '(d, h) := match pipeline h with
                 | Some (b, e) =>
                     let l := if len <? e - b then len else e - b in
                     let b' := b + l in
                     (bytes m b b', set_pipeline h (if b' =? e then None else Some (b', e)))
                 | None => ([], h)
                 end in
  let len := len - Z.of_nat (length d) in
  if len =? 0 then (Some d, h)
  else match read (cfd h) len with
       | (None, fd) => (None, set_fd h fd)
       | (Some d', fd) => (Some (d ++ d'), set_fd h fd)
       end.

(** ** Receiving messages

    The callers' loop: [do i = HTC_Rx(htc); while (i == 0)]. *)
Fixpoint rx_loop (fuel : nat) (h : http_conn) (m : mem) : option (Z * http_conn * mem) :=
  match fuel with
  | O => None
  | S fuel =>
      let? (i, h, m) := HTC_Rx h m in
      if i =? 0 then rx_loop fuel h m else Some (i, h, m)
  end.

End HttpConn.
