(* ===== verification/HttpConnSpec.v ===== *)
(** * HttpConnSpec: framing does not depend on how the bytes arrive

    Whatever pieces the kernel delivers, a connection is cut into the same
    messages and no byte is lost or read twice, and [HTC_Read] continues where
    the header ended. *)
From S2P Require Import Prelude Ws HttpConn Reader.

Module HttpConnSpec.
Import Ws HttpConn Reader.

(** ** Where a header ends

    An empty line at the start of the text, the line feed in front included. *)
Definition empty_line (l : list Z) : option nat :=
  if (at_ l 0 =? 10) && (at_ l 1 =? 10) then Some 2%nat
  else if (at_ l 0 =? 10) && (at_ l 1 =? 13) && (at_ l 2 =? 10) then Some 3%nat
  else None.
(** The length of the shortest prefix that ends with one. *)
Fixpoint hend (l : list Z) : option nat :=
  match l with
  | [] => None
  | c :: l' => match empty_line l with Some k => Some k | None => S <$> hend l' end
  end.

Lemma hend_cons c l :
  hend (c :: l) = match empty_line (c :: l) with Some k => Some k | None => S <$> hend l end.
Proof. done. Qed.

Lemma empty_line_len l k : empty_line l = Some k -> (2 <= k <= length l)%nat.
Proof.
  unfold empty_line. destruct l as [| a [| b [| c l]]]; cbn; [done | ..].
  - by rewrite !andb_false_r.
  - destruct (_ && _); [intros [= <-]; lia |]. by rewrite andb_false_r.
  - destruct (_ && _); [intros [= <-]; lia |]. destruct (_ && _); [intros [= <-]; lia | done].
Qed.
(** It depends on three characters, or on as many as it is long. *)
Lemma empty_line_three a b c l : empty_line (a :: b :: c :: l) = empty_line [a; b; c].
Proof. done. Qed.
Lemma empty_line_prefix l r k : empty_line l = Some k -> empty_line (l ++ r) = Some k.
Proof.
  intros H. destruct l as [| a [| b [| c l]]].
  - done.
  - cbn in H. unfold empty_line in H. cbn in H. by rewrite !andb_false_r in H.
  - unfold empty_line in *. cbn in *. rewrite andb_false_r in H. by destruct (_ && _).
  - exact H.
Qed.
Lemma empty_line_take l k n : empty_line l = Some k -> (k <= n)%nat -> empty_line (take n l) = Some k.
Proof.
  intros H Hn. pose proof (empty_line_len _ _ H) as Hk.
  destruct n as [| [| n]]; [lia.. |]. destruct l as [| a [| b l]]; [done | cbn in Hk; lia |].
  destruct (decide (k = 2%nat)) as [-> |].
  - unfold empty_line in *. cbn in *. destruct (_ && _); [done |]. by destruct (_ && _).
  - destruct n as [| n]; [lia |]. destruct l as [| c l]; [cbn in Hk; lia |]. exact H.
Qed.

Lemma hend_len l n : hend l = Some n -> (2 <= n <= length l)%nat.
Proof.
  revert n. induction l as [| c l IH]; intros n; [done |]. cbn [hend].
  destruct (empty_line (c :: l)) as [k |] eqn:E.
  - intros [= <-]. by apply empty_line_len.
  - destruct (hend l) as [k |]; [| done]. intros [= <-]. specialize (IH k eq_refl). cbn. lia.
Qed.
Lemma hend_app l r n : hend l = Some n -> hend (l ++ r) = Some n.
Proof.
  revert n. induction l as [| c l IH]; intros n; [done |]. cbn [hend app].
  destruct (empty_line (c :: l)) as [k |] eqn:E.
  - change (c :: l ++ r) with ((c :: l) ++ r). by rewrite (empty_line_prefix _ r _ E).
  - destruct (hend l) as [k |] eqn:Eh; [| done]. intros [= <-]. rewrite (IH k) by done.
    pose proof (hend_len _ _ Eh). destruct l as [| a [| b l]]; [cbn in *; lia.. |].
    cbn [app]. by rewrite empty_line_three, <- (empty_line_three c a b l), E.
Qed.
Lemma hend_take l n : hend l = Some n -> hend (take n l) = Some n.
Proof.
  revert n. induction l as [| c l IH]; intros n; [done |]. cbn [hend].
  destruct (empty_line (c :: l)) as [k |] eqn:E.
  - intros [= <-]. pose proof (empty_line_take _ _ k E ltac:(lia)) as Et.
    pose proof (empty_line_len _ _ E). destruct k as [| k]; [lia |]. cbn [take hend] in *. by rewrite Et.
  - destruct (hend l) as [k |] eqn:Eh; [| done]. intros [= <-]. specialize (IH k eq_refl).
    pose proof (hend_len _ _ Eh). destruct k as [| [| k]]; [lia.. |].
    destruct l as [| a [| b l]]; [cbn in *; lia.. |]. cbn [take] in *.
    by rewrite hend_cons, empty_line_three, <- (empty_line_three c a b l), E, IH.
Qed.
(** Before its end a header is not complete. *)
Lemma hend_cut l n k : hend l = Some n -> hend (take k l) = if (n <=? k)%nat then Some n else None.
Proof.
  intros H. destruct (Nat.leb_spec n k) as [Hle | Hlt].
  - pose proof (hend_take _ _ H) as Ht. rewrite <- (take_drop n (take k l)), take_take, Nat.min_l by lia.
    by apply hend_app.
  - destruct (hend (take k l)) as [j |] eqn:E; [| done]. exfalso. pose proof (hend_len _ _ E).
    pose proof (hend_app _ (drop k l) _ E) as E'. rewrite take_drop, H in E'. injection E' as ->.
    rewrite length_take in *. lia.
Qed.

(** ** The search in the buffer *)

Lemma strchr_in a b c : ~ In 0 a -> c <> 0 -> ~ In c a -> strchr (a ++ c :: b) c = Some (c :: b).
Proof.
  intros H0 Hc H. induction a as [| x a IH]; cbn; [by rewrite Z.eqb_refl |].
  cbn in *. destruct (Z.eqb_spec x c); [naive_solver |]. destruct (Z.eqb_spec x 0); [naive_solver |].
  apply IH; tauto.
Qed.
Lemma strchr_none a c : ~ In 0 a -> c <> 0 -> ~ In c a -> strchr (a ++ [0]) c = None.
Proof.
  intros H0 Hc H. induction a as [| x a IH]; cbn; [by destruct c |].
  cbn in *. destruct (Z.eqb_spec x c); [naive_solver |]. destruct (Z.eqb_spec x 0); [naive_solver |].
  apply IH; tauto.
Qed.

(** Text without a line feed is skipped. *)
Lemma hend_skip a l : ~ In 10 a -> hend (a ++ l) = Nat.add (length a) <$> hend l.
Proof.
  induction a as [| x a IH]; intros H; cbn [app]; [by destruct (hend l) |].
  cbn [hend length]. cbn in H. unfold empty_line. cbn [at_]. rewrite (at_cons_0 x).
  rewrite (proj2 (Z.eqb_neq x 10)) by tauto. cbn [andb]. rewrite IH by tauto. by destruct (hend l).
Qed.

(** What is behind the line feed at the start. *)
Lemma hend_lf b :
  hend (10 :: b) =
    if peek b =? 10 then Some 2%nat
    else if peek b =? 13 then (if peek (tail b) =? 10 then Some 3%nat else Nat.add 2 <$> hend (tail b))
    else S <$> hend b.
Proof.
  rewrite hend_cons. unfold empty_line.
  destruct b as [| c b]; [done |]. cbn [at_ peek tail]. rewrite !at_cons_S, !at_cons_0. cbn [peek tail].
  change (10 =? 10) with true. cbn [andb]. destruct (Z.eqb_spec c 10); [done |].
  destruct (Z.eqb_spec c 13) as [-> |]; cbn [andb].
  - replace (at_ b 0) with (peek b) by by destruct b. destruct (peek b =? 10); [done |].
    rewrite hend_cons. unfold empty_line. rewrite at_cons_0. cbn. by destruct (hend b).
  - done.
Qed.

Lemma end_loop_spec fuel : forall l, ~ In 0 l -> (length l < fuel)%nat ->
  end_loop fuel (l ++ [0]) = Some ((fun n => drop n l ++ [0]) <$> hend l).
Proof.
  induction fuel as [| fuel IH]; intros l H0 Hf; [lia |]. cbn [end_loop].
  destruct (decide (10 ∈ l)) as [Hin | Hn].
  2:{ rewrite strchr_none by (try done; by rewrite <- list_elem_of_In).
      pose proof (hend_skip l [] ltac:(by rewrite <- list_elem_of_In)) as E. rewrite app_nil_r in E. by rewrite E. }
  apply list_elem_of_split_l in Hin as (a & b & -> & Ha). rewrite list_elem_of_In in Ha.
  rewrite <- app_assoc. cbn [app]. rewrite in_app_iff in H0. cbn in H0. rewrite length_app in Hf. cbn in Hf.
  rewrite strchr_in by (try done; tauto). cbn [tail]. rewrite hend_skip by done.
  transitivity (Some ((fun n => drop n (10 :: b) ++ [0]) <$> hend (10 :: b))).
  2:{ destruct (hend (10 :: b)) as [n |]; [| done]. cbn [fmap option_fmap option_map].
      by rewrite drop_app_add. }
  assert (Hp : forall l : list Z, peek (l ++ [0]) = peek l) by by intros [].
  rewrite hend_lf, !Hp. destruct (Z.eqb_spec (peek b) 13) as [E13 |].
  - destruct b as [| c b]; [done |]. cbn in E13. subst c. cbn [app tail peek].
    rewrite Hp. change (13 =? 10) with false. cbv iota.
    destruct (peek b =? 10) eqn:E.
    + destruct b as [| c b]; [done |]. done.
    + rewrite IH by (cbn in *; tauto || lia). by destruct (hend b).
  - rewrite Hp. destruct (peek b =? 10) eqn:E.
    + destruct b as [| c b]; [done |]. done.
    + rewrite IH by (cbn in *; tauto || lia). by destruct (hend b).
Qed.

(** A header is found whatever is behind it. *)
Lemma end_loop_found fuel r : forall l n, ~ In 0 l -> (length l < fuel)%nat -> hend l = Some n ->
  end_loop fuel (l ++ r) = Some (Some (drop n l ++ r)).
Proof.
  induction fuel as [| fuel IH]; intros l n H0 Hf Hn; [lia |]. cbn [end_loop].
  destruct (decide (10 ∈ l)) as [Hin | Hno].
  2:{ pose proof (hend_skip l [] ltac:(by rewrite <- list_elem_of_In)) as E. rewrite app_nil_r, Hn in E. done. }
  apply list_elem_of_split_l in Hin as (a & b & -> & Ha). rewrite list_elem_of_In in Ha.
  rewrite <- app_assoc. cbn [app]. rewrite in_app_iff in H0. cbn in H0. rewrite length_app in Hf. cbn in Hf.
  rewrite strchr_in by (try done; tauto). cbn [tail]. rewrite hend_skip, hend_lf in Hn by done.
  assert (Hd : forall k, drop (length a + k) (a ++ 10 :: b) = drop k (10 :: b)) by (intros k; by rewrite drop_app_add).
  destruct b as [| x b]; [done |]. cbn [app peek tail] in *.
  destruct (Z.eqb_spec x 10) as [-> |]; [injection Hn as <-; by rewrite Hd |].
  destruct (Z.eqb_spec x 13) as [-> | Hx].
  - destruct b as [| y b]; [done |]. cbn [app peek tail] in *.
    destruct (Z.eqb_spec y 10) as [-> |]; [injection Hn as <-; by rewrite Hd |].
    destruct (hend (y :: b)) as [k |] eqn:E; [| done]. injection Hn as <-. rewrite Hd.
    change (y :: b ++ r) with ((y :: b) ++ r). rewrite (IH _ k) by (done || (cbn in *; tauto || lia)). done.
  - cbn [peek]. rewrite (proj2 (Z.eqb_neq x 10)) by done.
    destruct (hend (x :: b)) as [k |] eqn:E; [| done]. injection Hn as <-. rewrite Hd.
    change (x :: b ++ r) with ((x :: b) ++ r). rewrite (IH _ k) by (done || (cbn in *; tauto || lia)). done.
Qed.

(** ** Complete headers *)

Lemma skip_space_suffix l : l = take (length l - length (skip_space l)) l ++ skip_space l.
Proof.
  induction l as [| c l IH]; [done |]. cbn [skip_space]. destruct (isspace c).
  - assert (length (skip_space l) <= length l)%nat.
    { rewrite IH at 2. rewrite length_app. lia. }
    cbn [length]. rewrite Nat.sub_succ_l by done. cbn [take app]. by rewrite <- IH.
  - by rewrite Nat.sub_diag.
Qed.
Lemma skip_space_len l : (length (skip_space l) <= length l)%nat.
Proof. rewrite (skip_space_suffix l) at 2. rewrite length_app. lia. Qed.
Lemma skip_space_app l r : skip_space l <> [] -> skip_space (l ++ r) = skip_space l ++ r.
Proof. induction l as [| c l IH]; [done |]. cbn. destruct (isspace c); [exact IH | done]. Qed.
Lemma skip_space_all l r : skip_space l = [] -> skip_space (l ++ r) = skip_space r.
Proof. induction l as [| c l IH]; [done |]. cbn. by destruct (isspace c). Qed.
Lemma skip_space_head l c r : skip_space l = c :: r -> isspace c = false.
Proof. induction l as [| d l IH]; [done |]. cbn. destruct (isspace d) eqn:E; [exact IH |]. by intros [= <- _]. Qed.

(** The length of the white space and the header behind it. *)
Definition header_len (l : list Z) : option nat :=
  (fun n => (length l - length (skip_space l) + n)%nat) <$> hend (skip_space l).

(** No NUL up to the end of the header; a body may hold any bytes. *)
Definition clean (t : list Z) : Prop :=
  match header_len t with Some n => ~ In 0 (take n t) | None => ~ In 0 t end.

Lemma header_complete_spec t : clean t ->
  htc_header_complete t =
    Some (if bool_decide (skip_space t = []) then (0, true)
          else match header_len t with Some n => (Z.of_nat n, false) | None => (0, false) end).
Proof.
  intros H0. unfold htc_header_complete, clean, header_len in *.
  destruct (skip_space t) as [| c r] eqn:E.
  - rewrite skip_space_all by done. done.
  - rewrite skip_space_app by congruence. rewrite E. cbn [app peek].
    pose proof (skip_space_suffix t) as Et. rewrite E in Et. set (w := take _ t) in *.
    pose proof (skip_space_len t) as Hl. rewrite E in Hl.
    assert (Hw : length w = (length t - length (c :: r))%nat) by (unfold w; rewrite length_take; lia).
    change (c :: r ++ [0]) with ((c :: r) ++ [0]). rewrite bool_decide_false by done.
    destruct (hend (c :: r)) as [k |] eqn:Eh; cbn [fmap option_fmap option_map] in *.
    + pose proof (hend_len _ _ Eh) as Hk. rewrite <- Hw, Et, take_app_add in H0 by done.
      assert (Hr : ~ In 0 (take k (c :: r))) by (intros Hin; apply H0, in_app_iff; by right).
      destruct (Z.eqb_spec c 0); [destruct k; [lia |]; cbn in Hr; tauto |].
      rewrite <- (take_drop k (c :: r)), <- app_assoc.
      rewrite (end_loop_found _ _ _ k) by (try apply hend_take; try done; rewrite length_app, length_take; change (length [0]) with 1%nat; lia).
      rewrite drop_ge by (rewrite length_take; lia). cbn [app].
      rewrite !length_app, length_drop, ?length_take. cbn [length] in *. do 3 f_equal. lia.
    + assert (Hr : ~ In 0 (c :: r)) by (intros Hin; apply H0; rewrite Et, in_app_iff; by right).
      destruct (Z.eqb_spec c 0); [cbn in Hr; tauto |].
      rewrite end_loop_spec by (done || (rewrite length_app; cbn in *; lia)). by rewrite Eh.
Qed.

(** ** Memory *)

Lemma slice_length m p n : length (slice m p n) = n.
Proof. revert p. induction n as [| n IH]; intros p; cbn; [done |]. by rewrite IH. Qed.
Lemma slice_app m p a b : slice m p (a + b) = slice m p a ++ slice m (p + Z.of_nat a) b.
Proof.
  revert p. induction a as [| a IH]; intros p; [by rewrite Z.add_0_r |].
  cbn [Nat.add slice app]. rewrite IH. do 3 f_equal. lia.
Qed.
Lemma slice_ext m m' p n :
  (forall a, p <= a < p + Z.of_nat n -> m !! a = m' !! a) -> slice m p n = slice m' p n.
Proof.
  revert p. induction n as [| n IH]; intros p H; [done |]. cbn [slice].
  rewrite (H p) by lia. f_equal. apply IH. intros a Ha. apply H. lia.
Qed.
Lemma slice_insert m p n a v : ~ (p <= a < p + Z.of_nat n) -> slice (<[a := v]> m) p n = slice m p n.
Proof. intros H. apply slice_ext. intros b Hb. rewrite lookup_insert_ne; [done | lia]. Qed.
Lemma slice_memcpy m p l : slice (memcpy m p l) p (length l) = l.
Proof.
  revert m p. induction l as [| c l IH]; intros m p; [done |]. cbn [length memcpy slice].
  rewrite IH. f_equal. rewrite memcpy_out by lia. by rewrite lookup_insert_eq.
Qed.
Lemma slice_memcpy_out m p l q n :
  q + Z.of_nat n <= p -> slice (memcpy m p l) q n = slice m q n.
Proof. intros H. apply slice_ext. intros a Ha. apply memcpy_out. lia. Qed.
Lemma bytes_len m b e : length (bytes m b e) = Z.to_nat (e - b).
Proof. apply slice_length. Qed.
Lemma bytes_slice m b n : bytes m b (b + Z.of_nat n) = slice m b n.
Proof. unfold bytes. f_equal. lia. Qed.

(** ** Reading *)

Definition stream (fd : sock) : list Z := concat (segs fd).

Lemma read_segs_spec l n : 0 < n ->
  let '(d, l') := read_segs l n in
  concat l = d ++ concat l' /\ (length d <= Z.to_nat n)%nat /\ (concat l <> [] -> d <> []).
Proof.
  intros Hn. induction l as [| g l IH]; [cbn; split; [done | split; [lia | done]] |]. destruct g as [| c g]; [exact IH |].
  cbn [read_segs]. destruct (Z.to_nat n) as [| k] eqn:Ek; [lia |]. cbn [take drop]. split; [| split].
  - cbn [concat app]. f_equal. destruct (drop k g) eqn:E.
    + rewrite <- (take_drop k g) at 1. by rewrite E, app_nil_r.
    + cbn [concat]. by rewrite <- E, app_assoc, take_drop.
  - cbn. rewrite length_take. lia.
  - done.
Qed.
Lemma read_spec fd n : 0 < n ->
  exists d fd', broken fd' = broken fd /\ stream fd = d ++ stream fd' /\ (length d <= Z.to_nat n)%nat /\
    (stream fd <> [] -> d <> []) /\
    read fd n = (if bool_decide (d = []) && broken fd then None else Some d, fd').
Proof.
  intros Hn. pose proof (read_segs_spec (segs fd) n Hn) as H. unfold read, stream.
  destruct (read_segs (segs fd) n) as [d l]. destruct H as (H1 & H2 & H3).
  exists d, (Sock l (broken fd)). repeat (split; [done |]). by destruct d, (broken fd).
Qed.
Lemma read_some fd n : 0 < n -> stream fd <> [] ->
  exists d fd', read fd n = (Some d, fd') /\ d <> [] /\ (length d <= Z.to_nat n)%nat /\
    broken fd' = broken fd /\ stream fd = d ++ stream fd'.
Proof.
  intros Hn Hs. destruct (read_spec fd n Hn) as (d & fd' & Hb & E & Hl & Hd & Er). exists d, fd'.
  specialize (Hd Hs). rewrite Er, bool_decide_false by done. done.
Qed.

(** ** States of a connection *)

(** Receiving: [c] is in the buffer, which is the reservation. *)
Definition receiving (h : http_conn) (m : mem) (c : list Z) : Prop :=
  wf (cws h) /\ r (cws h) <> 0 /\ pipeline h = None /\
  rxbuf h = (f (cws h), f (cws h) + Z.of_nat (length c)) /\
  f (cws h) + Z.of_nat (length c) < r (cws h) /\
  slice m (f (cws h)) (length c) = c.
(** A message has been received: it is [c] and [p] is the pipelined input. *)
Definition framed (h : http_conn) (m : mem) (c p : list Z) : Prop :=
  wf (cws h) /\ r (cws h) = 0 /\
  (exists b, rxbuf h = (b, b + Z.of_nat (length c)) /\ slice m b (length c) = c) /\
  match pipeline h with
  | Some (b, e) => e = b + Z.of_nat (length p) /\ s (cws h) <= b /\ e <= f (cws h) /\ slice m b (length p) = p /\ p <> []
  | None => p = []
  end.

Definition room (h : http_conn) : Z := r (cws h) - f (cws h) - 1.

Lemma complete_spec h m c :
  receiving h m c -> clean c ->
  if bool_decide (skip_space c = []) then
    exists h' m', HTC_Complete h m = Some (0, h', m') /\ receiving h' m' [] /\
      room h' = room h /\ cfd h' = cfd h /\ s (cws h') = s (cws h) /\ e (cws h') = e (cws h)
  else match header_len c with
       | None => HTC_Complete h m = Some (0, h, m)
       | Some n => exists h', HTC_Complete h m = Some (1, h', m) /\ framed h' m (take n c) (drop n c) /\
           cfd h' = cfd h /\ s (cws h') = s (cws h) /\ e (cws h') = e (cws h)
       end.
Proof.
  intros (W & Hr & Hp & Eb & Hroom & Hc) H0. unfold HTC_Complete. rewrite Eb, bytes_slice, Hc.
  rewrite header_complete_spec by done. case_bool_decide as Hs.
  - eexists _, _. split; [reflexivity |]. split; [| done].
    unfold receiving, set_rxbuf. cbn. rewrite Z.add_0_r. split_and!; try done. lia.
  - destruct (header_len c) as [n |] eqn:En; [| by destruct h; cbn in *; subst].
    unfold header_len in En. destruct (hend (skip_space c)) as [k |] eqn:Ek; [| done].
    injection En as En. pose proof (hend_len _ _ Ek). pose proof (skip_space_len c).
    assert (Hn : (2 <= n <= length c)%nat) by lia. rewrite (proj2 (Z.eqb_neq (Z.of_nat n) 0)) by lia.
    assert (Hrel : WS_ReleaseP (cws h) (f (cws h) + Z.of_nat (length c)) =
      Some (MkWs (s (cws h)) (f (cws h) + Z.of_nat (length c)) 0 (e (cws h)) (overflow (cws h)))).
    { unfold WS_ReleaseP. rewrite (wf_assert _ W), (proj2 (Z.eqb_neq (r (cws h)) 0)) by done. cbn [negb].
      rewrite (proj2 (Z.leb_le (f (cws h)) _)) by lia. by rewrite (proj2 (Z.leb_le _ (r (cws h)))) by lia. }
    cbn [set_rxbuf cws]. rewrite Hrel.
    assert (W' : wf (MkWs (s (cws h)) (f (cws h) + Z.of_nat (length c)) 0 (e (cws h)) (overflow (cws h)))).
    { unfold wf in *. cbn. lia. }
    assert (Hsl : slice m (f (cws h)) (length c) =
      slice m (f (cws h)) n ++ slice m (f (cws h) + Z.of_nat n) (length c - n)).
    { rewrite <- slice_app. f_equal. lia. }
    assert (Ht : slice m (f (cws h)) n = take n c).
    { pose proof (f_equal (take n) Hsl) as E. by rewrite Hc, take_app_length' in E by by rewrite slice_length. }
    assert (Hd : slice m (f (cws h) + Z.of_nat n) (length c - n) = drop n c).
    { pose proof (f_equal (drop n) Hsl) as E.
      by rewrite Hc, drop_app_length' in E by by rewrite slice_length. }
    destruct (Z.ltb_spec (f (cws h) + Z.of_nat n) (f (cws h) + Z.of_nat (length c))) as [Hlt | Hge];
      eexists; (split; [reflexivity |]); (split; [| done]); unfold framed; cbn.
    + split; [exact W' |]. split; [done |]. split.
      * exists (f (cws h)). rewrite length_take, Nat.min_l by lia. by split.
      * rewrite length_drop. split; [lia |]. unfold wf in W. split; [lia |]. split; [lia |]. split; [done |].
        intros E. apply (f_equal length) in E. rewrite length_drop in E. cbn in E. lia.
    + replace n with (length c) in * by lia. rewrite take_ge, drop_ge in * by lia.
      split; [exact W' |]. split; [done |]. split; [by exists (f (cws h)) |]. by rewrite Hp.
Qed.

(** ** Where the header of a stream ends *)

Lemma header_len_bound t n : header_len t = Some n -> (n <= length t)%nat.
Proof.
  unfold header_len. destruct (hend (skip_space t)) as [k |] eqn:E; [| done]. intros [= <-].
  pose proof (hend_len _ _ E). pose proof (skip_space_len t). lia.
Qed.

(** The white space in front. *)
Definition white (t : list Z) : nat := length t - length (skip_space t).
Lemma white_split t : t = take (white t) t ++ skip_space t.
Proof. apply skip_space_suffix. Qed.
Lemma white_skip t : skip_space (take (white t) t) = [].
Proof.
  destruct (skip_space (take (white t) t)) as [| c l] eqn:E; [done |]. exfalso.
  pose proof (skip_space_app (take (white t) t) (skip_space t) ltac:(congruence)) as Ea.
  rewrite <- white_split in Ea. apply (f_equal length) in Ea. rewrite E, length_app in Ea. cbn in Ea. lia.
Qed.
Lemma take_white t k : skip_space (take k t) = take (k - white t) (skip_space t).
Proof.
  pose proof (white_skip t) as Hw. pose proof (skip_space_len t) as Hl.
  destruct (Nat.le_gt_cases k (white t)) as [Hle | Hlt].
  - replace (k - white t)%nat with 0%nat by lia. replace k with (min k (white t)) by lia.
    rewrite <- take_take. rewrite <- (take_drop k (take (white t) t)) in Hw.
    destruct (skip_space (take k (take (white t) t))) eqn:E; [done |].
    rewrite skip_space_app, E in Hw by congruence. done.
  - replace (take k t) with (take (white t) t ++ take (k - white t) (skip_space t)).
    2:{ pose proof (take_app (take (white t) t) (skip_space t) k) as E. rewrite <- white_split in E.
        rewrite E, (take_ge (take _ t)), length_take by (rewrite length_take; lia).
        unfold white. do 2 f_equal. lia. }
    rewrite skip_space_all by done. destruct (skip_space t) as [| c l] eqn:El; [by rewrite take_nil |].
    destruct (k - white t)%nat; [done |]. cbn. by rewrite (skip_space_head _ _ _ El).
Qed.
Lemma drop_white t k : (white t <= k)%nat -> drop k t = drop (k - white t) (skip_space t).
Proof.
  intros H. pose proof (skip_space_len t).
  pose proof (drop_app (take (white t) t) (skip_space t) k) as E. rewrite <- white_split in E.
  rewrite E, drop_ge by (rewrite length_take; unfold white in *; lia).
  rewrite length_take. cbn. unfold white in *. f_equal. lia.
Qed.

Lemma header_len_cut t n k :
  header_len t = Some n -> header_len (take k t) = if (n <=? k)%nat then Some n else None.
Proof.
  unfold header_len. fold (white t) (white (take k t)).
  destruct (hend (skip_space t)) as [j |] eqn:E; [| done]. intros [= <-].
  pose proof (hend_len _ _ E) as Hj. pose proof (skip_space_len t). rewrite take_white, (hend_cut _ _ _ E).
  destruct (Nat.leb_spec (white t + j) k), (Nat.leb_spec j (k - white t)); try (done || lia).
  cbn. f_equal. unfold white at 1. rewrite take_white, !length_take. unfold white in *. lia.
Qed.

Lemma clean_take t n k : header_len t = Some n -> clean t -> clean (take k t).
Proof.
  unfold clean. intros H H0. rewrite H in H0. rewrite (header_len_cut t n k H).
  destruct (Nat.leb_spec n k).
  - by rewrite take_take, Nat.min_l by lia.
  - intros Hin. apply H0. rewrite <- (take_drop k (take n t)), take_take, Nat.min_l by lia.
    apply in_app_iff. by left.
Qed.
(** White space in front does not matter. *)
Lemma clean_skip w t : skip_space w = [] -> clean (w ++ t) -> clean t.
Proof.
  unfold clean, header_len. intros Hw. rewrite skip_space_all by done. rewrite length_app.
  pose proof (skip_space_len t). destruct (hend (skip_space t)) as [j |]; cbn.
  - replace (length w + length t - length (skip_space t) + j)%nat
      with (length w + (length t - length (skip_space t) + j))%nat by lia.
    rewrite take_app_add. rewrite in_app_iff. tauto.
  - rewrite in_app_iff. tauto.
Qed.

(** The white space in front of a message may have been received before. *)
Lemma message_split t n j : hend (skip_space t) = Some j -> header_len t = Some n ->
  skip_space (take n t) = take j (skip_space t) /\ drop n t = drop j (skip_space t).
Proof.
  unfold header_len. fold (white t). intros Hj. rewrite Hj. intros [= <-].
  rewrite take_white, drop_white by lia. by replace (white t + j - white t)%nat with j by lia.
Qed.

(** ** Receiving one message *)

(** What a stream [t] still has to deliver: the next message and what is behind. *)
Definition next_message (t : list Z) (j : nat) (lim : Z) : Prop :=
  hend (skip_space t) = Some j /\ Z.of_nat (white t + j) <= lim /\ clean t.

Definition same_place (h h' : http_conn) : Prop :=
  s (cws h') = s (cws h) /\ e (cws h') = e (cws h) /\ broken (cfd h') = broken (cfd h) /\
  (length (stream (cfd h')) <= length (stream (cfd h)))%nat.

Lemma receive_spec h m d :
  forall c fd, receiving h m c -> Z.of_nat (length (c ++ d)) <= room h ->
  let h1 := set_rxbuf (set_fd h fd) (f (cws h), f (cws h) + Z.of_nat (length c) + Z.of_nat (length d)) in
  let p := f (cws h) + Z.of_nat (length c) in
  receiving h1 (<[p + Z.of_nat (length d) := 0]> (memcpy m p d)) (c ++ d).
Proof.
  intros c fd (W & Hr & Hp & Eb & Hf & Hc) Hroom h1 p. unfold h1, room in *.
  unfold receiving. cbn. rewrite length_app in *. rewrite Nat2Z.inj_add.
  split; [done |]. split; [done |]. split; [done |]. split; [f_equal; lia |]. split; [lia |].
  rewrite slice_insert by lia. rewrite slice_app, slice_memcpy_out by lia. rewrite Hc.
  f_equal. apply slice_memcpy.
Qed.

Lemma HTC_Rx_spec h m c j :
  receiving h m c -> header_len c = None -> next_message (c ++ stream (cfd h)) j (room h) ->
  exists i h' m', HTC_Rx h m = Some (i, h', m') /\ same_place h h' /\
    ((i = 0 /\ exists c', receiving h' m' c' /\ header_len c' = None /\ room h' = room h /\
        skip_space (c' ++ stream (cfd h')) = skip_space (c ++ stream (cfd h)) /\
        next_message (c' ++ stream (cfd h')) j (room h') /\
        (length (stream (cfd h')) < length (stream (cfd h)))%nat) \/
     (i = 1 /\ exists msg p, framed h' m' msg p /\ Z.of_nat (length p) < room h /\
        skip_space msg = take j (skip_space (c ++ stream (cfd h))) /\
        p ++ stream (cfd h') = drop j (skip_space (c ++ stream (cfd h))))).
Proof.
  intros R Hc (Hj & Hlim & H0). pose proof R as (W & Hr & Hp & Eb & Hf & Hm).
  set (t := c ++ stream (cfd h)) in *.
  assert (Ht : header_len t = Some (white t + j)%nat) by (unfold header_len; by rewrite Hj).
  assert (Hlen : (length c < white t + j)%nat).
  { pose proof (header_len_cut t _ (length c) Ht) as E. unfold t in E at 1.
    rewrite take_app_length, Hc in E. destruct (Nat.leb_spec (white t + j) (length c)); [done | lia]. }
  assert (Hs : stream (cfd h) <> []).
  { intros E. unfold t in Ht. rewrite E, app_nil_r, Hc in Ht. done. }
  unfold room in Hlim. unfold HTC_Rx. rewrite Eb, (proj2 (Z.eqb_neq _ _) Hr). cbn [negb].
  set (i := r (cws h) - (f (cws h) + Z.of_nat (length c)) - 1).
  rewrite (proj2 (Z.leb_gt i 0)) by lia.
  destruct (read_some (cfd h) i ltac:(lia) Hs) as (d & fd' & -> & Hd & Hdl & Hb & Es).
  destruct d as [| d0 d]; [done |]. set (dd := d0 :: d) in *.
  assert (Et : t = (c ++ dd) ++ stream fd') by (unfold t; by rewrite Es, app_assoc).
  assert (R1 := receive_spec h m dd c fd' R).
  specialize (R1 ltac:(unfold room; rewrite length_app; lia)).
  cbv zeta in R1. set (h1 := set_rxbuf _ _) in *. set (m1 := <[_ := 0]> _) in *.
  assert (Hle : (length (stream fd') <= length (stream (cfd h)))%nat) by (rewrite Es, length_app; lia).
  assert (Hcl : clean (c ++ dd)).
  { rewrite <- (take_app_length (c ++ dd) (stream fd')), <- Et. by apply (clean_take _ (white t + j)). }
  pose proof (complete_spec h1 m1 (c ++ dd) R1 Hcl) as C.
  pose proof (header_len_cut t _ (length (c ++ dd)) Ht) as Hcut. rewrite Et in Hcut at 1.
  rewrite take_app_length in Hcut.
  case_bool_decide as Hsp.
  - destruct C as (h2 & m2 & E2 & R2 & Er2 & Ef2 & Es2 & Ee2). exists 0, h2, m2. split; [exact E2 |].
    split; [unfold same_place; rewrite Ef2; split; [exact Es2 | split; [exact Ee2 | by split]] |]. left. split; [done |]. exists [].
    rewrite Ef2. cbn [app]. change (cfd h1) with fd'.
    assert (Esk : skip_space (stream fd') = skip_space t) by (rewrite Et; by rewrite skip_space_all).
    split; [done |]. split; [done |]. split; [exact Er2 |]. split; [done |]. split.
    + split; [by rewrite Esk |]. split.
      * rewrite Er2. change (room h1) with (room h). unfold room, white in *. rewrite Esk.
        rewrite Et, length_app in Hlim. rewrite <- Et in Hlim. lia.
      * apply (clean_skip (c ++ dd)); [done |]. by rewrite <- Et.
    + rewrite Es, length_app. cbn. lia.
  - destruct (header_len (c ++ dd)) as [n |] eqn:En.
    + destruct C as (h2 & E2 & F2 & Ef2 & Es2 & Ee2). exists 1, h2, m1. split; [exact E2 |].
      split; [unfold same_place; rewrite Ef2; split; [exact Es2 | split; [exact Ee2 | by split]] |]. right. split; [done |].
      destruct (Nat.leb_spec (white t + j) (length (c ++ dd))) as [Hle' |]; [| done]. injection Hcut as ->.
      destruct (message_split t _ j Hj Ht) as [M1 M2].
      exists (take (white t + j) (c ++ dd)), (drop (white t + j) (c ++ dd)). split; [exact F2 |]. split.
      * rewrite length_drop, length_app. unfold room. pose proof (hend_len _ _ Hj). lia.
      * rewrite Ef2. change (cfd h1) with fd'. rewrite <- M1, <- M2.
        rewrite <- (take_app_le (c ++ dd) (stream fd')), <- Et by done. split; [done |].
        by rewrite <- drop_app_le, <- Et.
    + exists 0, h1, m1. split; [exact C |]. split; [split; [done | split; [done | by split]] |].
      left. split; [done |]. exists (c ++ dd). change (cfd h1) with fd'. rewrite <- Et.
      split; [exact R1 |]. split; [done |]. split; [done |]. split; [done |]. split; [by split |].
      rewrite Es, length_app. cbn. lia.
Qed.

Lemma rx_loop_spec fuel : forall h m c j,
  receiving h m c -> header_len c = None -> next_message (c ++ stream (cfd h)) j (room h) ->
  (length (stream (cfd h)) <= fuel)%nat ->
  exists h' m' msg p, rx_loop fuel h m = Some (1, h', m') /\ same_place h h' /\
    framed h' m' msg p /\ Z.of_nat (length p) < room h /\
    skip_space msg = take j (skip_space (c ++ stream (cfd h))) /\
    p ++ stream (cfd h') = drop j (skip_space (c ++ stream (cfd h))).
Proof.
  induction fuel as [| fuel IH]; intros h m c j R Hc N Hf.
  { exfalso. destruct (stream (cfd h)) eqn:E; [| cbn in Hf; lia]. rewrite app_nil_r in N.
    destruct N as (Hj & _). unfold header_len in Hc. by rewrite Hj in Hc. }
  cbn [rx_loop]. destruct (HTC_Rx_spec h m c j R Hc N) as (i & h1 & m1 & -> & S1 & [H | H]).
  - destruct H as (-> & c' & R' & Hc' & Er & Esk & N' & Hlt).
    destruct (IH h1 m1 c' j R' Hc' N' ltac:(lia)) as (h2 & m2 & msg & p & E2 & S2 & F2 & L2 & M2 & P2).
    exists h2, m2, msg, p. split; [exact E2 |]. rewrite <- Esk, <- Er.
    split; [unfold same_place in *; intuition (congruence || lia) |]. done.
  - destruct H as (-> & msg & p & F & L & M & P). exists h1, m1, msg, p. done.
Qed.

(** ** Starting and starting over *)

Definition half (w : ws) : Z := (e w - s w) / 2.
(** A workspace that is free from [f0] on, for more than half of its size. *)
Definition open_at (w : ws) (f0 : Z) : Prop :=
  wf w /\ r w = 0 /\ s w <= f0 /\ 1 < half w /\ f0 + half w <= e w.

Lemma WS_Reserve_spec w : open_at w (f w) ->
  exists k, WS_Reserve w ((e w - s w) / 2) = Some (k, MkWs (s w) (f w) (f w + half w) (e w) (overflow w)).
Proof.
  intros (W & Hr & Hs & Hh & He). unfold WS_Reserve. fold (half w). rewrite (wf_assert _ W), Hr. cbn [Z.eqb].
  rewrite (proj2 (Z.eqb_neq (half w) 0)) by lia. rewrite (proj2 (Z.leb_le _ _)) by exact He. eauto.
Qed.
Lemma open_wf w : open_at w (f w) -> wf (MkWs (s w) (f w) (f w + half w) (e w) (overflow w)).
Proof. unfold open_at, wf. cbn. lia. Qed.

Lemma HTC_Init_spec w fd m : open_at w (f w) ->
  exists h m', HTC_Init w fd m = Some (h, m') /\ receiving h m' [] /\ cfd h = fd /\
    room h = half w - 1 /\ s (cws h) = s w /\ e (cws h) = e w.
Proof.
  intros H. unfold HTC_Init. destruct (WS_Reserve_spec w H) as [k ->]. eexists _, _. split; [reflexivity |].
  split; [| unfold room; cbn; split; [done | split; [lia | done]]].
  unfold receiving. cbn. split; [by apply open_wf |]. destruct H as (W & Hr & Hs & Hh & He). unfold wf in W.
  split; [lia |]. split; [done |]. split; [f_equal; lia |]. split; [lia | done].
Qed.

(** The pipelined input [p], if any, is at its place. *)
Definition piped (h : http_conn) (m : mem) (p : list Z) : Prop :=
  match pipeline h with
  | Some (b, e) => e = b + Z.of_nat (length p) /\ slice m b (length p) = p
  | None => p = []
  end.

Lemma HTC_Reinit_spec h m p :
  open_at (cws h) (f (cws h)) -> piped h m p -> Z.of_nat (length p) < half (cws h) ->
  exists h1 m1, HTC_Reinit h m = HTC_Complete h1 m1 /\ receiving h1 m1 p /\ cfd h1 = cfd h /\
    room h1 = half (cws h) - 1 /\ s (cws h1) = s (cws h) /\ e (cws h1) = e (cws h).
Proof.
  intros O P Hl. unfold HTC_Reinit. destruct (WS_Reserve_spec _ O) as [k ->].
  pose proof (open_wf _ O) as W. set (w := MkWs _ _ _ _ _) in *. destruct O as (_ & _ & Hs & Hh & He).
  assert (E : exists m1, match pipeline (set_ws h w) with
      | Some (pb, pe) => (f w + (pe - pb), memmove m (f w) pb (Z.to_nat (pe - pb)))
      | None => (f w, m) end = (f w + Z.of_nat (length p), m1) /\ slice m1 (f w) (length p) = p).
  { unfold piped in P. cbn [set_ws pipeline]. destruct (pipeline h) as [[b e'] |].
    - destruct P as [-> Ps]. eexists. split; [f_equal; lia |].
      replace (Z.to_nat (b + Z.of_nat (length p) - b)) with (length p) by lia. unfold memmove. rewrite Ps.
      apply slice_memcpy.
    - subst p. exists m. split; [f_equal; cbn; lia | done]. }
  destruct E as (m1 & -> & Em). eexists _, _. split; [reflexivity |].
  split; [| unfold room; cbn; split; [done | split; [lia | done]]].
  unfold receiving. cbn. split; [exact W |]. unfold wf in W. cbn in W.
  split; [lia |]. split; [done |]. split; [done |]. split; [lia |].
  rewrite slice_insert by (cbn; lia). exact Em.
Qed.

Lemma framed_bytes h m c p : framed h m c p -> bytes m (fst (rxbuf h)) (snd (rxbuf h)) = c.
Proof. intros (_ & _ & (b & -> & Hs) & _). cbn [fst snd]. by rewrite bytes_slice. Qed.
Lemma framed_piped h m c p : framed h m c p -> piped h m p.
Proof.
  intros (_ & _ & _ & H). unfold piped. destruct (pipeline h) as [[b e'] |]; [| done]. naive_solver.
Qed.

(** One message, white space in front included. *)
Definition message (k : list Z) : Prop := hend (skip_space k) = Some (length (skip_space k)).

Lemma message_nonempty k : message k -> skip_space k <> [].
Proof. unfold message. intros H E. by rewrite E in H. Qed.
Lemma message_next k rest lim :
  message k -> Z.of_nat (length k) <= lim -> ~ In 0 k ->
  next_message (k ++ rest) (length (skip_space k)) lim /\
  take (length (skip_space k)) (skip_space (k ++ rest)) = skip_space k /\
  drop (length (skip_space k)) (skip_space (k ++ rest)) = rest.
Proof.
  intros H Hl H0. pose proof (message_nonempty k H) as Hn. pose proof (skip_space_len k) as Hk.
  unfold next_message, white, clean, header_len. rewrite !skip_space_app by done.
  rewrite (hend_app _ rest _ H). cbn [fmap option_fmap option_map]. rewrite !length_app. split; [| split].
  - split; [done |]. split; [lia |].
    replace (length k + length rest - (length (skip_space k) + length rest) + length (skip_space k))%nat
      with (length k) by lia.
    by rewrite take_app_length.
  - apply take_app_length.
  - apply drop_app_length.
Qed.

Definition acceptable (lim : Z) (k : list Z) : Prop := message k /\ ~ In 0 k /\ Z.of_nat (length k) <= lim.

(** ** A session: message after message *)

Section Session.
Context (handle : http_conn -> mem -> ws * mem) (f0 : Z).

(** What the program does with a message: it uses its workspace, behind the
    input, and leaves the pipelined input alone. *)
Definition handle_law : Prop := forall h m c p, framed h m c p ->
  let '(w, m') := handle h m in
  wf w /\ r w = 0 /\ s w = s (cws h) /\ e w = e (cws h) /\ piped (set_ws h w) m' p.

(** The start of the next request on a connection: [cnt_done]. *)
Definition again (fuel : nat) (h : http_conn) (m : mem) : option (Z * http_conn * mem) :=
  let '(w, m) := handle h m in
  let? w := WS_Reset w f0 in
  let? (i, h, m) := HTC_Reinit (set_ws h w) m in
  if i =? 0 then rx_loop fuel h m else Some (i, h, m).

(** [n] more messages after the one that has been received. *)
Fixpoint serve (fuel n : nat) (h : http_conn) (m : mem) : option (list (list Z) * http_conn * mem) :=
  let msg := bytes m (fst (rxbuf h)) (snd (rxbuf h)) in
  match n with
  | O => Some ([msg], h, m)
  | S n =>
      let? (i, h, m) := again fuel h m in
      assert! i =? 1 ;;
      let? (l, h, m) := serve fuel n h m in
      Some (msg :: l, h, m)
  end.

Lemma again_spec fuel h m c p j :
  handle_law -> 0 < f0 -> open_at (cws h) f0 -> framed h m c p -> Z.of_nat (length p) < half (cws h) - 1 ->
  next_message (p ++ stream (cfd h)) j (half (cws h) - 1) -> (length (stream (cfd h)) <= fuel)%nat ->
  exists h' m' msg p', again fuel h m = Some (1, h', m') /\ same_place h h' /\ framed h' m' msg p' /\
    Z.of_nat (length p') < half (cws h) - 1 /\
    skip_space msg = take j (skip_space (p ++ stream (cfd h))) /\
    p' ++ stream (cfd h') = drop j (skip_space (p ++ stream (cfd h))).
Proof.
  intros HL Hf0 O F Hp N Hfu. unfold again. specialize (HL h m c p F).
  destruct (handle h m) as [w m0]. destruct HL as (W & Hr & Es & Ee & P).
  destruct O as (_ & _ & Os & Oh & Oe). assert (Eh : half w = half (cws h)) by (unfold half; by rewrite Es, Ee).
  unfold WS_Reset. rewrite (wf_assert _ W), Hr. cbn [Z.eqb].
  rewrite (proj2 (Z.eqb_neq f0 0)), (proj2 (Z.leb_le _ _)), (proj2 (Z.ltb_lt _ _)) by lia.
  set (w' := MkWs _ _ _ _ _).
  assert (W' : wf w') by (unfold wf in *; cbn in *; lia).
  destruct (HTC_Reinit_spec (set_ws h w') m0 p) as (h1 & m1 & E1 & R1 & Ef1 & Er1 & Es1 & Ee1).
  { unfold open_at. cbn. change (half w') with (half w). rewrite Eh. split; [exact W' |]. lia. }
  { exact P. }
  { change (half (cws (set_ws h w'))) with (half w). lia. }
  rewrite E1. change (half (cws (set_ws h w'))) with (half w) in Er1. cbn in Ef1, Es1, Ee1. rewrite Eh in Er1.
  destruct N as (Hj & Hlim & H0). set (t := p ++ stream (cfd h)) in *.
  assert (Ht : header_len t = Some (white t + j)%nat) by (unfold header_len; by rewrite Hj).
  assert (Hcl : clean p).
  { rewrite <- (take_app_length p (stream (cfd h))). by apply (clean_take t (white t + j)). }
  pose proof (complete_spec h1 m1 p R1 Hcl) as C.
  pose proof (header_len_cut t _ (length p) Ht) as Hcut. unfold t in Hcut at 1. rewrite take_app_length in Hcut.
  case_bool_decide as Hsp.
  - destruct C as (h2 & m2 & -> & R2 & Er2 & Ef2 & Es2 & Ee2). cbn [Z.eqb].
    assert (Esk : skip_space t = skip_space (stream (cfd h2))) by (unfold t; rewrite skip_space_all, Ef2, Ef1; done).
    destruct (rx_loop_spec fuel h2 m2 [] j R2 eq_refl) as (h3 & m3 & msg & p' & E3 & S3 & F3 & L3 & M3 & P3).
    + cbn [app]. split; [by rewrite <- Esk |]. split.
      * unfold white in *. rewrite <- Esk, Er2, Er1, Ef2, Ef1. unfold t in Hlim at 1. rewrite length_app in Hlim. lia.
      * rewrite Ef2, Ef1. by apply (clean_skip p).
    + by rewrite Ef2, Ef1.
    + exists h3, m3, msg, p'. split; [exact E3 |]. cbn [app] in *. rewrite <- Esk in *.
      split; [unfold same_place in *; rewrite Ef2, Ef1, Es2, Ee2, Es1, Ee1 in S3; intuition congruence |].
      split; [exact F3 |]. split; [lia |]. by split.
  - destruct (header_len p) as [n |] eqn:En.
    + destruct C as (h2 & -> & F2 & Ef2 & Es2 & Ee2). cbn [Z.eqb].
      destruct (Nat.leb_spec (white t + j) (length p)) as [Hle |]; [| done]. injection Hcut as ->.
      destruct (message_split t _ j Hj Ht) as [M1 M2].
      exists h2, m1, (take (white t + j) p), (drop (white t + j) p). split; [done |].
      split; [unfold same_place; rewrite Ef2, Ef1; split; [congruence | split; [congruence | done]] |].
      split; [exact F2 |]. split; [rewrite length_drop; lia |].
      rewrite <- M1, <- M2, Ef2, Ef1. unfold t. rewrite take_app_le, drop_app_le by done. done.
    + rewrite C. cbn [Z.eqb].
      destruct (rx_loop_spec fuel h1 m1 p j R1 En) as (h3 & m3 & msg & p' & E3 & S3 & F3 & L3 & M3 & P3).
      * rewrite Ef1, Er1. by split.
      * by rewrite Ef1.
      * exists h3, m3, msg, p'. split; [exact E3 |]. rewrite Ef1 in *.
        split; [unfold same_place in *; rewrite Ef1, Es1, Ee1 in S3; intuition congruence |].
        split; [exact F3 |]. split; [lia |]. by split.
Qed.

Lemma serve_spec fuel ms : forall h m c p tl,
  handle_law -> 0 < f0 -> open_at (cws h) f0 -> framed h m c p -> Z.of_nat (length p) < half (cws h) - 1 ->
  Forall (acceptable (half (cws h) - 1)) ms -> p ++ stream (cfd h) = concat ms ++ tl ->
  (length (stream (cfd h)) <= fuel)%nat ->
  exists l h' m' c' p', serve fuel (length ms) h m = Some (c :: l, h', m') /\
    map skip_space l = map skip_space ms /\ framed h' m' c' p' /\ p' ++ stream (cfd h') = tl.
Proof.
  induction ms as [| k ms IH]; intros h m c p tl HL Hf0 O F Hp Hms E Hfu; cbn [serve length].
  { rewrite (framed_bytes _ _ _ _ F). exists [], h, m, c, p. done. }
  rewrite (framed_bytes _ _ _ _ F). apply Forall_cons in Hms as [(Hk & H0 & Hkl) Hms]. cbn [concat] in E.
  rewrite <- app_assoc in E.
  destruct (message_next k (concat ms ++ tl) (half (cws h) - 1) Hk Hkl H0) as (N & T & D).
  rewrite <- E in N, T, D.
  destruct (again_spec fuel h m c p _ HL Hf0 O F Hp N Hfu) as (h1 & m1 & msg & p1 & -> & S1 & F1 & L1 & M1 & P1).
  cbn [Z.eqb Pos.eqb]. rewrite T in M1. rewrite D in P1. destruct S1 as (Es & Ee & _ & Hle).
  assert (Eh : half (cws h1) = half (cws h)) by (unfold half; by rewrite Es, Ee).
  assert (Hs1 : (length (stream (cfd h1)) <= fuel)%nat).
  { lia. }
  destruct (IH h1 m1 msg p1 tl) as (l & h2 & m2 & c2 & p2 & -> & Ml & F2 & P2); try done.
  - unfold open_at in *. rewrite Eh, Es, Ee. destruct F1 as (W1 & R1 & _). naive_solver.
  - by rewrite Eh.
  - by rewrite Eh.
  - exists (msg :: l), h2, m2, c2, p2. split; [done |]. split; [| done]. cbn [map]. by rewrite M1, Ml.
Qed.

(** A connection that has just been accepted, and its first [n + 1] messages. *)
Definition session (fuel n : nat) (w : ws) (fd : sock) (m : mem)
  : option (list (list Z) * http_conn * mem) :=
  let? (h, m) := HTC_Init w fd m in
  let? (i, h, m) := rx_loop fuel h m in
  assert! i =? 1 ;;
  serve fuel n h m.
End Session.

(** ** Reading behind the header *)

(** The pipelined input and what the kernel still delivers. *)
Definition rest (h : http_conn) (m : mem) : list Z :=
  match pipeline h with Some (b, e) => bytes m b e | None => [] end ++ stream (cfd h).
Definition readable (h : http_conn) : Prop :=
  match pipeline h with Some (b, e) => b < e | None => True end.

Lemma framed_rest h m c p : framed h m c p -> readable h /\ rest h m = p ++ stream (cfd h).
Proof.
  intros (_ & _ & _ & H). unfold readable, rest. destruct (pipeline h) as [[b e'] |].
  - destruct H as (-> & _ & _ & Hs & Hp). rewrite bytes_slice, Hs. split; [| done].
    destruct p; [done |]. cbn. lia.
  - by subst.
Qed.

(** What is taken from the pipelined input first. *)
Lemma pipe_take m b e n : 0 < n -> b < e ->
  let l := if n <? e - b then n else e - b in
  bytes m b e = bytes m b (b + l) ++ (if b + l =? e then [] else bytes m (b + l) e) /\
  length (bytes m b (b + l)) = Z.to_nat l /\ 0 < l <= n /\ (l < n -> b + l = e).
Proof.
  intros Hn Hb l. assert (Hl : 0 < l <= n /\ b + l <= e /\ (l < n -> b + l = e)).
  { unfold l. destruct (Z.ltb_spec n (e - b)); lia. }
  split; [| rewrite bytes_len; split; [f_equal; lia | lia]]. unfold bytes.
  replace (Z.to_nat (e - b)) with (Z.to_nat (b + l - b) + Z.to_nat (e - (b + l)))%nat by lia.
  rewrite slice_app. f_equal. destruct (Z.eqb_spec (b + l) e) as [E |].
  - by replace (Z.to_nat (e - (b + l))) with 0%nat by lia.
  - f_equal. lia.
Qed.

(** The read that follows: [d0] has been taken from the pipelined input. *)
Lemma read_on h0 d0 n' n :
  pipeline h0 = None -> 0 < n' -> Z.of_nat (length d0) + n' <= n ->
  exists d h', match read (cfd h0) n' with
               | (None, fd) => (None, set_fd h0 fd)
               | (Some d', fd) => (Some (d0 ++ d'), set_fd h0 fd)
               end = (d, h') /\ pipeline h' = None /\ broken (cfd h') = broken (cfd h0) /\
    match d with
    | Some d => d0 ++ stream (cfd h0) = d ++ stream (cfd h') /\ Z.of_nat (length d) <= n /\
                (d0 ++ stream (cfd h0) <> [] -> d <> [])
    | None => broken (cfd h0) = true /\ stream (cfd h0) = []
    end.
Proof.
  intros Hp Hn' Hl. destruct (read_spec (cfd h0) n' Hn') as (d & fd' & Hb & Es & Hd & Hne & ->).
  destruct (bool_decide (d = []) && broken (cfd h0)) eqn:E.
  - bool_prop. exists None. eexists. split; [done |]. split; [done |]. split; [done |].
    subst d. split; [done |]. destruct (stream (cfd h0)); [done |]. exfalso. by apply Hne.
  - exists (Some (d0 ++ d)). eexists. split; [done |]. split; [done |]. split; [done |]. cbn.
    rewrite Es, app_assoc. split; [done |]. rewrite length_app. split; [lia |].
    intros H E'. apply app_eq_nil in E' as [-> ->]. cbn [app] in *. apply Hne; [by rewrite Es | done].
Qed.

Lemma HTC_Read_spec h m n :
  readable h -> 0 < n ->
  exists d h', HTC_Read h m n = (d, h') /\ readable h' /\
    broken (cfd h') = broken (cfd h) /\
    match d with
    | Some d => rest h m = d ++ rest h' m /\ Z.of_nat (length d) <= n /\ (rest h m <> [] -> d <> [])
    | None => broken (cfd h) = true /\ stream (cfd h) = []
    end.
Proof.
  intros Hr Hn. unfold HTC_Read, readable, rest in *.
  destruct (pipeline h) as [[b e'] |] eqn:Ep.
  - destruct (pipe_take m b e' n Hn Hr) as (Eb & El & Hl & Hend). set (l := if n <? e' - b then n else e' - b) in *.
    rewrite El. destruct (Z.eqb_spec (n - Z.of_nat (Z.to_nat l)) 0) as [E0 | E0].
    + exists (Some (bytes m b (b + l))). eexists. split; [done |]. cbn.
      split; [destruct (Z.eqb_spec (b + l) e'); [done |]; unfold l in *; destruct (Z.ltb_spec n (e' - b)); lia |].
      split; [done |]. split; [rewrite Eb, <- app_assoc; by destruct (b + l =? e') |]. rewrite El. split; [lia |].
      intros _ E. apply (f_equal length) in E. rewrite El in E. cbn in E. lia.
    + pose proof (Hend ltac:(lia)) as Ebe. rewrite Ebe in El |- *. rewrite Z.eqb_refl.
      destruct (read_on (set_pipeline h None) (bytes m b e') (n - Z.of_nat (Z.to_nat l)) n eq_refl ltac:(lia) ltac:(rewrite El; lia))
        as (d & h' & E & Ep' & Hb' & Hd). exists d, h'. rewrite Ep'. split; [exact E |]. by destruct d.
  - cbn [length]. rewrite Z.sub_0_r, (proj2 (Z.eqb_neq n 0)) by lia.
    destruct (read_on h [] n n Ep Hn ltac:(cbn; lia)) as (d & h' & E & Ep' & Hb' & Hd).
    exists d, h'. rewrite Ep'. split; [exact E |]. by destruct d.
Qed.

#[export] Instance conn_Reader : Reader (http_conn * mem) := {
  rd s n := let '(r, h) := HTC_Read (fst s) (snd s) n in (r, (h, snd s));
  avail s := rest (fst s) (snd s);
  sound s := readable (fst s);
  whole s := broken (cfd (fst s)) = false
}.
#[export] Instance conn_ReaderLaws : ReaderLaws (http_conn * mem).
Proof.
  split.
  - intros [h m] n d s' Hs Hn. cbn in *. destruct (HTC_Read_spec h m n Hs Hn) as (d' & h' & -> & Hr & Hb & Hd).
    intros [= E <-]. destruct d' as [d' |]; [| done]. injection E as <-. cbn. rewrite Hb. naive_solver.
  - intros [h m] n Hs Hw Hn. cbn in *. destruct (HTC_Read_spec h m n Hs Hn) as (d' & h' & -> & Hr & Hb & Hd).
    destruct d'; [done |]. cbn. naive_solver congruence.
Qed.

(** ** The claims *)

(** C6: However the bytes of a connection arrive, in pieces of any size, the
    requests on it are cut at the ends of their headers: as many messages as
    are asked for come out, each the one that was sent but for white space in
    front of it, and what is pipelined together with what the kernel still
    holds is exactly what follows them.  In between, the program may use its
    workspace and starts over in the half that the input was received into. *)
Theorem connection_messages handle fuel w fd m k ms tl :
  handle_law handle -> 0 < f w -> open_at w (f w) ->
  Forall (acceptable (half w - 1)) (k :: ms) ->
  stream fd = concat (k :: ms) ++ tl -> (length (stream fd) <= fuel)%nat ->
  exists l h m', session handle (f w) fuel (length ms) w fd m = Some (l, h, m') /\
    map skip_space l = map skip_space (k :: ms) /\ readable h /\ rest h m' = tl.
Proof.
  intros HL Hf0 O Hms E Hfu. apply Forall_cons in Hms as [(Hk & H0 & Hkl) Hms]. cbn [concat] in E.
  rewrite <- app_assoc in E. unfold session.
  destruct (HTC_Init_spec w fd m O) as (h & m0 & -> & R & Ef & Er & Es & Ee).
  destruct (message_next k (concat ms ++ tl) (half w - 1) Hk Hkl H0) as (N & T & D).
  rewrite <- E in N, T, D.
  destruct (rx_loop_spec fuel h m0 [] _ R eq_refl ltac:(by rewrite Ef, Er) ltac:(by rewrite Ef))
    as (h1 & m1 & msg & p & -> & S1 & F1 & L1 & M1 & P1). cbn [Z.eqb Pos.eqb app] in *.
  rewrite Ef in *. rewrite T in M1. rewrite D in P1. destruct S1 as (Es1 & Ee1 & _ & Hle).
  assert (Eh : half (cws h1) = half w) by (unfold half; congruence).
  destruct (serve_spec handle (f w) fuel ms h1 m1 msg p tl HL Hf0) as (l & h2 & m2 & c2 & p2 & -> & Ml & F2 & P2).
  - unfold open_at in *. rewrite Eh, Es1, Ee1, Es, Ee. destruct F1 as (W1 & R1 & _). naive_solver.
  - exact F1.
  - rewrite Eh. lia.
  - by rewrite Eh.
  - done.
  - rewrite Ef in Hle. lia.
  - destruct (framed_rest _ _ _ _ F2) as [Hr2 E2].
    eexists _, h2, m2. split; [done |]. split; [cbn [map]; by rewrite M1, Ml |]. split; [exact Hr2 |].
    by rewrite E2.
Qed.

(** A server that looks at a request and does nothing. *)
Definition idle (h : http_conn) (m : mem) : ws * mem := (cws h, m).
Lemma idle_law : handle_law idle.
Proof.
  intros h m c p F. pose proof (framed_piped _ _ _ _ F) as P. destruct F as (W & Hr & _). cbn.
  split; [done |]. split; [done |]. split; [done |]. split; [done |]. exact P.
Qed.
Definition crlf : list Z := [13; 10].
Definition req1 : list Z := bs "GET / HTTP/1.1" ++ crlf ++ crlf.
Definition req2 : list Z := crlf ++ bs "GET /a HTTP/1.0" ++ [10; 10].
(** Two requests and the start of a body, in three pieces. *)
Definition pieces : sock :=
  let t := req1 ++ req2 ++ bs "body" in Sock [take 5 t; take 20 (drop 5 t); drop 25 t] false.
Definition ws64 : ws := MkWs 4096 4096 0 4160 0.

Lemma connection_messages_witness :
  exists l h m', session idle 4096 41 1 ws64 pieces ∅ = Some (l, h, m') /\
    map skip_space l = [req1; skip_space req2] /\ readable h /\ rest h m' = bs "body".
Proof.
  apply (connection_messages idle 41 ws64 pieces ∅ req1 [req2] (bs "body") idle_law).
  - done.
  - vm_compute. intuition congruence.
  - repeat constructor; try (by vm_compute); vm_compute; intuition congruence.
  - by vm_compute.
  - vm_compute. lia.
Defined.

(** White space that is followed by a NUL is thrown away with all the bytes
    behind it. *)
Lemma nul_clears : htc_header_complete (10 :: 0 :: req1) = Some (0, true).
Proof. reflexivity. Qed.
End HttpConnSpec.
