(* ===== verification/Fetch.v ===== *)
(** * Fetch: bodies from the backend

    [bin/varnishd/cache_fetch.c]: the body of a backend's answer is stored in
    pieces of storage.  Its end is given by a length, by chunks, or by the end
    of the connection.

    The connection is a [Reader]; the size of the storage that [STV_alloc] gives
    and that [STV_trim] leaves is the stevedore's.  [None] is a failed
    assertion, [Some None] the result -1, after which everything that has been
    stored is freed.  Log records are left out. *)
From S2P Require Import Prelude Strtoul Http Reader.

Module Fetch.
Import Strtoul Http Reader.

(** [struct storage]; [len] is the length of the data. *)
Record storage := St { space : Z; data : list Z }.
Definition len (st : storage) : Z := Z.of_nat (length (data st)).
Definition append (st : storage) (d : list Z) : storage := St (space st) (data st ++ d).

Section Fetching.
Context {R : Type} `{Reader R}.
Context (STV_alloc : list storage -> Z -> Z) (STV_trim : storage -> Z -> Z).
Context (fetch_chunksize fetchfrag : Z).

(** The object and the connection it is filled from. *)
Record fetch := Fetching { conn : R; store : list storage; obj_len : Z }.

(** [while (v > 0) HTC_Read(htc, st->ptr + st->len, v)], where [u] is counted
    down and [obj->len] up with it. *)
Fixpoint read_loop (fuel : nat) (s : R) (st : storage) (u v olen : Z)
  : option (option (R * storage * Z * Z)) :=
  match fuel with
  | O => None
  | S fuel =>
      if 0 <? v then
        match rd s v with
        | (None, _) | (Some [], _) => Some None
        | (Some d, s) =>
            let i := Z.of_nat (length d) in
            read_loop fuel s (append st d) (u32 (u - i)) (u32 (v - i)) (u32 (olen + i))
        end
      else Some (Some (s, st, u, olen))
  end.

(** ** A body of known length *)

Fixpoint straight_loop (fuel : nat) (s : R) (l : list storage) (cl olen : Z) : option (option fetch) :=
  match fuel with
  | O => None
  | S fuel' =>
      if 0 <? cl then
        let st := St (STV_alloc l cl) [] in
        let sl := if cl <? space st then cl else space st in
        let? r := read_loop fuel s st cl sl olen in
        match r with
        | None => Some None
        | Some (s, st, cl, olen) => straight_loop fuel' s (l ++ [st]) cl olen
        end
      else Some (Some (Fetching s l olen))
  end.

Definition fetch_straight (fuel : nat) (f : fetch) (b : list Z) : option (option fetch) :=
  let '(cll, _) := strtoul 0 b in
  if cll =? 0 then Some (Some f)
  else
    let cl := u32 cll in
    assert! cl =? cll ;;
    straight_loop fuel (conn f) (store f) cl (obj_len f).

(** ** A chunked body *)

(** [while ( *q == '\t' || *q == ' ') q++] *)
Fixpoint blanks (l : list Z) : nat :=
  match l with
  | c :: l' => if (c =? 9) || (c =? 32) then S (blanks l') else O
  | [] => O
  end.

(** The chunk length in the buffer and where the data begin. *)
Definition parse_chunk (buf : list Z) : option (Z * nat) :=
  match strtoul 16 buf with
  | (_, O) => None
  | (u, q) =>
      let q := (q + blanks (drop q buf))%nat in
      let q := if at_ buf q =? 13 then S q else q in
      if at_ buf q =? 10 then Some (u32 u, S q) else None
  end.

(** [sizeof buf - 1] *)
Definition line_max : nat := 19.

(** Reading the line of a chunk, one character at a time. *)
Fixpoint chunk_line (fuel : nat) (s : R) (buf : list Z) : option (option (R * list Z * Z * nat)) :=
  match fuel with
  | O => None
  | S fuel =>
      match parse_chunk buf with
      | Some (u, q) => Some (Some (s, buf, u, q))
      | None =>
          if (line_max <=? length buf)%nat then Some None
          else match rd s 1 with
               | (None, _) | (Some [], _) => Some None
               | (Some d, s) => chunk_line fuel s (buf ++ d)
               end
      end
  end.

(** Some storage if we don't have any. *)
Definition next_storage (l : list storage) (st : option storage) (u : Z) : list storage * storage :=
  let v := if u <? u32 (fetch_chunksize * 1024) then u32 (fetch_chunksize * 1024) else u in
  match st with
  | Some st => if len st =? space st then (l ++ [st], St (STV_alloc (l ++ [st]) v) []) else (l, st)
  | None => (l, St (STV_alloc l v) [])
  end.

(** The data of a chunk: [u] bytes, the first of them from the buffer. *)
Fixpoint chunk_data (fuel : nat) (s : R) (l : list storage) (st : option storage) (u olen : Z)
  (left : list Z) : option (option (R * list storage * option storage * Z * list Z)) :=
  match fuel with
  | O => None
  | S fuel' =>
      if 0 <? u then
        let '(l, st) := next_storage l st u in
        let v := u32 (space st - len st) in
        let v := if u <? v then u else v in
        (* anything left in our buffer first *)
        let w := Nat.min (length left) (Z.to_nat v) in
        let st := append st (take w left) in
        let olen := u32 (olen + Z.of_nat w) in
        let u := u32 (u - Z.of_nat w) in
        let v := u32 (v - Z.of_nat w) in
        let left := drop w left in
        if u =? 0 then Some (Some (s, l, Some st, olen, left))
        else if v =? 0 then chunk_data fuel' s l (Some st) u olen left
        else
          let? r := read_loop fuel s st u v olen in
          match r with
          | None => Some None
          | Some (s, st, u, olen) => chunk_data fuel' s l (Some st) u olen left
          end
      else Some (Some (s, l, st, olen, left))
  end.

(** The end: the last piece is given back or trimmed. *)
Definition finish (s : R) (l : list storage) (st : option storage) (olen : Z) : fetch :=
  match st with
  | None => Fetching s l olen
  | Some st =>
      if len st =? 0 then Fetching s l olen
      else Fetching s (l ++ [St (STV_trim st (len st)) (data st)]) olen
  end.

Fixpoint chunked_loop (fuel : nat) (s : R) (l : list storage) (st : option storage) (olen : Z)
  (buf : list Z) : option (option fetch) :=
  match fuel with
  | O => None
  | S fuel' =>
      let? r := chunk_line (S line_max) s buf in
      match r with
      | None => Some None
      | Some (s, buf, u, q) =>
          if u =? 0 then Some (Some (finish s l st olen))
          else
            let? r := chunk_data fuel s l st u olen (drop q buf) in
            match r with
            | None => Some None
            | Some (s, l, st, olen, buf) => chunked_loop fuel' s l st olen buf
            end
      end
  end.

Definition fetch_chunked (fuel : nat) (f : fetch) : option (option fetch) :=
  chunked_loop fuel (conn f) (store f) None (obj_len f) [].

(** ** A body that ends with the connection *)

(** New storage when the piece is used up. *)
Definition eof_storage (l : list storage) (st : option storage) (v : Z)
  : list storage * option storage * Z :=
  if v =? 0 then
    let l := l ++ option_list st in
    let st := St (STV_alloc l (fetch_chunksize * 1024)) [] in
    let v := u32 (space st - len st) in
    (l, Some st, if (0 <? fetchfrag) && (fetchfrag <? v) then fetchfrag else v)
  else (l, st, v).

Fixpoint eof_loop (fuel : nat) (s : R) (l : list storage) (st : option storage) (v olen : Z)
  : option (option fetch) :=
  match fuel with
  | O => None
  | S fuel =>
      let '(l, st, v) := eof_storage l st v in
      let? st := st in
      match rd s v with
      | (None, _) => Some None
      | (Some [], s) => Some (Some (finish s l (Some st) olen))
      | (Some d, s) =>
          let i := Z.of_nat (length d) in
          eof_loop fuel s l (Some (append st d)) (u32 (v - i)) (u32 (olen + i))
      end
  end.

Definition fetch_eof (fuel : nat) (f : fetch) : option (option fetch) :=
  eof_loop fuel (conn f) (store f) None 0 (obj_len f).

(** ** The body of an answer *)

Definition H_Content_Length : list Z := hdrconst (bs "Content-Length").
Definition H_Transfer_Encoding : list Z := hdrconst (bs "Transfer-Encoding").

Inductive outcome :=
  | Failed                                   (* the connection is closed *)
  | Fetched (f : fetch) (mklen close : bool).

(** The method that finds the end of the body; [hp] is the unmodified answer.
    The result is [None] for -1, or the object, [mklen] and whether [cls] is
    positive. *)
Definition fetch_method (fuel : nat) (bereq hp : http) (f : fetch)
  : option (option (fetch * bool * bool)) :=
  let wrap (r : option (option fetch)) (cls : bool) :=
    let? r := r in Some (let? f := r in Some (f, true, cls)) in
  let none (mklen : bool) := Some (Some (f, mklen, false)) in
  let? req := http_GetReq bereq in
  if strcaseeq req (bs "head") then none false
  else
    let? cl := http_GetHdr hp H_Content_Length in
    match cl with
    | Some b => wrap (fetch_straight fuel f b) false
    | None =>
        let? chunked := http_HdrIs hp H_Transfer_Encoding (bs "chunked") in
        if chunked : bool then wrap (fetch_chunked fuel f) false
        else
          let? te := http_GetHdr hp H_Transfer_Encoding in
          match te with
          | Some _ => Some None
          | None =>
              let? keep := http_HdrIs hp H_Connection (bs "keep-alive") in
              if keep : bool then none true
              else
                let? close := http_HdrIs hp H_Connection (bs "close") in
                if close : bool then wrap (fetch_eof fuel f) true
                else if protover hp <? 11 then wrap (fetch_eof fuel f) true
                else none true
          end
    end.

(** [protover] is in tenths. *)
Definition FetchBody (fuel : nat) (bereq hp : http) (f : fetch) : option outcome :=
  let? r := fetch_method fuel bereq hp f in
  match r with
  | None => Some Failed
  | Some (f, mklen, cls) =>
      let? close := http_HdrIs hp H_Connection (bs "close") in
      let? keep := if negb (cls || close) && (protover hp <? 11)
                   then http_HdrIs hp H_Connection (bs "keep-alive") else Some true in
      assert! u32 (foldr (fun st n => len st + n) 0 (store f)) =? obj_len f ;;
      Some (Fetched f mklen (cls || close || negb keep))
  end.

(** ** The body of a request

    What is read is sent on when [sendbody] is set; [flush] tells whether the
    backend took it. *)
Section Request.
Context (flush : list Z -> bool) (sendbody : bool).

Fixpoint req_loop (fuel : nat) (s : R) (n : Z) (sent : list Z) : option (Z * R * list Z) :=
  match fuel with
  | O => None
  | S fuel =>
      if n =? 0 then Some (0, s, sent)
      else match rd s (if 8192 <? n then 8192 else n) with
           | (None, s) | (Some [], s) => Some (1, s, sent)
           | (Some d, s) =>
               let n := n - Z.of_nat (length d) in
               if negb sendbody then req_loop fuel s n sent
               else if flush (sent ++ d) then req_loop fuel s n (sent ++ d)
               else Some (2, s, sent ++ d)
           end
  end.

Definition FetchReqBody (fuel : nat) (hp : http) (s : R) : option (Z * R * list Z) :=
  let? cl := http_GetHdr hp H_Content_Length in
  let? (i, s, sent) := match cl with
                       | Some b => req_loop fuel s (fst (strtoul 10 b)) []
                       | None => Some (0, s, [])
                       end in
  if negb (i =? 0) then Some (i, s, sent)
  else
    let? te := http_GetHdr hp H_Transfer_Encoding in
    Some (match te with Some _ => 1 | None => 0 end, s, sent).
End Request.

End Fetching.

Arguments fetch R : clear implicits.
Arguments outcome R : clear implicits.

End Fetch.
