(* ===== verification/FetchSpec.v ===== *)
(** * FetchSpec: bodies are stored as they were sent

    The loops of [Fetch] against any [Reader]: a body of known length is stored
    completely or not at all, chunks are decoded, and the length of the object
    is the sum of its pieces. *)
From S2P Require Import Prelude Strtoul Http Reader Ws HttpConn HttpConnSpec Fetch.

Module FetchSpec.
Import Strtoul Ws HttpConn HttpConnSpec Http Reader Fetch.

Lemma u32_idem x y : u32 (u32 x + y) = u32 (x + y).
Proof. unfold u32. by rewrite Zplus_mod_idemp_l. Qed.

Definition content (l : list storage) : list Z := concat (map data l).
Lemma content_app l l' : content (l ++ l') = content l ++ content l'.
Proof. unfold content. by rewrite map_app, concat_app. Qed.
Lemma content_snoc l st : content (l ++ [st]) = content l ++ data st.
Proof. rewrite content_app. unfold content. cbn. by rewrite app_nil_r. Qed.

(** A piece of storage that holds something and not too much. *)
Definition filled (st : storage) : Prop := 0 < len st <= space st /\ space st < 2 ^ 32.

Lemma at_ge l i : (length l <= i)%nat -> at_ l i = 0.
Proof. intros H. unfold at_. by rewrite lookup_ge_None_2. Qed.

(** ** Chunk lines

    The length in hexadecimal after white space (the end of the line behind the
    last data), blanks, and the end of the line. *)
Definition blank (c : Z) : bool := (c =? 9) || (c =? 32).
Definition eol (cr : bool) : list Z := if cr then [13; 10] else [10].
Record line := Line { l_hex : list Z; l_blank : list Z; l_cr : bool }.
Definition print_line (x : line) : list Z := l_hex x ++ l_blank x ++ eol (l_cr x).
Definition line_ok (x : line) (n : Z) : Prop :=
  l_hex x <> [] /\ Forall (fun c => is_Some (is_digit 16 c)) (l_hex x) /\
  Forall (fun c => blank c = true) (l_blank x) /\ fst (digits 16 (l_hex x) 0) = n /\
  (length (l_hex x) + length (l_blank x) <= 15)%nat.

Lemma blanks_app bl l : Forall (fun c => blank c = true) bl -> blank (peek l) = false ->
  blanks (bl ++ l) = length bl.
Proof.
  unfold blank. intros Hb Hl. induction Hb as [| c bl Hc _ IH]; cbn; [| by rewrite Hc, IH].
  destruct l as [| c l]; [done |]. cbn in *. by rewrite Hl.
Qed.

Lemma parse_spaces sp : Forall (fun c => isspace c = true) sp -> parse_chunk sp = None.
Proof.
  intros Hsp. unfold parse_chunk, strtoul.
  assert (Hz : ~ In 0 sp).
  { rewrite <- list_elem_of_In. intros Hin. rewrite Forall_forall in Hsp. by specialize (Hsp _ Hin). }
  rewrite <- (app_nil_r sp), c_str_app, spaces_app, drop_app_length by done. done.
Qed.

(** What the tail of a line makes of a number. *)
Lemma parse_number sp hx bl t :
  Forall (fun c => isspace c = true) sp -> hx <> [] -> Forall (fun c => is_Some (is_digit 16 c)) hx ->
  Forall (fun c => blank c = true) bl -> (length hx <= 15)%nat ->
  t = [] \/ t = [13] \/ t = [10] \/ t = [13; 10] ->
  parse_chunk (sp ++ hx ++ bl ++ t) =
    if at_ t (length t - 1) =? 10
    then Some (u32 (fst (digits 16 hx 0)), length (sp ++ hx ++ bl ++ t)) else None.
Proof.
  intros Hsp Hne Hhx Hbl Hlen Ht. unfold parse_chunk.
  assert (Hpk : peek (bl ++ t) = 9 \/ peek (bl ++ t) = 32 \/ peek (bl ++ t) = 0 \/ peek (bl ++ t) = 13 \/ peek (bl ++ t) = 10).
  { destruct bl as [| c bl]; [destruct Ht as [-> | [-> | [-> | ->]]]; cbn; lia |].
    apply Forall_cons in Hbl as [Hc _]. unfold blank in Hc. cbn. lia. }
  rewrite (strtoul_hex sp hx (bl ++ t) (fst (digits 16 hx 0))); try done.
  2:{ destruct Hpk as [-> | [-> | [-> | [-> | ->]]]]; done. }
  2:{ destruct Hpk as [-> | [-> | [-> | [-> | ->]]]]; done. }
  2:{ pose proof (digits_bound 16 hx 0 ltac:(lia) ltac:(lia) Hhx).
      assert (16 ^ Z.of_nat (length hx) <= 16 ^ 15) by (apply Z.pow_le_mono_r; lia). unfold ULONG_MAX. lia. }
  destruct (length sp + length hx)%nat as [| k] eqn:Ek; [destruct hx; [done | cbn in Ek; lia] |]. rewrite <- Ek.
  rewrite app_assoc, <- length_app, drop_app_length, blanks_app by (done || (destruct Ht as [-> | [-> | [-> | ->]]]; done)).
  rewrite app_assoc, <- length_app. set (p := (sp ++ hx) ++ bl).
  rewrite (at_app_r p t (length p)), Nat.sub_diag by lia.
  destruct Ht as [-> | [-> | [-> | ->]]]; cbn [length at_ Nat.sub].
  - change (at_ [] 0 =? 13) with false. cbv iota. rewrite app_nil_r, at_ge by lia. done.
  - change (at_ [13] 0 =? 13) with true. cbv iota. rewrite at_ge by (rewrite length_app; cbn; lia). done.
  - change (at_ [10] 0 =? 13) with false. cbv iota. rewrite at_app_r, Nat.sub_diag by lia.
    rewrite length_app. cbn. do 2 f_equal. lia.
  - change (at_ [13; 10] 0 =? 13) with true. cbv iota. rewrite at_app_r by lia.
    replace (S (length p) - length p)%nat with 1%nat by lia. rewrite length_app. cbn. do 2 f_equal. lia.
Qed.

Definition lead_ok (sp : list Z) : Prop := Forall (fun c => isspace c = true) sp /\ (length sp <= 2)%nat.

Lemma parse_line sp x n : lead_ok sp -> line_ok x n ->
  parse_chunk (sp ++ print_line x) = Some (u32 n, length (sp ++ print_line x)) /\
  (length (sp ++ print_line x) <= line_max)%nat /\
  forall k, (k < length (sp ++ print_line x))%nat -> parse_chunk (take k (sp ++ print_line x)) = None.
Proof.
  intros [Hsp Hsl] (Hne & Hhx & Hbl & <- & Hlen). unfold print_line.
  set (hx := l_hex x) in *. set (bl := l_blank x) in *. split; [| split].
  - rewrite parse_number by (try done; try lia; destruct (l_cr x); cbn; tauto). by destruct (l_cr x).
  - rewrite !length_app. unfold line_max. destruct (l_cr x); cbn; lia.
  - intros k Hk. rewrite !length_app in Hk. destruct (Nat.le_gt_cases k (length sp)) as [Hle | Hgt].
    { rewrite take_app_le by done. apply parse_spaces. by apply Forall_take. }
    rewrite !take_app, (take_ge sp) by lia.
    rewrite parse_number.
    + destruct (l_cr x); cbn [eol length] in *.
      * destruct (k - length sp - length hx - length bl)%nat as [| [| j]] eqn:E; [done | done | lia].
      * destruct (k - length sp - length hx - length bl)%nat as [| j] eqn:E; [done | lia].
    + done.
    + destruct hx as [| c hx]; [done |]. destruct (k - length sp)%nat eqn:E; [lia | done].
    + by apply Forall_take.
    + by apply Forall_take.
    + rewrite length_take. lia.
    + destruct (l_cr x); cbn [eol].
      * destruct (k - length sp - length hx - length bl)%nat as [| [| j]]; cbn; rewrite ?take_nil; tauto.
      * destruct (k - length sp - length hx - length bl)%nat as [| j]; cbn; [tauto | rewrite take_nil; tauto].
Qed.

Lemma parse_len buf u q : parse_chunk buf = Some (u, q) -> (0 < q <= length buf)%nat /\ 0 <= u < 2 ^ 32.
Proof.
  unfold parse_chunk. destruct (strtoul 16 buf) as [v [| k]]; [done |].
  set (p := if at_ buf _ =? 13 then _ else _). destruct (at_ buf p =? 10) eqn:E; [| done].
  intros [= <- <-]. split; [| apply u32_range]. split; [lia |].
  destruct (Nat.le_gt_cases (length buf) p); [by rewrite at_ge in E | lia].
Qed.

(** A chunked body in a stream, read line by line: what it holds and what is
    behind it. *)
Inductive chunks : list Z -> list Z -> list Z -> Prop :=
  | chunks_last l x q : parse_chunk l = Some (0, q) -> chunks (l ++ x) [] (drop q l ++ x)
  | chunks_more l x u q d y body z :
      parse_chunk l = Some (u, q) -> u <> 0 -> drop q l ++ x = d ++ y -> Z.of_nat (length d) = u ->
      chunks y body z -> chunks (l ++ x) (d ++ body) z.

(** How a body is sent in chunks. *)
Record chunk := Chunk { c_line : line; c_data : list Z }.
Definition chunk_ok (c : chunk) : Prop :=
  line_ok (c_line c) (Z.of_nat (length (c_data c))) /\ 0 < Z.of_nat (length (c_data c)) < 2 ^ 32.
Fixpoint encode (cs : list chunk) (last : line) : list Z :=
  match cs with
  | [] => print_line last
  | c :: cs => print_line (c_line c) ++ c_data c ++ eol (l_cr (c_line c)) ++ encode cs last
  end.
Definition bodies (cs : list chunk) : list Z := concat (map c_data cs).

Section Spec.
Context {R : Type} `{ReaderLaws R}.
Context (STV_alloc : list storage -> Z -> Z) (STV_trim : storage -> Z -> Z).
Context (fetch_chunksize fetchfrag : Z).

(** What the stevedore promises: some space, maybe less than was asked for; and
    trimming leaves room for what is stored. *)
Definition alloc_law : Prop := forall l n, 0 < n -> 0 < STV_alloc l n < 2 ^ 32.
Definition trim_law : Prop := forall st, filled st -> len st <= STV_trim st (len st) < 2 ^ 32.
Definition params_ok : Prop := 0 < fetch_chunksize * 1024 < 2 ^ 32 /\ 0 <= fetchfrag < 2 ^ 32.

(** The bytes [body] have been read. *)
Definition took (s s' : R) (body : list Z) : Prop :=
  avail s = body ++ avail s' /\ sound s' /\ (whole s -> whole s').
Lemma took_nil s : sound s -> took s s [].
Proof. by split. Qed.
Lemma took_app s s1 s2 a b : took s s1 a -> took s1 s2 b -> took s s2 (a ++ b).
Proof. intros (E1 & S1 & W1) (E2 & S2 & W2). split; [by rewrite E1, E2, app_assoc | auto]. Qed.
(** The connection ended before [n] bytes. *)
Definition short (s : R) (n : Z) : Prop := whole s -> Z.of_nat (length (avail s)) < n.
Lemma took_short s s' a n : took s s' a -> short s' (n - Z.of_nat (length a)) -> short s n.
Proof. intros (E & _ & W) Hs Hw. specialize (Hs (W Hw)). rewrite E, length_app. lia. Qed.

(** ** Reading into a piece of storage *)

Lemma read_loop_spec fuel : forall s st u v olen,
  sound s -> 0 <= v <= u -> u < 2 ^ 32 -> 0 <= olen < 2 ^ 32 -> (length (avail s) < fuel)%nat ->
  (exists body s', read_loop fuel s st u v olen =
      Some (Some (s', append st body, u - v, u32 (olen + v))) /\
      took s s' body /\ Z.of_nat (length body) = v) \/
  (read_loop fuel s st u v olen = Some None /\ short s v).
Proof.
  induction fuel as [| fuel IH]; intros s st u v olen Hs Hv Hu Ho Hf; [lia |]. cbn [read_loop].
  destruct (Z.ltb_spec 0 v) as [Hpos | Hz].
  2:{ left. exists [], s. replace v with 0 by lia. rewrite Z.sub_0_r, Z.add_0_r, u32_small by done.
      unfold append. rewrite app_nil_r. destruct st. split; [done |]. split; [by apply took_nil | done]. }
  destruct (rd s v) as [[d |] s'] eqn:E.
  2:{ right. split; [done |]. intros Hw. pose proof (rd_whole s v Hs Hw Hpos) as Hr. by rewrite E in Hr. }
  destruct (rd_some s v d s' Hs Hpos E) as (Ea & Hd & Hne & Hs' & Hw').
  destruct d as [| c d].
  { right. split; [done |]. intros _. destruct (avail s); [cbn; lia |]. by exfalso; apply Hne. }
  set (dd := c :: d) in *. set (i := Z.of_nat (length dd)). assert (0 < i) by (unfold i, dd; cbn; lia).
  assert (Hf' : (length (avail s') < fuel)%nat) by (rewrite Ea, length_app in Hf; lia).
  fold i in Hd. rewrite !(u32_small (_ - i)) by lia. 
  destruct (IH s' (append st dd) (u - i) (v - i) (u32 (olen + i)) Hs' ltac:(lia) ltac:(lia) (u32_range _) Hf')
    as [(body & s2 & -> & T & El) | [-> Hsh]].
  - left. exists (dd ++ body), s2. unfold append. cbn [space data]. rewrite u32_idem, app_assoc. split; [| split].
    + replace (u - i - (v - i)) with (u - v) by lia. by replace (olen + i + (v - i)) with (olen + v) by lia.
    + apply (took_app _ s'); done.
    + rewrite length_app. lia.
  - right. split; [done |]. apply (took_short _ s' dd); done.
Qed.

(** ** A body of known length *)

Lemma took_le s s' a : took s s' a -> (length (avail s') <= length (avail s))%nat.
Proof. intros (E & _). rewrite E, length_app. lia. Qed.

Lemma straight_loop_spec (Ha : alloc_law) fuel : forall s l cl olen,
  sound s -> 0 <= cl < 2 ^ 32 -> 0 <= olen < 2 ^ 32 -> (length (avail s) + 1 < fuel)%nat ->
  (exists l' body s', straight_loop STV_alloc fuel s l cl olen =
      Some (Some (Fetching s' (l ++ l') (u32 (olen + cl)))) /\
      took s s' body /\ Z.of_nat (length body) = cl /\ content l' = body /\ Forall filled l') \/
  (straight_loop STV_alloc fuel s l cl olen = Some None /\ short s cl).
Proof.
  induction fuel as [| fuel IH]; intros s l cl olen Hs Hcl Ho Hf; [lia |]. cbn [straight_loop].
  destruct (Z.ltb_spec 0 cl) as [Hpos | Hz].
  2:{ left. exists [], [], s. replace cl with 0 by lia. rewrite Z.add_0_r, u32_small, app_nil_r by done.
      split; [done |]. split; [by apply took_nil |]. by split. }
  pose proof (Ha l cl Hpos) as Hsp. set (n := STV_alloc l cl) in *. cbn [space].
  set (sl := if cl <? n then cl else n). assert (Hsl : 0 < sl <= cl /\ sl <= n).
  { unfold sl. destruct (Z.ltb_spec cl n); lia. }
  destruct (read_loop_spec (S fuel) s (St n []) cl sl olen Hs ltac:(lia) ltac:(lia) Ho ltac:(lia))
    as [(body & s1 & -> & T & El) | [-> Hsh]].
  2:{ right. split; [done |]. intros Hw. specialize (Hsh Hw). lia. }
  pose proof T as (E1 & S1 & _). assert (Hl1 : (length (avail s1) < length (avail s))%nat).
  { rewrite E1, length_app. lia. }
  destruct (IH s1 (l ++ [append (St n []) body]) (cl - sl) (u32 (olen + sl)) S1 ltac:(lia) (u32_range _) ltac:(lia))
    as [(l2 & b2 & s2 & -> & T2 & El2 & Ec2 & F2) | [-> Hsh]].
  - left. exists (append (St n []) body :: l2), (body ++ b2), s2.
    rewrite u32_idem, <- app_assoc. replace (olen + sl + (cl - sl)) with (olen + cl) by lia.
    split; [done |]. split; [by apply (took_app _ s1) |]. split; [rewrite length_app; lia |]. split.
    + unfold content in *. cbn. by rewrite Ec2.
    + constructor; [| done]. unfold filled, len, append. cbn. lia.
  - right. split; [done |]. apply (took_short _ s1 body); [done |]. by rewrite El.
Qed.

Lemma fetch_straight_spec (Ha : alloc_law) fuel f b n k :
  sound (conn f) -> strtoul 0 b = (n, k) -> 0 <= n < 2 ^ 32 -> 0 <= obj_len f < 2 ^ 32 ->
  (length (avail (conn f)) + 1 < fuel)%nat ->
  (exists l' body s', fetch_straight STV_alloc fuel f b =
      Some (Some (Fetching s' (store f ++ l') (u32 (obj_len f + n)))) /\
      took (conn f) s' body /\ Z.of_nat (length body) = n /\ content l' = body /\ Forall filled l') \/
  (fetch_straight STV_alloc fuel f b = Some None /\ short (conn f) n).
Proof.
  intros Hs Hb Hn Ho Hf. unfold fetch_straight. rewrite Hb. destruct (Z.eqb_spec n 0) as [-> |].
  - left. exists [], [], (conn f). rewrite Z.add_0_r, u32_small, app_nil_r by done.
    split; [by destruct f |]. split; [by apply took_nil |]. by split.
  - rewrite u32_small, Z.eqb_refl by done. by apply straight_loop_spec.
Qed.

(** ** The data of a chunk *)

Definition cur_ok (st : option storage) : Prop := match st with Some st => filled st | None => True end.
Definition held (l : list storage) (st : option storage) : list Z := content l ++ from_option data [] st.

Lemma next_storage_spec (Ha : alloc_law) (Hp : params_ok) l st u :
  0 < u -> Forall filled l -> cur_ok st ->
  exists l1 st1, next_storage STV_alloc fetch_chunksize l st u = (l1, st1) /\
    held l st = content l1 ++ data st1 /\ Forall filled l1 /\ 0 <= len st1 < space st1 /\ space st1 < 2 ^ 32.
Proof.
  intros Hu Hl Hst. unfold next_storage.
  set (v := if u <? _ then _ else u). assert (Hv : 0 < v).
  { unfold v. destruct Hp as [Hp _]. rewrite u32_small by lia. destruct (Z.ltb_spec u (fetch_chunksize * 1024)); lia. }
  assert (Hn : forall l0, held l st = content l0 -> Forall filled l0 ->
    exists l1 st1, (l0, St (STV_alloc l0 v) []) = (l1, st1) /\
      held l st = content l1 ++ data st1 /\ Forall filled l1 /\ 0 <= len st1 < space st1 /\ space st1 < 2 ^ 32).
  { intros l0 E F. exists l0, (St (STV_alloc l0 v) []). pose proof (Ha l0 v Hv). cbn. rewrite app_nil_r.
    split; [done |]. split; [done |]. split; [done |]. unfold len. cbn. lia. }
  destruct st as [st |]; [| apply Hn; [unfold held; cbn; by rewrite app_nil_r | done]].
  cbn in Hst. destruct (Z.eqb_spec (len st) (space st)) as [E | E].
  - apply Hn; [unfold held; cbn; by rewrite content_snoc |]. apply Forall_app. split; [done |]. by constructor.
  - exists l, st. unfold filled in Hst. split; [done |]. split; [done |]. split; [done |]. lia.
Qed.

Lemma chunk_data_spec (Ha : alloc_law) (Hp : params_ok) fuel : forall s l st u olen left,
  sound s -> 0 <= u < 2 ^ 32 -> 0 <= olen < 2 ^ 32 -> Forall filled l -> cur_ok st ->
  (length left + length (avail s) + 1 < fuel)%nat ->
  (exists l' st' body s' left', chunk_data STV_alloc fetch_chunksize fuel s l st u olen left =
      Some (Some (s', l', st', u32 (olen + u), left')) /\
      left ++ avail s = body ++ left' ++ avail s' /\ Z.of_nat (length body) = u /\ sound s' /\ (whole s -> whole s') /\
      held l' st' = held l st ++ body /\ Forall filled l' /\ cur_ok st' /\
      (length left' <= length left)%nat) \/
  (chunk_data STV_alloc fetch_chunksize fuel s l st u olen left = Some None /\
   (whole s -> Z.of_nat (length left + length (avail s)) < u)).
Proof.
  induction fuel as [| fuel IH]; intros s l st u olen left Hs Hu Ho Hl Hst Hf; [lia |]. cbn [chunk_data].
  destruct (Z.ltb_spec 0 u) as [Hpos | Hz].
  2:{ left. exists l, st, [], s, left. replace u with 0 by lia. rewrite Z.add_0_r, u32_small by done.
      rewrite app_nil_r. repeat (split; [done |]). done. }
  destruct (next_storage_spec Ha Hp l st u Hpos Hl Hst) as (l1 & st1 & -> & Eh & Hl1 & Hroom).
  rewrite (u32_small (space st1 - len st1)) by lia.
  set (v := if u <? space st1 - len st1 then u else space st1 - len st1).
  assert (Hv : 0 < v <= u /\ v <= space st1 - len st1) by (unfold v; destruct (Z.ltb_spec u (space st1 - len st1)); lia).
  set (w := Nat.min (length left) (Z.to_nat v)).
  assert (Hw : (w <= length left)%nat /\ Z.of_nat w <= v) by lia.
  assert (Htl : length (take w left) = w) by (rewrite length_take; lia).
  rewrite !(u32_small (_ - Z.of_nat w)) by lia. set (st2 := append st1 (take w left)).
  assert (El2 : len st2 = len st1 + Z.of_nat w) by (unfold st2, len, append; cbn; rewrite length_app; lia).
  assert (Ed2 : data st2 = data st1 ++ take w left) by done.
  pose proof (length_drop left w) as Hdl.
  destruct (Z.eqb_spec (u - Z.of_nat w) 0) as [E0 | E0].
  { left. exists l1, (Some st2), (take w left), s, (drop w left). replace (Z.of_nat w) with u by lia.
    split; [done |]. split; [by rewrite app_assoc, take_drop |]. split; [lia |]. split; [done |]. split; [done |].
    split; [unfold held in *; cbn [from_option]; rewrite Ed2, app_assoc; by rewrite Eh |].
    split; [done |]. split; [unfold cur_ok, filled; change (space st2) with (space st1); lia |]. lia. }
  destruct (Z.eqb_spec (v - Z.of_nat w) 0) as [Ev | Ev].
  - destruct (IH s l1 (Some st2) (u - Z.of_nat w) (u32 (olen + Z.of_nat w)) (drop w left) Hs ltac:(lia) (u32_range _) Hl1)
      as [(l3 & st3 & body & s3 & left3 & -> & E3 & Eb & S3 & W3 & Eh3 & F3 & C3 & L3) | [-> Hsh]].
    + unfold cur_ok, filled. change (space st2) with (space st1). lia.
    + lia.
    + left. exists l3, st3, (take w left ++ body), s3, left3. rewrite u32_idem.
      replace (olen + Z.of_nat w + (u - Z.of_nat w)) with (olen + u) by lia. split; [done |].
      split; [by rewrite <- app_assoc, <- E3, app_assoc, take_drop |]. split; [rewrite length_app; lia |].
      split; [done |]. split; [done |]. split; [| split; [done | split; [done | lia]]].
      rewrite Eh3. unfold held in *. cbn [from_option]. rewrite Ed2, Eh, <- !app_assoc. done.
    + right. split; [done |]. intros Hwh. specialize (Hsh Hwh). lia.
  - assert (Hleft : drop w left = []) by (apply drop_ge; lia).
    destruct (read_loop_spec (S fuel) s st2 (u - Z.of_nat w) (v - Z.of_nat w) (u32 (olen + Z.of_nat w)) Hs
                ltac:(lia) ltac:(lia) (u32_range _) ltac:(lia))
      as [(body & s1 & -> & T & El) | [-> Hsh]].
    2:{ right. split; [done |]. intros Hwh. specialize (Hsh Hwh). lia. }
    rewrite u32_idem. pose proof T as (E1 & S1 & W1). apply (f_equal length) in E1 as E1l. rewrite length_app in E1l.
    set (st3 := append st2 body).
    assert (El3 : len st3 = len st2 + Z.of_nat (length body)) by (unfold st3, len, append; cbn; rewrite length_app; lia).
    destruct (IH s1 l1 (Some st3) (u - Z.of_nat w - (v - Z.of_nat w)) (u32 (olen + Z.of_nat w + (v - Z.of_nat w)))
                (drop w left) S1 ltac:(lia) (u32_range _) Hl1)
      as [(l4 & st4 & b4 & s4 & left4 & -> & E4 & Eb & S4 & W4 & Eh4 & F4 & C4 & L4) | [-> Hsh]].
    + unfold cur_ok, filled. change (space st3) with (space st1). lia.
    + rewrite Hleft. cbn. lia.
    + left. exists l4, st4, (take w left ++ body ++ b4), s4, left4. rewrite u32_idem.
      replace (olen + Z.of_nat w + (v - Z.of_nat w) + (u - Z.of_nat w - (v - Z.of_nat w))) with (olen + u) by lia.
      split; [done |]. rewrite Hleft in *. split.
      { rewrite E1, <- !app_assoc, <- E4. cbn [app]. rewrite take_ge by lia. done. }
      split; [rewrite !length_app; lia |]. split; [done |]. split; [auto |].
      split; [| split; [done | split; [done | cbn in L4; lia]]].
      rewrite Eh4. unfold held in *. cbn [from_option]. change (data st3) with (data st2 ++ body).
        rewrite Ed2, Eh, <- !app_assoc. done.
    + right. split; [done |]. intros Hwh. specialize (Hsh (W1 Hwh)). rewrite Hleft in Hsh. cbn in Hsh. lia.
Qed.

(** ** The line of a chunk *)

Lemma chunk_line_read fuel : forall s buf x rest u q,
  sound s -> whole s -> avail s = x ++ rest ->
  (forall k, (k < length x)%nat -> parse_chunk (buf ++ take k x) = None) ->
  parse_chunk (buf ++ x) = Some (u, q) -> (length (buf ++ x) <= line_max)%nat -> (length x < fuel)%nat ->
  exists s', chunk_line fuel s buf = Some (Some (s', buf ++ x, u, q)) /\ took s s' x /\ avail s' = rest.
Proof.
  induction fuel as [| fuel IH]; intros s buf x rest u q Hs Hw Ha Hpre Hp Hl Hf; [lia |]. cbn [chunk_line].
  destruct x as [| c x].
  { rewrite app_nil_r in Hp. rewrite Hp, app_nil_r. exists s. split; [done |]. split; [by apply took_nil | done]. }
  pose proof (Hpre 0%nat ltac:(cbn; lia)) as Hnone. cbn [take] in Hnone. rewrite app_nil_r in Hnone. rewrite Hnone.
  rewrite length_app in Hl. cbn [length] in *. destruct (Nat.leb_spec line_max (length buf)); [lia |].
  destruct (rd_more s 1 Hs Hw ltac:(lia) ltac:(by rewrite Ha)) as (d & s1 & -> & Hd & Hdl & E1 & S1 & W1).
  destruct d as [| c' [| c2 d]]; [done | | cbn in Hdl; lia]. rewrite Ha in E1. injection E1 as <- E1.
  destruct (IH s1 (buf ++ [c]) x rest u q S1 W1 (eq_sym E1)) as (s2 & E2 & T2 & A2).
  - intros k Hk. rewrite <- app_assoc. apply (Hpre (S k)). lia.
  - by rewrite <- app_assoc.
  - rewrite !length_app. cbn. lia.
  - lia.
  - exists s2. rewrite <- app_assoc in E2. split; [exact E2 |]. split; [| done].
    apply (took_app s s1 s2 [c] x); [| done]. split; [by rewrite Ha, <- E1 |]. split; [done |]. auto.
Qed.

(** What is known about any line. *)
Lemma chunk_line_any fuel : forall s buf,
  sound s -> (line_max < length buf + fuel)%nat -> (0 < fuel)%nat ->
  chunk_line fuel s buf = Some None \/
  exists x s' u q, chunk_line fuel s buf = Some (Some (s', buf ++ x, u, q)) /\ took s s' x /\
    parse_chunk (buf ++ x) = Some (u, q).
Proof.
  induction fuel as [| fuel IH]; intros s buf Hs Hf Hf0; [lia |]. cbn [chunk_line].
  destruct (parse_chunk buf) as [[u q] |] eqn:Ep.
  { right. exists [], s, u, q. rewrite app_nil_r. split; [done |]. split; [by apply took_nil | done]. }
  destruct (Nat.leb_spec line_max (length buf)) as [Hle | Hlt]; [by left |].
  destruct (rd s 1) as [[d |] s1] eqn:E; [| by left]. destruct d as [| c d]; [by left |].
  destruct (rd_some s 1 _ s1 Hs ltac:(lia) E) as (Ea & Hd & _ & S1 & W1).
  destruct (IH s1 (buf ++ c :: d) S1) as [El | (x & s2 & u & q & El & T & P)].
  - rewrite length_app. cbn. lia.
  - lia.
  - by left.
  - right. exists ((c :: d) ++ x), s2, u, q. rewrite <- app_assoc in *. split; [done |]. split; [| done].
    by apply (took_app s s1).
Qed.

(** ** Chunked bodies *)

Lemma finish_spec (Ht : trim_law) (s : R) l st olen :
  Forall filled l -> cur_ok st ->
  let f := finish STV_trim s l st olen in
  conn f = s /\ obj_len f = olen /\ content (store f) = held l st /\ Forall filled (store f).
Proof.
  intros Hl Hst f. unfold f, finish, held. destruct st as [st |]; cbn [from_option].
  2:{ cbn. by rewrite app_nil_r. }
  cbn in Hst. rewrite (proj2 (Z.eqb_neq (len st) 0)) by (unfold filled in Hst; lia).
  cbn [conn obj_len store].
  split; [done |]. split; [done |]. rewrite content_snoc. split; [done |].
  apply Forall_app. split; [done |]. constructor; [| done]. pose proof (Ht st Hst).
  unfold filled in *. change (len (St _ (data st))) with (len st). cbn. lia.
Qed.

Section Chunked.
Context (Ha : alloc_law) (Hp : params_ok) (Ht : trim_law).

Lemma chunked_any fuel : forall s l st olen buf,
  sound s -> Forall filled l -> cur_ok st -> 0 <= olen < 2 ^ 32 ->
  (length buf + length (avail s) + 1 < fuel)%nat ->
  chunked_loop STV_alloc STV_trim fetch_chunksize fuel s l st olen buf = Some None \/
  exists f body left, chunked_loop STV_alloc STV_trim fetch_chunksize fuel s l st olen buf = Some (Some f) /\
    sound (conn f) /\ (whole s -> whole (conn f)) /\ content (store f) = held l st ++ body /\
    obj_len f = u32 (olen + Z.of_nat (length body)) /\ Forall filled (store f) /\
    chunks (buf ++ avail s) body (left ++ avail (conn f)).
Proof.
  induction fuel as [| fuel IH]; intros s l st olen buf Hs Hl Hst Ho Hf; [lia |]. cbn [chunked_loop].
  destruct (chunk_line_any (S line_max) s buf Hs ltac:(lia) ltac:(lia)) as [-> | (x & s1 & u & q & -> & T & P)];
    [by left |].
  destruct (parse_len _ _ _ P) as [Hq Hu]. destruct T as (E1 & S1 & W1).
  assert (Estream : buf ++ avail s = (buf ++ x) ++ avail s1) by (by rewrite E1, app_assoc).
  pose proof (f_equal length Estream) as El. rewrite !length_app in El. rewrite length_app in Hq.
  destruct (Z.eqb_spec u 0) as [-> | Hu0].
  - right. destruct (finish_spec Ht s1 l st olen Hl Hst) as (F1 & F2 & F3 & F4).
    eexists _, [], (drop q (buf ++ x)). split; [done |]. rewrite F1, F2, F3, app_nil_r, Z.add_0_r, u32_small by done.
    repeat (split; [done |]). rewrite Estream. by apply chunks_last.
  - destruct (chunk_data_spec Ha Hp (S fuel) s1 l st u olen (drop q (buf ++ x)) S1 Hu Ho Hl Hst)
      as [(l2 & st2 & d & s2 & left2 & -> & E2 & Ed & S2 & W2 & Eh & F2 & C2 & L2) | [-> _]];
      [rewrite length_drop, length_app; lia | | by left].
    pose proof (f_equal length E2) as El2. rewrite !length_app, length_drop, length_app in El2.
    destruct (IH s2 l2 st2 (u32 (olen + u)) left2 S2 F2 C2 (u32_range _) ltac:(lia))
      as [-> | (f & body & lf & -> & Sf & Wf & Ec & Eo & Ff & K)]; [by left |].
    right. exists f, (d ++ body), lf. split; [done |]. split; [done |]. split; [auto |].
    split; [by rewrite Ec, Eh, app_assoc |].
    split; [rewrite Eo, u32_idem, length_app; f_equal; lia |]. split; [done |].
    rewrite Estream. by apply (chunks_more _ _ u q d (left2 ++ avail s2)).
Qed.

Lemma chunked_encoded last tl (Hlast : line_ok last 0) cs : forall fuel s sp l st olen,
  sound s -> whole s -> Forall filled l -> cur_ok st -> 0 <= olen < 2 ^ 32 ->
  lead_ok sp -> Forall chunk_ok cs -> avail s = sp ++ encode cs last ++ tl ->
  (length (avail s) + 1 < fuel)%nat ->
  exists f, chunked_loop STV_alloc STV_trim fetch_chunksize fuel s l st olen [] = Some (Some f) /\
    content (store f) = held l st ++ bodies cs /\ avail (conn f) = tl /\
    obj_len f = u32 (olen + Z.of_nat (length (bodies cs))) /\ Forall filled (store f).
Proof.
  induction cs as [| c cs IH]; intros fuel s sp l st olen Hs Hw Hl Hst Ho Hsp Hcs Ea Hf;
    (destruct fuel as [| fuel]; [lia |]); cbn [chunked_loop encode] in *.
  - destruct (parse_line sp last 0 Hsp Hlast) as (P & Pl & Pp).
    destruct (chunk_line_read (S line_max) s [] (sp ++ print_line last) tl _ _ Hs Hw ltac:(by rewrite Ea, app_assoc) Pp P Pl ltac:(lia))
      as (s1 & -> & T & A1). change (u32 0 =? 0) with true. cbv iota.
    destruct (finish_spec Ht s1 l st olen Hl Hst) as (F1 & F2 & F3 & F4).
    eexists. split; [done |]. rewrite F1, F2, F3, app_nil_r, Z.add_0_r, u32_small by done. done.
  - apply Forall_cons in Hcs as [[Hc Hn] Hcs]. set (x := print_line (c_line c)) in *. set (n := Z.of_nat (length (c_data c))) in *.
    destruct (parse_line sp (c_line c) n Hsp Hc) as (P & Pl & Pp). fold x in P, Pl, Pp.
    set (rest := c_data c ++ eol (l_cr (c_line c)) ++ encode cs last ++ tl).
    assert (Ea' : avail s = (sp ++ x) ++ rest) by (rewrite Ea; unfold rest; by rewrite <- !app_assoc).
    destruct (chunk_line_read (S line_max) s [] (sp ++ x) rest _ _ Hs Hw Ea' Pp P Pl ltac:(lia)) as (s1 & -> & T & A1).
    cbn [app]. rewrite u32_small, (proj2 (Z.eqb_neq n 0)) by lia. rewrite drop_ge by lia.
    destruct T as (_ & S1 & W1). specialize (W1 Hw). pose proof (f_equal length Ea') as El. rewrite length_app, <- A1 in El.
    assert (Hx : (0 < length (sp ++ x))%nat) by (apply parse_len in P; lia).
    destruct (chunk_data_spec Ha Hp (S fuel) s1 l st n olen [] S1 ltac:(lia) Ho Hl Hst)
      as [(l2 & st2 & d & s2 & left2 & -> & E2 & Ed & S2 & W2 & Eh & F2 & C2 & L2) | [_ Hsh]];
      [cbn; lia | |].
    2:{ exfalso. specialize (Hsh W1). rewrite A1 in Hsh. unfold rest in Hsh. rewrite length_app in Hsh. cbn in Hsh. lia. }
    destruct left2; [| cbn in L2; lia]. cbn [app] in E2. rewrite A1 in E2. unfold rest in E2.
    apply app_inj_1 in E2 as [<- E2]; [| lia].
    destruct (IH fuel s2 (eol (l_cr (c_line c))) l2 st2 (u32 (olen + n)) S2 (W2 W1) F2 C2 (u32_range _))
      as (f & -> & Ec & Ef & Eo & Ff).
    + split; [destruct (l_cr (c_line c)); repeat constructor | destruct (l_cr (c_line c)); cbn; lia].
    + done.
    + done.
    + rewrite <- E2. apply (f_equal length) in A1. unfold rest in A1. rewrite length_app in A1. lia.
    + exists f. split; [done |]. unfold bodies in *. cbn [map concat]. rewrite Ec, Eh, Eo, u32_idem, <- app_assoc.
      split; [done |]. split; [done |]. split; [| done]. rewrite length_app. f_equal. lia.
Qed.
End Chunked.

(** ** A body that ends with the connection *)

Definition open_piece (st : storage) : Prop := 0 <= len st <= space st /\ space st < 2 ^ 32.
Lemma finish_open (Ht : trim_law) (s : R) l st olen :
  Forall filled l -> open_piece st ->
  let f := finish STV_trim s l (Some st) olen in
  conn f = s /\ obj_len f = olen /\ content (store f) = content l ++ data st /\ Forall filled (store f).
Proof.
  intros Hl Hst. destruct (decide (len st = 0)) as [E | E].
  - unfold finish. rewrite E, Z.eqb_refl. unfold len in E. destruct (data st); [| cbn in E; lia].
    cbn. by rewrite app_nil_r.
  - apply (finish_spec Ht s l (Some st)); [done |]. unfold open_piece, cur_ok, filled in *. lia.
Qed.

Definition eof_state (st : option storage) (v : Z) : Prop :=
  match st with
  | Some st => open_piece st /\ 0 <= v <= space st - len st /\ (v = 0 -> 0 < len st)
  | None => v = 0
  end.

Lemma eof_storage_spec (Ha : alloc_law) (Hp : params_ok) l st v :
  Forall filled l -> eof_state st v ->
  exists l1 st1 v1, eof_storage STV_alloc fetch_chunksize fetchfrag l st v = (l1, Some st1, v1) /\
    held l st = content l1 ++ data st1 /\ Forall filled l1 /\ open_piece st1 /\ 0 < v1 <= space st1 - len st1.
Proof.
  intros Hl Hst. unfold eof_storage. destruct Hp as [Hp Hfr]. destruct (Z.eqb_spec v 0) as [-> | Hv].
  - pose proof (Ha (l ++ option_list st) (fetch_chunksize * 1024) ltac:(lia)) as Hn.
    set (n := STV_alloc _ _) in *. eexists _, _, _. split; [reflexivity |]. cbn [space data].
    change (len (St n [])) with 0. rewrite Z.sub_0_r, u32_small, app_nil_r by lia. split; [| split; [| split]].
    + unfold held. destruct st; cbn; [by rewrite content_snoc | by rewrite !app_nil_r].
    + apply Forall_app. split; [done |]. destruct st as [st |]; cbn; [| done]. constructor; [| done].
      destruct Hst as (O & _ & Hl0). specialize (Hl0 eq_refl). unfold open_piece, filled in *. lia.
    + unfold open_piece. change (len (St n [])) with 0. cbn [space]. lia.
    + change (space (St n []) - len (St n [])) with (n - 0).
      destruct (Z.ltb_spec 0 fetchfrag), (Z.ltb_spec fetchfrag n); cbn [andb]; lia.
  - destruct st as [st |]; [| done]. destruct Hst as (O & Hv' & _). exists l, st, v.
    split; [done |]. split; [done |]. split; [done |]. split; [done |]. lia.
Qed.

Lemma eof_loop_spec (Ha : alloc_law) (Hp : params_ok) (Ht : trim_law) fuel : forall s l st v olen,
  sound s -> Forall filled l -> eof_state st v -> 0 <= olen < 2 ^ 32 -> (length (avail s) < fuel)%nat ->
  (eof_loop STV_alloc STV_trim fetch_chunksize fetchfrag fuel s l st v olen = Some None /\ ~ whole s) \/
  exists f, eof_loop STV_alloc STV_trim fetch_chunksize fetchfrag fuel s l st v olen = Some (Some f) /\
    avail (conn f) = [] /\ content (store f) = held l st ++ avail s /\
    obj_len f = u32 (olen + Z.of_nat (length (avail s))) /\ Forall filled (store f).
Proof.
  induction fuel as [| fuel IH]; intros s l st v olen Hs Hl Hst Ho Hf; [lia |]. cbn [eof_loop].
  destruct (eof_storage_spec Ha Hp l st v Hl Hst) as (l1 & st1 & v1 & -> & Eh & Hl1 & O1 & Hv1).
  destruct (rd s v1) as [[d |] s'] eqn:E.
  2:{ left. split; [done |]. intros Hw. pose proof (rd_whole s v1 Hs Hw ltac:(lia)) as Hr. by rewrite E in Hr. }
  destruct (rd_some s v1 d s' Hs ltac:(lia) E) as (Ea & Hd & Hne & Hs' & Hw').
  destruct d as [| c d].
  - right. assert (Hnil : avail s = []) by (destruct (avail s); [done |]; by exfalso; apply Hne).
    destruct (finish_open Ht s' l1 st1 olen Hl1 O1) as (F1 & F2 & F3 & F4).
    eexists. split; [done |]. rewrite F1, F2, F3, Eh, Hnil, app_nil_r, Z.add_0_r, u32_small by done.
    split; [| done]. cbn in Ea. by rewrite <- Ea.
  - set (dd := c :: d) in *. set (i := Z.of_nat (length dd)). assert (0 < i) by (unfold i, dd; cbn; lia).
    rewrite (u32_small (v1 - i)) by (unfold i, open_piece in *; lia).
    assert (El : len (append st1 dd) = len st1 + i) by (unfold len, append, i; cbn [data]; rewrite length_app; lia).
    assert (Hf' : (length (avail s') < fuel)%nat) by (rewrite Ea, length_app in Hf; lia).
    destruct (IH s' l1 (Some (append st1 dd)) (v1 - i) (u32 (olen + i)) Hs' Hl1) as [[-> Hn] | (f & -> & A & C & Eo & F)].
    + unfold eof_state, open_piece in *. change (space (append st1 dd)) with (space st1). rewrite El. unfold i in *. lia.
    + apply u32_range.
    + done.
    + left. split; [done |]. auto.
    + right. exists f. split; [done |]. split; [done |]. split; [| split; [| done]].
      * rewrite C, Eh, Ea. unfold held. cbn [from_option data append]. by rewrite <- !app_assoc.
      * rewrite Eo, u32_idem, Ea, length_app. f_equal. unfold i. lia.
Qed.

(** ** The body of an answer *)

Lemma sum_len l : foldr (fun st n => len st + n) 0 l = Z.of_nat (length (content l)).
Proof.
  induction l as [| st l IH]; [done |]. cbn [foldr]. rewrite IH.
  change (content (st :: l)) with (data st ++ content l). rewrite length_app. unfold len. lia.
Qed.

(** How the end of the body is found. *)
Inductive method := MNone (mklen : bool) | MLength (b : list Z) | MChunked | MBad | MEof.

Definition has (hp : http) (h : list Z) : option (list Z) := default None (http_GetHdr hp h).
Definition says (hp : http) (h v : list Z) : bool :=
  match has hp h with Some p => strcaseeq p v | None => false end.
Definition method_of (bereq hp : http) : method :=
  if strcaseeq (default [] (http_GetReq bereq)) (bs "head") then MNone false
  else match has hp H_Content_Length with
  | Some b => MLength b
  | None =>
      if says hp H_Transfer_Encoding (bs "chunked") then MChunked
      else match has hp H_Transfer_Encoding with
      | Some _ => MBad
      | None =>
          if says hp H_Connection (bs "keep-alive") then MNone true
          else if says hp H_Connection (bs "close") || (protover hp <? 11) then MEof
          else MNone true
      end
  end.

(** The body and what is behind it. *)
Inductive delimited : method -> list Z -> list Z -> list Z -> Prop :=
  | d_none b input : delimited (MNone b) input [] input
  | d_length b body rest :
      Z.of_nat (length body) = fst (strtoul 0 b) -> delimited (MLength b) (body ++ rest) body rest
  | d_chunked input body lf rest : chunks input body (lf ++ rest) -> delimited MChunked input body rest
  | d_eof input : delimited MEof input input [].

(** A body that is there, and a length the program can hold. *)
Definition present (m : method) (input : list Z) : Prop :=
  match m with
  | MNone _ | MEof => True
  | MLength b => fst (strtoul 0 b) <= Z.of_nat (length input)
  | MChunked | MBad => False
  end.
Definition length_ok (m : method) : Prop :=
  match m with MLength b => 0 <= fst (strtoul 0 b) < 2 ^ 32 | _ => True end.

Lemma has_ok hp name : token name -> http_GetHdr hp (hdrconst name) = Some (has hp (hdrconst name)).
Proof. intros H1. unfold has. destruct (GetHdr_total hp name H1) as [x ->]. done. Qed.
Lemma says_ok hp name v : token name -> http_HdrIs hp (hdrconst name) v = Some (says hp (hdrconst name) v).
Proof. intros H1. unfold http_HdrIs, says. rewrite has_ok by done. by destruct (has _ _). Qed.

#[local] Ltac token :=
  split; [| vm_compute; lia]; repeat (apply Forall_cons; split; [vm_compute; by split |]); done.
Lemma token_cl : token (bs "Content-Length").
Proof. token. Qed.
Lemma token_te : token (bs "Transfer-Encoding").
Proof. token. Qed.
Lemma token_conn : token (bs "Connection").
Proof. token. Qed.
Lemma get_cl hp : http_GetHdr hp H_Content_Length = Some (has hp H_Content_Length).
Proof. apply has_ok, token_cl. Qed.
Lemma get_te hp : http_GetHdr hp H_Transfer_Encoding = Some (has hp H_Transfer_Encoding).
Proof. apply has_ok, token_te. Qed.
Lemma is_te hp v : http_HdrIs hp H_Transfer_Encoding v = Some (says hp H_Transfer_Encoding v).
Proof. apply says_ok, token_te. Qed.
Lemma is_conn hp v : http_HdrIs hp H_Connection v = Some (says hp H_Connection v).
Proof. apply says_ok, token_conn. Qed.

Section Body.
Context (Ha : alloc_law) (Hp : params_ok) (Ht : trim_law).

(** An object without a body yet. *)
Definition fresh_body (f : fetch R) : Prop := sound (conn f) /\ store f = [] /\ obj_len f = 0.

Lemma eof_case fuel f :
  fresh_body f -> (length (avail (conn f)) + 1 < fuel)%nat ->
  exists r, (let? r := fetch_eof STV_alloc STV_trim fetch_chunksize fetchfrag fuel f in
      Some (let? f := r in Some (f, true, true))) = Some r /\
    match r with
    | None => ~ (whole (conn f) /\ present MEof (avail (conn f)))
    | Some (f', mklen, cls) =>
        exists body, delimited MEof (avail (conn f)) body (avail (conn f')) /\ content (store f') = body /\
          obj_len f' = u32 (Z.of_nat (length body)) /\ Forall filled (store f') /\ (cls = false -> MEof <> MEof)
    end.
Proof.
  intros (Hs & Est & Eol) Hf. unfold fetch_eof.
  destruct (eof_loop_spec Ha Hp Ht fuel (conn f) (store f) None 0 (obj_len f) Hs)
    as [[-> Hw] | (f' & -> & A & C & Eo & F)].
  - by rewrite Est.
  - done.
  - rewrite Eol. lia.
  - lia.
  - exists None. split; [done |]. by intros [? _].
  - eexists. split; [done |]. exists (avail (conn f)). rewrite A, C, Eo, Est, Eol.
    split; [constructor |]. by repeat split.
Qed.

Lemma fetch_method_spec fuel bereq hp f :
  fresh_body f -> is_Some (http_GetReq bereq) -> length_ok (method_of bereq hp) ->
  (length (avail (conn f)) + 1 < fuel)%nat ->
  exists r, fetch_method STV_alloc STV_trim fetch_chunksize fetchfrag fuel bereq hp f = Some r /\
    match r with
    | None => ~ (whole (conn f) /\ present (method_of bereq hp) (avail (conn f)))
    | Some (f', mklen, cls) =>
        exists body, delimited (method_of bereq hp) (avail (conn f)) body (avail (conn f')) /\
          content (store f') = body /\ obj_len f' = u32 (Z.of_nat (length body)) /\ Forall filled (store f') /\
          (cls = false -> method_of bereq hp <> MEof)
    end.
Proof.
  intros (Hs & Est & Eol) [req Hreq] Hl Hf. unfold fetch_method, method_of in *. rewrite Hreq in *.
  change (default [] (Some req)) with req in *.
  assert (Hnone : forall b, exists body, delimited (MNone b) (avail (conn f)) body (avail (conn f)) /\
      content (store f) = body /\ obj_len f = u32 (Z.of_nat (length body)) /\ Forall filled (store f) /\
      (false = false -> MNone b <> MEof)).
  { intros b. exists []. rewrite Est, Eol. split; [constructor |]. by repeat split. }
  destruct (strcaseeq req (bs "head")); [eexists; split; [done |]; apply Hnone |].
  rewrite get_cl. destruct (has hp H_Content_Length) as [b |].
  { destruct (strtoul 0 b) as [n k] eqn:Eb. unfold length_ok in Hl. rewrite Eb in Hl.
    destruct (fetch_straight_spec Ha fuel f b n k Hs Eb Hl ltac:(rewrite Eol; lia) Hf)
      as [(l' & body & s' & -> & (E1 & _) & El & Ec & F) | [-> Hsh]].
    - eexists. split; [done |]. exists body. rewrite E1, Est, Eol. cbn [conn store obj_len app]. split; [| split; [done | split; [| done]]].
      + constructor. by rewrite Eb.
      + f_equal. lia.
    - eexists. split; [done |]. intros [Hw Hpr]. cbn in Hpr. rewrite Eb in Hpr. specialize (Hsh Hw). cbn in Hpr. lia. }
  rewrite is_te. destruct (says hp H_Transfer_Encoding (bs "chunked")).
  { unfold fetch_chunked. destruct (chunked_any Ha Hp Ht fuel (conn f) (store f) None (obj_len f) [] Hs)
      as [-> | (f' & body & lf & -> & _ & _ & Ec & Eo & F & K)].
    - by rewrite Est.
    - done.
    - rewrite Eol. lia.
    - cbn. lia.
    - eexists. split; [done |]. by intros [_ []].
    - eexists. split; [done |]. exists body. rewrite Ec, Eo, Est, Eol. by split; [econstructor |]. }
  rewrite get_te. destruct (has hp H_Transfer_Encoding) as [b |].
  { eexists. split; [done |]. by intros [_ []]. }
  rewrite is_conn. destruct (says hp H_Connection (bs "keep-alive")); [eexists; split; [done |]; apply Hnone |].
  pose proof (eof_case fuel f (conj Hs (conj Est Eol)) Hf) as Heof.
  rewrite is_conn. destruct (says hp H_Connection (bs "close")); cbn [orb]; [exact Heof |].
  destruct (protover hp <? 11); [exact Heof | eexists; split; [done |]; apply Hnone].
Qed.

End Body.
End Spec.

(** ** Over a real connection *)

(** C4: An answer with a chunked body comes through: whatever the pieces in
    which the kernel delivers header and chunks, and however much storage is
    given at a time, the header is cut off at its end, the data of the chunks
    are stored in order with nothing lost or added, and the connection stands
    behind the last chunk. *)
Theorem chunked_roundtrip STV_alloc STV_trim fetch_chunksize fetchfrag fuel w fd m k cs last tl :
  alloc_law STV_alloc -> params_ok fetch_chunksize fetchfrag -> trim_law STV_trim ->
  0 < f w -> open_at w (f w) -> acceptable (half w - 1) k ->
  Forall chunk_ok cs -> line_ok last 0 ->
  broken fd = false -> stream fd = k ++ encode cs last ++ tl -> (length (stream fd) + 1 < fuel)%nat ->
  exists msg h m' f', session idle (f w) fuel 0 w fd m = Some ([msg], h, m') /\
    skip_space msg = skip_space k /\
    fetch_chunked STV_alloc STV_trim fetch_chunksize fuel (Fetching (h, m') [] 0) = Some (Some f') /\
    content (store f') = bodies cs /\ obj_len f' = u32 (Z.of_nat (length (bodies cs))) /\
    Forall filled (store f') /\ avail (conn f') = tl.
Proof.
  intros Ha Hp Ht Hf0 O Hk Hcs Hlast Hb Es Hf. destruct Hk as (Hk1 & Hk2 & Hk3).
  destruct (HTC_Init_spec w fd m O) as (h & m0 & E0 & R & Ef & Er & _).
  destruct (message_next k (encode cs last ++ tl) (half w - 1) Hk1 Hk3 Hk2) as (N & T & D).
  rewrite <- Es in N, T, D.
  destruct (rx_loop_spec fuel h m0 [] _ R eq_refl ltac:(by rewrite Ef, Er) ltac:(rewrite Ef; lia))
    as (h1 & m1 & msg & p & E1 & S1 & F1 & L1 & M1 & P1). cbn [app] in *. rewrite Ef in *.
  rewrite T in M1. rewrite D in P1. destruct (framed_rest _ _ _ _ F1) as [Hr E2].
  destruct S1 as (_ & _ & Hbr & _).
  destruct (chunked_encoded STV_alloc STV_trim fetch_chunksize fetchfrag Ha Hp Ht last tl Hlast cs fuel (h1, m1) [] [] None 0)
    as (f' & E3 & Ec & Ea & Eo & F); try done.
  - cbn. by rewrite Hbr, Ef.
  - split; [done | cbn; lia].
  - change (avail (h1, m1)) with (rest h1 m1). by rewrite E2, P1.
  - change (avail (h1, m1)) with (rest h1 m1). rewrite E2, P1. rewrite Es, !length_app in Hf. rewrite length_app. lia.
  - exists msg, h1, m1, f'. unfold session. rewrite E0, E1. cbn [Z.eqb Pos.eqb serve].
    rewrite (framed_bytes _ _ _ _ F1). split; [done |]. split; [done |]. split; [exact E3 |].
    split; [done |]. split; [done |]. by split.
Qed.

(** ** Concrete instances *)

(** A stevedore that gives four bytes at a time. *)
Definition four (l : list storage) (n : Z) : Z := 4.
Definition tight (st : storage) (n : Z) : Z := n.
Lemma four_law : alloc_law four.
Proof. intros l n _. unfold four. lia. Qed.
Lemma tight_law : trim_law tight.
Proof. intros st H. unfold filled in H. unfold tight. lia. Qed.
Lemma params1 : params_ok 128 0.
Proof. unfold params_ok. lia. Qed.

Definition hex_line (l : list Z) : line := Line l [] true.
Definition wiki : list chunk :=
  [Chunk (hex_line (bs "5")) (bs "Hello"); Chunk (hex_line (bs "0007")) (bs ", world")].
Lemma wiki_ok : Forall chunk_ok wiki /\ line_ok (hex_line (bs "0")) 0.
Proof.
  assert (H : forall l n, l <> [] -> forallb (fun c => bool_decide (is_Some (is_digit 16 c))) l = true ->
    fst (digits 16 l 0) = n -> (length l <= 15)%nat -> line_ok (hex_line l) n).
  { intros l n H1 H2 H3 H4. split; [done |]. split; [| split; [done | split; [done | cbn; lia]]].
    apply Forall_forall. intros c Hc. rewrite forallb_forall in H2. apply (bool_decide_eq_true_1 _), H2.
    by apply list_elem_of_In. }
  split; [| apply H; vm_compute; done || lia].
  repeat (apply Forall_cons; split; [split; [apply H; vm_compute; done || lia | vm_compute; done] |]). done.
Qed.
Definition answer1 : list Z := bs "HTTP/1.1 200" ++ crlf ++ crlf.
Definition delivered : sock :=
  let t := answer1 ++ encode wiki (hex_line (bs "0")) ++ bs "next" in
  Sock [take 3 t; take 20 (drop 3 t); drop 23 t] false.

Lemma chunked_roundtrip_witness :
  exists msg h m' f', session idle 4096 80 0 ws64 delivered ∅ = Some ([msg], h, m') /\
    fetch_chunked four tight 128 80 (Fetching (h, m') [] 0) = Some (Some f') /\
    content (store f') = bs "Hello, world" /\ avail (conn f') = bs "next".
Proof.
  destruct (chunked_roundtrip four tight 128 0 80 ws64 delivered ∅ answer1 wiki (hex_line (bs "0")) (bs "next")
              four_law params1 tight_law) as (msg & h & m' & f' & E1 & _ & E2 & Ec & _ & _ & Ea).
  - done.
  - vm_compute. intuition congruence.
  - split; [by vm_compute |]. split; [vm_compute; intuition congruence | vm_compute; congruence].
  - apply wiki_ok.
  - apply wiki_ok.
  - done.
  - by vm_compute.
  - vm_compute. lia.
  - exists msg, h, m', f'. split; [exact E1 |]. split; [exact E2 |]. by split.
Defined.

(** An answer with a length, on a connection that keeps ten bytes. *)
Definition get1 : http :=
  Http false 0 11 8 [Some (100, bs "GET"); None; None; None; None; None; None; None] (replicate 8 0) 5.
Definition len1 : http :=
  Http false 200 11 8 [None; None; Some (200, bs "HTTP/1.1"); None; None;
    Some (210, bs "Content-Length: 6"); None; None] (replicate 8 0) 6.


(** ** What the numbers do *)

(** A length with a leading zero is octal, one that is too large ends the
    process, and a chunk of four gigabytes is taken for the last one. *)
Lemma length_octal : strtoul 0 (bs "010") = (8, 3%nat).
Proof. reflexivity. Qed.
Lemma length_too_large (f : fetch str_reader) : fetch_straight four 5 f (bs "4294967296") = None.
Proof. reflexivity. Qed.
Lemma chunk_wraps : parse_chunk (bs "100000000" ++ crlf) = Some (0, 11%nat).
Proof. reflexivity. Qed.
(** What follows the last chunk, the empty line at least, is left unread. *)
Lemma trailer_unread :
  exists f, fetch_chunked four tight 128 9 (Fetching (StrReader (bs "0" ++ crlf ++ crlf) 0) [] 0) = Some (Some f) /\
    avail (conn f) = crlf.
Proof. eexists. split; vm_compute; reflexivity. Qed.
(** A line with an extension is refused. *)
Lemma chunk_extension :
  fetch_chunked four tight 128 50 (Fetching (StrReader (bs "5;name=val" ++ crlf ++ bs "Hello" ++ crlf) 0) [] 0) = Some None.
Proof. reflexivity. Qed.

End FetchSpec.
