(* ===== verification/StorageFile.v ===== *)
(** * StorageFile: the allocator of the file stevedore

    [bin/varnishd/storage_file.c]: the mapped file is cut into ranges ([struct
    smf]) that lie in address order on one list; the free ones are also on one
    of 33 lists by their number of pages, the allocated ones on a list of their
    own.  Allocation splits a range from the front, freeing merges it with its
    neighbours.

    A range is named by the address of its node; [malloc] is the library's, and
    [mmap] the kernel's.  Every operation runs under the mutex of the stevedore,
    so it is one step.  Statistics are left out. *)
From S2P Require Import Prelude.

Module StorageFile.

Definition MINPAGES : Z := 128.
Definition NBUCKET : nat := 33.

(** [struct smf] with the [struct storage] inside it; [flist] is the number of
    the free list it is on. *)
Record smf := Smf {
  alloc : bool;
  size : Z;
  offset : Z;
  ptr : Z;
  flist : option nat;
  s_space : Z;
  s_ptr : Z;
  s_len : Z;
  s_where : Z
}.

Record smf_sc := Sc {
  pagesize : Z;
  smfs : gmap Z smf;              (* the nodes *)
  order : list Z;
  free : list (list Z);           (* NBUCKET lists *)
  used : list Z
}.

Definition set_alloc (x : smf) (b : bool) : smf :=
  Smf b (size x) (offset x) (ptr x) (flist x) (s_space x) (s_ptr x) (s_len x) (s_where x).
Definition set_flist (x : smf) (l : option nat) : smf :=
  Smf (alloc x) (size x) (offset x) (ptr x) l (s_space x) (s_ptr x) (s_len x) (s_where x).
Definition set_range (x : smf) (sz off p : Z) : smf :=
  Smf (alloc x) sz off p (flist x) (s_space x) (s_ptr x) (s_len x) (s_where x).
Definition set_storage (x : smf) (space p len where_ : Z) : smf :=
  Smf (alloc x) (size x) (offset x) (ptr x) (flist x) space p len where_.

Definition set_smfs (sc : smf_sc) (m : gmap Z smf) : smf_sc :=
  Sc (pagesize sc) m (order sc) (free sc) (used sc).
Definition set_order (sc : smf_sc) (l : list Z) : smf_sc :=
  Sc (pagesize sc) (smfs sc) l (free sc) (used sc).
Definition set_free (sc : smf_sc) (l : list (list Z)) : smf_sc :=
  Sc (pagesize sc) (smfs sc) (order sc) l (used sc).
Definition set_used (sc : smf_sc) (l : list Z) : smf_sc :=
  Sc (pagesize sc) (smfs sc) (order sc) (free sc) l.

Definition put (sc : smf_sc) (a : Z) (x : smf) : smf_sc := set_smfs sc (<[a := x]> (smfs sc)).

(** ** Tail queues of nodes *)

(** [VTAILQ_REMOVE] *)
Definition unlink (a : Z) (l : list Z) : list Z := filter (fun b => b <> a) l.

(** [VTAILQ_INSERT_BEFORE] and [VTAILQ_INSERT_AFTER] *)
Fixpoint insert_before (b a : Z) (l : list Z) : list Z :=
  match l with
  | [] => []
  | c :: l' => if c =? b then a :: c :: l' else c :: insert_before b a l'
  end.
Fixpoint insert_after (b a : Z) (l : list Z) : list Z :=
  match l with
  | [] => []
  | c :: l' => if c =? b then c :: a :: l' else c :: insert_after b a l'
  end.

(** [VTAILQ_NEXT] and [VTAILQ_PREV] *)
Fixpoint next_of (a : Z) (l : list Z) : option Z :=
  match l with
  | [] => None
  | c :: l' => if c =? a then head l' else next_of a l'
  end.
Fixpoint prev_of (a : Z) (l : list Z) : option Z :=
  match l with
  | b :: (c :: _) as l' => if c =? a then Some b else prev_of a l'
  | _ => None
  end.

(** ** Free lists *)

(** The number of the free list for a size. *)
Definition bucket (sc : smf_sc) (sz : Z) : nat :=
  let b := sz / pagesize sc in
  if Z.of_nat NBUCKET <=? b then (NBUCKET - 1)%nat else Z.to_nat b.

(** The walk of [insfree]: in front of the first range that lies behind. *)
Fixpoint ins_walk (m : gmap Z smf) (a : Z) (x : smf) (b : nat) (ns : Z) (l : list Z) : option (list Z) :=
  match l with
  | [] => Some [a]
  | c :: l' =>
      let? y := m !! c in
      assert! ns <=? size y ;;
      assert! negb (alloc y) ;;
      assert! bool_decide (flist y = Some b) ;;
      if offset x <? offset y then Some (a :: c :: l')
      else let? r := ins_walk m a x b ns l' in Some (c :: r)
  end.

Definition insfree (sc : smf_sc) (a : Z) : option smf_sc :=
  let? x := smfs sc !! a in
  assert! negb (alloc x) ;;
  assert! bool_decide (flist x = None) ;;
  let b := bucket sc (size x) in
  let sc := put sc a (set_flist x (Some b)) in
  let? l := free sc !! b in
  let? l := ins_walk (smfs sc) a x b (Z.of_nat b * pagesize sc) l in
  Some (set_free sc (<[b := l]> (free sc))).

Definition remfree (sc : smf_sc) (a : Z) : option smf_sc :=
  let? x := smfs sc !! a in
  assert! negb (alloc x) ;;
  let b := bucket sc (size x) in
  assert! bool_decide (flist x = Some b) ;;
  let? l := free sc !! b in
  Some (put (set_free sc (<[b := unlink a l]> (free sc))) a (set_flist x None)).

(** ** Allocation *)

(** The first free range of the lists [b], [b + 1], ... below the last. *)
Fixpoint first_of (ls : list (list Z)) (b n : nat) : option Z :=
  match n with
  | O => None
  | S n => match ls !! b with
           | Some (a :: _) => Some a
           | _ => first_of ls (S b) n
           end
  end.

(** The first range of the last list that is large enough. *)
Fixpoint large (m : gmap Z smf) (bytes : Z) (l : list Z) : option (option Z) :=
  match l with
  | [] => Some None
  | a :: l => let? x := m !! a in if bytes <=? size x then Some (Some a) else large m bytes l
  end.

Definition choose (sc : smf_sc) (bytes : Z) : option (option Z) :=
  let b := bucket sc bytes in
  match first_of (free sc) b (NBUCKET - 1 - b) with
  | Some a => Some (Some a)
  | None => let? l := free sc !! (NBUCKET - 1)%nat in large (smfs sc) bytes l
  end.

(** [malloc] gave [fresh]. *)
Definition alloc_smf (sc : smf_sc) (bytes fresh : Z) : option (smf_sc * option Z) :=
  assert! bytes mod pagesize sc =? 0 ;;
  let? c := choose sc bytes in
  match c with
  | None => Some (sc, None)
  | Some a =>
      let? x := smfs sc !! a in
      assert! bytes <=? size x ;;
      let? sc := remfree sc a in
      let? x := smfs sc !! a in
      if size x =? bytes then
        Some (set_used (put sc a (set_alloc x true)) (used sc ++ [a]), Some a)
      else
        let x1 := set_range x (size x - bytes) (offset x + bytes) (ptr x + bytes) in
        let x2 := set_alloc (set_range x bytes (offset x) (ptr x)) true in
        let sc := put (put sc a x1) fresh x2 in
        let sc := set_order sc (insert_before a fresh (order sc)) in
        let sc := set_used sc (used sc ++ [fresh]) in
        let? sc := insfree sc a in
        Some (sc, Some fresh)
  end.

(** ** Freeing *)

(** [x] ends where [y] begins, in memory and in the file. *)
Definition touch (x y : smf) : bool :=
  (ptr y =? ptr x + size x) && (offset y =? offset x + size x).

(** The merge with the range behind. *)
Definition merge_next (sc : smf_sc) (a : Z) : option smf_sc :=
  let? x := smfs sc !! a in
  match next_of a (order sc) with
  | None => Some sc
  | Some b =>
      let? y := smfs sc !! b in
      if negb (alloc y) && touch x y then
        let sc := put sc a (set_range x (size x + size y) (offset x) (ptr x)) in
        let sc := set_order sc (unlink b (order sc)) in
        let? sc := remfree sc b in
        Some (set_smfs sc (delete b (smfs sc)))
      else Some sc
  end.

(** The merge with the range in front; the result names the merged range. *)
Definition merge_prev (sc : smf_sc) (a : Z) : option (smf_sc * Z) :=
  let? x := smfs sc !! a in
  match prev_of a (order sc) with
  | None => Some (sc, a)
  | Some b =>
      let? y := smfs sc !! b in
      if negb (alloc y) && touch y x then
        let? sc := remfree sc b in
        let? y := smfs sc !! b in
        let sc := put sc b (set_range y (size y + size x) (offset y) (ptr y)) in
        let sc := set_order sc (unlink a (order sc)) in
        Some (set_smfs sc (delete a (smfs sc)), b)
      else Some (sc, a)
  end.

Definition free_smf (sc : smf_sc) (a : Z) : option smf_sc :=
  let? x := smfs sc !! a in
  assert! alloc x ;;
  assert! 0 <? size x ;;
  assert! size x mod pagesize sc =? 0 ;;
  let sc := set_used sc (unlink a (used sc)) in
  let sc := put sc a (set_alloc x false) in
  let? sc := merge_next sc a in
  let? (sc, a) := merge_prev sc a in
  insfree sc a.

Definition trim_smf (sc : smf_sc) (a bytes fresh : Z) : option smf_sc :=
  let? x := smfs sc !! a in
  assert! alloc x ;;
  assert! 0 <? bytes ;;
  assert! bytes <? size x ;;
  assert! bytes mod pagesize sc =? 0 ;;
  assert! size x mod pagesize sc =? 0 ;;
  let sc := put sc a (set_range x bytes (offset x) (ptr x)) in
  let sc := put sc fresh (set_range x (size x - bytes) (offset x + bytes) (ptr x + bytes)) in
  let sc := set_order sc (insert_after a fresh (order sc)) in
  let sc := set_used sc (used sc ++ [fresh]) in
  free_smf sc fresh.

(** ** The ranges of the file *)

(** The walk of [new_smf] along the address order. *)
Fixpoint order_walk (m : gmap Z smf) (a p : Z) (l : list Z) : option (list Z) :=
  match l with
  | [] => Some [a]
  | c :: l' =>
      let? y := m !! c in
      if p <? ptr y then Some (a :: c :: l')
      else let? r := order_walk m a p l' in Some (c :: r)
  end.

Definition new_smf (sc : smf_sc) (p off len fresh : Z) : option smf_sc :=
  assert! len mod pagesize sc =? 0 ;;
  let sc := put sc fresh (Smf true len off p None 0 0 0 0) in
  let? l := order_walk (smfs sc) fresh p (order sc) in
  let sc := set_order sc l in
  let sc := set_used sc (fresh :: used sc) in
  free_smf sc fresh.

Section Open.
Context (mmap : Z -> Z -> option Z) (malloc : gmap Z smf -> Z) (getpagesize : Z).

Definition SSIZE_MAX : Z := 2 ^ 63 - 1.

(** [smf_open_chunk(sc, sz, off, &fail, &sum)]; sizes shrink to half, so the
    fuel is at most the number of pages. *)
Fixpoint smf_open_chunk (fuel : nat) (sc : smf_sc) (sz off fail sum : Z) : option (smf_sc * Z * Z) :=
  match fuel with
  | O => None
  | S fuel =>
      assert! negb (sz =? 0) ;;
      assert! sz mod pagesize sc =? 0 ;;
      if fail <? pagesize sc * MINPAGES then Some (sc, fail, sum)
      else
        let mapped :=
          if (0 <? sz) && (sz <? fail) && (sz <? SSIZE_MAX) then mmap sz off else None in
        match mapped with
        | Some p =>
            let? sc := new_smf sc p off sz (malloc (smfs sc)) in
            Some (sc, fail, sum + sz)
        | None =>
            let fail := if sz <? fail then sz else fail in
            let h := Z.quot sz 2 in
            let h := if SSIZE_MAX <? h then SSIZE_MAX else h in
            let h := h - Z.rem h (pagesize sc) in
            let? (sc, fail, sum) := smf_open_chunk fuel sc h off fail sum in
            smf_open_chunk fuel sc (sz - h) (off + h) fail sum
        end
  end.

(** The process exits when less than [MINPAGES] pages could be mapped. *)
Definition smf_open (sc : smf_sc) (filesize : Z) : option (smf_sc * Z) :=
  let? (sc, _, sum) :=
    smf_open_chunk (Z.to_nat (filesize / pagesize sc) + 1) sc filesize 0 (Z.shiftl 1 30) 0 in
  assert! MINPAGES * getpagesize <=? sum ;;
  Some (sc, sum).

End Open.

(** ** The operations of the stevedore *)

(** [size += pagesize - 1; size &= ~(pagesize - 1)] where the [size_t] is wider
    than the [unsigned] page size. *)
Definition round_up (sc : smf_sc) (sz : Z) : Z :=
  Z.land (u64 (sz + (pagesize sc - 1))) (Z.lnot (pagesize sc - 1) mod 2 ^ 32).

Definition smf_alloc (sc : smf_sc) (sz fresh : Z) : option (smf_sc * option Z) :=
  assert! 0 <? sz ;;
  let sz := round_up sc sz in
  let? (sc, r) := alloc_smf sc sz fresh in
  match r with
  | None => Some (sc, None)
  | Some a =>
      let? x := smfs sc !! a in
      assert! size x =? sz ;;
      Some (put sc a (set_storage x sz (ptr x) 0 (offset x)), Some a)
  end.

Definition smf_trim (sc : smf_sc) (a sz fresh : Z) : option smf_sc :=
  let? x := smfs sc !! a in
  assert! 0 <? sz ;;
  assert! sz <=? s_space x ;;
  assert! sz <=? size x ;;
  let sz := round_up sc sz in
  if sz <? size x then
    let? sc := trim_smf sc a sz fresh in
    let? x := smfs sc !! a in
    assert! size x =? sz ;;
    Some (put sc a (set_storage x sz (s_ptr x) (s_len x) (s_where x)))
  else Some sc.

Definition smf_free (sc : smf_sc) (a : Z) : option smf_sc := free_smf sc a.

(** [smf_init]: nothing is mapped yet. *)
Definition smf_init (page_size : Z) : smf_sc :=
  Sc page_size ∅ [] (repeat [] NBUCKET) [].

End StorageFile.
