(* ===== verification/StorageInv.v ===== *)
(** * StorageInv: the lists and nodes of the file stevedore

    The invariant of [StorageFile]'s allocator and what the allocation, freeing
    and trimming of one range do to it, stated on the list of blocks in address
    order ([view]): allocation cuts a block from the front of a free one, a
    freed block absorbs its free neighbours. *)
From stdpp Require Import sorting.
From S2P Require Import Prelude StorageFile.

Module StorageInv.
Import StorageFile.

(** ** Blocks *)

Record blk := Blk { b_alloc : bool; b_size : Z; b_off : Z; b_ptr : Z }.
Definition blk_of (x : smf) : blk := Blk (alloc x) (size x) (offset x) (ptr x).

Definition blks (m : gmap Z smf) (l : list Z) : list blk := omap (fun a => blk_of <$> m !! a) l.
Definition view (sc : smf_sc) : list blk := blks (smfs sc) (order sc).

Definition before (x y : blk) : Prop := b_ptr x + b_size x <= b_ptr y.
Definition tile (l : list blk) : Prop := StronglySorted before l.

Definition meet (x y : blk) : bool :=
  negb (b_alloc y) && (b_ptr y =? b_ptr x + b_size x) && (b_off y =? b_off x + b_size x).
Definition grow (x : blk) (n : Z) : blk := Blk (b_alloc x) (b_size x + n) (b_off x) (b_ptr x).

(** A free block takes in a free one behind it, or is taken in by one before. *)
Definition absorb (x : blk) (r : list blk) : blk * list blk :=
  match r with
  | y :: r' => if meet x y then (grow x (b_size y), r') else (x, r)
  | [] => (x, r)
  end.
Definition meet_back (y x : blk) : bool :=
  negb (b_alloc y) && (b_ptr x =? b_ptr y + b_size y) && (b_off x =? b_off y + b_size y).
Definition release (l : list blk) (x : blk) (r : list blk) : list blk :=
  let (x, r) := absorb (Blk false (b_size x) (b_off x) (b_ptr x)) r in
  match last l with
  | Some y => if meet_back y x then removelast l ++ grow y (b_size x) :: r else l ++ x :: r
  | None => x :: r
  end.

(** No two free blocks could be one. *)
Definition apart (x y : blk) : Prop := b_alloc x = false -> meet x y = false.
Fixpoint coalesced (l : list blk) : Prop :=
  match l with
  | x :: (y :: _) as r => apart x y /\ coalesced r
  | _ => True
  end.

Definition total (l : list blk) : Z := foldr (fun x n => b_size x + n) 0 l.

(** ** The invariant

    [pend] are the free ranges that are on no free list at the moment. *)
Record base (pend : list Z) (sc : smf_sc) : Prop := Base {
  b_page : 0 < pagesize sc;
  b_lists : length (free sc) = NBUCKET;
  b_nodup : NoDup (order sc);
  b_order : forall a, a ∈ order sc <-> is_Some (smfs sc !! a);
  b_sizes : forall a x, smfs sc !! a = Some x -> 0 < size x /\ size x mod pagesize sc = 0;
  b_used : NoDup (used sc) /\
    forall a, a ∈ used sc <-> exists x, smfs sc !! a = Some x /\ alloc x = true;
  b_flist : forall a x, smfs sc !! a = Some x ->
    flist x = if alloc x || bool_decide (a ∈ pend) then None else Some (bucket sc (size x));
  b_free : forall b l, free sc !! b = Some l ->
    NoDup l /\ forall a, a ∈ l <-> exists x, smfs sc !! a = Some x /\ flist x = Some b;
  b_tile : tile (view sc)
}.

Definition wf (sc : smf_sc) : Prop := base [] sc /\ coalesced (view sc).

(** ** Lists *)

Lemma unlink_id a l : a ∉ l -> unlink a l = l.
Proof.
  unfold unlink. induction l as [| c l IH]; [done |]. intros H.
  rewrite filter_cons, decide_True by set_solver. f_equal. apply IH. set_solver.
Qed.
Lemma unlink_mid a l r : a ∉ l -> a ∉ r -> unlink a (l ++ a :: r) = l ++ r.
Proof.
  intros H1 H2. unfold unlink. rewrite filter_app, filter_cons, decide_False by naive_solver.
  fold (unlink a l) (unlink a r). by rewrite !unlink_id.
Qed.
Lemma elem_unlink a b l : b ∈ unlink a l <-> b <> a /\ b ∈ l.
Proof. unfold unlink. by rewrite list_elem_of_filter. Qed.
Lemma NoDup_unlink a l : NoDup l -> NoDup (unlink a l).
Proof. apply NoDup_filter. Qed.
Lemma unlink_self a : unlink a [a] = [].
Proof. apply (unlink_mid a [] []); apply not_elem_of_nil. Qed.
Lemma insert_before_mid a f l r : a ∉ l -> insert_before a f (l ++ a :: r) = l ++ f :: a :: r.
Proof.
  induction l as [| c l IH]; cbn; [by rewrite Z.eqb_refl |]. intros H.
  destruct (Z.eqb_spec c a); [set_solver |]. f_equal. apply IH. set_solver.
Qed.
Lemma insert_after_mid a f l r : a ∉ l -> insert_after a f (l ++ a :: r) = l ++ a :: f :: r.
Proof.
  induction l as [| c l IH]; cbn; [by rewrite Z.eqb_refl |]. intros H.
  destruct (Z.eqb_spec c a); [set_solver |]. f_equal. apply IH. set_solver.
Qed.
Lemma next_of_mid a l r : a ∉ l -> next_of a (l ++ a :: r) = head r.
Proof.
  induction l as [| c l IH]; cbn; [by rewrite Z.eqb_refl |]. intros H.
  destruct (Z.eqb_spec c a); [set_solver |]. apply IH. set_solver.
Qed.
Lemma prev_of_first a c r : a ∉ r -> prev_of a (c :: r) = None.
Proof.
  revert c. induction r as [| d r IH]; intros c H; [done |].
  apply not_elem_of_cons in H as [H1 H2]. cbn [prev_of].
  destruct (Z.eqb_spec d a); [congruence |]. exact (IH d H2).
Qed.
Lemma prev_of_mid a l r : a ∉ l -> a ∉ r -> prev_of a (l ++ a :: r) = last l.
Proof.
  intros H Hr. induction l as [| c l IH]; [by apply prev_of_first |].
  apply not_elem_of_cons in H as [_ H]. specialize (IH H).
  destruct l as [| d l]; [cbn; by rewrite Z.eqb_refl |].
  apply not_elem_of_cons in H as [H _]. cbn [app] in *. cbn [prev_of].
  destruct (Z.eqb_spec d a); [congruence |]. exact IH.
Qed.

Lemma blks_app m l r : blks m (l ++ r) = blks m l ++ blks m r.
Proof. apply omap_app. Qed.
Lemma blks_cons m a x l : m !! a = Some x -> blks m (a :: l) = blk_of x :: blks m l.
Proof. intros H. unfold blks. cbn. by rewrite H. Qed.
Lemma blks_ext m m' l :
  (forall a, a ∈ l -> blk_of <$> m !! a = blk_of <$> m' !! a) -> blks m l = blks m' l.
Proof.
  induction l as [| a l IH]; [done |]. intros H. unfold blks in *. cbn.
  rewrite (H a) by set_solver. rewrite IH by set_solver. done.
Qed.
Lemma blks_insert_out m a x l : a ∉ l -> blks (<[a := x]> m) l = blks m l.
Proof. intros H. apply blks_ext. intros b Hb. rewrite lookup_insert_ne; [done | set_solver]. Qed.
Lemma blks_delete_out m a l : a ∉ l -> blks (delete a m) l = blks m l.
Proof. intros H. apply blks_ext. intros b Hb. rewrite lookup_delete_ne; [done | set_solver]. Qed.

(** A node on the order list, and what is before and behind it. *)
Lemma order_split pend sc a x :
  base pend sc -> smfs sc !! a = Some x ->
  exists l r, order sc = l ++ a :: r /\ a ∉ l /\ a ∉ r /\
    view sc = blks (smfs sc) l ++ blk_of x :: blks (smfs sc) r.
Proof.
  intros H Hx. destruct (list_elem_of_split (order sc) a) as (l & r & E).
  { apply (b_order _ _ H). eauto. }
  pose proof (b_nodup _ _ H) as N. rewrite E in N. apply NoDup_app in N as (_ & N1 & N2).
  apply NoDup_cons in N2 as [N2 _].
  exists l, r. split; [done |]. split; [intros Hl; apply (N1 a Hl); set_solver |]. split; [done |].
  unfold view. by rewrite E, blks_app, (blks_cons _ _ x).
Qed.

(** ** Buckets *)

Lemma bucket_lt sc sz : (bucket sc sz < NBUCKET)%nat.
Proof.
  unfold bucket. destruct (Z.leb_spec (Z.of_nat NBUCKET) (sz / pagesize sc)); unfold NBUCKET in *; lia.
Qed.
Lemma bucket_le sc sz : 0 < pagesize sc -> 0 <= sz -> Z.of_nat (bucket sc sz) * pagesize sc <= sz.
Proof.
  intros Hp Hs. unfold bucket.
  pose proof (Z.div_pos sz _ Hs Hp). pose proof (Z.mul_div_le sz _ Hp).
  destruct (Z.leb_spec (Z.of_nat NBUCKET) (sz / pagesize sc)).
  - assert (Z.of_nat (NBUCKET - 1) <= sz / pagesize sc) by (unfold NBUCKET in *; lia). nia.
  - rewrite Z2Nat.id by lia. nia.
Qed.
(** Below the last list, the sizes of a list are all the same. *)
Lemma bucket_small sc sz : 0 < pagesize sc -> 0 <= sz -> sz mod pagesize sc = 0 ->
  (bucket sc sz < NBUCKET - 1)%nat -> sz = Z.of_nat (bucket sc sz) * pagesize sc.
Proof.
  intros Hp Hs Hm. unfold bucket. pose proof (Z.div_pos sz _ Hs Hp).
  pose proof (Z_div_exact_full_2 sz (pagesize sc) ltac:(lia) Hm).
  destruct (Z.leb_spec (Z.of_nat NBUCKET) (sz / pagesize sc)); [lia |]. intros _.
  rewrite Z2Nat.id by lia. lia.
Qed.
Lemma bucket_mono sc x y : 0 < pagesize sc -> 0 <= x <= y -> (bucket sc x <= bucket sc y)%nat.
Proof.
  intros Hp H. unfold bucket. pose proof (Z.div_le_mono x y _ Hp ltac:(lia)).
  pose proof (Z.div_pos x _ ltac:(lia) Hp).
  destruct (Z.leb_spec (Z.of_nat NBUCKET) (x / pagesize sc)), (Z.leb_spec (Z.of_nat NBUCKET) (y / pagesize sc));
    unfold NBUCKET in *; lia.
Qed.


Ltac fields :=
  cbn [put set_smfs set_order set_free set_used pagesize smfs order free used] in *.
Ltac at_node c a :=
  destruct (decide (c = a)) as [-> |];
  [rewrite lookup_insert_eq | rewrite lookup_insert_ne by done].

(** ** The free lists *)

Lemma ins_walk_spec m a x b ns l :
  (forall c, c ∈ l -> exists y, m !! c = Some y /\ ns <= size y /\ alloc y = false /\ flist y = Some b) ->
  exists r, ins_walk m a x b ns l = Some r /\ r ≡ₚ a :: l.
Proof.
  induction l as [| c l IH]; intros H; [by exists [a] |]. cbn [ins_walk].
  destruct (H c) as (y & -> & Hs & Ha & Hf); [set_solver |].
  rewrite (proj2 (Z.leb_le _ _) Hs), Ha, bool_decide_true by done. cbn [negb].
  destruct (offset x <? offset y); [eauto |].
  destruct IH as (r & -> & E); [set_solver |]. exists (c :: r). split; [done |].
  rewrite E. apply perm_swap.
Qed.

(** A new free-list pointer does not show in the view. *)
Lemma view_flist sc a x f l u :
  smfs sc !! a = Some x ->
  view (Sc (pagesize sc) (<[a := set_flist x f]> (smfs sc)) (order sc) l u) = view sc.
Proof.
  intros Hx. apply blks_ext. cbn. intros c _. destruct (decide (c = a)) as [-> |].
  - by rewrite lookup_insert_eq, Hx.
  - by rewrite lookup_insert_ne.
Qed.

Lemma insfree_spec pend sc a x :
  base pend sc -> a ∈ pend -> smfs sc !! a = Some x -> alloc x = false ->
  exists sc', insfree sc a = Some sc' /\ base (unlink a pend) sc' /\ view sc' = view sc /\
    pagesize sc' = pagesize sc /\ order sc' = order sc /\ used sc' = used sc /\
    smfs sc' = <[a := set_flist x (Some (bucket sc (size x)))]> (smfs sc).
Proof.
  intros H Hp Hx Ha. pose proof H as [H1 H2 H3 H4 H5 H6 H7 H8 H9].
  assert (flist x = None) as Hf.
  { rewrite (H7 _ _ Hx). rewrite (bool_decide_true _ Hp), orb_true_r. done. }
  set (b := bucket sc (size x)).
  destruct (lookup_lt_is_Some_2 (free sc) b) as [l Hl].
  { rewrite H2. apply bucket_lt. }
  unfold insfree. rewrite Hx, Ha, Hf. cbn [negb]. rewrite bool_decide_true by done.
  fold b. cbn [free put set_smfs smfs pagesize]. rewrite Hl.
  destruct (ins_walk_spec (<[a := set_flist x (Some b)]> (smfs sc)) a x b (Z.of_nat b * pagesize sc) l)
    as (r & -> & Er).
  { intros c Hc. apply H8 in Hl as [_ Hl]. apply Hl in Hc as (y & Hy & Hfy).
    assert (c <> a) as Ne by (intros ->; congruence).
    exists y. rewrite lookup_insert_ne by done. split; [done |].
    pose proof (H7 _ _ Hy) as E. rewrite Hfy in E. destruct (alloc y); [done |]. cbn in E.
    destruct (bool_decide (c ∈ pend)); [done |]. injection E as ->. 
    split; [| done]. apply bucket_le; [done |]. apply Z.lt_le_incl, (H5 _ _ Hy). }
  eexists. split; [reflexivity |]. cbn [set_free pagesize order used smfs].
  split; [| split; [exact (view_flist sc a x (Some b) (<[b := r]> (free sc)) (used sc) Hx) | done]].
  pose proof (view_flist sc a x (Some b) (<[b := r]> (free sc)) (used sc) Hx) as Ev.
  constructor; fields; try done.
  - by rewrite length_insert.
  - intros c. rewrite H4. at_node c a; [rewrite Hx | done]. split; eauto.
  - intros c y. at_node c a; [| apply H5]. intros [= <-]. exact (H5 _ _ Hx).
  - split; [apply H6 |]. intros c. rewrite (proj2 H6). at_node c a; [| done].
    rewrite Hx. split; intros (y & [= <-] & E); [| cbn in E]; congruence.
  - intros c y. at_node c a.
    + intros [= <-]. cbn. rewrite Ha, bool_decide_false; [done |]. rewrite elem_unlink. naive_solver.
    + intros Hy. rewrite (H7 _ _ Hy).
      rewrite (bool_decide_ext (c ∈ unlink a pend) (c ∈ pend)); [done |]. rewrite elem_unlink. naive_solver.
  - intros b' l' Hl'. destruct (decide (b' = b)) as [-> |].
    + rewrite list_lookup_insert_eq in Hl' by (by eapply lookup_lt_Some). injection Hl' as <-.
      apply H8 in Hl as [Hn Hl]. split.
      * rewrite Er. constructor; [| done]. rewrite Hl. intros (y & Hy & E). congruence.
      * intros c. rewrite Er, elem_of_cons, Hl. at_node c a; [split; [eauto | by left] |]. naive_solver.
    + rewrite list_lookup_insert_ne in Hl' by done. apply H8 in Hl' as [Hn Hl']. split; [done |].
      intros c. rewrite Hl'. at_node c a; [| done].
      rewrite Hx. split; intros (y & [= <-] & E); [congruence |]. cbn in E. congruence.
  - exact (eq_ind_r tile H9 Ev).
Qed.

Lemma remfree_spec pend sc a x :
  base pend sc -> a ∉ pend -> smfs sc !! a = Some x -> alloc x = false ->
  exists sc', remfree sc a = Some sc' /\ base (a :: pend) sc' /\ view sc' = view sc /\
    pagesize sc' = pagesize sc /\ order sc' = order sc /\ used sc' = used sc /\
    smfs sc' = <[a := set_flist x None]> (smfs sc).
Proof.
  intros H Hp Hx Ha. pose proof H as [H1 H2 H3 H4 H5 H6 H7 H8 H9].
  set (b := bucket sc (size x)).
  assert (flist x = Some b) as Hf by (rewrite (H7 _ _ Hx), Ha, (bool_decide_false _ Hp); done).
  destruct (lookup_lt_is_Some_2 (free sc) b) as [l Hl].
  { rewrite H2. apply bucket_lt. }
  unfold remfree. rewrite Hx, Ha, Hf. cbn [negb]. fold b. rewrite bool_decide_true by done. rewrite Hl.
  pose proof (view_flist sc a x None (<[b := unlink a l]> (free sc)) (used sc) Hx) as Ev.
  eexists. split; [reflexivity |]. split; [| split; [exact Ev | done]].
  constructor; fields; try done.
  - by rewrite length_insert.
  - intros c. rewrite H4. at_node c a; [rewrite Hx | done]. split; eauto.
  - intros c y. at_node c a; [| apply H5]. intros [= <-]. exact (H5 _ _ Hx).
  - split; [apply H6 |]. intros c. rewrite (proj2 H6). at_node c a; [| done].
    rewrite Hx. split; intros (y & [= <-] & E); [| cbn in E]; congruence.
  - intros c y. at_node c a.
    + intros [= <-]. cbn. rewrite Ha, bool_decide_true by set_solver. done.
    + intros Hy. rewrite (H7 _ _ Hy).
      rewrite (bool_decide_ext (c ∈ a :: pend) (c ∈ pend)); [done |]. set_solver.
  - intros b' l' Hl'. destruct (decide (b' = b)) as [-> |].
    + rewrite list_lookup_insert_eq in Hl' by (by eapply lookup_lt_Some). injection Hl' as <-.
      apply H8 in Hl as [Hn Hl]. split; [by apply NoDup_unlink |].
      intros c. rewrite elem_unlink, Hl. at_node c a; [| naive_solver].
      split; [naive_solver |]. intros (y & [= <-] & E). done.
    + rewrite list_lookup_insert_ne in Hl' by done. apply H8 in Hl' as [Hn Hl']. split; [done |].
      intros c. rewrite Hl'. at_node c a; [| done].
      rewrite Hx. split; intros (y & [= <-] & E); [congruence |]. cbn in E. congruence.
  - exact (eq_ind_r tile H9 Ev).
Qed.

(** ** Changing one node *)

Lemma tile_replace l xs ys r :
  tile (l ++ xs ++ r) -> tile ys ->
  (forall y, y ∈ ys -> (exists x, x ∈ xs /\ b_ptr x <= b_ptr y) /\
                       (exists x, x ∈ xs /\ b_ptr y + b_size y <= b_ptr x + b_size x)) ->
  tile (l ++ ys ++ r).
Proof.
  unfold tile. rewrite !StronglySorted_app. unfold before. intros (H1 & H2 & H3 & H4 & H5) Hy H.
  split; [| split; [done | split; [| by split]]].
  - intros u v Hu Hv. apply elem_of_app in Hv as [Hv | Hv]; [| apply H1; set_solver].
    destruct (H v Hv) as [(x & Hx & ?) _]. assert (x ∈ xs ++ r) as Hx' by set_solver.
    specialize (H1 u x Hu Hx'). lia.
  - intros u v Hu Hv. destruct (H u Hu) as [_ (x & Hx & ?)]. specialize (H3 x v Hx Hv). lia.
Qed.

(** [a] gets the node [y], which is on no free list. *)
Lemma base_put pend pend' sc a y order' used' :
  base pend sc ->
  (forall x, smfs sc !! a = Some x -> flist x = None) -> flist y = None ->
  0 < size y -> size y mod pagesize sc = 0 ->
  (alloc y = false -> a ∈ pend') -> (forall c, c <> a -> c ∈ pend' <-> c ∈ pend) ->
  NoDup order' -> (forall c, c ∈ order' <-> c = a \/ c ∈ order sc) ->
  NoDup used' -> (forall c, c ∈ used' <-> (c <> a /\ c ∈ used sc) \/ (c = a /\ alloc y = true)) ->
  tile (blks (<[a := y]> (smfs sc)) order') ->
  base pend' (Sc (pagesize sc) (<[a := y]> (smfs sc)) order' (free sc) used').
Proof.
  intros [H1 H2 H3 H4 H5 H6 H7 H8 H9] Hx Hf Hs Hm Ha Hp No Ho Nu Hu Ht.
  constructor; fields; try done.
  - intros c. rewrite Ho, H4. at_node c a; [split; eauto | naive_solver].
  - intros c z. at_node c a; [naive_solver | apply H5].
  - split; [done |]. intros c. rewrite Hu, (proj2 H6). at_node c a; [| naive_solver].
    split; [| intros (? & [= <-] & ?); by right]. intros [[] | [_ ?]]; [done | eauto].
  - intros c z. at_node c a; [intros [= <-] | intros Hz].
    + rewrite Hf. destruct (alloc y); [done |]. by rewrite bool_decide_true by auto.
    + rewrite (H7 _ _ Hz), (bool_decide_ext (c ∈ pend') (c ∈ pend)); [done | by apply Hp].
  - intros b l Hl. apply H8 in Hl as [Hn Hl]. split; [done |]. intros c. rewrite Hl.
    at_node c a; [| done]. split; intros (z & Hz & E); [rewrite (Hx _ Hz) in E; done |].
    injection Hz as <-. congruence.
Qed.

(** A free node that is on no free list goes away. *)
Lemma base_delete pend pend' sc a x :
  base pend sc -> smfs sc !! a = Some x -> alloc x = false -> flist x = None ->
  (forall c, c <> a -> c ∈ pend' <-> c ∈ pend) ->
  tile (blks (delete a (smfs sc)) (unlink a (order sc))) ->
  base pend' (Sc (pagesize sc) (delete a (smfs sc)) (unlink a (order sc)) (free sc) (used sc)).
Proof.
  intros [H1 H2 H3 H4 H5 H6 H7 H8 H9] Hx Ha Hf Hp Ht.
  constructor; fields; try done.
  - by apply NoDup_unlink.
  - intros c. rewrite elem_unlink, H4. destruct (decide (c = a)) as [-> |].
    + rewrite lookup_delete_eq. split; [naive_solver | by intros []].
    + rewrite lookup_delete_ne by done. naive_solver.
  - intros c z Hz. apply lookup_delete_Some in Hz as [_ Hz]. by apply (H5 c).
  - split; [apply H6 |]. intros c. rewrite (proj2 H6). destruct (decide (c = a)) as [-> |].
    + rewrite lookup_delete_eq, Hx. split; intros (? & E & ?); [injection E as <-; congruence | done].
    + by rewrite lookup_delete_ne.
  - intros c z Hz. apply lookup_delete_Some in Hz as [Hc Hz]. rewrite (H7 _ _ Hz).
    rewrite (bool_decide_ext (c ∈ pend') (c ∈ pend)); [done | apply Hp; congruence].
  - intros b l Hl. apply H8 in Hl as [Hn Hl]. split; [done |]. intros c. rewrite Hl.
    destruct (decide (c = a)) as [-> |]; [| by rewrite lookup_delete_ne].
    rewrite lookup_delete_eq, Hx. split; intros (? & E & ?); [injection E as <-; congruence | done].
Qed.

(** ** Choosing a range *)

Lemma first_of_spec ls n : forall b,
  match first_of ls b n with
  | Some a => exists b' l, (b <= b' < b + n)%nat /\ ls !! b' = Some (a :: l)
  | None => forall b' l, (b <= b' < b + n)%nat -> ls !! b' = Some l -> l = []
  end.
Proof.
  induction n as [| n IH]; intros b; cbn [first_of]; [intros; lia |].
  specialize (IH (S b)).
  assert (Hstep : (forall l, ls !! b = Some l -> l = []) ->
    match first_of ls (S b) n with
    | Some a => exists b' l, (b <= b' < b + S n)%nat /\ ls !! b' = Some (a :: l)
    | None => forall b' l, (b <= b' < b + S n)%nat -> ls !! b' = Some l -> l = []
    end).
  { intros H0. destruct (first_of ls (S b) n).
    - destruct IH as (b' & l & ? & ?). exists b', l. split; [lia | done].
    - intros b' l Hb Hl. destruct (decide (b' = b)) as [-> |]; [by apply H0 |]. apply (IH b'); [lia | done]. }
  destruct (ls !! b) as [[| a l] |] eqn:E; [apply Hstep; congruence | | apply Hstep; done].
  exists b, l. split; [lia | done].
Qed.

Lemma large_spec m bytes l :
  (forall a, a ∈ l -> is_Some (m !! a)) ->
  exists r, large m bytes l = Some r /\
    match r with
    | Some a => a ∈ l /\ exists x, m !! a = Some x /\ bytes <= size x
    | None => forall a x, a ∈ l -> m !! a = Some x -> size x < bytes
    end.
Proof.
  induction l as [| a l IH]; intros H; cbn [large].
  { exists None. split; [done |]. intros a x Ha. by apply elem_of_nil in Ha. }
  destruct (H a) as [x Hx]; [set_solver |]. rewrite Hx.
  destruct (Z.leb_spec bytes (size x)) as [Hle | Hlt].
  - exists (Some a). split; [done |]. split; [set_solver | eauto].
  - destruct IH as (r & -> & Hr); [set_solver |]. exists r. split; [done |].
    destruct r as [c |]; [destruct Hr; split; [set_solver | done] |].
    intros c z Hc Hz. apply elem_of_cons in Hc as [-> | Hc]; [congruence | eauto].
Qed.

Lemma choose_spec sc bytes :
  base [] sc -> 0 < bytes -> bytes mod pagesize sc = 0 ->
  exists r, choose sc bytes = Some r /\
    match r with
    | Some a => exists x, smfs sc !! a = Some x /\ alloc x = false /\ bytes <= size x
    | None => forall a x, smfs sc !! a = Some x -> alloc x = false -> size x < bytes
    end.
Proof.
  intros [H1 H2 H3 H4 H5 H6 H7 H8 H9] Hb Hm. unfold choose.
  assert (Hin : forall b l a, free sc !! b = Some l -> a ∈ l ->
    exists x, smfs sc !! a = Some x /\ alloc x = false /\ bucket sc (size x) = b).
  { intros b l a Hl Ha. apply H8 in Hl as [_ Hl]. apply Hl in Ha as (x & Hx & Hf). exists x.
    rewrite (H7 _ _ Hx) in Hf. destruct (alloc x); [done |]. by injection Hf as ->. }
  assert (Hout : forall a x, smfs sc !! a = Some x -> alloc x = false ->
    exists l, free sc !! bucket sc (size x) = Some l /\ a ∈ l).
  { intros a x Hx Ha. destruct (lookup_lt_is_Some_2 (free sc) (bucket sc (size x))) as [l Hl].
    { rewrite H2. apply bucket_lt. }
    exists l. split; [done |]. apply H8 in Hl as [_ Hl]. apply Hl. exists x. split; [done |].
    rewrite (H7 _ _ Hx), Ha. done. }
  pose proof (first_of_spec (free sc) (NBUCKET - 1 - bucket sc bytes) (bucket sc bytes)) as F.
  pose proof (bucket_lt sc bytes) as Hlt.
  destruct (first_of _ _ _) as [a |].
  - destruct F as (b & l & Hbl & Hl). exists (Some a). split; [done |].
    destruct (Hin b _ a Hl) as (x & Hx & Ha & Eb); [set_solver |]. exists x. split; [done |]. split; [done |].
    destruct (H5 _ _ Hx) as [Hs1 Hs2].
    rewrite (bucket_small sc (size x)), (bucket_small sc bytes) by (done || lia).
    apply Z.mul_le_mono_nonneg_r; lia.
  - destruct (lookup_lt_is_Some_2 (free sc) (NBUCKET - 1)) as [l Hl]; [rewrite H2; unfold NBUCKET; lia |].
    rewrite Hl. destruct (large_spec (smfs sc) bytes l) as (r & -> & Hr).
    { intros a Ha. destruct (Hin _ _ _ Hl Ha) as (x & -> & _). eauto. }
    exists r. split; [done |]. destruct r as [a |].
    + destruct Hr as (Ha & x & Hx & Hle). destruct (Hin _ _ _ Hl Ha) as (x' & Hx' & Hal & _).
      exists x. split; [done |]. split; [congruence | done].
    + intros a x Hx Ha. destruct (Hout a x Hx Ha) as (l' & Hl' & Hal).
      destruct (Z.lt_ge_cases (size x) bytes) as [| Hge]; [done |].
      pose proof (bucket_mono sc bytes (size x) H1 ltac:(lia)) as Hm'.
      pose proof (bucket_lt sc (size x)) as Hlt'.
      destruct (decide (bucket sc (size x) = NBUCKET - 1)%nat) as [E | Ne].
      * rewrite E, Hl in Hl'. injection Hl' as ->. exact (Hr a x Hal Hx).
      * rewrite (F (bucket sc (size x)) l') in Hal; [by apply elem_of_nil in Hal | lia | done].
Qed.

(** ** Coalesced lists *)

Definition apart_head (x : blk) (r : list blk) : Prop :=
  match r with y :: _ => apart x y | [] => True end.
Definition apart_last (l : list blk) (x : blk) : Prop :=
  match last l with Some u => apart u x | None => True end.

Lemma coal_cons x r : coalesced (x :: r) <-> apart_head x r /\ coalesced r.
Proof. destruct r; cbn; tauto. Qed.
Lemma coal_app l x r :
  coalesced (l ++ x :: r) <-> coalesced l /\ apart_last l x /\ coalesced (x :: r).
Proof.
  induction l as [| u l IH]; [cbn; tauto |]. destruct l as [| v l].
  - cbn [app]. rewrite coal_cons. unfold apart_last. cbn. tauto.
  - change ((u :: v :: l) ++ x :: r) with (u :: (v :: l) ++ x :: r).
    rewrite coal_cons, IH. change (apart_head u ((v :: l) ++ x :: r)) with (apart u v).
    change (apart_last (u :: v :: l) x) with (apart_last (v :: l) x).
    change (coalesced (u :: v :: l)) with (apart u v /\ coalesced (v :: l)). tauto.
Qed.

(** Only the end of the first block counts. *)
Lemma meet_end x y z :
  b_ptr x + b_size x = b_ptr y + b_size y -> b_off x + b_size x = b_off y + b_size y ->
  meet x z = meet y z.
Proof. unfold meet. intros -> ->. done. Qed.

Lemma release_coalesced l x r : coalesced l -> coalesced r -> coalesced (release l x r).
Proof.
  intros Hl Hr. unfold release. set (x0 := Blk false (b_size x) (b_off x) (b_ptr x)).
  assert (H : let '(x', r') := absorb x0 r in
    b_alloc x' = false /\ apart_head x' r' /\ coalesced r').
  { unfold absorb. destruct r as [| y r']; [done |]. destruct (meet x0 y) eqn:E.
    - apply coal_cons in Hr as [Hh Hr]. split; [done |]. split; [| done].
      destruct r' as [| z r']; [done |]. unfold meet in E. bool_prop. intros _.
      rewrite <- (Hh ltac:(done)). apply meet_end; cbn in *; lia.
    - split; [done |]. split; [intros _; exact E | done]. }
  destruct (absorb x0 r) as [x' r']. destruct H as (Ha & Hh & Hr').
  destruct (last l) as [u |] eqn:El.
  - apply last_Some in El as [l0 ->]. rewrite removelast_last.
    apply coal_app in Hl as (Hl0 & Hu & _). destruct (meet_back u x') eqn:E.
    + unfold meet_back in E. bool_prop. apply coal_app. split; [done |]. split.
      * unfold apart_last in *. destruct (last l0) as [v |]; [| done]. intros Hv. specialize (Hu Hv).
        unfold meet in *. exact Hu.
      * apply coal_cons. split; [| done]. destruct r' as [| z r']; [done |]. intros _.
        rewrite <- (Hh Ha). apply meet_end; cbn in *; lia.
    + apply coal_app. split; [by apply coal_app |]. split; [| by apply coal_cons].
      unfold apart_last. rewrite last_snoc. intros Hu'. unfold meet, meet_back in *.
      rewrite Ha. rewrite Hu' in E. exact E.
  - apply last_None in El. subst l. cbn. by apply coal_cons.
Qed.

Definition cut (x : blk) (n : Z) : list blk :=
  Blk true n (b_off x) (b_ptr x) ::
  (if b_size x =? n then [] else [Blk false (b_size x - n) (b_off x + n) (b_ptr x + n)]).

Lemma cut_coalesced l x n r :
  b_alloc x = false -> coalesced (l ++ x :: r) -> coalesced (l ++ cut x n ++ r).
Proof.
  intros Ha H. apply coal_app in H as (Hl & Hx & Hr). apply coal_cons in Hr as [Hh Hr].
  unfold cut. cbn [app]. apply coal_app. split; [done |]. split.
  - unfold apart_last. destruct (last l); [| done]. intros _. done.
  - apply coal_cons. destruct (b_size x =? n); cbn [app].
    + split; [| done]. destruct r; [done |]. intros [=].
    + split; [intros [=] |]. apply coal_cons. split; [| done]. destruct r as [| y r]; [done |].
      intros _. rewrite <- (Hh Ha). apply meet_end; cbn in *; lia.
Qed.

Lemma total_cons x l : total (x :: l) = b_size x + total l.
Proof. reflexivity. Qed.
Lemma total_app l r : total (l ++ r) = total l + total r.
Proof. induction l as [| x l IH]; [done |]. cbn [app]. rewrite !total_cons, IH. lia. Qed.
Lemma total_cut x n : total (cut x n) = b_size x.
Proof. unfold cut. destruct (Z.eqb_spec (b_size x) n); cbn; lia. Qed.
Lemma total_release l x r : total (release l x r) = total l + b_size x + total r.
Proof.
  unfold release. destruct (absorb _ r) as [x' r'] eqn:E.
  assert (b_size x' + total r' = b_size x + total r) as Ht.
  { unfold absorb in E. destruct r as [| y r0]; [injection E as <- <-; done |].
    destruct (meet _ y); injection E as <- <-; rewrite ?total_cons; cbn [grow b_size]; lia. }
  destruct (last l) as [u |] eqn:El.
  - apply last_Some in El as [l0 ->]. rewrite removelast_last.
    destruct (meet_back u x'); rewrite !total_app, !total_cons; cbn [grow b_size total foldr]; lia.
  - apply last_None in El. subst l. rewrite total_cons. cbn [total foldr]. lia.
Qed.

(** ** Allocation *)

(** The nodes of allocated ranges are left alone. *)
Definition keeps (sc sc' : smf_sc) (P : Z -> Prop) : Prop :=
  forall c z, P c -> alloc z = true -> smfs sc !! c = Some z -> smfs sc' !! c = Some z.

Lemma mod_sub a b p : 0 < p -> a mod p = 0 -> b mod p = 0 -> (a - b) mod p = 0.
Proof. intros Hp Ha Hb. rewrite Zminus_mod, Ha, Hb. by apply Z.mod_small. Qed.
Lemma mod_add a b p : 0 < p -> a mod p = 0 -> b mod p = 0 -> (a + b) mod p = 0.
Proof. intros Hp Ha Hb. rewrite Zplus_mod, Ha, Hb. by apply Z.mod_small. Qed.

Lemma blks_put m a y l r :
  a ∉ l -> a ∉ r -> blks (<[a := y]> m) (l ++ a :: r) = blks m l ++ blk_of y :: blks m r.
Proof.
  intros Hl Hr. rewrite blks_app, (blks_cons _ _ y) by apply lookup_insert_eq.
  by rewrite !blks_insert_out.
Qed.

(** Replacing one block by a list of blocks inside it. *)
Lemma tile_one l x ys r :
  tile (l ++ x :: r) -> tile ys ->
  (forall y, y ∈ ys -> b_ptr x <= b_ptr y /\ b_ptr y + b_size y <= b_ptr x + b_size x) ->
  tile (l ++ ys ++ r).
Proof.
  intros H Hy Hin. apply (tile_replace l [x]); [done | done |].
  intros y Hyy. destruct (Hin y Hyy). split; exists x; (split; [by apply list_elem_of_singleton | done]).
Qed.
Lemma tile_1 x : tile [x].
Proof. apply SSorted_cons; [apply SSorted_nil | constructor]. Qed.
Lemma tile_2 x y : before x y -> tile [x; y].
Proof. intros H. apply SSorted_cons; [apply tile_1 | by constructor]. Qed.

Section Take.
Context (sc : smf_sc) (a : Z) (x : smf) (l r : list Z).
Context (H : base [a] sc) (Hx : smfs sc !! a = Some x) (Ha : alloc x = false) (Hf : flist x = None).
Context (Eo : order sc = l ++ a :: r) (Hl : a ∉ l) (Hr : a ∉ r).
Context (Ev : view sc = blks (smfs sc) l ++ blk_of x :: blks (smfs sc) r).

Lemma not_used : a ∉ used sc.
Proof. rewrite (proj2 (b_used _ _ H)), Hx. intros (? & [= <-] & E). congruence. Qed.

Lemma NoDup_snoc {A} (u : list A) c : NoDup u -> c ∉ u -> NoDup (u ++ [c]).
Proof.
  intros Hu Hc. apply NoDup_app. split; [done |]. split; [| apply NoDup_singleton].
  intros d Hd E. apply list_elem_of_singleton in E. by subst.
Qed.

Lemma take_whole :
  let sc' := set_used (put sc a (set_alloc x true)) (used sc ++ [a]) in
  base [] sc' /\
  view sc' = blks (smfs sc) l ++ Blk true (size x) (offset x) (ptr x) :: blks (smfs sc) r.
Proof.
  cbv zeta. assert (Ev' : view (set_used (put sc a (set_alloc x true)) (used sc ++ [a])) =
    blks (smfs sc) l ++ Blk true (size x) (offset x) (ptr x) :: blks (smfs sc) r).
  { unfold view. fields. rewrite Eo. by apply blks_put. }
  split; [| exact Ev']. destruct (b_sizes _ _ H _ _ Hx).
  apply (base_put [a] [] sc a (set_alloc x true) (order sc)); try done.
  - intros y Hy. congruence.
  - intros c Hc. split; intros E; [by apply elem_of_nil in E | by apply list_elem_of_singleton in E].
  - exact (b_nodup _ _ H).
  - intros c. rewrite (b_order _ _ H). split; [by right | intros [-> | ?]; eauto].
  - apply NoDup_snoc; [apply (b_used _ _ H) | apply not_used].
  - intros c. rewrite elem_of_app, list_elem_of_singleton. pose proof not_used.
    split; [intros [? | ->]; [left | right]; split; congruence || done | naive_solver].
  - change (tile (view (set_used (put sc a (set_alloc x true)) (used sc ++ [a])))). rewrite Ev'.
    pose proof (b_tile _ _ H) as T. rewrite Ev in T.
    apply (tile_one _ _ [_] _ T); [apply tile_1 |]. intros y Hy%list_elem_of_singleton. subst y. cbn. lia.
Qed.

Lemma shrink_front n :
  0 < n < size x -> n mod pagesize sc = 0 ->
  let x1 := set_range x (size x - n) (offset x + n) (ptr x + n) in
  base [a] (put sc a x1) /\
  view (put sc a x1) =
    blks (smfs sc) l ++ Blk false (size x - n) (offset x + n) (ptr x + n) :: blks (smfs sc) r.
Proof.
  intros Hn Hm x1. assert (Ev' : view (put sc a x1) =
    blks (smfs sc) l ++ Blk false (size x - n) (offset x + n) (ptr x + n) :: blks (smfs sc) r).
  { unfold view. fields. rewrite Eo, blks_put by done. unfold blk_of. cbn. by rewrite Ha. }
  split; [| exact Ev']. destruct (b_sizes _ _ H _ _ Hx) as [Hs1 Hs2].
  apply (base_put [a] [a] sc a x1 (order sc) (used sc)); try done.
  - intros y Hy. congruence.
  - cbn. lia.
  - apply mod_sub; [apply (b_page _ _ H) | done..].
  - intros _. by apply list_elem_of_singleton.
  - exact (b_nodup _ _ H).
  - intros c. rewrite (b_order _ _ H). split; [by right | intros [-> | ?]; eauto].
  - apply (b_used _ _ H).
  - intros c. pose proof not_used. split; [intros ?; left; split; congruence || done |].
    intros [[] | [_ E]]; [done |]. cbn in E. congruence.
  - change (tile (view (put sc a x1))). rewrite Ev'. pose proof (b_tile _ _ H) as T. rewrite Ev in T.
    apply (tile_one _ _ [_] _ T); [apply tile_1 |]. intros y Hy%list_elem_of_singleton. subst y. cbn. lia.
Qed.

Lemma take_front n f :
  0 < n < size x -> n mod pagesize sc = 0 -> smfs sc !! f = None ->
  let x1 := set_range x (size x - n) (offset x + n) (ptr x + n) in
  let x2 := set_alloc (set_range x n (offset x) (ptr x)) true in
  let sc1 := put (put sc a x1) f x2 in
  let sc2 := set_order sc1 (insert_before a f (order sc1)) in
  let sc3 := set_used sc2 (used sc2 ++ [f]) in
  base [a] sc3 /\
  view sc3 = blks (smfs sc) l ++ Blk true n (offset x) (ptr x) ::
    Blk false (size x - n) (offset x + n) (ptr x + n) :: blks (smfs sc) r.
Proof.
  intros Hn Hm Hfr x1 x2 sc1 sc2 sc3. destruct (shrink_front n Hn Hm) as [H1 E1].
  assert (f <> a) as Ne by congruence.
  assert (Hof : f ∉ order sc) by (rewrite (b_order _ _ H), Hfr; by intros []).
  assert (f ∉ l /\ f ∉ r) as [Hfl Hfr'] by (rewrite Eo in Hof; set_solver).
  assert (Eo3 : order sc3 = l ++ f :: a :: r).
  { unfold sc3, sc2, sc1. fields. rewrite Eo. by apply insert_before_mid. }
  assert (Ev3 : view sc3 = blks (smfs sc) l ++ Blk true n (offset x) (ptr x) ::
    Blk false (size x - n) (offset x + n) (ptr x + n) :: blks (smfs sc) r).
  { unfold view. rewrite Eo3. unfold sc3, sc2, sc1. fields.
    rewrite blks_put; [| done | set_solver]. f_equal; [by apply blks_insert_out |]. f_equal.
    rewrite (blks_cons _ _ x1) by apply lookup_insert_eq. rewrite blks_insert_out by done.
    unfold blk_of, x1. cbn. by rewrite Ha. }
  split; [| exact Ev3]. destruct (b_sizes _ _ H _ _ Hx) as [Hs1 Hs2].
  change sc3 with (Sc (pagesize (put sc a x1)) (<[f := x2]> (smfs (put sc a x1)))
    (order sc3) (free (put sc a x1)) (used sc ++ [f])).
  apply (base_put [a] [a]); try done.
  - intros y. fields. rewrite lookup_insert_ne by done. congruence.
  - cbn. lia.
  - rewrite Eo3. pose proof (b_nodup _ _ H) as N. rewrite Eo in N, Hof.
    apply NoDup_app in N as (N1 & N2 & N3). apply NoDup_app. split; [done |]. split.
    + intros c Hc. specialize (N2 c Hc). set_solver.
    + constructor; [set_solver | done].
  - intros c. rewrite Eo3. fields. rewrite Eo. set_solver.
  - apply NoDup_snoc; [apply (b_used _ _ H) |]. rewrite (proj2 (b_used _ _ H)), Hfr. by intros (? & [=] & _).
  - intros c. fields. rewrite elem_of_app, list_elem_of_singleton.
    assert (f ∉ used sc) by (rewrite (proj2 (b_used _ _ H)), Hfr; by intros (? & [=] & _)).
    split; [intros [? | ->]; [left | right]; split; congruence || done | naive_solver].
  - change (tile (view sc3)). rewrite Ev3. pose proof (b_tile _ _ H) as T. rewrite Ev in T.
    apply (tile_one _ _ [_; _] _ T); [apply tile_2; unfold before; cbn; lia |].
    intros y Hy. apply elem_of_cons in Hy as [-> | Hy%list_elem_of_singleton]; [| subst y]; cbn; lia.
Qed.
End Take.



(** The range [a] is taken off its free list and its front handed out. *)
Lemma alloc_some sc a x bytes fresh :
  wf sc -> 0 < bytes -> bytes mod pagesize sc = 0 -> smfs sc !! fresh = None ->
  smfs sc !! a = Some x -> alloc x = false -> bytes <= size x -> choose sc bytes = Some (Some a) ->
  exists sc' a' l r, alloc_smf sc bytes fresh = Some (sc', Some a') /\ base [] sc' /\
    pagesize sc' = pagesize sc /\ view sc = l ++ blk_of x :: r /\
    view sc' = l ++ cut (blk_of x) bytes ++ r /\ used sc' = used sc ++ [a'] /\
    blk_of <$> smfs sc' !! a' = Some (Blk true bytes (offset x) (ptr x)) /\
    a' ∉ used sc /\ keeps sc sc' (fun _ => True).
Proof.
  intros [H Hc] Hb Hm Hf Hx Hal Hle Hch. unfold alloc_smf.
  rewrite (proj2 (Z.eqb_eq _ _) Hm), Hch, Hx, (proj2 (Z.leb_le _ _) Hle).
  destruct (remfree_spec [] sc a x H ltac:(by apply not_elem_of_nil) Hx Hal)
    as (s1 & -> & H1 & Ev1 & Ep1 & Eo1 & Eu1 & Em1).
  assert (smfs s1 !! a = Some (set_flist x None)) as Hx1 by (rewrite Em1; apply lookup_insert_eq).
  destruct (order_split _ _ _ _ H1 Hx1) as (l & r & Eo & Hl & Hr & Ev).
  pose proof (not_used s1 a _ H1 Hx1 Hal) as Hau. rewrite Eu1 in Hau.
  rewrite Hx1. cbn [size set_flist]. rewrite Ev1 in Ev. rewrite <- Ep1 in Hm.
  assert (Hk : forall c z, alloc z = true -> smfs sc !! c = Some z -> c <> a) by (intros; congruence).
  destruct (Z.eqb_spec (size x) bytes) as [E | Ne].
  - destruct (take_whole s1 a _ l r H1 Hx1 Hal eq_refl Eo Hl Hr ltac:(by rewrite Ev1)) as [H2 Ev2].
    eexists _, a, _, _. split; [reflexivity |]. split; [exact H2 |]. split; [exact Ep1 |].
    split; [exact Ev |]. split; [rewrite Ev2; unfold cut; cbn; rewrite E, Z.eqb_refl; done |].
    split; [fields; by rewrite Eu1 |]. fields. split; [rewrite lookup_insert_eq; unfold blk_of; cbn; by rewrite E |].
    split; [done |]. intros c z _ Hz Hcz. fields. rewrite lookup_insert_ne by (symmetry; eauto).
    rewrite Em1, lookup_insert_ne by (symmetry; eauto). done.
  - assert (smfs s1 !! fresh = None) as Hf1.
    { rewrite Em1, lookup_insert_ne; [done | congruence]. }
    destruct (take_front s1 a _ l r H1 Hx1 Hal eq_refl Eo Hl Hr ltac:(by rewrite Ev1) bytes fresh
      ltac:(cbn; lia) Hm Hf1) as [H2 Ev2]. cbn zeta in H2, Ev2.
    match type of H2 with base _ ?s => set (s3 := s) in * end.
    assert (Hx3 : smfs s3 !! a = Some (set_range (set_flist x None) (size x - bytes) (offset x + bytes) (ptr x + bytes))).
    { unfold s3. fields. rewrite lookup_insert_ne by congruence. by rewrite lookup_insert_eq. }
    destruct (insfree_spec [a] s3 a _ H2 ltac:(by apply list_elem_of_singleton) Hx3 Hal)
      as (s4 & E4 & H4 & Ev4 & Ep4 & Eo4 & Eu4 & Em4).
    rewrite unlink_self in H4.
    eexists s4, fresh, _, _. split; [exact (f_equal (fun o => let? sc := o in Some (sc, Some fresh)) E4) |].
    split; [exact H4 |]. split; [rewrite Ep4; exact Ep1 |]. split; [exact Ev |].
    split; [rewrite Ev4, Ev2; unfold cut; cbn; by rewrite (proj2 (Z.eqb_neq _ _) Ne) |].
    split; [rewrite Eu4; unfold s3; fields; by rewrite Eu1 |].
    split; [rewrite Em4, lookup_insert_ne by congruence; unfold s3; fields; by rewrite lookup_insert_eq |].
    split; [rewrite (proj2 (b_used _ _ H)), Hf; by intros (? & [=] & _) |].
    intros c z _ Hz Hcz. rewrite Em4, lookup_insert_ne by (symmetry; eauto). unfold s3. fields.
    rewrite lookup_insert_ne by congruence. rewrite lookup_insert_ne by (symmetry; eauto).
    rewrite Em1, lookup_insert_ne by (symmetry; eauto). done.
Qed.

Lemma alloc_smf_ok sc bytes fresh :
  wf sc -> 0 < bytes -> bytes mod pagesize sc = 0 -> smfs sc !! fresh = None ->
  exists sc' r, alloc_smf sc bytes fresh = Some (sc', r) /\ wf sc' /\ pagesize sc' = pagesize sc /\
    match r with
    | None => sc' = sc /\ Forall (fun x => b_alloc x = false -> b_size x < bytes) (view sc)
    | Some a =>
        exists l x r, view sc = l ++ x :: r /\ b_alloc x = false /\ bytes <= b_size x /\
          view sc' = l ++ cut x bytes ++ r /\ used sc' = used sc ++ [a] /\ a ∉ used sc /\
          blk_of <$> smfs sc' !! a = Some (Blk true bytes (b_off x) (b_ptr x)) /\
          keeps sc sc' (fun _ => True)
    end.
Proof.
  intros W Hb Hm Hf. destruct (choose_spec sc bytes (proj1 W) Hb Hm) as ([a |] & Hch & Ha).
  - destruct Ha as (x & Hx & Hal & Hle).
    destruct (alloc_some sc a x bytes fresh W Hb Hm Hf Hx Hal Hle Hch)
      as (sc' & a' & l & r & E & H' & Ep & Ev & Ev' & Eu & Eb & Hu & Hk).
    eexists _, _. split; [exact E |]. split; [split; [exact H' |] | split; [exact Ep |]].
    + rewrite Ev'. apply cut_coalesced; [exact Hal |]. rewrite <- Ev. apply W.
    + exists l, (blk_of x), r. done.
  - unfold alloc_smf. rewrite (proj2 (Z.eqb_eq _ _) Hm), Hch.
    eexists _, None. split; [reflexivity |]. split; [done |]. split; [done |]. split; [done |].
    apply Forall_forall. intros y Hy. unfold view, blks in Hy. apply list_elem_of_omap in Hy as (a & Hin & Hy).
    destruct (smfs sc !! a) as [x |] eqn:E; [| done]. injection Hy as <-. exact (Ha a x E).
Qed.

(** ** Freeing *)

(** A free range that is taken off its list and then removed altogether. *)
Lemma drop_node pend sc b y l r :
  base pend sc -> b ∉ pend -> smfs sc !! b = Some y -> alloc y = false ->
  order sc = l ++ b :: r ->
  exists sc1, remfree sc b = Some sc1 /\ smfs sc1 = <[b := set_flist y None]> (smfs sc) /\
    order sc1 = order sc /\ used sc1 = used sc /\ pagesize sc1 = pagesize sc /\
    base pend (Sc (pagesize sc) (delete b (smfs sc)) (l ++ r) (free sc1) (used sc)) /\
    blks (delete b (smfs sc)) (l ++ r) = blks (smfs sc) l ++ blks (smfs sc) r /\
    b ∉ l /\ b ∉ r.
Proof.
  intros H Hp Hy Ha Eo.
  destruct (remfree_spec pend sc b y H Hp Hy Ha) as (s1 & E & H1 & Ev1 & Ep1 & Eo1 & Eu1 & Em1).
  pose proof (b_nodup _ _ H) as N. rewrite Eo in N. apply NoDup_app in N as (_ & N1 & N2).
  apply NoDup_cons in N2 as [N2 _].
  assert (b ∉ l) as Nl by (intros Hb; apply (N1 b Hb); set_solver).
  assert (Ed : delete b (smfs s1) = delete b (smfs sc)) by (rewrite Em1; apply delete_insert_eq).
  assert (Ebl : blks (delete b (smfs sc)) (l ++ r) = blks (smfs sc) l ++ blks (smfs sc) r).
  { rewrite blks_app, !blks_delete_out by done. done. }
  exists s1. split; [exact E |]. split; [exact Em1 |]. split; [exact Eo1 |]. split; [exact Eu1 |].
  split; [exact Ep1 |]. split; [| by split].
  rewrite <- Ep1, <- Ed, <- Eu1.
  rewrite <- (unlink_mid b l r Nl N2), <- Eo, <- Eo1.
  apply (base_delete (b :: pend) pend s1 b (set_flist y None)); try done.
  - rewrite Em1. apply lookup_insert_eq.
  - intros c Hc. set_solver.
  - rewrite Ed, Eo1, Eo, (unlink_mid b l r Nl N2), Ebl. pose proof (b_tile _ _ H) as T.
    unfold view in T. rewrite Eo, blks_app, (blks_cons _ _ y) in T by done.
    apply (tile_one _ _ [] _ T); [apply SSorted_nil |]. intros z Hz. by apply elem_of_nil in Hz.
Qed.

(** A pending free range gets longer, within the gap behind it. *)
Lemma grow_node sc a x l r off p n :
  base [a] sc -> smfs sc !! a = Some x -> alloc x = false -> flist x = None ->
  order sc = l ++ a :: r -> 0 < n -> n mod pagesize sc = 0 ->
  tile (blks (smfs sc) l ++ Blk false n off p :: blks (smfs sc) r) ->
  base [a] (put sc a (set_range x n off p)) /\
  view (put sc a (set_range x n off p)) = blks (smfs sc) l ++ Blk false n off p :: blks (smfs sc) r.
Proof.
  intros H Hx Ha Hf Eo Hn Hm T.
  pose proof (b_nodup _ _ H) as N. rewrite Eo in N. apply NoDup_app in N as (_ & N1 & N2).
  apply NoDup_cons in N2 as [N2 _].
  assert (a ∉ l) as Nl by (intros Hb; apply (N1 a Hb); set_solver).
  assert (Ev : view (put sc a (set_range x n off p)) =
    blks (smfs sc) l ++ Blk false n off p :: blks (smfs sc) r).
  { unfold view. fields. rewrite Eo, blks_put by done. unfold blk_of. cbn. by rewrite Ha. }
  split; [| exact Ev].
  apply (base_put [a] [a] sc a _ (order sc) (used sc)); try done.
  - intros z Hz. congruence.
  - intros _. by apply list_elem_of_singleton.
  - exact (b_nodup _ _ H).
  - intros c. rewrite (b_order _ _ H). split; [by right | intros [-> | ?]; eauto].
  - apply (b_used _ _ H).
  - intros c. pose proof (not_used sc a x H Hx Ha).
    split; [intros ?; left; split; congruence || done |]. intros [[] | [_ E]]; [done |]. cbn in E. congruence.
  - change (tile (view (put sc a (set_range x n off p)))). by rewrite Ev.
Qed.

Lemma touch_meet x y : negb (alloc y) && touch x y = meet (blk_of x) (blk_of y).
Proof. unfold touch, meet. cbn. by rewrite andb_assoc. Qed.
Lemma touch_back x y : negb (alloc y) && touch y x = meet_back (blk_of y) (blk_of x).
Proof. unfold touch, meet_back. cbn. by rewrite andb_assoc. Qed.

(** What both merges leave behind: the node [a'] in place of [a]. *)
Definition merged (sc sc' : smf_sc) (a' : Z) (l r : list blk) (x : blk) : Prop :=
  base [a'] sc' /\ pagesize sc' = pagesize sc /\ used sc' = used sc /\
  (exists x' li ri, smfs sc' !! a' = Some x' /\ alloc x' = false /\ flist x' = None /\
     blk_of x' = x /\ order sc' = li ++ a' :: ri /\ a' ∉ li /\ a' ∉ ri /\
     blks (smfs sc') li = l /\ blks (smfs sc') ri = r) /\
  keeps sc sc' (fun _ => True).

Lemma merge_next_spec sc a x li ri :
  base [a] sc -> smfs sc !! a = Some x -> alloc x = false -> flist x = None ->
  order sc = li ++ a :: ri -> a ∉ li -> a ∉ ri ->
  exists sc', merge_next sc a = Some sc' /\
    merged sc sc' a (blks (smfs sc) li) (absorb (blk_of x) (blks (smfs sc) ri)).2
           (absorb (blk_of x) (blks (smfs sc) ri)).1.
Proof.
  intros H Hx Ha Hf Eo Nl Nr. unfold merge_next. rewrite Hx, Eo, next_of_mid by done.
  assert (Hsame : forall r, blks (smfs sc) ri = r ->
    merged sc sc a (blks (smfs sc) li) r (blk_of x)).
  { intros r <-. split; [done |]. split; [done |]. split; [done |].
    split; [by exists x, li, ri | by intros c z]. }
  destruct ri as [| b ri]; cbn [head]; [by exists sc; split; [| apply Hsame] |].
  assert (is_Some (smfs sc !! b)) as [y Hy] by (apply (b_order _ _ H); rewrite Eo; set_solver).
  rewrite Hy, (blks_cons _ _ y) by done. rewrite touch_meet. unfold absorb.
  destruct (meet (blk_of x) (blk_of y)) eqn:E;
    [| exists sc; split; [done |]; apply Hsame; by apply blks_cons].
  assert (Ey : alloc y = false) by (unfold meet in E; bool_prop; done).
  assert (b <> a) as Ne by (intros ->; set_solver).
  destruct (drop_node [a] sc b y (li ++ [a]) ri H ltac:(set_solver) Hy Ey
    ltac:(by rewrite Eo, <- app_assoc))
    as (s1 & E1 & Em1 & Eo1 & Eu1 & Ep1 & Hd & Ebl & Nbl & Nbr).
  destruct (b_sizes _ _ H _ _ Hx) as [Sx Mx]. destruct (b_sizes _ _ H _ _ Hy) as [Sy My].
  rewrite <- app_assoc in Hd, Ebl. cbn [app] in Hd, Ebl.
  assert (Hl' : blks (delete b (smfs sc)) li = blks (smfs sc) li) by (apply blks_delete_out; set_solver).
  assert (Hr' : blks (delete b (smfs sc)) ri = blks (smfs sc) ri) by (apply blks_delete_out; done).
  destruct (grow_node _ a x li ri (offset x) (ptr x) (size x + size y) Hd) as [Hg Eg]; fields; try done.
  { by rewrite lookup_delete_ne. }
  { lia. }
  { by apply mod_add; [apply (b_page _ _ H) | ..]. }
  { rewrite Hl', Hr'. pose proof (b_tile _ _ H) as T. unfold view in T.
    rewrite Eo, blks_app, (blks_cons _ a x), (blks_cons _ b y) in T by done.
    apply (tile_replace _ [blk_of x; blk_of y] [_] _ T); [apply tile_1 |].
    intros z Hz%list_elem_of_singleton. subst z. unfold meet in E. bool_prop. cbn in *.
    split; [exists (blk_of x) | exists (blk_of y)]; (split; [set_solver | cbn; lia]). }
  (* the code takes the steps in another order *)
  set (x1 := set_range x (size x + size y) (offset x) (ptr x)) in *.
  assert (Eul : unlink b (li ++ a :: b :: ri) = li ++ a :: ri).
  { pose proof (unlink_mid b (li ++ [a]) ri Nbl Nbr) as Q. by rewrite <- !app_assoc in Q. }
  assert (E1' : remfree (set_order (put sc a x1) (unlink b (order sc))) b =
    Some (Sc (pagesize sc) (<[b := set_flist y None]> (<[a := x1]> (smfs sc)))
             (li ++ a :: ri) (free s1) (used sc))).
  { unfold remfree in *. fields. rewrite lookup_insert_ne by done. rewrite Hy in *.
    destruct (negb (alloc y)); [| done]. change (bucket (set_order (put sc a _) _) (size y)) with (bucket sc (size y)).
    destruct (bool_decide _); [| done]. destruct (free sc !! _); [| done]. injection E1 as <-. fields.
    by rewrite Eo, Eul. }
  fields.
  eexists. split; [rewrite E1'; reflexivity |]. fields.
  rewrite delete_insert_eq, delete_insert_ne by done.
  split; [exact Hg |]. split; [done |]. split; [done |]. split.
  - exists x1, li, ri. fields. rewrite lookup_insert_eq. split; [done |]. split; [done |]. split; [done |].
    split; [unfold blk_of, grow; cbn; done |]. split; [done |]. split; [done |]. split; [set_solver |].
    rewrite !blks_insert_out, Hl', Hr' by set_solver. done.
  - intros c z _ Hz Hc. fields. rewrite lookup_insert_ne by congruence.
    rewrite lookup_delete_ne by congruence. done.
Qed.

(** The last block of a list of nodes. *)
Lemma last_blks m l b y : last l = Some b -> m !! b = Some y -> last (blks m l) = Some (blk_of y).
Proof.
  intros [l' ->]%last_Some Hy. rewrite blks_app, (blks_cons _ b y [] Hy). apply last_snoc.
Qed.

Lemma merge_prev_spec sc a x li ri :
  base [a] sc -> smfs sc !! a = Some x -> alloc x = false -> flist x = None ->
  order sc = li ++ a :: ri -> a ∉ li -> a ∉ ri ->
  exists sc' a', merge_prev sc a = Some (sc', a') /\
    exists l r x', merged sc sc' a' l r x' /\
      l ++ x' :: r = match last (blks (smfs sc) li) with
                     | Some u => if meet_back u (blk_of x)
                                 then removelast (blks (smfs sc) li) ++ grow u (size x) :: blks (smfs sc) ri
                                 else blks (smfs sc) li ++ blk_of x :: blks (smfs sc) ri
                     | None => blk_of x :: blks (smfs sc) ri
                     end.
Proof.
  intros H Hx Ha Hf Eo Nl Nr. unfold merge_prev. rewrite Hx, Eo, prev_of_mid by done.
  assert (Hsame : merged sc sc a (blks (smfs sc) li) (blks (smfs sc) ri) (blk_of x)).
  { split; [done |]. split; [done |]. split; [done |]. split; [by exists x, li, ri | by intros c z]. }
  destruct (last li) as [b |] eqn:El.
  2: { apply last_None in El. subst li. eexists _, _. split; [done |]. eexists _, _, _. split; [exact Hsame |]. done. }
  assert (is_Some (smfs sc !! b)) as [y Hy].
  { apply (b_order _ _ H). apply last_Some in El as [l' ->]. rewrite Eo. set_solver. }
  rewrite Hy, (last_blks _ _ _ _ El Hy), touch_back.
  destruct (meet_back (blk_of y) (blk_of x)) eqn:E.
  2: { eexists _, _. split; [done |]. eexists _, _, _. split; [exact Hsame |]. done. }
  assert (Ey : alloc y = false) by (unfold meet_back in E; bool_prop; done).
  assert (b <> a) as Ne by (intros ->; apply last_Some in El as [l' ->]; set_solver).
  apply last_Some in El as [l' ->].
  destruct (remfree_spec [a] sc b y H ltac:(set_solver) Hy Ey) as (s1 & -> & H1 & Ev1 & Ep1 & Eo1 & Eu1 & Em1).
  assert (smfs s1 !! b = Some (set_flist y None)) as Hy1 by (rewrite Em1; apply lookup_insert_eq).
  rewrite Hy1. fields.
  pose proof (b_nodup _ _ H) as N. rewrite Eo, <- app_assoc in N. cbn [app] in N.
  apply NoDup_app in N as (_ & N1 & N2). apply NoDup_cons in N2 as [N2 _].
  assert (b ∉ l') as Nb by (intros Hb; apply (N1 b Hb); set_solver).
  assert (b ∉ ri) as Nbr by set_solver.
  assert (Eul : unlink a ((l' ++ [b]) ++ a :: ri) = l' ++ b :: ri).
  { rewrite unlink_mid by done. by rewrite <- app_assoc. }
  assert (Hx1 : smfs s1 !! a = Some x) by (rewrite Em1, lookup_insert_ne; done).
  destruct (b_sizes _ _ H _ _ Hx) as [Sx Mx]. destruct (b_sizes _ _ H _ _ Hy) as [Sy My].
  pose proof (b_tile _ _ H1) as T. unfold view in T.
  rewrite Eo1, Eo, <- app_assoc, blks_app in T. cbn [app] in T.
  rewrite (blks_cons _ b _ _ Hy1), (blks_cons _ a x) in T by done.
  assert (Hl' : forall l, a ∉ l -> b ∉ l -> blks (delete a (smfs s1)) l = blks (smfs sc) l).
  { intros l Hal Hbl. rewrite blks_delete_out by done. by rewrite Em1, blks_insert_out. }
  assert (Hl1 : forall l, b ∉ l -> blks (smfs s1) l = blks (smfs sc) l).
  { intros l Hbl. by rewrite Em1, blks_insert_out. }
  assert (Hd : base [b] (Sc (pagesize s1) (delete a (smfs s1)) (unlink a (order s1)) (free s1) (used s1))).
  { apply (base_delete [b; a] [b] s1 a x); try done; [set_solver |].
    rewrite Eo1, Eo, Eul, blks_app, (blks_cons _ b (set_flist y None)) by (by rewrite lookup_delete_ne).
    rewrite !blks_delete_out by (done || set_solver).
    apply (tile_replace _ [blk_of (set_flist y None); blk_of x] [_] _ T); [apply tile_1 |].
    intros z Hz%list_elem_of_singleton. subst z.
    split; exists (blk_of (set_flist y None)); (split; [set_solver | lia]). }
  destruct (grow_node _ b (set_flist y None) l' ri (offset y) (ptr y) (size y + size x) Hd) as [Hg Eg];
    fields; try done.
  { by rewrite lookup_delete_ne. }
  { by rewrite Eo1, Eo, Eul. }
  { lia. }
  { rewrite Ep1. by apply mod_add; [apply (b_page _ _ H) | ..]. }
  { rewrite !Hl' by set_solver. rewrite !Hl1 in T by done.
    apply (tile_replace _ [blk_of (set_flist y None); blk_of x] [_] _ T); [apply tile_1 |].
    intros z Hz%list_elem_of_singleton. subst z. unfold meet_back in E. bool_prop. cbn in *.
    split; [exists (blk_of (set_flist y None)) | exists (blk_of x)]; (split; [set_solver | cbn; lia]). }
  fields. cbn [size set_flist offset ptr].
  rewrite delete_insert_ne by done.
  eexists _, _. split; [reflexivity |].
  exists (blks (smfs sc) l'), (blks (smfs sc) ri), (grow (blk_of y) (size x)). split.
  - split; [exact Hg |]. fields. split; [done |]. split; [done |]. split.
    + eexists _, l', ri. fields. rewrite lookup_insert_eq. split; [done |]. split; [done |]. split; [done |].
      split; [unfold blk_of, grow; cbn; done |]. split; [by rewrite Eo1, Eo, Eul |]. split; [done |]. split; [done |].
      rewrite !blks_insert_out, !Hl' by set_solver. done.
    + intros c z _ Hz Hc. fields. rewrite lookup_insert_ne by congruence.
      rewrite lookup_delete_ne by congruence. rewrite Em1, lookup_insert_ne by congruence. done.
  - rewrite blks_app, (blks_cons _ b y [] Hy). by rewrite removelast_last.
Qed.

Lemma free_smf_ok sc a x li ri :
  base [] sc -> coalesced (view sc) -> smfs sc !! a = Some x -> alloc x = true ->
  order sc = li ++ a :: ri ->
  exists sc', free_smf sc a = Some sc' /\ wf sc' /\ pagesize sc' = pagesize sc /\
    view sc' = release (blks (smfs sc) li) (blk_of x) (blks (smfs sc) ri) /\
    used sc' = unlink a (used sc) /\ keeps sc sc' (fun c => c <> a).
Proof.
  intros H Hc Hx Ha Eo. unfold free_smf. rewrite Hx, Ha.
  destruct (b_sizes _ _ H _ _ Hx) as [Sx Mx].
  rewrite (proj2 (Z.ltb_lt _ _) Sx), (proj2 (Z.eqb_eq _ _) Mx).
  assert (Hf : flist x = None) by (rewrite (b_flist _ _ H _ _ Hx), Ha; done).
  pose proof (b_nodup _ _ H) as N. rewrite Eo in N. apply NoDup_app in N as (_ & N1 & N2).
  apply NoDup_cons in N2 as [Nr _].
  assert (a ∉ li) as Nl by (intros Hl; apply (N1 a Hl); set_solver).
  assert (Ev : view sc = blks (smfs sc) li ++ blk_of x :: blks (smfs sc) ri).
  { unfold view. by rewrite Eo, blks_app, (blks_cons _ _ x). }
  pose proof Hc as Hcl. rewrite Ev in Hcl. apply coal_app in Hcl as (Hcl & _ & Hcr).
  apply coal_cons in Hcr as [_ Hcr].
  set (x0 := set_alloc x false).
  assert (H0 : base [a] (put (set_used sc (unlink a (used sc))) a x0)).
  { apply (base_put [] [a] sc a x0 (order sc) (unlink a (used sc))); try done.
    - intros y Hy. congruence.
    - intros _. by apply list_elem_of_singleton.
    - intros c Hca. set_solver.
    - exact (b_nodup _ _ H).
    - intros c. rewrite (b_order _ _ H). split; [by right | intros [-> | ?]; eauto].
    - apply NoDup_unlink, (b_used _ _ H).
    - intros c. rewrite elem_unlink. split; [by left | intros [? | [_ [=]]]; done].
    - rewrite Eo, blks_put by done. pose proof (b_tile _ _ H) as T. rewrite Ev in T.
      apply (tile_one _ _ [_] _ T); [apply tile_1 |]. intros y Hy%list_elem_of_singleton. subst y. cbn. lia. }
  set (s0 := put (set_used sc (unlink a (used sc))) a x0) in *.
  assert (Hx0 : smfs s0 !! a = Some x0) by apply lookup_insert_eq.
  assert (Hbl : forall l, a ∉ l -> blks (smfs s0) l = blks (smfs sc) l) by (intros; by apply blks_insert_out).
  destruct (merge_next_spec s0 a x0 li ri H0 Hx0 eq_refl Hf Eo Nl Nr) as (s1 & E1 & H1 & Ep1 & Eu1 & Hn1 & K1).
  rewrite E1. destruct Hn1 as (x1 & li1 & ri1 & Hx1 & Ha1 & Hf1 & Eb1 & Eo1 & Nl1 & Nr1 & El1 & Er1).
  destruct (merge_prev_spec s1 a x1 li1 ri1 H1 Hx1 Ha1 Hf1 Eo1 Nl1 Nr1)
    as (s2 & a2 & E2 & l2 & r2 & b2 & (H2 & Ep2 & Eu2 & Hn2 & K2) & Er).
  rewrite E2. destruct Hn2 as (x2 & li2 & ri2 & Hx2 & Ha2 & Hf2 & Eb2 & Eo2 & Nl2 & Nr2 & El2 & Er2).
  destruct (insfree_spec [a2] s2 a2 x2 H2 ltac:(by apply list_elem_of_singleton) Hx2 Ha2)
    as (s3 & E3 & H3 & Ev3 & Ep3 & Eo3 & Eu3 & Em3).
  rewrite unlink_self in H3.
  assert (Ev' : view s3 = release (blks (smfs sc) li) (blk_of x) (blks (smfs sc) ri)).
  { rewrite Ev3. unfold view. rewrite Eo2, blks_app, (blks_cons _ a2 x2) by done.
    rewrite El2, Er2, Eb2, Er, El1, Er1, Eb1. rewrite !Hbl by done. unfold release.
    change (Blk false (b_size (blk_of x)) (b_off (blk_of x)) (b_ptr (blk_of x))) with (blk_of x0).
    destruct (absorb (blk_of x0) (blks (smfs sc) ri)) as [x' r'] eqn:Eab. cbn [fst snd] in *.
    rewrite !Hbl in Eb1 by done. rewrite Eab in Eb1. cbn [fst] in Eb1.
    replace (size x1) with (b_size x') by (by rewrite <- Eb1). done. }
  exists s3. split; [exact E3 |].
  split; [split; [exact H3 |]; rewrite Ev'; by apply release_coalesced |].
  split; [rewrite Ep3, Ep2, Ep1; done |]. split; [exact Ev' |].
  split; [rewrite Eu3, Eu2, Eu1; done |].
  intros c z Hca Hz Hcz. rewrite Em3.
  assert (Hc2 : smfs s2 !! c = Some z).
  { apply K2; [done.. |]. apply K1; [done.. |]. unfold s0. fields. by rewrite lookup_insert_ne. }
  rewrite lookup_insert_ne; [done |]. intros ->. rewrite Hx2 in Hc2. injection Hc2 as ->. congruence.
Qed.

(** A new allocated node next to what is there. *)
Lemma trim_smf_ok sc a x bytes fresh :
  wf sc -> smfs sc !! a = Some x -> alloc x = true -> 0 < bytes < size x ->
  bytes mod pagesize sc = 0 -> smfs sc !! fresh = None ->
  exists sc' l r, trim_smf sc a bytes fresh = Some sc' /\ wf sc' /\ pagesize sc' = pagesize sc /\
    view sc = l ++ blk_of x :: r /\
    view sc' = release (l ++ [Blk true bytes (offset x) (ptr x)])
      (Blk true (size x - bytes) (offset x + bytes) (ptr x + bytes)) r /\
    used sc' = used sc /\ smfs sc' !! a = Some (set_range x bytes (offset x) (ptr x)) /\
    keeps sc sc' (fun c => c <> a).
Proof.
  intros [H Hc] Hx Ha Hb Hm Hfr. unfold trim_smf. rewrite Hx, Ha.
  destruct (b_sizes _ _ H _ _ Hx) as [Sx Mx]. pose proof (b_page _ _ H) as Hp.
  rewrite (proj2 (Z.ltb_lt _ _) (proj1 Hb)), (proj2 (Z.ltb_lt _ _) (proj2 Hb)),
    (proj2 (Z.eqb_eq _ _) Hm), (proj2 (Z.eqb_eq _ _) Mx).
  assert (Hf : flist x = None) by (rewrite (b_flist _ _ H _ _ Hx), Ha; done).
  destruct (order_split _ _ _ _ H Hx) as (li & ri & Eo & Nl & Nr & Ev).
  assert (fresh <> a) as Ne by congruence.
  assert (Hof : fresh ∉ order sc) by (rewrite (b_order _ _ H), Hfr; by intros []).
  assert (Hou : fresh ∉ used sc) by (rewrite (proj2 (b_used _ _ H)), Hfr; by intros (? & [=] & _)).
  assert (fresh ∉ li /\ fresh ∉ ri) as [Hfl Hfrr] by (rewrite Eo in Hof; set_solver).
  set (x1 := set_range x bytes (offset x) (ptr x)).
  set (x2 := set_range x (size x - bytes) (offset x + bytes) (ptr x + bytes)).
  set (b1 := Blk true bytes (offset x) (ptr x)).
  set (b2 := Blk true (size x - bytes) (offset x + bytes) (ptr x + bytes)).
  assert (Eb1 : blk_of x1 = b1) by (unfold blk_of, x1, b1; cbn; by rewrite Ha).
  assert (Eb2 : blk_of x2 = b2) by (unfold blk_of, x2, b2; cbn; by rewrite Ha).
  pose proof (b_tile _ _ H) as T. rewrite Ev in T.
  (* first the front gets smaller, then the tail appears behind it *)
  assert (H1 : base [] (put sc a x1)).
  { apply (base_put [] [] sc a x1 (order sc) (used sc)); try done.
    - intros y Hy. congruence.
    - cbn. lia.
    - cbn. by rewrite Ha.
    - exact (b_nodup _ _ H).
    - intros c. rewrite (b_order _ _ H). split; [by right | intros [-> | ?]; eauto].
    - apply (b_used _ _ H).
    - intros c. rewrite (proj2 (b_used _ _ H)). destruct (decide (c = a)) as [-> |]; [| naive_solver].
      split; [intros _; right; by split | intros _; eauto].
    - rewrite Eo, blks_put by done. apply (tile_one _ _ [_] _ T); [apply tile_1 |].
      intros y Hy%list_elem_of_singleton. subst y. cbn. lia. }
  set (sc3 := Sc (pagesize sc) (<[fresh := x2]> (<[a := x1]> (smfs sc))) (li ++ a :: fresh :: ri)
                 (free sc) (used sc ++ [fresh])).
  assert (Ev3 : view sc3 = (blks (smfs sc) li ++ [b1]) ++ b2 :: blks (smfs sc) ri).
  { unfold view, sc3. fields. change (li ++ a :: fresh :: ri) with (li ++ [a] ++ fresh :: ri).
    rewrite app_assoc, blks_put by set_solver. rewrite blks_put, !blks_insert_out by set_solver.
    cbn [blks omap]. by rewrite Eb1, Eb2. }
  assert (H3 : base [] sc3).
  { apply (base_put [] [] (put sc a x1) fresh x2 (li ++ a :: fresh :: ri) (used sc ++ [fresh])); try done.
    - intros y. fields. rewrite lookup_insert_ne by done. congruence.
    - cbn. lia.
    - by apply mod_sub.
    - cbn. by rewrite Ha.
    - pose proof (b_nodup _ _ H) as N. rewrite Eo in N. apply NoDup_app in N as (N1 & N2 & N3).
      apply NoDup_cons in N3 as [N3 N4]. apply NoDup_app. split; [done |]. split.
      + intros c Hcl. specialize (N2 c Hcl). set_solver.
      + constructor; [set_solver |]. by constructor.
    - intros c. fields. rewrite Eo. set_solver.
    - apply NoDup_snoc; [apply (b_used _ _ H) | done].
    - intros c. fields. rewrite elem_of_app, list_elem_of_singleton. cbn. rewrite Ha.
      split; [intros [? | ->]; [left | right]; split; congruence || done | naive_solver].
    - change (tile (view sc3)). rewrite Ev3, <- app_assoc.
      apply (tile_one _ _ [_; _] _ T); [apply tile_2; unfold before; cbn; lia |].
      intros y Hy. apply elem_of_cons in Hy as [-> | Hy%list_elem_of_singleton]; [| subst y]; cbn; lia. }
  assert (Hc3 : coalesced (view sc3)).
  { rewrite Ev3. rewrite Ev in Hc. apply coal_app in Hc as (C1 & C2 & C3). apply coal_cons in C3 as [_ C3].
    apply coal_app. split; [| split].
    - apply coal_app. split; [done |]. split; [| done].
      unfold apart_last. destruct (last _); [| done]. intros _. done.
    - unfold apart_last. rewrite last_snoc. intros [=].
    - apply coal_cons. split; [| done]. unfold apart_head. destruct (blks _ ri); [done |]. intros [=]. }
  assert (Hx3 : smfs sc3 !! fresh = Some x2) by apply lookup_insert_eq.
  destruct (free_smf_ok sc3 fresh x2 (li ++ [a]) ri H3 Hc3 Hx3 Ha) as (s4 & E4 & W4 & Ep4 & Ev4 & Eu4 & K4).
  { unfold sc3. fields. by rewrite <- app_assoc. }
  exists s4, (blks (smfs sc) li), (blks (smfs sc) ri). cbv zeta.
  change (order (put (put sc a _) fresh _)) with (order sc). rewrite Eo, insert_after_mid by done.
  split; [exact E4 |]. split; [exact W4 |]. split; [exact Ep4 |]. split; [exact Ev |]. split.
  { rewrite Ev4, Eb2. unfold sc3. fields. rewrite blks_app, (blks_cons _ a x1)
      by (by rewrite lookup_insert_ne, lookup_insert_eq).
    rewrite !blks_insert_out by (done || set_solver). cbn [blks omap]. by rewrite Eb1. }
  split; [rewrite Eu4; unfold sc3; fields; rewrite (unlink_mid fresh (used sc) [] Hou ltac:(by apply not_elem_of_nil)), app_nil_r; done |].
  split; [apply K4; [congruence | done | unfold sc3; fields; by rewrite lookup_insert_ne, lookup_insert_eq] |].
  intros c z Hca Hz Hcz. apply K4; [congruence | done |]. unfold sc3. fields.
  by rewrite !lookup_insert_ne by congruence.
Qed.

End StorageInv.
