(* ===== verification/StorageSpec.v ===== *)
(** * StorageSpec: the file stevedore is a coalescing first-fit allocator

    The operations of the stevedore against an abstract allocator on lists of
    blocks, and the opening of the file in pieces that [mmap] accepts. *)
From stdpp Require Import sorting.
From S2P Require Import Prelude StorageFile StorageInv.

Module StorageSpec.
Import StorageFile StorageInv.

(** ** Rounding to pages *)

Lemma land_mask v k : 0 <= v < 2 ^ 32 -> 0 <= k ->
  Z.land v (Z.lnot (2 ^ k - 1) mod 2 ^ 32) = v - v mod 2 ^ k.
Proof.
  intros Hv Hk. transitivity (Z.ldiff v (Z.ones k)).
  - apply Z.bits_inj'. intros n Hn. rewrite Z.land_spec, Z.ldiff_spec.
    replace (2 ^ k - 1) with (Z.ones k) by (rewrite Z.ones_equiv; lia).
    destruct (Z.lt_ge_cases n 32).
    + rewrite Z.mod_pow2_bits_low by done. by rewrite Z.lnot_spec.
    + replace (Z.testbit v n) with false; [done |].
      rewrite <- (Z.mod_small v (2 ^ 32)) by done. by rewrite Z.mod_pow2_bits_high by lia.
  - rewrite Z.ldiff_ones_r, Z.shiftl_mul_pow2, Z.shiftr_div_pow2 by done.
    pose proof (Z.div_mod v (2 ^ k) ltac:(lia)). lia.
Qed.

Lemma round_up_spec sc k n :
  pagesize sc = 2 ^ k -> 0 <= k -> 0 < n -> n + pagesize sc <= 2 ^ 32 ->
  n <= round_up sc n < n + pagesize sc /\ round_up sc n mod pagesize sc = 0.
Proof.
  intros Hp Hk Hn Hb. unfold round_up. pose proof (Z.pow_pos_nonneg 2 k ltac:(lia) Hk).
  rewrite u64_small by lia. rewrite Hp in *. rewrite land_mask by lia.
  set (v := n + (2 ^ k - 1)). pose proof (Z.mod_pos_bound v (2 ^ k) ltac:(lia)).
  pose proof (Z.div_mod v (2 ^ k) ltac:(lia)). split; [lia |].
  replace (v - v mod 2 ^ k) with (v / 2 ^ k * 2 ^ k) by lia. apply Z.mod_mul. lia.
Qed.

(** ** The operations of the stevedore *)

(** A page size the kernel gives, and allocated nodes that describe themselves. *)
Definition stored (sc : smf_sc) : Prop :=
  forall a x, smfs sc !! a = Some x -> alloc x = true ->
    s_space x = size x /\ s_ptr x = ptr x /\ s_where x = offset x.
Definition ready (sc : smf_sc) : Prop :=
  wf sc /\ stored sc /\ exists k, 0 <= k < 32 /\ pagesize sc = 2 ^ k.

Inductive call :=
  | CAlloc (sz fresh : Z)
  | CTrim (a sz fresh : Z)
  | CFree (a : Z).

Definition exec (sc : smf_sc) (c : call) : option (smf_sc * option Z) :=
  match c with
  | CAlloc sz fresh => smf_alloc sc sz fresh
  | CTrim a sz fresh => let? sc := smf_trim sc a sz fresh in Some (sc, Some a)
  | CFree a => let? sc := smf_free sc a in Some (sc, None)
  end.

(** What a client of the stevedore has to respect. *)
Definition permitted (sc : smf_sc) (c : call) : Prop :=
  match c with
  | CAlloc sz fresh => 0 < sz /\ sz + pagesize sc <= 2 ^ 32 /\ smfs sc !! fresh = None
  | CTrim a sz fresh => a ∈ used sc /\ 0 < sz /\ sz + pagesize sc <= 2 ^ 32 /\
      (forall x, smfs sc !! a = Some x -> sz <= s_space x) /\ smfs sc !! fresh = None
  | CFree a => a ∈ used sc
  end.

(** The abstract allocator, on lists of blocks. *)
Inductive astep (page : Z) : list blk -> list blk -> Prop :=
  | a_none l : astep page l l
  | a_alloc l x r n :
      b_alloc x = false -> 0 < n <= b_size x -> n mod page = 0 ->
      astep page (l ++ x :: r) (l ++ cut x n ++ r)
  | a_trim l x r n :
      b_alloc x = true -> 0 < n < b_size x -> n mod page = 0 ->
      astep page (l ++ x :: r)
        (release (l ++ [Blk true n (b_off x) (b_ptr x)])
                 (Blk true (b_size x - n) (b_off x + n) (b_ptr x + n)) r)
  | a_free l x r : b_alloc x = true -> astep page (l ++ x :: r) (release l x r).

Lemma stored_put sc a x n :
  wf sc -> smfs sc !! a = Some x -> alloc x = true ->
  (forall c y, c <> a -> smfs sc !! c = Some y -> alloc y = true ->
     s_space y = size y /\ s_ptr y = ptr y /\ s_where y = offset y) ->
  let sc' := put sc a (set_storage x (size x) (ptr x) n (offset x)) in
  wf sc' /\ stored sc' /\ view sc' = view sc.
Proof.
  intros [H Hc] Hx Ha Hs sc'.
  assert (Ev : view sc' = view sc).
  { apply blks_ext. intros c _. unfold sc'. fields. destruct (decide (c = a)) as [-> |].
    - by rewrite lookup_insert_eq, Hx.
    - by rewrite lookup_insert_ne. }
  split; [split; [| by rewrite Ev] | split; [| exact Ev]].
  - assert (Hf : flist x = None) by (rewrite (b_flist _ _ H _ _ Hx), Ha; done).
    destruct (b_sizes _ _ H _ _ Hx) as [Sx Mx].
    apply (base_put [] [] sc a _ (order sc) (used sc)); try done.
    + intros y Hy. congruence.
    + cbn. congruence.
    + exact (b_nodup _ _ H).
    + intros c. rewrite (b_order _ _ H). split; [by right | intros [-> | ?]; eauto].
    + apply (b_used _ _ H).
    + intros c. rewrite (proj2 (b_used _ _ H)). destruct (decide (c = a)) as [-> |]; [| naive_solver].
      split; [intros _; right; by split | intros _; eauto].
    + change (tile (view sc')). rewrite Ev. apply (b_tile _ _ H).
  - intros c y. unfold sc'. fields. destruct (decide (c = a)) as [-> |].
    + rewrite lookup_insert_eq. intros [= <-] _. done.
    + rewrite lookup_insert_ne by done. by apply Hs.
Qed.

Lemma used_alloc pend sc a : base pend sc -> a ∈ used sc -> exists x, smfs sc !! a = Some x /\ alloc x = true.
Proof. intros H. apply (proj2 (b_used _ _ H)). Qed.

(** Allocated nodes of the new state are the old ones or the named one. *)
Lemma stored_others sc sc' a :
  stored sc -> base [] sc -> base [] sc' -> keeps sc sc' (fun c => c <> a) ->
  (forall c, c ∈ used sc' -> c = a \/ c ∈ used sc) ->
  forall c y, c <> a -> smfs sc' !! c = Some y -> alloc y = true ->
    s_space y = size y /\ s_ptr y = ptr y /\ s_where y = offset y.
Proof.
  intros Hs H H' K Hu c y Hc Hy Ha.
  destruct (Hu c) as [? | Hcu]; [apply (proj2 (b_used _ _ H')); eauto | done |].
  destruct (used_alloc _ _ _ H Hcu) as (z & Hz & Haz). pose proof (K c z Hc Haz Hz) as E.
  assert (y = z) as -> by congruence. exact (Hs _ _ Hz Haz).
Qed.

Lemma smf_alloc_ok sc sz fresh :
  ready sc -> permitted sc (CAlloc sz fresh) ->
  exists sc' r, smf_alloc sc sz fresh = Some (sc', r) /\ ready sc' /\ pagesize sc' = pagesize sc /\
    match r with
    | None => sc' = sc /\ Forall (fun x => b_alloc x = false -> b_size x < round_up sc sz) (view sc)
    | Some a =>
        exists l x r y, view sc = l ++ x :: r /\ b_alloc x = false /\ round_up sc sz <= b_size x /\
          view sc' = l ++ cut x (round_up sc sz) ++ r /\ used sc' = used sc ++ [a] /\ a ∉ used sc /\
          smfs sc' !! a = Some y /\ alloc y = true /\ s_space y = round_up sc sz /\ s_ptr y = b_ptr x /\
          s_len y = 0 /\ s_where y = b_off x /\ keeps sc sc' (fun _ => True)
    end.
Proof.
  intros (W & Hs & k & Hk & Ep) (Hsz & Hb & Hfr).
  destruct (round_up_spec sc k sz Ep ltac:(lia) Hsz Hb) as [R1 R2].
  set (n := round_up sc sz) in *. unfold smf_alloc. rewrite (proj2 (Z.ltb_lt _ _) Hsz). fold n.
  destruct (alloc_smf_ok sc n fresh W ltac:(lia) R2 Hfr) as (s1 & r & -> & W1 & Ep1 & Hr).
  destruct r as [a |].
  - destruct Hr as (l & x & r & Ev & Ha & Hle & Ev1 & Eu & Hau & Eb & K).
    destruct (smfs s1 !! a) as [y |] eqn:Ey; [| done]. injection Eb as Ea Esz Eof Ept.
    rewrite Esz, Z.eqb_refl.
    assert (K' : keeps s1 s1 (fun c => c <> a)) by by intros ?.
    destruct (stored_put s1 a y 0 W1 Ey Ea) as (W2 & S2 & Ev2).
    { apply (stored_others sc); [done | apply W | apply W1 | |].
      - intros c z _ Hz Hc. by apply K.
      - intros c. rewrite Eu. intros [? | ->%list_elem_of_singleton]%elem_of_app; auto. }
    rewrite Esz in *. eexists _, (Some a). split; [reflexivity |].
    split; [split; [done |]; split; [done |]; exists k; by rewrite <- Ep, <- Ep1 |].
    split; [exact Ep1 |].
    exists l, x, r. eexists. split; [exact Ev |]. split; [exact Ha |]. split; [exact Hle |].
    split; [by rewrite Ev2 |]. split; [exact Eu |]. split; [exact Hau |].
    fields. split; [by rewrite lookup_insert_eq |]. split; [exact Ea |]. split; [done |]. split; [exact Ept |].
    split; [done |]. split; [exact Eof |]. intros c z _ Hz Hc. fields.
    rewrite lookup_insert_ne; [by apply K |]. intros ->. apply Hau, (proj2 (b_used _ _ (proj1 W))). eauto.
  - destruct Hr as [-> Hr]. eexists _, None. split; [reflexivity |]. split; [by split; [| split; [| exists k]] |]. by split.
Qed.

Lemma smf_trim_ok sc a sz fresh :
  ready sc -> permitted sc (CTrim a sz fresh) ->
  exists sc' x, smf_trim sc a sz fresh = Some sc' /\ ready sc' /\ pagesize sc' = pagesize sc /\
    smfs sc !! a = Some x /\ alloc x = true /\ used sc' = used sc /\ keeps sc sc' (fun c => c <> a) /\
    (round_up sc sz = size x /\ sc' = sc \/
     round_up sc sz < size x /\ exists l r, view sc = l ++ blk_of x :: r /\
       view sc' = release (l ++ [Blk true (round_up sc sz) (offset x) (ptr x)])
         (Blk true (size x - round_up sc sz) (offset x + round_up sc sz) (ptr x + round_up sc sz)) r /\
       exists y, smfs sc' !! a = Some y /\ alloc y = true /\ s_space y = round_up sc sz /\
         s_ptr y = ptr x /\ s_len y = s_len x).
Proof.
  intros (W & Hs & k & Hk & Ep) (Hu & Hsz & Hb & Hsp & Hfr).
  destruct (used_alloc _ _ _ (proj1 W) Hu) as (x & Hx & Ha).
  destruct (Hs _ _ Hx Ha) as (E1 & E2 & E3). specialize (Hsp _ Hx).
  destruct (round_up_spec sc k sz Ep ltac:(lia) Hsz Hb) as [R1 R2].
  destruct (b_sizes _ _ (proj1 W) _ _ Hx) as [Sx Mx].
  assert (Hle : round_up sc sz <= size x).
  { pose proof (b_page _ _ (proj1 W)) as Hp.
    pose proof (Z_div_exact_full_2 (size x) (pagesize sc) ltac:(lia) Mx).
    pose proof (Z_div_exact_full_2 (round_up sc sz) (pagesize sc) ltac:(lia) R2).
    assert (round_up sc sz / pagesize sc < size x / pagesize sc + 1) by nia. nia. }
  unfold smf_trim. rewrite Hx, (proj2 (Z.ltb_lt _ _) Hsz), (proj2 (Z.leb_le _ _) Hsp),
    (proj2 (Z.leb_le sz (size x)) ltac:(lia)).
  set (n := round_up sc sz) in *. destruct (Z.ltb_spec n (size x)) as [Hlt | Hge].
  - destruct (trim_smf_ok sc a x n fresh W Hx Ha ltac:(lia) R2 Hfr)
      as (s1 & l & r & -> & W1 & Ep1 & Ev & Ev1 & Eu & Ea & K).
    rewrite Ea. set (x1 := set_range x n (offset x) (ptr x)) in *.
    change (size x1) with n. rewrite Z.eqb_refl.
    destruct (stored_put s1 a x1 (s_len x) W1 Ea Ha) as (W2 & S2 & Ev2).
    { apply (stored_others sc); [done | apply W | apply W1 | done |]. intros c. rewrite Eu. auto. }
    eexists _, x. split; [reflexivity |].
    change (s_ptr x1) with (s_ptr x). change (s_len x1) with (s_len x). change (s_where x1) with (s_where x).
    rewrite E2, E3. split; [split; [exact W2 |]; split; [exact S2 |]; exists k; split; [done |]; fields; congruence |].
    split; [done |]. split; [done |]. split; [done |]. split; [done |].
    split; [intros c z Hc Hz Hcz; fields; rewrite lookup_insert_ne by done; by apply K |].
    right. split; [done |]. exists l, r. split; [exact Ev |]. split; [rewrite <- Ev1; exact Ev2 |].
    eexists. fields. rewrite lookup_insert_eq. split; [done |]. done.
  - exists sc, x. split; [done |]. split; [by split; [| split; [| exists k]] |]. do 4 (split; [done |]).
    split; [by intros ? |]. left. split; [lia | done].
Qed.

Lemma smf_free_ok sc a :
  ready sc -> a ∈ used sc ->
  exists sc' x l r, smf_free sc a = Some sc' /\ ready sc' /\ pagesize sc' = pagesize sc /\
    smfs sc !! a = Some x /\ alloc x = true /\ view sc = l ++ blk_of x :: r /\
    view sc' = release l (blk_of x) r /\ used sc' = unlink a (used sc) /\ keeps sc sc' (fun c => c <> a).
Proof.
  intros ((H & Hc) & Hs & k & Hk & Ep) Hu.
  destruct (used_alloc _ _ _ H Hu) as (x & Hx & Ha).
  destruct (order_split _ _ _ _ H Hx) as (li & ri & Eo & Nl & Nr & Ev).
  destruct (free_smf_ok sc a x li ri H Hc Hx Ha Eo) as (s1 & E1 & W1 & Ep1 & Ev1 & Eu1 & K).
  exists s1, x, (blks (smfs sc) li), (blks (smfs sc) ri). split; [exact E1 |].
  split; [| by repeat (split; [done |])]. split; [done |]. split; [| exists k; split; [done | congruence]].
  intros c y Hy Hay.
  assert (Hcu : c ∈ used s1) by (apply (proj2 (b_used _ _ (proj1 W1))); eauto).
  assert (Hca : c <> a).
  { intros ->. rewrite Eu1, elem_unlink in Hcu. naive_solver. }
  apply (stored_others sc s1 a Hs H (proj1 W1) K) with (c := c); [| done..].
  intros d. rewrite Eu1, elem_unlink. naive_solver.
Qed.

(** ** The stevedore refines the abstract allocator *)

Lemma exec_ok sc c : ready sc -> permitted sc c ->
  exists sc' r, exec sc c = Some (sc', r) /\ ready sc' /\ pagesize sc' = pagesize sc /\
    astep (pagesize sc) (view sc) (view sc').
Proof.
  intros R P. pose proof R as (W & _ & k & Hk & Ep). destruct c as [sz f | a sz f | a].
  - destruct (smf_alloc_ok sc sz f R P) as (sc' & r & E & R' & Ep' & Hr). exists sc', r.
    destruct P as (P1 & P2 & _). destruct (round_up_spec sc k sz Ep ltac:(lia) P1 P2) as [B1 B2].
    split; [exact E |]. split; [exact R' |]. split; [exact Ep' |]. destruct r as [a |].
    + destruct Hr as (l & x & r & y & Ev & Ha & Hle & Ev' & Hrest).
      rewrite Ev, Ev'. constructor; [done | lia | done].
    + destruct Hr as [-> _]. constructor.
  - destruct (smf_trim_ok sc a sz f R P) as (sc' & x & E & R' & Ep' & Hx & Ha & _ & _ & Hr).
    exists sc', (Some a). cbn [exec]. rewrite E. split; [done |]. split; [done |]. split; [done |].
    destruct P as (_ & P1 & P2 & _). destruct (round_up_spec sc k sz Ep ltac:(lia) P1 P2) as [B1 B2].
    destruct Hr as [[_ ->] | (Hlt & l & r & Ev & Ev' & _)]; [constructor |].
    rewrite Ev, Ev'.
    apply (a_trim _ l (blk_of x) r); [done | cbn; lia | done].
  - destruct (smf_free_ok sc a R P) as (sc' & x & l & r & E & R' & Ep' & Hx & Ha & Ev & Ev' & _).
    exists sc', None. cbn [exec]. rewrite E. split; [done |]. split; [done |]. split; [done |].
    rewrite Ev, Ev'. by constructor.
Qed.

(** ** Opening the file *)

Lemma order_walk_spec m a p l :
  (forall c, c ∈ l -> is_Some (m !! c)) ->
  exists li ri, order_walk m a p l = Some (li ++ a :: ri) /\ l = li ++ ri /\
    (forall c y, c ∈ li -> m !! c = Some y -> ptr y <= p) /\
    match ri with [] => True | c :: _ => exists y, m !! c = Some y /\ p < ptr y end.
Proof.
  induction l as [| c l IH]; intros H; cbn [order_walk].
  { exists [], []. split; [done |]. split; [done |]. split; [| done]. intros c y Hc. by apply elem_of_nil in Hc. }
  destruct (H c) as [y Hy]; [set_solver |]. rewrite Hy. destruct (Z.ltb_spec p (ptr y)).
  - exists [], (c :: l). split; [done |]. split; [done |]. split; [| by exists y].
    intros d z Hd. by apply elem_of_nil in Hd.
  - destruct IH as (li & ri & -> & -> & Hl & Hr); [set_solver |].
    exists (c :: li), ri. split; [done |]. split; [done |]. split; [| done].
    intros d z Hd Hz. apply elem_of_cons in Hd as [-> | Hd]; [congruence | eauto].
Qed.

Lemma elem_blks m l x : x ∈ blks m l <-> exists a y, a ∈ l /\ m !! a = Some y /\ blk_of y = x.
Proof.
  unfold blks. rewrite list_elem_of_omap. split.
  - intros (a & Ha & E). apply fmap_Some in E as (y & Hy & ->). eauto.
  - intros (a & y & Ha & Hy & <-). exists a. split; [done |]. by rewrite Hy.
Qed.

(** An allocated block fits anywhere. *)
Lemma coal_insert l x r : b_alloc x = true -> coalesced (l ++ r) -> coalesced (l ++ x :: r).
Proof.
  intros Hx H. assert (coalesced l /\ coalesced r) as [Hl Hr].
  { destruct r as [| y r]; [by rewrite app_nil_r in H |]. apply coal_app in H. tauto. }
  apply coal_app. split; [done |]. split.
  - unfold apart_last, apart, meet. destruct (last l); [| done]. by rewrite Hx.
  - apply coal_cons. split; [| done]. destruct r; [done |]. unfold apart_head, apart. congruence.
Qed.

(** No byte of the range is in a block. *)
Definition clear (p n : Z) (l : list blk) : Prop :=
  forall y, y ∈ l -> p + n <= b_ptr y \/ b_ptr y + b_size y <= p.

Lemma new_smf_ok sc p off len fresh :
  wf sc -> 0 < len -> len mod pagesize sc = 0 -> smfs sc !! fresh = None -> clear p len (view sc) ->
  exists sc' l r, new_smf sc p off len fresh = Some sc' /\ wf sc' /\ pagesize sc' = pagesize sc /\
    view sc = l ++ r /\ view sc' = release l (Blk true len off p) r /\ used sc' = used sc.
Proof.
  intros [H Hc] Hlen Hm Hfr Hcl. unfold new_smf. rewrite (proj2 (Z.eqb_eq _ _) Hm).
  set (x := Smf true len off p None 0 0 0 0).
  assert (Hof : fresh ∉ order sc) by (rewrite (b_order _ _ H), Hfr; by intros []).
  assert (Hou : fresh ∉ used sc) by (rewrite (proj2 (b_used _ _ H)), Hfr; by intros (? & [=] & _)).
  destruct (order_walk_spec (smfs (put sc fresh x)) fresh p (order (put sc fresh x)))
    as (li & ri & -> & Eo & Hl & Hr).
  { intros c Hco. fields. rewrite lookup_insert_ne by (intros ->; done). by apply (b_order _ _ H). }
  fields. assert (fresh ∉ li /\ fresh ∉ ri) as [Nl Nr] by (rewrite Eo in Hof; set_solver).
  assert (Ev : view sc = blks (smfs sc) li ++ blks (smfs sc) ri) by (unfold view; by rewrite Eo, blks_app).
  pose proof (b_tile _ _ H) as T. rewrite Ev in T. apply StronglySorted_app in T as (T1 & T2 & T3).
  set (s1 := Sc (pagesize sc) (<[fresh := x]> (smfs sc)) (li ++ fresh :: ri) (free sc) (fresh :: used sc)).
  assert (Ev1 : view s1 = blks (smfs sc) li ++ Blk true len off p :: blks (smfs sc) ri) by (by apply blks_put).
  assert (Hsz : forall y, y ∈ view sc -> 0 < b_size y).
  { intros y (a & z & _ & Hz & <-)%elem_blks. apply (b_sizes _ _ H _ _ Hz). }
  assert (Hbl : forall y, y ∈ blks (smfs sc) li -> b_ptr y + b_size y <= p).
  { intros y Hy. destruct (Hcl y) as [Hb |]; [rewrite Ev; set_solver | | done].
    apply elem_blks in Hy as (a & z & Ha & Hz & <-). 
    assert (ptr z <= p) by (apply (Hl a); [done |]; rewrite lookup_insert_ne by congruence; done).
    cbn in *. lia. }
  assert (Hbr : forall y, y ∈ blks (smfs sc) ri -> p + len <= b_ptr y).
  { destruct ri as [| c ri]; [intros y Hy; by apply elem_of_nil in Hy |].
    destruct Hr as (z & Hz & Hp). rewrite lookup_insert_ne in Hz by set_solver.
    rewrite (blks_cons _ _ z) in * by done.
    assert (Hhd : p + len <= b_ptr (blk_of z)).
    { destruct (Hcl (blk_of z)) as [| Hb]; [rewrite Ev; set_solver | done |].
      specialize (Hsz (blk_of z) ltac:(rewrite Ev; set_solver)). cbn in *. lia. }
    intros y Hy. apply elem_of_cons in Hy as [-> | Hy]; [done |].
    apply StronglySorted_cons in T3 as [T3 _]. pose proof (proj1 (Forall_forall _ _) T3 y Hy) as B.
    unfold before in B. specialize (Hsz (blk_of z) ltac:(rewrite Ev; set_solver)). lia. }
  assert (H1 : base [] s1).
  { apply (base_put [] [] sc fresh x (li ++ fresh :: ri) (fresh :: used sc)); try done.
    - intros y. congruence.
    - pose proof (b_nodup _ _ H) as N. rewrite Eo in N. apply NoDup_app in N as (N1 & N2 & N3).
      apply NoDup_app. split; [done |]. split; [| by constructor].
      intros c Hcl'. specialize (N2 c Hcl'). set_solver.
    - intros c. rewrite Eo. set_solver.
    - constructor; [done |]. apply (b_used _ _ H).
    - intros c. rewrite elem_of_cons. cbn. split; [| naive_solver].
      intros [-> | ?]; [by right |]. left. split; [congruence | done].
    - change (tile (view s1)). rewrite Ev1. apply StronglySorted_app. split; [| split; [done |]].
      + intros u v Hu Hv. apply elem_of_cons in Hv as [-> | Hv]; [apply Hbl, Hu | by apply T1].
      + apply StronglySorted_cons. split; [| done]. apply Forall_forall. exact Hbr. }
  assert (Hc1 : coalesced (view s1)).
  { rewrite Ev1. rewrite Ev in Hc. by apply coal_insert. }
  assert (Hx1 : smfs s1 !! fresh = Some x) by apply lookup_insert_eq.
  destruct (free_smf_ok s1 fresh x li ri H1 Hc1 Hx1 eq_refl eq_refl) as (s2 & E2 & W2 & Ep2 & Ev2 & Eu2 & _).
  exists s2, (blks (smfs sc) li), (blks (smfs sc) ri). split; [exact E2 |]. split; [exact W2 |].
  split; [exact Ep2 |]. split; [exact Ev |]. split.
  - rewrite Ev2. change (smfs s1) with (<[fresh := x]> (smfs sc)). by rewrite !blks_insert_out.
  - rewrite Eu2. apply (unlink_mid fresh [] (used sc)); [apply not_elem_of_nil | done].
Qed.

(** The byte at address [a] of a block is the byte [o] of the file. *)
Definition at_byte (y : blk) (a o : Z) : Prop :=
  b_ptr y <= a < b_ptr y + b_size y /\ o - b_off y = a - b_ptr y.

Lemma at_grow x y a o :
  at_byte (grow x (b_size y)) a o ->
  b_ptr y = b_ptr x + b_size x -> b_off y = b_off x + b_size x -> at_byte x a o \/ at_byte y a o.
Proof. unfold at_byte, grow. cbn. intros. lia. Qed.

Lemma release_bytes l x r y a o :
  y ∈ release l x r -> at_byte y a o -> exists z, (z = x \/ z ∈ l \/ z ∈ r) /\ at_byte z a o.
Proof.
  unfold release. set (x0 := Blk false (b_size x) (b_off x) (b_ptr x)). intros Hy Hb.
  assert (Hab : forall y, (y = (absorb x0 r).1 \/ y ∈ (absorb x0 r).2) -> at_byte y a o ->
    exists z, (z = x \/ z ∈ r) /\ at_byte z a o).
  { unfold absorb. intros v. destruct r as [| w r']; [| destruct (meet x0 w) eqn:E]; cbn [fst snd].
    - intros [-> | Hv] Hat; [exists x; by auto | by apply elem_of_nil in Hv].
    - intros [-> | Hv] Hat; [| exists v; split; [set_solver | done]]. unfold meet in E. bool_prop.
      destruct (at_grow x0 w a o Hat ltac:(lia) ltac:(lia)) as [Hx | Hx].
      + exists x. by auto.
      + exists w. split; [set_solver | done].
    - intros [-> | Hv] Hat; [exists x; by auto | exists v; by auto]. }
  destruct (absorb x0 r) as [x' r']. cbn [fst snd] in Hab.
  assert (Hin : y ∈ l \/ y = x' \/ y ∈ r' \/
    exists u, last l = Some u /\ meet_back u x' = true /\ (y = grow u (b_size x') \/ y ∈ removelast l)).
  { destruct (last l) as [u |]; [destruct (meet_back u x') eqn:E |]; set_solver. }
  destruct Hin as [Hin | [Hin | [Hin | (u & Hu & E & Hin)]]].
  - exists y. by auto.
  - destruct (Hab y) as (z & Hz & ?); [by left | done |]. exists z. split; [tauto | done].
  - destruct (Hab y) as (z & Hz & ?); [by right | done |]. exists z. split; [tauto | done].
  - apply last_Some in Hu as [l' ->]. rewrite removelast_last in Hin.
    destruct Hin as [-> | Hin]; [| exists y; split; [set_solver | done]].
    unfold meet_back in E. bool_prop. destruct (at_grow u x' a o Hb ltac:(lia) ltac:(lia)) as [Hx | Hx].
    + exists u. split; [set_solver | done].
    + destruct (Hab x') as (z & Hz & ?); [by left | done |]. exists z. split; [tauto | done].
Qed.

Section Opening.
Context (mmap : Z -> Z -> option Z) (malloc : gmap Z smf -> Z).

(** The kernel does not map two ranges of the file to the same address, and
    [malloc] returns unused memory. *)
Definition mmap_law : Prop := forall sz off p sz' off' p',
  mmap sz off = Some p -> mmap sz' off' = Some p' -> 0 < sz -> 0 < sz' ->
  off + sz <= off' -> p + sz <= p' \/ p' + sz' <= p.
Definition malloc_law : Prop := forall m, m !! malloc m = None.

(** Every byte of every block is mapped from its place in the file below [hi]. *)
Definition backed (hi : Z) (l : list blk) : Prop :=
  forall y a o, y ∈ l -> at_byte y a o ->
    exists sz off p, mmap sz off = Some p /\ off + sz <= hi /\ p <= a < p + sz /\ o = off + (a - p).

Lemma backed_mono lo hi l : lo <= hi -> backed lo l -> backed hi l.
Proof. intros H B y a o Hy Ha. destruct (B y a o Hy Ha) as (sz & off & p & ? & ? & ?). exists sz, off, p. naive_solver lia. Qed.

Lemma backed_clear lo sz off p l :
  mmap_law -> backed lo l -> mmap sz off = Some p -> 0 < sz -> lo <= off ->
  (forall y, y ∈ l -> 0 < b_size y) -> clear p sz l.
Proof.
  intros Hm B E Hs Ho Hl y Hy. specialize (Hl y Hy).
  destruct (Z.le_gt_cases (p + sz) (b_ptr y)) as [| H1]; [by left |].
  destruct (Z.le_gt_cases (b_ptr y + b_size y) p) as [| H2]; [by right |]. exfalso.
  set (a := Z.max p (b_ptr y)).
  destruct (B y a (b_off y + (a - b_ptr y)) Hy) as (sz' & off' & p' & E' & Hhi & Ha & _).
  { unfold at_byte. lia. }
  destruct (Hm sz' off' p' sz off p E' E ltac:(lia) Hs ltac:(lia)); lia.
Qed.

Lemma halve sz page :
  0 < page -> 2 * page <= sz -> sz mod page = 0 ->
  let h := Z.quot sz 2 - Z.rem (Z.quot sz 2) page in
  page <= h /\ h mod page = 0 /\ 2 * h <= sz < 2 * h + 2 * page.
Proof.
  intros Hp Hs Hm h. unfold h. rewrite Z.quot_div_nonneg by lia.
  rewrite Z.rem_mod_nonneg by (try apply Z.div_pos; lia).
  pose proof (Z.div_mod (sz / 2) page ltac:(lia)) as E.
  pose proof (Z.div_mod sz 2 ltac:(lia)). pose proof (Z.mod_pos_bound sz 2 ltac:(lia)). pose proof (Z.mod_pos_bound (sz / 2) page Hp).
  assert (page <= sz / 2) by (apply Z.div_le_lower_bound; lia).
  assert (1 <= sz / 2 / page) by (apply Z.div_le_lower_bound; lia).
  replace (sz / 2 - sz / 2 mod page) with (sz / 2 / page * page) by lia.
  split; [nia |]. split; [apply Z.mod_mul; lia | lia].
Qed.

Lemma chunk_ok (Hmm : mmap_law) (Hma : malloc_law) : forall fuel sc sz off fail sum,
  wf sc -> backed off (view sc) -> 0 < sz < SSIZE_MAX -> sz mod pagesize sc = 0 ->
  (2 * pagesize sc <= sz \/ fail < pagesize sc * MINPAGES) -> sz <= Z.of_nat fuel * pagesize sc ->
  exists sc' fail' sum', smf_open_chunk mmap malloc fuel sc sz off fail sum = Some (sc', fail', sum') /\
    wf sc' /\ pagesize sc' = pagesize sc /\ used sc' = used sc /\ backed (off + sz) (view sc') /\
    fail' <= fail /\ sum <= sum' <= sum + sz /\ total (view sc') = total (view sc) + (sum' - sum).
Proof.
  induction fuel as [| fuel IH]; intros sc sz off fail sum W B Hsz Hm Hbig Hf; [lia |].
  cbn [smf_open_chunk]. pose proof (b_page _ _ (proj1 W)) as Hp.
  rewrite (proj2 (Z.eqb_neq sz 0)) by lia. rewrite (proj2 (Z.eqb_eq _ _) Hm). cbn [negb].
  destruct (Z.ltb_spec fail (pagesize sc * MINPAGES)) as [Hlt | Hge].
  { exists sc, fail, sum. split; [done |]. do 3 (split; [done |]).
    split; [apply (backed_mono off); [lia | done] |]. lia. }
  destruct Hbig as [Hbig |]; [| lia].
  destruct (if (0 <? sz) && (sz <? fail) && (sz <? SSIZE_MAX) then mmap sz off else None) as [p |] eqn:Emap.
  - destruct ((0 <? sz) && (sz <? fail) && (sz <? SSIZE_MAX)); [| done].
    destruct (new_smf_ok sc p off sz (malloc (smfs sc)) W ltac:(lia) Hm (Hma _))
      as (s1 & l & r & -> & W1 & Ep1 & Ev & Ev1 & Eu1).
    { apply (backed_clear off _ off); [done | done | done | lia | lia |].
      intros y (a & z & _ & Hz & <-)%elem_blks. apply (b_sizes _ _ (proj1 W) _ _ Hz). }
    exists s1, fail, (sum + sz). split; [done |]. split; [done |]. split; [done |]. split; [done |].
    split; [| split; [lia |]; split; [lia |]; rewrite Ev1, Ev, total_release, total_app; cbn [b_size]; lia].
    rewrite Ev1. intros y a o Hy Ha. destruct (release_bytes _ _ _ _ _ _ Hy Ha) as (z & Hz & Hat).
    destruct Hz as [-> | Hz].
    + exists sz, off, p. unfold at_byte in Hat. cbn in Hat. split; [done |]. lia.
    + apply (backed_mono off (off + sz) (view sc) ltac:(lia) B z); [rewrite Ev; set_solver | done].
  - set (f := if sz <? fail then sz else fail). assert (Hfl : f <= fail /\ f <= sz).
    { unfold f. destruct (Z.ltb_spec sz fail); lia. }
    clearbody f.
    destruct (halve sz (pagesize sc) Hp Hbig Hm) as (Hh & Hhm & Hhle).
    rewrite (proj2 (Z.ltb_ge SSIZE_MAX (Z.quot sz 2))) by (rewrite Z.quot_div_nonneg by lia; apply Z.div_le_upper_bound; lia).
    set (h := Z.quot sz 2 - Z.rem (Z.quot sz 2) (pagesize sc)) in *. clearbody h.
    assert (Hb : 2 * pagesize sc <= h \/ f < pagesize sc * MINPAGES) by (unfold MINPAGES in *; lia).
    destruct (IH sc h off f sum W B ltac:(lia) Hhm Hb ltac:(lia))
      as (s1 & f1 & n1 & -> & W1 & Ep1 & Eu1 & B1 & Hf1 & Hn1 & T1).
    destruct (IH s1 (sz - h) (off + h) f1 n1 W1 B1 ltac:(lia))
      as (s2 & f2 & n2 & -> & W2 & Ep2 & Eu2 & B2 & Hf2 & Hn2 & T2).
    { rewrite Ep1. by apply mod_sub. }
    { rewrite Ep1. lia. }
    { rewrite Ep1. lia. }
    exists s2, f2, n2. split; [done |]. split; [done |]. split; [congruence |]. split; [congruence |].
    split; [replace (off + sz) with (off + h + (sz - h)) by lia; done |]. lia.
Qed.
End Opening.

(** ** The claims *)

Fixpoint exec_all (sc : smf_sc) (cs : list call) : option smf_sc :=
  match cs with
  | [] => Some sc
  | c :: cs => let? (sc, _) := exec sc c in exec_all sc cs
  end.
Fixpoint permitted_all (sc : smf_sc) (cs : list call) : Prop :=
  match cs with
  | [] => True
  | c :: cs => permitted sc c /\
      match exec sc c with Some (sc', _) => permitted_all sc' cs | None => True end
  end.

Lemma astep_total page l l' : astep page l l' -> total l' = total l.
Proof.
  intros []; rewrite ?total_release, ?total_app, ?total_cons, ?total_app, ?total_cut; [done | | |];
    cbn [total foldr b_size]; lia.
Qed.

Lemma wf_init page : 0 < page -> wf (smf_init page).
Proof.
  intros Hp. split; [| done]. constructor; cbn; try done.
  - apply NoDup_nil_2.
  - intros a. rewrite lookup_empty. split; [by intros ?%elem_of_nil | by intros []].
  - split; [apply NoDup_nil_2 |]. intros a. split; [by intros ?%elem_of_nil | by intros (? & ? & _)].
  - intros b l Hl. change (repeat [] NBUCKET !! b = Some l) in Hl.
    apply list_elem_of_lookup_2 in Hl. apply list_elem_of_In, repeat_spec in Hl as ->. split; [apply NoDup_nil_2 |].
    intros a. split; [by intros ?%elem_of_nil | by intros (? & ? & _)].
  - constructor.
Qed.
Lemma ready_unused sc k : wf sc -> used sc = [] -> 0 <= k < 32 -> pagesize sc = 2 ^ k -> ready sc.
Proof.
  intros W Eu Hk Ep. split; [done |]. split; [| eauto]. intros a x Hx Ha.
  assert (a ∈ used sc) as Hin by (apply (proj2 (b_used _ _ (proj1 W))); eauto).
  rewrite Eu in Hin. by apply elem_of_nil in Hin.
Qed.


(** C11: An allocation of the file stevedore gives the first [size] bytes,
    rounded up to pages, of a free block that is large enough; the storage
    points at them and at their place in the file and is empty, the rest of the
    block stays free and every storage in use keeps what it has.  It fails only
    when no free block is large enough, and then changes nothing. *)
Theorem smf_alloc_first_fit sc sz fresh :
  ready sc -> permitted sc (CAlloc sz fresh) ->
  let n := round_up sc sz in
  sz <= n < sz + pagesize sc /\ n mod pagesize sc = 0 /\
  exists sc' r, smf_alloc sc sz fresh = Some (sc', r) /\ ready sc' /\
    match r with
    | None => sc' = sc /\ Forall (fun x => b_alloc x = false -> b_size x < n) (view sc)
    | Some a =>
        exists l x r y, view sc = l ++ x :: r /\ b_alloc x = false /\ n <= b_size x /\
          view sc' = l ++ cut x n ++ r /\ used sc' = used sc ++ [a] /\ a ∉ used sc /\
          smfs sc' !! a = Some y /\ s_space y = n /\ s_ptr y = b_ptr x /\
          s_len y = 0 /\ s_where y = b_off x /\ keeps sc sc' (fun _ => True)
    end.
Proof.
  intros R P n. destruct R as (W & S & k & Hk & Ep) eqn:ER.
  destruct (smf_alloc_ok sc sz fresh R P) as (sc' & r & E & R' & _ & Hr). destruct P as (P1 & P2 & _).
  destruct (round_up_spec sc k sz Ep ltac:(lia) P1 P2) as [B1 B2].
  split; [exact B1 |]. split; [exact B2 |]. exists sc', r. split; [exact E |]. split; [exact R' |].
  destruct r as [a |]; [| exact Hr].
  destruct Hr as (l & x & r & y & ? & ? & ? & ? & ? & ? & ? & _ & ?). by exists l, x, r, y.
Qed.

(** C12: Opening the file ends for every size of at least two pages, whatever
    [mmap] refuses: the pieces that could be mapped become free blocks, every
    byte of a block is the byte of the file at its offset, no part of the file
    is in two blocks, and the blocks add up to the sum that decides whether the
    stevedore starts. *)
Theorem smf_open_total mmap malloc getpagesize k filesize :
  mmap_law mmap -> malloc_law malloc -> 0 <= k < 32 ->
  2 * 2 ^ k <= filesize < SSIZE_MAX -> filesize mod 2 ^ k = 0 ->
  exists sc sum, ready sc /\ used sc = [] /\ backed mmap filesize (view sc) /\
    total (view sc) = sum /\ 0 <= sum <= filesize /\
    smf_open mmap malloc getpagesize (smf_init (2 ^ k)) filesize =
      (if MINPAGES * getpagesize <=? sum then Some (sc, sum) else None).
Proof.
  intros Hmm Hma Hk Hs Hm. pose proof (Z.pow_pos_nonneg 2 k ltac:(lia) ltac:(lia)) as Hp.
  pose proof (Z_div_exact_full_2 filesize (2 ^ k) ltac:(lia) Hm) as Hd.
  destruct (chunk_ok mmap malloc Hmm Hma (Z.to_nat (filesize / 2 ^ k) + 1) (smf_init (2 ^ k)) filesize 0
              (Z.shiftl 1 30) 0) as (sc & f & sum & E & W & Ep & Eu & B & _ & Hsum & T).
  - by apply wf_init.
  - intros y a o Hy. by apply elem_of_nil in Hy.
  - lia.
  - done.
  - left. cbn [pagesize smf_init]. lia.
  - cbn [pagesize smf_init]. rewrite Nat2Z.inj_add, Z2Nat.id by (apply Z.div_pos; lia). lia.
  - exists sc, sum. split; [by apply (ready_unused sc k) |]. split; [exact Eu |]. split; [exact B |].
    split; [rewrite T; cbn; lia |]. split; [lia |].
    unfold smf_open. cbn [pagesize smf_init] in *. rewrite E. by destruct (MINPAGES * getpagesize <=? sum).
Qed.

(** ** Concrete instances *)

(** A file of four pages that is mapped as one piece. *)
Definition file4 : smf_sc :=
  Sc 4096 {[ 1 := Smf false 16384 0 1048576 (Some 4%nat) 0 0 0 0 ]} [1]
     (<[4%nat := [1]]> (repeat [] NBUCKET)) [].
Lemma file4_ready : ready file4.
Proof.
  destruct (new_smf_ok (smf_init 4096) 1048576 0 16384 1) as (s & l & r & E & W & _).
  - apply wf_init. lia.
  - lia.
  - done.
  - done.
  - intros y Hy. by apply elem_of_nil in Hy.
  - assert (s = file4) as <- by (cut (Some s = Some file4); [by intros [= ->] | rewrite <- E; by vm_compute]).
    apply (ready_unused _ 12); [done | | lia |]; by vm_compute in E; injection E as <-.
Qed.

Definition calls4 : list call := [CAlloc 5000 2; CAlloc 100 3; CTrim 2 4000 4; CFree 3; CFree 2].

Lemma permitted_step sc c cs sc' r :
  exec sc c = Some (sc', r) -> permitted sc c -> permitted_all sc' cs -> permitted_all sc (c :: cs).
Proof. intros E P Ps. cbn [permitted_all]. by rewrite E. Qed.
#[local] Ltac permit :=
  eapply permitted_step;
  [ vm_compute; reflexivity
  | cbn [permitted]; split_and?;
    solve [ by vm_compute | apply list_elem_of_In; cbn; tauto
          | intros ? E; vm_compute in E; injection E as <-; by vm_compute ]
  |].
Lemma calls4_permitted : permitted_all file4 calls4.
Proof. unfold calls4. do 5 permit. exact I. Qed.


Lemma smf_alloc_first_fit_witness :
  exists sc' r, smf_alloc file4 5000 2 = Some (sc', r) /\ ready sc' /\ r = Some 2.
Proof.
  destruct (smf_alloc_first_fit file4 5000 2 file4_ready) as (_ & _ & sc' & r & E & R & _);
    [by vm_compute |].
  exists sc', r. split; [exact E |]. split; [exact R |]. vm_compute in E. by injection E as _ <-.
Defined.

(** A kernel that maps every piece, and nodes numbered from one. *)
Definition mmap1 (sz off : Z) : option Z := Some (off + 1048576).
Definition malloc1 (m : gmap Z smf) : Z := Z.of_nat (S (map_fold (fun k _ n => Nat.max (Z.to_nat k) n) O m)).
Lemma mmap1_law : mmap_law mmap1.
Proof. intros sz off p sz' off' p' [= <-] [= <-] ? ? ?. lia. Qed.
Lemma malloc1_law : malloc_law malloc1.
Proof.
  intros m. destruct (m !! malloc1 m) eqn:E; [| done]. exfalso.
  assert (H : forall k x, m !! k = Some x -> (Z.to_nat k <= map_fold (fun k _ n => Nat.max (Z.to_nat k) n) O m)%nat).
  { apply (map_fold_weak_ind (fun n m => forall k x, m !! k = Some x -> (Z.to_nat k <= n)%nat)).
    - intros k x Hk. by rewrite lookup_empty in Hk.
    - intros k x m' n Hk IH k' x'. destruct (decide (k' = k)) as [-> |]; [lia |].
      rewrite lookup_insert_ne by done. intros Hk'. specialize (IH _ _ Hk'). lia. }
  apply H in E. unfold malloc1 in E. lia.
Qed.

Lemma smf_open_total_witness :
  exists sc sum, ready sc /\ used sc = [] /\ total (view sc) = sum /\
    smf_open mmap1 malloc1 4096 (smf_init (2 ^ 12)) (2 ^ 20) = Some (sc, sum).
Proof.
  destruct (smf_open_total mmap1 malloc1 4096 12 (2 ^ 20) mmap1_law malloc1_law)
    as (sc & sum & R & U & _ & T & _ & E); [lia | unfold SSIZE_MAX; lia | done |].
  exists sc, sum. split; [exact R |]. split; [exact U |]. split; [exact T |].
  destruct (MINPAGES * 4096 <=? sum); [exact E |]. exfalso. by vm_compute in E.
Defined.

(** A file of one page that cannot be mapped fails an assertion. *)
Lemma one_page_fails mmap malloc :
  mmap 4096 0 = None ->
  smf_open_chunk mmap malloc 3 (smf_init 4096) 4096 0 (Z.shiftl 1 30) 0 = None.
Proof. intros E. cbn -[MINPAGES]. by rewrite E. Qed.

(** Sizes of four gigabytes and more lose their upper half. *)
Lemma large_truncated : round_up file4 (2 ^ 32 + 4096) = 4096.
Proof. reflexivity. Qed.

(** The granularity of the command line need not be a power of two, but the
    mask of the rounding only works for those. *)
Lemma granularity_mask :
  round_up (smf_init 1000) 1 = 8 /\ smf_alloc (smf_init 1000) 1 1 = None.
Proof. split; reflexivity. Qed.

End StorageSpec.
