(* ===== verification/Esi.v ===== *)
(** * Esi: the ESI parser and the delivery of what it found

    [bin/varnishd/cache_esi.c]: the body of an object, a list of storage
    segments, is cut into bits: stretches that are delivered as they are, each
    inside one segment, and includes.

    A pointer into the body is a segment and an offset in it; the segment
    behind the last stands for the empty string the program uses as the end.
    [None] is a failed assertion or an access outside of the strings.  The
    workspaces the bits are built in, and the storage they are moved to, are
    taken to be large enough; the log keeps the errors without the text they
    quote. *)
From S2P Require Import Prelude Vct.

Module Esi.
Import Vct.

Inductive esi_err :=
  | IllegalAttributeStart | IllegalAttribute | MissingQuote | SrcWithoutValue
  | Incomplete | EmptyAndClosing | RemoveNotOpened | NestedRemove | InsideRemove
  | ClosingComment | CommentNotEmpty | ClosingInclude | IncludeNotEmpty | Unimplemented
  | UnterminatedRemove | UnterminatedComment.

(** [struct esi_bit]; the length line of the chunk is computed on delivery. *)
Record esi_bit := Bit { verbatim : list Z; host : option (list Z); include : option (list Z) }.

(** [struct esi_ptr]: the pointer and the segment it is taken to be in. *)
Record esi_ptr := Ptr { pseg : nat; poff : nat; st : nat }.

(** [struct esi_work]; [eb] is the last of the bits. *)
Record esi_work := Work {
  s : esi_ptr;
  p : esi_ptr;
  esibits : list esi_bit;
  remflg : bool;
  incmt : bool;
  space : Z;
  errors : list esi_err
}.
Definition set_s (ew : esi_work) (x : esi_ptr) : esi_work :=
  Work x (p ew) (esibits ew) (remflg ew) (incmt ew) (space ew) (errors ew).
Definition set_p (ew : esi_work) (x : esi_ptr) : esi_work :=
  Work (s ew) x (esibits ew) (remflg ew) (incmt ew) (space ew) (errors ew).
Definition set_bits (ew : esi_work) (l : list esi_bit) : esi_work :=
  Work (s ew) (p ew) l (remflg ew) (incmt ew) (space ew) (errors ew).
Definition set_remflg (ew : esi_work) (b : bool) : esi_work :=
  Work (s ew) (p ew) (esibits ew) b (incmt ew) (space ew) (errors ew).
Definition set_incmt (ew : esi_work) (b : bool) : esi_work :=
  Work (s ew) (p ew) (esibits ew) (remflg ew) b (space ew) (errors ew).
Definition set_space (ew : esi_work) (n : Z) : esi_work :=
  Work (s ew) (p ew) (esibits ew) (remflg ew) (incmt ew) n (errors ew).

Definition esi_error (ew : esi_work) (e : esi_err) : esi_work :=
  Work (s ew) (p ew) (esibits ew) (remflg ew) (incmt ew) (space ew) (errors ew ++ [e]).

(** The sizes of the structures, of which only the order matters. *)
Definition sizeof_bit : Z := 88.
Definition sizeof_esidata : Z := 32.

Section Parsing.
Context (segs : list (list Z)).
(** The URL asked from the backend, and [params->esi_syntax]. *)
Context (url : list Z) (esi_syntax : Z).

Definition seg (i : nat) : list Z := default [] (segs !! i).

(** [*ep->p] *)
Definition deref (x : esi_ptr) : Z := at_ (seg (pseg x)) (poff x).
(** [ep->p < ep->e] *)
Definition inside (x : esi_ptr) : bool := (poff x <? length (seg (pseg x)))%nat.

Definition finis : esi_ptr := Ptr (length segs) 0 (length segs).

Definition Nep (x : esi_ptr) : esi_ptr :=
  if (pseg x =? length segs)%nat then x
  else if (S (poff x) <? length (seg (st x)))%nat then Ptr (pseg x) (S (poff x)) (st x)
  else if (S (st x) <? length segs)%nat then Ptr (S (st x)) 0 (S (st x))
  else finis.

Definition N (ew : esi_work) : esi_work := set_p ew (Nep (p ew)).

(** Whether [CMP] is 0; the comparison runs past the end of [str] when a NUL
    or the end of the body follows. *)
Fixpoint CMP (x : esi_ptr) (str : list Z) : option bool :=
  match str with
  | [] => if deref x =? 0 then None else Some true
  | c :: str => if c =? deref x then CMP (Nep x) str else Some false
  end.

(** ** Bits *)

(** [len] bytes at a pointer: they have to be in its segment. *)
Definition esi_addbit (ew : esi_work) (x : esi_ptr) (len : nat) : option esi_work :=
  assert! (0 <? len)%nat ;;
  assert! (poff x + len <=? length (seg (pseg x)))%nat ;;
  Some (set_bits (set_space ew (space ew + sizeof_bit))
          (esibits ew ++ [Bit (take len (drop (poff x) (seg (pseg x)))) None None])).
(** [esi_addbit(ew, NULL, 0)] *)
Definition esi_addnone (ew : esi_work) : esi_work :=
  set_bits (set_space ew (space ew + sizeof_bit)) (esibits ew ++ [Bit [] None None]).

(** The loop over the segments between [s] and [p]. *)
Fixpoint pfx_loop (fuel : nat) (ew : esi_work) : option esi_work :=
  match fuel with
  | O => None
  | S fuel =>
      if (st (s ew) =? st (p ew))%nat then Some ew
      else
        (* [ep - ew->s.p] needs both in the same segment *)
        assert! (pseg (s ew) =? st (s ew))%nat ;;
        let ep := length (seg (st (s ew))) in
        let? ew := esi_addbit ew (s ew) (ep - poff (s ew)) in
        pfx_loop fuel (set_s ew (Nep (Ptr (pseg (s ew)) ep (st (s ew)))))
  end.

Definition esi_addpfx (ew : esi_work) : option esi_work :=
  if remflg ew then Some (set_s ew (p ew))
  else
    let? ew := pfx_loop (S (length segs)) ew in
    let x := s ew in
    let? ew :=
      if (st x <? length segs)%nat && negb ((pseg (p ew) =? pseg x)%nat && (poff (p ew) =? poff x)%nat) then
        assert! (pseg x =? pseg (p ew))%nat ;;
        esi_addbit ew x (poff (p ew) - poff x)
      else Some ew in
    Some (set_s ew (Ptr (pseg (p ew)) (poff (p ew)) (st x))).

(** ** Attributes *)

Inductive attr :=
  | ANone                                             (* 0 *)
  | AError (e : esi_err)                              (* -1 *)
  | AFail                                             (* AN( *in->b) *)
  | AVal (rest attrib val : list Z).                  (* 1 *)

(** The characters up to the first that [stop]s. *)
Fixpoint until (stop : Z -> bool) (l : list Z) : list Z * list Z :=
  match l with
  | [] => ([], [])
  | c :: l' => if stop c then ([], l) else let '(a, r) := until stop l' in (c :: a, r)
  end.

(** [l] is the rest of the tag; the bytes behind it are its end, [/] or [>]. *)
Definition esi_attrib (l : list Z) : attr :=
  if bool_decide (head l = Some 0) then AFail
  else
  let '(_, l) := until (fun c => negb (isspace c)) l in
  match l with
  | [] => ANone
  | c :: _ =>
      if negb (vct_isxmlnamestart (schar c)) then AError IllegalAttributeStart
      else
        let '(name, l) := until (fun c => (c =? 61) || isspace c || negb (vct_isxmlname (schar c))) l in
        match l with
        | [] => AVal [] name []
        | c :: l' =>
            if isspace c then AVal l name []
            else if negb (c =? 61) then AError IllegalAttribute
            else match l' with
            | [] => AVal [] name []
            | c :: l'' =>
                if isspace c then AVal l'' name []
                else if c =? 34 then
                  let '(val, l) := until (fun c => c =? 34) l'' in
                  match l with
                  | [] => AError MissingQuote
                  | _ :: l => AVal l name val
                  end
                else
                  let '(val, l) := until isspace l' in AVal (tail l) name val
            end
        end
  end.

(** ** Includes *)

Definition entities : list (list Z * Z) :=
  [(bs "&apos;", 39); (bs "&quot;", 34); (bs "&lt;", 60); (bs "&gt;", 62); (bs "&amp;", 38)].
Definition entity (l : list Z) : option (nat * Z) :=
  match filter (fun x => bool_decide (take (length x.1) l = x.1)) entities with
  | x :: _ => Some (length x.1, x.2)
  | [] => None
  end.
Fixpoint XMLentity_loop (fuel : nat) (l : list Z) : list Z :=
  match fuel, l with
  | S fuel, c :: l' => match entity l with
                       | Some (n, r) => r :: XMLentity_loop fuel (drop n l)
                       | None => c :: XMLentity_loop fuel l'
                       end
  | _, _ => []
  end.
Definition XMLentity (l : list Z) : list Z := XMLentity_loop (length l) l.

(** The URL up to its last slash before a query. *)
Fixpoint last_slash (i : nat) (l : list Z) (q : option nat) : option nat :=
  match l with
  | [] => q
  | c :: l => if c =? 63 then q else last_slash (S i) l (if c =? 47 then Some i else q)
  end.
Definition url_dir : list Z :=
  match last_slash 0 url None with Some i => take (S i) url | None => url end.

(** What a source refers to: a header for the host, and the URL.  The value
    ends with a NUL. *)
Definition resolve (val : list Z) : option (option (list Z) * list Z) :=
  if (7 <? length val)%nat && bool_decide (take 7 val = bs "http://") then
    let '(name, path) := until (fun c => c =? 47) (drop 7 val) in
    match path with
    | [] => None                                       (* assert( *p == '/') *)
    | _ => Some (Some (bs "Host: " ++ name ++ [0]), path)
    end
  else if peek val =? 47 then Some (None, val)
  else Some (None, url_dir ++ c_str val ++ [0]).

Definition last_bit (ew : esi_work) : option esi_bit := last (esibits ew).
Definition put_bit (ew : esi_work) (b : esi_bit) : esi_work :=
  set_bits ew (removelast (esibits ew) ++ [b]).
Definition size_of (t : option (list Z)) : Z := match t with Some l => Z.of_nat (length l) | None => 0 end.

(** One source attribute. *)
Definition include_src (ew : esi_work) (val : list Z) : option esi_work :=
  let val := val ++ [0] in
  let val := if bool_decide (38 ∈ c_str val) then XMLentity val else val in
  let? (h, u) := resolve val in
  let? eb := last_bit ew in
  let eb := Bit (verbatim eb) (match h with Some h => Some h | None => host eb end) (Some u) in
  let ew := put_bit ew eb in
  Some (set_space ew (space ew + size_of (include eb) + size_of (host eb))).

Fixpoint include_loop (fuel : nat) (ew : esi_work) (l : list Z) : option esi_work :=
  match fuel with
  | O => None
  | S fuel =>
      match esi_attrib l with
      | ANone => Some ew
      | AError e => Some (esi_error ew e)
      | AFail => None
      | AVal rest name val =>
          if negb (bool_decide (name = bs "src")) then include_loop fuel ew rest
          else if (length val =? 0)%nat then include_loop fuel (esi_error ew SrcWithoutValue) rest
          else let? ew := include_src ew val in include_loop fuel ew rest
      end
  end.

Definition esi_handle_include (ew : esi_work) (tag : list Z) : option esi_work :=
  let ew := match last_bit ew with
            | None => esi_addnone ew
            | Some b => if bool_decide (include b = None) then ew else esi_addnone ew
            end in
  include_loop (S (length tag)) ew tag.

(** ** Elements *)

Definition parse_esi_comment (ew : esi_work) : option esi_work :=
  let? ew := esi_addpfx ew in
  let ew := N (N (N (N (N (N (N ew)))))) in
  assert! negb (incmt ew) ;;
  let ew := set_incmt ew true in
  Some (set_s ew (Ptr (pseg (p ew)) (poff (p ew)) (st (s ew)))).

(** [do N while ( *p != stop && p < e)] *)
Fixpoint skip_to (fuel : nat) (stop : Z) (ew : esi_work) : option esi_work :=
  match fuel with
  | O => None
  | S fuel =>
      let ew := N ew in
      if negb (deref (p ew) =? stop) && inside (p ew) then skip_to fuel stop ew else Some ew
  end.
(** [do N; if at str skip it and leave while (p < e)] *)
Fixpoint skip_past (fuel : nat) (str : list Z) (ew : esi_work) : option esi_work :=
  match fuel with
  | O => None
  | S fuel =>
      let ew := N ew in
      let? hit := if deref (p ew) =? peek str then CMP (p ew) str else Some false in
      if hit : bool then Some (N (N (N ew)))
      else if inside (p ew) then skip_past fuel str ew else Some ew
  end.

Definition body_len : nat := length (concat segs).

Definition parse_comment (ew : esi_work) : option esi_work := skip_past (S body_len) (bs "-->") ew.
Definition parse_cdata (ew : esi_work) : option esi_work :=
  let? ew := esi_addpfx ew in skip_past (S body_len) (bs "]]>") ew.

(** The bytes from one pointer to the other. *)
Fixpoint between (fuel : nat) (x y : esi_ptr) : option (list Z) :=
  match fuel with
  | O => None
  | S fuel =>
      if (pseg x =? pseg y)%nat && (poff x =? poff y)%nat then Some []
      else let? l := between fuel (Nep x) y in Some (deref x :: l)
  end.

Definition starts (l name : list Z) : bool := bool_decide (take (length name) l = name).

(** What an element asks for; [tag] is behind the name space. *)
Definition esi_element (ew : esi_work) (tag : list Z) (empty closing : bool) : option esi_work :=
  if starts tag (bs "remove") then
    if empty then Some ew
    else if closing then
      Some (set_remflg (if remflg ew then ew else esi_error ew RemoveNotOpened) false)
    else Some (set_remflg (if remflg ew then esi_error ew NestedRemove else ew) true)
  else if remflg ew then Some (esi_error ew InsideRemove)
  else if starts tag (bs "comment") then
    if closing then Some (esi_error ew ClosingComment)
    else if negb empty then Some (esi_error ew CommentNotEmpty) else Some ew
  else if starts tag (bs "include") then
    let ew := if closing then esi_error ew ClosingInclude
              else if negb empty then esi_error ew IncludeNotEmpty else ew in
    esi_handle_include ew (drop 7 tag)
  else Some (esi_error ew Unimplemented).

(** From the whole element to its contents: the brackets, the slashes and the
    name space go. *)
Definition tag_contents (t : list Z) (closing : bool) : option (list Z * bool) :=
  let t := removelast (tail t) in
  let empty := bool_decide (last t = Some 47) in
  let t := if empty then removelast t else t in
  let k := (4 + if closing then 1 else 0)%nat in
  assert! (k <=? length t)%nat ;;
  Some (drop k t, empty).

Definition parse_esi_tag (ew : esi_work) (closing : bool) : option esi_work :=
  let? ew := esi_addpfx ew in
  let? ew := skip_to (S body_len) 62 ew in
  if negb (inside (p ew)) then
    let? ew := esi_addpfx ew in Some (esi_error ew Incomplete)
  else
    let ew := N ew in
    let? t := between (S body_len) (s ew) (p ew) in
    let? (tag, empty) := tag_contents t closing in
    let ew := if empty && closing then esi_error ew EmptyAndClosing else ew in
    let? ew := esi_element ew tag empty closing in
    Some (set_s ew (p ew)).

(** ** The whole object *)

(** One turn of the loop of [ESI_Parse]. *)
Definition parse_turn (ew : esi_work) : option esi_work :=
  let? ends := if incmt ew && (deref (p ew) =? 45) then CMP (p ew) (bs "-->") else Some false in
  if ends : bool then
    let? ew := esi_addpfx ew in
    let ew := N (N (N ew)) in
    Some (set_incmt (set_s ew (p ew)) false)
  else if negb (deref (p ew) =? 60) then Some (N ew)
  else
    let? c := CMP (p ew) (bs "<!--esi") in
    if c : bool then parse_esi_comment ew
    else
      let? c := CMP (p ew) (bs "<!--") in
      if c : bool then parse_comment ew
      else
        let? c := CMP (p ew) (bs "</esi") in
        if c : bool then parse_esi_tag ew true
        else
          let? c := CMP (p ew) (bs "<esi:") in
          if c : bool then parse_esi_tag ew false
          else
            let? c := CMP (p ew) (bs "<![CDATA[") in
            if c : bool then parse_cdata ew
            else
              let ew := N ew in
              if Z.testbit esi_syntax 1 then Some ew else skip_to (S body_len) 62 ew.

Fixpoint parse_loop (fuel : nat) (ew : esi_work) : option esi_work :=
  match fuel with
  | O => None
  | S fuel =>
      if inside (p ew) then let? ew := parse_turn ew in parse_loop fuel ew else Some ew
  end.

(** The first character that is not white space. *)
Fixpoint looks_like_xml (l : list Z) : bool :=
  match l with
  | [] => false
  | c :: l => if isspace c then looks_like_xml l else c =? 60
  end.

(** The scan with one position in each of the two strings. *)
Fixpoint contain_loop (l r r2 : list Z) : bool :=
  match l with
  | [] => false
  | c :: l =>
      let r := if negb (c =? peek r) then bs "<esi:" else tail r in
      if bool_decide (r = []) then true
      else
        let r2 := if negb (c =? peek r2) then bs "<!--esi" else tail r2 in
        if bool_decide (r2 = []) then true else contain_loop l r r2
  end.
Definition contain_esi : bool := contain_loop (concat segs) (bs "<esi:") (bs "<!--esi").

(** The bytes the bits take in the storage. *)
Definition stored_size (l : list esi_bit) : Z :=
  foldr (fun b n => sizeof_bit + size_of (include b) + size_of (host b) + n) sizeof_esidata l.

Definition start : esi_work := Work (Ptr 0 0 0) (Ptr 0 0 0) [] false false sizeof_esidata [].

(** The bits of the object, [Some None] when it is not processed.  The storage
    for them is as large as was asked for. *)
Definition ESI_Parse : option (option (list esi_bit * list esi_err)) :=
  if bool_decide (segs = []) then Some None
  else if negb (Z.testbit esi_syntax 0) && negb (looks_like_xml (concat segs)) then Some None
  else if negb contain_esi then Some None
  else
    let? ew := parse_loop (S body_len) start in
    let? ew := esi_addpfx ew in
    let ew := if remflg ew then esi_error ew UnterminatedRemove else ew in
    let ew := if incmt ew then esi_error ew UnterminatedComment else ew in
    assert! stored_size (esibits ew) =? space ew ;;
    Some (Some (esibits ew, errors ew)).

End Parsing.

(** ** Delivery *)

(** [sprintf("%x\r\n", n)] for the length of a bit; the digits are [hex]'s. *)
Section Deliver.
Context (hex : Z -> list Z) (max_esi_includes : Z).

(** A request for an included object by a session that is [esis] levels deep:
    what the client is sent for it, and whether the connection is still open. *)
Context (request : Z -> option (list Z) -> list Z -> list Z * bool).

(** [WRW_Write]s of one bit; [chunked] is for clients of HTTP/1.1. *)
Definition write_bit (chunked : bool) (b : esi_bit) : list Z :=
  let n := Z.of_nat (length (verbatim b)) in
  if n =? 0 then []
  else if chunked then hex n ++ [13; 10] ++ verbatim b ++ [13; 10]
  else verbatim b.

(** The loop over the bits; writing to the client succeeds. *)
Fixpoint deliver_bits (chunked : bool) (esis : Z) (l : list esi_bit) : list Z * bool :=
  match l with
  | [] => ([], true)
  | b :: l =>
      let text := write_bit chunked b in
      match include b with
      | Some u =>
          if max_esi_includes <=? esis then
            let '(r, open) := deliver_bits chunked esis l in (text ++ r, open)
          else
            let '(d, open) := request (esis + 1) (host b) u in
            if open : bool then
              let '(r, open) := deliver_bits chunked esis l in (text ++ d ++ r, open)
            else (text ++ d, false)
      | None => let '(r, open) := deliver_bits chunked esis l in (text ++ r, open)
      end
  end.

(** What the client is sent; the end of the chunks only when it is still there. *)
Definition ESI_Deliver (chunked : bool) (esis : Z) (l : list esi_bit) : list Z * bool :=
  let '(r, open) := deliver_bits chunked esis l in
  (r ++ (if (esis =? 0) && chunked && open then bs "0" ++ [13; 10; 13; 10] else []), open).
End Deliver.

End Esi.
