(* ===== verification/EsiRef.v ===== *)
(** * EsiRef: bodies without segments

    What the pointers of [Esi] stand for: positions in the body as one string,
    however it is cut into segments; and a reference parser that works on that
    string and delivers bytes and includes. *)
From S2P Require Import Prelude Vct Esi.

Module EsiRef.
Import Vct Esi.

(** ** Positions in the body

    A pointer in good order names a byte of the body, or its end; it is a
    position in the concatenation of the segments. *)
Section Positions.
Context (segs : list (list Z)).
Context (full : Forall (fun l => l <> []) segs).
Notation B := (concat segs).
Notation n := (length segs).

Definition start_of (i : nat) : nat := length (concat (take i segs)).
Definition pos (x : esi_ptr) : nat := (start_of (pseg x) + poff x)%nat.
Definition norm (x : esi_ptr) : Prop :=
  st x = pseg x /\
  ((pseg x < n)%nat /\ (poff x < length (seg segs (pseg x)))%nat \/ pseg x = n /\ poff x = 0%nat).

Lemma seg_nonempty i : (i < n)%nat -> (0 < length (seg segs i))%nat.
Proof.
  intros H. unfold seg. destruct (segs !! i) as [l|] eqn:E.
  - rewrite Forall_lookup in full. specialize (full i l E). destruct l; simpl; [done | lia].
  - apply lookup_ge_None in E. lia.
Qed.

Lemma start_S i : (i < n)%nat -> start_of (S i) = (start_of i + length (seg segs i))%nat.
Proof.
  intros H. unfold start_of, seg. destruct (lookup_lt_is_Some_2 segs i H) as [l E].
  rewrite (take_S_r segs i l E), concat_app, length_app, E. simpl. rewrite app_nil_r. done.
Qed.
Lemma start_n : start_of n = length B.
Proof. unfold start_of. rewrite firstn_all. done. Qed.
Lemma start_mono i j : (i <= j)%nat -> (j <= n)%nat -> (start_of i <= start_of j)%nat.
Proof.
  intros H1 H2. induction H1 as [|j H1 IH]; [lia |]. rewrite start_S by lia.
  specialize (IH ltac:(lia)). lia.
Qed.
Lemma start_strict i j : (i < j)%nat -> (j <= n)%nat -> (start_of i < start_of j)%nat.
Proof.
  intros H1 H2. pose proof (start_mono (S i) j ltac:(lia) H2) as H.
  rewrite start_S in H by lia. pose proof (seg_nonempty i ltac:(lia)). lia.
Qed.

Lemma drop_start i : (i < n)%nat -> drop (start_of i) B = seg segs i ++ drop (start_of (S i)) B.
Proof.
  intros H. unfold start_of. destruct (lookup_lt_is_Some_2 segs i H) as [l E].
  assert (HB : B = concat (take i segs) ++ l ++ concat (drop (S i) segs)).
  { rewrite <- (take_drop_middle segs i l E) at 1. rewrite concat_app. done. }
  rewrite (take_S_r segs i l E), concat_app. simpl. rewrite app_nil_r. unfold seg. rewrite E. simpl.
  rewrite HB, drop_app_length, (app_assoc (concat (take i segs))), drop_app_length. done.
Qed.

Lemma pos_le x : norm x -> (pos x <= length B)%nat.
Proof.
  intros [_ [[H1 H2]|[H1 H2]]]; unfold pos.
  - pose proof (start_mono (S (pseg x)) n ltac:(lia) ltac:(lia)). rewrite start_S, start_n in * by lia. lia.
  - rewrite H1, H2, start_n. lia.
Qed.
Lemma pos_end x : norm x -> (pos x < length B)%nat <-> (pseg x < n)%nat.
Proof.
  intros [_ [[H1 H2]|[H1 H2]]]; unfold pos.
  - pose proof (start_mono (S (pseg x)) n ltac:(lia) ltac:(lia)). rewrite start_S, start_n in * by lia. lia.
  - rewrite H1, H2, start_n. lia.
Qed.
Lemma pos_next x : norm x -> (pseg x < n)%nat -> (pos x < start_of (S (pseg x)))%nat.
Proof. intros [_ [[H1 H2]|[H1 H2]]] H; [| lia]. unfold pos. rewrite start_S by lia. lia. Qed.

Lemma pos_seg x y : norm x -> norm y -> (pos x <= pos y)%nat -> (pseg x <= pseg y)%nat.
Proof.
  intros Hx Hy H. destruct (decide (pseg x <= pseg y)%nat) as [|Hn]; [done | exfalso].
  assert (Hy' : (pseg y < n)%nat) by (destruct Hx as [_ [[??]|[??]]]; lia).
  pose proof (pos_next y Hy Hy'). pose proof (start_mono (S (pseg y)) (pseg x)) as Hm.
  assert (pseg x <= n)%nat by (destruct Hx as [_ [[??]|[??]]]; lia).
  specialize (Hm ltac:(lia) ltac:(lia)). unfold pos in *. lia.
Qed.
Lemma pos_inj x y : norm x -> norm y -> pos x = pos y -> x = y.
Proof.
  intros Hx Hy H.
  assert (E : pseg x = pseg y)
    by (pose proof (pos_seg x y Hx Hy ltac:(lia)); pose proof (pos_seg y x Hy Hx ltac:(lia)); lia).
  destruct Hx as [Hx _], Hy as [Hy _], x as [a b c], y as [a' b' c']. unfold pos in H. simpl in *.
  subst. f_equal. lia.
Qed.

Lemma norm_finis : norm (finis segs).
Proof. split; [done | right; split; done]. Qed.
Lemma pos_finis : pos (finis segs) = length B.
Proof. unfold pos, finis. simpl. rewrite start_n. lia. Qed.

(** What the segment holds from the pointer on is where the body continues. *)
Lemma drop_pos x : norm x -> (pseg x < n)%nat ->
  drop (pos x) B = drop (poff x) (seg segs (pseg x)) ++ drop (start_of (S (pseg x))) B.
Proof.
  intros [_ [[H1 H2]|[H1 H2]]] H; [| lia].
  unfold pos. rewrite <- drop_drop, drop_start, drop_app_le by lia. done.
Qed.

Lemma deref_pos x : norm x -> deref segs x = at_ B (pos x).
Proof.
  intros H. unfold deref, at_. destruct (decide (pseg x < n)%nat) as [Hl|Hl].
  - assert (poff x < length (seg segs (pseg x)))%nat by (destruct H as [_ [[??]|[??]]]; lia).
    pose proof (drop_pos x H Hl) as E. apply (f_equal (fun l => l !! 0%nat)) in E.
    rewrite lookup_drop, lookup_app_l, lookup_drop, !Nat.add_0_r in E
      by (rewrite length_drop; lia).
    rewrite E. done.
  - rewrite (lookup_ge_None_2 B) by (apply Nat.le_ngt; intros Hc; apply Hl; apply pos_end; done).
    unfold seg. rewrite (lookup_ge_None_2 segs) by lia. done.
Qed.

Lemma inside_pos x : norm x -> inside segs x = (pos x <? length B)%nat.
Proof.
  intros H. unfold inside. destruct (Nat.ltb_spec (pos x) (length B)) as [Hl|Hl].
  - apply Nat.ltb_lt. apply pos_end in Hl; [| done]. destruct H as [_ [[??]|[??]]]; lia.
  - apply Nat.ltb_ge. assert (Hn : ~ (pseg x < n)%nat) by (intros Hc; apply pos_end in Hc; [lia | done]).
    unfold seg. rewrite (lookup_ge_None_2 segs) by lia. simpl. lia.
Qed.

Lemma Nep_jump i o : (i < n)%nat -> (length (seg segs i) <= S o)%nat ->
  Nep segs (Ptr i o i) = Ptr (S i) 0 (S i).
Proof.
  intros H1 H2. unfold Nep. simpl. rewrite (proj2 (Nat.eqb_neq i n)) by lia.
  rewrite (proj2 (Nat.ltb_ge (S o) (length (seg segs i)))) by lia.
  destruct (Nat.ltb_spec (S i) n) as [H|H]; [done |].
  unfold finis. assert (n = S i) by lia. congruence.
Qed.
Lemma norm_start i : (i <= n)%nat -> norm (Ptr i 0 i).
Proof.
  intros H. split; [done |]. simpl. destruct (decide (i = n)) as [|Hn]; [right; done | left].
  split; [lia | apply seg_nonempty; lia].
Qed.

Lemma Nep_norm x : norm x -> norm (Nep segs x) /\ pos (Nep segs x) = Nat.min (length B) (S (pos x)).
Proof.
  intros H. destruct (decide (pseg x < n)%nat) as [Hl|Hl].
  - pose proof (proj2 (pos_end x H) Hl). destruct H as [Hs [[H1 H2]|[H1 H2]]]; [| lia].
    destruct x as [i o t]. unfold pos in *. simpl in *. subst t.
    destruct (decide (S o < length (seg segs i))%nat) as [Hi|Hi].
    + unfold Nep. simpl. rewrite (proj2 (Nat.eqb_neq i n)) by lia.
      rewrite (proj2 (Nat.ltb_lt _ _) Hi). split; [split; [done | left; simpl; lia] | simpl].
      pose proof (start_mono (S i) n ltac:(lia) ltac:(lia)). rewrite start_S, start_n in * by lia. lia.
    + rewrite Nep_jump by lia. split; [apply norm_start; lia | simpl].
      rewrite start_S by lia. pose proof (start_mono (S i) n ltac:(lia) ltac:(lia)).
      rewrite start_S, start_n in * by lia. lia.
  - assert (E : pseg x = n) by (destruct H as [_ [[??]|[??]]]; lia).
    unfold Nep. rewrite E, Nat.eqb_refl. split; [done |].
    assert (pos x = length B) by (pose proof (pos_le x H); pose proof (pos_end x H); lia). lia.
Qed.
Lemma norm_Nep x : norm x -> norm (Nep segs x).
Proof. apply Nep_norm. Qed.
Lemma pos_Nep x : norm x -> pos (Nep segs x) = Nat.min (length B) (S (pos x)).
Proof. apply Nep_norm. Qed.

(** ** Comparing *)

Lemma at_peek (l : list Z) i : at_ l i = peek (drop i l).
Proof.
  unfold at_. revert i. induction l as [|c l IH]; intros [|i]; simpl; try done.
Qed.
Lemma drop_S_tail {A} (l : list A) i : drop (S i) l = tail (drop i l).
Proof. revert i. induction l as [|c l IH]; intros [|i]; simpl; try done. Qed.
Lemma drop_min {A} (l : list A) i : drop (Nat.min (length l) i) l = drop i l.
Proof.
  destruct (decide (i <= length l)%nat); [f_equal; lia |].
  rewrite !drop_ge by lia. done.
Qed.

Lemma starts_cons c l d name : starts (c :: l) (d :: name) = (c =? d) && starts l name.
Proof.
  unfold starts. simpl. destruct (Z.eqb_spec c d) as [->|Hn]; simpl.
  - apply bool_decide_ext. split; intros H; [congruence | f_equal; done].
  - apply bool_decide_false. congruence.
Qed.

Lemma CMP_spec str x : norm x -> cstr B -> cstr str -> drop (pos x) B <> str ->
  CMP segs x str = Some (starts (drop (pos x) B) str).
Proof.
  intros Hx HB Hs. revert x Hx. induction Hs as [|c str Hc Hs IH]; intros x Hx Hne; simpl.
  - rewrite deref_pos, at_peek by done. destruct (drop (pos x) B) as [|d l] eqn:E; [done |].
    simpl. unfold starts. simpl.
    assert (Hd : cchar d).
    { unfold cstr in HB. rewrite Forall_lookup in HB. apply (HB (pos x)).
      rewrite <- (Nat.add_0_r (pos x)), <- lookup_drop, E. done. }
    unfold cchar in Hd. rewrite (proj2 (Z.eqb_neq d 0)) by lia. done.
  - rewrite deref_pos, at_peek by done. destruct (drop (pos x) B) as [|d l] eqn:E; simpl.
    + unfold cchar in Hc. rewrite (proj2 (Z.eqb_neq c 0)) by lia. done.
    + rewrite starts_cons, (Z.eqb_sym d c). destruct (Z.eqb_spec c d) as [->|Hn]; [| done]. simpl.
      assert (El : drop (pos (Nep segs x)) B = l).
      { rewrite pos_Nep, drop_min, drop_S_tail, E by done. done. }
      rewrite IH, El; [done | apply norm_Nep; done |]. rewrite El. congruence.
Qed.

End Positions.

(** ** The reference parser

    It works on the whole body at once and delivers bytes and includes. *)
Inductive item := Byte (c : Z) | Incl (host : option (list Z)) (url : list Z).
Definition bit_items (b : esi_bit) : list item :=
  map Byte (verbatim b) ++ match include b with Some u => [Incl (host b) u] | None => [] end.
Definition items (l : list esi_bit) : list item := concat (map bit_items l).

(** The first occurrence of [str]. *)
Fixpoint find (str l : list Z) : option nat :=
  match l with
  | [] => None
  | _ :: l' => if starts l str then Some O else S <$> find str l'
  end.

(** [pend] is text whose fate is open, [rest] what has not been read. *)
Record page := Page {
  out : list item; pend : list Z; rest : list Z; rem : bool; inc : bool; errs : list esi_err }.
Definition eat (k : nat) (r : page) : page :=
  Page (out r) (pend r ++ take k (rest r)) (drop k (rest r)) (rem r) (inc r) (errs r).
Definition discard (r : page) : page := Page (out r) [] (rest r) (rem r) (inc r) (errs r).
Definition flush (r : page) : page :=
  Page (if rem r then out r else out r ++ map Byte (pend r)) [] (rest r) (rem r) (inc r) (errs r).
Definition emit (i : item) (r : page) : page :=
  Page (out r ++ [i]) (pend r) (rest r) (rem r) (inc r) (errs r).
Definition put_rem (b : bool) (r : page) : page :=
  Page (out r) (pend r) (rest r) b (inc r) (errs r).
Definition put_inc (b : bool) (r : page) : page :=
  Page (out r) (pend r) (rest r) (rem r) b (errs r).
Definition err (e : esi_err) (r : page) : page :=
  Page (out r) (pend r) (rest r) (rem r) (inc r) (errs r ++ [e]).

(** To the next [str] that does not start right here, or behind it; to the end
    when there is none. *)
Definition next (str l : list Z) : nat :=
  match find str (tail l) with Some k => S k | None => length l end.
Definition beyond (str l : list Z) : nat :=
  match find str (tail l) with Some k => S k + length str | None => length l end.

Section Reference.
Context (url : list Z) (esi_syntax : Z).

Definition decode (val : list Z) : list Z :=
  let val := val ++ [0] in if bool_decide (38 ∈ c_str val) then XMLentity val else val.

(** The attributes of an include; a second source has no place. *)
Fixpoint sources (fuel : nat) (seen : bool) (l : list Z) (r : page) : option page :=
  match fuel with
  | O => None
  | S fuel =>
      match esi_attrib l with
      | ANone => Some r
      | AError e => Some (err e r)
      | AFail => None
      | AVal rest name val =>
          if negb (bool_decide (name = bs "src")) then sources fuel seen rest r
          else if (length val =? 0)%nat then sources fuel seen rest (err SrcWithoutValue r)
          else if seen then None
          else let? (h, u) := resolve url (decode val) in sources fuel true rest (emit (Incl h u) r)
      end
  end.

Definition element (tag : list Z) (empty closing : bool) (r : page) : option page :=
  if starts tag (bs "remove") then
    if empty then Some r
    else if closing then Some (put_rem false (if rem r then r else err RemoveNotOpened r))
    else Some (put_rem true (if rem r then err NestedRemove r else r))
  else if rem r then Some (err InsideRemove r)
  else if starts tag (bs "comment") then
    if closing then Some (err ClosingComment r)
    else if negb empty then Some (err CommentNotEmpty r) else Some r
  else if starts tag (bs "include") then
    sources (S (length (drop 7 tag))) false (drop 7 tag)
      (if closing then err ClosingInclude r else if negb empty then err IncludeNotEmpty r else r)
  else Some (err Unimplemented r).

Definition tag_ref (closing : bool) (r : page) : option page :=
  let r := flush r in
  match find [62] (tail (rest r)) with
  | None => Some (err Incomplete (flush (eat (length (rest r)) r)))
  | Some k =>
      let r := eat (S (S k)) r in
      let? (tag, empty) := tag_contents (pend r) closing in
      let r := if empty && closing then err EmptyAndClosing r else r in
      let? r := element tag empty closing r in
      Some (discard r)
  end.

Definition turn_ref (r : page) : option page :=
  if inc r && starts (rest r) (bs "-->") then
    Some (put_inc false (discard (eat 3 (flush r))))
  else if negb (peek (rest r) =? 60) then Some (eat 1 r)
  else if starts (rest r) (bs "<!--esi") then
    if inc r then None else Some (put_inc true (discard (eat 7 (flush r))))
  else if starts (rest r) (bs "<!--") then Some (eat (beyond (bs "-->") (rest r)) r)
  else if starts (rest r) (bs "</esi") then tag_ref true r
  else if starts (rest r) (bs "<esi:") then tag_ref false r
  else if starts (rest r) (bs "<![CDATA[") then
    let r := flush r in Some (eat (beyond (bs "]]>") (rest r)) r)
  else
    let r := eat 1 r in
    Some (if Z.testbit esi_syntax 1 then r else eat (next [62] (rest r)) r).

Fixpoint loop_ref (fuel : nat) (r : page) : option page :=
  match fuel with
  | O => None
  | S fuel =>
      match rest r with
      | [] => Some r
      | _ => let? r := turn_ref r in loop_ref fuel r
      end
  end.

(** The items of a body and the errors found in it; [Some None] when the body is
    to be delivered as it is. *)
Definition esi_ref (fuel : nat) (B : list Z) : option (option (list item * list esi_err)) :=
  if negb (Z.testbit esi_syntax 0) && negb (looks_like_xml B) then Some None
  else if negb (contain_loop B (bs "<esi:") (bs "<!--esi")) then Some None
  else
    let? r := loop_ref fuel (Page [] [] B false false []) in
    let r := flush r in
    let r := if rem r then err UnterminatedRemove r else r in
    let r := if inc r then err UnterminatedComment r else r in
    Some (Some (out r, errs r)).

(** ** The reference parser ends

    Every turn reads something, so that more turns than bytes are enough. *)
Lemma sources_rest fuel seen l r r' : sources fuel seen l r = Some r' -> rest r' = rest r.
Proof.
  revert seen l r. induction fuel as [|fuel IH]; intros seen l r; simpl; [done |].
  destruct (esi_attrib l) as [| e | | l' name val]; simpl; try (intros [= <-]; done); [].
  destruct (negb _); [apply IH |]. destruct (_ =? _)%nat; [intros H; apply IH in H; exact H |]. destruct seen; [done |].
  destruct (resolve _ _) as [[h u]|]; [| done]. intros H. apply IH in H. exact H.
Qed.
Lemma element_rest tag empty closing r r' : element tag empty closing r = Some r' -> rest r' = rest r.
Proof.
  unfold element. repeat case_match; intros E; simplify_eq; try done;
    apply sources_rest in E; exact E.
Qed.
Lemma eat_short k r : (0 < k)%nat -> rest r <> [] -> (length (rest (eat k r)) < length (rest r))%nat.
Proof. intros H Hr. unfold eat. simpl. rewrite length_drop. destruct (rest r); simpl; [done | lia]. Qed.
Lemma next_pos str l : l <> [] -> (0 < next str l)%nat.
Proof. unfold next. destruct l; [done |]. destruct (find _ _); simpl; lia. Qed.
Lemma beyond_pos str l : l <> [] -> (0 < beyond str l)%nat.
Proof. unfold beyond. destruct l; [done |]. destruct (find _ _); simpl; lia. Qed.

Lemma tag_short closing r r' : tag_ref closing r = Some r' -> rest r <> [] ->
  (length (rest r') < length (rest r))%nat.
Proof.
  unfold tag_ref. intros H Hr. change (rest (flush r)) with (rest r) in H.
  destruct (find _ _) as [k|].
  - destruct (tag_contents _ _) as [[tag empty]|]; [| done].
    destruct (element _ _ _ _) as [r1|] eqn:E; [| done]. apply element_rest in E.
    injection H as <-. change (rest (discard r1)) with (rest r1). rewrite E.
    pose proof (eat_short (S (S k)) (flush r) ltac:(lia) Hr) as Hs.
    destruct (empty && closing); exact Hs.
  - injection H as <-. apply (eat_short _ (flush r)); [destruct (rest r); simpl; [done | lia] | exact Hr].
Qed.
Lemma turn_short r r' : turn_ref r = Some r' -> rest r <> [] -> (length (rest r') < length (rest r))%nat.
Proof.
  unfold turn_ref. intros H Hr.
  destruct (inc r && _); [injection H as <-; apply (eat_short 3 (flush r)); [lia | done] |].
  destruct (negb _); [injection H as <-; apply eat_short; [lia | done] |].
  destruct (starts _ _).
  { destruct (inc r); [done |]. injection H as <-. apply (eat_short 7 (flush r)); [lia | done]. }
  destruct (starts _ _); [injection H as <-; apply eat_short; [apply beyond_pos |]; done |].
  destruct (starts _ _); [eapply tag_short; eassumption |].
  destruct (starts _ _); [eapply tag_short; eassumption |].
  destruct (starts _ _).
  { injection H as <-. apply (eat_short _ (flush r)); [apply beyond_pos |]; done. }
  pose proof (eat_short 1 r ltac:(lia) Hr) as Hs. destruct (Z.testbit _ _); injection H as <-; [done |].
  eapply Nat.le_lt_trans; [| exact Hs]. unfold eat at 1. cbn [rest]. rewrite length_drop. lia.
Qed.
Lemma loop_fuel f g r : (length (rest r) < f)%nat -> (length (rest r) < g)%nat ->
  loop_ref f r = loop_ref g r.
Proof.
  revert g r. induction f as [|f IH]; intros g r Hf Hg; [lia |]. destruct g as [|g]; [lia |]. simpl.
  destruct (rest r) as [|c l] eqn:E; [done |]. rewrite <- E in *.
  destruct (turn_ref r) as [r'|] eqn:Et; [| done].
  apply turn_short in Et; [| congruence]. apply IH; lia.
Qed.

End Reference.

End EsiRef.
