(* ===== verification/EsiSpec.v ===== *)
(** * EsiSpec: a page does not depend on how it is stored

    A simulation between the parser of [Esi], which follows pointers through
    the segments of an object, and the reference parser of [EsiRef]; and pages
    the program aborts on. *)
From S2P Require Import Prelude Vct Esi EsiRef.

Module EsiSpec.
Import Vct Esi EsiRef.

(** ** The bits *)

Definition tidy (b : esi_bit) : Prop := include b = None -> host b = None.

Lemma items_app l1 l2 : items (l1 ++ l2) = items l1 ++ items l2.
Proof. unfold items. rewrite map_app, concat_app. done. Qed.
Lemma items_one b : items [b] = bit_items b.
Proof. unfold items. simpl. apply app_nil_r. Qed.
Lemma items_text t : items [Bit t None None] = map Byte t.
Proof. rewrite items_one. unfold bit_items. simpl. apply app_nil_r. Qed.

Definition bit_size (b : esi_bit) : Z := sizeof_bit + size_of (include b) + size_of (host b).
Lemma stored_snoc l b : stored_size (l ++ [b]) = stored_size l + bit_size b.
Proof. unfold stored_size, bit_size. induction l as [|a l IH]; simpl; lia. Qed.
Lemma size_of_nonneg t : 0 <= size_of t.
Proof. destruct t; simpl; lia. Qed.

Lemma last_split {A} (l : list A) x : last l = Some x -> l = removelast l ++ [x].
Proof.
  intros H. destruct (last_Some l x) as [Hs _]. destruct (Hs H) as [l' ->].
  rewrite removelast_last. done.
Qed.

(** ** Space that is never claimed

    [ESI_Parse] sums up the sizes of the bits beforehand; what it has counted
    too much is never taken back. *)
Definition slack (ew : esi_work) : Z := space ew - stored_size (esibits ew).
Definition grows (ew ew' : esi_work) : Prop := slack ew <= slack ew'.
#[export] Instance grows_pre : PreOrder grows.
Proof. split; [intros x | intros x y z]; unfold grows; lia. Qed.
Create HintDb esi.

Section Slack.
Context (segs : list (list Z)) (url : list Z) (esi_syntax : Z).

Lemma addbit_grows ew x len ew' : esi_addbit segs ew x len = Some ew' -> grows ew ew'.
Proof.
  unfold esi_addbit. destruct (0 <? len)%nat; [| done]. destruct (_ <=? _)%nat; [| done].
  intros [= <-]. unfold grows, slack. simpl. rewrite stored_snoc. unfold bit_size. simpl. lia.
Qed.
Lemma addnone_grows ew : grows ew (esi_addnone ew).
Proof. unfold grows, slack. simpl. rewrite stored_snoc. unfold bit_size. simpl. lia. Qed.

Lemma pfx_loop_grows fuel ew ew' : pfx_loop segs fuel ew = Some ew' -> grows ew ew'.
Proof.
  revert ew. induction fuel as [|fuel IH]; intros ew; simpl; [done |].
  destruct (_ =? _)%nat; [intros [= <-]; exact (Z.le_refl _) |]. destruct (_ =? _)%nat; [| done].
  destruct (esi_addbit _ _ _ _) as [ew1|] eqn:E; [| done]. apply addbit_grows in E.
  intros H. apply IH in H. etransitivity; [exact E | exact H].
Qed.
Lemma addpfx_grows ew ew' : esi_addpfx segs ew = Some ew' -> grows ew ew'.
Proof.
  unfold esi_addpfx. destruct (remflg ew); [intros [= <-]; exact (Z.le_refl _) |].
  destruct (pfx_loop _ _ _) as [ew1|] eqn:E; [| done]. apply pfx_loop_grows in E.
  destruct (_ && _); [destruct (_ =? _)%nat; [| done] |].
  - destruct (esi_addbit _ _ _ _) as [ew2|] eqn:E2; [| done]. apply addbit_grows in E2.
    intros [= <-]. etransitivity; [exact E | exact E2].
  - intros [= <-]. exact E.
Qed.

Lemma put_bit_stored ew b b' : last_bit ew = Some b ->
  stored_size (esibits (put_bit ew b')) = stored_size (esibits ew) - bit_size b + bit_size b'.
Proof.
  intros H. unfold put_bit. simpl. rewrite stored_snoc.
  rewrite (last_split _ _ H) at 2. rewrite stored_snoc. lia.
Qed.

(** The size of the include that is replaced is what is lost. *)
Lemma include_src_slack ew val ew' b : last_bit ew = Some b -> include_src url ew val = Some ew' ->
  slack ew' = slack ew + size_of (include b) + size_of (host b).
Proof.
  intros Hb. unfold include_src. destruct (resolve _ _) as [[h u]|]; [| done]. rewrite Hb.
  intros [= <-]. unfold slack. cbn [set_space space put_bit set_bits esibits include host].
  rewrite stored_snoc. rewrite (last_split _ _ Hb) at 2. rewrite stored_snoc. unfold bit_size.
  simpl. lia.
Qed.
Lemma include_src_grows ew val ew' : include_src url ew val = Some ew' -> grows ew ew'.
Proof.
  intros H. destruct (last_bit ew) as [b|] eqn:E.
  - pose proof (include_src_slack ew val ew' b E H). unfold grows.
    pose proof (size_of_nonneg (include b)). pose proof (size_of_nonneg (host b)). lia.
  - unfold include_src in H. destruct (resolve _ _) as [[h u]|]; [| done]. rewrite E in H. done.
Qed.
Lemma include_loop_grows fuel ew l ew' : include_loop url fuel ew l = Some ew' -> grows ew ew'.
Proof.
  revert ew l. induction fuel as [|fuel IH]; intros ew l; simpl; [done |].
  destruct (esi_attrib l) as [| |  |rest name val]; try done; [intros [= <-]; exact (Z.le_refl _) .. |].
  destruct (negb _); [apply IH |].
  destruct (_ =? _)%nat; [intros H; apply IH in H; exact H |].
  destruct (include_src url ew val) as [ew1|] eqn:E; [| done]. apply include_src_grows in E.
  intros H. apply IH in H. etransitivity; [exact E | exact H].
Qed.
Lemma handle_include_grows ew l ew' : esi_handle_include url ew l = Some ew' -> grows ew ew'.
Proof.
  unfold esi_handle_include. intros H. apply include_loop_grows in H.
  destruct (last_bit ew) as [b|]; [destruct (bool_decide _); [exact H |] |];
    etransitivity; [apply addnone_grows | exact H | apply addnone_grows | exact H].
Qed.

Lemma skip_to_grows fuel stop ew ew' : skip_to segs fuel stop ew = Some ew' -> grows ew ew'.
Proof.
  revert ew. induction fuel as [|fuel IH]; intros ew; simpl; [done |].
  destruct (_ && _); [intros H; apply IH in H; exact H | intros [= <-]; exact (Z.le_refl _)].
Qed.
Lemma skip_past_grows fuel str ew ew' : skip_past segs fuel str ew = Some ew' -> grows ew ew'.
Proof.
  revert ew. induction fuel as [|fuel IH]; intros ew; simpl; [done |].
  destruct (if _ =? _ then _ else _) as [[]|]; [intros [= <-]; exact (Z.le_refl _) | | done].
  destruct (inside _ _); [intros H; apply IH in H; exact H | intros [= <-]; exact (Z.le_refl _)].
Qed.
Lemma element_grows ew tag empty closing ew' :
  esi_element url ew tag empty closing = Some ew' -> grows ew ew'.
Proof.
  unfold esi_element. repeat case_match; intros E; simplify_eq; try exact (Z.le_refl _);
    apply handle_include_grows in E; exact E.
Qed.
Lemma tag_grows ew closing ew' : parse_esi_tag segs url ew closing = Some ew' -> grows ew ew'.
Proof.
  unfold parse_esi_tag. destruct (esi_addpfx _ ew) as [ew1|] eqn:E1; [| done]. apply addpfx_grows in E1.
  destruct (skip_to _ _ _ ew1) as [ew2|] eqn:E2; [| done]. apply skip_to_grows in E2.
  rewrite E1, E2. clear E1 E2. destruct (negb _).
  - destruct (esi_addpfx _ ew2) as [ew3|] eqn:E3; [| done]. apply addpfx_grows in E3.
    intros [= <-]. exact E3.
  - destruct (between _ _ _ _) as [t|]; [| done]. destruct (tag_contents _ _) as [[tag empty]|]; [| done].
    destruct (esi_element _ _ _ _ _) as [ew3|] eqn:E3; [| done]. apply element_grows in E3.
    intros [= <-]. destruct (empty && closing); exact E3.
Qed.

Lemma some_grows ew x ew' : grows ew x -> Some x = Some ew' -> grows ew ew'.
Proof. congruence. Qed.
Lemma N_grows ew x : grows ew x -> grows ew (N segs x).
Proof. done. Qed.
Lemma set_s_grows ew x y : grows ew x -> grows ew (set_s x y).
Proof. done. Qed.
Lemma set_incmt_grows ew x b : grows ew x -> grows ew (set_incmt x b).
Proof. done. Qed.
#[local] Hint Resolve N_grows set_s_grows set_incmt_grows : esi.

Lemma turn_grows ew ew' : parse_turn segs url esi_syntax ew = Some ew' -> grows ew ew'.
Proof.
  unfold parse_turn. destruct (if incmt ew && _ then _ else _) as [[]|]; [| | done].
  { destruct (esi_addpfx _ ew) as [ew1|] eqn:E; [| done]. apply addpfx_grows in E.
    apply some_grows. auto 8 with esi. }
  destruct (negb _); [intros [= <-]; exact (Z.le_refl _) |].
  destruct (CMP _ _ _) as [[]|]; [| | done].
  { unfold parse_esi_comment. destruct (esi_addpfx _ ew) as [ew1|] eqn:E; [| done].
    apply addpfx_grows in E. destruct (negb _); [| done].
    apply some_grows. auto 12 with esi. }
  destruct (CMP _ _ _) as [[]|]; [apply skip_past_grows | | done].
  destruct (CMP _ _ _) as [[]|]; [apply tag_grows | | done].
  destruct (CMP _ _ _) as [[]|]; [apply tag_grows | | done].
  destruct (CMP _ _ _) as [[]|]; [| | done].
  { unfold parse_cdata. destruct (esi_addpfx _ ew) as [ew1|] eqn:E; [| done].
    apply addpfx_grows in E. intros H. apply skip_past_grows in H. etransitivity; [exact E | exact H]. }
  destruct (Z.testbit _ _); [intros [= <-]; exact (Z.le_refl _) |]. intros H. apply skip_to_grows in H. exact H.
Qed.
Lemma loop_grows fuel ew ew' : parse_loop segs url esi_syntax fuel ew = Some ew' -> grows ew ew'.
Proof.
  revert ew. induction fuel as [|fuel IH]; intros ew; simpl; [done |].
  destruct (inside _ _); [| intros [= <-]; exact (Z.le_refl _)].
  destruct (parse_turn _ _ _ ew) as [ew1|] eqn:E; [| done]. apply turn_grows in E.
  intros H. apply IH in H. etransitivity; [exact E | exact H].
Qed.

End Slack.

(** ** Pointers follow positions *)

(** Bodies of text bytes whose last byte ends none of the marks: the code reads
    beyond its own constants when the body ends with one. *)
Definition quiet (B : list Z) : bool :=
  forallb (fun c => (0 <? c) && (c <? 256)) B &&
  match last B with Some c => negb (bool_decide (c ∈ bs ">-i:[")) | None => false end.
(** No segment ends inside of a mark [<!--esi] or right behind it. *)
Definition unsplit (segs : list (list Z)) : bool :=
  forallb (fun i => forallb (fun o =>
    negb (starts (drop o (concat segs)) (bs "<!--esi") &&
          ((o <? start_of segs i)%nat && (start_of segs i <=? o + 7)%nat)))
    (seq 0 (length (concat segs)))) (seq 0 (length segs)).

Lemma loud c : bool_decide (c ∈ bs ">-i:[") = true -> c ∈ bs ">-i:[".
Proof. apply bool_decide_eq_true. Qed.
Lemma quiet_cstr B : quiet B = true -> cstr B.
Proof.
  unfold quiet. intros H. apply andb_true_iff in H as [H _]. rewrite forallb_forall in H.
  apply Forall_forall. intros c Hc. apply list_elem_of_In in Hc. specialize (H c Hc). unfold cchar. lia.
Qed.
Lemma quiet_ne B k m c : quiet B = true -> last m = Some c -> c ∈ bs ">-i:[" -> drop k B <> m.
Proof.
  unfold quiet. intros H Hm Hc E. apply andb_true_iff in H as [_ H].
  assert (Hk : (k < length B)%nat).
  { destruct (decide (k < length B)%nat) as [|Hn]; [done |]. rewrite drop_ge in E by lia. subst m. done. }
  rewrite <- (take_drop k B), E, last_app, Hm in H.
  rewrite (bool_decide_true _ Hc) in H. done.
Qed.

(** [k] of the open bytes are text. *)
Definition settle (k : nat) (r : page) : page :=
  Page (out r ++ map Byte (take k (pend r))) (drop k (pend r)) (rest r) (rem r) (inc r) (errs r).
Lemma settle_add a b r : settle b (settle a r) = settle (a + b) r.
Proof.
  destruct r. unfold settle. simpl. f_equal; [| apply drop_drop].
  rewrite <- app_assoc, <- map_app, take_take_drop. done.
Qed.
Lemma settle_0 r : settle 0 r = r.
Proof. destruct r. unfold settle. simpl. rewrite app_nil_r. done. Qed.
Lemma settle_all k r : (length (pend r) <= k)%nat -> rem r = false -> settle k r = flush r.
Proof. intros H E. unfold settle, flush. rewrite E, take_ge, drop_ge by done. done. Qed.
Lemma eat_eat a b r : eat a (eat b r) = eat (b + a) r.
Proof.
  destruct r. unfold eat. simpl. f_equal; [| apply drop_drop]. rewrite <- app_assoc, take_take_drop. done.
Qed.

Section Simulation.
Context (segs : list (list Z)) (url : list Z) (esi_syntax : Z).
Context (full : Forall (fun l => l <> []) segs).
Notation B := (concat segs).
Context (Hquiet : quiet B = true) (Hunsplit : unsplit segs = true).
Notation norm := (norm segs).
Notation pos := (pos segs).

Record sim (ew : esi_work) (r : page) : Prop := {
  sim_s : norm (s ew);
  sim_p : norm (p ew);
  sim_le : (pos (s ew) <= pos (p ew))%nat;
  sim_rest : rest r = drop (pos (p ew)) B;
  sim_pend : pend r = take (pos (p ew) - pos (s ew)) (drop (pos (s ew)) B);
  sim_out : out r = items (esibits ew);
  sim_rem : rem r = remflg ew;
  sim_inc : inc r = incmt ew;
  sim_errs : errs r = errors ew;
  sim_slack : slack ew = 0;
  sim_tidy : Forall tidy (esibits ew)
}.

Lemma sim_N ew r : sim ew r -> sim (N segs ew) (eat 1 r).
Proof.
  intros [Hs Hp Hle Hr Hd Ho Hrem Hi He Hk Ht].
  destruct (Nep_norm segs full (p ew) Hp) as [Hn Hpos]. pose proof (pos_le segs (p ew) Hp) as HL.
  unfold N. constructor; cbn [s p set_p esibits remflg incmt errors eat out pend rest rem inc errs]; try done.
  - rewrite Hpos. lia.
  - rewrite Hr, Hpos, drop_min, drop_drop. f_equal. lia.
  - rewrite Hr, Hd, Hpos.
    replace (drop (pos (p ew)) B) with (drop (pos (p ew) - pos (s ew)) (drop (pos (s ew)) B))
      by (rewrite drop_drop; f_equal; lia).
    rewrite take_take_drop. destruct (decide (pos (p ew) < length B)%nat).
    + f_equal. lia.
    + rewrite !take_ge by (rewrite length_drop; lia). done.
Qed.

Lemma sim_pend_length ew r : sim ew r -> length (pend r) = (pos (p ew) - pos (s ew))%nat.
Proof.
  intros H. rewrite (sim_pend _ _ H), length_take, length_drop.
  pose proof (pos_le segs _ (sim_p _ _ H)). lia.
Qed.

(** A stretch inside one segment becomes a bit. *)
Lemma sim_addbit ew r len y : sim ew r -> (0 < len)%nat ->
  (poff (s ew) + len <= length (seg segs (pseg (s ew))))%nat ->
  norm y -> pos y = (pos (s ew) + len)%nat -> (pos y <= pos (p ew))%nat ->
  exists ew', esi_addbit segs ew (s ew) len = Some ew' /\ s ew' = s ew /\ p ew' = p ew /\
    sim (set_s ew' y) (settle len r).
Proof.
  intros H Hlen Hin Hy Ey Hyp. unfold esi_addbit. rewrite (proj2 (Nat.ltb_lt _ _) Hlen).
  rewrite (proj2 (Nat.leb_le _ _) Hin). eexists. split; [reflexivity |]. split; [done |]. split; [done |].
  pose proof H as [Hs Hp Hle Hr Hd Ho Hrem Hi He Hk Ht].
  assert (Hseg : (pseg (s ew) < length segs)%nat).
  { destruct Hs as [_ [[??]|[E ?]]]; [done | exfalso]. rewrite E in Hin. unfold seg in Hin.
    rewrite (lookup_ge_None_2 segs) in Hin by lia. simpl in Hin. lia. }
  constructor; cbn [s p set_s set_bits set_space esibits remflg incmt errors settle out pend rest rem inc errs];
    try done.
  - rewrite Hd, skipn_firstn_comm, drop_drop, Ey. f_equal. lia.
  - rewrite items_app, items_text, Ho, Hd. do 2 f_equal.
    rewrite take_take, (drop_pos segs _ Hs Hseg), take_app_le by (rewrite length_drop; lia).
    f_equal. lia.
  - unfold slack in *. cbn [space esibits set_s set_bits set_space]. rewrite stored_snoc.
    unfold bit_size. simpl. lia.
  - apply Forall_app. split; [done |]. repeat constructor.
Qed.

Lemma norm_st x : norm x -> st x = pseg x.
Proof. intros [H _]. exact H. Qed.
Lemma norm_bound x : norm x -> (pseg x <= length segs)%nat.
Proof. intros [_ [[??]|[??]]]; lia. Qed.

Lemma sim_pfx fuel ew r : sim ew r -> (pseg (p ew) - pseg (s ew) < fuel)%nat ->
  exists ew' k, pfx_loop segs fuel ew = Some ew' /\ sim ew' (settle k r) /\
    pseg (s ew') = pseg (p ew) /\ p ew' = p ew.
Proof.
  revert ew r. induction fuel as [|fuel IH]; intros ew r H Hf; [lia |].
  pose proof (sim_s _ _ H) as Hs. pose proof (sim_p _ _ H) as Hp. cbn [pfx_loop].
  rewrite (norm_st _ Hs), (norm_st _ Hp).
  destruct (Nat.eqb_spec (pseg (s ew)) (pseg (p ew))) as [E|E].
  { exists ew, 0%nat. rewrite settle_0. done. }
  rewrite Nat.eqb_refl.
  pose proof (pos_seg segs _ _ Hs Hp (sim_le _ _ H)) as Hle. pose proof (norm_bound _ Hp) as Hb.
  assert (Ho : (poff (s ew) < length (seg segs (pseg (s ew))))%nat) by (destruct Hs as [_ [[??]|[??]]]; lia).
  assert (Ey : pos (Ptr (S (pseg (s ew))) 0 (S (pseg (s ew))))
    = (pos (s ew) + (length (seg segs (pseg (s ew))) - poff (s ew)))%nat).
  { unfold EsiRef.pos. simpl. rewrite (start_S segs) by lia. lia. }
  destruct (sim_addbit ew r (length (seg segs (pseg (s ew))) - poff (s ew))
    (Ptr (S (pseg (s ew))) 0 (S (pseg (s ew)))) H) as (ew1 & E1 & Es & Ep & H1); [lia | lia | | exact Ey | |].
  { apply (norm_start segs full). lia. }
  { pose proof (start_mono segs (S (pseg (s ew))) (pseg (p ew)) ltac:(lia) Hb) as Hm.
    unfold EsiRef.pos. simpl. unfold EsiRef.pos in *. lia. }
  rewrite E1, Es, (norm_st _ Hs), Nep_jump by lia.
  destruct (IH _ _ H1) as (ew' & k & E2 & H2 & Hs2 & Hp2); [simpl; rewrite Ep; lia |].
  exists ew'. eexists. rewrite settle_add in H2. split; [exact E2 |]. split; [exact H2 |].
  split; [rewrite Hs2; simpl; rewrite Ep; done | rewrite Hp2; exact Ep].
Qed.

Lemma sim_flush ew r : sim ew r ->
  exists ew', esi_addpfx segs ew = Some ew' /\ sim ew' (flush r) /\ s ew' = p ew' /\ p ew' = p ew.
Proof.
  intros H. unfold esi_addpfx. pose proof (sim_rem _ _ H) as Hrem.
  destruct (remflg ew) eqn:Er.
  { exists (set_s ew (p ew)). split; [done |]. split; [| done].
    destruct H as [Hs Hp Hle Hr Hd Ho _ Hi He Hk Ht].
    constructor; cbn [s p set_s esibits remflg incmt errors flush out pend rest rem inc errs]; try done.
    - rewrite Nat.sub_diag. done.
    - rewrite Hrem. done.
    - rewrite Hrem. done. }
  destruct (sim_pfx (S (length segs)) ew r H) as (ew1 & k & E1 & H1 & Hs1 & Hp1).
  { pose proof (norm_bound _ (sim_p _ _ H)). lia. }
  rewrite E1. clear E1. pose proof (sim_s _ _ H1) as Hs. pose proof (sim_p _ _ H1) as Hp.
  rewrite (norm_st _ Hs), Hs1, Hp1. rewrite Hp1 in Hp.
  assert (Hptr : Ptr (pseg (p ew)) (poff (p ew)) (pseg (p ew)) = p ew).
  { pose proof (norm_st _ Hp). destruct (p ew). simpl in *. congruence. }
  pose proof (sim_pend_length _ _ H1) as Hlen. rewrite Hp1 in Hlen.
  assert (Hfin : forall ew2 j, sim (set_s ew2 (p ew)) (settle j (settle k r)) -> p ew2 = p ew ->
    (length (pend (settle k r)) <= j)%nat -> exists ew', Some (set_s ew2 (p ew)) = Some ew' /\
      sim ew' (flush r) /\ s ew' = p ew' /\ p ew' = p ew).
  { intros ew2 j H2 E2 Hj. eexists. split; [reflexivity |]. rewrite settle_all in H2 by done.
    split; [| done]. assert (Ef : flush (settle k r) = flush r).
    { unfold flush, settle. simpl. rewrite Hrem, <- app_assoc, <- map_app, take_drop. done. }
    rewrite Ef in H2. exact H2. }
  rewrite Nat.eqb_refl. simpl.
  destruct ((pseg (p ew) <? length segs)%nat && negb (poff (p ew) =? poff (s ew1))%nat) eqn:Ec.
  - apply andb_true_iff in Ec as [Ec1 Ec2]. apply Nat.ltb_lt in Ec1.
    apply negb_true_iff, Nat.eqb_neq in Ec2.
    pose proof (sim_le _ _ H1) as Hle. rewrite Hp1 in Hle. unfold EsiRef.pos in Hle, Hlen. rewrite Hs1 in Hle, Hlen.
    assert (Hin : (poff (p ew) < length (seg segs (pseg (p ew))))%nat) by (destruct Hp as [_ [[??]|[??]]]; lia).
    destruct (sim_addbit ew1 (settle k r) (poff (p ew) - poff (s ew1)) (p ew) H1) as (ew2 & E2 & _ & Ep2 & H2);
      [lia | rewrite Hs1; lia | done | unfold EsiRef.pos; rewrite Hs1; lia | rewrite Hp1; done |].
    rewrite E2, Ep2, Hp1, Hptr. apply (Hfin ew2 _ H2); [congruence |]. lia.
  - rewrite Hp1, Hptr.
    assert (Es : s ew1 = p ew).
    { apply (pos_inj segs); [done | done |]. unfold EsiRef.pos. rewrite Hs1.
      apply andb_false_iff in Ec as [Ec|Ec].
      - apply Nat.ltb_ge in Ec. destruct Hp as [_ [[??]|[? ->]]]; [lia |].
        destruct Hs as [_ [[??]|[? ->]]]; [lia | done].
      - apply negb_false_iff, Nat.eqb_eq in Ec. lia. }
    apply (Hfin ew1 0%nat); [| done | rewrite Hlen, Es; lia].
    rewrite settle_0. destruct ew1. simpl in *. subst. exact H1.
Qed.

(** ** Reading and skipping *)

Lemma sim_deref ew r : sim ew r -> deref segs (p ew) = peek (rest r).
Proof. intros H. rewrite (deref_pos segs _ (sim_p _ _ H)), at_peek, (sim_rest _ _ H). done. Qed.
Lemma sim_inside ew r : sim ew r -> inside segs (p ew) = (0 <? length (rest r))%nat.
Proof.
  intros H. rewrite (inside_pos segs _ (sim_p _ _ H)), (sim_rest _ _ H), length_drop.
  apply eq_true_iff_eq. rewrite !Nat.ltb_lt. lia.
Qed.
Lemma sim_CMP ew r m c : sim ew r -> cstr m -> last m = Some c -> c ∈ bs ">-i:[" ->
  CMP segs (p ew) m = Some (starts (rest r) m).
Proof.
  intros H Hm Hl Hc. rewrite (sim_rest _ _ H).
  apply (CMP_spec segs full); [apply H | apply quiet_cstr; done | done |].
  eapply quiet_ne; eassumption.
Qed.

Lemma eat_over a r : (length (rest r) <= a)%nat -> eat a r = eat (length (rest r)) r.
Proof. intros H. unfold eat. rewrite !take_ge, !drop_ge by lia. done. Qed.

Lemma next_end str l : tail l = [] -> next str l = length l.
Proof. intros H. unfold next. rewrite H. done. Qed.
Lemma beyond_end str l : tail l = [] -> beyond str l = length l.
Proof. intros H. unfold beyond. rewrite H. done. Qed.
Lemma next_hit str l : tail l <> [] -> starts (tail l) str = true -> next str l = 1%nat.
Proof. intros H E. unfold next. destruct (tail l); [done |]. simpl. rewrite E. done. Qed.
Lemma beyond_hit str l : tail l <> [] -> starts (tail l) str = true -> beyond str l = S (length str).
Proof. intros H E. unfold beyond. destruct (tail l); [done |]. simpl. rewrite E. done. Qed.
Lemma next_more str l : tail l <> [] -> starts (tail l) str = false -> next str l = S (next str (tail l)).
Proof.
  intros H E. unfold next. destruct l as [|c [|d l]]; [done .. |]. simpl in *. rewrite E.
  destruct (find str l); done.
Qed.
Lemma beyond_more str l : tail l <> [] -> starts (tail l) str = false -> beyond str l = S (beyond str (tail l)).
Proof.
  intros H E. unfold beyond. destruct l as [|c [|d l]]; [done .. |]. simpl in *. rewrite E.
  destruct (find str l); done.
Qed.
Lemma rest_eat1 r : rest (eat 1 r) = tail (rest r).
Proof. destruct r as [? ? [] ? ? ?]; done. Qed.
Lemma starts_one c l : c <> 0 -> starts l [c] = (peek l =? c).
Proof.
  intros H. destruct l as [|d l]; simpl.
  - destruct c; done.
  - rewrite starts_cons. unfold starts. simpl. apply andb_true_r.
Qed.
Lemma tail_length_pos {A} (l : list A) : tail l <> [] <-> (0 <? length (tail l))%nat = true.
Proof. destruct (tail l); simpl; split; done. Qed.

Lemma sim_skip_to fuel stop ew r : sim ew r -> stop <> 0 -> (length (rest r) < fuel)%nat ->
  exists ew', skip_to segs fuel stop ew = Some ew' /\ sim ew' (eat (next [stop] (rest r)) r) /\ s ew' = s ew.
Proof.
  revert ew r. induction fuel as [|fuel IH]; intros ew r H Hs Hf; [lia |].
  pose proof (sim_N _ _ H) as H1. cbn [skip_to]. cbv zeta.
  rewrite (sim_deref _ _ H1), (sim_inside _ _ H1), <- (starts_one stop) by done. rewrite rest_eat1.
  destruct (decide (tail (rest r) = [])) as [Et|Et].
  - exists (N segs ew). rewrite Et, next_end by done. simpl. rewrite ?andb_false_r. split; [done |].
    split; [| done]. rewrite eat_over in H1; [done |].
    destruct (rest r) as [|? [|? ?]]; simpl in *; [lia | lia | done].
  - rewrite (proj1 (tail_length_pos _) Et), andb_true_r.
    destruct (starts (tail (rest r)) [stop]) eqn:Es; simpl.
    + exists (N segs ew). rewrite next_hit by done. done.
    + destruct (IH _ _ H1 Hs) as (ew' & E & H2 & H3).
      { rewrite rest_eat1. destruct (rest r); simpl in *; [done | lia]. }
      exists ew'. split; [exact E |]. rewrite eat_eat, rest_eat1 in H2.
      rewrite next_more by done. split; [exact H2 | exact H3].
Qed.

Lemma sim_skip_past fuel c0 c1 c2 ew r : sim ew r -> cstr [c0; c1; c2] -> c2 ∈ bs ">-i:[" ->
  (length (rest r) < fuel)%nat ->
  exists ew', skip_past segs fuel [c0; c1; c2] ew = Some ew' /\
    sim ew' (eat (beyond [c0; c1; c2] (rest r)) r) /\ s ew' = s ew.
Proof.
  intros H Hm Hc. revert ew r H. induction fuel as [|fuel IH]; intros ew r H Hf; [lia |].
  pose proof (sim_N _ _ H) as H1. cbn [skip_past]. cbv zeta.
  rewrite (sim_CMP _ _ _ c2 H1 Hm) by done. rewrite (sim_inside _ _ H1), (sim_deref _ _ H1), rest_eat1.
  assert (Eh : (if peek (tail (rest r)) =? peek [c0; c1; c2] then Some (starts (tail (rest r)) [c0; c1; c2])
    else Some false) = Some (starts (tail (rest r)) [c0; c1; c2])).
  { destruct (tail (rest r)) as [|d l]; simpl; [by destruct c0 |]. rewrite starts_cons.
    destruct (d =? c0); done. }
  rewrite Eh. clear Eh. destruct (decide (tail (rest r) = [])) as [Et|Et].
  - rewrite Et. simpl. exists (N segs ew). rewrite beyond_end by done. split; [done |]. split; [| done].
    rewrite eat_over in H1; [done |]. destruct (rest r) as [|? [|? ?]]; simpl in *; [lia | lia | done].
  - rewrite (proj1 (tail_length_pos _) Et).
    destruct (starts (tail (rest r)) [c0; c1; c2]) eqn:Es.
    + exists (N segs (N segs (N segs (N segs ew)))). rewrite beyond_hit by done.
      split; [done |]. split; [| done].
      pose proof (sim_N _ _ (sim_N _ _ (sim_N _ _ H1))) as H4. rewrite !eat_eat in H4. exact H4.
    + destruct (IH _ _ H1) as (ew' & E & H2 & H3).
      { rewrite rest_eat1. destruct (rest r); simpl in *; [done | lia]. }
      exists ew'. split; [exact E |]. rewrite eat_eat, rest_eat1 in H2.
      rewrite beyond_more by done. split; [exact H2 | exact H3].
Qed.

Lemma between_spec fuel x y : norm x -> norm y -> (pos x <= pos y)%nat -> (pos y - pos x < fuel)%nat ->
  between segs fuel x y = Some (take (pos y - pos x) (drop (pos x) B)).
Proof.
  revert x. induction fuel as [|fuel IH]; intros x Hx Hy Hle Hf; [lia |]. cbn [between].
  destruct ((pseg x =? pseg y)%nat && (poff x =? poff y)%nat) eqn:E.
  - apply andb_true_iff in E as [E1 E2]. apply Nat.eqb_eq in E1, E2.
    assert (Ep : pos x = pos y) by (unfold EsiRef.pos; congruence).
    rewrite Ep, Nat.sub_diag. done.
  - assert (Hne : pos x <> pos y).
    { intros Hc. apply (pos_inj segs) in Hc; [| done | done]. subst y. rewrite !Nat.eqb_refl in E. done. }
    pose proof (pos_le segs _ Hy) as HL.
    assert (En : pos (Nep segs x) = S (pos x)) by (rewrite (pos_Nep segs full) by done; lia).
    rewrite IH; [| apply (norm_Nep segs full); done | done | lia | lia].
    rewrite (deref_pos segs) by done. rewrite at_peek, En, drop_S_tail.
    assert (Hl : (0 < length (drop (pos x) B))%nat) by (rewrite length_drop; lia).
    destruct (drop (pos x) B) as [|c l]; simpl in *; [lia |].
    replace (pos y - pos x)%nat with (S (pos y - S (pos x)))%nat by lia. done.
Qed.
Lemma sim_between ew r : sim ew r -> between segs (S (body_len segs)) (s ew) (p ew) = Some (pend r).
Proof.
  intros H. rewrite (sim_pend _ _ H). pose proof (pos_le segs _ (sim_p _ _ H)).
  apply between_spec; try apply H. unfold body_len. lia.
Qed.

(** The start of what is open moves to where the reading is. *)
Lemma sim_discard ew r : sim ew r -> sim (set_s ew (p ew)) (discard r).
Proof.
  intros [Hs Hp Hle Hr Hd Ho Hrem Hi He Hk Ht].
  constructor; cbn [s p set_s esibits remflg incmt errors discard out pend rest rem inc errs]; try done.
  rewrite Nat.sub_diag. done.
Qed.
Lemma sim_put_inc ew r b : sim ew r -> sim (set_incmt ew b) (put_inc b r).
Proof. intros [Hs Hp Hle Hr Hd Ho Hrem Hi He Hk Ht]. constructor; done. Qed.
Lemma sim_put_rem ew r b : sim ew r -> sim (set_remflg ew b) (put_rem b r).
Proof. intros [Hs Hp Hle Hr Hd Ho Hrem Hi He Hk Ht]. constructor; done. Qed.
Lemma sim_err ew r e : sim ew r -> sim (esi_error ew e) (err e r).
Proof.
  intros [Hs Hp Hle Hr Hd Ho Hrem Hi He Hk Ht]. constructor; try done. simpl. congruence.
Qed.

(** ** Elements *)

(** Where the reference parser refuses a page, the program aborts now or at the
    check of the space at its end. *)
Definition agrees (m : option esi_work) (o : option page) : Prop :=
  match o with
  | Some r => exists ew, m = Some ew /\ sim ew r
  | None => match m with Some ew => 0 < slack ew | None => True end
  end.

Lemma agrees_ret ew r : sim ew r -> agrees (Some ew) (Some r).
Proof. intros H. exists ew. done. Qed.
Lemma agrees_bind m o f g : agrees m o -> (forall ew r, sim ew r -> agrees (f ew) (g r)) ->
  (forall ew ew', f ew = Some ew' -> grows ew ew') ->
  agrees (let? ew := m in f ew) (let? r := o in g r).
Proof.
  intros H Hf Hg. destruct o as [r|]; simpl in *.
  - destruct H as (ew & -> & H). apply Hf. done.
  - destruct m as [ew|]; [| done]. destruct (f ew) as [ew'|] eqn:E; [| done].
    apply Hg in E. unfold grows in E. lia.
Qed.

Lemma decode_nonempty val : decode val <> [].
Proof.
  unfold decode. cbv zeta. destruct (bool_decide _); [| by destruct val].
  unfold XMLentity. destruct (val ++ [0]) as [|c l] eqn:E; [by destruct val |]. cbn [length XMLentity_loop].
  destruct (entity (c :: l)) as [[? ?]|]; done.
Qed.
Lemma resolve_nonempty v h u : resolve url v = Some (h, u) -> v <> [] -> 0 < size_of (Some u).
Proof.
  unfold resolve. intros H Hv. cbn [size_of].
  destruct (_ && _).
  - destruct (until _ _) as [name path]. destruct path; simplify_eq. simpl. lia.
  - destruct (_ =? _); simplify_eq.
    + destruct u; [done | simpl; lia].
    + rewrite !length_app. simpl. lia.
Qed.

Lemma sim_addnone ew r : sim ew r -> sim (esi_addnone ew) r.
Proof.
  intros [Hs Hp Hle Hr Hd Ho Hrem Hi He Hk Ht]. constructor; try done.
  - simpl. rewrite items_app. unfold items at 2. simpl. rewrite app_nil_r. done.
  - unfold slack in *. simpl. rewrite stored_snoc. unfold bit_size. simpl. lia.
  - apply Forall_app. split; [done |]. repeat constructor.
Qed.

Lemma sim_include_src ew r val b h u : sim ew r -> last_bit ew = Some b -> include b = None ->
  resolve url (decode val) = Some (h, u) ->
  exists ew', include_src url ew val = Some ew' /\ sim ew' (emit (Incl h u) r) /\
    last_bit ew' = Some (Bit (verbatim b) h (Some u)).
Proof.
  intros H Hb Hn E. pose proof H as [Hs Hp Hle Hr Hd Ho Hrem Hi He Hk Ht].
  assert (Hh : host b = None).
  { rewrite (last_split _ _ Hb), Forall_app, Forall_singleton in Ht. apply Ht. done. }
  destruct (include_src url ew val) as [ew'|] eqn:Es.
  2: { unfold include_src in Es. fold (decode val) in Es. rewrite E, Hb in Es. done. }
  pose proof (include_src_slack url ew val ew' b Hb Es) as Hsl. rewrite Hn, Hh in Hsl. simpl in Hsl.
  exists ew'. split; [done |]. revert Es. unfold include_src. fold (decode val). rewrite E, Hb.
  replace (match h with Some h => Some h | None => host b end) with h by (rewrite Hh; destruct h; done).
  intros [= <-]. split; [| unfold last_bit; cbn [put_bit set_bits set_space esibits]; rewrite last_snoc; done].
  constructor; cbn [s p set_bits set_space put_bit esibits remflg incmt errors emit out pend rest rem inc errs];
    try done.
  - rewrite Ho. rewrite (last_split _ _ Hb) at 1. rewrite !items_app, !items_one. unfold bit_items.
    simpl. rewrite Hn, !app_nil_r, <- app_assoc. done.
  - rewrite Hsl. lia.
  - rewrite (last_split _ _ Hb), Forall_app in Ht. apply Forall_app. split; [apply Ht |].
    constructor; [intros [=] | constructor].
Qed.

Lemma sim_sources fuel (seen : bool) ew r l b : sim ew r -> last_bit ew = Some b ->
  (if seen then 0 < size_of (include b) else include b = None) ->
  agrees (include_loop url fuel ew l) (sources url fuel seen l r).
Proof.
  revert seen ew r l b. induction fuel as [|fuel IH]; intros seen ew r l b H Hb Hseen; simpl; [done |].
  destruct (esi_attrib l) as [| e | | l' name val]; simpl.
  { apply agrees_ret. done. }
  { apply agrees_ret, sim_err. done. }
  { done. }
  destruct (negb _); [apply (IH _ _ _ _ b); done |].
  destruct (_ =? _)%nat; [apply (IH _ _ _ _ b); [apply sim_err | |]; done |].
  destruct seen.
  - destruct (include_src url ew val) as [ew1|] eqn:E; [| done].
    destruct (include_loop url fuel ew1 l') as [ew2|] eqn:E2; [| done].
    apply include_loop_grows in E2. apply (include_src_slack url ew val ew1 b Hb) in E.
    pose proof (size_of_nonneg (host b)). pose proof (sim_slack _ _ H). unfold grows in E2. simpl. lia.
  - destruct (resolve url (decode val)) as [[h u]|] eqn:E.
    + destruct (sim_include_src ew r val b h u H Hb Hseen E) as (ew1 & E1 & H1 & Hb1). rewrite E1.
      apply (IH _ _ _ _ _ H1 Hb1). apply (resolve_nonempty _ _ _ E). apply decode_nonempty.
    + unfold include_src. fold (decode val). rewrite E. done.
Qed.

Lemma sim_handle_include ew r tag : sim ew r ->
  agrees (esi_handle_include url ew tag) (sources url (S (length tag)) false tag r).
Proof.
  intros H. unfold esi_handle_include. destruct (last_bit ew) as [b|] eqn:E.
  - destruct (bool_decide _) eqn:Eb.
    + apply bool_decide_eq_true in Eb. apply (sim_sources _ false _ _ _ b); done.
    + apply (sim_sources _ false _ _ _ (Bit [] None None)); [apply sim_addnone; done | | done].
      unfold last_bit. simpl. apply last_snoc.
  - apply (sim_sources _ false _ _ _ (Bit [] None None)); [apply sim_addnone; done | | done].
    unfold last_bit. simpl. apply last_snoc.
Qed.

#[local] Hint Resolve agrees_ret sim_err sim_put_rem sim_put_inc sim_discard sim_N sim_handle_include : esi.

Lemma sim_element ew r tag empty closing : sim ew r ->
  agrees (esi_element url ew tag empty closing) (element url tag empty closing r).
Proof.
  intros H. unfold esi_element, element. rewrite (sim_rem _ _ H).
  destruct (starts tag (bs "remove")).
  { destruct empty; [auto with esi |]. destruct closing; destruct (remflg ew); auto 6 with esi. }
  destruct (remflg ew); [auto with esi |].
  destruct (starts tag (bs "comment")); [destruct closing; [| destruct empty]; cbn [negb]; auto with esi |].
  destruct (starts tag (bs "include")); [| auto with esi].
  apply sim_handle_include. destruct closing; [| destruct empty]; cbn [negb]; auto with esi.
Qed.

Lemma find_lt str l k : find str l = Some k -> (k < length l)%nat.
Proof.
  revert k. induction l as [|d l IH]; intros k; simpl; [done |].
  destruct (starts _ _); [intros [= <-]; lia |]. destruct (find str l) as [j|]; simpl; [| done].
  intros [= <-]. specialize (IH j eq_refl). lia.
Qed.

Lemma sim_tag ew r closing : sim ew r ->
  agrees (parse_esi_tag segs url ew closing) (tag_ref url closing r).
Proof.
  intros H. unfold parse_esi_tag, tag_ref. cbv zeta.
  destruct (sim_flush ew r H) as (ew1 & -> & H1 & Es1 & _).
  destruct (sim_skip_to (S (body_len segs)) 62 ew1 (flush r) H1) as (ew2 & -> & H2 & Es2); [lia | |].
  { rewrite (sim_rest _ _ H1), length_drop. unfold body_len. lia. }
  rewrite (sim_inside _ _ H2). unfold next in H2 |- *.
  destruct (find [62] (tail (rest (flush r)))) as [k|] eqn:Ef.
  - assert (Hk : (S k < length (rest (flush r)))%nat).
    { apply find_lt in Ef. destruct (rest (flush r)); simpl in *; lia. }
    replace (0 <? length (rest (eat (S k) (flush r))))%nat with true.
    2: { symmetry. apply Nat.ltb_lt. unfold eat. cbn [rest]. rewrite length_drop. lia. }
    simpl negb. cbv iota.
    pose proof (sim_N _ _ H2) as H3. rewrite eat_eat, Nat.add_1_r in H3.
    rewrite (sim_between _ _ H3).
    destruct (tag_contents _ _) as [[tag empty]|]; [| done].
    eapply agrees_bind; [apply sim_element | |].
    + destruct (empty && closing); auto with esi.
    + auto with esi.
    + intros x y [= <-]. exact (Z.le_refl _).
  - replace (0 <? length (rest (eat (length (rest (flush r))) (flush r))))%nat with false.
    2: { symmetry. apply Nat.ltb_ge. unfold eat. cbn [rest]. rewrite drop_all. simpl. lia. }
    simpl negb. cbv iota.
    destruct (sim_flush _ _ H2) as (ew3 & -> & H3 & _ & _). auto with esi.
Qed.

Lemma starts_length l m : starts l m = true -> (length m <= length l)%nat.
Proof.
  unfold starts. intros H. apply bool_decide_eq_true in H. rewrite <- H, length_take. lia.
Qed.
Lemma unsplit_mark x y : norm x -> norm y -> starts (drop (pos x) B) (bs "<!--esi") = true ->
  pos y = Nat.min (length B) (7 + pos x) -> pseg y = pseg x.
Proof.
  intros Hx Hy Hst Ey. pose proof (starts_length _ _ Hst) as Hl. rewrite length_drop in Hl.
  change (length (bs "<!--esi")) with 7%nat in Hl.
  assert (HL : (pos y < length B)%nat).
  { destruct (decide (length B = pos x + 7)%nat) as [E|]; [exfalso | lia].
    apply (quiet_ne B (pos x) (bs "<!--esi") 105 Hquiet eq_refl); [apply loud; reflexivity |].
    unfold starts in Hst. apply bool_decide_eq_true in Hst.
    rewrite <- Hst, take_ge; [done |]. rewrite length_drop. simpl. lia. }
  assert (Hn : (pseg y < length segs)%nat) by (apply (pos_end segs); done).
  pose proof (pos_seg segs x y Hx Hy ltac:(lia)) as Hle.
  destruct (decide (pseg x = pseg y)) as [|Hne]; [done | exfalso].
  unfold unsplit in Hunsplit. rewrite forallb_forall in Hunsplit.
  specialize (Hunsplit (pseg y)). rewrite forallb_forall in Hunsplit.
  assert (Hi : In (pseg y) (seq 0 (length segs))) by (apply in_seq; lia).
  specialize (Hunsplit Hi (pos x)). rewrite Hst in Hunsplit.
  pose proof (pos_next segs x Hx ltac:(lia)) as H1.
  pose proof (start_mono segs (S (pseg x)) (pseg y) ltac:(lia) ltac:(lia)) as H2.
  assert (H3 : (start_of segs (pseg y) <= pos y)%nat) by (unfold EsiRef.pos; lia).
  rewrite (proj2 (Nat.ltb_lt (pos x) _)) in Hunsplit by lia.
  rewrite (proj2 (Nat.leb_le (start_of segs (pseg y)) _)) in Hunsplit by lia.
  discriminate Hunsplit. apply in_seq. lia.
Qed.

Lemma sim_comment ew r : sim ew r -> starts (rest r) (bs "<!--esi") = true ->
  agrees (parse_esi_comment segs ew)
    (if inc r then None else Some (put_inc true (discard (eat 7 (flush r))))).
Proof.
  intros H Hst. unfold parse_esi_comment.
  destruct (sim_flush ew r H) as (ew1 & -> & H1 & Es1 & Ep1). cbv zeta.
  pose proof (sim_N _ _ H1) as S1. pose proof (sim_N _ _ S1) as S2. pose proof (sim_N _ _ S2) as S3.
  pose proof (sim_N _ _ S3) as S4. pose proof (sim_N _ _ S4) as S5. pose proof (sim_N _ _ S5) as S6.
  pose proof (sim_N _ _ S6) as S7.
  set (ew2 := N segs (N segs (N segs (N segs (N segs (N segs ew1)))))) in *.
  assert (Ep2 : pos (p (N segs ew2)) = Nat.min (length B) (7 + pos (p ew1))).
  { subst ew2. unfold N. cbn [p set_p].
    rewrite !(pos_Nep segs full)
      by (repeat apply (norm_Nep segs full); apply (sim_p _ _ H1)). lia. }
  assert (Es2 : s (N segs ew2) = p ew1) by exact Es1.
  clearbody ew2. generalize dependent (N segs ew2). intros ew3 S7 Ep3 Es3.
  rewrite !eat_eat in S7. pose proof (sim_inc _ _ S7) as Hi. simpl in Hi. rewrite <- Hi.
  destruct (inc r); [done |]. simpl negb. cbv iota.
  pose proof (sim_p _ _ S7) as Hp3. pose proof (sim_p _ _ H1) as Hp1.
  assert (Hseg : pseg (p ew3) = pseg (p ew1)).
  { apply unsplit_mark; [done | done | | exact Ep3]. rewrite Ep1, <- (sim_rest _ _ H). exact Hst. }
  assert (Eptr : Ptr (pseg (p ew3)) (poff (p ew3)) (st (p ew1)) = p ew3).
  { rewrite (norm_st _ Hp1), <- Hseg. pose proof (norm_st _ Hp3) as E. destruct (p ew3).
    simpl in *. congruence. }
  cbn [p s set_incmt]. rewrite Es3, Eptr.
  exists (set_s (set_incmt ew3 true) (p ew3)). split; [done |].
  apply (sim_discard _ _ (sim_put_inc _ _ true S7)).
Qed.

Lemma sim_turn ew r : sim ew r ->
  agrees (parse_turn segs url esi_syntax ew) (turn_ref url esi_syntax r).
Proof.
  intros H. unfold parse_turn, turn_ref. rewrite (sim_deref _ _ H), <- (sim_inc _ _ H).
  pose proof (fun m c => sim_CMP ew r m c H) as HC.
  assert (Hm : forall m, m ∈ [bs "-->"; bs "<!--esi"; bs "<!--"; bs "</esi"; bs "<esi:"; bs "<![CDATA["] ->
    CMP segs (p ew) m = Some (starts (rest r) m)).
  { intros m Hm. rewrite !elem_of_cons in Hm.
    destruct Hm as [->|[->|[->|[->|[->|[->|Hm]]]]]]; [.. | by apply elem_of_nil in Hm];
      (eapply HC; [repeat constructor; done | reflexivity |
        apply loud; reflexivity]). }
  clear HC.
  assert (Hend : (if inc r && (peek (rest r) =? 45) then CMP segs (p ew) (bs "-->") else Some false)
    = Some (inc r && starts (rest r) (bs "-->"))).
  { rewrite Hm by (left). destruct (inc r); [| done]. simpl.
    destruct (rest r) as [|c l]; [done |]. cbn [peek]. change (bs "-->") with [45; 45; 62].
    rewrite starts_cons. destruct (c =? 45); done. }
  rewrite Hend. clear Hend.
  destruct (inc r && _).
  { destruct (sim_flush ew r H) as (ew1 & -> & H1 & _ & _). cbv zeta.
    pose proof (sim_N _ _ (sim_N _ _ (sim_N _ _ H1))) as H4. rewrite !eat_eat in H4.
    apply agrees_ret, sim_put_inc, (sim_discard _ _ H4). }
  destruct (negb _); [auto with esi |].
  rewrite !Hm by (rewrite !elem_of_cons; tauto). clear Hm.
  destruct (starts (rest r) (bs "<!--esi")) eqn:E1; [apply sim_comment; done |].
  assert (Hf : forall ew1 r1, sim ew1 r1 -> (length (rest r1) < S (body_len segs))%nat).
  { intros ew1 r1 H1. rewrite (sim_rest _ _ H1), length_drop. unfold body_len. lia. }
  destruct (starts (rest r) (bs "<!--")).
  { destruct (sim_skip_past (S (body_len segs)) 45 45 62 ew r H) as (ew1 & E & H1 & _);
      [repeat constructor; done | apply loud; reflexivity | apply (Hf _ _ H) |].
    unfold parse_comment. exists ew1. done. }
  destruct (starts (rest r) (bs "</esi")); [apply sim_tag; done |].
  destruct (starts (rest r) (bs "<esi:")); [apply sim_tag; done |].
  destruct (starts (rest r) (bs "<![CDATA[")).
  { unfold parse_cdata. destruct (sim_flush ew r H) as (ew1 & -> & H1 & _ & _).
    destruct (sim_skip_past (S (body_len segs)) 93 93 62 ew1 _ H1) as (ew2 & E & H2 & _);
      [repeat constructor; done | apply loud; reflexivity | apply (Hf _ _ H1) |].
    exists ew2. done. }
  pose proof (sim_N _ _ H) as H1. cbv zeta.
  destruct (Z.testbit _ _); [auto with esi |].
  destruct (sim_skip_to (S (body_len segs)) 62 _ _ H1) as (ew1 & E & H2 & _); [lia | apply (Hf _ _ H1) |].
  exists ew1. done.
Qed.

Lemma sim_loop fuel ew r : sim ew r ->
  agrees (parse_loop segs url esi_syntax fuel ew) (loop_ref url esi_syntax fuel r).
Proof.
  revert ew r. induction fuel as [|fuel IH]; intros ew r H; simpl; [done |].
  rewrite (sim_inside _ _ H). destruct (rest r) as [|c l] eqn:E; simpl length; cbn [Nat.ltb Nat.leb].
  - apply agrees_ret. done.
  - apply agrees_bind; [apply sim_turn; done | exact IH |].
    intros x y Hl. apply loop_grows in Hl. exact Hl.
Qed.

End Simulation.

(** ** The parser *)

Lemma final_bad segs ew ew' : 0 < slack ew -> esi_addpfx segs ew = Some ew' -> 0 < slack ew'.
Proof. intros H E. apply addpfx_grows in E. unfold grows in E. lia. Qed.

Lemma parse_ref segs url esi_syntax fuel :
  Forall (fun l => l <> []) segs -> quiet (concat segs) = true -> unsplit segs = true ->
  (length (concat segs) < fuel)%nat ->
  option_map (option_map (fun x => (items x.1, x.2))) (ESI_Parse segs url esi_syntax) =
  esi_ref url esi_syntax fuel (concat segs).
Proof.
  intros Hfull Hq Hu Hf. unfold ESI_Parse, esi_ref, contain_esi, body_len.
  rewrite bool_decide_false by (intros ->; done).
  destruct (_ && _); [done |]. destruct (negb _); [done |].
  rewrite (loop_fuel url esi_syntax fuel (S (length (concat segs)))) by (simpl; lia).
  assert (H0 : sim segs start (Page [] [] (concat segs) false false [])).
  { assert (Hn : norm segs (Ptr 0 0 0)) by (apply norm_start; [done | lia]).
    constructor; done. }
  pose proof (sim_loop segs url esi_syntax Hfull Hq Hu (S (length (concat segs))) _ _ H0) as H.
  unfold agrees in H. destruct (loop_ref _ _ _ _) as [r|].
  - destruct H as (ew & -> & H). destruct (sim_flush segs Hfull ew r H) as (ew1 & -> & H1 & _ & _).
    pose proof (sim_rem _ _ _ H1) as Er. pose proof (sim_inc _ _ _ H1) as Ei. cbv zeta.
    rewrite Er. assert (H2 : sim segs (if remflg ew1 then esi_error ew1 UnterminatedRemove else ew1)
      (if remflg ew1 then err UnterminatedRemove (flush r) else flush r))
      by (destruct (remflg ew1); [apply sim_err |]; done).
    pose proof (sim_inc _ _ _ H2) as Ei2. rewrite Ei2.
    set (ew2 := if remflg ew1 then _ else ew1) in *. set (r2 := if remflg ew1 then err _ _ else _) in *.
    assert (H3 : sim segs (if incmt ew2 then esi_error ew2 UnterminatedComment else ew2)
      (if incmt ew2 then err UnterminatedComment r2 else r2))
      by (destruct (incmt ew2); [apply sim_err |]; done).
    set (ew3 := if incmt ew2 then _ else ew2) in *. set (r3 := if incmt ew2 then _ else r2) in *.
    pose proof (sim_slack _ _ _ H3) as Hs. unfold slack in Hs.
    rewrite (proj2 (Z.eqb_eq _ _)) by lia. simpl.
    rewrite (sim_out _ _ _ H3), (sim_errs _ _ _ H3). done.
  - destruct (parse_loop _ _ _ _ _) as [ew|]; [| done].
    destruct (esi_addpfx segs ew) as [ew1|] eqn:E; [| done]. apply final_bad in E; [| done]. cbv zeta.
    assert (Hne : forall x, slack x = slack ew1 -> (stored_size (esibits x) =? space x) = false).
    { intros x Hx. unfold slack in *. apply Z.eqb_neq. lia. }
    rewrite Hne; [done |]. destruct (remflg ew1); destruct (incmt _); done.
Qed.


Definition quoted (s : list Z) : list Z := [34] ++ s ++ [34].
Definition sample : list Z :=
  bs "<p><esi:include src=" ++ quoted (bs "/x?a=1&amp;b") ++ bs "/>hello<!--esi <b>--> tail<esi:remove>x</esi:remove> " ++ [10].
Definition in_two (l : list Z) (k : nat) : list (list Z) := [take k l; drop k l].

(** ** Pages the parser does not survive *)

(** [CMP] goes on behind the end of its constant when the body ends with it. *)
Lemma body_ends_with_mark : ESI_Parse [bs "<esi:remove/><!--esi x -->"] [] 0 = None.
Proof. vm_compute. reflexivity. Qed.
(** A second [<!--esi] inside the first. *)
Lemma comment_in_comment : ESI_Parse [bs "<!--esi <!--esi x --> --> "] [] 0 = None.
Proof. vm_compute. reflexivity. Qed.
(** The element [</esi>] is shorter than what is taken off its front. *)
Lemma short_closing_tag : ESI_Parse [bs "<esi:remove/></esi> "] [] 0 = None.
Proof. vm_compute. reflexivity. Qed.
(** A source with a host and no path. *)
Lemma source_without_path :
  ESI_Parse [bs "<esi:include src=" ++ quoted (bs "http://www.example.com") ++ bs "/> "] [] 0 = None.
Proof. vm_compute. reflexivity. Qed.
(** Two sources in one element. *)
Lemma two_sources :
  ESI_Parse [bs "<esi:include src=" ++ quoted (bs "/a") ++ bs " src=" ++ quoted (bs "/b") ++ bs "/> "] [] 0 = None.
Proof. vm_compute. reflexivity. Qed.
(** A mark [<!--esi] that a segment ends in; the same page in one piece is fine. *)
Lemma split_mark :
  ESI_Parse (in_two (bs "<p><!--esi <b>--> ") 6) [] 0 = None /\
  is_Some (ESI_Parse [bs "<p><!--esi <b>--> "] [] 0).
Proof. split; [vm_compute; reflexivity | eexists; vm_compute; reflexivity]. Qed.
(** The quick scan does not see an element right behind another [<]. *)
Lemma scan_misses_element : contain_esi [bs "<<esi:remove>x</esi:remove> "] = false.
Proof. vm_compute. reflexivity. Qed.

End EsiSpec.
