(* ===== verification/EsiPage.v ===== *)
(** * EsiPage: what the authors of pages can rely on

    Pages built from text, markup, comments, includes and removed parts are
    delivered as they are meant, and the delivery of a page with its includes is
    one body in chunks. *)
From S2P Require Import Prelude Vct Strtoul Reader Fetch FetchSpec Esi EsiRef EsiSpec.

Module EsiPage.
Import Vct Esi EsiRef EsiSpec.

(** ** Pages *)

Inductive part :=
  | Text (t : list Z)
  | Markup (t : list Z)
  | Comment (t : list Z)
  | Include (name : option (list Z)) (path : list Z)
  | Remove (t : list Z).
Inductive node := Plain (x : part) | Hidden (l : list part).

Definition source (name : option (list Z)) (path : list Z) : list Z :=
  match name with Some h => bs "http://" ++ h ++ path | None => path end.
Definition print_part (x : part) : list Z :=
  match x with
  | Text t => t
  | Markup t => bs "<" ++ t ++ bs ">"
  | Comment t => bs "<!--" ++ t ++ bs "-->"
  | Include name path => bs "<esi:include src=" ++ [34] ++ source name path ++ [34] ++ bs "/>"
  | Remove t => bs "<esi:remove>" ++ t ++ bs "</esi:remove>"
  end.
Definition print_parts (l : list part) : list Z := concat (map print_part l).
Definition print_node (x : node) : list Z :=
  match x with Plain x => print_part x | Hidden l => bs "<!--esi" ++ print_parts l ++ bs "-->" end.
Definition print_page (l : list node) : list Z := concat (map print_node l).

(** What a page means. *)
Definition part_items (x : part) : list item :=
  match x with
  | Include name path => [Incl (option_map (fun h => bs "Host: " ++ h ++ [0]) name) (path ++ [0])]
  | Remove _ => []
  | _ => map Byte (print_part x)
  end.
Definition parts_items (l : list part) : list item := concat (map part_items l).
Definition node_items (x : node) : list item :=
  match x with Plain x => part_items x | Hidden l => parts_items l end.
Definition page_items (l : list node) : list item := concat (map node_items l).

(** Characters that mean something are not used in other places. *)
Definition no (stop l : list Z) : bool := forallb (fun c => negb (bool_decide (c ∈ stop))) l.
Definition part_ok (x : part) : bool :=
  match x with
  | Text t | Remove t => no [60; 62] t
  | Markup t =>
      no [60; 62] t && negb (length t =? 0)%nat &&
      forallb (fun m => negb (starts (t ++ [62]) m)) [bs "!--"; bs "/esi"; bs "esi:"; bs "![CDATA["]
  | Comment t => no [62] t && negb (starts (t ++ bs "-->") (bs "esi"))
  | Include name path =>
      no [0; 34; 38; 62] path && (peek path =? 47) &&
      match name with
      | Some h => no [0; 34; 38; 47; 62] h
      | None => true
      end
  end.
Definition node_ok (x : node) : bool :=
  match x with Plain x => part_ok x | Hidden l => forallb part_ok l end.
Definition page_ok (l : list node) : bool := forallb node_ok l.

Lemma no_spec stop l : no stop l = true <-> forall c, c ∈ l -> c ∉ stop.
Proof.
  unfold no. rewrite forallb_forall. split; intros H c Hc.
  - apply list_elem_of_In in Hc. specialize (H c Hc). apply negb_true_iff, bool_decide_eq_false in H. done.
  - apply list_elem_of_In in Hc. apply negb_true_iff, bool_decide_eq_false. auto.
Qed.
Lemma no_not stop l c : no stop l = true -> c ∈ stop -> c ∉ l.
Proof. intros H Hc Hl. apply (proj1 (no_spec stop l) H c Hl Hc). Qed.

Lemma not_in (c : Z) (l : list Z) : bool_decide (c ∈ l) = false -> c ∉ l.
Proof. apply bool_decide_eq_false. Qed.

(** ** Runs of the reference parser *)

Section Runs.
Context (url : list Z) (esi_syntax : Z).
Context (Hsyn : Z.testbit esi_syntax 1 = false).
Notation turn_ref := (turn_ref url esi_syntax).
Notation loop_ref := (loop_ref url esi_syntax).

Definition goes (r r' : page) : Prop := exists n, forall f, loop_ref (n + f) r = loop_ref f r'.
Lemma goes_refl r : goes r r.
Proof. exists 0%nat. done. Qed.
Lemma goes_trans r1 r2 r3 : goes r1 r2 -> goes r2 r3 -> goes r1 r3.
Proof.
  intros [n H] [m H']. exists (n + m)%nat. intros f. rewrite <- Nat.add_assoc, H, H'. done.
Qed.
Lemma goes_turn r r' : rest r <> [] -> turn_ref r = Some r' -> goes r r'.
Proof. intros Hr E. exists 1%nat. intros f. simpl. destruct (rest r); [done |]. rewrite E. done. Qed.
#[local] Instance goes_preorder : PreOrder goes.
Proof. split; [exact goes_refl | exact goes_trans]. Qed.

(** Everything that has become text. *)
Definition settled (r : page) : list item := out r ++ map Byte (pend r).
Definition at_rest (X : list Z) (b : bool) (es : list esi_err) (its : list item) (r : page) : Prop :=
  rest r = X /\ rem r = false /\ inc r = b /\ errs r = es /\ settled r = its.

Lemma settled_flush r : rem r = false -> settled (flush r) = settled r.
Proof. intros H. unfold settled, flush. simpl. rewrite H, app_nil_r. done. Qed.
Lemma eat_app a X r : rest r = a ++ X -> eat (length a) r = Page (out r) (pend r ++ a) X (rem r) (inc r) (errs r).
Proof. intros H. unfold eat. rewrite H, take_app_length, drop_app_length. done. Qed.

(** What comes next does not complete [-->] with the text before it. *)
Definition calm (X : list Z) : Prop := peek X <> 62 /\ (peek X = 45 -> peek (tail X) <> 62).

Lemma text_turn r c X : rest r = c :: X -> c <> 60 -> calm X -> turn_ref r = Some (eat 1 r).
Proof.
  intros E Hc [H1 H2]. unfold EsiRef.turn_ref. rewrite E.
  assert (Hs : starts (c :: X) (bs "-->") = false).
  { change (bs "-->") with [45; 45; 62]. rewrite starts_cons. destruct (c =? 45); [| done].
    destruct X as [|d [|e X]]; try done; rewrite ?starts_cons; simpl in *.
    - unfold starts. simpl. rewrite andb_false_r. done.
    - destruct (Z.eqb_spec d 45) as [->|]; [| done]. simpl. specialize (H2 eq_refl).
      rewrite (proj2 (Z.eqb_neq e 62)) by done. done. }
  rewrite Hs, andb_false_r. cbn [peek]. rewrite (proj2 (Z.eqb_neq c 60)) by done. done.
Qed.

Lemma calm_cons c X : c <> 62 -> calm X -> calm (c :: X).
Proof. intros H [H1 H2]. split; simpl; [done |]. intros _. exact H1. Qed.
Lemma calm_app t X : no [60; 62] t = true -> calm X -> calm (t ++ X).
Proof.
  intros H HX. induction t as [|c t IH]; [done |]. simpl. apply calm_cons.
  - rewrite no_spec in H. specialize (H c ltac:(left)). set_solver.
  - apply IH. simpl in H. apply andb_true_iff in H. apply H.
Qed.

(** Text becomes open text, byte by byte. *)
Lemma text_goes t X r : rest r = t ++ X -> no [60; 62] t = true -> calm X -> goes r (eat (length t) r).
Proof.
  revert r. induction t as [|c t IH]; intros r E Hn HX.
  - unfold eat. simpl. rewrite app_nil_r. destruct r; apply goes_refl.
  - assert (Hc : c <> 60) by (rewrite no_spec in Hn; specialize (Hn c ltac:(left)); set_solver).
    simpl in Hn. apply andb_true_iff in Hn as [_ Hn].
    apply (goes_trans r (eat 1 r)).
    { apply goes_turn; [rewrite E; done |]. apply (text_turn r c (t ++ X)); [exact E | exact Hc |].
      apply calm_app; done. }
    assert (E1 : rest (eat 1 r) = t ++ X) by (unfold eat; simpl; rewrite E; done).
    pose proof (IH _ E1 Hn HX) as H. rewrite eat_eat in H. exact H.
Qed.
Lemma text_at_rest t X b es its r : at_rest (t ++ X) b es its r -> no [60; 62] t = true -> calm X ->
  exists r', goes r r' /\ at_rest X b es (its ++ map Byte t) r'.
Proof.
  intros (E & H2 & H3 & H4 & H5) Hn HX. exists (eat (length t) r).
  split; [apply (text_goes t X r E Hn HX) |]. rewrite (eat_app t X) by done.
  repeat split; try done. unfold settled in *. simpl. rewrite map_app, app_assoc, H5. done.
Qed.

(** ** Where things end *)

Lemma find_one c a X : c <> 0 -> c ∉ a -> find [c] (a ++ c :: X) = Some (length a).
Proof.
  intros Hc. induction a as [|d a IH]; intros Ha; cbn [app find].
  - rewrite starts_one by done. cbn [peek]. rewrite Z.eqb_refl. done.
  - apply not_elem_of_cons in Ha as [Hd Ha]. rewrite starts_one by done. cbn [peek].
    rewrite (proj2 (Z.eqb_neq d c)) by done. rewrite IH by done. done.
Qed.
Lemma find_end a X : 62 ∉ a -> find (bs "-->") (a ++ bs "-->" ++ X) = Some (length a).
Proof.
  change (bs "-->") with [45; 45; 62]. cbn [app]. induction a as [|d a IH]; intros Ha; [done |].
  apply not_elem_of_cons in Ha as [Hd Ha]. cbn [app find]. rewrite IH by done.
  rewrite starts_cons. destruct (d =? 45); [simpl | done].
  destruct a as [|e [|g a]]; cbn [app]; [done | rewrite starts_cons; destruct (e =? 45); done |].
  rewrite starts_cons. destruct (e =? 45); [simpl | done]. rewrite starts_cons.
  rewrite !not_elem_of_cons in Ha. rewrite (proj2 (Z.eqb_neq g 62)) by (intros ->; tauto). done.
Qed.
Lemma starts_stop c m : c ∉ m -> forall t X, starts (t ++ c :: X) m = starts (t ++ [c]) m.
Proof.
  induction m as [|d m IH]; intros Hc t X; [done |].
  apply not_elem_of_cons in Hc as [Hd Hc]. destruct t as [|e t]; cbn [app]; rewrite !starts_cons.
  - rewrite (proj2 (Z.eqb_neq c d)) by done. done.
  - rewrite IH by done. done.
Qed.
Lemma starts_shorter l a b : starts l (a ++ b) = true -> starts l a = true.
Proof.
  unfold starts. rewrite !bool_decide_eq_true. intros H. apply (f_equal (take (length a))) in H.
  rewrite take_take, length_app, Nat.min_l, take_app_length in H by lia. exact H.
Qed.

Lemma lt_turn r Y : rest r = 60 :: Y ->
  turn_ref r = 
  if starts Y (bs "!--esi") then
    if inc r then None else Some (put_inc true (discard (eat 7 (flush r))))
  else if starts Y (bs "!--") then Some (eat (beyond (bs "-->") (60 :: Y)) r)
  else if starts Y (bs "/esi") then tag_ref url true r
  else if starts Y (bs "esi:") then tag_ref url false r
  else if starts Y (bs "![CDATA[") then
    let r := flush r in Some (eat (beyond (bs "]]>") (rest r)) r)
  else let r := eat 1 r in Some (eat (next [62] (rest r)) r).
Proof.
  intros E. unfold EsiRef.turn_ref. rewrite E, Hsyn.
  change (bs "-->") with (45 :: bs "->"). change (bs "<!--esi") with (60 :: bs "!--esi").
  change (bs "<!--") with (60 :: bs "!--"). change (bs "</esi") with (60 :: bs "/esi").
  change (bs "<esi:") with (60 :: bs "esi:"). change (bs "<![CDATA[") with (60 :: bs "![CDATA[").
  rewrite !starts_cons. change (60 =? 45) with false. change (60 =? 60) with true. cbn [andb].
  rewrite andb_false_r. cbn [peek negb Z.eqb Pos.eqb]. done.
Qed.

(** One part of a page is read. *)
Definition reads (text : list Z) (its : list item) : Prop := forall X b es pre r,
  calm X -> at_rest (text ++ X) b es pre r ->
  exists r', goes r r' /\ at_rest X b es (pre ++ its) r'.

Lemma reads_text t : no [60; 62] t = true -> reads t (map Byte t).
Proof. intros H X b es pre r HX Hr. apply (text_at_rest t X b es pre r Hr H HX). Qed.

Lemma markup_goes t X r : part_ok (Markup t) = true -> calm X -> rest r = 60 :: t ++ 62 :: X ->
  goes r (eat (2 + length t) r).
Proof.
  simpl. intros H HX E. rewrite !andb_true_iff in H. destruct H as [[Ht Hl] (H1 & H2 & H3 & H4 & _)].
  rewrite negb_true_iff in Hl, H1, H2, H3, H4.
  apply (goes_trans r (eat (1 + length t) r)).
  - apply goes_turn; [rewrite E; done |]. rewrite (lt_turn r _ E).
    assert (Hst : forall m, 62 ∉ m -> starts (t ++ [62]) m = false -> starts (t ++ 62 :: X) m = false).
    { intros m Hm Hf. rewrite starts_stop by done. exact Hf. }
    assert (H0 : starts (t ++ 62 :: X) (bs "!--esi") = false).
    { apply not_true_is_false. intros Es. change (bs "!--esi") with (bs "!--" ++ bs "esi") in Es.
      apply starts_shorter in Es. rewrite starts_stop in Es by (apply not_in; reflexivity). congruence. }
    rewrite H0, !Hst by (done || (apply not_in; reflexivity)). cbv zeta. rewrite eat_eat. do 2 f_equal.
    f_equal. rewrite rest_eat1, E. cbn [tail]. destruct t as [|c t]; [done |]. unfold next. cbn [app tail].
    rewrite find_one; [done | done |]. simpl in Ht. apply andb_true_iff in Ht as [_ Ht].
    apply (no_not _ _ _ Ht). set_solver.
  - assert (Er : rest (eat (1 + length t) r) = 62 :: X).
    { unfold eat. cbn [rest]. rewrite E. simpl. rewrite drop_app_length. done. }
    assert (Hne : rest (eat (1 + length t) r) <> []) by (rewrite Er; done).
    assert (Hg : goes (eat (1 + length t) r) (eat 1 (eat (1 + length t) r))).
    { apply (goes_turn _ _ Hne), (text_turn _ 62 X Er); [done | exact HX]. }
    rewrite eat_eat, Nat.add_1_r in Hg. exact Hg.
Qed.

(** What is eaten as a whole is text. *)
Lemma eaten_at_rest a X b es pre r : at_rest (a ++ X) b es pre r ->
  at_rest X b es (pre ++ map Byte a) (eat (length a) r).
Proof.
  intros (E & H2 & H3 & H4 & H5). rewrite (eat_app a X) by done. repeat split; try done.
  unfold settled in *. simpl. rewrite map_app, app_assoc, H5. done.
Qed.
Lemma reads_markup t : part_ok (Markup t) = true -> reads (print_part (Markup t)) (map Byte (print_part (Markup t))).
Proof.
  intros H X b es pre r HX Hr. exists (eat (length (print_part (Markup t))) r).
  split; [| apply eaten_at_rest; exact Hr]. destruct Hr as [E _]. simpl in E.
  rewrite <- app_assoc in E. replace (length (print_part (Markup t))) with (2 + length t)%nat.
  - apply (markup_goes t X); [done | done | exact E].
  - simpl. rewrite length_app. simpl. lia.
Qed.
Lemma reads_comment t : part_ok (Comment t) = true -> reads (print_part (Comment t)) (map Byte (print_part (Comment t))).
Proof.
  intros H X b es pre r HX Hr. exists (eat (length (print_part (Comment t))) r).
  split; [| apply eaten_at_rest; exact Hr]. destruct Hr as [E _]. cbn [part_ok] in H.
  apply andb_true_iff in H as [Ht He]. apply negb_true_iff in He.
  set (Y := bs "!--" ++ t ++ bs "-->" ++ X).
  assert (EY : rest r = 60 :: Y).
  { rewrite E. unfold Y. cbn [print_part]. rewrite <- !app_assoc. done. }
  apply goes_turn; [rewrite EY; done |]. rewrite (lt_turn r Y EY).
  assert (E1 : starts Y (bs "!--esi") = false).
  { change Y with (33 :: 45 :: 45 :: t ++ bs "-->" ++ X).
    change (bs "!--esi") with (33 :: 45 :: 45 :: bs "esi"). rewrite !starts_cons. cbn [Z.eqb Pos.eqb andb].
    change (bs "-->" ++ X) with ([45; 45] ++ 62 :: X). rewrite app_assoc, starts_stop.
    - rewrite <- app_assoc. exact He.
    - apply not_in. reflexivity. }
  rewrite E1. assert (E2 : starts Y (bs "!--") = true) by done. rewrite E2.
  do 2 f_equal. unfold beyond. cbn [tail].
  assert (E3 : find (bs "-->") Y = Some (3 + length t)%nat).
  { unfold Y. rewrite app_assoc, find_end; [rewrite length_app; done |].
    rewrite not_elem_of_app. split; [apply not_in; reflexivity |]. apply (no_not _ _ _ Ht). set_solver. }
  rewrite E3. cbn [print_part]. rewrite !length_app. simpl. lia.
Qed.

(** ** Elements *)

Lemma tag_eval closing body X r : rest r = 60 :: body ++ 62 :: X -> 62 ∉ body ->
  tag_ref url closing r =
  let? (tag, empty) := tag_contents (60 :: body ++ [62]) closing in
  let r := Page (out (flush r)) (60 :: body ++ [62]) X (rem r) (inc r) (errs r) in
  let r := if empty && closing then err EmptyAndClosing r else r in
  let? r := element url tag empty closing r in
  Some (discard r).
Proof.
  intros E Hb. unfold tag_ref. cbv zeta. change (rest (flush r)) with (rest r). rewrite E. cbn [tail].
  rewrite find_one by done.
  replace (S (S (length body))) with (length (60 :: body ++ [62]))
    by (simpl; rewrite length_app; simpl; lia).
  rewrite (eat_app _ X) by (cbn [flush rest]; rewrite E, <- app_comm_cons, <- app_assoc; done).
  done.
Qed.

Lemma until_end (stop : Z -> bool) a c X : (forall d, d ∈ a -> stop d = false) -> stop c = true ->
  until stop (a ++ c :: X) = (a, c :: X).
Proof.
  intros Ha Hc. induction a as [|d a IH]; cbn [app until]; [rewrite Hc; done |].
  rewrite Ha by (left). rewrite IH; [done |]. intros e He. apply Ha. right. exact He.
Qed.

Lemma attrib_src v : 34 ∉ v -> esi_attrib (bs " src=" ++ 34 :: v ++ [34]) = AVal [] (bs "src") v.
Proof.
  intros Hv. unfold esi_attrib.
  change (bs " src=" ++ 34 :: v ++ [34]) with (32 :: 115 :: 114 :: 99 :: 61 :: 34 :: v ++ [34]).
  rewrite bool_decide_false by done.
  change (until (fun c => negb (isspace c)) (32 :: 115 :: 114 :: 99 :: 61 :: 34 :: v ++ [34]))
    with ([32], 115 :: 114 :: 99 :: 61 :: 34 :: v ++ [34]). cbv iota beta.
  change (negb (vct_isxmlnamestart (schar 115))) with false. cbv iota.
  change (until _ (115 :: 114 :: 99 :: 61 :: 34 :: v ++ [34])) with (bs "src", 61 :: 34 :: v ++ [34]).
  cbv iota beta. change (isspace 61) with false. change (61 =? 61) with true.
  change (isspace 34) with false. change (34 =? 34) with true. cbn [negb]. cbv iota.
  rewrite (until_end (fun c => c =? 34) v 34 []).
  - done.
  - intros d Hd. apply Z.eqb_neq. intros ->. done.
  - done.
Qed.

Lemma c_str_zero v : 0 ∉ v -> c_str (v ++ [0]) = v.
Proof.
  induction v as [|c v IH]; intros H; [done |]. apply not_elem_of_cons in H as [Hc H]. simpl.
  rewrite (proj2 (Z.eqb_neq c 0)) by done. rewrite IH by done. done.
Qed.
Lemma decode_same v : no [0; 34; 38; 62] v = true -> decode v = v ++ [0].
Proof.
  intros H. unfold decode. cbv zeta. rewrite c_str_zero by (apply (no_not _ _ _ H); set_solver).
  rewrite bool_decide_false; [done |]. apply (no_not _ _ _ H). set_solver.
Qed.

Lemma no_app stop a b : no stop (a ++ b) = no stop a && no stop b.
Proof. apply forallb_app. Qed.
Lemma source_no name path : part_ok (Include name path) = true -> no [0; 34; 38; 62] (source name path) = true.
Proof.
  simpl. intros H. rewrite !andb_true_iff in H. destruct H as [[Hp _] Hn].
  destruct name as [h|]; [| exact Hp]. unfold source. rewrite !no_app, Hp.
  assert (Hh : no [0; 34; 38; 62] h = true).
  { rewrite no_spec in *. intros c Hc Hin. apply (Hn c Hc). set_solver. }
  rewrite Hh. done.
Qed.
Lemma resolve_source name path : part_ok (Include name path) = true ->
  resolve url (decode (source name path)) =
  Some (option_map (fun h => bs "Host: " ++ h ++ [0]) name, path ++ [0]).
Proof.
  intros H. rewrite decode_same by (apply source_no; done).
  simpl in H. rewrite !andb_true_iff in H. destruct H as [[Hp Hs] Hn]. apply Z.eqb_eq in Hs.
  destruct path as [|c path]; [done |]. simpl in Hs. subst c. unfold resolve.
  destruct name as [h|]; cbn [source option_map].
  - rewrite <- !app_assoc. change (bs "http://") with [104; 116; 116; 112; 58; 47; 47].
    rewrite bool_decide_true by done. rewrite andb_true_r.
    rewrite (proj2 (Nat.ltb_lt _ _)) by (rewrite !length_app; simpl; lia).
    change (drop 7 ([104; 116; 116; 112; 58; 47; 47] ++ h ++ (47 :: path) ++ [0])) with (h ++ 47 :: (path ++ [0])).
    rewrite until_end; [done | | done].
    intros d Hd. apply Z.eqb_neq. intros ->. apply (no_not _ _ 47 Hn); [set_solver | done].
  - rewrite bool_decide_false by done. rewrite andb_false_r. done.
Qed.

Lemma sources_one name path r : part_ok (Include name path) = true ->
  sources url (S (length (bs " src=" ++ 34 :: source name path ++ [34]))) false
    (bs " src=" ++ 34 :: source name path ++ [34]) r =
  Some (emit (Incl (option_map (fun h => bs "Host: " ++ h ++ [0]) name) (path ++ [0])) r).
Proof.
  intros H. pose proof (source_no name path H) as Hn. cbn [sources].
  rewrite attrib_src by (apply (no_not _ _ _ Hn); set_solver).
  rewrite bool_decide_true by done. cbn [negb]. cbv iota.
  assert (Hl : (length (source name path) =? 0)%nat = false).
  { apply Nat.eqb_neq. simpl in H. rewrite !andb_true_iff in H. destruct H as [[_ Hs] _].
    destruct path; [done |]. destruct name; simpl; rewrite ?length_app; simpl; lia. }
  rewrite Hl, resolve_source by done. rewrite length_app. simpl. done.
Qed.

Lemma reads_include name path : part_ok (Include name path) = true ->
  reads (print_part (Include name path)) (part_items (Include name path)).
Proof.
  intros H X b es pre r HX (E & H2 & H3 & H4 & H5). pose proof (source_no name path H) as Hn.
  set (S := source name path) in *.
  set (body := bs "esi:include src=" ++ 34 :: S ++ [34; 47]).
  assert (EY : rest r = 60 :: body ++ 62 :: X).
  { rewrite E. unfold body. cbn [print_part]. fold S. rewrite <- !app_assoc. cbn [app].
    rewrite <- !app_assoc. done. }
  assert (Hb : 62 ∉ body).
  { unfold body. rewrite not_elem_of_app, not_elem_of_cons, not_elem_of_app.
    split; [apply not_in; reflexivity |]. split; [done |].
    split; [apply (no_not _ _ _ Hn); set_solver | apply not_in; reflexivity]. }
  set (r1 := Page (out (flush r)) (60 :: body ++ [62]) X (rem r) (inc r) (errs r)).
  exists (discard (emit (Incl (option_map (fun h => bs "Host: " ++ h ++ [0]) name) (path ++ [0])) r1)). split.
  - apply goes_turn; [rewrite EY; done |]. rewrite (lt_turn r _ EY).
    change (starts (body ++ 62 :: X) (bs "!--esi")) with false.
    change (starts (body ++ 62 :: X) (bs "!--")) with false.
    change (starts (body ++ 62 :: X) (bs "/esi")) with false.
    change (starts (body ++ 62 :: X) (bs "esi:")) with true. cbv iota.
    rewrite (tag_eval false body X r EY Hb). fold r1.
    assert (Et : tag_contents (60 :: body ++ [62]) false = Some (bs "include src=" ++ 34 :: S ++ [34], true)).
    { unfold tag_contents. cbn [tail]. rewrite removelast_last.
      assert (Eb : body = (bs "esi:include src=" ++ 34 :: S ++ [34]) ++ [47]).
      { unfold body. rewrite <- app_assoc. cbn [app]. rewrite <- app_assoc. done. }
      rewrite Eb, last_snoc, bool_decide_true by done. rewrite removelast_last. done. }
    rewrite Et. cbn [andb]. cbv zeta iota beta. unfold element.
    assert (Hr1 : rem r1 = false) by exact H2. rewrite Hr1.
    change (starts (bs "include src=" ++ 34 :: S ++ [34]) (bs "remove")) with false.
    change (starts (bs "include src=" ++ 34 :: S ++ [34]) (bs "comment")) with false.
    change (starts (bs "include src=" ++ 34 :: S ++ [34]) (bs "include")) with true. cbn [negb]. cbv iota.
    change (drop 7 (bs "include src=" ++ 34 :: S ++ [34])) with (bs " src=" ++ 34 :: S ++ [34]).
    unfold S. rewrite sources_one by done. done.
  - unfold r1. repeat split; try done. unfold settled in *. simpl. rewrite H2, app_nil_r, H5. done.
Qed.

Lemma reads_remove t : part_ok (Remove t) = true -> reads (print_part (Remove t)) [].
Proof.
  intros H X b es pre r HX (E & H2 & H3 & H4 & H5). cbn [part_ok] in H.
  set (r1 := Page (out (flush r)) [] (t ++ bs "</esi:remove>" ++ X) true (inc r) (errs r)).
  set (r2 := eat (length t) r1).
  exists (Page (out (flush r)) [] X false (inc r) (errs r)). split.
  - apply (goes_trans r r1); [| apply (goes_trans r1 r2)].
    + assert (EY : rest r = 60 :: bs "esi:remove" ++ 62 :: (t ++ bs "</esi:remove>" ++ X)).
      { rewrite E. cbn [print_part]. rewrite <- !app_assoc. done. }
      apply goes_turn; [rewrite EY; done |]. rewrite (lt_turn r _ EY). cbn [app].
      match goal with |- context [starts ?l _] => set (Y := l) end.
      change (starts Y (bs "!--esi")) with false. change (starts Y (bs "!--")) with false.
      change (starts Y (bs "/esi")) with false. change (starts Y (bs "esi:")) with true. cbv iota.
      rewrite (tag_eval false (bs "esi:remove") _ r EY) by (apply not_in; reflexivity).
      change (tag_contents (60 :: bs "esi:remove" ++ [62]) false) with (Some (bs "remove", false)).
      cbn [andb]. cbv zeta iota beta. unfold element.
      change (starts (bs "remove") (bs "remove")) with true. cbn [rem]. rewrite H2. done.
    + apply (text_goes t (bs "</esi:remove>" ++ X)); [done | exact H |].
      split; done.
    + assert (EY : rest r2 = 60 :: bs "/esi:remove" ++ 62 :: X).
      { unfold r2. rewrite (eat_app t (bs "</esi:remove>" ++ X)) by done. done. }
      apply goes_turn; [rewrite EY; done |]. rewrite (lt_turn r2 _ EY). cbn [app].
      match goal with |- context [starts ?l _] => set (Y := l) end.
      change (starts Y (bs "!--esi")) with false. change (starts Y (bs "!--")) with false.
      change (starts Y (bs "/esi")) with true. cbv iota.
      rewrite (tag_eval true (bs "/esi:remove") _ r2 EY) by (apply not_in; reflexivity).
      change (tag_contents (60 :: bs "/esi:remove" ++ [62]) true) with (Some (bs "remove", false)).
      cbn [andb]. cbv zeta iota beta. unfold element.
      change (starts (bs "remove") (bs "remove")) with true. cbn [rem].
      change (rem r2) with true. cbv iota. done.
  - repeat split; try done. unfold settled in *. simpl. rewrite H2, !app_nil_r. exact H5.
Qed.

Lemma reads_part x : part_ok x = true -> reads (print_part x) (part_items x).
Proof.
  destruct x as [t|t|t|name path|t].
  - apply reads_text.
  - apply reads_markup.
  - apply reads_comment.
  - apply reads_include.
  - apply reads_remove.
Qed.

(** ** Parts in a row *)

Lemma calm_lt Y : calm (60 :: Y).
Proof. split; done. Qed.
Lemma calm_part x X : part_ok x = true -> calm X -> calm (print_part x ++ X).
Proof.
  intros H HX. destruct x as [t|t|t|name path|t]; cbn [print_part];
    [apply calm_app; done | apply calm_lt ..].
Qed.
Lemma calm_parts l X : forallb part_ok l = true -> calm X -> calm (print_parts l ++ X).
Proof.
  intros H HX. induction l as [|x l IH]; [done |]. simpl in H. apply andb_true_iff in H as [Hx Hl].
  unfold print_parts. simpl. rewrite <- app_assoc. apply calm_part; [done | apply IH; done].
Qed.
Lemma calm_page l : page_ok l = true -> calm (print_page l).
Proof.
  intros H. induction l as [|x l IH]; [done |]. simpl in H. apply andb_true_iff in H as [Hx Hl].
  unfold print_page. simpl. destruct x as [x|l']; [apply calm_part; [done | apply IH; done] | apply calm_lt].
Qed.

Lemma reads_parts l : forallb part_ok l = true -> reads (print_parts l) (parts_items l).
Proof.
  induction l as [|x l IH]; intros H X b es pre r HX Hr.
  - exists r. split; [apply goes_refl |]. unfold parts_items. simpl. rewrite app_nil_r. exact Hr.
  - simpl in H. apply andb_true_iff in H as [Hx Hl].
    unfold print_parts in Hr. simpl in Hr. rewrite <- app_assoc in Hr.
    destruct (reads_part x Hx (print_parts l ++ X) b es pre r) as (r1 & G1 & A1);
      [apply calm_parts; done | exact Hr |].
    destruct (IH Hl X b es _ r1 HX A1) as (r2 & G2 & A2).
    exists r2. split; [apply (goes_trans _ _ _ G1 G2) |]. unfold parts_items. simpl. rewrite app_assoc. exact A2.
Qed.

Lemma reads_node x X es pre r : node_ok x = true -> calm X -> at_rest (print_node x ++ X) false es pre r ->
  exists r', goes r r' /\ at_rest X false es (pre ++ node_items x) r'.
Proof.
  intros H HX Hr. destruct x as [x|l]; [apply (reads_part x H X false es pre r HX Hr) |].
  cbn [node_ok print_node node_items] in *. destruct Hr as (E & H2 & H3 & H4 & H5).
  set (r1 := put_inc true (discard (eat 7 (flush r)))).
  assert (E1 : rest r = 60 :: bs "!--esi" ++ print_parts l ++ bs "-->" ++ X).
  { rewrite E. rewrite <- !app_assoc. done. }
  assert (G1 : goes r r1).
  { apply goes_turn; [rewrite E1; done |]. rewrite (lt_turn r _ E1), H3. done. }
  assert (A1 : at_rest (print_parts l ++ bs "-->" ++ X) true es pre r1).
  { unfold r1. repeat split; try done; [simpl; rewrite E1; done |]. unfold settled in *. simpl.
    rewrite H2, app_nil_r. exact H5. }
  assert (HC : calm (bs "-->" ++ X)) by done.
  destruct (reads_parts l H (bs "-->" ++ X) true es pre r1 HC A1) as (r2 & G2 & F1 & F2 & F3 & F4 & F5).
  exists (put_inc false (discard (eat 3 (flush r2)))). split.
  - apply (goes_trans _ _ _ G1), (goes_trans _ _ _ G2).
    apply goes_turn; [rewrite F1; done |]. unfold EsiRef.turn_ref. rewrite F1, F3. done.
  - repeat split; try done; [simpl; rewrite F1; done |]. unfold settled in *. simpl.
    rewrite F2, app_nil_r. exact F5.
Qed.

Lemma reads_page l es pre r : page_ok l = true -> at_rest (print_page l) false es pre r ->
  exists r', goes r r' /\ at_rest [] false es (pre ++ page_items l) r'.
Proof.
  revert pre r. induction l as [|x l IH]; intros pre r H Hr.
  - exists r. split; [apply goes_refl |]. unfold page_items. simpl. rewrite app_nil_r. exact Hr.
  - simpl in H. apply andb_true_iff in H as [Hx Hl]. unfold print_page in Hr. simpl in Hr.
    destruct (reads_node x (print_page l) es pre r Hx (calm_page l Hl) Hr) as (r1 & G1 & A1).
    destruct (IH _ r1 Hl A1) as (r2 & G2 & A2).
    exists r2. split; [apply (goes_trans _ _ _ G1 G2) |]. unfold page_items. simpl. rewrite app_assoc. exact A2.
Qed.

(** ** The quick scan *)

Notation wanted := (bs "<esi:").
Notation wanted2 := (bs "<!--esi").
Definition marked (x : node) : bool :=
  match x with Plain (Include _ _) | Plain (Remove _) | Hidden _ => true | _ => false end.

Lemma not_in_step (c : Z) (b : bool) w r : bool_decide (c ∈ w) = false -> c ∉ r -> c ∉ (if b then w else tail r).
Proof.
  intros Hw Hr. destruct b; [apply not_in; exact Hw |]. destruct r; [done |].
  apply not_elem_of_cons in Hr. apply Hr.
Qed.
Lemma scan_end a X r r2 : r <> [] -> r2 <> [] -> 62 ∉ r -> 62 ∉ r2 ->
  contain_loop (a ++ 62 :: X) r r2 = true \/
  contain_loop (a ++ 62 :: X) r r2 = contain_loop X wanted wanted2.
Proof.
  revert r r2. induction a as [|c a IH]; intros r r2 H1 H2 H3 H4.
  - destruct r as [|d r]; [done |]. destruct r2 as [|d2 r2]; [done |].
    apply not_elem_of_cons in H3 as [H3 _]. apply not_elem_of_cons in H4 as [H4 _].
    cbn [app contain_loop peek]. rewrite (proj2 (Z.eqb_neq 62 d)), (proj2 (Z.eqb_neq 62 d2)) by done.
    right. done.
  - cbn [app contain_loop]. cbv zeta.
    set (r' := if negb (c =? peek r) then wanted else tail r).
    set (r2' := if negb (c =? peek r2) then wanted2 else tail r2).
    assert (Hr : 62 ∉ r') by (apply not_in_step; [reflexivity | done]).
    assert (Hr2 : 62 ∉ r2') by (apply not_in_step; [reflexivity | done]).
    case_bool_decide; [left; done |]. case_bool_decide; [left; done |]. apply IH; done.
Qed.
Lemma scan_text t X : no [60; 62] t = true -> contain_loop (t ++ X) wanted wanted2 = contain_loop X wanted wanted2.
Proof.
  induction t as [|c t IH]; intros H; [done |]. pose proof (no_not _ _ 60 H ltac:(left)) as Hc.
  apply not_elem_of_cons in Hc as [Hc _]. simpl in H. apply andb_true_iff in H as [_ H].
  cbn [app contain_loop]. change (peek wanted) with 60. change (peek wanted2) with 60.
  rewrite (proj2 (Z.eqb_neq c 60)) by done. apply IH. exact H.
Qed.
Lemma scan_node x X : node_ok x = true ->
  contain_loop (print_node x ++ X) wanted wanted2 = true \/
  (marked x = false /\ contain_loop (print_node x ++ X) wanted wanted2 = contain_loop X wanted wanted2).
Proof.
  assert (Hend : forall a, contain_loop ((a ++ [62]) ++ X) wanted wanted2 = true \/
    contain_loop ((a ++ [62]) ++ X) wanted wanted2 = contain_loop X wanted wanted2).
  { intros a. rewrite <- app_assoc. apply scan_end; try done; apply not_in; reflexivity. }
  destruct x as [[t|t|t|name path|t]|l]; intros H; cbn [print_node print_part]; try (left; done).
  - right. split; [done |]. apply scan_text. exact H.
  - destruct (Hend (60 :: t)) as [E|E]; [left; exact E | right; split; [done | exact E]].
  - assert (Ec : bs "<!--" ++ t ++ bs "-->" = (bs "<!--" ++ t ++ [45; 45]) ++ [62])
      by (rewrite <- !app_assoc; done).
    rewrite Ec. destruct (Hend (bs "<!--" ++ t ++ [45; 45])) as [E|E]; [left; exact E | right; split; [done | exact E]].
Qed.
Lemma scan_page l : page_ok l = true -> existsb marked l = true ->
  contain_loop (print_page l) wanted wanted2 = true.
Proof.
  induction l as [|x l IH]; intros H Hm; [done |]. simpl in H, Hm. apply andb_true_iff in H as [Hx Hl].
  unfold print_page. simpl. destruct (scan_node x (print_page l) Hx) as [E|[E1 E2]]; [exact E |].
  unfold print_page in E2 at 1. rewrite E1 in Hm. etransitivity; [exact E2 | apply (IH Hl Hm)].
Qed.

Lemma esi_ref_page l : page_ok l = true -> existsb marked l = true ->
  Z.testbit esi_syntax 0 || looks_like_xml (print_page l) = true ->
  exists fuel, (length (print_page l) < fuel)%nat /\
    esi_ref url esi_syntax fuel (print_page l) = Some (Some (page_items l, [])).
Proof.
  intros H Hm Hx.
  destruct (reads_page l [] [] (Page [] [] (print_page l) false false []) H) as (r & [n G] & F1 & F2 & F3 & F4 & F5);
    [repeat split; done |].
  exists (n + S (length (print_page l)))%nat. split; [lia |]. unfold esi_ref.
  assert (E1 : negb (Z.testbit esi_syntax 0) && negb (looks_like_xml (print_page l)) = false)
    by (rewrite <- negb_orb, Hx; done).
  rewrite E1, scan_page by done. cbn [negb]. rewrite G. cbn [EsiRef.loop_ref]. rewrite F1. cbv zeta.
  assert (G2 : rem (flush r) = false) by exact F2. assert (G3 : inc (flush r) = false) by exact F3.
  rewrite G2, G3. cbn [flush out errs]. rewrite F2, F4. unfold settled in F5. rewrite F5. done.
Qed.

End Runs.


Definition page1 : list node :=
  [Plain (Markup (bs "p")); Plain (Text (bs "hi ")); Plain (Include None (bs "/x"));
   Hidden [Markup (bs "b"); Include (Some (bs "www.example.com")) (bs "/y?z")];
   Plain (Comment (bs " no ")); Plain (Remove (bs "gone")); Plain (Text [46; 10])].

(** ** Delivery *)

Import Strtoul Reader Fetch FetchSpec.

Definition zero_line : line := Line (bs "0") [] true.
Definition length_line (n : Z) : line := Line (print 16 n) [] true.

Lemma print_short n k fuel : 0 <= n < 16 ^ Z.of_nat (S k) -> (length (print_fuel fuel 16 n) <= S k)%nat.
Proof.
  revert n k. induction fuel as [|fuel IH]; intros n k H; simpl; [lia |].
  destruct (Z.ltb_spec n 16) as [Hn|Hn]; [simpl; lia |]. rewrite length_app. simpl.
  destruct k as [|k]; [simpl in H; lia |].
  assert (Hd : 0 <= n / 16 < 16 ^ Z.of_nat (S k)).
  { split; [apply Z.div_pos; lia |]. apply Z.div_lt_upper_bound; [lia |].
    rewrite <- Z.pow_succ_r by lia. replace (Z.succ (Z.of_nat (S k))) with (Z.of_nat (S (S k))) by lia. apply H. }
  specialize (IH _ _ Hd). lia.
Qed.
Lemma length_line_ok n : 0 <= n < 2 ^ 32 -> line_ok (length_line n) n.
Proof.
  intros H. destruct (print_spec 16 ltac:(lia) n ltac:(lia)) as (H1 & H2 & H3).
  split; [exact H2 |]. split; [exact H1 |]. split; [constructor |]. split; [exact H3 |].
  cbn [l_hex l_blank length_line length]. unfold print.
  pose proof (print_short n 7 (S (Z.to_nat (Z.log2 n)))) as Hp. specialize (Hp ltac:(simpl; lia)). lia.
Qed.
Lemma zero_line_ok : line_ok zero_line 0.
Proof. repeat split; try done; [repeat constructor; eexists; reflexivity | simpl; lia]. Qed.

Section Delivery.
Context (max_esi_includes : Z) (Hmax : 0 < max_esi_includes).
(** The answers to the includes, and that they come in chunks. *)
Context (answer : option (list Z) -> list Z -> list chunk).
Context (answer_ok : forall h u, Forall chunk_ok (answer h u)).

(** Chunks without the last one. *)
Definition chunk_bytes (c : chunk) : list Z := print_line (c_line c) ++ c_data c ++ eol (l_cr (c_line c)).
Definition stream (cs : list chunk) : list Z := concat (map chunk_bytes cs).
Lemma encode_stream cs last : encode cs last = stream cs ++ print_line last.
Proof.
  unfold stream. induction cs as [|c cs IH]; simpl; [done |]. rewrite IH. unfold chunk_bytes.
  rewrite <- !app_assoc. done.
Qed.

Definition request (esis : Z) (h : option (list Z)) (u : list Z) : list Z * bool := (stream (answer h u), true).

Definition bit_chunks (b : esi_bit) : list chunk :=
  (if (length (verbatim b) =? 0)%nat then []
   else [Chunk (length_line (Z.of_nat (length (verbatim b)))) (verbatim b)]) ++
  match include b with Some u => answer (host b) u | None => [] end.
Definition page_chunks (l : list esi_bit) : list chunk := concat (map bit_chunks l).

(** What the client sees of a page. *)
Definition expand_item (i : item) : list Z :=
  match i with Byte c => [c] | Incl h u => bodies (answer h u) end.
Definition expand (l : list item) : list Z := concat (map expand_item l).

Lemma expand_app a b : expand (a ++ b) = expand a ++ expand b.
Proof. unfold expand. rewrite map_app, concat_app. done. Qed.
Lemma expand_bytes t : expand (map Byte t) = t.
Proof. unfold expand. induction t as [|c t IH]; simpl; [done |]. rewrite IH. done. Qed.
Lemma bodies_app a b : bodies (a ++ b) = bodies a ++ bodies b.
Proof. unfold bodies. rewrite map_app, concat_app. done. Qed.
Lemma stream_app a b : stream (a ++ b) = stream a ++ stream b.
Proof. unfold stream. rewrite map_app, concat_app. done. Qed.

Lemma bodies_bit b : bodies (bit_chunks b) = expand (bit_items b).
Proof.
  unfold bit_chunks, bit_items. rewrite bodies_app, expand_app, expand_bytes. f_equal.
  - destruct (verbatim b) as [|c t]; simpl; [done |]. unfold bodies. simpl. rewrite app_nil_r. done.
  - destruct (include b) as [u|]; [| done]. unfold expand. simpl. rewrite app_nil_r. done.
Qed.
Lemma bodies_page l : bodies (page_chunks l) = expand (items l).
Proof.
  unfold page_chunks, items. induction l as [|b l IH]; simpl; [done |].
  rewrite bodies_app, expand_app, bodies_bit, IH. done.
Qed.

Lemma stream_bit b : stream (bit_chunks b) =
  write_bit (print 16) true b ++ match include b with Some u => stream (answer (host b) u) | None => [] end.
Proof.
  unfold bit_chunks, write_bit. cbv zeta. rewrite stream_app. f_equal; [| by destruct (include b)].
  destruct (verbatim b) as [|c t]; [done |].
  rewrite (proj2 (Z.eqb_neq _ 0)) by (simpl; lia). simpl length at 1. cbn [Nat.eqb].
  unfold stream, chunk_bytes. cbn [map concat c_line c_data]. rewrite app_nil_r.
  unfold print_line. cbn [l_hex l_blank l_cr length_line eol]. cbn [app]. rewrite <- !app_assoc. done.
Qed.
Lemma deliver_page esis l : esis < max_esi_includes ->
  deliver_bits (print 16) max_esi_includes request true esis l = (stream (page_chunks l), true).
Proof.
  intros He. induction l as [|b l IH]; [done |]. cbn [deliver_bits].
  unfold page_chunks. cbn [map concat]. fold (page_chunks l). rewrite stream_app, stream_bit, IH. cbv zeta.
  destruct (include b) as [u|].
  - rewrite (proj2 (Z.leb_gt _ _)) by lia. unfold request. rewrite <- app_assoc. done.
  - rewrite app_nil_r. done.
Qed.

Lemma page_chunks_ok l : Forall (fun b => Z.of_nat (length (verbatim b)) < 2 ^ 32) l ->
  Forall chunk_ok (page_chunks l).
Proof.
  intros H. unfold page_chunks. induction H as [|b l Hb Hl IH]; [constructor |]. simpl.
  apply Forall_app. split; [| exact IH]. unfold bit_chunks. apply Forall_app. split.
  - destruct (Nat.eqb_spec (length (verbatim b)) 0) as [|Hn]; [constructor |].
    apply Forall_singleton. split; cbn [c_line c_data]; [apply length_line_ok; lia | lia].
  - destruct (include b); [apply answer_ok | constructor].
Qed.
End Delivery.

(** C9: What is delivered of a page to a client of HTTP/1.1 is one body in
    chunks, as long as the answers to the includes are chunks: a cache that
    fetches it stores the page with the contents of the includes in their
    places. *)
Theorem ESI_Deliver_decodes {R : Type} `{Reader.ReaderLaws R} max_esi_includes answer bits
    STV_alloc STV_trim fetch_chunksize fetchfrag fuel (s : R) tl :
  0 < max_esi_includes -> (forall h u, Forall chunk_ok (answer h u)) ->
  Forall (fun b => Z.of_nat (length (verbatim b)) < 2 ^ 32) bits ->
  alloc_law STV_alloc -> trim_law STV_trim -> params_ok fetch_chunksize fetchfrag ->
  Reader.sound s -> Reader.whole s ->
  Reader.avail s = fst (ESI_Deliver (print 16) max_esi_includes (request answer) true 0 bits) ++ tl ->
  (length (Reader.avail s) + 1 < fuel)%nat ->
  exists f, fetch_chunked STV_alloc STV_trim fetch_chunksize fuel (Fetching s [] 0) = Some (Some f) /\
    content (store f) = expand answer (items bits) /\ Reader.avail (conn f) = [13; 10] ++ tl.
Proof.
  intros Hmax Hans Hbits Ha Ht Hp Hs Hw Hav Hf.
  assert (E : fst (ESI_Deliver (print 16) max_esi_includes (request answer) true 0 bits) =
    encode (page_chunks answer bits) zero_line ++ [13; 10]).
  { unfold ESI_Deliver. rewrite (deliver_page max_esi_includes answer 0 bits Hmax). cbn [fst].
    rewrite encode_stream, <- app_assoc. done. }
  rewrite E, <- app_assoc in Hav.
  destruct (chunked_encoded STV_alloc STV_trim fetch_chunksize fetchfrag Ha Hp Ht zero_line ([13; 10] ++ tl)
    zero_line_ok (page_chunks answer bits) fuel s [] [] None 0) as (f & Ef & Ec & Et & _ & _); try done.
  - split; [constructor | simpl; lia].
  - apply page_chunks_ok; done.
  - exists f. split; [exact Ef |]. split; [| exact Et]. rewrite Ec. simpl. apply bodies_page.
Qed.

Definition bits1 : list esi_bit :=
  [Bit (bs "<p>") None (Some (bs "/x" ++ [0])); Bit (bs "tail") None None].
Definition wiki_answer (h : option (list Z)) (u : list Z) : list chunk := wiki.
Lemma ESI_Deliver_decodes_witness :
  exists f, fetch_chunked four tight 128 100
      (Fetching (StrReader (fst (ESI_Deliver (print 16) 5 (request wiki_answer) true 0 bits1) ++ bs "next") 6) [] 0)
      = Some (Some f) /\
    content (store f) = bs "<p>Hello, worldtail" /\ avail (conn f) = [13; 10] ++ bs "next".
Proof.
  apply (ESI_Deliver_decodes 5 wiki_answer bits1 four tight 128 0 100
    (StrReader (fst (ESI_Deliver (print 16) 5 (request wiki_answer) true 0 bits1) ++ bs "next") 6) (bs "next")).
  - lia.
  - intros h u. apply wiki_ok.
  - repeat constructor.
  - apply four_law.
  - apply tight_law.
  - apply params1.
  - exact I.
  - exact I.
  - reflexivity.
  - vm_compute. lia.
Defined.

End EsiPage.
