(* ===== verification/Director.v ===== *)
(** * Director: choosing a backend

    [bin/varnishd/cache_dir_round_robin.c] and [cache_dir_random.c].  A director
    asks its hosts, which are directors themselves, whether they are healthy
    ([VBE_Healthy_sp]) and for a connection ([VBE_GetFd]).  During one call the
    answers are [healthy] and [getfd], by the number of the host; a connection is
    named by its address.  Weights are doubles, [u] and [random()] the numbers
    that pick a host.  [None] is a failed assertion. *)
From S2P Require Import Prelude Double.

Module Director.
Import Double.

Section Call.
Context (healthy : nat -> bool) (getfd : nat -> option Z).

(** ** Round robin *)

Record vdi_round_robin := RoundRobin { rr_nhosts : nat; next_host : nat }.

Fixpoint rr_loop (fuel : nat) (vs : vdi_round_robin) : option Z * vdi_round_robin :=
  match fuel with
  | O => (None, vs)
  | S fuel =>
      let backend := next_host vs in
      let vs := RoundRobin (rr_nhosts vs) (S (next_host vs) mod rr_nhosts vs) in
      if negb (healthy backend) then rr_loop fuel vs
      else match getfd backend with
           | Some vbe => (Some vbe, vs)
           | None => rr_loop fuel vs
           end
  end.
Definition vdi_round_robin_getfd (vs : vdi_round_robin) : option Z * vdi_round_robin :=
  rr_loop (rr_nhosts vs) vs.
Definition vdi_round_robin_healthy (vs : vdi_round_robin) : bool :=
  existsb healthy (seq 0 (rr_nhosts vs)).

(** ** Random, hash and client *)

Inductive crit_e := c_random | c_hash | c_client.
Record vdi_random := Random { criteria : crit_e; retries : nat; tot_weight : double; weights : list double }.
Inductive health_c := c_unknown | c_unhealthy | c_healthy.

(** [u / 2^bits * w] for a double [w] that is a multiple of [2^bits] units. *)
Definition scale (u bits : Z) (w : double) : double := rnd (u * (w / 2 ^ bits)).

Definition vdi_random_cache_healthy (cache : list health_c) (i : nat) : bool * list health_c :=
  let cache := match default c_unknown (cache !! i) with
               | c_unknown => <[i := if healthy i then c_healthy else c_unhealthy]> cache
               | _ => cache
               end in
  (match default c_unknown (cache !! i) with c_healthy => true | _ => false end, cache).

(** The host whose share of the weights holds [r]; [None] when rounding leaves
    none.  The shares are summed up from [s1] on. *)
Fixpoint canonical (r s1 : double) (i : nat) (ws : list double) : option nat :=
  match ws with
  | [] => None
  | w :: ws => let s1 := dadd s1 w in
               if s1 <=? r then canonical r s1 (S i) ws else Some i
  end.
Fixpoint sum_healthy (cache : list health_c) (s1 : double) (i : nat) (ws : list double)
  : double * list health_c :=
  match ws with
  | [] => (s1, cache)
  | w :: ws => let '(h, cache) := vdi_random_cache_healthy cache i in
               sum_healthy cache (if h : bool then dadd s1 w else s1) (S i) ws
  end.
Fixpoint pick_healthy (cache : list health_c) (r s1 : double) (i : nat) (ws : list double)
  : option nat * list health_c :=
  match ws with
  | [] => (None, cache)
  | w :: ws =>
      let '(h, cache) := vdi_random_cache_healthy cache i in
      if negb h then pick_healthy cache r s1 (S i) ws
      else let s1 := dadd s1 w in
           if s1 <=? r then pick_healthy cache r s1 (S i) ws else (Some i, cache)
  end.

(** The retries; the head of [random] is what [random()] gives next. *)
Fixpoint retry (k : nat) (vs : vdi_random) (u : Z) (random : list Z) (cache : list health_c) : option (option Z) :=
  match k with
  | O => Some None
  | S k =>
      let '(s1, cache) := sum_healthy cache 0 0 (weights vs) in
      if s1 =? 0 then Some None
      else
        let '(u', bits) := match criteria vs with c_random => (peek random, 31) | _ => (u, 32) end in
        assert! (0 <=? u') && (u' <? 2 ^ bits) ;;
        match pick_healthy cache (scale u' bits s1) 0 0 (weights vs) with
        | (Some i, cache) => match getfd i with
                             | Some vbe => Some (Some vbe)
                             | None => retry k vs u (tail random) (<[i := c_unhealthy]> cache)
                             end
        | (None, cache) => retry k vs u (tail random) cache
        end
  end.

(** The first four bytes of the digest, little endian. *)
Definition hash_number (hp : list Z) : Z :=
  Z.lor (Z.lor (Z.lor (Z.shiftl (at_ hp 3) 24) (Z.shiftl (at_ hp 2) 16)) (Z.shiftl (at_ hp 1) 8)) (at_ hp 0).

(** The attempt at the canonical host; what it learns stays in the cache. *)
Definition try_canonical (vs : vdi_random) (u : Z) (cache : list health_c) : option Z * list health_c :=
  match canonical (scale u 32 (tot_weight vs)) 0 0 (weights vs) with
  | None => (None, cache)
  | Some i =>
      let '(h, cache) := vdi_random_cache_healthy cache i in
      if h : bool then
        match getfd i with
        | Some vbe => (Some vbe, cache)
        | None => (None, <[i := c_unhealthy]> cache)
        end
      else (None, cache)
  end.

(** [hp] is the digest of the client's address or of the request. *)
Definition vdi_random_getfd (vs : vdi_random) (hp : list Z) (random : list Z) : option (option Z) :=
  let cache := replicate (length (weights vs)) c_unknown in
  match criteria vs with
  | c_random => retry (retries vs) vs 0 random cache
  | _ =>
      let u := hash_number hp in
      assert! (0 <=? u) && (u <? 2 ^ 32) ;;
      match try_canonical vs u cache with
      | (Some vbe, _) => Some (Some vbe)
      | (None, cache) => retry (retries vs) vs u random cache
      end
  end.
Definition vdi_random_healthy (vs : vdi_random) : bool := existsb healthy (seq 0 (length (weights vs))).

End Call.

(** [vrt_init]: weights have to be positive; without a number of retries there is
    one for each host. *)
Definition vrt_init (criteria : crit_e) (nretries : nat) (ws : list double) : option vdi_random :=
  assert! forallb (fun w => 0 <? w) ws ;;
  Some (Random criteria (if (nretries =? 0)%nat then length ws else nretries) (foldl dadd 0 ws) ws).

Definition VRT_init_dir_round_robin (nmember : nat) : vdi_round_robin := RoundRobin nmember 0.

(** A series of calls of a round robin director. *)
Fixpoint rr_calls (l : list ((nat -> bool) * (nat -> option Z))) (vs : vdi_round_robin)
  : list (option Z) * vdi_round_robin :=
  match l with
  | [] => ([], vs)
  | (h, g) :: l =>
      let '(r, vs) := vdi_round_robin_getfd h g vs in
      let '(rs, vs) := rr_calls l vs in (r :: rs, vs)
  end.

End Director.
