(* ===== verification/DirectorSpec.v ===== *)
(** * DirectorSpec: the directors find a backend when there is one

    Round robin serves every usable host in its turn; the random directors end
    with a connection whenever some healthy host gives one, and hashing prefers
    the same host as long as that one is usable. *)
From S2P Require Import Prelude Double Director.

Module DirectorSpec.
Import Double Director.

Definition usable (healthy : nat -> bool) (getfd : nat -> option Z) (i : nat) : Prop :=
  healthy i = true /\ is_Some (getfd i).

(** ** Round robin *)

Definition rr_ok (vs : vdi_round_robin) : Prop := (next_host vs < rr_nhosts vs)%nat.
(** The host [k] places behind the next one. *)
Definition ahead (vs : vdi_round_robin) (k : nat) : nat := ((next_host vs + k) mod rr_nhosts vs)%nat.

(** The number of places the pointer is before host [h]. *)
Definition distance (vs : vdi_round_robin) (h : nat) : nat :=
  ((rr_nhosts vs + h - next_host vs) mod rr_nhosts vs)%nat.

Lemma distance_ahead vs h : rr_ok vs -> (h < rr_nhosts vs)%nat -> ahead vs (distance vs h) = h.
Proof.
  intros Hok Hh. unfold ahead, distance, rr_ok in *. rewrite Nat.Div0.add_mod_idemp_r.
  replace (next_host vs + (rr_nhosts vs + h - next_host vs))%nat with (h + 1 * rr_nhosts vs)%nat by lia.
  rewrite Nat.Div0.mod_add, Nat.mod_small by done. done.
Qed.

Section RoundRobin.
Context (healthy : nat -> bool) (getfd : nat -> option Z).

Lemma ahead_0 vs : rr_ok vs -> ahead vs 0 = next_host vs.
Proof. intros H. unfold ahead. rewrite Nat.add_0_r, Nat.mod_small by exact H. done. Qed.
Lemma ahead_step vs k : rr_ok vs ->
  ahead (RoundRobin (rr_nhosts vs) (S (next_host vs) mod rr_nhosts vs)) k = ahead vs (S k).
Proof.
  intros H. unfold ahead, rr_ok in *. cbn [next_host rr_nhosts].
  rewrite Nat.Div0.add_mod_idemp_l. f_equal. lia.
Qed.

Lemma rr_loop_spec fuel : forall vs, rr_ok vs ->
  match rr_loop healthy getfd fuel vs with
  | (Some vbe, vs') => exists k, (k < fuel)%nat /\
      (forall j, (j < k)%nat -> ~ usable healthy getfd (ahead vs j)) /\
      healthy (ahead vs k) = true /\ getfd (ahead vs k) = Some vbe /\
      vs' = RoundRobin (rr_nhosts vs) (ahead vs (S k))
  | (None, vs') => (forall j, (j < fuel)%nat -> ~ usable healthy getfd (ahead vs j)) /\
      vs' = RoundRobin (rr_nhosts vs) (ahead vs fuel)
  end.
Proof.
  induction fuel as [|fuel IH]; intros vs Hok; cbn [rr_loop].
  - split; [lia |]. rewrite ahead_0 by done. destruct vs; done.
  - cbv zeta. pose proof (ahead_0 vs Hok) as E0.
    set (vs1 := RoundRobin (rr_nhosts vs) (S (next_host vs) mod rr_nhosts vs)).
    assert (Hok1 : rr_ok vs1) by (unfold rr_ok, vs1 in *; simpl; apply Nat.mod_upper_bound; lia).
    assert (Hnext : forall k, ahead vs1 k = ahead vs (S k)) by (intros k; apply ahead_step; exact Hok).
    assert (Hskip : ~ usable healthy getfd (next_host vs) ->
      match rr_loop healthy getfd fuel vs1 with
      | (Some vbe, vs') => exists k, (k < S fuel)%nat /\
          (forall j, (j < k)%nat -> ~ usable healthy getfd (ahead vs j)) /\
          healthy (ahead vs k) = true /\ getfd (ahead vs k) = Some vbe /\
          vs' = RoundRobin (rr_nhosts vs) (ahead vs (S k))
      | (None, vs') => (forall j, (j < S fuel)%nat -> ~ usable healthy getfd (ahead vs j)) /\
          vs' = RoundRobin (rr_nhosts vs) (ahead vs (S fuel))
      end).
    { intros Hn. specialize (IH vs1 Hok1). destruct (rr_loop healthy getfd fuel vs1) as [[vbe|] vs'].
      - destruct IH as (k & H1 & H2 & H3 & H4 & H5). exists (S k). rewrite !Hnext in *.
        split; [lia |]. split; [| done]. intros [|j] Hj; [rewrite E0; exact Hn |].
        rewrite <- Hnext. apply H2. lia.
      - destruct IH as (H1 & H2). rewrite Hnext in H2. split; [| done].
        intros [|j] Hj; [rewrite E0; exact Hn |]. rewrite <- Hnext. apply H1. lia. }
    destruct (healthy (next_host vs)) eqn:Eh; cbn [negb].
    + destruct (getfd (next_host vs)) as [vbe|] eqn:Eg.
      * exists 0%nat. rewrite E0. split; [lia |]. split; [lia |]. split; [done |]. split; [done |].
        unfold vs1. f_equal. unfold ahead. f_equal. lia.
      * apply Hskip. intros [_ [x Hx]]. congruence.
    + apply Hskip. intros [Hx _]. congruence.
Qed.

(** A call keeps the director in order; either it takes the first usable host, or
    there is none. *)
Lemma rr_getfd_spec vs : rr_ok vs ->
  let '(r, vs') := vdi_round_robin_getfd healthy getfd vs in
  rr_ok vs' /\ rr_nhosts vs' = rr_nhosts vs /\
  match r with
  | Some vbe => exists k, (k < rr_nhosts vs)%nat /\
      (forall j, (j < k)%nat -> ~ usable healthy getfd (ahead vs j)) /\
      healthy (ahead vs k) = true /\ getfd (ahead vs k) = Some vbe /\ next_host vs' = ahead vs (S k)
  | None => forall i, (i < rr_nhosts vs)%nat -> ~ usable healthy getfd i
  end.
Proof.
  intros Hok. unfold vdi_round_robin_getfd. pose proof (rr_loop_spec (rr_nhosts vs) vs Hok) as H.
  assert (Hmod : forall k, (ahead vs k < rr_nhosts vs)%nat)
    by (intros k; apply Nat.mod_upper_bound; unfold rr_ok in Hok; lia).
  destruct (rr_loop _ _ _ vs) as [[vbe|] vs'].
  - destruct H as (k & H1 & H2 & H3 & H4 & ->). split; [apply Hmod |]. split; [done |].
    exists k. done.
  - destruct H as (H1 & ->). split; [apply Hmod |]. split; [done |]. intros i Hi.
    rewrite <- (distance_ahead vs i Hok Hi). apply H1. apply Nat.mod_upper_bound. lia.
Qed.
End RoundRobin.

(** A call that does not take a usable host brings the pointer nearer to it. *)
Lemma rr_getfd_nearer healthy getfd vs h : rr_ok vs -> (h < rr_nhosts vs)%nat -> usable healthy getfd h ->
  let '(r, vs') := vdi_round_robin_getfd healthy getfd vs in
  rr_ok vs' /\ rr_nhosts vs' = rr_nhosts vs /\
  (r = getfd h \/ (distance vs' h < distance vs h)%nat).
Proof.
  intros Hok Hh Hu. pose proof (rr_getfd_spec healthy getfd vs Hok) as H.
  destruct (vdi_round_robin_getfd _ _ vs) as [[vbe|] vs']; destruct H as (H1 & H2 & H3);
    (split; [exact H1 | split; [exact H2 |]]); [| exfalso; exact (H3 h Hh Hu)].
  destruct H3 as (k & K1 & K2 & K3 & K4 & K5).
  pose proof (distance_ahead vs h Hok Hh) as Ed.
  assert (Hd : (distance vs h < rr_nhosts vs)%nat) by (apply Nat.mod_upper_bound; lia).
  destruct (decide (k = distance vs h)) as [->|Hne]; [left; rewrite <- K4, Ed; done |]. right.
  assert (Hk : (k < distance vs h)%nat).
  { destruct (decide (k < distance vs h)%nat) as [|Hn]; [done | exfalso].
    apply (K2 (distance vs h)); [lia |]. rewrite Ed. exact Hu. }
  assert (Ev : ahead vs' (distance vs h - S k) = h).
  { unfold ahead. rewrite H2, K5. unfold ahead. rewrite Nat.Div0.add_mod_idemp_l.
    rewrite <- Ed at 2. unfold ahead. f_equal. lia. }
  assert (Hd' : distance vs' h = (distance vs h - S k)%nat).
  { unfold distance at 1. rewrite H2 in *. rewrite <- Ev at 1. unfold ahead. rewrite H2.
    unfold rr_ok in H1. rewrite H2 in H1.
    pose proof (Nat.mod_upper_bound (next_host vs' + (distance vs h - S k)) (rr_nhosts vs) ltac:(lia)) as Hm.
    set (n := rr_nhosts vs) in *. set (x := next_host vs') in *. set (j := (distance vs h - S k)%nat) in *.
    destruct (decide (x + j < n)%nat) as [Hs|Hs].
    - rewrite (Nat.mod_small (x + j)) by done. replace (n + (x + j) - x)%nat with (j + 1 * n)%nat by lia.
      rewrite Nat.Div0.mod_add, Nat.mod_small by lia. done.
    - replace (x + j)%nat with (x + j - n + 1 * n)%nat by lia.
      rewrite Nat.Div0.mod_add, (Nat.mod_small (x + j - n)) by lia.
      replace (n + (x + j - n) - x)%nat with j by lia. apply Nat.mod_small. lia. }
  lia.
Qed.

(** C15: Nobody is left out: in any row of as many calls as there are hosts, a
    host that is usable in all of them is taken in one. *)
Theorem round_robin_fair vs h calls : rr_ok vs -> (h < rr_nhosts vs)%nat ->
  length calls = rr_nhosts vs -> Forall (fun c => usable c.1 c.2 h) calls ->
  let '(rs, vs') := rr_calls calls vs in
  rr_ok vs' /\ exists i c, calls !! i = Some c /\ rs !! i = Some (c.2 h).
Proof.
  intros Hok Hh Hlen Hu.
  assert (G : forall calls vs, rr_ok vs -> (h < rr_nhosts vs)%nat ->
    Forall (fun c => usable c.1 c.2 h) calls ->
    let '(rs, vs') := rr_calls calls vs in rr_ok vs' /\
    ((distance vs h < length calls)%nat -> exists i c, calls !! i = Some c /\ rs !! i = Some (c.2 h))).
  { clear. intros calls. induction calls as [|[he ge] calls IH]; intros vs Hok Hh Hu; simpl.
    { split; [exact Hok | lia]. }
    apply Forall_cons in Hu as [Hu1 Hu]. simpl in Hu1.
    pose proof (rr_getfd_nearer he ge vs h Hok Hh Hu1) as H.
    destruct (vdi_round_robin_getfd he ge vs) as [r vs1]. destruct H as (H1 & H2 & H3).
    specialize (IH vs1 H1 ltac:(rewrite H2; exact Hh) Hu).
    destruct (rr_calls calls vs1) as [rs vs2]. destruct IH as (I1 & I2). split; [exact I1 |]. intros Hd.
    destruct H3 as [->|H3]; [exists 0%nat, (he, ge); done |].
    destruct (I2 ltac:(lia)) as (i & c & E1 & E2). exists (S i), c. done. }
  specialize (G calls vs Hok Hh Hu). destruct (rr_calls calls vs) as [rs vs']. destruct G as (G1 & G2).
  split; [exact G1 |]. apply G2. rewrite Hlen. apply Nat.mod_upper_bound. lia.
Qed.

Definition all_up : (nat -> bool) * (nat -> option Z) := (fun _ => true, fun i => Some (Z.of_nat i + 100)).
Definition only_two : (nat -> bool) * (nat -> option Z) := (fun i => (i =? 2)%nat, fun i => Some (Z.of_nat i + 200)).
Lemma round_robin_fair_witness :
  let calls := [all_up; only_two; all_up] in
  let '(rs, vs') := rr_calls calls (RoundRobin 3 1) in
  rr_ok vs' /\ (exists i c, calls !! i = Some c /\ rs !! i = Some (c.2 2%nat)) /\
  rs = [Some 101; Some 202; Some 100].
Proof.
  pose proof (round_robin_fair (RoundRobin 3 1) 2 [all_up; only_two; all_up]) as H.
  cbv zeta. destruct (rr_calls [all_up; only_two; all_up] (RoundRobin 3 1)) as [rs vs'] eqn:E.
  destruct H as [H1 H2].
  - unfold rr_ok. simpl. lia.
  - simpl. lia.
  - reflexivity.
  - repeat constructor; eexists; reflexivity.
  - split; [exact H1 |]. split; [exact H2 |]. vm_compute in E. congruence.
Defined.

(** ** Weights

    A weight is positive and a multiple of [2^32] of the smallest units, which
    every double above [2^-1000] is. *)
Definition heavy (w : double) : Prop := 0 < w /\ (2 ^ 32 | w).

Lemma rnd_pos a : 0 < a -> 0 < rnd a.
Proof.
  intros H. pose proof (rnd_binade a H) as [H1 _]. pose proof (Z.log2_nonneg a).
  pose proof (Z.pow_pos_nonneg 2 (Z.log2 a) ltac:(lia) ltac:(lia)). lia.
Qed.
Lemma rnd_up a : 0 < a -> 2 ^ 52 * (rnd a - a) <= a.
Proof.
  intros H. destruct (Z.leb_spec (Z.log2 a - 52) 0) as [Hs|Hs].
  - rewrite rnd_small by (rewrite Z.abs_eq by lia; lia). lia.
  - destruct (rnd_pos_near a H ltac:(lia)) as (q & -> & Hq & _). set (e := Z.log2 a - 52) in *.
    assert (Hp : 0 < 2 ^ e) by (apply Z.pow_pos_nonneg; lia).
    pose proof (Z.div_mod a (2 ^ e) ltac:(lia)) as D. pose proof (Z.mod_pos_bound a (2 ^ e) Hp) as M.
    destruct (Z.log2_spec a H) as [L _]. replace (Z.log2 a) with (52 + e) in L by lia.
    rewrite Z.pow_add_r in L by lia.
    assert (E : 2 ^ 52 * (q * 2 ^ e - a) <= 2 ^ 52 * 2 ^ e).
    { apply Z.mul_le_mono_nonneg_l; [lia |]. destruct Hq as [-> |[-> _]]; nia. }
    lia.
Qed.
Lemma rnd_divide k a : 0 <= k -> 0 < a -> (2 ^ k | a) -> (2 ^ k | rnd a).
Proof.
  intros Hk Ha Hd. destruct (Z.leb_spec (Z.log2 a - 52) 0) as [Hs|Hs].
  - rewrite rnd_small by (rewrite Z.abs_eq by lia; lia). exact Hd.
  - destruct (rnd_pos_near a Ha ltac:(lia)) as (q & -> & Hq & _). set (e := Z.log2 a - 52) in *.
    destruct (decide (k <= e)) as [Hke|Hke].
    + apply Z.divide_mul_r. exists (2 ^ (e - k)). rewrite <- Z.pow_add_r by lia. f_equal. lia.
    + assert (Hm : a mod 2 ^ e = 0).
      { apply Z.mod_divide; [apply Z.pow_nonzero; lia |]. etransitivity; [| exact Hd].
        exists (2 ^ (k - e)). rewrite <- Z.pow_add_r by lia. f_equal. lia. }
      destruct Hq as [-> |[_ Hq]]; [| done].
      pose proof (Z.div_mod a (2 ^ e) ltac:(apply Z.pow_nonzero; lia)) as D.
      replace (a / 2 ^ e * 2 ^ e) with a by lia. exact Hd.
Qed.

Lemma heavy_add s w : s = 0 \/ heavy s -> heavy w -> heavy (dadd s w).
Proof.
  intros Hs [Hw Dw]. assert (H : 0 < s + w /\ (2 ^ 32 | s + w)).
  { destruct Hs as [-> |[Hs Ds]]; [done |]. split; [lia | apply Z.divide_add_r; done]. }
  destruct H as [H1 H2]. split; [apply rnd_pos; done | apply rnd_divide; [lia | done | done]].
Qed.

(** A fraction of a weight is less than the weight, rounded or not. *)
Lemma scale_below u bits s : 31 <= bits <= 32 -> 0 <= u < 2 ^ bits -> heavy s -> 0 <= scale u bits s < s.
Proof.
  intros Hb Hu [Hs Hd].
  assert (Hp : 0 < 2 ^ bits <= 2 ^ 32) by (split; [apply Z.pow_pos_nonneg | apply Z.pow_le_mono_r]; lia).
  assert (E : s = 2 ^ bits * (s / 2 ^ bits)).
  { apply Z.div_exact; [lia |]. apply Z.mod_divide; [lia |]. etransitivity; [| exact Hd].
    exists (2 ^ (32 - bits)). rewrite <- Z.pow_add_r by lia. f_equal. lia. }
  unfold scale. set (d := s / 2 ^ bits) in *. set (P := 2 ^ bits) in *.
  assert (Hd0 : 0 < d) by nia. split.
  - apply rnd_nonneg. nia.
  - destruct (decide (u = 0)) as [-> |Hu0]; [rewrite Z.mul_0_l, rnd_0; exact Hs |].
    pose proof (rnd_up (u * d) ltac:(nia)) as R. set (x := rnd (u * d)) in *. clearbody x.
    assert (Hx : u * d <= s - d) by nia. change (2 ^ 52) with 4503599627370496 in R.
    assert (Hs2 : s <= 4294967296 * d) by (change (2 ^ 32) with 4294967296 in Hp; nia). nia.
Qed.

(** ** The hosts that are left *)

Section RandomDirector.
Context (healthy : nat -> bool) (getfd : nat -> option Z).
Notation usable := (usable healthy getfd).

Definition fits (i : nat) (h : health_c) : Prop :=
  match h with c_unknown => True | c_unhealthy => ~ usable i | c_healthy => healthy i = true end.
Definition cache_ok (cache : list health_c) : Prop := forall i h, cache !! i = Some h -> fits i h.
Definition left_of (h : health_c) : nat := match h with c_unhealthy => 0%nat | _ => 1%nat end.
Definition hosts_left (cache : list health_c) : nat := sum_list_with left_of cache.

Lemma hosts_left_insert cache i h h' : cache !! i = Some h ->
  (hosts_left (<[i := h']> cache) + left_of h = hosts_left cache + left_of h')%nat.
Proof.
  unfold hosts_left. revert i. induction cache as [|g cache IH]; intros [|i] H; simplify_eq/=; [lia |].
  specialize (IH i H). lia.
Qed.
Lemma hosts_left_0 cache i h : hosts_left cache = 0%nat -> cache !! i = Some h -> h = c_unhealthy.
Proof.
  unfold hosts_left. revert i. induction cache as [|g cache IH]; intros [|i] H E; simplify_eq/=.
  - destruct h; simpl in H; [lia | done | lia].
  - apply (IH i); [lia | done].
Qed.
Lemma cache_ok_insert cache i h : cache_ok cache -> fits i h -> cache_ok (<[i := h]> cache).
Proof.
  intros H Hf j g E. apply list_lookup_insert_Some in E as [(-> & <- & _)|[_ E]]; [exact Hf | apply H; exact E].
Qed.

(** The cache after a host has been asked. *)
Definition ask (cache : list health_c) (i : nat) : list health_c :=
  match cache !! i with
  | Some c_unknown => <[i := if healthy i then c_healthy else c_unhealthy]> cache
  | _ => cache
  end.
Definition up (cache : list health_c) (i : nat) : bool :=
  match cache !! i with Some c_healthy => true | _ => false end.

Lemma cache_healthy_ask cache i : (i < length cache)%nat ->
  vdi_random_cache_healthy healthy cache i = (up (ask cache i) i, ask cache i).
Proof.
  intros H. unfold vdi_random_cache_healthy, up, ask.
  destruct (lookup_lt_is_Some_2 cache i H) as [h E]. rewrite E. simpl.
  destruct h; simpl; rewrite ?E, ?list_lookup_insert_eq by done; simpl; done.
Qed.
Lemma ask_ok cache i : cache_ok cache -> cache_ok (ask cache i) /\ length (ask cache i) = length cache /\
  (hosts_left (ask cache i) <= hosts_left cache)%nat /\
  (forall j, j <> i -> ask cache i !! j = cache !! j) /\ ask cache i !! i <> Some c_unknown.
Proof.
  intros H. unfold ask. destruct (cache !! i) as [[]|] eqn:E; try (rewrite E; done); [].
  split; [apply cache_ok_insert; [done |]; destruct (healthy i) eqn:Eh; simpl; [done |]; intros [Hx _]; congruence |].
  split; [apply length_insert |]. split.
  - pose proof (hosts_left_insert cache i c_unknown (if healthy i then c_healthy else c_unhealthy) E) as Hl.
    destruct (healthy i); simpl in Hl; lia.
  - split; [intros j Hj; apply list_lookup_insert_ne; done |].
    rewrite list_lookup_insert_eq by (apply lookup_lt_Some in E; done). destruct (healthy i); done.
Qed.

(** The weight of the hosts that are up. *)
Fixpoint total (cache : list health_c) (s1 : double) (i : nat) (ws : list double) : double :=
  match ws with
  | [] => s1
  | w :: ws => total cache (if up cache i then dadd s1 w else s1) (S i) ws
  end.

Lemma sum_healthy_spec ws : forall cache s1 i, cache_ok cache -> (i + length ws = length cache)%nat ->
  exists cache', sum_healthy healthy cache s1 i ws = (total cache' s1 i ws, cache') /\
    cache_ok cache' /\ length cache' = length cache /\ (hosts_left cache' <= hosts_left cache)%nat /\
    (forall j, (j < i)%nat -> cache' !! j = cache !! j) /\
    (forall j, (i <= j)%nat -> cache' !! j <> Some c_unknown).
Proof.
  induction ws as [|w ws IH]; intros cache s1 i Hok Hl; cbn [sum_healthy total length] in *.
  - exists cache. split; [done |]. split; [done |]. split; [done |]. split; [done |]. split; [done |].
    intros j Hj. rewrite lookup_ge_None_2 by lia. done.
  - rewrite cache_healthy_ask by lia.
    destruct (ask_ok cache i Hok) as (A1 & A2 & A3 & A4 & A5).
    destruct (IH (ask cache i) (if up (ask cache i) i then dadd s1 w else s1) (S i) A1 ltac:(lia))
      as (c & E & C1 & C2 & C3 & C4 & C5).
    assert (Ei : c !! i = ask cache i !! i) by (apply C4; lia).
    exists c. split.
    { rewrite E. f_equal. unfold up. rewrite Ei. done. }
    split; [done |]. split; [lia |]. split; [lia |]. split.
    + intros j Hj. rewrite C4, A4 by lia. done.
    + intros j Hj. destruct (decide (j = i)) as [->|Hn]; [rewrite Ei; exact A5 | apply C5; lia].
Qed.

Lemma total_good cache ws : Forall heavy ws -> forall s1 i, s1 = 0 \/ heavy s1 ->
  let s := total cache s1 i ws in (s = 0 \/ heavy s) /\
  (heavy s1 -> heavy s) /\ (s = 0 -> forall j, (i <= j < i + length ws)%nat -> up cache j = false).
Proof.
  induction 1 as [|w ws Hw _ IH]; intros s1 i Hs; cbv zeta; simpl.
  { split; [done |]. split; [done |]. intros _ j Hj. lia. }
  assert (Hs' : (if up cache i then dadd s1 w else s1) = 0 \/ heavy (if up cache i then dadd s1 w else s1)).
  { destruct (up cache i); [right; apply heavy_add; done | done]. }
  destruct (IH _ (S i) Hs') as (I1 & I2 & I3). split; [exact I1 |]. split.
  - intros H1. apply I2. destruct (up cache i); [apply heavy_add |]; done.
  - intros E j Hj. destruct (decide (j = i)) as [->|Hn]; [| apply I3; [done | lia]].
    destruct (up cache i); [| done]. exfalso.
    destruct (I2 (heavy_add s1 w Hs Hw)) as [Hp _]. lia.
Qed.

Lemma pick_healthy_spec ws r : forall cache s1 i, (i + length ws = length cache)%nat ->
  (forall j, (i <= j)%nat -> cache !! j <> Some c_unknown) -> s1 <= r < total cache s1 i ws ->
  exists j, pick_healthy healthy cache r s1 i ws = (Some j, cache) /\ (i <= j)%nat /\ cache !! j = Some c_healthy.
Proof.
  induction ws as [|w ws IH]; intros cache s1 i Hl Hk Hr; cbn [pick_healthy total length] in *; [lia |].
  assert (Ea : ask cache i = cache).
  { unfold ask. pose proof (Hk i ltac:(lia)). destruct (cache !! i) as [[]|]; done. }
  rewrite cache_healthy_ask, Ea by lia. destruct (up cache i) eqn:Eu; cbn [negb].
  - destruct (Z.leb_spec (dadd s1 w) r) as [Hle|Hgt].
    + destruct (IH cache (dadd s1 w) (S i)) as (j & E & H1 & H2); [lia | intros j Hj; apply Hk; lia | lia |].
      exists j. split; [exact E |]. split; [lia | done].
    + exists i. split; [done |]. split; [lia |]. unfold up in Eu. destruct (cache !! i) as [[]|]; done.
  - destruct (IH cache s1 (S i)) as (j & E & H1 & H2); [lia | intros j Hj; apply Hk; lia | lia |].
    exists j. split; [exact E |]. split; [lia | done].
Qed.

(** What a call may answer. *)
Definition answers (n : nat) (r : option Z) : Prop :=
  match r with
  | Some vbe => exists i, (i < n)%nat /\ healthy i = true /\ getfd i = Some vbe
  | None => forall i, (i < n)%nat -> ~ usable i
  end.

Lemma retry_spec vs u : Forall heavy (weights vs) -> (criteria vs <> c_random -> 0 <= u < 2 ^ 32) ->
  forall k random cache, Forall (fun x => 0 <= x < 2 ^ 31) random -> cache_ok cache ->
  length cache = length (weights vs) -> (hosts_left cache <= k)%nat ->
  exists r, retry healthy getfd k vs u random cache = Some r /\ answers (length (weights vs)) r.
Proof.
  intros Hw Hu. induction k as [|k IH]; intros random cache Hrand Hok Hl Hk; simpl.
  { exists None. split; [done |]. intros i Hi.
    destruct (lookup_lt_is_Some_2 cache i ltac:(lia)) as [h E].
    rewrite (hosts_left_0 cache i h ltac:(lia) E) in E. apply (Hok i _ E). }
  destruct (sum_healthy_spec (weights vs) cache 0 0 Hok ltac:(lia)) as (c & E & C1 & C2 & C3 & _ & C5).
  rewrite E. destruct (total_good c (weights vs) Hw 0 0 ltac:(left; done)) as (T1 & _ & T3).
  set (s1 := total c 0 0 (weights vs)) in *.
  destruct (Z.eqb_spec s1 0) as [Es|Es].
  { exists None. split; [done |]. intros i Hi.
    destruct (lookup_lt_is_Some_2 c i ltac:(lia)) as [h Eh]. specialize (T3 Es i ltac:(lia)).
    pose proof (C5 i ltac:(lia)) as Hk5. pose proof (C1 i h Eh) as Hf. unfold up in T3. rewrite Eh in *.
    destruct h; done. }
  assert (Hs : heavy s1) by (destruct T1; done).
  assert (Hpick : exists u' bits, (match criteria vs with c_random => (peek random, 31) | _ => (u, 32) end) = (u', bits) /\
    31 <= bits <= 32 /\ 0 <= u' < 2 ^ bits).
  { destruct (criteria vs) eqn:Ec.
    - exists (peek random), 31. split; [done |]. split; [lia |].
      destruct Hrand as [|x l Hx _]; simpl; [lia | exact Hx].
    - exists u, 32. split; [done |]. split; [lia | apply Hu; done].
    - exists u, 32. split; [done |]. split; [lia | apply Hu; done]. }
  destruct Hpick as (u' & bits & -> & Hb & Hu').
  rewrite (proj2 (andb_true_iff _ _)) by (rewrite Z.leb_le, Z.ltb_lt; exact Hu').
  destruct (pick_healthy_spec (weights vs) (scale u' bits s1) c 0 0) as (i & Ep & _ & Ei);
    [lia | intros j Hj; apply C5; lia | apply scale_below; done |].
  rewrite Ep. pose proof (lookup_lt_Some _ _ _ Ei) as Hi.
  destruct (getfd i) as [vbe|] eqn:Eg.
  - exists (Some vbe). split; [done |]. exists i. split; [lia |]. split; [apply (C1 i _ Ei) | done].
  - apply IH.
    + destruct Hrand; [constructor | done].
    + apply cache_ok_insert; [done |]. intros [_ [x Hx]]. congruence.
    + rewrite length_insert. lia.
    + pose proof (hosts_left_insert c i c_healthy c_unhealthy Ei) as Hh. simpl in Hh. lia.
Qed.

Lemma canonical_some ws r : forall s1 i, s1 <= r < foldl dadd s1 ws ->
  exists j, canonical r s1 i ws = Some j /\ (i <= j < i + length ws)%nat.
Proof.
  induction ws as [|w ws IH]; intros s1 i H; simpl in *; [lia |].
  destruct (Z.leb_spec (dadd s1 w) r) as [Hle|Hgt].
  - destruct (IH (dadd s1 w) (S i) ltac:(lia)) as (j & E & Hj). exists j. split; [exact E | lia].
  - exists i. split; [done | lia].
Qed.
Lemma foldl_heavy ws : Forall heavy ws -> forall s, heavy s -> heavy (foldl dadd s ws).
Proof. induction 1 as [|w ws Hw _ IH]; intros s Hs; simpl; [done |]. apply IH, heavy_add; [right |]; done. Qed.
Lemma sum_heavy ws : Forall heavy ws -> ws <> [] -> heavy (foldl dadd 0 ws).
Proof.
  intros H Hne. destruct H as [|w ws Hw H]; [done |]. simpl. apply foldl_heavy; [done |].
  apply heavy_add; [left |]; done.
Qed.
Lemma hosts_left_fresh n : hosts_left (replicate n c_unknown) = n.
Proof. unfold hosts_left. induction n as [|n IH]; simpl; [done |]. rewrite IH. done. Qed.

(** What is known before anybody has been asked. *)
Definition fresh (n : nat) : list health_c := replicate n c_unknown.
Lemma fresh_ok n : cache_ok (fresh n).
Proof. intros i h E. apply lookup_replicate in E as [-> _]. done. Qed.

Lemma try_canonical_spec vs u : Forall heavy (weights vs) -> weights vs <> [] ->
  tot_weight vs = foldl dadd 0 (weights vs) -> 0 <= u < 2 ^ 32 ->
  exists i, (i < length (weights vs))%nat /\
    canonical (scale u 32 (tot_weight vs)) 0 0 (weights vs) = Some i /\
    match try_canonical healthy getfd vs u (fresh (length (weights vs))) with
    | (Some vbe, _) => healthy i = true /\ getfd i = Some vbe
    | (None, cache) => ~ usable i /\ cache_ok cache /\ length cache = length (weights vs) /\
        (hosts_left cache <= length (weights vs))%nat
    end.
Proof.
  intros Hw Hne Ht Hu. unfold try_canonical. rewrite Ht. set (n := length (weights vs)).
  destruct (canonical_some (weights vs) (scale u 32 (foldl dadd 0 (weights vs))) 0 0) as (i & Ei & Hi).
  { apply scale_below; [lia | exact Hu | apply sum_heavy; done]. }
  exists i. split; [lia |]. split; [exact Ei |]. rewrite Ei.
  assert (Hlen : length (fresh n) = n) by apply length_replicate.
  rewrite cache_healthy_ask by lia.
  destruct (ask_ok (fresh n) i (fresh_ok n)) as (A1 & A2 & A3 & _ & _).
  unfold fresh in A3 at 2. rewrite hosts_left_fresh in A3.
  assert (Ea : ask (fresh n) i !! i = Some (if healthy i then c_healthy else c_unhealthy)).
  { unfold ask, fresh. rewrite lookup_replicate_2 by lia. apply list_lookup_insert_eq. rewrite length_replicate. lia. }
  unfold up. rewrite Ea. destruct (healthy i) eqn:Eh; [destruct (getfd i) as [vbe|] eqn:Eg; [done |] |].
  - assert (Hn : ~ usable i) by (intros [_ [x Hx]]; congruence).
    split; [exact Hn |]. split; [apply cache_ok_insert; done |]. split; [rewrite length_insert; lia |].
    pose proof (hosts_left_insert _ i c_healthy c_unhealthy Ea) as Hx. simpl in Hx. lia.
  - split; [intros [Hx _]; congruence |]. split; [done |]. lia.
Qed.

End RandomDirector.

Lemma lor_below a b k : 0 <= k -> 0 <= a < 2 ^ k -> 0 <= b < 2 ^ k -> 0 <= Z.lor a b < 2 ^ k.
Proof.
  intros Hk Ha Hb. assert (H : 0 <= Z.lor a b) by (apply Z.lor_nonneg; lia). split; [exact H |].
  destruct (Z.eq_dec (Z.lor a b) 0) as [->|Hn]; [apply Z.pow_pos_nonneg; lia |].
  apply Z.log2_lt_pow2; [lia |]. rewrite Z.log2_lor by lia.
  destruct (Z.eq_dec k 0) as [->|]; [simpl in *; assert (a = 0) by lia; assert (b = 0) by lia; subst; done |].
  apply Z.max_lub_lt; (destruct (Z.eq_dec a 0) as [->|]; destruct (Z.eq_dec b 0) as [->|];
    try (apply Z.log2_lt_pow2; lia); simpl; lia).
Qed.
Lemma hash_number_below hp : (forall k, 0 <= at_ hp k < 256) -> 0 <= hash_number hp < 2 ^ 32.
Proof.
  intros H. unfold hash_number.
  pose proof (H 0%nat). pose proof (H 1%nat). pose proof (H 2%nat). pose proof (H 3%nat).
  rewrite !Z.shiftl_mul_pow2 by lia.
  repeat apply lor_below; lia.
Qed.

(** C16: A random, hash or client director whose retries cover its hosts ends with
    a connection to a healthy host, and without one only when no healthy host
    gives one; its assertions hold.  Hashing takes the host that digest and
    weights name, whatever the state of the others, as long as it is usable. *)
Theorem vdi_random_getfd_finds healthy getfd crit nretries ws vs hp random :
  vrt_init crit nretries ws = Some vs -> Forall heavy ws ->
  nretries = 0%nat \/ (length ws <= nretries)%nat ->
  (forall k, 0 <= at_ hp k < 256) -> Forall (fun x => 0 <= x < 2 ^ 31) random ->
  exists r, vdi_random_getfd healthy getfd vs hp random = Some r /\
    answers healthy getfd (length ws) r /\
    (crit <> c_random -> ws <> [] -> exists i, (i < length ws)%nat /\
       canonical (scale (hash_number hp) 32 (foldl dadd 0 ws)) 0 0 ws = Some i /\
       (usable healthy getfd i -> r = getfd i)).
Proof.
  unfold vrt_init. destruct (forallb _ ws); [| done]. intros [= <-] Hw Hret Hhp Hrand.
  set (vs := Random crit _ _ ws). pose proof (hash_number_below hp Hhp) as Hh.
  assert (Hk : (length ws <= retries vs)%nat) by (cbn [vs retries]; destruct (Nat.eqb_spec nretries 0); lia).
  assert (Hretry : forall u c, (crit <> c_random -> 0 <= u < 2 ^ 32) -> cache_ok healthy getfd c ->
    length c = length ws -> (hosts_left c <= length ws)%nat ->
    exists r, retry healthy getfd (retries vs) vs u random c = Some r /\ answers healthy getfd (length ws) r).
  { intros u c Hu Hc Hl Hleft. apply (retry_spec healthy getfd vs u Hw Hu); try done. lia. }
  unfold vdi_random_getfd. change (criteria vs) with crit. change (weights vs) with ws. fold (fresh (length ws)).
  assert (Hf : cache_ok healthy getfd (fresh (length ws)) /\ length (fresh (length ws)) = length ws /\
    (hosts_left (fresh (length ws)) <= length ws)%nat).
  { split; [apply fresh_ok |]. split; [apply length_replicate | unfold fresh; rewrite hosts_left_fresh; done]. }
  destruct Hf as (F1 & F2 & F3).
  assert (Hhash : crit <> c_random -> exists r,
    (assert! (0 <=? hash_number hp) && (hash_number hp <? 2 ^ 32) ;;
     match try_canonical healthy getfd vs (hash_number hp) (fresh (length ws)) with
     | (Some vbe, _) => Some (Some vbe)
     | (None, cache) => retry healthy getfd (retries vs) vs (hash_number hp) random cache
     end) = Some r /\ answers healthy getfd (length ws) r /\
    (ws <> [] -> exists i, (i < length ws)%nat /\
       canonical (scale (hash_number hp) 32 (foldl dadd 0 ws)) 0 0 ws = Some i /\
       (usable healthy getfd i -> r = getfd i))).
  { intros Hc. rewrite (proj2 (andb_true_iff _ _)) by (rewrite Z.leb_le, Z.ltb_lt; exact Hh).
    destruct (decide (ws = [])) as [->|Hne].
    { destruct (Hretry (hash_number hp) [] (fun _ => Hh) F1 F2 F3) as (r & E & A). exists r. done. }
    destruct (try_canonical_spec healthy getfd vs (hash_number hp) Hw Hne eq_refl Hh) as (i & Hi & Ei & Ht).
    cbn [vs weights] in Ht. fold vs in Ht.
    destruct (try_canonical _ _ _ _ _) as [[vbe|] cache].
    - destruct Ht as [T1 T2]. exists (Some vbe). split; [done |]. split; [exists i; done |].
      intros _. exists i. done.
    - destruct Ht as (T1 & T2 & T3 & T4). destruct (Hretry (hash_number hp) cache (fun _ => Hh) T2 T3 T4) as (r & E & A).
      exists r. split; [exact E |]. split; [exact A |]. intros _. exists i. done. }
  destruct crit.
  - destruct (Hretry 0 _ ltac:(done) F1 F2 F3) as (r & E & A). exists r. done.
  - destruct (Hhash ltac:(done)) as (r & E & A & G). exists r. auto.
  - destruct (Hhash ltac:(done)) as (r & E & A & G). exists r. auto.
Qed.

Lemma heavy_seconds n : 0 < n -> heavy (of_int n).
Proof.
  intros H. unfold of_int, sec. split; [apply Z.mul_pos_pos; [exact H | apply Z.pow_pos_nonneg; lia] |].
  apply Z.divide_mul_r. exists (2 ^ 1042). rewrite <- Z.pow_add_r by lia. done.
Qed.
(** Three hosts, the last with half of the weight; the second is sick and the
    last refuses connections. *)
Definition one_up (i : nat) : bool := negb (i =? 1)%nat.
Definition refuses (i : nat) : option Z := if (i =? 2)%nat then None else Some (Z.of_nat i + 10).
Lemma vdi_random_getfd_finds_witness :
  exists r, vdi_random_getfd one_up refuses
      (Random c_hash 3 (foldl dadd 0 (map of_int [1; 1; 2])) (map of_int [1; 1; 2])) [1; 2; 3; 200] [] = Some r /\
    answers one_up refuses 3 r.
Proof.
  destruct (vdi_random_getfd_finds one_up refuses c_hash 0 (map of_int [1; 1; 2])
    (Random c_hash 3 (foldl dadd 0 (map of_int [1; 1; 2])) (map of_int [1; 1; 2])) [1; 2; 3; 200] [])
    as (r & E & A & _).
  - vm_compute. reflexivity.
  - repeat (constructor; [apply heavy_seconds; lia |]). constructor.
  - left. reflexivity.
  - intros [|[|[|[|k]]]]; vm_compute; intuition congruence.
  - constructor.
  - exists r. split; [exact E | exact A].
Defined.

End DirectorSpec.
