(* ===== verification/Backend.v ===== *)
(** * Backend: connections to backends

    [bin/varnishd/cache_backend.c], the reference counting of
    [cache_backend_cfg.c], and the list of troubled objects that
    [VRT_l_beresp_saintmode] in [cache_vrt.c] fills.  A connection ([struct
    vbe_conn]) is named by its address; it is in use by a session, or open and
    idle on the [connlist] of its backend, or unused on [vbe_conns].

    The operations work on one backend, named [bp], and on what the backends
    share.  The kernel's answers are parameters: whether the far end of a socket
    is still there, and the sockets that could be connected.  An object head is
    named by its address.  Statistics and log records are left out; [None] is a
    failed assertion.  The locked parts of [vbe_GetVbe] run in one step. *)
From S2P Require Import Prelude Double Sha256.

Module Backend.
Import Double.

Record trouble := Trouble { target : Z; timeout : double }.

Record vbe_conn := Conn { c_backend : option Z; fd : Z }.

Record backend := Bk {
  refcount : Z;
  max_conn : Z;
  n_conn : Z;
  connlist : list Z;
  probe : bool;
  healthy : bool;
  troublelist : list trouble;
  saintmode_threshold : Z;
  ipv4 : bool;
  ipv6 : bool
}.
Definition set_refcount (b : backend) (x : Z) : backend :=
  Bk x (max_conn b) (n_conn b) (connlist b) (probe b) (healthy b) (troublelist b) (saintmode_threshold b) (ipv4 b) (ipv6 b).
Definition set_n_conn (b : backend) (x : Z) : backend :=
  Bk (refcount b) (max_conn b) x (connlist b) (probe b) (healthy b) (troublelist b) (saintmode_threshold b) (ipv4 b) (ipv6 b).
Definition set_connlist (b : backend) (x : list Z) : backend :=
  Bk (refcount b) (max_conn b) (n_conn b) x (probe b) (healthy b) (troublelist b) (saintmode_threshold b) (ipv4 b) (ipv6 b).
Definition set_troublelist (b : backend) (x : list trouble) : backend :=
  Bk (refcount b) (max_conn b) (n_conn b) (connlist b) (probe b) (healthy b) x (saintmode_threshold b) (ipv4 b) (ipv6 b).

(** What the backends share: the connections, the unused ones, and the sockets
    that are open. *)
Record shared := Shared { conns : gmap Z vbe_conn; vbe_conns : list Z; sockets : gset Z }.
Definition set_conn (s : shared) (vc : Z) (c : vbe_conn) : shared :=
  Shared (<[vc := c]> (conns s)) (vbe_conns s) (sockets s).
Definition close (s : shared) (fd : Z) : shared := Shared (conns s) (vbe_conns s) (sockets s ∖ {[fd]}).
Definition open (s : shared) (fd : Z) : shared := Shared (conns s) (vbe_conns s) (sockets s ∪ {[fd]}).

Section Params.
Context (cache_vbe_conns prefer_ipv6 : bool) (param_saintmode_threshold : Z).
Definition UINT_MAX : Z := 2 ^ 32 - 1.

(** ** Saint mode *)

(** The walk over the troubled objects; an expired one ends it and is removed. *)
Fixpoint trouble_loop (now : double) (tgt threshold i : Z) (l : list trouble) : bool * list trouble :=
  match l with
  | [] => (true, [])
  | tr :: l =>
      if timeout tr <? now then (true, l)
      else if target tr =? tgt then (false, tr :: l)
      else
        let i := i + 1 in
        if threshold <=? i then (false, tr :: l)
        else let '(r, l) := trouble_loop now tgt threshold i l in (r, tr :: l)
  end.

Definition vbe_Healthy (now : double) (tgt : Z) (b : backend) : bool * backend :=
  if negb (healthy b) then (false, b)
  else
    let threshold := if saintmode_threshold b =? UINT_MAX then param_saintmode_threshold
                     else saintmode_threshold b in
    if threshold =? 0 then (true, b)
    else if tgt =? 0 then (true, b)
    else let '(r, l) := trouble_loop now tgt threshold 0 (troublelist b) in (r, set_troublelist b l).

Fixpoint insert_trouble (new : trouble) (l : list trouble) : list trouble :=
  match l with
  | [] => [new]
  | tr :: l => if timeout tr <? timeout new then new :: tr :: l else tr :: insert_trouble new l
  end.
(** [objhead] is the object head of the session, [a] the period. *)
Definition VRT_l_beresp_saintmode (t_req : double) (objhead : Z) (a : double) (b : backend) : option backend :=
  if objhead =? 0 then Some b
  else
    assert! 0 <? a ;;
    Some (set_troublelist b (insert_trouble (Trouble objhead (dadd t_req a)) (troublelist b))).

(** ** Connections *)

Definition VBE_ReleaseConn (vc : Z) (s : shared) : option shared :=
  let? c := conns s !! vc in
  assert! bool_decide (c_backend c = None) ;;
  assert! fd c <? 0 ;;
  Some (if cache_vbe_conns then Shared (conns s) (vc :: vbe_conns s) (sockets s)
        else Shared (delete vc (conns s)) (vbe_conns s) (sockets s)).

(** The idle connections of a backend that is going away. *)
Fixpoint drop_conns (l : list Z) (s : shared) : option shared :=
  match l with
  | [] => Some s
  | vbe :: l =>
      let? c := conns s !! vbe in
      let s := if 0 <=? fd c then close s (fd c) else s in
      let s := set_conn s vbe (Conn None (if 0 <=? fd c then -1 else fd c)) in
      let? s := VBE_ReleaseConn vbe s in
      drop_conns l s
  end.

(** What is left of the backend, if anything; [cli] is the CLI thread. *)
Definition VBE_DropRefLocked (cli : bool) (b : backend) (s : shared) : option (option backend * shared) :=
  assert! 0 <? refcount b ;;
  let b := set_refcount b (refcount b - 1) in
  if 0 <? refcount b then Some (Some b, s)
  else
    assert! cli ;;
    let? s := drop_conns (connlist b) s in
    let b := set_connlist b [] in
    if probe b then
      Some (Some (Bk (refcount b) (max_conn b) (n_conn b) (connlist b) false (healthy b)
                    (troublelist b) (saintmode_threshold b) (ipv4 b) (ipv6 b)), s)
    else Some (None, s).

Definition VBE_DropRef (b : backend) (s : shared) : option (option backend * shared) :=
  VBE_DropRefLocked true b s.
Definition VBE_DropRefConn (b : backend) (s : shared) : option (option backend * shared) :=
  assert! 0 <? n_conn b ;;
  VBE_DropRefLocked false (set_n_conn b (n_conn b - 1)) s.

Definition VBE_ClosedFd (bp vc : Z) (b : backend) (s : shared) : option (option backend * shared) :=
  let? c := conns s !! vc in
  assert! bool_decide (c_backend c = Some bp) ;;
  assert! 0 <=? fd c ;;
  let s := set_conn (close s (fd c)) vc (Conn (c_backend c) (-1)) in
  let? (b, s) := VBE_DropRefConn b s in
  let s := set_conn s vc (Conn None (-1)) in
  let? s := VBE_ReleaseConn vc s in
  Some (b, s).

Definition VBE_RecycleFd (bp vc : Z) (b : backend) (s : shared) : option (option backend * shared) :=
  let? c := conns s !! vc in
  assert! bool_decide (c_backend c = Some bp) ;;
  assert! 0 <=? fd c ;;
  VBE_DropRefLocked false (set_connlist b (vc :: connlist b)) s.

(** The world of one call: whether the far end of a socket is still there, the
    sockets the kernel gives for the two addresses when certain ones are open, and
    the address [calloc] gives when certain ones are in use. *)
Record world := World {
  alive : Z -> bool;
  try4 : gset Z -> option Z;
  try6 : gset Z -> option Z;
  calloc : gset Z -> Z
}.

(** An unused connection, or a new one. *)
Definition vbe_NewConn (w : world) (s : shared) : Z * shared :=
  match vbe_conns s with
  | vc :: l => (vc, Shared (conns s) l (sockets s))
  | [] => let vc := calloc w (dom (conns s)) in (vc, set_conn s vc (Conn None (-1)))
  end.

Definition bes_conn_try (w : world) (b : backend) (s : shared) : option (option Z * backend * shared) :=
  let b := set_n_conn (set_refcount b (refcount b + 1)) (n_conn b + 1) in
  assert! ipv6 b || ipv4 b ;;
  let r := if prefer_ipv6 && ipv6 b then try6 w (sockets s) else None in
  let r := if bool_decide (r = None) && ipv4 b then try4 w (sockets s) else r in
  let r := if bool_decide (r = None) && negb prefer_ipv6 && ipv6 b then try6 w (sockets s) else r in
  match r with
  | Some fd => Some (Some fd, b, open s fd)
  | None => Some (None, set_refcount (set_n_conn b (n_conn b - 1)) (refcount b - 1), s)
  end.

(** The loop over the idle connections: the first one that is alive.  The others
    are closed. *)
Fixpoint recycle_loop (alive : Z -> bool) (bp : Z) (fuel : nat) (b : backend) (s : shared)
  : option (option Z * backend * shared) :=
  match fuel with
  | O => None
  | S fuel =>
      match connlist b with
      | [] => Some (None, b, s)
      | vc :: l =>
          let b := set_refcount b (refcount b + 1) in
          let? c := conns s !! vc in
          assert! bool_decide (c_backend c = Some bp) ;;
          assert! 0 <=? fd c ;;
          let b := set_connlist b l in
          if alive (fd c) then Some (Some vc, b, s)
          else
            let? (b, s) := VBE_ClosedFd bp vc b s in
            let? b := b in
            recycle_loop alive bp fuel b s
      end
  end.

Definition vbe_GetVbe (w : world) (t_req : double) (objhead bp : Z) (b : backend) (s : shared)
  : option (option Z * backend * shared) :=
  let? (r, b, s) := recycle_loop (alive w) bp (S (length (connlist b))) b s in
  match r with
  | Some vc => Some (Some vc, b, s)
  | None =>
      let '(h, b) := vbe_Healthy t_req objhead b in
      if negb h then Some (None, b, s)
      else if (0 <? max_conn b) && (max_conn b <=? n_conn b) then Some (None, b, s)
      else
        let '(vc, s) := vbe_NewConn w s in
        let? c := conns s !! vc in
        assert! fd c =? -1 ;;
        assert! bool_decide (c_backend c = None) ;;
        let? (r, b, s) := bes_conn_try w b s in
        match r with
        | None => let? s := VBE_ReleaseConn vc (set_conn s vc (Conn None (-1))) in Some (None, b, s)
        | Some fd => Some (Some vc, b, set_conn s vc (Conn (Some bp) fd))
        end
  end.

End Params.

(** ** The list of backends

    A backend of a VCL program: what identifies it, its two socket addresses and
    its limits.  The list [backends] keeps what identifies each backend next to
    its address. *)
Record vrt_backend := Vrt {
  v_ident : list Z;
  ipv4_sockaddr : option (list Z);
  ipv6_sockaddr : option (list Z);
  max_connections : Z;
  v_saintmode_threshold : Z;
  has_probe : bool
}.
Record identity := Identity { hash : list Z; ident : list Z; b_ipv4 : list Z; b_ipv6 : list Z }.
Record config := Config { backends : list (Z * identity); bks : gmap Z backend }.

(** The first four bytes of the SHA-256 of what identifies the backend. *)
Definition vrt_hash (junk : list Z) (vb : vrt_backend) : list Z :=
  let ctx := Sha256.SHA256_Update (Sha256.SHA256_Init junk) (v_ident vb) in
  let ctx := match ipv4_sockaddr vb with Some a => Sha256.SHA256_Update ctx a | None => ctx end in
  let ctx := match ipv6_sockaddr vb with Some a => Sha256.SHA256_Update ctx a | None => ctx end in
  take 4 (Sha256.SHA256_Final ctx).

(** [memcmp] with the address of the VCL program: a program without one has a
    null pointer, which cannot be read. *)
Definition addr_differs (own : list Z) (sa : option (list Z)) : option bool :=
  if bool_decide (own = []) then Some false
  else let? a := sa in Some (negb (bool_decide (take (length own) a = own))).
Definition len_differs (own : list Z) (sa : option (list Z)) : bool :=
  match sa with Some a => negb (bool_decide (length own = length a)) | None => false end.

Fixpoint find_backend (u : list Z) (vb : vrt_backend) (l : list (Z * identity)) : option (option Z) :=
  match l with
  | [] => Some None
  | (bp, i) :: l =>
      if negb (bool_decide (u = hash i)) then find_backend u vb l
      else if negb (bool_decide (ident i = v_ident vb)) then find_backend u vb l
      else if len_differs (b_ipv4 i) (ipv4_sockaddr vb) then find_backend u vb l
      else if len_differs (b_ipv6 i) (ipv6_sockaddr vb) then find_backend u vb l
      else
        let? d4 := addr_differs (b_ipv4 i) (ipv4_sockaddr vb) in
        if d4 then find_backend u vb l
        else
          let? d6 := addr_differs (b_ipv6 i) (ipv6_sockaddr vb) in
          if d6 then find_backend u vb l else Some (Some bp)
  end.

(** [copy_sockaddr]. *)
Definition copy_sockaddr (sa : option (list Z)) : option (list Z) :=
  match sa with
  | None => Some []
  | Some a => assert! (0 <? Z.of_nat (length a)) ;; Some a
  end.
(** [addr] is where a new backend is put; [VBP_Start] starts its probe, or takes
    it to be healthy. *)
Definition VBE_AddBackend (junk : list Z) (addr : Z) (vb : vrt_backend) (cf : config) : option (Z * config) :=
  assert! bool_decide (is_Some (ipv4_sockaddr vb)) || bool_decide (is_Some (ipv6_sockaddr vb)) ;;
  let u := vrt_hash junk vb in
  let? r := find_backend u vb (backends cf) in
  match r with
  | Some bp =>
      let? b := bks cf !! bp in
      Some (bp, Config (backends cf) (<[bp := set_refcount b (refcount b + 1)]> (bks cf)))
  | None =>
      let? a4 := copy_sockaddr (ipv4_sockaddr vb) in
      let? a6 := copy_sockaddr (ipv6_sockaddr vb) in
      let b := Bk 1 (max_connections vb) 0 [] (has_probe vb) (negb (has_probe vb)) []
                 (v_saintmode_threshold vb)
                 (bool_decide (is_Some (ipv4_sockaddr vb))) (bool_decide (is_Some (ipv6_sockaddr vb))) in
      Some (addr, Config (backends cf ++ [(addr, Identity u (v_ident vb) a4 a6)]) (<[addr := b]> (bks cf)))
  end.

Definition VBE_Nuke (bp : Z) (cf : config) : config :=
  Config (filter (fun e => e.1 <> bp) (backends cf)) (delete bp (bks cf)).

(** [VBE_Poll]: the backends nobody refers to any more go away. *)
Fixpoint poll_loop (l : list (Z * identity)) (cf : config) : option config :=
  match l with
  | [] => Some cf
  | (bp, _) :: l =>
      let? b := bks cf !! bp in
      poll_loop l (if (refcount b =? 0) && negb (probe b) then VBE_Nuke bp cf else cf)
  end.
Definition VBE_Poll (cf : config) : option config := poll_loop (backends cf) cf.

End Backend.
