(* ===== verification/BackendSpec.v ===== *)
(** * BackendSpec: connections are counted and troubles expire

    The invariant of the connections to any number of backends, kept by every
    call a session or the CLI thread makes; and what saint mode answers. *)
From stdpp Require Import gmap sets sorting.
From S2P Require Import Prelude Double Backend.

Module BackendSpec.
Import Double Backend.

(** ** Saint mode *)

(** The troubles are in the order in which they expire, the last one first. *)
Definition later (a b : trouble) : Prop := timeout b <= timeout a.
Definition ordered (l : list trouble) : Prop := StronglySorted later l.
Definition current (now : double) (l : list trouble) : list trouble := filter (fun tr => now <= timeout tr) l.

Lemma insert_perm new l : insert_trouble new l ≡ₚ new :: l.
Proof.
  induction l as [|tr l IH]; simpl; [done |]. destruct (_ <? _); [done |]. rewrite IH. constructor.
Qed.
Lemma insert_ordered new l : ordered l -> ordered (insert_trouble new l).
Proof.
  unfold ordered. induction 1 as [|tr l Hl IH Htr]; simpl; [repeat constructor |].
  destruct (Z.ltb_spec (timeout tr) (timeout new)) as [Hlt|Hge].
  - constructor; [constructor; done |]. constructor; [unfold later; lia |].
    eapply Forall_impl; [exact Htr |]. unfold later. intros x Hx. lia.
  - constructor; [done |]. rewrite insert_perm. constructor; [unfold later; lia | done].
Qed.

Lemma current_none now tr l : ordered (tr :: l) -> timeout tr < now -> current now l = [].
Proof.
  intros H Ht. apply StronglySorted_inv in H as [_ H]. unfold current. induction H as [|x l Hx _ IH]; [done |].
  unfold later in Hx. rewrite filter_cons_False by lia. exact IH.
Qed.

Definition blocked (now : double) (tgt threshold : Z) (l : list trouble) : bool :=
  existsb (fun tr => target tr =? tgt) (current now l) || (threshold <=? Z.of_nat (length (current now l))).

Lemma trouble_loop_spec now tgt threshold l : ordered l -> forall i, 0 <= i < threshold ->
  let '(r, l') := trouble_loop now tgt threshold i l in
  r = negb (blocked now tgt (threshold - i) l) /\ ordered l' /\ current now l' = current now l /\
  sublist l' l.
Proof.
  induction 1 as [|tr l Hl IH Htr]; intros i Hi; simpl.
  - unfold blocked, current. simpl. rewrite (proj2 (Z.leb_gt _ _)) by lia.
    split; [done |]. split; [constructor |]. done.
  - assert (Ho : ordered (tr :: l)) by (constructor; done).
    destruct (Z.ltb_spec (timeout tr) now) as [Hx|Hx].
    { unfold blocked. assert (Ec : current now (tr :: l) = []).
      { unfold current. rewrite filter_cons_False by lia. apply (current_none now tr l Ho Hx). }
      rewrite Ec. simpl. rewrite (proj2 (Z.leb_gt _ _)) by lia. split; [done |]. split; [done |].
      split; [apply (current_none now tr l Ho Hx) | constructor; done]. }
    assert (Ec : current now (tr :: l) = tr :: current now l).
    { unfold current. rewrite filter_cons_True by lia. done. }
    unfold blocked. rewrite Ec. cbn [existsb length].
    destruct (target tr =? tgt) eqn:Et; simpl; [split; [done |]; split; [done |]; split; [exact Ec | done] |].
    destruct (Z.leb_spec threshold (i + 1)) as [Hle|Hgt].
    { rewrite (proj2 (Z.leb_le _ _)) by lia. rewrite orb_true_r. split; [done |]. split; [done |].
      split; [exact Ec | done]. }
    specialize (IH (i + 1) ltac:(lia)). destruct (trouble_loop _ _ _ _ l) as [r l'].
    destruct IH as (I1 & I2 & I3 & I4). split; [| split; [| split]].
    + rewrite I1. unfold blocked. do 2 f_equal. apply eq_true_iff_eq. rewrite !Z.leb_le. lia.
    + constructor; [exact I2 |]. apply Forall_forall. intros x Hin.
      rewrite Forall_forall in Htr. apply Htr. apply (elem_of_sublist _ _ _ Hin I4).
    + unfold current. rewrite filter_cons_True by lia. unfold current in *. rewrite I3. done.
    + constructor. exact I4.
Qed.

(** What happens to the list of a backend: a check of its health, or trouble. *)
Inductive saint_call := Ask (now : double) (tgt : Z) | Blame (t_req : double) (objhead : Z) (a : double).
Definition saint_exec (param : Z) (c : saint_call) (b : backend) : option backend :=
  match c with
  | Ask now tgt => Some (vbe_Healthy param now tgt b).2
  | Blame t_req objhead a => VRT_l_beresp_saintmode t_req objhead a b
  end.
Fixpoint saint_run (param : Z) (l : list saint_call) (b : backend) : option backend :=
  match l with [] => Some b | c :: l => let? b := saint_exec param c b in saint_run param l b end.
Definition threshold_of (param : Z) (b : backend) : Z :=
  if saintmode_threshold b =? UINT_MAX then param else saintmode_threshold b.

Lemma healthy_step param now tgt b : ordered (troublelist b) -> 0 <= threshold_of param b ->
  let '(r, b') := vbe_Healthy param now tgt b in
  ordered (troublelist b') /\ threshold_of param b' = threshold_of param b /\ healthy b' = healthy b /\
  r = healthy b && ((threshold_of param b =? 0) || (tgt =? 0) ||
        negb (blocked now tgt (threshold_of param b) (troublelist b))).
Proof.
  intros Ho Ht. unfold vbe_Healthy. fold (threshold_of param b).
  destruct (healthy b) eqn:Eh; simpl; [| done].
  destruct (Z.eqb_spec (threshold_of param b) 0) as [Ez|Ez]; [done |].
  destruct (Z.eqb_spec tgt 0) as [Et|Et]; [done |].
  pose proof (trouble_loop_spec now tgt (threshold_of param b) (troublelist b) Ho 0 ltac:(lia)) as H.
  destruct (trouble_loop _ _ _ _ _) as [r l]. destruct H as (H1 & H2 & _).
  rewrite Z.sub_0_r in H1. simpl. split; [exact H2 |]. split; [done |]. split; [exact Eh | exact H1].
Qed.


Definition bk0 : backend := Bk 1 0 0 [] true true [] UINT_MAX true false.

(** ** Connections *)

Definition live (s : shared) (bp vc : Z) : Prop := exists fd, conns s !! vc = Some (Conn (Some bp) fd).

(** The open sockets are exactly those of the connections, one each. *)
Record sinv (s : shared) : Prop := {
  si_open : forall vc bp fd, conns s !! vc = Some (Conn (Some bp) fd) -> 0 <= fd /\ fd ∈ sockets s;
  si_owned : forall fd, fd ∈ sockets s -> exists vc bp, conns s !! vc = Some (Conn (Some bp) fd);
  si_one : forall vc vc' bp bp' fd, conns s !! vc = Some (Conn (Some bp) fd) ->
    conns s !! vc' = Some (Conn (Some bp') fd) -> vc = vc';
  si_nodup : NoDup (vbe_conns s);
  si_unused : forall vc, vc ∈ vbe_conns s -> conns s !! vc = Some (Conn None (-1))
}.

(** A backend with [refs] directors and the connections [held] by sessions. *)
Record binv (bp : Z) (b : backend) (refs : Z) (held : list Z) (s : shared) : Prop := {
  bi_refs : 0 <= refs /\ (held <> [] -> 0 < refs);
  bi_refcount : refcount b = refs + Z.of_nat (length held);
  bi_n_conn : 0 < refs -> n_conn b = Z.of_nat (length held) + Z.of_nat (length (connlist b));
  bi_nodup : NoDup (held ++ connlist b);
  bi_live : forall vc, live s bp vc <-> vc ∈ held ++ connlist b;
  bi_max : 0 < refs -> 0 < max_conn b -> n_conn b <= max_conn b;
  bi_addr : ipv6 b || ipv4 b = true;
  bi_idle : refs = 0 -> connlist b = []
}.

(** The connections of the other backends are left alone. *)
Definition frame (bp : Z) (s s' : shared) : Prop :=
  forall bp' vc fd, bp' <> bp -> conns s !! vc = Some (Conn (Some bp') fd) <-> conns s' !! vc = Some (Conn (Some bp') fd).
#[export] Instance frame_pre bp : PreOrder (frame bp).
Proof.
  split; [intros s bp' vc fd _; done |].
  intros s1 s2 s3 H1 H2 bp' vc fd Hn. rewrite (H1 bp' vc fd Hn). apply H2. exact Hn.
Qed.
Lemma binv_frame bp bp' b refs held s s' : frame bp s s' -> bp' <> bp -> binv bp' b refs held s -> binv bp' b refs held s'.
Proof.
  intros Hf Hn [H1 H2 H3 H4 H5 H6 H7 H8]. constructor; try done.
  intros vc. rewrite <- H5. unfold live. split; intros [fd E]; exists fd; apply (Hf bp' vc fd Hn); exact E.
Qed.
Lemma binv_perm bp b refs held held' s : held ≡ₚ held' -> binv bp b refs held s -> binv bp b refs held' s.
Proof.
  intros Hp [H1 H2 H3 H4 H5 H6 H7 H8].
  assert (Hl : length held' = length held) by (rewrite Hp; done).
  constructor; rewrite ?Hl; try done.
  - destruct H1 as [H1 H1']. split; [done |]. intros Hne. apply H1'. intros ->. apply Hne.
    destruct held'; done.
  - rewrite <- Hp. done.
  - intros vc. rewrite H5, Hp. done.
Qed.

Section Calls.
Context (cache prefer : bool) (param : Z) (junk : list Z).

(** A connection is given back unused. *)
Lemma release_spec vc s : conns s !! vc = Some (Conn None (-1)) -> vc ∉ vbe_conns s -> sinv s ->
  exists s', VBE_ReleaseConn cache vc s = Some s' /\ sinv s' /\ sockets s' = sockets s /\
    forall v bp fd, conns s' !! v = Some (Conn (Some bp) fd) <-> conns s !! v = Some (Conn (Some bp) fd).
Proof.
  intros E Hn [S1 S2 S3 S4 S5]. unfold VBE_ReleaseConn. rewrite E. simpl. eexists. split; [reflexivity |]. destruct cache; simpl.
  - split; [| split; [done |]; done]. constructor; simpl; try done.
    + constructor; done.
    + intros v Hv. apply elem_of_cons in Hv as [->|Hv]; [done | apply S5; done].
  - assert (Hd : forall v bp fd, delete vc (conns s) !! v = Some (Conn (Some bp) fd) <->
      conns s !! v = Some (Conn (Some bp) fd)).
    { intros v bp fd. destruct (decide (v = vc)) as [->|Hv].
      - rewrite lookup_delete_eq, E. split; intros; congruence.
      - rewrite lookup_delete_ne by done. done. }
    split; [| done]. constructor; simpl; try done.
    + intros v bp fd Hv. apply Hd in Hv. apply (S1 v bp fd Hv).
    + intros fd Hf. destruct (S2 fd Hf) as (v & bp & Hv). exists v, bp. apply Hd. exact Hv.
    + intros v v' bp bp' fd H1 H2. apply Hd in H1, H2. apply (S3 v v' bp bp' fd H1 H2).
    + intros v Hv. rewrite lookup_delete_ne; [apply S5; done |]. intros ->. done.
Qed.

(** An open connection is closed. *)
Lemma close_spec bp vc fd s : conns s !! vc = Some (Conn (Some bp) fd) -> sinv s ->
  exists s', VBE_ReleaseConn cache vc (set_conn (close s fd) vc (Conn None (-1))) = Some s' /\ sinv s' /\
    frame bp s s' /\ forall v, live s' bp v <-> live s bp v /\ v <> vc.
Proof.
  intros E HS. pose proof HS as [S1 S2 S3 S4 S5].
  set (s1 := set_conn (close s fd) vc (Conn None (-1))).
  assert (Hnot : vc ∉ vbe_conns s) by (intros Hin; apply S5 in Hin; congruence).
  assert (HS1 : sinv s1).
  { constructor; cbn [s1 set_conn close conns vbe_conns sockets].
    - intros v b f Hv. destruct (decide (v = vc)) as [->|Hne]; [rewrite lookup_insert_eq in Hv; congruence |].
      rewrite lookup_insert_ne in Hv by done. destruct (S1 v b f Hv) as [H1 H2]. split; [done |].
      apply elem_of_difference. split; [done |]. intros Hf. apply elem_of_singleton in Hf. subst f.
      apply Hne. apply (S3 v vc b bp fd Hv E).
    - intros f Hf. apply elem_of_difference in Hf as [Hf Hn]. destruct (S2 f Hf) as (v & b & Hv).
      exists v, b. rewrite lookup_insert_ne; [done |]. intros <-. rewrite E in Hv. simplify_eq. set_solver.
    - intros v v' b b' f H1 H2.
      destruct (decide (v = vc)) as [->|Hne]; [rewrite lookup_insert_eq in H1; congruence |].
      destruct (decide (v' = vc)) as [->|Hne']; [rewrite lookup_insert_eq in H2; congruence |].
      rewrite lookup_insert_ne in H1, H2 by done. apply (S3 v v' b b' f H1 H2).
    - done.
    - intros v Hv. rewrite lookup_insert_ne; [apply S5; done |]. intros ->. done. }
  destruct (release_spec vc s1) as (s' & E' & HS' & _ & Hc); [apply lookup_insert_eq | exact Hnot | exact HS1 |].
  exists s'. split; [exact E' |]. split; [exact HS' |].
  assert (Hl : forall v b f, conns s' !! v = Some (Conn (Some b) f) <->
    v <> vc /\ conns s !! v = Some (Conn (Some b) f)).
  { intros v b f. rewrite Hc. cbn [s1 set_conn close conns]. destruct (decide (v = vc)) as [->|Hne].
    - rewrite lookup_insert_eq. split; [congruence | intros [? _]; done].
    - rewrite lookup_insert_ne by done. tauto. }
  split.
  - intros b v f Hb. rewrite Hl. split; [| tauto]. intros Hv. split; [| done]. intros ->. congruence.
  - intros v. unfold live. split.
    + intros [f Hv]. apply Hl in Hv as [Hv1 Hv2]. split; [exists f; done | done].
    + intros [[f Hv] Hne]. exists f. apply Hl. done.
Qed.

Lemma drop_ref_kept cli b s : 1 < refcount b ->
  VBE_DropRefLocked cache cli b s = Some (Some (set_refcount b (refcount b - 1)), s).
Proof.
  intros H. unfold VBE_DropRefLocked. rewrite (proj2 (Z.ltb_lt 0 (refcount b))) by lia. simpl.
  rewrite (proj2 (Z.ltb_lt 0 _)) by lia. done.
Qed.

Lemma live_lookup s bp vc : sinv s -> live s bp vc -> exists fd, conns s !! vc = Some (Conn (Some bp) fd) /\ 0 <= fd.
Proof. intros HS [fd E]. exists fd. split; [done |]. apply (si_open _ HS vc bp fd E). Qed.

(** A session closes the connection it holds. *)
Lemma closed_spec bp vc b refs held s : sinv s -> binv bp b refs (vc :: held) s ->
  exists b' s', VBE_ClosedFd cache bp vc b s = Some (Some b', s') /\ sinv s' /\ binv bp b' refs held s' /\
    frame bp s s' /\ connlist b' = connlist b.
Proof.
  intros HS [H1 H2 H3 H4 H5 H6 H7 H8]. destruct (live_lookup s bp vc HS) as (fd & E & Hfd).
  { apply H5. left. }
  unfold VBE_ClosedFd. rewrite E. simpl. rewrite bool_decide_true by done.
  rewrite (proj2 (Z.leb_le 0 fd)) by done. simpl. unfold VBE_DropRefConn.
  assert (Hr : 0 < refs) by (apply H1; done). specialize (H3 Hr). specialize (H6 Hr).
  cbn [length] in H2, H3.
  rewrite (proj2 (Z.ltb_lt 0 (n_conn b))) by lia. rewrite drop_ref_kept by (simpl; lia).
  assert (Es : set_conn (set_conn (close s fd) vc (Conn (Some bp) (-1))) vc (Conn None (-1)) =
    set_conn (close s fd) vc (Conn None (-1))).
  { unfold set_conn. simpl. rewrite insert_insert_eq. done. }
  rewrite Es. destruct (close_spec bp vc fd s E HS) as (s' & -> & HS' & Hf & Hl).
  eexists. exists s'. split; [reflexivity |]. split; [exact HS' |]. split; [| split; [exact Hf | done]].
  cbn [app] in H4. apply NoDup_cons in H4 as [H4 H4'].
  constructor; simpl.
  - split; [lia | done].
  - lia.
  - lia.
  - exact H4'.
  - intros v. rewrite Hl, H5. cbn [app]. rewrite elem_of_cons. split; [tauto |].
    intros Hv. split; [tauto |]. intros ->. done.
  - intros _ Hm. specialize (H6 Hm). lia.
  - exact H7.
  - intros Hz. lia.
Qed.

(** A session gives the connection it holds back for others. *)
Lemma recycle_spec bp vc b refs held s : sinv s -> binv bp b refs (vc :: held) s ->
  exists b', VBE_RecycleFd cache bp vc b s = Some (Some b', s) /\ binv bp b' refs held s.
Proof.
  intros HS [H1 H2 H3 H4 H5 H6 H7 H8]. destruct (live_lookup s bp vc HS) as (fd & E & Hfd).
  { apply H5. left. }
  unfold VBE_RecycleFd. rewrite E. simpl. rewrite bool_decide_true by done.
  rewrite (proj2 (Z.leb_le 0 fd)) by done. simpl.
  assert (Hr : 0 < refs) by (apply H1; done). specialize (H3 Hr). specialize (H6 Hr). cbn [length] in H2, H3.
  rewrite drop_ref_kept by (simpl; lia). eexists. split; [reflexivity |].
  assert (Hp : held ++ vc :: connlist b ≡ₚ (vc :: held) ++ connlist b) by (symmetry; apply Permutation_middle).
  constructor; simpl.
  - split; [lia | done].
  - lia.
  - lia.
  - rewrite Hp. exact H4.
  - intros v. rewrite H5, Hp. done.
  - intros _ Hm. specialize (H6 Hm). lia.
  - exact H7.
  - intros Hz. lia.
Qed.

Lemma recycle_loop_spec alive bp refs fuel : forall b held s, sinv s -> binv bp b refs held s -> 0 < refs ->
  (length (connlist b) < fuel)%nat ->
  exists r b' s', recycle_loop cache alive bp fuel b s = Some (r, b', s') /\ sinv s' /\ frame bp s s' /\
    binv bp b' refs (option_list r ++ held) s'.
Proof.
  induction fuel as [|fuel IH]; intros b held s HS HB Hr Hf; [lia |]. cbn [recycle_loop].
  destruct (connlist b) as [|vc l] eqn:El.
  { exists None, b, s. split; [done |]. split; [done |]. split; [reflexivity | done]. }
  destruct (live_lookup s bp vc HS) as (fd & E & Hfd).
  { apply (bi_live _ _ _ _ _ HB). rewrite El. apply elem_of_app. right. left. }
  rewrite E. simpl. rewrite bool_decide_true by done. rewrite (proj2 (Z.leb_le 0 fd)) by done. simpl.
  set (b1 := set_connlist (set_refcount b (refcount b + 1)) l).
  assert (HB1 : binv bp b1 refs (vc :: held) s).
  { destruct HB as [H1 H2 H3 H4 H5 H6 H7 H8]. rewrite El in *.
    assert (Hp : held ++ vc :: l ≡ₚ (vc :: held) ++ l) by (symmetry; apply Permutation_middle).
    specialize (H3 Hr). cbn [length] in H3.
    constructor; simpl; [split; [lia | done] | lia | lia | rewrite Hp in H4; exact H4 | | exact H6 | exact H7 | lia].
    intros v. rewrite H5, Hp. done. }
  destruct (alive fd).
  { exists (Some vc), b1, s. split; [done |]. split; [done |]. split; [reflexivity | exact HB1]. }
  destruct (closed_spec bp vc b1 refs held s HS HB1) as (b2 & s2 & -> & HS2 & HB2 & F2 & El2).
  destruct (IH b2 held s2 HS2 HB2 Hr) as (r & b3 & s3 & E3 & HS3 & F3 & HB3).
  { rewrite El2. simpl in *. lia. }
  exists r, b3, s3. split; [exact E3 |]. split; [done |]. split; [etransitivity; done | done].
Qed.

Lemma healthy_binv now tgt bp b refs held s : binv bp b refs held s ->
  binv bp (vbe_Healthy param now tgt b).2 refs held s /\ max_conn (vbe_Healthy param now tgt b).2 = max_conn b.
Proof.
  intros H. unfold vbe_Healthy. destruct (negb _); [done |]. destruct (_ =? 0); [done |].
  destruct (tgt =? 0); [done |]. destruct (trouble_loop _ _ _ _ _) as [r l]. simpl. split; [| done].
  destruct H as [H1 H2 H3 H4 H5 H6 H7 H8]. constructor; done.
Qed.

(** What the kernel and the allocator promise. *)
Definition world_ok (w : world) : Prop :=
  (forall S fd, try4 w S = Some fd -> 0 <= fd /\ fd ∉ S) /\
  (forall S fd, try6 w S = Some fd -> 0 <= fd /\ fd ∉ S) /\
  (forall S, calloc w S ∉ S).

Lemma new_conn_spec w s : world_ok w -> sinv s ->
  let '(vc, s') := vbe_NewConn w s in
  conns s' !! vc = Some (Conn None (-1)) /\ vc ∉ vbe_conns s' /\ sinv s' /\ sockets s' = sockets s /\
  (forall v bp fd, conns s' !! v = Some (Conn (Some bp) fd) <-> conns s !! v = Some (Conn (Some bp) fd)).
Proof.
  intros (_ & _ & Hw) [S1 S2 S3 S4 S5]. unfold vbe_NewConn. destruct (vbe_conns s) as [|vc l] eqn:E; cbn [conns vbe_conns sockets set_conn].
  - specialize (Hw (dom (conns s))). apply not_elem_of_dom in Hw. set (vc := calloc w (dom (conns s))) in *.
    assert (Hl : forall v bp fd, <[vc := Conn None (-1)]> (conns s) !! v = Some (Conn (Some bp) fd) <->
      conns s !! v = Some (Conn (Some bp) fd)).
    { intros v bp fd. destruct (decide (v = vc)) as [->|Hn].
      - rewrite lookup_insert_eq, Hw. split; congruence.
      - rewrite lookup_insert_ne by done. done. }
    split; [apply lookup_insert_eq |]. rewrite ?E. split; [set_solver |]. split; [| done].
    constructor; cbn [conns vbe_conns sockets]; rewrite ?E.
    + intros v bp fd Hv. apply Hl in Hv. apply (S1 v bp fd Hv).
    + intros fd Hf. destruct (S2 fd Hf) as (v & bp & Hv). exists v, bp. apply Hl. exact Hv.
    + intros v v' bp bp' fd H1 H2. apply Hl in H1, H2. apply (S3 v v' bp bp' fd H1 H2).
    + simpl. rewrite E. constructor.
    + simpl. rewrite E. intros v Hv. set_solver.
  - apply NoDup_cons in S4 as [S4 S4']. split; [apply S5; left |]. split; [exact S4 |].
    split; [| done]. constructor; cbn [conns vbe_conns sockets]; try done.
    intros v Hv. apply S5. right. exact Hv.
Qed.

Lemma conn_try_spec w b s : world_ok w -> ipv6 b || ipv4 b = true ->
  exists r b', bes_conn_try prefer w b s = Some (r, b', match r with Some fd => open s fd | None => s end) /\
    match r with
    | Some fd => 0 <= fd /\ fd ∉ sockets s /\ b' = set_n_conn (set_refcount b (refcount b + 1)) (n_conn b + 1)
    | None => b' = b
    end.
Proof.
  intros (W4 & W6 & _) Ha. unfold bes_conn_try. cbn [ipv6 ipv4 set_n_conn set_refcount]. rewrite Ha.
  set (b1 := set_n_conn _ _).
  assert (Hb : set_refcount (set_n_conn b1 (n_conn b1 - 1)) (refcount b1 - 1) = b).
  { unfold b1, set_refcount, set_n_conn. destruct b. simpl. f_equal; lia. }
  match goal with |- context [match ?r with Some _ => _ | None => _ end] => set (r0 := r) end.
  assert (Hr : forall fd, r0 = Some fd -> 0 <= fd /\ fd ∉ sockets s).
  { intros fd. unfold r0. destruct (_ && _ && ipv6 b); [apply W6 |].
    destruct (_ && ipv4 b); [apply W4 |]. destruct (_ && ipv6 b); [apply W6 | done]. }
  destruct r0 as [fd|].
  - exists (Some fd), b1. split; [done |]. destruct (Hr fd eq_refl) as [H1 H2]. done.
  - exists None, b. rewrite Hb. done.
Qed.

(** A new connection is opened. *)
Lemma open_spec bp vc fd b refs held s : sinv s -> binv bp b refs held s -> 0 < refs ->
  conns s !! vc = Some (Conn None (-1)) -> vc ∉ vbe_conns s -> 0 <= fd -> fd ∉ sockets s ->
  (0 < max_conn b -> n_conn b < max_conn b) ->
  let s' := set_conn (open s fd) vc (Conn (Some bp) fd) in
  sinv s' /\ frame bp s s' /\
  binv bp (set_n_conn (set_refcount b (refcount b + 1)) (n_conn b + 1)) refs (vc :: held) s'.
Proof.
  intros [S1 S2 S3 S4 S5] [H1 H2 H3 H4 H5 H6 H7 H8] Hr E Hn Hfd Hfree Hmax s'.
  assert (Hl : forall v b' f, conns s' !! v = Some (Conn (Some b') f) <->
    (v = vc /\ b' = bp /\ f = fd) \/ (v <> vc /\ conns s !! v = Some (Conn (Some b') f))).
  { intros v b' f. cbn [s' set_conn open conns]. destruct (decide (v = vc)) as [->|Hne].
    - rewrite lookup_insert_eq. split; [intros; simplify_eq; auto | intros [(_ & -> & ->)|[? _]]; done].
    - rewrite lookup_insert_ne by done. split; [auto | intros [(? & _)|[_ ?]]; done]. }
  assert (Hused : forall v b' f, conns s !! v = Some (Conn (Some b') f) -> f <> fd).
  { intros v b' f Hv ->. apply Hfree. apply (S1 v b' fd Hv). }
  split; [| split].
  - constructor; cbn [s' set_conn open vbe_conns sockets].
    + intros v b' f Hv. apply Hl in Hv as [(_ & _ & ->)|[_ Hv]]; [set_solver |].
      destruct (S1 v b' f Hv). set_solver.
    + intros f Hf. apply elem_of_union in Hf as [Hf|Hf].
      * destruct (S2 f Hf) as (v & b' & Hv). exists v, b'. apply Hl. right. split; [| done]. intros ->. congruence.
      * apply elem_of_singleton in Hf as ->. exists vc, bp. apply Hl. left. done.
    + intros v v' b1 b2 f Ha Hb. apply Hl in Ha, Hb.
      destruct Ha as [(-> & _ & ->)|[_ Ha]], Hb as [(-> & _ & Hx)|[_ Hb]]; try done.
      * exfalso. exact (Hused _ _ _ Hb eq_refl).
      * exfalso. exact (Hused _ _ _ Ha Hx).
      * apply (S3 v v' b1 b2 f Ha Hb).
    + done.
    + intros v Hv. unfold s'. cbn [set_conn open conns]. rewrite lookup_insert_ne; [apply S5; done |]. intros ->. done.
  - intros b' v f Hb. rewrite Hl. split; [intros Hv; right; split; [intros ->; congruence | done] |].
    intros [(_ & ? & _)|[_ ?]]; done.
  - assert (Hnot : vc ∉ held ++ connlist b) by (rewrite <- H5; intros [f Hf]; congruence).
    specialize (H3 Hr). constructor; simpl.
    + split; [lia | done].
    + lia.
    + lia.
    + constructor; done.
    + intros v. unfold live. rewrite elem_of_cons, <- H5. unfold live. split.
      * intros [f Hv]. apply Hl in Hv as [(-> & _)|[_ Hv]]; [left; done | right; exists f; done].
      * intros [->|[f Hv]]; [exists fd; apply Hl; left; done |]. exists f. apply Hl. right.
        split; [intros ->; congruence | done].
    + intros _ Hm. specialize (Hmax Hm). lia.
    + exact H7.
    + intros Hz. lia.
Qed.

Lemma binv_same bp b refs held s s' :
  (forall v fd, conns s' !! v = Some (Conn (Some bp) fd) <-> conns s !! v = Some (Conn (Some bp) fd)) ->
  binv bp b refs held s -> binv bp b refs held s'.
Proof.
  intros Hl [H1 H2 H3 H4 H5 H6 H7 H8]. constructor; try done. intros v. rewrite <- H5. unfold live.
  split; intros [fd E]; exists fd; apply Hl; exact E.
Qed.

(** A session asks for a connection. *)
Lemma get_spec w t_req objhead bp b refs held s : world_ok w -> sinv s -> binv bp b refs held s -> 0 < refs ->
  exists r b' s', vbe_GetVbe cache prefer param w t_req objhead bp b s = Some (r, b', s') /\
    sinv s' /\ frame bp s s' /\ binv bp b' refs (option_list r ++ held) s'.
Proof.
  intros Hw HS HB Hr. unfold vbe_GetVbe.
  destruct (recycle_loop_spec (alive w) bp refs (S (length (connlist b))) b held s HS HB Hr ltac:(lia))
    as (r & b1 & s1 & -> & HS1 & F1 & HB1).
  destruct r as [vc|]; [exists (Some vc), b1, s1; done |].
  cbn [option_list app] in HB1. destruct (healthy_binv t_req objhead bp b1 refs held s1 HB1) as [HB2 Em].
  destruct (vbe_Healthy param t_req objhead b1) as [h b2]. cbn [snd] in *.
  destruct h; cbn [negb]; [| exists None, b2, s1; done].
  destruct ((0 <? max_conn b2) && (max_conn b2 <=? n_conn b2)) eqn:Ec; [exists None, b2, s1; done |].
  pose proof (new_conn_spec w s1 Hw HS1) as Hnew. destruct (vbe_NewConn w s1) as [vc s2].
  destruct Hnew as (Ev & Hn & HS2 & Es2 & Hl2). rewrite Ev. simpl.
  destruct (conn_try_spec w b2 s2 Hw (bi_addr _ _ _ _ _ HB2)) as (r & b3 & -> & H3).
  assert (F2 : frame bp s1 s2) by (intros bp' v fd _; symmetry; apply Hl2).
  assert (HB2' : binv bp b2 refs held s2) by (apply (binv_same bp b2 refs held s1); [intros v fd; apply Hl2 | exact HB2]).
  destruct r as [fd|].
  - destruct H3 as (Hf1 & Hf2 & ->).
    destruct (open_spec bp vc fd b2 refs held s2 HS2 HB2' Hr Ev Hn Hf1 Hf2) as (HS4 & F4 & HB4).
    { intros Hm. apply andb_false_iff in Ec as [Ec|Ec]; lia. }
    exists (Some vc). eexists. eexists. split; [reflexivity |]. split; [exact HS4 |].
    split; [etransitivity; [exact F1 | etransitivity; [exact F2 | exact F4]] | exact HB4].
  - subst b3. assert (Eid : set_conn s2 vc (Conn None (-1)) = s2).
    { unfold set_conn. rewrite insert_id by exact Ev. destruct s2. done. }
    rewrite Eid. destruct (release_spec vc s2 Ev Hn HS2) as (s5 & -> & HS5 & _ & Hl5).
    exists None, b2, s5. split; [done |]. split; [exact HS5 |]. split.
    + etransitivity; [exact F1 |]. etransitivity; [exact F2 |]. intros bp' v fd _. symmetry. apply Hl5.
    + apply (binv_same bp b2 refs held s2); [intros v fd; apply Hl5 | exact HB2'].
Qed.

(** The idle connections of a backend are closed. *)
Lemma drop_conns_spec bp l : forall s, sinv s -> NoDup l -> (forall v, v ∈ l -> live s bp v) ->
  exists s', drop_conns cache l s = Some s' /\ sinv s' /\ frame bp s s' /\
    forall v, live s' bp v <-> live s bp v /\ v ∉ l.
Proof.
  induction l as [|vc l IH]; intros s HS Hnd Hl; cbn [drop_conns].
  { exists s. split; [done |]. split; [done |]. split; [reflexivity |]. set_solver. }
  apply NoDup_cons in Hnd as [Hn Hnd].
  destruct (live_lookup s bp vc HS (Hl vc ltac:(left))) as (fd & E & Hfd). rewrite E. simpl.
  rewrite (proj2 (Z.leb_le 0 fd)) by done.
  destruct (close_spec bp vc fd s E HS) as (s1 & -> & HS1 & F1 & L1).
  destruct (IH s1 HS1 Hnd) as (s2 & E2 & HS2 & F2 & L2).
  { intros v Hv. apply L1. split; [apply Hl; right; done |]. intros ->. done. }
  exists s2. split; [exact E2 |]. split; [done |]. split; [etransitivity; done |].
  intros v. rewrite L2, L1, not_elem_of_cons. tauto.
Qed.

(** A director of a discarded VCL program gives up its backend. *)
Lemma drop_spec bp b refs held s : sinv s -> binv bp b refs held s -> 0 < refs -> (held <> [] -> 1 < refs) ->
  exists ob s', VBE_DropRef cache b s = Some (ob, s') /\ sinv s' /\ frame bp s s' /\
    match ob with
    | Some b' => binv bp b' (refs - 1) held s'
    | None => refs = 1 /\ held = [] /\ forall v, ~ live s' bp v
    end.
Proof.
  intros HS HB Hr Hh. pose proof HB as [H1 H2 H3 H4 H5 H6 H7 H8]. unfold VBE_DropRef.
  destruct (Z.ltb_spec 1 (refcount b)) as [Hlt|Hge].
  { rewrite drop_ref_kept by done. eexists. exists s. split; [reflexivity |]. split; [done |].
    split; [reflexivity |]. specialize (H3 Hr). constructor; simpl; try done.
    - split; [lia |]. intros Hne. specialize (Hh Hne). lia.
    - lia.
    - intros _ Hm. apply H6; done.
    - intros Hz. destruct held; simpl in *; [lia | specialize (Hh ltac:(done)); lia]. }
  assert (Er : refs = 1 /\ held = []) by (destruct held; simpl in *; [split; [lia | done] | exfalso; specialize (Hh ltac:(done)); lia]).
  destruct Er as [-> ->]. simpl in *. unfold VBE_DropRefLocked. rewrite (proj2 (Z.ltb_lt 0 (refcount b))) by lia. simpl.
  rewrite (proj2 (Z.ltb_ge 0 (refcount b - 1))) by lia.
  destruct (drop_conns_spec bp (connlist b) s HS H4) as (s' & -> & HS' & F & L); [intros v; apply H5 |].
  assert (Hnone : forall v, ~ live s' bp v) by (intros v; rewrite L, H5; tauto).
  destruct (probe b).
  - eexists. exists s'. split; [reflexivity |]. split; [done |]. split; [done |].
    constructor; simpl; try done; try lia.
    + constructor.
    + intros v. split; [intros Hv; exfalso; exact (Hnone v Hv) | set_solver].
  - exists None, s'. done.
Qed.

(** ** All the backends

    The directors of the VCL programs refer to the backends, [refs] of them to
    each, and sessions hold connections. *)
Record sys := Sys { cf : config; sh : shared; refs : Z -> Z; held : Z -> list Z }.
Definition upd {A} (f : Z -> A) (k : Z) (x : A) : Z -> A := fun j => if j =? k then x else f j.
Definition put (bp : Z) (ob : option backend) (cf : config) : config :=
  match ob with
  | Some b => Config (backends cf) (<[bp := b]> (bks cf))
  | None => VBE_Nuke bp cf
  end.
Definition remove_one (vc : Z) (l : list Z) : list Z := filter (fun v => v <> vc) l.

Inductive call :=
  | Add (addr : Z) (vb : vrt_backend)
  | Get (w : world) (t_req : double) (objhead bp : Z)
  | Closed (bp vc : Z)
  | Recycle (bp vc : Z)
  | Drop (bp : Z)
  | Poll.

Definition exec (c : call) (st : sys) : option sys :=
  match c with
  | Add addr vb =>
      let? (bp, cf) := VBE_AddBackend junk addr vb (cf st) in
      Some (Sys cf (sh st) (upd (refs st) bp (refs st bp + 1)) (held st))
  | Get w t_req objhead bp =>
      let? b := bks (cf st) !! bp in
      let? (r, b, s) := vbe_GetVbe cache prefer param w t_req objhead bp b (sh st) in
      Some (Sys (put bp (Some b) (cf st)) s (refs st) (upd (held st) bp (option_list r ++ held st bp)))
  | Closed bp vc =>
      let? b := bks (cf st) !! bp in
      let? (ob, s) := VBE_ClosedFd cache bp vc b (sh st) in
      Some (Sys (put bp ob (cf st)) s (refs st) (upd (held st) bp (remove_one vc (held st bp))))
  | Recycle bp vc =>
      let? b := bks (cf st) !! bp in
      let? (ob, s) := VBE_RecycleFd cache bp vc b (sh st) in
      Some (Sys (put bp ob (cf st)) s (refs st) (upd (held st) bp (remove_one vc (held st bp))))
  | Drop bp =>
      let? b := bks (cf st) !! bp in
      let? (ob, s) := VBE_DropRef cache b (sh st) in
      Some (Sys (put bp ob (cf st)) s (upd (refs st) bp (refs st bp - 1)) (held st))
  | Poll =>
      let? cf := VBE_Poll (cf st) in Some (Sys cf (sh st) (refs st) (held st))
  end.

(** The callers' side: a new backend gets an address of its own, [VBE_Poll] has run
    since backends were dropped (it does before each CLI command), backends with the
    same hash and identification have the same families of addresses; a session asks a
    backend its VCL program refers to, gives back what it holds, and a program
    is discarded once no session uses it. *)
Definition permitted (st : sys) (c : call) : Prop :=
  match c with
  | Add addr vb =>
      bks (cf st) !! addr = None /\
      (is_Some (ipv4_sockaddr vb) \/ is_Some (ipv6_sockaddr vb)) /\
      ipv4_sockaddr vb <> Some [] /\ ipv6_sockaddr vb <> Some [] /\
      (forall bp, is_Some (bks (cf st) !! bp) -> 0 < refs st bp) /\
      Forall (fun e => hash e.2 = vrt_hash junk vb -> ident e.2 = v_ident vb ->
        (b_ipv4 e.2 <> [] -> is_Some (ipv4_sockaddr vb)) /\ (b_ipv6 e.2 <> [] -> is_Some (ipv6_sockaddr vb)))
        (backends (cf st))
  | Get w _ _ bp => world_ok w /\ 0 < refs st bp
  | Closed bp vc | Recycle bp vc => vc ∈ held st bp
  | Drop bp => 0 < refs st bp /\ (held st bp <> [] -> 1 < refs st bp)
  | Poll => True
  end.

Definition sys0 : sys := Sys (Config [] ∅) (Shared ∅ [] ∅) (fun _ => 0) (fun _ => []).
Inductive reachable : sys -> Prop :=
  | reach_init : reachable sys0
  | reach_call c st st' : reachable st -> permitted st c -> exec c st = Some st' -> reachable st'.

Record sys_inv (st : sys) : Prop := {
  sy_sh : sinv (sh st);
  sy_nodup : NoDup (backends (cf st)).*1;
  sy_listed : forall bp, bp ∈ (backends (cf st)).*1 <-> is_Some (bks (cf st) !! bp);
  sy_backend : forall bp b, bks (cf st) !! bp = Some b -> binv bp b (refs st bp) (held st bp) (sh st);
  sy_gone : forall bp, bks (cf st) !! bp = None -> refs st bp = 0 /\ held st bp = [] /\ forall v, ~ live (sh st) bp v
}.
Lemma put_inv st bp b b' s' refs' held' : sys_inv st -> bks (cf st) !! bp = Some b -> sinv s' -> frame bp (sh st) s' ->
  binv bp b' (refs' bp) (held' bp) s' ->
  (forall j, j <> bp -> refs' j = refs st j /\ held' j = held st j) ->
  sys_inv (Sys (put bp (Some b') (cf st)) s' refs' held').
Proof.
  intros [I1 I2 I3 I4 I5] Eb HS HF HB Ho.
  constructor; cbn [put cf sh refs held backends bks]; [exact HS | exact I2 | | |].
  - intros j. rewrite I3. destruct (decide (j = bp)) as [->|Hj].
    + rewrite lookup_insert_eq, Eb. split; intros _; eexists; reflexivity.
    + rewrite lookup_insert_ne by done. done.
  - intros j c. destruct (decide (j = bp)) as [->|Hj].
    + rewrite lookup_insert_eq. intros E. simplify_eq. exact HB.
    + rewrite lookup_insert_ne by done. intros E. destruct (Ho j Hj) as [-> ->].
      apply (binv_frame bp j c _ _ (sh st) s' HF Hj). apply I4. exact E.
  - intros j. destruct (decide (j = bp)) as [->|Hj]; [rewrite lookup_insert_eq; done |].
    rewrite lookup_insert_ne by done. intros E. destruct (Ho j Hj) as [-> ->].
    destruct (I5 j E) as (H1 & H2 & H3). split; [done |]. split; [done |].
    intros v [fd Hv]. apply (H3 v). exists fd. apply (HF j v fd Hj). exact Hv.
Qed.

Lemma nuke_inv st bp b s' refs' held' : sys_inv st -> bks (cf st) !! bp = Some b -> sinv s' -> frame bp (sh st) s' ->
  refs' bp = 0 -> held' bp = [] -> (forall v, ~ live s' bp v) ->
  (forall j, j <> bp -> refs' j = refs st j /\ held' j = held st j) ->
  sys_inv (Sys (VBE_Nuke bp (cf st)) s' refs' held').
Proof.
  intros [I1 I2 I3 I4 I5] Eb HS HF Hr Hh Hl Ho.
  assert (Hin : forall j (l : list (Z * identity)), j ∈ (filter (fun e => e.1 <> bp) l).*1 <-> j <> bp /\ j ∈ l.*1).
  { intros j l. rewrite !list_elem_of_fmap. setoid_rewrite list_elem_of_filter. naive_solver. }
  constructor; cbn [VBE_Nuke cf sh refs held backends bks]; [exact HS | | | |].
  - clear -I2. induction (backends (cf st)) as [|[j i] l IH]; [constructor |]. cbn [fmap list_fmap fst] in I2.
    apply NoDup_cons in I2 as [H1 H2]. destruct (decide (j <> bp)) as [Hj|Hj].
    + rewrite filter_cons_True by done. cbn [fmap list_fmap fst]. apply NoDup_cons. split; [| apply IH; done].
      intros H. apply H1. rewrite list_elem_of_fmap in H |- *. destruct H as (e & -> & He).
      apply list_elem_of_filter in He as [_ He]. exists e. done.
    + rewrite filter_cons_False by done. apply IH. done.
  - intros j. rewrite Hin, I3. destruct (decide (j = bp)) as [->|Hj].
    + rewrite lookup_delete_eq. split; [tauto | intros [? ?]; done].
    + rewrite lookup_delete_ne by done. tauto.
  - intros j c. destruct (decide (j = bp)) as [->|Hj]; [rewrite lookup_delete_eq; done |].
    rewrite lookup_delete_ne by done. intros E. destruct (Ho j Hj) as [-> ->].
    apply (binv_frame bp j c _ _ (sh st) s' HF Hj). apply I4. exact E.
  - intros j. destruct (decide (j = bp)) as [->|Hj]; [rewrite Hr, Hh; done |].
    rewrite lookup_delete_ne by done. intros E. destruct (Ho j Hj) as [-> ->].
    destruct (I5 j E) as (H1 & H2 & H3). split; [done |]. split; [done |].
    intros v [fd Hv]. apply (H3 v). exists fd. apply (HF j v fd Hj). exact Hv.
Qed.

Lemma poll_spec l : forall st, sys_inv st -> NoDup l.*1 -> (forall bp, bp ∈ l.*1 -> is_Some (bks (cf st) !! bp)) ->
  exists cf', poll_loop l (cf st) = Some cf' /\ sys_inv (Sys cf' (sh st) (refs st) (held st)).
Proof.
  induction l as [|[bp i] l IH]; intros st HI Hnd Hl; cbn [poll_loop].
  { exists (cf st). split; [done |]. destruct st. exact HI. }
  cbn [fmap list_fmap fst] in Hnd, Hl. apply NoDup_cons in Hnd as [Hn Hnd].
  destruct (Hl bp ltac:(left)) as [b Eb]. rewrite Eb.
  destruct ((refcount b =? 0) && negb (probe b)) eqn:Ec.
  - apply andb_true_iff in Ec as [Ec _]. apply Z.eqb_eq in Ec.
    pose proof (sy_backend st HI bp b Eb) as [H1 H2 H3 H4 H5 H6 H7 H8].
    assert (Hz : refs st bp = 0 /\ held st bp = []).
    { destruct (held st bp); simpl in *; [split; [lia | done] | lia]. }
    destruct Hz as [Hr Hh].
    destruct (IH (Sys (VBE_Nuke bp (cf st)) (sh st) (refs st) (held st))) as (cf' & E & HI').
    + apply (nuke_inv st bp b); try done; [apply HI |].
      intros v. rewrite H5, Hh, (H8 Hr). apply not_elem_of_nil.
    + done.
    + intros j Hj. cbn [VBE_Nuke cf bks]. rewrite lookup_delete_ne by (intros ->; done). apply Hl. right. done.
    + exists cf'. done.
  - apply (IH st HI Hnd). intros j Hj. apply Hl. right. done.
Qed.

Lemma find_spec u vb (l : list (Z * identity)) :
  Forall (fun e => hash e.2 = u -> ident e.2 = v_ident vb ->
        (b_ipv4 e.2 <> [] -> is_Some (ipv4_sockaddr vb)) /\ (b_ipv6 e.2 <> [] -> is_Some (ipv6_sockaddr vb))) l ->
  exists r, find_backend u vb l = Some r /\ forall bp, r = Some bp -> bp ∈ l.*1.
Proof.
  induction 1 as [|[bp i] l Hx _ IH]; cbn [find_backend].
  { exists None. done. }
  assert (IH' : exists r, find_backend u vb l = Some r /\ forall j, r = Some j -> j ∈ ((bp, i) :: l).*1).
  { destruct IH as (r & E & H). exists r. split; [done |]. intros j Hj. right. apply H. done. }
  destruct (bool_decide_reflect (u = hash i)) as [Hu|]; [| exact IH'].
  destruct (bool_decide_reflect (ident i = v_ident vb)) as [Hi|]; [| exact IH']. cbn [negb].
  cbn [snd] in Hx. destruct (Hx ltac:(done) Hi) as [X4 X6].
  destruct (len_differs _ _); [exact IH' |]. destruct (len_differs _ _); [exact IH' |].
  assert (Hd : forall own sa, (own <> [] -> is_Some sa) -> is_Some (addr_differs own sa)).
  { intros own sa Ho. unfold addr_differs. destruct (bool_decide_reflect (own = [])) as [|Hne]; [eexists; done |].
    destruct (Ho Hne) as [a ->]. eexists. done. }
  destruct (Hd _ _ X4) as [d4 ->]. destruct d4; [exact IH' |].
  destruct (Hd _ _ X6) as [d6 ->]. destruct d6; [exact IH' |].
  exists (Some bp). split; [done |]. intros j Hj. simplify_eq. left.
Qed.

Lemma upd_same {A} (f : Z -> A) k x : upd f k x k = x.
Proof. unfold upd. rewrite Z.eqb_refl. done. Qed.
Lemma upd_other {A} (f : Z -> A) k x j : j <> k -> upd f k x j = f j.
Proof. intros H. unfold upd. rewrite (proj2 (Z.eqb_neq _ _) H). done. Qed.

Lemma binv_add bp b refs held s : 0 < refs -> binv bp b refs held s ->
  binv bp (set_refcount b (refcount b + 1)) (refs + 1) held s.
Proof.
  intros Hr [H1 H2 H3 H4 H5 H6 H7 H8]. specialize (H3 Hr). specialize (H6 Hr).
  constructor; simpl; try done; lia.
Qed.

Lemma sys_new st addr vb i : sys_inv st -> bks (cf st) !! addr = None ->
  is_Some (ipv4_sockaddr vb) \/ is_Some (ipv6_sockaddr vb) ->
  let b := Bk 1 (max_connections vb) 0 [] (has_probe vb) (negb (has_probe vb)) []
             (v_saintmode_threshold vb)
             (bool_decide (is_Some (ipv4_sockaddr vb))) (bool_decide (is_Some (ipv6_sockaddr vb))) in
  sys_inv (Sys (Config (backends (cf st) ++ [(addr, i)]) (<[addr := b]> (bks (cf st)))) (sh st)
                (upd (refs st) addr (refs st addr + 1)) (held st)).
Proof.
  intros [I1 I2 I3 I4 I5] Hn Ha b. destruct (I5 addr Hn) as (Hr & Hh & Hl).
  constructor; cbn [cf sh refs held backends bks]; [exact I1 | | | |].
  - rewrite fmap_app. apply NoDup_app. split; [exact I2 |]. split; [| apply NoDup_singleton].
    intros j Hj Hx. apply list_elem_of_singleton in Hx as ->. apply I3 in Hj as [c Hc]. simpl in Hc. congruence.
  - intros j. rewrite fmap_app, elem_of_app, I3. cbn [fmap list_fmap fst]. rewrite list_elem_of_singleton.
    destruct (decide (j = addr)) as [->|Hj].
    + rewrite lookup_insert_eq. split; [intros _; eexists; done | auto].
    + rewrite lookup_insert_ne by done. tauto.
  - intros j c. destruct (decide (j = addr)) as [->|Hj].
    + rewrite lookup_insert_eq, upd_same, Hh, Hr. intros E. simplify_eq.
      constructor; simpl; try done; try lia.
      * constructor.
      * intros v. split; [intros Hv; exfalso; exact (Hl v Hv) | intros Hv; apply not_elem_of_nil in Hv; done].
      * destruct Ha as [Ha|Ha]; rewrite (bool_decide_true _ Ha); [apply orb_true_r | done].
    + rewrite lookup_insert_ne, upd_other by done. apply I4.
  - intros j. destruct (decide (j = addr)) as [->|Hj]; [rewrite lookup_insert_eq; done |].
    rewrite lookup_insert_ne, upd_other by done. apply I5.
Qed.

Lemma add_spec st addr vb : sys_inv st -> permitted st (Add addr vb) ->
  exists st', exec (Add addr vb) st = Some st' /\ sys_inv st'.
Proof.
  intros HI (Hn & Ha & N4 & N6 & Hr & Hc). cbn [exec]. unfold VBE_AddBackend.
  assert (Ea : bool_decide (is_Some (ipv4_sockaddr vb)) || bool_decide (is_Some (ipv6_sockaddr vb)) = true).
  { apply orb_true_iff. rewrite !bool_decide_eq_true. exact Ha. }
  rewrite Ea. destruct (find_spec (vrt_hash junk vb) vb (backends (cf st))) as (r & -> & Hin).
  { exact Hc. }
  destruct r as [bp|].
  - destruct (proj1 (sy_listed st HI bp) (Hin bp eq_refl)) as [b Eb]. rewrite Eb.
    eexists. split; [reflexivity |].
    apply (put_inv st bp b (set_refcount b (refcount b + 1))); try done; [apply HI | |].
    + rewrite upd_same. apply binv_add; [apply Hr; eexists; exact Eb | apply HI; exact Eb].
    + intros j Hj. rewrite upd_other by done. done.
  - assert (C : forall sa, sa <> Some [] -> is_Some (copy_sockaddr sa)).
    { intros [[|x a]|] Hx; [done | |]; unfold copy_sockaddr; [| eexists; done].
      rewrite (proj2 (Z.ltb_lt _ _)) by (simpl; lia). eexists. done. }
    destruct (C _ N4) as [a4 ->]. destruct (C _ N6) as [a6 ->].
    eexists. split; [reflexivity |]. apply sys_new; done.
Qed.

Lemma remove_one_perm vc l : NoDup l -> vc ∈ l -> l ≡ₚ vc :: remove_one vc l.
Proof.
  intros Hn Hin. apply NoDup_Permutation; [done | |].
  - apply NoDup_cons. unfold remove_one. split; [| apply NoDup_filter; done].
    intros H. apply list_elem_of_filter in H as [H _]. done.
  - intros v. rewrite elem_of_cons. unfold remove_one. rewrite list_elem_of_filter.
    destruct (decide (v = vc)) as [->|Hv]; tauto.
Qed.

Lemma held_backend st bp vc : sys_inv st -> vc ∈ held st bp ->
  exists b, bks (cf st) !! bp = Some b /\ binv bp b (refs st bp) (vc :: remove_one vc (held st bp)) (sh st).
Proof.
  intros HI Hin. destruct (bks (cf st) !! bp) as [b|] eqn:Eb.
  - exists b. split; [done |]. pose proof (sy_backend st HI bp b Eb) as HB.
    apply (binv_perm bp b _ (held st bp)); [| exact HB]. apply remove_one_perm; [| exact Hin].
    pose proof (bi_nodup _ _ _ _ _ HB) as Hd. apply NoDup_app in Hd as [Hd _]. exact Hd.
  - destruct (sy_gone st HI bp Eb) as (_ & Hh & _). rewrite Hh in Hin. apply not_elem_of_nil in Hin. done.
Qed.

Lemma exec_spec st c : sys_inv st -> permitted st c -> exists st', exec c st = Some st' /\ sys_inv st'.
Proof.
  intros HI HP. destruct c as [addr vb|w t_req objhead bp|bp vc|bp vc|bp|].
  - apply add_spec; done.
  - destruct HP as [Hw Hr]. cbn [exec].
    destruct (bks (cf st) !! bp) as [b|] eqn:Eb; [| destruct (sy_gone st HI bp Eb); lia].
    destruct (get_spec w t_req objhead bp b _ _ (sh st) Hw (sy_sh st HI) (sy_backend st HI bp b Eb) Hr)
      as (r & b' & s' & -> & HS & HF & HB).
    eexists. split; [reflexivity |]. apply (put_inv st bp b b'); try done.
    + rewrite upd_same. exact HB.
    + intros j Hj. rewrite upd_other by done. done.
  - cbn [permitted] in HP. destruct (held_backend st bp vc HI HP) as (b & Eb & HB). cbn [exec]. rewrite Eb.
    destruct (closed_spec bp vc b _ _ (sh st) (sy_sh st HI) HB) as (b' & s' & -> & HS & HB' & HF & _).
    eexists. split; [reflexivity |]. apply (put_inv st bp b b'); try done.
    + rewrite upd_same. exact HB'.
    + intros j Hj. rewrite upd_other by done. done.
  - cbn [permitted] in HP. destruct (held_backend st bp vc HI HP) as (b & Eb & HB). cbn [exec]. rewrite Eb.
    destruct (recycle_spec bp vc b _ _ (sh st) (sy_sh st HI) HB) as (b' & -> & HB').
    eexists. split; [reflexivity |]. apply (put_inv st bp b b'); try done; [apply HI | |].
    + rewrite upd_same. exact HB'.
    + intros j Hj. rewrite upd_other by done. done.
  - destruct HP as [Hr Hh]. cbn [exec].
    destruct (bks (cf st) !! bp) as [b|] eqn:Eb; [| destruct (sy_gone st HI bp Eb); lia].
    destruct (drop_spec bp b _ _ (sh st) (sy_sh st HI) (sy_backend st HI bp b Eb) Hr Hh)
      as (ob & s' & -> & HS & HF & HB).
    eexists. split; [reflexivity |]. destruct ob as [b'|].
    + apply (put_inv st bp b b'); try done; [rewrite upd_same; exact HB |].
      intros j Hj. rewrite upd_other by done. done.
    + destruct HB as (Hr1 & Hh1 & Hl1). apply (nuke_inv st bp b); try done; [rewrite upd_same; lia |].
      intros j Hj. rewrite upd_other by done. done.
  - cbn [exec]. unfold VBE_Poll.
    destruct (poll_spec (backends (cf st)) st HI (sy_nodup st HI)) as (cf' & -> & HI').
    + intros bp Hbp. apply HI. exact Hbp.
    + eexists. done.
Qed.

Lemma reachable_inv st : reachable st -> sys_inv st.
Proof.
  induction 1 as [|c st st' _ IH HP E].
  - constructor; cbn [sys0 cf sh refs held backends bks].
    + constructor; cbn [conns sockets vbe_conns].
      * intros vc bp fd H. rewrite lookup_empty in H. done.
      * intros fd H. apply not_elem_of_empty in H. done.
      * intros vc vc' bp bp' fd H. rewrite lookup_empty in H. done.
      * constructor.
      * intros vc H. apply not_elem_of_nil in H. done.
    + constructor.
    + intros bp. rewrite lookup_empty. split; [intros H; apply not_elem_of_nil in H; done | intros [? H]; done].
    + intros bp b H. rewrite lookup_empty in H. done.
    + intros bp _. split; [done |]. split; [done |]. intros v [fd H]. simpl in H. rewrite lookup_empty in H. done.
  - destruct (exec_spec st c IH HP) as (st2 & E2 & H2). rewrite E in E2. simplify_eq. exact H2.
Qed.


End Calls.

(** The first number above [n] and everything in a set. *)
Definition fresh_above (n : Z) (S : gset Z) : Z := foldr Z.max n (elements S) + 1.
Lemma fresh_above_ok n S : n < fresh_above n S /\ fresh_above n S ∉ S.
Proof.
  assert (H : forall l, n <= foldr Z.max n l /\ forall x, x ∈ l -> x <= foldr Z.max n l).
  { induction l as [|y l [IH1 IH2]]; cbn [foldr].
    - split; [lia |]. intros x Hx. apply not_elem_of_nil in Hx. done.
    - split; [lia |]. intros x Hx. apply elem_of_cons in Hx as [->|Hx]; [lia |]. specialize (IH2 x Hx). lia. }
  destruct (H (elements S)) as [H1 H2]. unfold fresh_above. split; [lia |].
  intros Hin. apply elem_of_elements in Hin. specialize (H2 _ Hin). lia.
Qed.
(** A kernel that gives the first number above the ones in use, to IPv4 connections only,
    and an allocator that gives addresses from 1000 on. *)
Definition w0 : world := World (fun _ => true) (fun S => Some (fresh_above 2 S)) (fun _ => None) (fresh_above 999).
Lemma w0_ok : world_ok w0.
Proof.
  split; [| split]; cbn [w0 try4 try6 calloc].
  - intros S f E. injection E as E. subst f. destruct (fresh_above_ok 2 S). split; [lia | done].
  - intros S f E. discriminate E.
  - intros S. apply (fresh_above_ok 999 S).
Defined.
Definition vb0 : vrt_backend := Vrt (bs "a") (Some [127; 0; 0; 1]) None 2 UINT_MAX false.
Definition run1 (c : call) (st : sys) : sys := default st (exec false false 10 [] c st).
Definition st1 : sys := run1 (Add 1 vb0) sys0.
Definition st2 : sys := run1 (Get w0 5 0 1) st1.
Definition st3 : sys := run1 (Get w0 6 0 1) st2.
Definition st4 : sys := run1 (Recycle 1 1000) st3.


End BackendSpec.
