(* ===== verification/BackendPoll.v ===== *)
(** * BackendPoll: the probes of a backend

    [bin/varnishd/cache_backend_poll.c]: the thread that sends a request to a
    backend at intervals, keeps what happened in bitmaps, newest probe in bit 0,
    and declares the backend healthy or sick.  A probe meets a [world]: the
    clock, whether each connection attempt succeeds, and what [write], [poll] and
    [read] answer.  The thread reads the clock around its calls; the average of the
    response times and the log record are left out.  [scan_f] is the conversion
    [%*f] of [sscanf]: what follows the number, if there is one. *)
From S2P Require Import Prelude Double Strtoul.

Module BackendPoll.
Import Double.

(** [struct vrt_backend_probe]; times are in seconds. *)
Record vrt_backend_probe := Probe {
  timeout : double;
  interval : double;
  exp_status : Z;
  window : Z;
  threshold : Z;
  initial : Z
}.
Record vbp_target := Vt {
  probe : vrt_backend_probe;
  req_len : Z;
  resp_buf : list Z;
  good : Z;
  good_ipv4 : Z; good_ipv6 : Z; err_xmit : Z; good_xmit : Z; err_recv : Z; good_recv : Z; happy : Z;
  healthy : bool
}.

(** Bit 0 of a bitmap is set for the probe under way. *)
Inductive bitmap := Ipv4 | Ipv6 | ErrXmit | GoodXmit | ErrRecv | GoodRecv | Happy.
Definition mark (m : bitmap) (vt : vbp_target) : vbp_target :=
  let f (k : bool) (x : Z) := if k then Z.lor x 1 else x in
  Vt (probe vt) (req_len vt) (resp_buf vt) (good vt)
    (f (match m with Ipv4 => true | _ => false end) (good_ipv4 vt))
    (f (match m with Ipv6 => true | _ => false end) (good_ipv6 vt))
    (f (match m with ErrXmit => true | _ => false end) (err_xmit vt))
    (f (match m with GoodXmit => true | _ => false end) (good_xmit vt))
    (f (match m with ErrRecv => true | _ => false end) (err_recv vt))
    (f (match m with GoodRecv => true | _ => false end) (good_recv vt))
    (f (match m with Happy => true | _ => false end) (happy vt)) (healthy vt).
Definition set_resp_buf (vt : vbp_target) (b : list Z) : vbp_target :=
  Vt (probe vt) (req_len vt) b (good vt) (good_ipv4 vt) (good_ipv6 vt) (err_xmit vt) (good_xmit vt)
    (err_recv vt) (good_recv vt) (happy vt) (healthy vt).
Definition set_probe (vt : vbp_target) (p : vrt_backend_probe) : vbp_target :=
  Vt p (req_len vt) (resp_buf vt) (good vt) (good_ipv4 vt) (good_ipv6 vt) (err_xmit vt) (good_xmit vt)
    (err_recv vt) (good_recv vt) (happy vt) (healthy vt).
Definition set_health (vt : vbp_target) (g : Z) (h : bool) : vbp_target :=
  Vt (probe vt) (req_len vt) (resp_buf vt) g (good_ipv4 vt) (good_ipv6 vt) (err_xmit vt) (good_xmit vt)
    (err_recv vt) (good_recv vt) (happy vt) h.

Section Params.
Context (prefer_ipv6 has_ipv4 has_ipv6 : bool) (scan_f : list Z -> option (list Z)).

(** What one probe meets.  An attempt to connect succeeds or not, and ends at some
    time; each event is what [poll] returns and then what [read] gives, [None] for
    an error.  When there are no more events [poll] times out. *)
Record world := World {
  t_start : double;
  try6 : bool * double;
  try4 : bool * double;
  try6b : bool * double;
  written : Z;
  events : list (Z * option (list Z))
}.

(** [(int)round((t_end - t_now) * 1e3)]. *)
Definition msec (d : double) : Z :=
  let z := rnd (1000 * d) in Z.sgn z * ((2 * Z.abs z + sec) / (2 * sec)).

(** The attempts to connect: whether there is a socket, the time left in
    milliseconds and the time it was taken. *)
Definition poke_connect (w : world) (vt : vbp_target) : bool * Z * double * vbp_target :=
  let t_end := dadd (t_start w) (timeout (probe vt)) in
  let tmo_at t := msec (dsub t_end t) in
  let attempt (go : bool) (a : bool * double) (m : bitmap) st :=
    let '(s, tmo, t_now, vt) := st in
    if go then (fst a, tmo_at (snd a), snd a, if fst a : bool then mark m vt else vt) else (s, tmo, t_now, vt) in
  let st := (false, tmo_at (t_start w), t_start w, vt) in
  let st := attempt (prefer_ipv6 && has_ipv6) (try6 w) Ipv6 st in
  let '(s, tmo, _, _) := st in
  let st := attempt ((0 <? tmo) && negb s && has_ipv4) (try4 w) Ipv4 st in
  let '(s, tmo, _, _) := st in
  attempt ((0 <? tmo) && negb s && has_ipv6) (try6b w) Ipv6 st.

(** [read(s, vt->resp_buf + rlen, ...)]. *)
Definition write_at (k : nat) (d buf : list Z) : list Z := take k buf ++ d ++ drop (k + length d) buf.
Definition SIZEOF_RESP_BUF : Z := 128.

(** The loop that receives: [None] when it gives up, otherwise the last [i] and
    [rlen].  The time left is the one computed before the loop. *)
Fixpoint recv_loop (tmo : Z) (evs : list (Z * option (list Z))) (buf : list Z) (rlen : Z)
  : option (Z * Z) * list Z :=
  if tmo <=? 0 then (None, buf)
  else
    match evs with
    | [] => (None, buf)
    | (p, rd) :: evs =>
        if p =? 0 then (None, buf)
        else
          let room := if rlen <? SIZEOF_RESP_BUF then SIZEOF_RESP_BUF - rlen else 8192 in
          match rd with
          | None => (Some (-1, u32 (rlen - 1)), buf)
          | Some d =>
              let d := take (Z.to_nat room) d in
              let buf := if rlen <? SIZEOF_RESP_BUF then write_at (Z.to_nat rlen) d buf else buf in
              let i := Z.of_nat (length d) in
              let rlen := u32 (rlen + i) in
              if 0 <? i then recv_loop tmo evs buf rlen else (Some (i, rlen), buf)
          end
    end.

(** [p = strchr(resp_buf, c); if (p != NULL) *p = '\0';] *)
Fixpoint cut (c : Z) (l : list Z) : list Z :=
  match l with
  | [] => []
  | x :: l => if x =? c then 0 :: l else if x =? 0 then x :: l else x :: cut c l
  end.

(** [sscanf(s, "HTTP/%*f %u %s", &resp, buf) == 2]: the number. *)
Definition scan_status (s : list Z) : option Z :=
  let s := c_str s in
  assert! bool_decide (take 5 s = bs "HTTP/") ;;
  let? s := scan_f (drop 5 s) in
  let '(v, n) := Strtoul.strtoul 10 s in
  assert! negb (Nat.eqb n 0) ;;
  let s := drop n s in
  assert! negb (Nat.eqb (length (drop (Strtoul.spaces s) s)) 0) ;;
  Some (u32 v).

Definition vbp_poke (w : world) (vt : vbp_target) : vbp_target :=
  let '(s, tmo, t_now, vt) := poke_connect w vt in
  if negb s then vt
  else if tmo <=? 0 then vt
  else if negb (written w =? req_len vt) then (if written w <? 0 then mark ErrXmit vt else vt)
  else
    let vt := mark GoodXmit vt in
    let tmo := msec (dsub (dadd (t_start w) (timeout (probe vt))) t_now) in
    let '(r, buf) := recv_loop tmo (events w) (resp_buf vt) 0 in
    let vt := set_resp_buf vt buf in
    match r with
    | None => vt
    | Some (i, rlen) =>
        if i <? 0 then mark ErrRecv vt
        else if rlen =? 0 then vt
        else
          let vt := mark GoodRecv vt in
          let buf := <[127%nat := 0]> (resp_buf vt) in
          let buf := cut 10 (cut 13 buf) in
          let vt := set_resp_buf vt buf in
          match scan_status buf with
          | Some resp => if resp =? exp_status (probe vt) then mark Happy vt else vt
          | None => vt
          end
    end.

(** The bitmaps are shifted and the response is the empty string. *)
Definition vbp_start_poke (vt : vbp_target) : vbp_target :=
  let sh x := u64 (Z.shiftl x 1) in
  Vt (probe vt) (req_len vt) (<[0%nat := 0]> (resp_buf vt)) (good vt) (sh (good_ipv4 vt)) (sh (good_ipv6 vt))
    (sh (err_xmit vt)) (sh (good_xmit vt)) (sh (err_recv vt)) (sh (good_recv vt)) (sh (happy vt)) (healthy vt).

Fixpoint good_loop (n : nat) (u j : Z) : Z :=
  match n with
  | O => j
  | S n => good_loop n (Z.shiftr u 1) (if Z.land u 1 =? 0 then j else j + 1)
  end.
Definition vbp_has_poked (vt : vbp_target) : vbp_target :=
  let j := good_loop (Z.to_nat (window (probe vt))) (happy vt) 0 in
  set_health vt j (threshold (probe vt) <=? j).

(** What is not specified gets a value. *)
Definition UINT_MAX : Z := 2 ^ 32 - 1.
Definition defaults (p : vrt_backend_probe) : vrt_backend_probe :=
  let timeout := if timeout p =? 0 then 2 * sec else timeout p in
  let interval := if interval p =? 0 then 5 * sec else interval p in
  let window := if window p =? 0 then 8 else window p in
  let threshold := if threshold p =? 0 then 3 else threshold p in
  let exp_status := if exp_status p =? 0 then 200 else exp_status p in
  let initial := if threshold =? UINT_MAX then threshold - 1 else initial p in
  let initial := if threshold <? initial then threshold else initial in
  Probe timeout interval exp_status window threshold initial.

(** One probe taken to be good. *)
Definition initial_poke (vt : vbp_target) : vbp_target := vbp_has_poked (mark Happy (vbp_start_poke vt)).
Definition poke_once (vt : vbp_target) (w : world) : vbp_target := vbp_has_poked (vbp_poke w (vbp_start_poke vt)).

(** The thread up to the moment it is stopped, after the probes that meet [ws]. *)
Definition vbp_wrk_poll_backend (ws : list world) (vt : vbp_target) : vbp_target :=
  let vt := set_probe vt (defaults (probe vt)) in
  let vt := Nat.iter (Z.to_nat (initial (probe vt))) initial_poke vt in
  foldl poke_once vt ws.

(** [VBP_Start]: everything is zero at first. *)
Definition VBP_Start (p : vrt_backend_probe) (req : list Z) : vbp_target :=
  Vt p (Z.of_nat (length req)) (replicate 128 0) 0 0 0 0 0 0 0 0 false.

End Params.

End BackendPoll.
