(* ===== verification/BackendPollSpec.v ===== *)
(** * BackendPollSpec: a backend is healthy when enough of its last probes were good

    The bitmap of good probes is the history of the probes, and a probe is good
    when the first line of the response carries the status expected. *)
From stdpp Require Import list sets.
From S2P Require Import Prelude Double Strtoul BackendPoll.

Module BackendPollSpec.
Import Double BackendPoll.

Section Params.
Context (prefer_ipv6 has_ipv4 has_ipv6 : bool) (scan_f : list Z -> option (list Z)).
Local Abbreviation poke := (vbp_poke prefer_ipv6 has_ipv4 has_ipv6 scan_f).
Local Abbreviation once := (poke_once prefer_ipv6 has_ipv4 has_ipv6 scan_f).

(** ** The bitmap is the history *)

(** The history, newest probe first, as the 64 bits that hold it. *)
Definition records (h : list bool) (u : Z) : Prop :=
  0 <= u < 2 ^ 64 /\ forall i, (i < 64)%nat -> Z.testbit u (Z.of_nat i) = default false (h !! i).

Definition goods (l : list bool) : Z := Z.of_nat (length (filter (fun b : bool => b = true) l)).

Lemma goods_cons b l : goods (b :: l) = (if b then 1 else 0) + goods l.
Proof. unfold goods. destruct b; [rewrite filter_cons_True by done | rewrite filter_cons_False by done]; simpl; lia. Qed.

Lemma land_1 u : (Z.land u 1 =? 0) = negb (Z.testbit u 0).
Proof.
  change 1 with (Z.ones 1). rewrite Z.land_ones, Z.bit0_odd by lia.
  change (2 ^ 1) with 2. rewrite Zmod_odd. destruct (Z.odd u); done.
Qed.

Lemma good_loop_spec n : forall u j, 0 <= u ->
  good_loop n u j = j + goods (map (fun i => Z.testbit u (Z.of_nat i)) (seq 0 n)).
Proof.
  induction n as [|n IH]; intros u j Hu; cbn [good_loop seq map]; [unfold goods; simpl; lia |].
  rewrite IH by (apply Z.shiftr_nonneg; done). rewrite land_1, goods_cons, <- seq_shift, map_map.
  rewrite (map_ext (fun i => Z.testbit (Z.shiftr u 1) (Z.of_nat i)) (fun i => Z.testbit u (Z.of_nat (S i)))).
  - change (Z.of_nat 0) with 0. destruct (Z.testbit u 0); simpl; lia.
  - intros i. rewrite Z.shiftr_spec by lia. f_equal. lia.
Qed.

Lemma goods_pad l k : goods (l ++ replicate k false) = goods l.
Proof.
  unfold goods. rewrite filter_app. assert (E : filter (fun b : bool => b = true) (replicate k false) = []).
  { induction k; [done |]. cbn [replicate]. rewrite filter_cons_False by done. done. }
  rewrite E, app_nil_r. done.
Qed.

Lemma bits_of_history h u n : records h u ->
  goods (map (fun i => Z.testbit u (Z.of_nat i)) (seq 0 n)) = goods (take (Nat.min n 64) h).
Proof.
  intros [Hu Hb]. rewrite <- (goods_pad (take (Nat.min n 64) h) (n - length (take (Nat.min n 64) h))). f_equal.
  apply list_eq. intros i. rewrite list_lookup_fmap.
  destruct (decide (i < n)%nat) as [Hi|Hi].
  2:{ rewrite lookup_seq_ge by lia. symmetry. apply lookup_ge_None.
      rewrite length_app, length_replicate, length_take. lia. }
  rewrite lookup_seq_lt by done. cbn [fmap option_fmap option_map Nat.add].
  destruct (decide (i < 64)%nat) as [H6|H6].
  - rewrite Hb by done. destruct (h !! i) as [x|] eqn:Ex.
    + apply lookup_lt_Some in Ex as Hl. rewrite lookup_app_l by (rewrite length_take; lia).
      rewrite lookup_take_lt by lia. done.
    + apply lookup_ge_None in Ex. rewrite lookup_app_r by (rewrite length_take; lia). symmetry.
      rewrite length_take. apply lookup_replicate_2. lia.
  - rewrite lookup_app_r by (rewrite length_take; lia). rewrite lookup_replicate_2 by (rewrite length_take; lia).
    f_equal. apply Z.testbit_false; [lia |]. rewrite Z.div_small; [done |]. split; [lia |].
    apply Z.lt_le_trans with (2 ^ 64); [lia |]. apply Z.pow_le_mono_r; lia.
Qed.

Lemma records_shift h u : records h u -> records (false :: h) (u64 (Z.shiftl u 1)).
Proof.
  intros [Hu Hb]. split; [unfold u64; apply Z.mod_pos_bound; lia |].
  intros i Hi. unfold u64. rewrite Z.mod_pow2_bits_low by lia. rewrite Z.shiftl_spec by lia.
  destruct i as [|i]; [rewrite Z.testbit_neg_r by lia; done |].
  replace (Z.of_nat (S i) - 1) with (Z.of_nat i) by lia. rewrite Hb by lia. done.
Qed.
Lemma records_mark b h u : records (b :: h) u -> records (true :: h) (Z.lor u 1).
Proof.
  intros [Hu Hb]. split.
  - split; [apply Z.lor_nonneg; lia |]. destruct (Z.eqb_spec (Z.lor u 1) 0) as [->|Hn]; [lia |].
    apply Z.log2_lt_pow2; [pose proof (Z.lor_nonneg u 1); lia |]. rewrite Z.log2_lor by lia.
    change (Z.log2 1) with 0. destruct (Z.eqb_spec u 0) as [->|Hz]; [done |].
    assert (Z.log2 u < 64) by (apply Z.log2_lt_pow2; lia). pose proof (Z.log2_nonneg u). lia.
  - intros i Hi. rewrite Z.lor_spec. destruct i as [|i].
    + rewrite orb_true_r. done.
    + rewrite Hb by done. rewrite (Z.bits_above_log2 1) by (simpl; lia). apply orb_false_r.
Qed.

Lemma records_good b h u : records (b :: h) u -> Z.testbit u 0 = b.
Proof. intros [_ Hb]. specialize (Hb 0%nat ltac:(lia)). exact Hb. Qed.

(** A probe leaves everything but its own bits, and what it does to the bit of good
    probes. *)
Lemma connect_keeps w vt : let '(_, _, _, vt') := poke_connect prefer_ipv6 has_ipv4 has_ipv6 w vt in
  happy vt' = happy vt /\ probe vt' = probe vt /\ req_len vt' = req_len vt /\ resp_buf vt' = resp_buf vt.
Proof.
  unfold poke_connect. destruct (prefer_ipv6 && has_ipv6), (fst (try6 w));
  repeat match goal with |- context [if ?c then _ else _] => destruct c end; done.
Qed.

Lemma poke_keeps w vt : (happy (poke w vt) = happy vt \/ happy (poke w vt) = Z.lor (happy vt) 1) /\
  probe (poke w vt) = probe vt.
Proof.
  unfold vbp_poke. pose proof (connect_keeps w vt) as H.
  destruct (poke_connect _ _ _ w vt) as [[[s tmo] t_now] vt1]. destruct H as (<- & <- & _ & _).
  destruct (negb s); [auto |]. destruct (tmo <=? 0); [auto |].
  destruct (negb (written w =? req_len vt1)); [destruct (written w <? 0); auto |].
  destruct (recv_loop _ _ _ _) as [[[i rlen]|] buf]; [| auto].
  destruct (i <? 0); [auto |]. destruct (rlen =? 0); [auto |]. cbv zeta.
  destruct (scan_status _ _) as [resp|]; [| auto]. destruct (resp =? _); simpl; auto.
Qed.

(** The bit of each probe of a run, the first probe first. *)
Fixpoint outcomes (vt : vbp_target) (ws : list world) : list bool :=
  match ws with
  | [] => []
  | w :: ws => Z.testbit (happy (poke w (vbp_start_poke vt))) 0 :: outcomes (once vt w) ws
  end.

Definition judged (p : vrt_backend_probe) (h : list bool) : bool :=
  threshold p <=? goods (take (Nat.min (Z.to_nat (window p)) 64) h).

Lemma has_poked_spec h vt : records h (happy vt) ->
  healthy (vbp_has_poked vt) = judged (probe vt) h /\ records h (happy (vbp_has_poked vt)) /\
  probe (vbp_has_poked vt) = probe vt.
Proof.
  intros H. unfold vbp_has_poked, judged. cbn [set_health healthy happy probe]. split; [| done].
  rewrite good_loop_spec by apply H. rewrite (bits_of_history h) by done. done.
Qed.

Lemma once_spec h vt w : records h (happy vt) ->
  let b := Z.testbit (happy (poke w (vbp_start_poke vt))) 0 in
  healthy (once vt w) = judged (probe vt) (b :: h) /\ records (b :: h) (happy (once vt w)) /\
  probe (once vt w) = probe vt.
Proof.
  intros H b. destruct (poke_keeps w (vbp_start_poke vt)) as [Hk Hp].
  assert (Hs : records (false :: h) (happy (vbp_start_poke vt))) by (apply records_shift; exact H).
  assert (Hr : records (b :: h) (happy (poke w (vbp_start_poke vt)))).
  { unfold b. destruct Hk as [->| ->].
    - rewrite (records_good false h) by exact Hs. exact Hs.
    - rewrite (records_good true h) by (eapply records_mark; exact Hs). eapply records_mark. exact Hs. }
  pose proof (has_poked_spec _ _ Hr) as (H1 & H2 & H3). unfold poke_once. rewrite H1, H3, Hp. done.
Qed.

Lemma initial_spec h vt : records h (happy vt) ->
  healthy (initial_poke vt) = judged (probe vt) (true :: h) /\ records (true :: h) (happy (initial_poke vt)) /\
  probe (initial_poke vt) = probe vt.
Proof.
  intros H. apply (has_poked_spec (true :: h) (mark Happy (vbp_start_poke vt))).
  apply (records_mark false). apply records_shift. exact H.
Qed.

Lemma run_spec ws : forall h vt, records h (happy vt) -> (h <> [] -> healthy vt = judged (probe vt) h) ->
  let h' := rev (outcomes vt ws) ++ h in
  let vt' := foldl once vt ws in
  records h' (happy vt') /\ probe vt' = probe vt /\ (h' <> [] -> healthy vt' = judged (probe vt) h').
Proof.
  induction ws as [|w ws IH]; intros h vt H Hh; cbn [outcomes foldl rev]; [done |].
  destruct (once_spec h vt w H) as (H1 & H2 & H3).
  destruct (IH _ (once vt w) H2) as (I1 & I2 & I3); [intros _; rewrite H3; exact H1 |].
  cbv zeta. rewrite <- app_assoc. cbn [app]. rewrite H3 in I2, I3. done.
Qed.

Lemma initial_run n : forall vt, happy vt = 0 ->
  let vt' := Nat.iter n initial_poke vt in
  records (replicate n true) (happy vt') /\ probe vt' = probe vt /\
  (replicate n true <> [] -> healthy vt' = judged (probe vt) (replicate n true)).
Proof.
  induction n as [|n IH]; intros vt H0.
  { cbn [Nat.iter nat_rect replicate]. split; [| done]. rewrite H0. split; [done |]. intros i _.
    rewrite Z.testbit_0_l. done. }
  destruct (IH vt H0) as (I1 & I2 & _). cbv zeta in *. change (Nat.iter (S n) initial_poke vt) with
    (initial_poke (Nat.iter n initial_poke vt)).
  destruct (initial_spec _ _ I1) as (H1 & H2 & H3). rewrite H1, H3, I2. done.
Qed.

(** ** A good probe *)

(** The buffer after the bytes [r] were received into [old]. *)
Definition overlay (r old : list Z) : list Z := take 128 r ++ drop (length r) old.

(** The kernel gives no more than was asked for, and not nothing before the end. *)
Fixpoint fits (got : nat) (chunks : list (list Z)) : Prop :=
  match chunks with
  | [] => True
  | d :: chunks => d <> [] /\ (length d <= (if Nat.ltb got 128 then 128 - got else Z.to_nat 8192))%nat /\ fits (got + length d) chunks
  end.
Definition deliver (chunks : list (list Z)) : list (Z * option (list Z)) :=
  map (fun d => (1, Some d)) chunks ++ [(1, Some [])].

Lemma overlay_write r0 d old : length old = 128%nat -> (length r0 < 128)%nat -> (length d <= 128 - length r0)%nat ->
  write_at (length r0) d (overlay r0 old) = overlay (r0 ++ d) old.
Proof.
  intros Ho Hr Hd. unfold write_at, overlay. rewrite (take_ge r0) by lia. rewrite (take_ge (r0 ++ d)) by (rewrite length_app; lia).
  rewrite take_app_length, length_app, drop_app_ge by lia. rewrite drop_drop, <- app_assoc. do 3 f_equal. lia.
Qed.

Lemma recv_spec tmo old chunks : 0 < tmo -> length old = 128%nat -> forall r0,
  fits (length r0) chunks -> Z.of_nat (length (r0 ++ concat chunks)) < 2 ^ 32 ->
  recv_loop tmo (deliver chunks) (overlay r0 old) (Z.of_nat (length r0)) =
    (Some (0, Z.of_nat (length (r0 ++ concat chunks))), overlay (r0 ++ concat chunks) old).
Proof.
  intros Ht Ho. unfold deliver. induction chunks as [|d chunks IH]; intros r0 Hf Hlen;
    cbn [map concat fits app recv_loop] in *; rewrite (proj2 (Z.leb_gt tmo 0) Ht); cbn [Z.eqb]; unfold SIZEOF_RESP_BUF.
  - rewrite take_nil, app_nil_r in *. cbn [length]. rewrite Z.add_0_r, u32_small by lia. cbn [Z.ltb Z.compare Z.of_nat].
    destruct (Z.ltb_spec (Z.of_nat (length r0)) 128); [| done]. rewrite Nat2Z.id. rewrite overlay_write by (simpl; lia).
    rewrite app_nil_r. done.
  - destruct Hf as (Hne & Hd & Hf). rewrite app_assoc in Hlen |- *.
    assert (Hd0 : (0 < length d)%nat) by (destruct d; [done | simpl; lia]).
    rewrite (take_ge d) by (destruct (Nat.ltb_spec (length r0) 128), (Z.ltb_spec (Z.of_nat (length r0)) 128); lia).
    rewrite (proj2 (Z.ltb_lt 0 (Z.of_nat (length d)))) by lia.
    rewrite length_app in Hlen. rewrite <- Nat2Z.inj_add, <- length_app. rewrite u32_small by lia.
    rewrite <- (IH (r0 ++ d)); [| rewrite length_app; done | rewrite length_app; lia]. f_equal.
    destruct (Z.ltb_spec (Z.of_nat (length r0)) 128) as [Hl|Hl].
    + rewrite Nat2Z.id. apply overlay_write; [done | lia |]. destruct (Nat.ltb_spec (length r0) 128); lia.
    + unfold overlay. rewrite take_app_le by lia. rewrite !drop_ge by (rewrite ?length_app; lia). done.
Qed.

Definition line_char (x : Z) : Prop := x <> 0 /\ x <> 10 /\ x <> 13.

Lemma cut_skip c l r : Forall (fun x => x <> 0 /\ x <> c) l -> cut c (l ++ r) = l ++ cut c r.
Proof.
  induction 1 as [|x l [H0 Hc] _ IH]; [done |]. cbn [app cut].
  rewrite (proj2 (Z.eqb_neq x c) Hc), (proj2 (Z.eqb_neq x 0) H0), IH. done.
Qed.
Lemma c_str_line l r : Forall line_char l -> c_str (l ++ 0 :: r) = l.
Proof.
  induction 1 as [|x l (H0 & _) _ IH]; [done |]. cbn [app c_str].
  rewrite (proj2 (Z.eqb_neq x 0) H0), IH. done.
Qed.
Lemma c_str_nozero l : Forall line_char l -> c_str l = l.
Proof.
  induction 1 as [|x l (H0 & _) _ IH]; [done |]. cbn [c_str]. rewrite (proj2 (Z.eqb_neq x 0) H0), IH. done.
Qed.

Lemma first_line l c r : Forall line_char l -> c = 10 \/ c = 13 ->
  scan_status scan_f (cut 10 (cut 13 (l ++ c :: r))) = scan_status scan_f l.
Proof.
  intros Hl Hc.
  assert (H10 : Forall (fun x => x <> 0 /\ x <> 10) l) by (eapply Forall_impl; [exact Hl | unfold line_char; tauto]).
  assert (H13 : Forall (fun x => x <> 0 /\ x <> 13) l) by (eapply Forall_impl; [exact Hl | unfold line_char; tauto]).
  assert (E : exists r', cut 10 (cut 13 (l ++ c :: r)) = l ++ 0 :: r').
  { rewrite cut_skip by done. destruct Hc as [-> | ->].
    - cbn [cut Z.eqb Pos.eqb]. rewrite cut_skip by done. eexists. reflexivity.
    - cbn [cut Z.eqb Pos.eqb]. rewrite cut_skip by done. cbn [cut Z.eqb]. eexists. reflexivity. }
  destruct E as [r' ->]. unfold scan_status. rewrite c_str_line, c_str_nozero by done. done.
Qed.

Lemma connect_time w vt : let '(_, tmo, t_now, _) := poke_connect prefer_ipv6 has_ipv4 has_ipv6 w vt in
  tmo = msec (dsub (dadd (t_start w) (timeout (probe vt))) t_now).
Proof.
  unfold poke_connect. destruct (prefer_ipv6 && has_ipv6);
  repeat match goal with |- context [if ?c then _ else _] => destruct c end; reflexivity.
Qed.

Lemma poke_good w vt vt1 tmo t_now chunks line c rest :
  length (resp_buf vt) = 128%nat -> Z.testbit (happy vt) 0 = false ->
  poke_connect prefer_ipv6 has_ipv4 has_ipv6 w vt = (true, tmo, t_now, vt1) -> 0 < tmo ->
  written w = req_len vt -> events w = deliver chunks -> fits 0 chunks ->
  concat chunks = line ++ c :: rest -> Z.of_nat (length (concat chunks)) < 2 ^ 32 ->
  Forall line_char line -> c = 10 \/ c = 13 -> (length line < 127)%nat ->
  Z.testbit (happy (poke w vt)) 0 =
    match scan_status scan_f line with Some r => r =? exp_status (probe vt) | None => false end.
Proof.
  intros Hb Hh E Ht Hw He Hf Hc Hlen Hl Hcc H127. unfold vbp_poke.
  pose proof (connect_keeps w vt) as K. pose proof (connect_time w vt) as T. rewrite E in K, T |- *.
  destruct K as (K1 & K2 & K3 & K4). cbn [negb]. rewrite (proj2 (Z.leb_gt tmo 0) Ht).
  rewrite K3, Hw, Z.eqb_refl. cbn [negb]. rewrite He. cbn [mark probe resp_buf]. rewrite K2, <- T, K4.
  pose proof (recv_spec tmo (resp_buf vt) chunks Ht Hb [] Hf Hlen) as R.
  change (overlay [] (resp_buf vt)) with (resp_buf vt) in R. cbn [length app] in R.
  change (Z.of_nat 0) with 0 in R. rewrite R. clear R.
  cbn [Z.ltb Z.compare]. rewrite Hc. rewrite (proj2 (Z.eqb_neq _ 0)) by (rewrite length_app; simpl; lia). cbv zeta.
  cbn [set_resp_buf mark resp_buf probe]. rewrite K2.
  assert (Eb : exists r', <[127%nat := 0]> (overlay (line ++ c :: rest) (resp_buf vt)) = line ++ c :: r').
  { unfold overlay. rewrite take_app, (take_ge line) by lia.
    destruct (128 - length line)%nat as [|k] eqn:Ek; [lia |]. cbn [take].
    rewrite <- app_assoc. rewrite insert_app_r_alt by lia. destruct (127 - length line)%nat as [|m] eqn:Em; [lia |].
    eexists. reflexivity. }
  destruct Eb as [r' ->]. rewrite first_line by done.
  destruct (scan_status scan_f line) as [r|]; [destruct (r =? _) |]; cbn [mark happy set_resp_buf]; rewrite ?K1; [| exact Hh | exact Hh].
  rewrite Z.lor_spec, Hh. done.
Qed.

(** C18: A probe that is connected in time, sends its request and is answered is good
    exactly when the first line of the response has the expected status, however
    the response is cut into reads and whatever the buffer still held, provided that
    the line ends within the buffer. *)
Theorem vbp_poke_happy w vt vt1 tmo t_now chunks line c rest :
  length (resp_buf vt) = 128%nat -> Z.testbit (happy vt) 0 = false ->
  poke_connect prefer_ipv6 has_ipv4 has_ipv6 w vt = (true, tmo, t_now, vt1) -> 0 < tmo ->
  written w = req_len vt -> events w = deliver chunks -> fits 0 chunks ->
  concat chunks = line ++ c :: rest -> Z.of_nat (length (concat chunks)) < 2 ^ 32 ->
  Forall line_char line -> c = 10 \/ c = 13 -> (length line < 127)%nat ->
  Z.testbit (happy (poke w vt)) 0 =
    match scan_status scan_f line with Some r => r =? exp_status (probe vt) | None => false end.
Proof. apply poke_good. Qed.

(** C17: A backend is healthy exactly when, among the last probes that its window (of
    at most 64) holds, as many as the threshold were good; the probes taken to
    be good at the start count. *)
Theorem vbp_window p req ws : 0 <= threshold p ->
  let vt0 := VBP_Start p req in
  let run := vbp_wrk_poll_backend prefer_ipv6 has_ipv4 has_ipv6 scan_f in
  let p' := defaults p in
  let history := rev (outcomes (run [] vt0) ws) ++ replicate (Z.to_nat (initial p')) true in
  healthy (run ws vt0) = (threshold p' <=? goods (take (Nat.min (Z.to_nat (window p')) 64) history)).
Proof.
  intros Hp vt0 run p' history. unfold run, vbp_wrk_poll_backend. cbn [set_probe probe VBP_Start vt0].
  fold p'. set (vt1 := set_probe vt0 p').
  destruct (initial_run (Z.to_nat (initial p')) vt1 eq_refl) as (I1 & I2 & I3).
  destruct (run_spec ws _ _ I1) as (R1 & R2 & R3); [intros H; rewrite I2; apply I3; exact H |].
  fold vt1 in history. change (probe vt1) with p' in I2. rewrite I2 in R3. fold (judged p' history).
  assert (Eh : rev (outcomes (Nat.iter (Z.to_nat (initial p')) initial_poke vt1) ws) ++
    replicate (Z.to_nat (initial p')) true = history) by reflexivity.
  rewrite Eh in R3. destruct history as [|b h] eqn:Ehh; [| apply R3; done].
  apply app_eq_nil in Eh as [E1 E2]. destruct ws as [|w ws].
  2:{ cbn [outcomes rev] in E1. apply app_eq_nil in E1 as [_ E1]. done. }
  cbn [foldl]. destruct (Z.to_nat (initial p')); [| done]. cbn [Nat.iter nat_rect].
  unfold judged. rewrite take_nil. symmetry. change (healthy vt1) with false. apply Z.leb_gt.
  change (goods []) with 0. unfold p', defaults. cbn [threshold]. destruct (Z.eqb_spec (threshold p) 0); lia.
Qed.

End Params.

(** ** Concrete probes *)

(** Digits and dots for [%*f]. *)
Fixpoint skip_number (l : list Z) : list Z :=
  match l with c :: l' => if isdigit c || (c =? 46) then skip_number l' else l | [] => [] end.
Definition scan_number (l : list Z) : option (list Z) :=
  if isdigit (peek l) then Some (skip_number l) else None.
Definition answer (chunks : list (list Z)) : world :=
  World (10 * sec) (true, 10 * sec) (true, 10 * sec) (true, 10 * sec) 3 (deliver chunks).
Definition probe0 : vrt_backend_probe := Probe (2 * sec) (5 * sec) 200 4 2 1.
Definition vt0 : vbp_target := VBP_Start probe0 (bs "GET").

Lemma vbp_poke_happy_witness :
  Z.testbit (happy (vbp_poke false true false scan_number
    (answer [bs "HTTP/1."; bs "1 200 OK" ++ [13; 10]; bs "x"]) vt0)) 0 = (200 =? 200).
Proof.
  refine (vbp_poke_happy false true false scan_number _ vt0 (mark Ipv4 vt0) 2000 (10 * sec)
    [bs "HTTP/1."; bs "1 200 OK" ++ [13; 10]; bs "x"] (bs "HTTP/1.1 200 OK") 13 [10; 120] _ _ _ _ _ _ _ _ _ _ _ _).
  all: try (vm_compute; reflexivity).
  - repeat split; vm_compute; try discriminate; lia.
  - vm_compute. repeat constructor; discriminate.
  - right. reflexivity.
  - vm_compute. lia.
Defined.

Lemma vbp_window_witness :
  healthy (vbp_wrk_poll_backend false true false scan_number [answer [bs "HTTP/1.1 200 OK" ++ [10]]; answer []] vt0) = true /\
  healthy (vbp_wrk_poll_backend false true false scan_number [answer [bs "HTTP/1.1 200 OK" ++ [10]]; answer []] vt0) =
    (threshold (defaults probe0) <=? goods (take (Nat.min (Z.to_nat (window (defaults probe0))) 64)
      (rev (outcomes false true false scan_number (vbp_wrk_poll_backend false true false scan_number [] vt0)
             [answer [bs "HTTP/1.1 200 OK" ++ [10]]; answer []]) ++
       replicate (Z.to_nat (initial (defaults probe0))) true))).
Proof.
  split; [vm_compute; reflexivity |].
  apply (vbp_window false true false scan_number probe0 (bs "GET")
    [answer [bs "HTTP/1.1 200 OK" ++ [10]]; answer []]). discriminate.
Defined.

(** When a VCL program leaves [.initial] out, the compiler writes [~0U]; the thread
    looks for that value in [threshold], and so the backend starts healthy. *)
Lemma initial_unset p : 0 < threshold p < UINT_MAX -> initial p = UINT_MAX ->
  initial (defaults p) = threshold (defaults p).
Proof.
  intros Ht Hi. unfold defaults. cbn [initial threshold].
  rewrite (proj2 (Z.eqb_neq (threshold p) 0)) by lia. rewrite (proj2 (Z.eqb_neq (threshold p) UINT_MAX)) by lia.
  rewrite Hi, (proj2 (Z.ltb_lt _ _)) by lia. done.
Qed.

(** Only the first byte of the buffer is cleared between probes: half a status line
    is completed by what the last probe received. *)
Example stale_response :
  happy (vbp_wrk_poll_backend false true false scan_number
    [answer [bs "HTTP/1.1 200 OK"]; answer [bs "HTTP/1."]] vt0) = 7.
Proof. vm_compute. reflexivity. Qed.
End BackendPollSpec.
