(* ===== verification/Time.v ===== *)
(** * Time: dates in headers

    [TIM_format] and [TIM_parse] of [lib/libvarnish/time.c].  They rest on the
    calendar functions of the C library, modelled as glibc has them in the "C"
    locale: [gmtime_r] and [timegm] of the Gregorian calendar in UTC, and of
    [strftime] and [strptime] the conversions the program uses. *)
From S2P Require Import Prelude Double Strtoul.

Module Time.
Import Double.

(** ** The calendar *)

(** The year is the full one; the month counts from 0. *)
Record tm := Tm { tm_sec : Z; tm_min : Z; tm_hour : Z; tm_mday : Z; tm_mon : Z; tm_year : Z; tm_wday : Z }.

Definition leap (y : Z) : bool := (y mod 4 =? 0) && (negb (y mod 100 =? 0) || (y mod 400 =? 0)).
(** The days from 1970-01-01 to the first of January. *)
Definition days_before_year (y : Z) : Z := 365 * (y - 1970) + (y - 1) / 4 - (y - 1) / 100 + (y - 1) / 400 - 477.
Definition month_starts (leap : bool) : list Z :=
  if leap then [0; 31; 60; 91; 121; 152; 182; 213; 244; 274; 305; 335]
  else [0; 31; 59; 90; 120; 151; 181; 212; 243; 273; 304; 334].
Definition days_before_month (leap : bool) (mon : Z) : Z := nth (Z.to_nat mon) (month_starts leap) 0.

Definition timegm (t : tm) : Z :=
  let days := days_before_year (tm_year t) + days_before_month (leap (tm_year t)) (tm_mon t) + (tm_mday t - 1) in
  86400 * days + 3600 * tm_hour t + 60 * tm_min t + tm_sec t.

(** The year of a day, from an estimate that is off by one at most. *)
Definition year_of (d : Z) : Z :=
  let e := 1970 + d * 400 / 146097 in
  if d <? days_before_year e then e - 1 else if days_before_year (e + 1) <=? d then e + 1 else e.
Definition month_of (leap : bool) (yd : Z) : Z :=
  Z.of_nat (length (filter (fun s => s <= yd) (month_starts leap))) - 1.
Definition gmtime (t : Z) : tm :=
  let d := t / 86400 in
  let r := t mod 86400 in
  let y := year_of d in
  let yd := d - days_before_year y in
  let mon := month_of (leap y) yd in
  Tm (r mod 60) (r / 60 mod 60) (r / 3600) (yd - days_before_month (leap y) mon + 1) mon y ((d + 4) mod 7).

Definition weekdays : list (list Z) :=
  [bs "Sunday"; bs "Monday"; bs "Tuesday"; bs "Wednesday"; bs "Thursday"; bs "Friday"; bs "Saturday"].
Definition months : list (list Z) :=
  [bs "January"; bs "February"; bs "March"; bs "April"; bs "May"; bs "June"; bs "July"; bs "August";
   bs "September"; bs "October"; bs "November"; bs "December"].
(** The abbreviations are the first three letters. *)
Definition abbr (names : list (list Z)) (i : Z) : list Z := take 3 (nth (Z.to_nat i) names []).

(** ** [strftime] *)

Definition two (n : Z) : list Z := [48 + n / 10; 48 + n mod 10].
(** ["%a, %d %b %Y %T GMT"] *)
Definition strftime (t : tm) : list Z :=
  abbr weekdays (tm_wday t) ++ bs ", " ++ two (tm_mday t) ++ bs " " ++ abbr months (tm_mon t) ++ bs " " ++
  Strtoul.print 10 (tm_year t) ++ bs " " ++
  two (tm_hour t) ++ bs ":" ++ two (tm_min t) ++ bs ":" ++ two (tm_sec t) ++ bs " GMT".

Definition TIM_FORMAT_SIZE : nat := 30.
(** [strftime] gives 0 when the text and its NUL do not fit, and an assertion fails. *)
Definition TIM_format (t : double) : option (list Z) :=
  let s := strftime (gmtime (Z.quot t sec)) in
  assert! (length s <? TIM_FORMAT_SIZE)%nat ;;
  Some s.

(** ** [strptime] *)

(** A number of up to [n] digits, while it can still be in range. *)
Fixpoint num_loop (n : nat) (to val : Z) (s : list Z) : Z * list Z :=
  match n with
  | O => (val, s)
  | S n =>
      let val := val * 10 + (peek s - 48) in
      let s := tail s in
      if (0 <? n)%nat && (val * 10 <=? to) && isdigit (peek s) then num_loop n to val s else (val, s)
  end.
Fixpoint skip_blanks (s : list Z) : list Z :=
  match s with c :: s' => if c =? 32 then skip_blanks s' else s | [] => [] end.
Definition get_number (from to : Z) (n : nat) (s : list Z) : option (Z * list Z) :=
  let s := skip_blanks s in
  assert! isdigit (peek s) ;;
  let '(val, s) := num_loop n to 0 s in
  assert! (from <=? val) && (val <=? to) ;;
  Some (val, s).

(** The first name the text starts with, in full or abbreviated, in any case. *)
Fixpoint get_name (i : Z) (names : list (list Z)) (s : list Z) : option (Z * list Z) :=
  match names with
  | [] => None
  | nm :: names =>
      if strncaseeq (length nm) nm s then Some (i, drop (length nm) s)
      else if strncaseeq 3 (take 3 nm) s then Some (i, drop 3 s)
      else get_name (i + 1) names s
  end.

Definition set_sec (t : tm) x := Tm x (tm_min t) (tm_hour t) (tm_mday t) (tm_mon t) (tm_year t) (tm_wday t).
Definition set_min (t : tm) x := Tm (tm_sec t) x (tm_hour t) (tm_mday t) (tm_mon t) (tm_year t) (tm_wday t).
Definition set_hour (t : tm) x := Tm (tm_sec t) (tm_min t) x (tm_mday t) (tm_mon t) (tm_year t) (tm_wday t).
Definition set_mday (t : tm) x := Tm (tm_sec t) (tm_min t) (tm_hour t) x (tm_mon t) (tm_year t) (tm_wday t).
Definition set_mon (t : tm) x := Tm (tm_sec t) (tm_min t) (tm_hour t) (tm_mday t) x (tm_year t) (tm_wday t).
Definition set_year (t : tm) x := Tm (tm_sec t) (tm_min t) (tm_hour t) (tm_mday t) (tm_mon t) x (tm_wday t).
Definition set_wday (t : tm) x := Tm (tm_sec t) (tm_min t) (tm_hour t) (tm_mday t) (tm_mon t) (tm_year t) x.

Definition stored (r : option (Z * list Z)) (f : Z -> tm) : option (tm * list Z) :=
  let? (v, s) := r in Some (f v, s).
Definition convert (c : Z) (t : tm) (s : list Z) : option (tm * list Z) :=
  if (c =? 97) || (c =? 65) then stored (get_name 0 weekdays s) (set_wday t)      (* a A *)
  else if (c =? 98) || (c =? 66) then stored (get_name 0 months s) (set_mon t)    (* b B *)
  else if c =? 100 then stored (get_number 1 31 2 s) (set_mday t)                 (* d *)
  else if c =? 109 then stored (get_number 1 12 2 s) (fun v => set_mon t (v - 1)) (* m *)
  else if c =? 89 then stored (get_number 0 9999 4 s) (set_year t)                (* Y *)
  else if c =? 121 then stored (get_number 0 99 2 s)
                          (fun v => set_year t (if 69 <=? v then 1900 + v else 2000 + v)) (* y *)
  else if c =? 72 then stored (get_number 0 23 2 s) (set_hour t)                  (* H *)
  else if c =? 77 then stored (get_number 0 59 2 s) (set_min t)                   (* M *)
  else if c =? 83 then stored (get_number 0 61 2 s) (set_sec t)                   (* S *)
  else None.

(** [%T] and [%F] stand for more conversions. *)
Fixpoint expand (fmt : list Z) : list Z :=
  match fmt with
  | 37 :: (c :: fmt) as f =>
      if c =? 84 then bs "%H:%M:%S" ++ expand fmt
      else if c =? 70 then bs "%Y-%m-%d" ++ expand fmt
      else 37 :: c :: expand fmt
  | c :: fmt => c :: expand fmt
  | [] => []
  end.
Fixpoint scan (fmt : list Z) (t : tm) (s : list Z) : option tm :=
  match fmt with
  | [] => Some t
  | 37 :: (c :: fmt) => let? (t, s) := convert c t s in scan fmt t s
  | c :: fmt =>
      if isspace c then scan fmt t (drop (Strtoul.spaces s) s)
      else if peek s =? c then scan fmt t (tail s) else None
  end.
Definition strptime (s fmt : list Z) (t : tm) : option tm := scan (expand fmt) t s.

Definition fmts : list (list Z) :=
  [bs "%a, %d %b %Y %T GMT"; bs "%A, %d-%b-%y %T GMT"; bs "%a %b %d %T %Y"; bs "%F %T"].
Fixpoint parse_loop (p : list Z) (fmts : list (list Z)) : Z :=
  match fmts with
  | [] => 0
  | r :: fmts =>
      (* memset: the fields are 0, and so the year 1900 *)
      match strptime p r (Tm 0 0 0 0 0 1900 0) with
      | Some t => timegm t
      | None => parse_loop p fmts
      end
  end.
Definition TIM_parse (p : list Z) : Z := parse_loop (c_str p) fmts.

(** The dates of the test driver of the source. *)
Example test_rfc1123 : TIM_parse (bs "Sun, 06 Nov 1994 08:49:37 GMT") = 784111777.
Proof. vm_compute. reflexivity. Qed.
Example test_rfc850 : TIM_parse (bs "Sunday, 06-Nov-94 08:49:37 GMT") = 784111777.
Proof. vm_compute. reflexivity. Qed.
Example test_asctime : TIM_parse (bs "Sun Nov  6 08:49:37 1994") = 784111777.
Proof. vm_compute. reflexivity. Qed.
Example test_iso : TIM_parse (bs "1994-11-06 08:49:37") = 784111777.
Proof. vm_compute. reflexivity. Qed.
Example test_format : TIM_format (784111777 * sec) = Some (bs "Sun, 06 Nov 1994 08:49:37 GMT").
Proof. vm_compute. reflexivity. Qed.

(** ** The calendar is right *)

Lemma days_next_year y : days_before_year (y + 1) = days_before_year y + (if leap y then 366 else 365).
Proof.
  unfold days_before_year, leap. replace (y + 1 - 1) with y by lia.
  assert (H : forall k, 0 < k -> y / k = (y - 1) / k + (if y mod k =? 0 then 1 else 0)).
  { intros k Hk. destruct (Z.eqb_spec (y mod k) 0) as [E|E].
    - symmetry. rewrite (Z.div_mod y k) by lia. rewrite E.
      replace (k * (y / k) + 0 - 1) with (-1 + (y / k) * k) by lia. rewrite Z.div_add by lia.
      rewrite Z.add_0_r, Z.mul_comm, Z.div_mul by lia.
      assert (-1 / k = -1) by (symmetry; apply (Z.div_unique _ _ _ (k - 1)); lia). lia.
    - pose proof (Z.mod_pos_bound y k Hk). rewrite Z.add_0_r.
      apply (Z.div_unique _ _ _ (y mod k - 1)); [lia |]. pose proof (Z.div_mod y k ltac:(lia)). lia. }
  rewrite (H 4), (H 100), (H 400) by lia.
  destruct (Z.eqb_spec (y mod 4) 0), (Z.eqb_spec (y mod 100) 0), (Z.eqb_spec (y mod 400) 0); cbn [andb orb negb]; try lia;
    exfalso; Z.to_euclidean_division_equations; lia.
Qed.

Lemma year_of_spec d : let y := year_of d in 0 <= d - days_before_year y < (if leap y then 366 else 365).
Proof.
  unfold year_of. set (e := 1970 + d * 400 / 146097).
  assert (H : days_before_year (e - 1) <= d < days_before_year (e + 2)).
  { unfold days_before_year, e. pose proof (Z.div_mod (d * 400) 146097). pose proof (Z.mod_pos_bound (d * 400) 146097).
    set (q := d * 400 / 146097) in *. Z.to_euclidean_division_equations. lia. }
  pose proof (days_next_year (e - 1)) as H0. replace (e - 1 + 1) with e in H0 by lia.
  pose proof (days_next_year e) as H1. pose proof (days_next_year (e + 1)) as H2.
  replace (e + 1 + 1) with (e + 2) in H2 by lia.
  destruct (Z.ltb_spec d (days_before_year e)); [cbv zeta; lia |].
  destruct (Z.leb_spec (days_before_year (e + 1)) d); cbv zeta; lia.
Qed.

Lemma month_of_spec (lp : bool) yd : 0 <= yd < (if lp then 366 else 365) ->
  0 <= month_of lp yd <= 11 /\ 1 <= yd - days_before_month lp (month_of lp yd) + 1 <= 31.
Proof.
  intros H.
  set (ok := fun z : Z => (0 <=? month_of lp z) && (month_of lp z <=? 11) &&
    (1 <=? z - days_before_month lp (month_of lp z) + 1) && (z - days_before_month lp (month_of lp z) + 1 <=? 31)).
  assert (E : forallb (fun k => ok (Z.of_nat k)) (seq 0 (if lp then 366 else 365)) = true) by (destruct lp; vm_compute; done).
  assert (Ek : ok yd = true).
  { rewrite <- (Z2Nat.id yd) by lia. apply (forall_below (fun k => ok (Z.of_nat k)) _ E). destruct lp; lia. }
  unfold ok in Ek. cbv zeta in Ek. rewrite !andb_true_iff, !Z.leb_le in Ek. lia.
Qed.

Lemma timegm_gmtime t : timegm (gmtime t) = t.
Proof.
  unfold timegm, gmtime. cbn [tm_sec tm_min tm_hour tm_mday tm_mon tm_year].
  pose proof (Z.div_mod t 86400 ltac:(lia)). Z.to_euclidean_division_equations. lia.
Qed.

(** The range of four digit years. *)
Definition time_ok (t : Z) : Prop := 0 <= t < 253402300800.

Lemma gmtime_range t : time_ok t -> let m := gmtime t in
  0 <= tm_sec m <= 59 /\ 0 <= tm_min m <= 59 /\ 0 <= tm_hour m <= 23 /\ 1 <= tm_mday m <= 31 /\
  0 <= tm_mon m <= 11 /\ 1970 <= tm_year m <= 9999 /\ 0 <= tm_wday m <= 6.
Proof.
  intros Ht. unfold gmtime. cbn [tm_sec tm_min tm_hour tm_mday tm_mon tm_year tm_wday].
  pose proof (year_of_spec (t / 86400)) as Hy. cbv zeta in Hy.
  destruct (month_of_spec _ _ Hy) as [Hm Hd].
  assert (Hd0 : 0 <= t / 86400 < 2932897) by (unfold time_ok in Ht; Z.to_euclidean_division_equations; lia).
  set (y := year_of (t / 86400)) in *.
  assert (Hr : 1970 <= y <= 9999).
  { pose proof (days_next_year y) as Hn. assert (H : days_before_year y <= 2932896 /\ 1 <= days_before_year (y + 1)) by lia.
    clear - H. clearbody y. unfold days_before_year in H. Z.to_euclidean_division_equations. lia. }
  clear Hy. repeat split; try apply Hm; try apply Hd; try apply Hr; Z.to_euclidean_division_equations; lia.
Qed.

(** ** What is printed is read *)

Lemma get_two lo hi n r : 0 <= lo -> lo <= n <= hi -> hi <= 99 -> get_number lo hi 2 (two n ++ r) = Some (n, r).
Proof.
  intros Hl Hn Hh. unfold get_number, two. cbn [app skip_blanks].
  assert (H1 : 0 <= n / 10 <= 9) by (Z.to_euclidean_division_equations; lia).
  pose proof (Z.mod_pos_bound n 10 ltac:(lia)) as H2. pose proof (Z.div_mod n 10 ltac:(lia)) as H3.
  rewrite (proj2 (Z.eqb_neq (48 + n / 10) 32)) by lia. cbn [peek]. unfold isdigit at 1.
  rewrite !(proj2 (Z.leb_le _ _)) by lia. cbn [andb num_loop peek tail Nat.ltb Nat.leb].
  rewrite (proj2 (Z.leb_le _ hi)) by lia. unfold isdigit. rewrite !(proj2 (Z.leb_le _ _)) by lia. cbn [andb].
  rewrite !(proj2 (Z.leb_le _ _)) by lia. cbn [andb]. do 2 f_equal. lia.
Qed.

Definition four (y : Z) : list Z := [48 + y / 1000; 48 + y / 100 mod 10; 48 + y / 10 mod 10; 48 + y mod 10].
Lemma print_four y : 1000 <= y <= 9999 -> Strtoul.print 10 y = four y.
Proof.
  intros H. unfold Strtoul.print. assert (Hl : 9 <= Z.log2 y) by (apply (Z.log2_le_mono 512); lia).
  replace (S (Z.to_nat (Z.log2 y))) with (S (S (S (S (Z.to_nat (Z.log2 y) - 3)))))%nat by lia.
  cbn [Strtoul.print_fuel]. rewrite !Z.div_div by lia. change (10 * 10) with 100. change (100 * 10) with 1000.
  rewrite !(proj2 (Z.ltb_ge _ 10)) by (Z.to_euclidean_division_equations; lia).
  rewrite (proj2 (Z.ltb_lt (y / 1000) 10)) by (Z.to_euclidean_division_equations; lia).
  assert (D : forall d, 0 <= d < 10 -> Strtoul.digit_char d = 48 + d).
  { intros d Hd. unfold Strtoul.digit_char. rewrite (proj2 (Z.ltb_lt d 10)) by lia. done. }
  rewrite !D by (Z.to_euclidean_division_equations; lia). done.
Qed.
Lemma get_four y r : 1000 <= y <= 9999 -> get_number 0 9999 4 (four y ++ r) = Some (y, r).
Proof.
  intros H. unfold get_number, four. cbn [app skip_blanks].
  assert (H1 : 1 <= y / 1000 <= 9) by (Z.to_euclidean_division_equations; lia).
  assert (D : forall d, 0 <= d < 10 -> isdigit (48 + d) = true).
  { intros d Hd. unfold isdigit. rewrite !(proj2 (Z.leb_le _ _)) by lia. done. }
  assert (H2 : 0 <= y / 100 mod 10 < 10) by (apply Z.mod_pos_bound; lia).
  assert (H3 : 0 <= y / 10 mod 10 < 10) by (apply Z.mod_pos_bound; lia).
  assert (H4 : 0 <= y mod 10 < 10) by (apply Z.mod_pos_bound; lia).
  assert (Hy : y = 1000 * (y / 1000) + 100 * (y / 100 mod 10) + 10 * (y / 10 mod 10) + y mod 10)
    by (Z.to_euclidean_division_equations; lia).
  rewrite (proj2 (Z.eqb_neq (48 + y / 1000) 32)) by lia. cbn [peek]. rewrite D by lia.
  cbn [num_loop peek tail Nat.ltb Nat.leb andb].
  rewrite !D by lia. rewrite !(proj2 (Z.leb_le _ 9999)) by lia. cbn [andb].
  rewrite !(proj2 (Z.leb_le _ _)) by lia. cbn [andb]. do 2 f_equal. lia.
Qed.

Lemma in_range (P : Z -> Prop) n : (forall k, (k < n)%nat -> P (Z.of_nat k)) -> forall z, 0 <= z <= Z.of_nat n - 1 -> P z.
Proof. intros H z Hz. rewrite <- (Z2Nat.id z) by lia. apply H. lia. Qed.
Lemma get_weekday w r : 0 <= w <= 6 -> get_name 0 weekdays (abbr weekdays w ++ 44 :: r) = Some (w, 44 :: r).
Proof.
  revert w. apply (in_range _ 7). intros k Hk. do 7 (destruct k as [|k]; [vm_compute; reflexivity |]). lia.
Qed.
Lemma get_month m r : 0 <= m <= 11 -> get_name 0 months (abbr months m ++ 32 :: r) = Some (m, 32 :: r).
Proof.
  revert m. apply (in_range _ 12). intros k Hk. do 12 (destruct k as [|k]; [vm_compute; reflexivity |]). lia.
Qed.

Lemma scan_conv c f t s t' s' : convert c t s = Some (t', s') -> scan (37 :: c :: f) t s = scan f t' s'.
Proof. intros E. cbn [scan]. rewrite E. done. Qed.
Lemma scan_lit c f t s : c <> 37 -> isspace c = false -> scan (c :: f) t (c :: s) = scan f t s.
Proof.
  intros Hc Hs. cbn [scan peek tail]. rewrite Hs, Z.eqb_refl. destruct c as [|q|]; [done | | done].
  do 6 (destruct q as [q|q|]; try done).
Qed.
Lemma scan_space f t s : isspace (peek s) = false -> scan (32 :: f) t (32 :: s) = scan f t s.
Proof.
  intros Hs. cbn [scan]. change (isspace 32) with true. cbv iota. cbn [Strtoul.spaces]. change (isspace 32) with true. cbv iota.
  destruct s as [|x s]; [done |]. cbn [peek] in Hs. cbn [Strtoul.spaces]. rewrite Hs. done.
Qed.

Lemma digit_not_blank d : 0 <= d <= 9 -> isspace (48 + d) = false.
Proof. intros H. unfold isspace. rewrite (proj2 (Z.leb_gt (48 + d) 13)), (proj2 (Z.eqb_neq (48 + d) 32)) by lia. rewrite andb_false_r. done. Qed.

Lemma scan_time f t s hh mm ss : 0 <= hh <= 23 -> 0 <= mm <= 59 -> 0 <= ss <= 59 ->
  scan (bs "%H:%M:%S" ++ f) t (two hh ++ bs ":" ++ two mm ++ bs ":" ++ two ss ++ s) =
  scan f (set_sec (set_min (set_hour t hh) mm) ss) s.
Proof.
  intros Hh Hm Hs. change (bs "%H:%M:%S" ++ f) with (37 :: 72 :: 58 :: 37 :: 77 :: 58 :: 37 :: 83 :: f).
  change (bs ":") with [58].
  erewrite scan_conv.
  2:{ unfold convert. cbn [Z.eqb Pos.eqb orb]. rewrite get_two by lia. reflexivity. }
  cbn [app]. rewrite scan_lit by done. erewrite scan_conv.
  2:{ unfold convert. cbn [Z.eqb Pos.eqb orb]. rewrite get_two by lia. reflexivity. }
  rewrite scan_lit by done. erewrite scan_conv.
  2:{ unfold convert. cbn [Z.eqb Pos.eqb orb]. rewrite get_two by lia. reflexivity. }
  reflexivity.
Qed.

Lemma scan_rfc1123 m t : 0 <= tm_sec m <= 59 -> 0 <= tm_min m <= 59 -> 0 <= tm_hour m <= 23 -> 1 <= tm_mday m <= 31 ->
  0 <= tm_mon m <= 11 -> 1970 <= tm_year m <= 9999 -> 0 <= tm_wday m <= 6 ->
  strptime (strftime m) (bs "%a, %d %b %Y %T GMT") t = Some m.
Proof.
  intros H1 H2 H3 H4 H5 H6 H7. unfold strptime, strftime. rewrite print_four by lia.
  change (expand (bs "%a, %d %b %Y %T GMT")) with
    (37 :: 97 :: 44 :: 32 :: 37 :: 100 :: 32 :: 37 :: 98 :: 32 :: 37 :: 89 :: 32 :: bs "%H:%M:%S" ++ [32; 71; 77; 84]).
  change (bs ", ") with [44; 32]. change (bs " ") with [32]. change (bs " GMT") with [32; 71; 77; 84]. cbn [app].
  erewrite scan_conv.
  2:{ unfold convert. cbn [Z.eqb Pos.eqb orb]. rewrite get_weekday by lia. reflexivity. }
  rewrite scan_lit by done. rewrite scan_space by (apply digit_not_blank; Z.to_euclidean_division_equations; lia).
  erewrite scan_conv.
  2:{ unfold convert. cbn [Z.eqb Pos.eqb orb]. rewrite get_two by lia. reflexivity. }
  rewrite scan_space.
  2:{ revert H5. generalize (tm_mon m). apply (in_range _ 12). intros k Hk. do 12 (destruct k as [|k]; [reflexivity |]). lia. }
  erewrite scan_conv.
  2:{ unfold convert. cbn [Z.eqb Pos.eqb orb]. rewrite get_month by lia. reflexivity. }
  rewrite scan_space by (apply digit_not_blank; Z.to_euclidean_division_equations; lia).
  erewrite scan_conv.
  2:{ unfold convert. cbn [Z.eqb Pos.eqb orb]. rewrite get_four by lia. reflexivity. }
  rewrite scan_space by (apply digit_not_blank; Z.to_euclidean_division_equations; lia).
  rewrite scan_time by lia.
  rewrite scan_space by done. rewrite !scan_lit by done. cbn [scan]. destruct m. reflexivity.
Qed.

Lemma strftime_text m : 0 <= tm_sec m <= 59 -> 0 <= tm_min m <= 59 -> 0 <= tm_hour m <= 23 -> 1 <= tm_mday m <= 31 ->
  0 <= tm_mon m <= 11 -> 1970 <= tm_year m <= 9999 -> 0 <= tm_wday m <= 6 ->
  length (strftime m) = 29%nat /\ Forall (fun c => c <> 0) (strftime m).
Proof.
  intros H1 H2 H3 H4 H5 H6 H7. unfold strftime. rewrite print_four by lia.
  assert (Hw : length (abbr weekdays (tm_wday m)) = 3%nat /\ Forall (fun c => c <> 0) (abbr weekdays (tm_wday m))).
  { revert H7. generalize (tm_wday m). apply (in_range _ 7). intros k Hk.
    do 7 (destruct k as [|k]; [split; [reflexivity | vm_compute; repeat constructor; discriminate] |]). lia. }
  assert (Hn : length (abbr months (tm_mon m)) = 3%nat /\ Forall (fun c => c <> 0) (abbr months (tm_mon m))).
  { revert H5. generalize (tm_mon m). apply (in_range _ 12). intros k Hk.
    do 12 (destruct k as [|k]; [split; [reflexivity | vm_compute; repeat constructor; discriminate] |]). lia. }
  assert (H2d : forall n, 0 <= n -> Forall (fun c => c <> 0) (two n)).
  { intros n Hp. unfold two. repeat constructor; Z.to_euclidean_division_equations; lia. }
  split.
  - rewrite !length_app. rewrite (proj1 Hw), (proj1 Hn). reflexivity.
  - repeat (apply Forall_app; split); try apply Hw; try apply Hn; try (apply H2d; lia);
      try (vm_compute; repeat constructor; discriminate).
    unfold four. repeat constructor; Z.to_euclidean_division_equations; lia.
Qed.

Lemma c_str_whole s : Forall (fun c => c <> 0) s -> c_str s = s.
Proof. induction 1 as [|c s Hc _ IH]; [done |]. cbn [c_str]. rewrite (proj2 (Z.eqb_neq c 0) Hc), IH. done. Qed.

(** The text of a time. *)
Definition date (t : Z) : list Z := strftime (gmtime t).

Lemma date_parses t : time_ok t -> TIM_parse (date t) = t.
Proof.
  intros Ht. destruct (gmtime_range t Ht) as (R1 & R2 & R3 & R4 & R5 & R6 & R7). unfold TIM_parse, date.
  rewrite c_str_whole by (apply strftime_text; assumption). unfold fmts. cbn [parse_loop].
  rewrite scan_rfc1123 by assumption. apply timegm_gmtime.
Qed.

(** C22: A date that is written is read back, for every whole second up to the end of
    the year 9999: the calendar, the printing and the scanning agree. *)
Theorem TIM_format_parse t d : time_ok t -> 0 <= d < sec ->
  exists s, TIM_format (t * sec + d) = Some s /\ TIM_parse s = t.
Proof.
  intros Ht Hd. exists (date t). split; [| apply date_parses; exact Ht].
  destruct (gmtime_range t Ht) as (R1 & R2 & R3 & R4 & R5 & R6 & R7). unfold TIM_format.
  assert (Hs : 0 < sec) by (vm_compute; reflexivity).
  assert (E : Z.quot (t * sec + d) sec = t).
  { unfold time_ok in Ht. rewrite Z.quot_div_nonneg by nia. symmetry. apply (Z.div_unique _ _ _ d); lia. }
  rewrite E. fold (date t). unfold date. rewrite (proj1 (strftime_text (gmtime t) R1 R2 R3 R4 R5 R6 R7)). reflexivity.
Qed.
Lemma TIM_format_parse_witness : exists s, TIM_format (951782400 * sec + 5) = Some s /\ TIM_parse s = 951782400.
Proof. apply (TIM_format_parse 951782400 5); vm_compute; split; (discriminate || reflexivity). Defined.

End Time.
