(* ===== verification/Ttl.v ===== *)
(** * Ttl: how long a response may be served

    [RFC2616_Ttl] of [bin/varnishd/rfc2616.c]: the time at which an object expires,
    from the headers of the response, 0 when it is not to be cached; together with
    the age that is noted.  [entered] is when the response came; the log record is
    left out.  [None] is a failed assertion, or a conversion of a [double] to an
    [int] that does not hold it. *)
From S2P Require Import Prelude Double Strtoul Vct Http Time.

Module Ttl.
Import Double Http Time.

Definition H_Age : list Z := hdrconst (bs "Age").
Definition H_Cache_Control : list Z := hdrconst (bs "Cache-Control").
Definition H_Date : list Z := hdrconst (bs "Date").
Definition H_Expires : list Z := hdrconst (bs "Expires").

(** An [unsigned] as an [int]. *)
Definition int_of (z : Z) : Z := (z + 2 ^ 31) mod 2 ^ 32 - 2 ^ 31.
(** [(int)d]. *)
Definition int_of_double (d : double) : option Z :=
  let n := Z.quot d sec in assert! (- 2 ^ 31 <=? n) && (n <? 2 ^ 31) ;; Some n.

Section Params.
Context (default_ttl clock_skew : Z).

(** [p = NULL] leaves no relative specification, but a [s-maxage] without a value
    hides [max-age]. *)
Definition relative (hp : http) : option (option (list Z)) :=
  let? f := http_GetHdrField hp H_Cache_Control (bs "s-maxage") in
  let? f := match f with Some p => Some (Some p)
            | None => http_GetHdrField hp H_Cache_Control (bs "max-age") end in
  Some (default None f).

(** The last two lines: from the seconds [ttl] and the time [ttd]. *)
Definition finish (entered : double) (ttl : Z) (ttd : double) : double :=
  if (0 <? ttl) && (ttd =? 0) then dadd entered (of_int ttl) else ttd.

Definition header_time (hp : http) (h : list Z) : option double :=
  let? g := http_GetHdr hp h in
  Some (match g with Some p => of_int (TIM_parse p) | None => 0 end).

Definition absolute (entered : double) (hp : http) : option (Z * double) :=
  let ttl := int_of default_ttl in
  let? h_expires := header_time hp H_Expires in
  if h_expires =? 0 then Some (ttl, 0)
  else
    let? h_date := header_time hp H_Date in
    if h_expires <? h_date then Some (0, 0)
    else if (h_date =? 0) ||
            ((h_date <? dadd entered (of_int clock_skew)) && (entered <? dadd h_date (of_int clock_skew)))
    then if h_expires <? entered then Some (0, 0) else Some (ttl, h_expires)
    else let? ttl := int_of_double (dsub h_expires h_date) in Some (ttl, 0).

Definition RFC2616_Ttl (entered : double) (hp : http) : option (double * option Z) :=
  assert! negb (entered =? 0) ;;
  let? r := relative hp in
  match r with
  | Some p =>
      let max_age := u32 (fst (Strtoul.strtoul 0 p)) in
      let? a := http_GetHdr hp H_Age in
      let noted := (fun q => u32 (fst (Strtoul.strtoul 0 q))) <$> a in
      let age := default 0 noted in
      let ttl := if max_age <? age then 0 else int_of (max_age - age) in
      Some (finish entered ttl 0, noted)
  | None =>
      let? (ttl, ttd) := absolute entered hp in
      Some (finish entered ttl ttd, None)
  end.

End Params.

End Ttl.
