(* ===== verification/TtlSpec.v ===== *)
(** * TtlSpec: the headers decide how long a response may be served

    What the text of [Cache-Control], [Age], [Expires] and [Date] says is found
    and read, and the policy of [RFC2616_Ttl] is applied to it. *)
From S2P Require Import Prelude Double Strtoul Vct Http Time Ttl.

Module TtlSpec.
Import Double Http Time Ttl.

(** ** Fields of a header *)

Definition sep (c : Z) : Prop := Vct.vct_issepctl c = true /\ c <> 0.
Definition tokc (c : Z) : Prop := Vct.vct_issepctl c = false /\ c <> 0.

(** A value as tokens, each with the separators behind it. *)
Definition text (items : list (list Z * list Z)) : list Z := concat (map (fun i => i.1 ++ i.2) items).
Inductive items_ok : list (list Z * list Z) -> Prop :=
  | ok_nil : items_ok []
  | ok_last t s : t <> [] -> Forall tokc t -> Forall sep s -> items_ok [(t, s)]
  | ok_cons t s l : t <> [] -> Forall tokc t -> Forall sep s -> s <> [] -> items_ok l -> items_ok ((t, s) :: l).
Fixpoint behind (name : list Z) (items : list (list Z * list Z)) : option (list Z) :=
  match items with
  | [] => None
  | (t, s) :: l => if bool_decide (t = name) then Some (s ++ text l) else behind name l
  end.

Lemma skip_token_app t r : Forall tokc t -> r = [] \/ (exists c r', r = c :: r' /\ sep c) -> skip_token (t ++ r) = r.
Proof.
  intros Ht Hr. induction Ht as [|c t [H1 H2] _ IH]; cbn [app skip_token].
  - destruct Hr as [->|(c & r' & -> & H1 & H2)]; [done |]. cbn [skip_token]. rewrite H1, andb_false_r. done.
  - rewrite H1, (proj2 (Z.eqb_neq c 0) H2). exact IH.
Qed.

(** The field is a token like the ones of the text. *)
Section Field.
Context (field : list Z) (Hf : Forall tokc field) (Hne : field <> []).

Lemma field_len : (0 < length field)%nat.
Proof. destruct field; [done | simpl; lia]. Qed.
Lemma loop_short fuel h : (length h < length field)%nat -> field_loop fuel h field = None.
Proof. intros H. destruct fuel; [done |]. cbn [field_loop]. rewrite (proj2 (Nat.ltb_lt _ _)) by exact H. done. Qed.
Lemma loop_sep fuel c h : sep c -> field_loop (S fuel) (c :: h) field = field_loop fuel h field.
Proof.
  intros [Hc _]. cbn [field_loop]. destruct (Nat.ltb_spec (length (c :: h)) (length field)) as [Hs|Hs].
  - symmetry. apply loop_short. cbn [length] in Hs. lia.
  - cbn [peek tail]. rewrite Hc. done.
Qed.

Lemma prefix_tok t r : Forall tokc t -> r = [] \/ (exists c r', r = c :: r' /\ sep c) ->
  let h := t ++ r in
  ((length h =? length field)%nat || Vct.vct_issepctl (at_ h (length field))) && bool_decide (take (length field) h = field)
    = bool_decide (t = field).
Proof.
  intros Ht Hr h. destruct (bool_decide_reflect (t = field)) as [E|E].
  - rewrite <- E. unfold h. rewrite take_app_length, bool_decide_true by done. rewrite andb_true_r.
    destruct Hr as [->|(c & r' & -> & H1 & _)].
    + rewrite app_nil_r, Nat.eqb_refl. done.
    + rewrite at_app_r by lia. rewrite Nat.sub_diag, at_cons_0, H1, orb_true_r. done.
  - apply andb_false_iff. destruct (bool_decide_reflect (take (length field) h = field)) as [Et|]; [left | auto].
    assert (Hl : (length field < length t)%nat).
    { destruct (decide (length field < length t)%nat) as [|Hge]; [done |]. exfalso.
      destruct (decide (length field = length t)) as [Hq|Hq].
      - apply E. rewrite Hq in Et. unfold h in Et. rewrite take_app_length in Et. congruence.
      - assert (Hx : tokc (at_ field (length t))).
        { apply Forall_at; [exact Hf | lia]. }
        assert (Hy : at_ field (length t) = at_ r 0).
        { rewrite <- Et. unfold h, at_ at 1. rewrite lookup_take_lt by lia. rewrite lookup_app_r by lia.
          rewrite Nat.sub_diag. done. }
        destruct Hr as [->|(c & r' & -> & H1 & _)].
        + rewrite Hy in Hx. destruct Hx as [_ Hx]. apply Hx. reflexivity.
        + rewrite Hy, at_cons_0 in Hx. destruct Hx as [Hx _]. congruence. }
    unfold h. rewrite length_app, (proj2 (Nat.eqb_neq _ _)) by lia. cbn [orb]. rewrite at_app_l by exact Hl.
    apply (Forall_at _ _ _ Ht Hl).
Qed.

Lemma seps_step s : Forall sep s -> forall fuel h, field_loop (length s + fuel) (s ++ h) field = field_loop fuel h field.
Proof.
  induction 1 as [|c s Hc _ IH]; intros fuel h; [done |]. cbn [length app Nat.add]. rewrite loop_sep by exact Hc. apply IH.
Qed.

Lemma field_items items : items_ok items -> forall fuel, (length (text items) < fuel)%nat ->
  field_loop fuel (text items) field =
  match behind field items with Some r => Some (field_value r) | None => None end.
Proof.
  assert (G : forall t s l, t <> [] -> Forall tokc t -> Forall sep s -> (s = [] -> l = []) ->
    (forall fuel, (length (text l) < fuel)%nat ->
       field_loop fuel (text l) field = match behind field l with Some r => Some (field_value r) | None => None end) ->
    forall fuel, (length (text ((t, s) :: l)) < fuel)%nat ->
      field_loop fuel (text ((t, s) :: l)) field =
      match behind field ((t, s) :: l) with Some r => Some (field_value r) | None => None end).
  { intros t s l Hn Ht Hs Hsl IH fuel Hfu. cbn [behind].
    change (text ((t, s) :: l)) with ((t ++ s) ++ text l) in *. rewrite <- app_assoc in *.
    assert (Hr : s ++ text l = [] \/ (exists c r', s ++ text l = c :: r' /\ sep c)).
    { destruct Hs as [|c s Hc Hs]; [left; rewrite (Hsl eq_refl); done | right; exists c, (s ++ text l); done]. }
    rewrite length_app in Hfu. assert (Ht0 : (0 < length t)%nat) by (destruct t; [done | simpl; lia]).
    destruct fuel as [|fuel]; [lia |]. cbn [field_loop].
    pose proof (prefix_tok t (s ++ text l) Ht Hr) as P. cbv zeta in P. rewrite P. clear P.
    rewrite skip_token_app by done.
    destruct (Nat.ltb_spec (length (t ++ s ++ text l)) (length field)) as [Hlt|Hge].
    - rewrite bool_decide_false by (intros ->; rewrite length_app in Hlt; lia).
      rewrite <- (IH (S (length (text l)))) by lia. symmetry. apply loop_short. rewrite !length_app in Hlt. lia.
    - assert (Hp : Vct.vct_issepctl (peek (t ++ s ++ text l)) = false).
      { destruct t as [|c t]; [done |]. apply Forall_cons in Ht as [[Hc _] _]. exact Hc. }
      rewrite Hp. destruct (bool_decide_reflect (t = field)) as [->|].
      + rewrite drop_app_length. done.
      + rewrite length_app in Hfu. replace fuel with (length s + (fuel - length s))%nat by lia.
        rewrite seps_step by exact Hs. apply IH. lia. }
  induction 1 as [|t s H1 H2 H3|t s l H1 H2 H3 H4 H5 IH].
  - intros fuel Hfu. cbn [behind]. apply loop_short. cbn. apply field_len.
  - apply G; try done. intros fuel Hfu. cbn [behind]. apply loop_short. cbn. apply field_len.
  - apply G; try done.
Qed.

End Field.

(** ** Directives *)

Inductive directive := Flag (name : list Z) | Val (name : list Z) (n : Z).
Definition name_of (d : directive) : list Z := match d with Flag nm => nm | Val nm _ => nm end.
(** A token that is not a number. *)
Definition name_ok (nm : list Z) : Prop := Forall tokc nm /\ nm <> [] /\ ~ Forall (fun c => is_Some (Strtoul.is_digit 10 c)) nm.
Definition directive_ok (d : directive) : Prop :=
  name_ok (name_of d) /\ match d with Flag _ => True | Val _ n => 0 <= n end.

(** [public, max-age=60] *)
Definition items1 (d : directive) (s : list Z) : list (list Z * list Z) :=
  match d with Flag nm => [(nm, s)] | Val nm n => [(nm, [61]); (Strtoul.print 10 n, s)] end.
Fixpoint items_of (ds : list directive) : list (list Z * list Z) :=
  match ds with [] => [] | [d] => items1 d [] | d :: ds => items1 d (bs ", ") ++ items_of ds end.
Definition print_directives (ds : list directive) : list Z := text (items_of ds).
Fixpoint find_directive (nm : list Z) (ds : list directive) : option directive :=
  match ds with [] => None | d :: ds => if bool_decide (name_of d = nm) then Some d else find_directive nm ds end.

Lemma digit_plain c : is_Some (Strtoul.is_digit 10 c) -> tokc c /\ Vct.vct_issp c = false.
Proof.
  intros [v H]. unfold Strtoul.is_digit, Strtoul.digit_val in H. destruct (isdigit c) eqn:E.
  - unfold isdigit in E. assert (Hc : c = 48 \/ c = 49 \/ c = 50 \/ c = 51 \/ c = 52 \/ c = 53 \/ c = 54 \/ c = 55 \/ c = 56 \/ c = 57) by lia.
    repeat (destruct Hc as [->|Hc]; [repeat split; (reflexivity || discriminate) |]). subst c. repeat split; (reflexivity || discriminate).
  - destruct (_ && _) eqn:E2 in H; [| done]. destruct (Z.ltb_spec (tolower c - 97 + 10) 10) as [Hl|]; [| done]. lia.
Qed.
Lemma print_tok n : 0 <= n -> Forall tokc (Strtoul.print 10 n) /\ Strtoul.print 10 n <> [] /\
  Forall (fun c => is_Some (Strtoul.is_digit 10 c)) (Strtoul.print 10 n).
Proof.
  intros Hn. destruct (Strtoul.print_spec 10 ltac:(lia) n Hn) as (H1 & H2 & _). split; [| done].
  eapply Forall_impl; [exact H1 | intros c Hc; apply digit_plain; exact Hc].
Qed.

Lemma sep_comma : Forall sep (bs ", ").
Proof. repeat constructor; discriminate. Qed.
Lemma sep_eq : Forall sep [61].
Proof. repeat constructor; discriminate. Qed.

Lemma items_of_ok ds : Forall directive_ok ds -> items_ok (items_of ds).
Proof.
  induction 1 as [|d ds Hd Hds IH]; [constructor |]. destruct Hd as [[H1 [H2 _]] Hv].
  destruct ds as [|d2 ds]; cbn [items_of].
  - destruct d as [nm|nm n]; cbn [items1 name_of] in *; [apply ok_last; done |].
    destruct (print_tok n Hv) as (P1 & P2 & _).
    apply ok_cons; [done | done | apply sep_eq | done |]. apply ok_last; done.
  - destruct d as [nm|nm n]; cbn [items1 name_of app] in *; [apply ok_cons; [done | done | apply sep_comma | done | exact IH] |].
    destruct (print_tok n Hv) as (P1 & P2 & _).
    apply ok_cons; [done | done | apply sep_eq | done |]. apply ok_cons; [done | done | apply sep_comma | done | exact IH].
Qed.

(** What stands behind the field that is looked for. *)
Definition answer (d : option directive) (r : option (list Z)) : Prop :=
  match d with
  | None => r = None
  | Some (Flag _) => exists rest, r = Some rest /\ (rest = [] \/ exists r', rest = 44 :: r')
  | Some (Val _ n) => exists rest, r = Some (61 :: Strtoul.print 10 n ++ rest) /\ (rest = [] \/ exists r', rest = 44 :: r')
  end.

Lemma behind_items nm ds : Forall directive_ok ds -> name_ok nm -> answer (find_directive nm ds) (behind nm (items_of ds)).
Proof.
  intros Hds (_ & _ & Hnm). induction Hds as [|d ds [_ Hv] _ IH]; [done |]. cbn [find_directive].
  assert (E : exists s, items_of (d :: ds) = items1 d s ++ items_of ds /\
    (s ++ text (items_of ds) = [] \/ exists r', s ++ text (items_of ds) = 44 :: r')).
  { destruct ds as [|d2 ds]; [exists []; cbn [items_of]; rewrite app_nil_r; auto |].
    exists (bs ", "). split; [done |]. right. eexists. reflexivity. }
  destruct E as (s & E & Hs). rewrite E. destruct (bool_decide_reflect (name_of d = nm)) as [Hn|Hn].
  - destruct d as [m|m n]; cbn [name_of items1 app behind] in *; rewrite bool_decide_true by exact Hn; cbn [answer].
    + exists (s ++ text (items_of ds)). done.
    + exists (s ++ text (items_of ds)). split; [| exact Hs].
      change (text ((Strtoul.print 10 n, s) :: items_of ds)) with ((Strtoul.print 10 n ++ s) ++ text (items_of ds)).
      rewrite <- app_assoc. done.
  - destruct d as [m|m n]; cbn [name_of items1 app behind] in *; rewrite bool_decide_false by exact Hn; [exact IH |].
    rewrite bool_decide_false; [exact IH |]. intros Ep. apply Hnm. rewrite <- Ep. apply print_tok. exact Hv.
Qed.

(** What [http_GetHdrField] gives for a header of directives. *)
Definition field_answer (d : option directive) (r : option (option (list Z))) : Prop :=
  match d with
  | None => r = None
  | Some (Flag _) => r = Some None
  | Some (Val _ n) => exists rest, r = Some (Some (Strtoul.print 10 n ++ rest)) /\ (rest = [] \/ exists r', rest = 44 :: r')
  end.

Lemma text_nonzero items : items_ok items -> Forall (fun c => c <> 0) (text items).
Proof.
  assert (T : forall t, Forall tokc t -> Forall (fun c => c <> 0) t) by (intros t H; eapply Forall_impl; [exact H | unfold tokc; tauto]).
  assert (S : forall t, Forall sep t -> Forall (fun c => c <> 0) t) by (intros t H; eapply Forall_impl; [exact H | unfold sep; tauto]).
  induction 1 as [|t s H1 H2 H3|t s l H1 H2 H3 H4 _ IH]; [constructor | |].
  - change (text [(t, s)]) with ((t ++ s) ++ []). rewrite app_nil_r. apply Forall_app. auto.
  - change (text ((t, s) :: l)) with ((t ++ s) ++ text l). apply Forall_app. split; [apply Forall_app; auto | exact IH].
Qed.

Lemma print_not_blank n r : 0 <= n -> skip_sp (Strtoul.print 10 n ++ r) = Strtoul.print 10 n ++ r.
Proof.
  intros Hn. destruct (print_tok n Hn) as (P1 & P2 & P3). destruct (Strtoul.print 10 n) as [|c l]; [done |].
  apply Forall_cons in P3 as [Hc _]. cbn [app skip_sp]. rewrite (proj2 (digit_plain c Hc)). done.
Qed.

Lemma GetHdrField_directives hp h ds nm : Forall directive_ok ds -> name_ok nm ->
  http_GetHdr hp h = Some (Some (print_directives ds)) ->
  exists r, http_GetHdrField hp h nm = Some r /\ field_answer (find_directive nm ds) r.
Proof.
  intros Hds Hnm E. unfold http_GetHdrField. rewrite E. cbv zeta.
  pose proof (items_of_ok ds Hds) as Hok. rewrite c_str_whole by (apply text_nonzero; exact Hok).
  rewrite c_str_whole by (eapply Forall_impl; [apply Hnm | unfold tokc; tauto]).
  unfold print_directives. rewrite field_items; [| apply Hnm | apply Hnm | exact Hok | lia].
  eexists. split; [reflexivity |]. pose proof (behind_items nm ds Hds Hnm) as A. revert A.
  destruct (find_directive nm ds) as [[m|m n]|] eqn:Ef; cbn [answer field_answer].
  - intros (rest & -> & [-> | [r' ->]]); reflexivity.
  - intros (rest & -> & Hr). exists rest. split; [| exact Hr]. unfold field_value. change (skip_sp (61 :: ?x)) with (61 :: x).
    cbn [peek tail]. change (61 =? 61) with true. cbv iota. rewrite print_not_blank; [done |].
    clear -Hds Ef. induction Hds as [|d ds [_ Hv] _ IH]; [done |]. cbn [find_directive] in Ef.
    destruct (bool_decide _); [| auto]. injection Ef as ->. exact Hv.
  - intros ->. reflexivity.
Qed.

(** ** Numbers *)

Lemma print_head fuel : forall n, 0 < n < 10 ^ Z.of_nat fuel -> peek (Strtoul.print_fuel fuel 10 n) <> 48.
Proof.
  induction fuel as [|fuel IH]; intros n Hn; [simpl in Hn; lia |]. cbn [Strtoul.print_fuel].
  destruct (Z.ltb_spec n 10) as [Hl|Hl].
  - cbn [peek]. unfold Strtoul.digit_char. rewrite (proj2 (Z.ltb_lt n 10)) by lia. lia.
  - assert (Hq : 0 < n / 10 < 10 ^ Z.of_nat fuel).
    { rewrite Nat2Z.inj_succ, Z.pow_succ_r in Hn by lia. split; [apply Z.div_str_pos; lia |].
      apply Z.div_lt_upper_bound; lia. }
    specialize (IH _ Hq). pose proof (proj1 (proj2 (Strtoul.print_fuel_spec 10 ltac:(lia) fuel (n / 10) ltac:(lia)))) as Hne.
    destruct (Strtoul.print_fuel fuel 10 (n / 10)) as [|c l]; [| exact IH]. exfalso. apply Hne; [| done].
    destruct fuel; [simpl in Hq; lia | lia].
Qed.

(** A decimal number without a leading zero is read as such, in base 0 too. *)
Lemma strtoul_decimal n rest : 0 <= n <= Strtoul.ULONG_MAX -> rest = [] \/ (exists r', rest = 44 :: r') ->
  fst (Strtoul.strtoul 0 (Strtoul.print 10 n ++ rest)) = n.
Proof.
  intros Hn Hr. destruct (print_tok n ltac:(lia)) as (P1 & P2 & P3).
  destruct (Strtoul.print_spec 10 ltac:(lia) n ltac:(lia)) as (_ & _ & P4).
  assert (Hh : 0 < n -> peek (Strtoul.print 10 n) <> 48).
  { intros Hp. apply print_head. split; [lia |].
    replace (Z.of_nat (S (Z.to_nat (Z.log2 n)))) with (Z.succ (Z.log2 n)) by (pose proof (Z.log2_nonneg n); lia).
    apply Z.lt_le_trans with (2 ^ Z.succ (Z.log2 n)); [apply Z.log2_spec; lia | apply Z.pow_le_mono_l; lia]. }
  unfold Strtoul.strtoul. rewrite Strtoul.c_str_app.
  2:{ rewrite <- list_elem_of_In. intros Hin. rewrite Forall_forall in P1. destruct (P1 _ Hin) as [_ Hx]. done. }
  assert (Hcr : c_str rest = [] \/ exists r', c_str rest = 44 :: r').
  { destruct Hr as [->|[r' ->]]; [left; done | right; eexists; reflexivity]. }
  set (r := c_str rest) in *. clearbody r. assert (Ep : Strtoul.print 10 n = peek (Strtoul.print 10 n) :: tail (Strtoul.print 10 n)).
  { destruct (Strtoul.print 10 n); done. }
  assert (Hd : is_Some (Strtoul.is_digit 10 (peek (Strtoul.print 10 n)))).
  { rewrite Ep in P3. apply Forall_cons in P3 as [P3 _]. exact P3. }
  destruct Hd as [v Hv]. destruct (Strtoul.digit_not_space _ _ _ Hv) as (N1 & N2 & N3 & N4).
  assert (Hs : Strtoul.spaces (Strtoul.print 10 n ++ r) = O) by (rewrite Ep; cbn [app Strtoul.spaces]; rewrite N1; done).
  rewrite Hs, drop_0. assert (Hpk : peek (Strtoul.print 10 n ++ r) = peek (Strtoul.print 10 n)) by (rewrite Ep; done).
  rewrite Hpk, (proj2 (Z.eqb_neq _ 45)), (proj2 (Z.eqb_neq _ 43)) by done. cbn [orb]. change (0 =? 0) with true. cbn [orb andb].
  assert (Hstop : Strtoul.is_digit 10 (peek r) = None) by (destruct Hcr as [->|[r' ->]]; reflexivity).
  destruct (Z.eq_dec n 0) as [->|Hnz].
  { change (Strtoul.print 10 0) with [48]. destruct Hcr as [->|[r' ->]]; reflexivity. }
  assert (Hx : Strtoul.hex_prefix (Strtoul.print 10 n ++ r) = false).
  { unfold Strtoul.hex_prefix. rewrite Ep at 1. cbn [app]. rewrite at_cons_0.
    rewrite (proj2 (Z.eqb_neq _ 48)) by (apply Hh; lia). done. }
  rewrite Hx, Hpk, (proj2 (Z.eqb_neq _ 48)) by (apply Hh; lia).
  rewrite (Strtoul.digits_stop 10 _ _ 0 P3 Hstop), P4.
  destruct (Strtoul.print 10 n) as [|c l]; [done |]. cbn [length fst].
  rewrite (proj2 (Z.ltb_ge _ _)) by lia. done.
Qed.

(** ** The policy *)

(** What the headers of a response say. *)
Record origin := Origin { cc : list directive; o_age : option Z; o_expires : option Z; o_date : option Z }.
Definition says_it (hp : http) (o : origin) : Prop :=
  http_GetHdr hp H_Cache_Control = Some (if bool_decide (cc o = []) then None else Some (print_directives (cc o))) /\
  http_GetHdr hp H_Age = Some (Strtoul.print 10 <$> o_age o) /\
  http_GetHdr hp H_Expires = Some (date <$> o_expires o) /\
  http_GetHdr hp H_Date = Some (date <$> o_date o).

(** The seconds of [s-maxage] or, without one, of [max-age]. *)
Definition max_age (o : origin) : option Z :=
  match find_directive (bs "s-maxage") (cc o) with
  | Some (Val _ n) => Some n
  | Some (Flag _) => None
  | None => match find_directive (bs "max-age") (cc o) with Some (Val _ n) => Some n | _ => None end
  end.

Section Policy.
Context (default_ttl clock_skew : Z) (entered : double).

(** The clock of the backend agrees with ours. *)
Definition in_step (d : Z) : bool :=
  (of_int d <? dadd entered (of_int clock_skew)) && (entered <? dadd (of_int d) (of_int clock_skew)).
(** A number of seconds from now, and a time that has not passed. *)
Definition for_seconds (n : Z) : option double := if n <=? 0 then None else Some (dadd entered (of_int n)).
Definition until (t : Z) : option double := if of_int t <? entered then None else Some (of_int t).

(** When the response expires, [None] when it is not to be cached. *)
Definition lifetime (o : origin) : option double :=
  match max_age o, o_expires o with
  | Some m, _ => for_seconds (m - default 0 (o_age o))
  | None, None => for_seconds default_ttl
  | None, Some e =>
      match o_date o with
      | None => until e
      | Some d => if e <? d then None else if in_step d then until e else for_seconds (e - d)
      end
  end.

Definition origin_ok (o : origin) : Prop :=
  Forall directive_ok (cc o) /\
  match max_age o with Some m => m < 2 ^ 31 | None => True end /\
  match o_age o with Some a => 0 <= a < 2 ^ 32 | None => True end /\
  match o_expires o with Some e => time_ok e /\ 0 < e | None => True end /\
  match o_date o with Some d => time_ok d /\ 0 < d | None => True end /\
  match o_expires o, o_date o with Some e, Some d => e - d < 2 ^ 31 | _, _ => True end.

Lemma rnd_seconds n : 0 <= n < 2 ^ 52 -> rnd (of_int n) = of_int n.
Proof.
  intros Hn. unfold of_int, sec. destruct (Z.eq_dec n 0) as [->|Hnz]; [done |].
  unfold rnd. assert (Hp : 0 < 2 ^ 1074) by (apply Z.pow_pos_nonneg; lia).
  rewrite Z.abs_eq by nia. assert (El : Z.log2 (n * 2 ^ 1074) = 1074 + Z.log2 n) by (apply Z.log2_mul_pow2; lia).
  rewrite El. assert (Hl : 0 <= Z.log2 n <= 51).
  { split; [apply Z.log2_nonneg |]. assert (Z.log2 n < 52) by (apply Z.log2_lt_pow2; lia). lia. }
  set (e := 1074 + Z.log2 n - 52). rewrite (proj2 (Z.leb_gt e 0)) by lia.
  assert (Ez : n * 2 ^ 1074 = n * 2 ^ (1074 - e) * 2 ^ e).
  { rewrite <- Z.mul_assoc, <- Z.pow_add_r by lia. do 2 f_equal. lia. }
  assert (Pe : 0 < 2 ^ e) by (apply Z.pow_pos_nonneg; lia).
  rewrite Ez, Z.mod_mul, Z.div_mul by lia. rewrite (proj2 (Z.ltb_lt 0 (2 ^ (e - 1)))) by (apply Z.pow_pos_nonneg; lia).
  rewrite Z.sgn_pos by nia. lia.
Qed.

Lemma sec_pos : 0 < sec.
Proof. vm_compute. reflexivity. Qed.
Lemma of_int_lt a b : (of_int a <? of_int b) = (a <? b).
Proof. apply eq_true_iff_eq. rewrite !Z.ltb_lt. unfold of_int. pose proof sec_pos. nia. Qed.
Lemma of_int_zero a : (of_int a =? 0) = (a =? 0).
Proof. apply eq_true_iff_eq. rewrite !Z.eqb_eq. unfold of_int. pose proof sec_pos. nia. Qed.
Lemma int_of_small n : - 2 ^ 31 <= n < 2 ^ 31 -> int_of n = n.
Proof. intros H. unfold int_of. rewrite Z.mod_small by lia. lia. Qed.

Lemma name_s_maxage : name_ok (bs "s-maxage").
Proof.
  split; [repeat constructor; discriminate |]. split; [discriminate |]. intros H.
  apply Forall_cons in H as [[v H] _]. vm_compute in H. discriminate H.
Qed.
Lemma name_max_age : name_ok (bs "max-age").
Proof.
  split; [repeat constructor; discriminate |]. split; [discriminate |]. intros H.
  apply Forall_cons in H as [[v H] _]. vm_compute in H. discriminate H.
Qed.

Lemma field_of hp o nm : says_it hp o -> Forall directive_ok (cc o) -> name_ok nm ->
  exists r, http_GetHdrField hp H_Cache_Control nm = Some r /\ field_answer (find_directive nm (cc o)) r.
Proof.
  intros (E & _) Hd Hn. destruct (bool_decide_reflect (cc o = [])) as [Ec|Ec].
  - exists None. unfold http_GetHdrField. rewrite E, Ec. done.
  - apply GetHdrField_directives; done.
Qed.

Lemma relative_spec hp o : says_it hp o -> Forall directive_ok (cc o) ->
  match max_age o with
  | Some m => exists rest, relative hp = Some (Some (Strtoul.print 10 m ++ rest)) /\ (rest = [] \/ exists r', rest = 44 :: r')
  | None => relative hp = Some None
  end.
Proof.
  intros Hs Hd. unfold relative, max_age.
  destruct (field_of hp o (bs "s-maxage") Hs Hd name_s_maxage) as (r & -> & A).
  destruct (field_of hp o (bs "max-age") Hs Hd name_max_age) as (r2 & -> & A2).
  destruct (find_directive (bs "s-maxage") (cc o)) as [[m|m n]|]; cbn [field_answer] in A.
  - rewrite A. reflexivity.
  - destruct A as (rest & -> & Hr). exists rest. done.
  - rewrite A. destruct (find_directive (bs "max-age") (cc o)) as [[m|m n]|]; cbn [field_answer] in A2.
    + rewrite A2. reflexivity.
    + destruct A2 as (rest & -> & Hr). exists rest. done.
    + rewrite A2. reflexivity.
Qed.

Lemma max_age_nonneg o m : Forall directive_ok (cc o) -> max_age o = Some m -> 0 <= m.
Proof.
  intros Hd. unfold max_age.
  assert (F : forall nm n n', find_directive nm (cc o) = Some (Val n n') -> 0 <= n').
  { intros nm n n' H. induction Hd as [|d ds [_ Hv] _ IH]; [done |]. cbn [find_directive] in H.
    destruct (bool_decide _); [| auto]. injection H as ->. exact Hv. }
  destruct (find_directive (bs "s-maxage") (cc o)) as [[x|x n]|] eqn:E1; [done | intros [= <-]; apply (F _ _ _ E1) |].
  destruct (find_directive (bs "max-age") (cc o)) as [[x|x n]|] eqn:E2; [done | intros [= <-]; apply (F _ _ _ E2) | done].
Qed.

Lemma finish_seconds n : finish entered n 0 = default 0 (for_seconds n).
Proof.
  unfold finish, for_seconds. change (0 =? 0) with true. rewrite andb_true_r.
  destruct (Z.ltb_spec 0 n), (Z.leb_spec n 0); try lia; done.
Qed.
Lemma finish_until ttl t : 0 < t -> finish entered ttl (of_int t) = of_int t.
Proof. intros Ht. unfold finish. rewrite of_int_zero, (proj2 (Z.eqb_neq t 0)) by lia. rewrite andb_false_r. done. Qed.

Lemma header_time_spec hp h t : http_GetHdr hp h = Some (date <$> t) ->
  match t with Some x => time_ok x | None => True end -> header_time hp h = Some (default 0 (of_int <$> t)).
Proof.
  intros E Ht. unfold header_time. rewrite E. destruct t as [x|]; [| done]. cbn [fmap option_fmap option_map from_option id].
  rewrite date_parses by exact Ht. done.
Qed.

Lemma absolute_spec hp o : 0 < entered -> 0 <= default_ttl < 2 ^ 31 -> says_it hp o -> origin_ok o -> max_age o = None ->
  exists ttl ttd, absolute default_ttl clock_skew entered hp = Some (ttl, ttd) /\
    finish entered ttl ttd = default 0 (lifetime o).
Proof.
  intros He Hdef (_ & _ & SE & SD) (_ & _ & _ & Oe & Od & Oed) Hm. unfold absolute, lifetime. rewrite Hm.
  rewrite (header_time_spec hp H_Expires (o_expires o) SE) by (destruct (o_expires o); tauto).
  rewrite (header_time_spec hp H_Date (o_date o) SD) by (destruct (o_date o); tauto).
  rewrite int_of_small by lia.
  destruct (o_expires o) as [e|]; cbn [fmap option_fmap option_map from_option id].
  2:{ exists default_ttl, 0. split; [done |]. apply finish_seconds. }
  destruct Oe as [Te He0]. rewrite of_int_zero, (proj2 (Z.eqb_neq e 0)) by lia.
  destruct (o_date o) as [d|]; cbn [fmap option_fmap option_map from_option id].
  - destruct Od as [Td Hd0]. rewrite of_int_lt. destruct (Z.ltb_spec e d) as [|Hed].
    { exists 0, 0. done. }
    rewrite of_int_zero, (proj2 (Z.eqb_neq d 0)) by lia. cbn [orb]. fold (in_step d). destruct (in_step d).
    + unfold until. destruct (_ <? _); [exists 0, 0; done |]. exists default_ttl, (of_int e). split; [done |].
      apply finish_until. exact He0.
    + assert (Esub : dsub (of_int e) (of_int d) = of_int (e - d)).
      { unfold dsub. replace (of_int e - of_int d) with (of_int (e - d)) by (unfold of_int; lia). apply rnd_seconds. lia. }
      assert (Eq : Z.quot (of_int (e - d)) sec = e - d) by (apply Z.quot_mul; pose proof sec_pos; lia).
      rewrite Esub. unfold int_of_double. rewrite Eq.
      rewrite (proj2 (Z.leb_le _ _)), (proj2 (Z.ltb_lt _ _)) by lia. cbn [andb].
      exists (e - d), 0. split; [done |]. apply finish_seconds.
  - change (0 =? 0) with true. cbn [orb]. pose proof sec_pos.
    rewrite (proj2 (Z.ltb_ge (of_int e) 0)) by (unfold of_int; nia).
    unfold until. destruct (_ <? _); [exists 0, 0; done |]. exists default_ttl, (of_int e). split; [done |].
    apply finish_until. exact He0.
Qed.


End Policy.

(** ** Concrete responses *)

Definition response (lines : list (list Z)) : http :=
  Http false 200 11 64 (replicate 5 None ++ map (fun l => Some (0, l)) lines) (replicate 64 0) (5 + length lines).
Definition resp0 : http :=
  response [bs "Cache-Control: public, no-transform"; bs "Date: " ++ date 2000000; bs "Expires: " ++ date 2000060].
Definition origin0 : origin :=
  Origin [Flag (bs "public"); Flag (bs "no-transform")] None (Some 2000060) (Some 2000000).

Lemma flag_ok nm : forallb (fun c => negb (Vct.vct_issepctl c) && negb (c =? 0)) nm = true -> nm <> [] ->
  forallb (fun c => bool_decide (is_Some (Strtoul.is_digit 10 c))) nm = false -> directive_ok (Flag nm).
Proof.
  intros H1 H2 H3. split; [| done]. split; [| split; [exact H2 |]]; cbn [name_of].
  - apply Forall_forall. intros c Hc. rewrite forallb_forall in H1. specialize (H1 c (proj1 (list_elem_of_In _ _) Hc)).
    apply andb_true_iff in H1 as [Ha Hb]. apply negb_true_iff in Ha, Hb. split; [exact Ha | apply Z.eqb_neq; exact Hb].
  - intros Hd. assert (Ht : forallb (fun c => bool_decide (is_Some (Strtoul.is_digit 10 c))) nm = true); [| congruence].
    apply forallb_forall. intros c Hc. rewrite Forall_forall in Hd. apply bool_decide_true.
    apply Hd, list_elem_of_In. exact Hc.
Qed.


(** The ages are read in base 0, where a leading zero means octal. *)
Example max_age_octal :
  RFC2616_Ttl 120 10 (of_int 1000) (response [bs "Cache-Control: max-age=0100"]) = Some (of_int 1064, None).
Proof. vm_compute. reflexivity. Qed.
(** An age of 2^31 seconds or more is not cached. *)
Example max_age_large :
  RFC2616_Ttl 120 10 (of_int 1000) (response [bs "Cache-Control: max-age=2147483648"]) = Some (0, None).
Proof. vm_compute. reflexivity. Qed.
(** A date that is no date means the default. *)
Example expires_invalid :
  RFC2616_Ttl 120 10 (of_int 1000) (response [bs "Expires: 0"]) = Some (of_int 1120, None).
Proof. vm_compute. reflexivity. Qed.
(** The names of directives are compared case and all. *)
Example max_age_case :
  RFC2616_Ttl 120 10 (of_int 1000) (response [bs "Cache-Control: Max-Age=60"]) = Some (of_int 1120, None).
Proof. vm_compute. reflexivity. Qed.
(** Expires more than 68 years after Date does not fit an [int]. *)
Example expires_far :
  RFC2616_Ttl 120 10 (of_int 1000000000)
    (response [bs "Date: " ++ date 100; bs "Expires: " ++ date 2200000000]) = None.
Proof. vm_compute. reflexivity. Qed.

End TtlSpec.
