(* ===== verification/Response.v ===== *)
(** * Response: writing a response

    The vectored writer [bin/varnishd/cache_wrw.c] and
    [bin/varnishd/cache_response.c].  [writev] is the kernel: what the n-th call
    returns for the pieces it is given.  The writer keeps pointers to the pieces;
    they point to text that stays as it is until the flush, and so the model keeps
    the text.  The bytes that went out are [sent].  Log records and byte counts
    are left out; the files are compiled without [SENDFILE_WORKS]. *)
From S2P Require Import Prelude Double Strtoul Vct Ws Http Time Ttl.

Module Response.
Import Double Http Ws.

(** ** The writer *)

Record worker := Worker {
  wfd : option Z;
  werr : Z;
  liov : Z;
  iov : list (list Z);
  siov : nat;
  calls : nat;
  sent : list Z
}.

Section Kernel.
Context (writev : nat -> list (list Z) -> Z).

Definition WRW_Reserve (w : worker) (fd : Z) : option worker :=
  assert! bool_decide (wfd w = None) ;;
  Some (Worker (Some fd) 0 0 [] (siov w) (calls w) (sent w)).
Definition WRW_Release (w : worker) : worker := Worker None 0 0 [] (siov w) (calls w) (sent w).

Definition WRW_Flush (w : worker) : option (Z * worker) :=
  let? fd := wfd w in
  let w := if (0 <=? fd) && (0 <? length (iov w))%nat && (werr w =? 0) then
             let i := writev (calls w) (iov w) in
             Worker (wfd w) (if i =? liov w then werr w else werr w + 1) (liov w) (iov w) (siov w)
                    (S (calls w)) (sent w ++ take (Z.to_nat i) (concat (iov w)))
           else w in
  Some (werr w, Worker (wfd w) (werr w) 0 [] (siov w) (calls w) (sent w)).
Definition WRW_FlushRelease (w : worker) : option (Z * worker) :=
  let? (u, w) := WRW_Flush w in Some (u, WRW_Release w).

(** The end of both forms of [WRW_Write]; a store past the vector is an error. *)
Definition add_iov (w : worker) (ptr : list Z) : option worker :=
  let? w := (if (length (iov w) =? siov w)%nat then let? (_, w) := WRW_Flush w in Some w else Some w) in
  assert! (length (iov w) <? siov w)%nat ;;
  Some (Worker (wfd w) (werr w) (liov w + Z.of_nat (length ptr)) (iov w ++ [ptr]) (siov w) (calls w) (sent w)).
(** [len] is an [int]: the pieces are shorter than 2^31. *)
Definition WRW_Write (w : worker) (ptr : list Z) : option worker :=
  let? fd := wfd w in
  if (length ptr =? 0)%nat || (fd <? 0) then Some w else add_iov w ptr.
(** With [len == -1]: a C string. *)
Definition WRW_WriteS (w : worker) (str : list Z) : option worker :=
  let? fd := wfd w in
  if fd <? 0 then Some w else add_iov w (c_str str).
Definition WRW_WriteH (w : worker) (hh : txt) (suf : list Z) : option worker :=
  assert! bool_decide (is_Some (wfd w)) ;;
  let? (_, b) := hh in
  let? w := WRW_Write w b in
  WRW_WriteS w suf.

(** ** A response *)

Fixpoint write_fields (k u : nat) (w : worker) (hp : http) : option worker :=
  match k with
  | O => Some w
  | S k =>
      match get hp u with
      | None => write_fields k (S u) w hp
      | Some t => let? w := WRW_WriteH w (Some t) [13; 10] in write_fields k (S u) w hp
      end
  end.
(** [http_Write(w, hp, 1)] through the writer. *)
Definition http_Write_resp (w : worker) (hp : http) : option worker :=
  let? _ := get hp HTTP_HDR_STATUS in
  let? w := WRW_WriteH w (get hp HTTP_HDR_PROTO) [32] in
  let? w := WRW_WriteH w (get hp HTTP_HDR_STATUS) [32] in
  let? w := WRW_WriteH w (get hp HTTP_HDR_RESPONSE) [13; 10] in
  let? w := write_fields (nhd hp - HTTP_HDR_FIRST) HTTP_HDR_FIRST w hp in
  WRW_WriteS w [13; 10].

(** What [RES_WriteObj] uses of the session and the object; the segments are the
    bytes of the storage. *)
Record delivery := Delivery {
  fd : Z;
  disable_esi : bool;
  esis : Z;
  wantbody : bool;
  protover : Z;
  resp : http;
  has_esidata : bool;
  store : list (list Z);
  obj_len : Z
}.
(** Everything is written, and the session closed or not, or [ESI_Deliver] goes on. *)
Inductive outcome := Done (closed : bool) | Deliver.

Fixpoint write_store (w : worker) (u : Z) (l : list (list Z)) : option (Z * worker) :=
  match l with
  | [] => Some (u, w)
  | st :: l => let u := u32 (u + Z.of_nat (length st)) in let? w := WRW_Write w st in write_store w u l
  end.

(** The object, as one chunk inside of an ESI response. *)
Definition chunked (sp : delivery) : bool :=
  negb (disable_esi sp) && (0 <? esis sp) && (11 <=? protover sp) && (0 <? obj_len sp).
Definition write_body (w : worker) (sp : delivery) : option worker :=
  let? w := (if chunked sp then WRW_WriteS w (Strtoul.print 16 (obj_len sp) ++ [13; 10]) else Some w) in
  let? (u, w) := write_store w 0 (store sp) in
  assert! u =? obj_len sp ;;
  if chunked sp then WRW_WriteS w [13; 10] else Some w.

Definition RES_WriteObj (w : worker) (sp : delivery) : option (outcome * worker) :=
  let? w := WRW_Reserve w (fd sp) in
  let? w := (if disable_esi sp || (esis sp =? 0) then http_Write_resp w (resp sp) else Some w) in
  if negb (disable_esi sp) && wantbody sp && has_esidata sp then
    let? (u, w) := WRW_FlushRelease w in
    if negb (u =? 0) then Some (Done true, w) else Some (Deliver, w)
  else
    let? w := (if wantbody sp then write_body w sp else Some w) in
    let? (u, w) := WRW_FlushRelease w in
    Some (Done (negb (u =? 0)), w).

End Kernel.

(** ** Conditional requests *)

Definition H_If_Modified_Since : list Z := hdrconst (bs "If-Modified-Since").
Definition H_If_None_Match : list Z := hdrconst (bs "If-None-Match").
Definition H_ETag : list Z := hdrconst (bs "ETag").
Definition H_Content_Location : list Z := hdrconst (bs "Content-Location").
Definition H_Content_Length : list Z := hdrconst (bs "Content-Length").

(** The object and what of the session [RES_BuildHttp] looks at. *)
Record object := Object {
  response : Z;
  last_modified : double;
  o_http : http;
  o_xid : Z;
  age : Z;
  entered : double;
  esidata : bool
}.

(** The decision of [res_do_conds]. *)
Definition conds_hold (req : http) (t_req : double) (obj : object) : option bool :=
  let? p := http_GetHdr req H_If_Modified_Since in
  let? do_cond := (match p with
    | Some p =>
        if last_modified obj =? 0 then Some None
        else
          let ims := of_int (Time.TIM_parse p) in
          if t_req <? ims then Some None
          else if ims <? last_modified obj then Some None
          else Some (Some true)
    | None => Some (Some false)
    end) in
  match do_cond with
  | None => Some false
  | Some do_cond =>
      let? p := http_GetHdr req H_If_None_Match in
      match p with
      | None => Some do_cond
      | Some p =>
          let? e := http_GetHdr (o_http obj) H_ETag in
          match e with
          | None => Some do_cond
          | Some e => if negb (streq p e) then Some false else Some true
          end
      end
  end.

(** ** The headers of a response *)

(** [%.0f]: to the nearest integer, ties to even. *)
Definition print_0f (d : double) : list Z :=
  let a := Z.abs d in
  let q := a / sec in
  let r := a mod sec in
  let n := if 2 * r <? sec then q else if sec <? 2 * r then q + 1 else q + q mod 2 in
  (if d <? 0 then [45] else []) ++ Strtoul.print 10 n.

(** The static strings have addresses of their own. *)
Definition VIA : Z * list Z := (0x400020, bs "Via: 1.1 varnish").
Definition NOT_MODIFIED : Z * list Z := (0x400040, bs "Not Modified").
Definition S304 : Z * list Z := (0x400050, bs "304").

(** The state threaded through the header functions: the set, its workspace, the
    memory and whether a header was lost. *)
Definition hstate : Type := http * ws * mem * bool.
Definition printf (st : hstate) (str : list Z) : option hstate :=
  let '(to, w, m, lost) := st in
  let? (to, w, m, x) := http_PrintfHeader to w m str in Some (to, w, m, lost || x).
Definition set_static (st : hstate) (s : Z * list Z) : option hstate :=
  let '(to, w, m, lost) := st in
  let? (to, x) := http_SetHeader to s in Some (to, w, m, lost || x).
(** A header of the object passed on as it is. *)
Definition pass_on (st : hstate) (o : http) (h name : list Z) : option hstate :=
  let? p := http_GetHdr o h in
  match p with Some p => printf st (name ++ bs ": " ++ c_str p) | None => Some st end.
Definition connection (doclose : bool) : list Z :=
  bs "Connection: " ++ (if doclose then bs "close" else bs "keep-alive").

Definition res_do_304 (rsp : http) (w : ws) (m : mem) (t_req : double) (xid : Z) (doclose : bool) (obj : object)
  : option hstate :=
  let? to := http_SetResp (http_ClrHeader rsp) HTTP_1_1 S304 NOT_MODIFIED in
  let? lm := Time.TIM_format t_req in
  let? st := printf (to, w, m, false) (bs "Date: " ++ lm) in
  let? st := set_static st VIA in
  let? st := printf st (bs "X-Varnish: " ++ Strtoul.print 10 xid) in
  let? st := (if last_modified obj =? 0 then Some st
              else let? lm := Time.TIM_format (last_modified obj) in printf st (bs "Last-Modified: " ++ lm)) in
  let? st := pass_on st (o_http obj) Ttl.H_Cache_Control (bs "Cache-Control") in
  let? st := pass_on st (o_http obj) H_Content_Location (bs "Content-Location") in
  let? st := pass_on st (o_http obj) H_ETag (bs "ETag") in
  let? st := pass_on st (o_http obj) Ttl.H_Expires (bs "Expires") in
  let? st := pass_on st (o_http obj) H_Vary (bs "Vary") in
  printf st (connection doclose).

(** What [RES_BuildHttp] leaves behind: the headers, and whether a body is wanted
    and the connection to be closed. *)
Definition RES_BuildHttp (rsp : http) (w : ws) (m : mem) (req : http) (t_req t_resp now : double) (xid : Z)
    (want doclose disable : bool) (obj : object) : option (hstate * bool * bool) :=
  let? c := (if (response obj =? 200) && conds req then conds_hold req t_req obj else Some false) in
  if c : bool then
    let? st := res_do_304 rsp w m t_req xid doclose obj in Some (st, false, doclose)
  else
    let? to := http_CopyResp (http_ClrHeader rsp) (o_http obj) in
    let? (to, lost) := http_FilterFields to (o_http obj) HTTPH_A_DELIVER in
    let st := (to, w, m, negb (lost =? 0)%nat) in
    let? (st, doclose) := (if negb disable && esidata obj then
        let? to := http_Unset to H_Content_Length in
        let st := (to, w, m, negb (lost =? 0)%nat) in
        if 11 <=? Http.protover req then
          let? st := printf st (bs "Transfer-Encoding: chunked") in Some (st, doclose)
        else Some (st, true)
      else Some (st, doclose)) in
    let? date := Time.TIM_format now in
    let? st := printf st (bs "Date: " ++ date) in
    let? st := printf st (bs "X-Varnish: " ++ Strtoul.print 10 xid ++
                          (if xid =? o_xid obj then [] else 32 :: Strtoul.print 10 (o_xid obj))) in
    let? st := printf st (bs "Age: " ++ print_0f (dsub (dadd (of_int (age obj)) t_resp) (entered obj))) in
    let? st := set_static st VIA in
    let? st := printf st (connection doclose) in
    Some (st, want, doclose).

End Response.
