(* ===== verification/ResponseSpec.v ===== *)
(** * ResponseSpec: the client gets the response, or a beginning of it

    Whatever the kernel does, the bytes that go out are a prefix of the response,
    all of it unless the session is closed; and the decision to answer "Not
    Modified". *)
From S2P Require Import Prelude Double Strtoul Vct Ws Http Time Ttl Response.

Module ResponseSpec.
Import Double Http Ws Response.

Section Kernel.
Context (writev : nat -> list (list Z) -> Z) (base : list Z) (fd0 : Z).
Context (Hk : forall n l, -1 <= writev n l <= Z.of_nat (length (concat l))) (Hfd : 0 <= fd0).

(** The writer, after it was given the bytes [full]. *)
Record wok (full : list Z) (w : worker) : Prop := {
  wo_fd : wfd w = Some fd0;
  wo_siov : (0 < siov w)%nat /\ (length (iov w) <= siov w)%nat;
  wo_liov : liov w = Z.of_nat (length (concat (iov w)));
  wo_err : 0 <= werr w;
  wo_good : werr w = 0 -> exists p, sent w = base ++ p /\ p ++ concat (iov w) = full;
  wo_bad : werr w <> 0 -> exists n, sent w = base ++ take n full;
  wo_kernel : (forall n l, writev n l = Z.of_nat (length (concat l))) -> werr w = 0
}.

Lemma take_of_prefix (x y z : list Z) n : x ++ y = z -> exists m, x ++ take n y = take m z.
Proof. intros <-. exists (length x + n)%nat. rewrite take_app_add. done. Qed.

Lemma flush_ok full w : wok full w ->
  exists w', WRW_Flush writev w = Some (werr w', w') /\ wok full w' /\ iov w' = [] /\ siov w' = siov w.
Proof.
  intros [H1 H2 H3 H4 H5 H6 H7]. unfold WRW_Flush. rewrite H1. rewrite (proj2 (Z.leb_le 0 fd0)) by exact Hfd. cbn [andb].
  destruct (Nat.ltb_spec 0 (length (iov w))) as [Hi|Hi]; cbn [andb].
  - destruct (Z.eqb_spec (werr w) 0) as [He|He].
    + exists (Worker (Some fd0) (if writev (calls w) (iov w) =? liov w then werr w else werr w + 1) 0 [] (siov w)
                (S (calls w)) (sent w ++ take (Z.to_nat (writev (calls w) (iov w))) (concat (iov w)))).
      split; [reflexivity |]. split; [| split; reflexivity].
      pose proof (Hk (calls w) (iov w)) as Hr.
      destruct (H5 He) as (p & Es & Ef). set (i := writev (calls w) (iov w)) in *.
      constructor; cbn [wfd werr liov iov siov calls sent concat length]; try done; try lia.
      * destruct (i =? liov w); lia.
      * intros Hz. exists full. rewrite app_nil_r. split; [| done]. destruct (Z.eqb_spec i (liov w)) as [Ei|Ei]; [| lia].
        rewrite Ei, H3, Nat2Z.id, take_ge by lia. rewrite Es, <- app_assoc, Ef. done.
      * intros _. rewrite Es, <- app_assoc. destruct (take_of_prefix p (concat (iov w)) full (Z.to_nat i) Ef) as [m Em].
        exists m. rewrite Em. done.
      * intros Hall. pose proof (Hall (calls w) (iov w)) as Ha. fold i in Ha. rewrite Ha, H3, Z.eqb_refl. exact He.
    + exists (Worker (wfd w) (werr w) 0 [] (siov w) (calls w) (sent w)). split; [reflexivity |]. split; [| split; reflexivity].
      constructor; cbn [wfd werr liov iov siov calls sent concat length]; try done; lia.
  - exists (Worker (wfd w) (werr w) 0 [] (siov w) (calls w) (sent w)). split; [reflexivity |]. split; [| split; reflexivity].
    destruct (iov w) as [|x l] eqn:El; [| simpl in Hi; lia].
    constructor; cbn [wfd werr liov iov siov calls sent concat length]; try done; lia.
Qed.

Lemma add_ok full w ptr : wok full w -> exists w', add_iov writev w ptr = Some w' /\ wok (full ++ ptr) w'.
Proof.
  intros HW. unfold add_iov.
  assert (G : exists w1, (if (length (iov w) =? siov w)%nat then let? (_, w) := WRW_Flush writev w in Some w else Some w) = Some w1 /\
    wok full w1 /\ (length (iov w1) < siov w1)%nat).
  { destruct (Nat.eqb_spec (length (iov w)) (siov w)) as [E|E].
    - destruct (flush_ok full w HW) as (w1 & -> & H1 & H2 & H3). exists w1. split; [done |]. split; [done |].
      rewrite H2. apply (wo_siov _ _ H1).
    - exists w. split; [done |]. split; [done |]. pose proof (wo_siov _ _ HW). lia. }
  destruct G as (w1 & -> & [H1 H2 H3 H4 H5 H6 H7] & Hlt). rewrite (proj2 (Nat.ltb_lt _ _)) by exact Hlt.
  eexists. split; [reflexivity |].
  constructor; cbn [wfd werr liov iov siov calls sent]; rewrite ?concat_app; cbn [concat]; rewrite ?app_nil_r; try done.
  - rewrite length_app. simpl. lia.
  - rewrite length_app, H3. lia.
  - intros He. destruct (H5 He) as (p & Es & Ef). exists p. rewrite app_assoc, Ef. done.
  - intros He. destruct (H6 He) as [n En]. rewrite En. exists (Nat.min n (length full)). f_equal.
    destruct (decide (n <= length full)%nat) as [Hn|Hn].
    + rewrite Nat.min_l by exact Hn. rewrite take_app_le by exact Hn. done.
    + rewrite Nat.min_r by lia. rewrite take_app_length, take_ge by lia. done.
Qed.

Lemma write_ok full w ptr : wok full w -> exists w', WRW_Write writev w ptr = Some w' /\ wok (full ++ ptr) w'.
Proof.
  intros HW. unfold WRW_Write. rewrite (wo_fd _ _ HW), (proj2 (Z.ltb_ge fd0 0)), orb_false_r by exact Hfd.
  destruct (Nat.eqb_spec (length ptr) 0) as [E|E]; [| apply add_ok; exact HW].
  exists w. apply nil_length_inv in E as ->. rewrite app_nil_r. done.
Qed.
Lemma writeS_ok full w str : wok full w -> exists w', WRW_WriteS writev w str = Some w' /\ wok (full ++ c_str str) w'.
Proof.
  intros HW. unfold WRW_WriteS. rewrite (wo_fd _ _ HW), (proj2 (Z.ltb_ge fd0 0)) by exact Hfd. apply add_ok. exact HW.
Qed.
Lemma writeH_ok full w a b suf : wok full w ->
  exists w', WRW_WriteH writev w (Some (a, b)) suf = Some w' /\ wok (full ++ b ++ c_str suf) w'.
Proof.
  intros HW. unfold WRW_WriteH. rewrite bool_decide_true by (rewrite (wo_fd _ _ HW); eexists; done).
  destruct (write_ok full w b HW) as (w1 & -> & H1). destruct (writeS_ok _ w1 suf H1) as (w2 & -> & H2).
  exists w2. rewrite <- app_assoc in H2. done.
Qed.

Lemma write_fields_ok k hp : forall u full w r, wok full w -> write_loop k u hp = Some r ->
  exists w', write_fields writev k u w hp = Some w' /\ wok (full ++ r) w'.
Proof.
  induction k as [|k IH]; intros u full w r HW E; cbn [write_loop write_fields] in *.
  { injection E as <-. exists w. rewrite app_nil_r. done. }
  destruct (write_loop k (S u) hp) as [r1|] eqn:E1; [| done]. destruct (get hp u) as [[a b]|]; injection E as <-.
  - destruct (writeH_ok full w a b [13; 10] HW) as (w1 & -> & H1).
    destruct (IH _ _ _ r1 H1 E1) as (w2 & -> & H2). exists w2. split; [done |].
    repeat rewrite <- app_assoc in H2. exact H2.
  - apply (IH _ _ _ r1 HW E1).
Qed.

Lemma http_Write_ok full w hp l : wok full w -> http_Write hp true = Some l ->
  exists w', http_Write_resp writev w hp = Some w' /\ wok (full ++ l) w'.
Proof.
  intros HW E. unfold http_Write in E. unfold http_Write_resp.
  destruct (get hp HTTP_HDR_STATUS) as [[a2 b2]|] eqn:E2; [| done]. unfold WriteH in E. rewrite E2 in E.
  destruct (get hp HTTP_HDR_PROTO) as [[a1 b1]|]; [| done]. destruct (get hp HTTP_HDR_RESPONSE) as [[a3 b3]|]; [| done].
  destruct (write_loop _ _ hp) as [r|] eqn:Er; [| done]. injection E as <-.
  destruct (writeH_ok full w a1 b1 [32] HW) as (w1 & -> & H1).
  destruct (writeH_ok _ w1 a2 b2 [32] H1) as (w2 & -> & H2).
  destruct (writeH_ok _ w2 a3 b3 [13; 10] H2) as (w3 & -> & H3).
  destruct (write_fields_ok _ hp _ _ w3 r H3 Er) as (w4 & -> & H4).
  destruct (writeS_ok _ w4 [13; 10] H4) as (w5 & -> & H5). exists w5. split; [done |].
  change (c_str [32]) with [32] in H5. change (c_str [13; 10]) with [13; 10] in H5.
  repeat rewrite <- app_assoc in H5; repeat rewrite <- app_assoc. exact H5.
Qed.

Lemma write_store_ok l : forall full w u, wok full w -> 0 <= u -> u + Z.of_nat (length (concat l)) < 2 ^ 32 ->
  exists w', write_store writev w u l = Some (u + Z.of_nat (length (concat l)), w') /\ wok (full ++ concat l) w'.
Proof.
  induction l as [|st l IH]; intros full w u HW Hu Hl; cbn [write_store concat] in *.
  { exists w. rewrite app_nil_r, Z.add_0_r. done. }
  rewrite length_app in *. destruct (write_ok full w st HW) as (w1 & -> & H1).
  rewrite u32_small by lia. destruct (IH _ w1 (u + Z.of_nat (length st)) H1 ltac:(lia) ltac:(lia)) as (w2 & -> & H2).
  exists w2. rewrite <- app_assoc in H2. split; [do 2 f_equal; lia | exact H2].
Qed.

(** What a client is to get. *)
Definition message (sp : delivery) (head : list Z) : list Z :=
  (if disable_esi sp || (esis sp =? 0) then head else []) ++
  (if wantbody sp then
     (if chunked sp then Strtoul.print 16 (obj_len sp) ++ [13; 10] else []) ++ concat (store sp) ++
     (if chunked sp then [13; 10] else [])
   else []).

Lemma c_str_chunk n : 0 <= n -> c_str (Strtoul.print 16 n ++ [13; 10]) = Strtoul.print 16 n ++ [13; 10].
Proof.
  intros Hn. rewrite Strtoul.c_str_app; [done |]. rewrite <- list_elem_of_In. intros Hin.
  destruct (Strtoul.print_spec 16 ltac:(lia) n Hn) as (H & _). rewrite Forall_forall in H.
  destruct (H _ Hin) as [v Hv]. apply Strtoul.digit_not_space in Hv. tauto.
Qed.

End Kernel.

(** C20: Whatever the kernel takes of the pieces it is given, the bytes that go out are
    a prefix of the response: headers, and the segments of the object in order, in
    one chunk inside of an ESI response.  When the session is not closed it is all of
    it, and when the kernel takes everything the session is not closed.  The vector of
    pieces never overflows. *)
Theorem RES_WriteObj_prefix writev w sp head :
  (forall n l, -1 <= writev n l <= Z.of_nat (length (concat l))) ->
  wfd w = None -> (0 < siov w)%nat -> 0 <= fd sp ->
  disable_esi sp || negb (wantbody sp) || negb (has_esidata sp) = true ->
  http_Write (resp sp) true = Some head ->
  obj_len sp = Z.of_nat (length (concat (store sp))) -> obj_len sp < 2 ^ 31 ->
  exists closed w', RES_WriteObj writev w sp = Some (Done closed, w') /\ wfd w' = None /\
    (exists n, sent w' = sent w ++ take n (message sp head)) /\
    (closed = false -> sent w' = sent w ++ message sp head) /\
    ((forall n l, writev n l = Z.of_nat (length (concat l))) -> closed = false).
Proof.
  intros Hk Hw Hs Hfd Hesi Hh Hlen Hmax. unfold RES_WriteObj, WRW_Reserve. rewrite bool_decide_true by exact Hw.
  set (w0 := Worker (Some (fd sp)) 0 0 [] (siov w) (calls w) (sent w)).
  assert (W0 : wok writev (sent w) (fd sp) [] w0).
  { constructor; cbn [w0 wfd werr liov iov siov calls sent concat length]; try done; try lia.
    intros _. exists []. rewrite app_nil_r. done. }
  set (h := if disable_esi sp || (esis sp =? 0) then head else []).
  assert (G1 : exists w1, (if disable_esi sp || (esis sp =? 0) then http_Write_resp writev w0 (resp sp) else Some w0) = Some w1 /\
    wok writev (sent w) (fd sp) h w1).
  { unfold h. destruct (disable_esi sp || (esis sp =? 0)); [| exists w0; done].
    apply (http_Write_ok writev (sent w) (fd sp) Hk Hfd [] w0 (resp sp) head W0 Hh). }
  destruct G1 as (w1 & -> & W1).
  assert (Ed : negb (disable_esi sp) && wantbody sp && has_esidata sp = false)
    by (destruct (disable_esi sp), (wantbody sp), (has_esidata sp); done).
  rewrite Ed.
  assert (G2 : exists w2, (if wantbody sp then write_body writev w1 sp else Some w1) = Some w2 /\
    wok writev (sent w) (fd sp) (message sp head) w2).
  { unfold write_body, message. fold h. destruct (wantbody sp); [| exists w1; rewrite app_nil_r; done].
    assert (G3 : exists w3, (if chunked sp then WRW_WriteS writev w1 (Strtoul.print 16 (obj_len sp) ++ [13; 10]) else Some w1) = Some w3 /\
      wok writev (sent w) (fd sp) (h ++ (if chunked sp then Strtoul.print 16 (obj_len sp) ++ [13; 10] else [])) w3).
    { destruct (chunked sp); [| exists w1; rewrite app_nil_r; done].
      destruct (writeS_ok writev (sent w) (fd sp) Hk Hfd h w1 (Strtoul.print 16 (obj_len sp) ++ [13; 10]) W1) as (w3 & E3 & W3).
      rewrite c_str_chunk in W3 by lia. exists w3. done. }
    destruct G3 as (w3 & -> & W3).
    destruct (write_store_ok writev (sent w) (fd sp) Hk Hfd (store sp) _ w3 0 W3 ltac:(lia) ltac:(lia)) as (w4 & -> & W4).
    rewrite (proj2 (Z.eqb_eq (0 + _) (obj_len sp))) by lia. destruct (chunked sp).
    - destruct (writeS_ok writev (sent w) (fd sp) Hk Hfd _ w4 [13; 10] W4) as (w5 & -> & W5).
      exists w5. split; [done |]. repeat rewrite <- app_assoc in W5; repeat rewrite <- app_assoc. exact W5.
    - exists w4. split; [done |]. rewrite !app_nil_r in *. cbn [app]. exact W4. }
  destruct G2 as (w2 & -> & W2). unfold WRW_FlushRelease.
  destruct (flush_ok writev (sent w) (fd sp) Hk Hfd _ w2 W2) as (w3 & -> & [F1 F2 F3 F4 F5 F6 F7] & Hi & _).
  eexists _, _. split; [reflexivity |]. cbn [WRW_Release wfd sent]. split; [done |].
  rewrite Hi in F5. cbn [concat] in F5.
  assert (Hgood : werr w3 = 0 -> sent w3 = sent w ++ message sp head).
  { intros He. destruct (F5 He) as (p & -> & Ep). rewrite app_nil_r in Ep. rewrite Ep. done. }
  split; [| split].
  - destruct (Z.eq_dec (werr w3) 0) as [He|He]; [| apply F6; exact He].
    exists (length (message sp head)). rewrite take_ge by lia. apply Hgood. exact He.
  - intros Hc. apply Hgood. apply negb_false_iff, Z.eqb_eq in Hc. exact Hc.
  - intros Hall. rewrite (F7 Hall). done.
Qed.

Definition some {A} (o : option A) : bool := match o with Some _ => true | None => false end.

(** A conditional request is answered "Not Modified" exactly when every condition
    it makes holds: the object has a date, which is not after the date of
    [If-Modified-Since], which is not in the future; and the entity tags, when both
    sides have one, are the same.  Dates are compared as the text that carries them
    says.  An [If-None-Match] for an object without a tag is no condition. *)
Theorem conds_hold_means req t_req obj ims inm etag :
  http_GetHdr req H_If_Modified_Since = Some (Time.date <$> ims) ->
  match ims with Some t => Time.time_ok t | None => True end ->
  http_GetHdr req H_If_None_Match = Some inm ->
  http_GetHdr (o_http obj) H_ETag = Some etag ->
  conds_hold req t_req obj = Some (
    match ims with
    | Some t => negb (last_modified obj =? 0) && (last_modified obj <=? of_int t) && (of_int t <=? t_req)
    | None => true
    end &&
    match inm, etag with Some p, Some e => streq p e | _, _ => true end &&
    (some ims || (some inm && some etag))).
Proof.
  intros E1 Ht E2 E3. unfold conds_hold. rewrite E1.
  assert (G : forall c, (let? p := http_GetHdr req H_If_None_Match in
      match p with
      | None => Some c
      | Some p => let? e := http_GetHdr (o_http obj) H_ETag in
                  match e with None => Some c | Some e => if negb (streq p e) then Some false else Some true end
      end) = Some (match inm, etag with Some p, Some e => streq p e | _, _ => c end)).
  { intros c. rewrite E2, E3. destruct inm as [p|], etag as [e|]; try done. destruct (streq p e); done. }
  destruct ims as [t|]; cbn [fmap option_fmap option_map].
  - rewrite Time.date_parses by exact Ht.
    destruct (Z.eqb_spec (last_modified obj) 0); cbn [negb andb]; [done |].
    destruct (Z.ltb_spec t_req (of_int t)), (Z.leb_spec (of_int t) t_req); try lia; cbn [andb];
      [rewrite andb_false_r; done |].
    destruct (Z.ltb_spec (of_int t) (last_modified obj)), (Z.leb_spec (last_modified obj) (of_int t)); try lia; cbn [andb];
      [done |].
    rewrite G. destruct inm as [p|], etag as [e|]; cbn [some orb andb]; try done. rewrite andb_true_r. done.
  - rewrite G. destruct inm as [p|], etag as [e|]; cbn [some orb andb]; try done. rewrite andb_true_r. done.
Qed.

(** ** Concrete deliveries *)

Definition resp0 : http :=
  Http false 200 11 16 [None; None; Some (0, bs "HTTP/1.1"); Some (0, bs "200"); Some (0, bs "OK"); Some (0, bs "Age: 0")]
    (replicate 16 0) 6.
Definition delivery0 : delivery := Delivery 3 true 0 true 11 resp0 false [bs "hello "; bs "world"] 11.
(** A kernel that takes everything at first and then three bytes. *)
Definition kernel0 (n : nat) (l : list (list Z)) : Z :=
  let len := Z.of_nat (length (concat l)) in if (n =? 0)%nat then len else Z.min 3 len.

Lemma RES_WriteObj_prefix_witness :
  exists closed w', RES_WriteObj kernel0 (Worker None 0 0 [] 4 0 []) delivery0 = Some (Done closed, w') /\ wfd w' = None /\
    exists n, sent w' = [] ++ take n (message delivery0 (bs "HTTP/1.1 200 OK" ++ [13; 10] ++ bs "Age: 0" ++ [13; 10; 13; 10])).
Proof.
  destruct (RES_WriteObj_prefix kernel0 (Worker None 0 0 [] 4 0 []) delivery0
    (bs "HTTP/1.1 200 OK" ++ [13; 10] ++ bs "Age: 0" ++ [13; 10; 13; 10])) as (closed & w' & H1 & H2 & H3 & _).
  - intros n l. unfold kernel0. destruct (n =? 0)%nat; lia.
  - reflexivity.
  - simpl. lia.
  - discriminate.
  - reflexivity.
  - vm_compute. reflexivity.
  - vm_compute. reflexivity.
  - reflexivity.
  - exists closed, w'. split; [exact H1 |]. split; [exact H2 | exact H3].
Defined.

Definition asked : http :=
  Http true 0 11 16 (replicate 5 None ++ [Some (0, bs "If-Modified-Since: " ++ Time.date 784111777); Some (0, bs "If-None-Match: abc")])
    (replicate 16 0) 7.
Definition object0 : object :=
  Object 200 (of_int 784111777) (Http false 200 11 16 (replicate 5 None ++ [Some (0, bs "ETag: abc")]) (replicate 16 0) 6)
    7 0 (of_int 900000000) false.
Lemma conds_hold_means_witness :
  conds_hold asked (of_int 1000000000) object0 = Some (
    (negb (of_int 784111777 =? 0) && (of_int 784111777 <=? of_int 784111777) && (of_int 784111777 <=? of_int 1000000000)) &&
    streq (bs "abc") (bs "abc") && (some (Some 784111777) || (some (Some (bs "abc")) && some (Some (bs "abc"))))).
Proof.
  apply (conds_hold_means asked (of_int 1000000000) object0 (Some 784111777) (Some (bs "abc")) (Some (bs "abc")));
    vm_compute; repeat split; (reflexivity || discriminate).
Defined.

(** The headers of both kinds of answer. *)
Definition ws0 : ws := MkWs 4096 4096 0 6144 0.
Definition texts (r : option (hstate * bool * bool)) : list (list Z) * bool :=
  match r with
  | Some ((to, _, _, _), want, _) => (map (fun t => match t with Some (_, b) => b | None => [] end) (take (nhd to) (hd to)), want)
  | None => ([], false)
  end.
Definition rsp16 : http := Http false 0 0 16 (replicate 16 None) (replicate 16 0) 5.
Example answer_304 :
  texts (RES_BuildHttp rsp16 ws0 ∅ asked (of_int 1000000000) (of_int 1000000000) (of_int 1000000001) 9 true false true object0) =
  ([[]; []; bs "HTTP/1.1"; bs "304"; bs "Not Modified"; bs "Date: " ++ Time.date 1000000000; bs "Via: 1.1 varnish";
    bs "X-Varnish: 9"; bs "Last-Modified: " ++ Time.date 784111777; bs "ETag: abc"; bs "Connection: keep-alive"], false).
Proof. vm_compute. reflexivity. Qed.

End ResponseSpec.
