(* ===== verification/Pool.v ===== *)
(** * Pool: worker threads and the work queue

    One pool of [bin/varnishd/cache_pool.c].  A worker is named by its address; a
    request by a number.  What happens under the lock of the pool is one step;
    what follows without it are steps of their own, and the lists [giving],
    [signalling] and [kissing] say which threads are on their way there: a thread
    in [WRK_Queue] that took a worker off the idle list and has yet to give it the
    request, one that has yet to signal the worker, and the herder that took a
    worker off to end it.  The workspaces and statistics of a worker, and the
    delays of the herder, are left out. *)
From stdpp Require Import gmap.
From S2P Require Import Prelude Double.

Module Pool.
Import Double.

(** Where a worker is: in [Lck_CondWait], about to return from it, or in
    [w->wrq->func]. *)
Inductive phase := Waiting | Signalled | Running.

Record pool := Wq {
  idle : list Z;
  overflow : list Z;
  nthr : Z;
  nqueue : Z;
  ndrop : Z;
  noverflow : Z;
  phases : gmap Z phase;
  wrq : gmap Z Z;
  giving : list (Z * Z);
  signalling : list Z;
  kissing : list Z;
  finished : list Z
}.

Definition wq0 : pool := Wq [] [] 0 0 0 0 ∅ ∅ [] [] [] [].

(** The top of the loop of [wrk_thread_real], under the lock: the worker takes the
    first request that waits, or goes to sleep on the idle list. *)
Definition loop_top (w : Z) (p : pool) : pool :=
  match overflow p with
  | j :: l =>
      Wq (idle p) l (nthr p) (nqueue p - 1) (ndrop p) (noverflow p) (<[w := Running]> (phases p))
         (<[w := j]> (wrq p)) (giving p) (signalling p) (kissing p) (finished p)
  | [] =>
      Wq (w :: idle p) [] (nthr p) (nqueue p) (ndrop p) (noverflow p) (<[w := Waiting]> (phases p))
         (delete w (wrq p)) (giving p) (signalling p) (kissing p) (finished p)
  end.
Definition set_nthr (p : pool) (n : Z) : pool :=
  Wq (idle p) (overflow p) n (nqueue p) (ndrop p) (noverflow p) (phases p) (wrq p) (giving p) (signalling p)
     (kissing p) (finished p).
Definition set_phases (p : pool) (m : gmap Z phase) : pool :=
  Wq (idle p) (overflow p) (nthr p) (nqueue p) (ndrop p) (noverflow p) m (wrq p) (giving p) (signalling p)
     (kissing p) (finished p).

(** A new thread comes to the loop. *)
Definition thread_start (w : Z) (p : pool) : pool := loop_top w (set_nthr p (nthr p + 1)).

(** [WRK_Queue] up to where it gives the lock up; -1 when the request is refused. *)
Definition WRK_Queue (ovfl_max j : Z) (p : pool) : Z * pool :=
  match idle p with
  | w :: l =>
      (0, Wq l (overflow p) (nthr p) (nqueue p) (ndrop p) (noverflow p) (phases p) (wrq p)
             ((w, j) :: giving p) (signalling p) (kissing p) (finished p))
  | [] =>
      if ovfl_max <? nqueue p then
        (-1, Wq [] (overflow p) (nthr p) (nqueue p) (ndrop p + 1) (noverflow p) (phases p) (wrq p)
                (giving p) (signalling p) (kissing p) (finished p))
      else
        (0, Wq [] (overflow p ++ [j]) (nthr p) (nqueue p + 1) (ndrop p) (noverflow p + 1) (phases p) (wrq p)
               (giving p) (signalling p) (kissing p) (finished p))
  end.
(** [w->wrq = wrq], when [l] is what is left of [giving]. *)
Definition give (w j : Z) (l : list (Z * Z)) (p : pool) : pool :=
  Wq (idle p) (overflow p) (nthr p) (nqueue p) (ndrop p) (noverflow p) (phases p) (<[w := j]> (wrq p))
     l (w :: signalling p) (kissing p) (finished p).
(** [pthread_cond_signal(&w->cond)]: nothing, when the worker does not wait. *)
Definition cond_signal (w : Z) (p : pool) : pool :=
  match phases p !! w with Some Waiting => set_phases p (<[w := Signalled]> (phases p)) | _ => p end.
Definition signal (w : Z) (l : list Z) (p : pool) : pool :=
  cond_signal w (Wq (idle p) (overflow p) (nthr p) (nqueue p) (ndrop p) (noverflow p) (phases p) (wrq p)
                    (giving p) l (kissing p) (finished p)).

(** The worker returns from [Lck_CondWait]: without a request it ends. *)
Definition wake (w : Z) (p : pool) : pool :=
  match wrq p !! w with
  | None => set_nthr (set_phases p (delete w (phases p))) (nthr p - 1)
  | Some _ => set_phases p (<[w := Running]> (phases p))
  end.
(** The worker has served its request [j]. *)
Definition finish (w j : Z) (p : pool) : pool :=
  loop_top w (Wq (idle p) (overflow p) (nthr p) (nqueue p) (ndrop p) (noverflow p) (phases p)
                 (delete w (wrq p)) (giving p) (signalling p) (kissing p) (finished p ++ [j])).

(** [wrk_decimate_flock] up to where it gives the lock up; [old w] is
    [w->lastused < t_idle]. *)
Definition wrk_decimate_flock (wthread_min nthr_max : Z) (old : Z -> bool) (p : pool) : pool :=
  if wthread_min <? nthr p then
    match last (idle p) with
    | Some w =>
        if old w || (nthr_max <? nthr p)
        then Wq (take (length (idle p) - 1) (idle p)) (overflow p) (nthr p) (nqueue p) (ndrop p) (noverflow p)
                (phases p) (wrq p) (giving p) (signalling p) (w :: kissing p) (finished p)
        else p
    | None => p
    end
  else p.
(** The kiss on the cheek; a worker that has a request fails the assertion. *)
Definition kiss (w : Z) (l : list Z) (p : pool) : option pool :=
  assert! bool_decide (wrq p !! w = None) ;;
  Some (cond_signal w (Wq (idle p) (overflow p) (nthr p) (nqueue p) (ndrop p) (noverflow p) (phases p) (wrq p)
                          (giving p) (signalling p) l (finished p))).

(** ** The herders *)

(** Whether [wrk_breed_flock] tries to create a thread, and [lqueue] after it. *)
Definition wrk_breed_flock (wthread_min wthread_add_threshold nthr_max lqueue : Z) (p : pool) : bool * Z :=
  let more := (nthr p <? wthread_min) || ((wthread_add_threshold <? nqueue p) && (lqueue <? nqueue p)) in
  (more && negb (nthr_max <=? nthr p), nqueue p).
(** The limits of each of [nwq] pools: threads, and requests that wait. *)
Definition limits (wthread_max wthread_min overflow_max nwq : Z) : Z * Z :=
  let u := wthread_max / nwq in
  let nthr_max := if u <? wthread_min then wthread_min else u in
  (nthr_max, u32 (nthr_max * overflow_max) / 100).
(** The pool the next request goes to. *)
Definition next_pool (nq nwq : Z) : Z := let onq := u32 (nq + 1) in if nwq <=? onq then 0 else onq.

(** ** Steps *)

Section Steps.
Context (ovfl_max wthread_min nthr_max : Z).

(** A step, with the requests it accepts. *)
Inductive step : pool -> list Z -> pool -> Prop :=
  | s_start w p : phases p !! w = None -> step p [] (thread_start w p)
  | s_queue j p : fst (WRK_Queue ovfl_max j p) = 0 -> step p [j] (snd (WRK_Queue ovfl_max j p))
  | s_refuse j p : fst (WRK_Queue ovfl_max j p) <> 0 -> step p [] (snd (WRK_Queue ovfl_max j p))
  | s_give l1 w j l2 p : giving p = l1 ++ (w, j) :: l2 -> step p [] (give w j (l1 ++ l2) p)
  | s_signal l1 w l2 p : signalling p = l1 ++ w :: l2 -> step p [] (signal w (l1 ++ l2) p)
  | s_wake w p : phases p !! w = Some Signalled -> step p [] (wake w p)
  | s_finish w j p : phases p !! w = Some Running -> wrq p !! w = Some j -> step p [] (finish w j p)
  | s_decimate old p : step p [] (wrk_decimate_flock wthread_min nthr_max old p)
  | s_kiss l1 w l2 p p' : kissing p = l1 ++ w :: l2 -> kiss w (l1 ++ l2) p = Some p' -> step p [] p'.

(** What can be reached, and all that was accepted on the way. *)
Inductive reach : pool -> list Z -> Prop :=
  | r_init : reach wq0 []
  | r_step p acc l p' : reach p acc -> step p l p' -> reach p' (acc ++ l).

(** [Lck_CondWait] may also return on its own. *)
Inductive step' : pool -> list Z -> pool -> Prop :=
  | s_step p l p' : step p l p' -> step' p l p'
  | s_spurious w p : phases p !! w = Some Waiting -> step' p [] (set_phases p (<[w := Signalled]> (phases p))).
Inductive reach' : pool -> list Z -> Prop :=
  | r_init' : reach' wq0 []
  | r_step' p acc l p' : reach' p acc -> step' p l p' -> reach' p' (acc ++ l).
End Steps.

End Pool.
