(* ===== verification/PoolSpec.v ===== *)
(** * PoolSpec: no request is lost, and none waits while a worker is idle

    The invariant of a pool over all interleavings of its steps; and what happens
    to it when [Lck_CondWait] returns on its own. *)
From stdpp Require Import gmap.
From S2P Require Import Prelude Double Pool.

Module PoolSpec.
Import Pool.

Definition resting (p : pool) : list Z := idle p ++ (giving p).*1 ++ signalling p ++ kissing p.

Record pinv (ovfl_max : Z) (p : pool) (acc : list Z) : Prop := {
  p_nodup : NoDup (resting p);
  p_rest : forall w, w ∈ resting p <-> phases p !! w = Some Waiting;
  p_empty : forall w, w ∈ idle p \/ w ∈ (giving p).*1 \/ w ∈ kissing p -> wrq p !! w = None;
  p_given : forall w, w ∈ signalling p -> is_Some (wrq p !! w);
  p_running : forall w, phases p !! w = Some Running -> is_Some (wrq p !! w);
  p_alive : forall w, is_Some (wrq p !! w) -> is_Some (phases p !! w);
  p_queue : overflow p <> [] -> idle p = [];
  p_nqueue : nqueue p = Z.of_nat (length (overflow p));
  p_nthr : nthr p = Z.of_nat (size (phases p));
  p_bound : nqueue p <= Z.max 0 (ovfl_max + 1);
  p_once : acc ≡ₚ finished p ++ overflow p ++ (giving p).*2 ++ (map_to_list (wrq p)).*2
}.

Lemma jobs_insert (m : gmap Z Z) w j : m !! w = None -> (map_to_list (<[w := j]> m)).*2 ≡ₚ j :: (map_to_list m).*2.
Proof. intros H. rewrite map_to_list_insert by exact H. done. Qed.
Lemma jobs_delete (m : gmap Z Z) w j : m !! w = Some j -> (map_to_list m).*2 ≡ₚ j :: (map_to_list (delete w m)).*2.
Proof. intros H. rewrite <- (map_to_list_delete m w j H). done. Qed.

Section Steps.
Context (ovfl_max wthread_min nthr_max : Z).

(** A worker that is neither resting nor has a request comes to the top of the loop. *)
Lemma loop_top_inv w p acc :
  NoDup (resting p) -> w ∉ resting p -> wrq p !! w = None ->
  (forall v, v <> w -> v ∈ resting p <-> phases p !! v = Some Waiting) ->
  (forall v, v ∈ idle p \/ v ∈ (giving p).*1 \/ v ∈ kissing p -> wrq p !! v = None) ->
  (forall v, v ∈ signalling p -> is_Some (wrq p !! v)) ->
  (forall v, v <> w -> phases p !! v = Some Running -> is_Some (wrq p !! v)) ->
  (forall v, v <> w -> is_Some (wrq p !! v) -> is_Some (phases p !! v)) ->
  (overflow p <> [] -> idle p = []) -> nqueue p = Z.of_nat (length (overflow p)) ->
  (forall x, nthr p = Z.of_nat (size (<[w := x]> (phases p)))) -> nqueue p <= Z.max 0 (ovfl_max + 1) ->
  acc ≡ₚ finished p ++ overflow p ++ (giving p).*2 ++ (map_to_list (wrq p)).*2 ->
  pinv ovfl_max (loop_top w p) acc.
Proof.
  intros H1 Hw Hn H2 H3 H4 H5 H6 H7 H8 H9 H10 H11. unfold loop_top.
  destruct (overflow p) as [|j l] eqn:Eo.
  - constructor; unfold resting in *; cbn [idle overflow nthr nqueue phases wrq giving signalling kissing finished app length] in *;
      try done; try exact H8; try exact H10.
    + constructor; done.
    + intros v. rewrite elem_of_cons. destruct (decide (v = w)) as [->|Hv].
      * rewrite lookup_insert_eq. tauto.
      * rewrite lookup_insert_ne by done. rewrite <- (H2 v Hv). tauto.
    + intros v Hv. destruct (decide (v = w)) as [->|Hvw]; [apply lookup_delete_eq |].
      rewrite lookup_delete_ne by done. apply H3. rewrite elem_of_cons in Hv. tauto.
    + intros v Hv. rewrite lookup_delete_ne; [apply H4; exact Hv |]. intros ->. apply Hw. set_solver.
    + intros v Hv. destruct (decide (v = w)) as [->|Hvw]; [rewrite lookup_insert_eq in Hv; done |].
      rewrite lookup_insert_ne in Hv by done. rewrite lookup_delete_ne by done. apply H5; done.
    + intros v Hv. destruct (decide (v = w)) as [->|Hvw]; [rewrite lookup_insert_eq; eexists; done |].
      rewrite lookup_delete_ne in Hv by done. rewrite lookup_insert_ne by done. apply H6; done.
    + rewrite delete_id by exact Hn. exact H11.
  - assert (Ei : idle p = []) by (apply H7; done).
    constructor; unfold resting in *; cbn [idle overflow nthr nqueue phases wrq giving signalling kissing finished length] in *;
      try done.
    + intros v. destruct (decide (v = w)) as [->|Hv].
      * rewrite lookup_insert_eq. split; [intros; contradiction | discriminate].
      * rewrite lookup_insert_ne by done. apply H2. exact Hv.
    + intros v Hv. rewrite lookup_insert_ne; [apply H3; exact Hv |]. intros <-. apply Hw. set_solver.
    + intros v Hv. rewrite lookup_insert_ne; [apply H4; exact Hv |]. intros <-. apply Hw. set_solver.
    + intros v Hv. destruct (decide (v = w)) as [->|Hvw]; [rewrite lookup_insert_eq; eexists; done |].
      rewrite lookup_insert_ne in Hv by done. rewrite lookup_insert_ne by done. apply H5; done.
    + intros v Hv. destruct (decide (v = w)) as [->|Hvw]; [rewrite lookup_insert_eq; eexists; done |].
      rewrite lookup_insert_ne in Hv by done. rewrite lookup_insert_ne by done. apply H6; done.
    + lia.
    + lia.
    + rewrite jobs_insert by exact Hn. rewrite H11. solve_Permutation.
Qed.

Ltac pool_simpl := unfold resting in *; cbn [idle overflow nthr nqueue phases wrq giving signalling kissing finished set_phases set_nthr] in *.

Lemma not_resting p acc w : pinv ovfl_max p acc -> phases p !! w <> Some Waiting -> w ∉ resting p.
Proof. intros I H Hin. apply (p_rest _ _ _ I) in Hin. done. Qed.
Lemma size_same (m : gmap Z phase) w x y : m !! w = Some y -> size (<[w := x]> m) = size m.
Proof. intros H. rewrite map_size_insert_Some by (eexists; exact H). done. Qed.

Lemma thread_start_inv w p acc : pinv ovfl_max p acc -> phases p !! w = None -> pinv ovfl_max (thread_start w p) acc.
Proof.
  intros I Hw. assert (Hr : w ∉ resting p) by (apply (not_resting p acc); [exact I | congruence]).
  destruct I as [I1 I2 I3 I4 I5 I6 I7 I8 I9 I10 I11]. unfold thread_start.
  apply loop_top_inv; pool_simpl; try done; try (intros v _; first [apply I2 | apply I5 | apply I6]).
  - destruct (wrq p !! w) eqn:E; [| done]. destruct (I6 w) as [x Hx]; [eexists; exact E | congruence].
  - intros x. rewrite map_size_insert_None by exact Hw. lia.
Qed.

Lemma queue_inv j p acc : pinv ovfl_max p acc ->
  pinv ovfl_max (snd (WRK_Queue ovfl_max j p)) (if fst (WRK_Queue ovfl_max j p) =? 0 then acc ++ [j] else acc).
Proof.
  intros [I1 I2 I3 I4 I5 I6 I7 I8 I9 I10 I11]. unfold WRK_Queue. destruct (idle p) as [|w l] eqn:Ei.
  - destruct (Z.ltb_spec ovfl_max (nqueue p)); cbn [fst snd Z.eqb].
    + constructor; pool_simpl; rewrite ?Ei in *; done.
    + constructor; pool_simpl; rewrite ?Ei in *; try done.
      * rewrite length_app. simpl. lia.
      * lia.
      * rewrite I11. solve_Permutation.
  - assert (Eo : overflow p = []) by (destruct (overflow p); [done | discriminate I7; done]).
    cbn [fst snd Z.eqb]. constructor; pool_simpl; rewrite ?Ei in *; cbn [fmap list_fmap fst snd app] in *; try done.
    + rewrite <- (Permutation_middle l). exact I1.
    + intros v. rewrite <- I2. rewrite !elem_of_app, !elem_of_cons, !elem_of_app. tauto.
    + intros v Hv. apply I3. rewrite elem_of_cons in Hv |- *. tauto.
    + rewrite I11. solve_Permutation.
Qed.

Lemma give_inv l1 w j l2 p acc : pinv ovfl_max p acc -> giving p = l1 ++ (w, j) :: l2 ->
  pinv ovfl_max (give w j (l1 ++ l2) p) acc.
Proof.
  intros [I1 I2 I3 I4 I5 I6 I7 I8 I9 I10 I11] Eg. unfold give.
  assert (Hn : wrq p !! w = None).
  { apply I3. right. left. rewrite Eg, fmap_app. apply elem_of_app. right. left. }
  assert (Hp : resting p ≡ₚ idle p ++ (l1 ++ l2).*1 ++ w :: signalling p ++ kissing p).
  { unfold resting. rewrite Eg, !fmap_app. cbn [fmap list_fmap fst]. solve_Permutation. }
  assert (Hd : forall v, v ∈ idle p \/ v ∈ (l1 ++ l2).*1 \/ v ∈ kissing p -> v <> w).
  { intros v Hv ->. rewrite Hp in I1.
    assert (Hq : idle p ++ (l1 ++ l2).*1 ++ w :: signalling p ++ kissing p ≡ₚ
      w :: idle p ++ (l1 ++ l2).*1 ++ signalling p ++ kissing p) by solve_Permutation.
    rewrite Hq in I1. apply NoDup_cons in I1 as [Hx _]. apply Hx. rewrite !elem_of_app. rewrite fmap_app, elem_of_app in *. tauto. }
  constructor; pool_simpl; try done.
  - rewrite <- Hp. exact I1.
  - intros v. rewrite <- I2, Hp. done.
  - intros v Hv. rewrite lookup_insert_ne by (intros <-; apply (Hd w Hv); done). apply I3. rewrite Eg, !fmap_app.
    rewrite fmap_app in Hv. cbn [fmap list_fmap fst]. rewrite !elem_of_app, elem_of_cons in *. tauto.
  - intros v. rewrite elem_of_cons. destruct (decide (v = w)) as [->|Hv]; [rewrite lookup_insert_eq; eexists; done |].
    rewrite lookup_insert_ne by done. intros [?|?]; [done | auto].
  - intros v Hv. destruct (decide (v = w)) as [->|Hvw]; [rewrite lookup_insert_eq; eexists; done |].
    rewrite lookup_insert_ne by done. auto.
  - intros v Hv. destruct (decide (v = w)) as [->|Hvw].
    + assert (Hw : phases p !! w = Some Waiting).
      { apply I2. rewrite Hp, !elem_of_app, elem_of_cons. tauto. }
      eexists. exact Hw.
    + rewrite lookup_insert_ne in Hv by done. auto.
  - rewrite jobs_insert by exact Hn. rewrite I11, Eg, !fmap_app. cbn [fmap list_fmap snd]. solve_Permutation.
Qed.

(** A resting worker leaves the lists and is signalled. *)
Lemma signalled_inv w p q acc : pinv ovfl_max p acc ->
  resting p ≡ₚ w :: resting q -> phases q = <[w := Signalled]> (phases p) ->
  idle q = idle p -> giving q = giving p ->
  (forall v, v ∈ signalling q -> v ∈ signalling p) -> (forall v, v ∈ kissing q -> v ∈ kissing p) ->
  overflow q = overflow p -> nthr q = nthr p -> nqueue q = nqueue p -> wrq q = wrq p -> finished q = finished p ->
  pinv ovfl_max q acc.
Proof.
  intros [I1 I2 I3 I4 I5 I6 I7 I8 I9 I10 I11] Hp Eph Ei Eg Hs Hk Eo Et En Ew Ef.
  assert (Hw : phases p !! w = Some Waiting) by (apply I2; rewrite Hp; left).
  rewrite Hp in I1. apply NoDup_cons in I1 as [Hn I1].
  constructor; rewrite ?Eph, ?Ei, ?Eg, ?Eo, ?Et, ?En, ?Ew, ?Ef; try done.
  - intros v. destruct (decide (v = w)) as [->|Hv].
    + rewrite lookup_insert_eq. split; [intros; contradiction | discriminate].
    + rewrite lookup_insert_ne by done. rewrite <- I2, Hp, elem_of_cons. tauto.
  - intros v Hv. apply I3. destruct Hv as [?|[?|?]]; auto.
  - intros v Hv. apply I4. auto.
  - intros v Hv. destruct (decide (v = w)) as [->|Hvw]; [rewrite lookup_insert_eq in Hv; done |].
    rewrite lookup_insert_ne in Hv by done. auto.
  - intros v Hv. destruct (decide (v = w)) as [->|Hvw]; [rewrite lookup_insert_eq; eexists; done |].
    rewrite lookup_insert_ne by done. auto.
  - rewrite (size_same _ _ _ _ Hw). exact I9.
Qed.

Lemma signal_inv l1 w l2 p acc : pinv ovfl_max p acc -> signalling p = l1 ++ w :: l2 ->
  pinv ovfl_max (signal w (l1 ++ l2) p) acc.
Proof.
  intros I Es.
  assert (Hp : resting p ≡ₚ w :: idle p ++ (giving p).*1 ++ (l1 ++ l2) ++ kissing p)
    by (unfold resting; rewrite Es; solve_Permutation).
  assert (Hw : phases p !! w = Some Waiting) by (apply (p_rest _ _ _ I); rewrite Hp; left).
  unfold signal, cond_signal. cbn [phases]. rewrite Hw.
  apply (signalled_inv w p _ acc I); pool_simpl; try done.
  intros v. rewrite Es, !elem_of_app, elem_of_cons. tauto.
Qed.

Lemma kiss_inv l1 w l2 p acc : pinv ovfl_max p acc -> kissing p = l1 ++ w :: l2 ->
  exists p', kiss w (l1 ++ l2) p = Some p' /\ pinv ovfl_max p' acc.
Proof.
  intros I Ek.
  assert (Hp : resting p ≡ₚ w :: idle p ++ (giving p).*1 ++ signalling p ++ (l1 ++ l2))
    by (unfold resting; rewrite Ek; solve_Permutation).
  assert (Hw : phases p !! w = Some Waiting) by (apply (p_rest _ _ _ I); rewrite Hp; left).
  assert (Hn : wrq p !! w = None).
  { apply (p_empty _ _ _ I). right. right. rewrite Ek. apply elem_of_app. right. left. }
  unfold kiss. rewrite bool_decide_true by exact Hn. eexists. split; [reflexivity |].
  unfold cond_signal. cbn [phases]. rewrite Hw.
  apply (signalled_inv w p _ acc I); pool_simpl; try done.
  intros v. rewrite Ek, !elem_of_app, elem_of_cons. tauto.
Qed.

Lemma wake_inv w p acc : pinv ovfl_max p acc -> phases p !! w = Some Signalled -> pinv ovfl_max (wake w p) acc.
Proof.
  intros I Hw. assert (Hr : w ∉ resting p) by (apply (not_resting p acc); [exact I | congruence]).
  destruct I as [I1 I2 I3 I4 I5 I6 I7 I8 I9 I10 I11]. unfold wake. destruct (wrq p !! w) as [j|] eqn:Ew.
  - constructor; pool_simpl; try done.
    + intros v. destruct (decide (v = w)) as [->|Hv].
      * rewrite lookup_insert_eq. split; [intros; contradiction | discriminate].
      * rewrite lookup_insert_ne by done. apply I2.
    + intros v Hv. destruct (decide (v = w)) as [->|Hvw]; [eexists; exact Ew |].
      rewrite lookup_insert_ne in Hv by done. auto.
    + intros v Hv. destruct (decide (v = w)) as [->|Hvw]; [rewrite lookup_insert_eq; eexists; done |].
      rewrite lookup_insert_ne by done. auto.
    + rewrite (size_same _ _ _ _ Hw). exact I9.
  - constructor; pool_simpl; try done.
    + intros v. destruct (decide (v = w)) as [->|Hv].
      * rewrite lookup_delete_eq. split; [intros; contradiction | discriminate].
      * rewrite lookup_delete_ne by done. apply I2.
    + intros v Hv. destruct (decide (v = w)) as [->|Hvw]; [rewrite lookup_delete_eq in Hv; done |].
      rewrite lookup_delete_ne in Hv by done. auto.
    + intros v Hv. destruct (decide (v = w)) as [->|Hvw]; [rewrite Ew in Hv; destruct Hv; done |].
      rewrite lookup_delete_ne by done. auto.
    + assert (size (delete w (phases p)) = pred (size (phases p))) as -> by (apply map_size_delete_Some; eexists; exact Hw).
      assert (size (phases p) <> 0)%nat; [| lia].
      intros E0. apply map_size_empty_inv in E0. rewrite E0, lookup_empty in Hw. done.
Qed.

Lemma finish_inv w j p acc : pinv ovfl_max p acc -> phases p !! w = Some Running -> wrq p !! w = Some j ->
  pinv ovfl_max (finish w j p) acc.
Proof.
  intros I Hw Ej. assert (Hr : w ∉ resting p) by (apply (not_resting p acc); [exact I | congruence]).
  destruct I as [I1 I2 I3 I4 I5 I6 I7 I8 I9 I10 I11]. unfold finish.
  apply loop_top_inv; pool_simpl; try done.
  - apply lookup_delete_eq.
  - intros v Hv. destruct (decide (v = w)) as [->|Hvw]; [apply lookup_delete_eq |]. rewrite lookup_delete_ne by done. auto.
  - intros v Hv. rewrite lookup_delete_ne; [auto |]. intros <-. apply Hr. rewrite !elem_of_app. auto.
  - intros v Hvw Hv. rewrite lookup_delete_ne by done. auto.
  - intros v Hvw Hv. rewrite lookup_delete_ne in Hv by done. auto.
  - intros x. rewrite (size_same _ _ _ _ Hw). exact I9.
  - rewrite I11, (jobs_delete _ w j Ej). solve_Permutation.
Qed.

Lemma decimate_inv old p acc : pinv ovfl_max p acc -> pinv ovfl_max (wrk_decimate_flock wthread_min nthr_max old p) acc.
Proof.
  intros I. unfold wrk_decimate_flock. destruct (_ <? _); [| exact I].
  destruct (last (idle p)) as [w|] eqn:El; [| exact I]. destruct (_ || _); [| exact I].
  apply last_Some in El as [l El].
  assert (Et : take (length (idle p) - 1) (idle p) = l).
  { rewrite El, length_app. cbn [length]. replace (length l + 1 - 1)%nat with (length l) by lia. apply take_app_length. }
  rewrite Et. destruct I as [I1 I2 I3 I4 I5 I6 I7 I8 I9 I10 I11].
  assert (Hp : resting p ≡ₚ l ++ (giving p).*1 ++ signalling p ++ w :: kissing p)
    by (unfold resting; rewrite El; solve_Permutation).
  constructor; pool_simpl; try done.
  - rewrite <- Hp. exact I1.
  - intros v. rewrite <- I2, Hp. done.
  - intros v Hv. apply I3. rewrite El. rewrite elem_of_cons in Hv. rewrite elem_of_app, list_elem_of_singleton. tauto.
  - intros Ho. specialize (I7 Ho). rewrite El in I7. apply (f_equal length) in I7. rewrite length_app in I7. cbn [length] in I7. lia.
Qed.

Lemma step_inv p l p' acc : pinv ovfl_max p acc -> step ovfl_max wthread_min nthr_max p l p' -> pinv ovfl_max p' (acc ++ l).
Proof.
  intros I S. revert I.
  destruct S as [w q Hw|j q E|j q E|l1 w j l2 q E|l1 w l2 q E|w q E|w j q E1 E2|old q|l1 w l2 q q' E1 E2];
    intros I; rewrite ?app_nil_r.
  - apply thread_start_inv; done.
  - pose proof (queue_inv j q acc I) as H. rewrite E in H. exact H.
  - pose proof (queue_inv j q acc I) as H. rewrite (proj2 (Z.eqb_neq _ 0) E) in H. exact H.
  - apply give_inv; done.
  - apply signal_inv; done.
  - apply wake_inv; done.
  - apply finish_inv; done.
  - apply decimate_inv. exact I.
  - destruct (kiss_inv l1 w l2 q acc I E1) as (q2 & E3 & H). congruence.
Qed.

Lemma reach_inv p acc : reach ovfl_max wthread_min nthr_max p acc -> pinv ovfl_max p acc.
Proof.
  induction 1 as [|p acc l p' _ IH Hs]; [| apply (step_inv p l p' acc IH Hs)].
  constructor; unfold wq0; pool_simpl; try done.
  - constructor.
  - intros w. rewrite lookup_empty. split; [intros H; apply not_elem_of_nil in H; done | done].
  - intros w H. apply not_elem_of_nil in H. done.
  - intros w H. rewrite lookup_empty in H. destruct H. done.
  - lia.
Qed.


End Steps.

(** Two requests and one worker: the first is with the worker, the second waits. *)
Definition pool1 : pool := snd (WRK_Queue 5 7 (thread_start 1 wq0)).
Definition pool2 : pool := signal 1 [] (give 1 7 [] pool1).
Definition pool3 : pool := snd (WRK_Queue 5 8 (wake 1 pool2)).

Lemma pool3_reached : reach 5 1 10 pool3 [7; 8].
Proof.
  apply (r_step 5 1 10 (wake 1 pool2) [7] [8]); [| apply s_queue; reflexivity].
  apply (r_step 5 1 10 pool2 [7] []); [| apply s_wake; reflexivity].
  apply (r_step 5 1 10 (give 1 7 [] pool1) [7] []); [| apply (s_signal 5 1 10 [] 1 []); reflexivity].
  apply (r_step 5 1 10 pool1 [7] []); [| apply (s_give 5 1 10 [] 1 7 []); reflexivity].
  apply (r_step 5 1 10 (thread_start 1 wq0) [] [7]); [| apply s_queue; reflexivity].
  apply (r_step 5 1 10 wq0 [] []); [apply r_init | apply s_start; reflexivity].
Qed.


(** When [Lck_CondWait] returns on its own, the worker ends though it is on the idle
    list: the next request is given to a thread that is no more. *)
Theorem spurious_wakeup_loses : exists p acc,
  reach' 5 1 10 p acc /\ acc = [7] /\ wrq p !! 1 = Some 7 /\ phases p !! 1 = None /\ finished p = [].
Proof.
  set (q0 := thread_start 1 wq0).
  set (q1 := wake 1 (set_phases q0 (<[1 := Signalled]> (phases q0)))).
  set (q2 := snd (WRK_Queue 5 7 q1)).
  exists (give 1 7 [] q2), [7].
  split; [| repeat split; reflexivity].
  apply (r_step' 5 1 10 q2 [7] []); [| apply s_step, (s_give 5 1 10 [] 1 7 []); reflexivity].
  apply (r_step' 5 1 10 q1 [] [7]); [| apply s_step, s_queue; reflexivity].
  apply (r_step' 5 1 10 (set_phases q0 (<[1 := Signalled]> (phases q0))) [] []); [| apply s_step, s_wake; reflexivity].
  apply (r_step' 5 1 10 q0 [] []); [| apply s_spurious; reflexivity].
  apply (r_step' 5 1 10 wq0 [] []); [apply r_init' | apply s_step, s_start; reflexivity].
Qed.
End PoolSpec.
